(* ===== verification/_CoqProject ===== *)
-Q . S2P
Prelude.v
Ids.v
Common.v
Redis.v
RateLimit.v
Db.v
World.v
Media.v
Search.v
Posts.v
Notifications.v
Comments.v
Likes.v
Views.v
Moderation.v
Dogs.v
Users.v
Auth.v
Idempotency.v
Chat.v
Json.v
Realtime.v
Listener.v
ChatSocket.v
Cache.v
Trending.v
Jobs.v
Delivery.v
Permissions.v
Settings.v
IpAddr.v
Proxy.v
Responses.v
Middleware.v
Stream.v
Lifespan.v
Routes.v
ContentRoutes.v
Requests.v
Migrations.v
GrantAdmin.v
LockSnapshot.v
SeedData.v
SeedDemo.v
SeedInvariant.v
SeedOrder.v
Diagram.v
DiagramDoc.v
Logging.v
ErrorLog.v
