(* ===== verification/Prelude.v ===== *)
(** * PuppyTalk backend: a verification development

    PuppyTalk is a FastAPI community backend (posts, comments, likes, reports,
    direct messages, notifications, media, accounts) on PostgreSQL, Redis and an S3-compatible
    object store.  This library models its services and repositories as Rocq
    functions and proves what makes them correct.  Paths are below [src/app].

    ** How the program is modelled

    - Services and repositories are functions in the state-and-exception monad
      [Common.M]; an exception keeps the state reached, [Db.begin_tx] and
      [World.tx] are [async with db.begin()] and undo the database only.
    - The database ([Db.db]) is one finite map per table, with the unique
      constraints, foreign keys and ON DELETE actions the code relies on, and the
      generic statements of [db/statements.py].  Transactions run one after the
      other except where the code is written for races: optimistic locking of
      posts ([Posts]), locks ([Redis]), token rotation ([Auth]), the media
      protocol ([Media]), the room cache of a chat session ([ChatSocket]) and
      the fan-out between instances ([Realtime]) are transition systems over all
      interleavings.
    - Redis ([Redis.redis]) is a key space with expiry and a clock.  Each round
      trip consumes a tick of a schedule: delay, lost request, lost reply, flushed
      script cache.  Theorems quantify over every schedule unless they say that
      Redis is reachable.
    - The object store ([World.world]) has a schedule too: faults, and uploads by
      clients between any two calls of the server.
    - Wall-clock values, drawn identifiers and secrets are arguments.  Python [str]
      is a list of code points; the Unicode tables ([Prelude.UnicodeDB]), Postgres
      case folding ([Search.PgFold]) and collation ([Trending.Collation]), bcrypt,
      JWT, SHA-256, ETags and pydantic's JSON are parameters, and theorems hold
      for all of them (where one is assumed injective or to read back what it
      wrote, the statement says so).  The standard library's [json] is modelled
      ([Json]).
    - Integers are unbounded where Python's are.  Loops that are not structural
      run on fuel computed from the state ([Media.cleanup], [Notifications] and
      [Users] purges, [Common] and [Chat] page walks); polling loops have the
      bound the code gives them ([Cache.WAIT_POLLS]); running out is a distinct value and
      the theorems show that it does not happen.

    ** Files

    - [Prelude]: text, sequences, ORDER BY, record update, shared lemmas.
    - [Ids] ([core/ids.py]): Base62 and UUID text.  Round trips for every
      128-bit identifier, and no accepted text denotes more than 128 bits.
    - [Common] ([common], [core/exception_handlers.py]): exceptions, the monad,
      pagination; following the pages enumerates a listing exactly once.
    - [Redis] ([infra/redis.py], [infra/lock.py]): commands, scripts, locks;
      mutual exclusion of running leases in every interleaving, a release never
      frees a foreign lock, scripts run once.
    - [RateLimit] ([core/rate_limit.py], [core/middleware/rate_limit.py]): windows,
      policies, outage behaviour; exact admission, bounded memory, the gate.
    - [Db], [World]: the store and the process with its services.
    - [Media] ([domain/media], [infra/storage.py]): uploads, sweeps; no permanent
      object without a row, the promoted object has the validated bytes, sweeps
      terminate and spare what is used.
    - [Search], [Posts] ([domain/posts]): query parsing, ILIKE escaping, feed,
      creation, versioned editing, deletion.
    - [Notifications] ([domain/notifications], [infra/sns.py]): rows, retention,
      SSE fan-out, once-only delivery.
    - [Comments] ([domain/comments]): thread shape, previews and pages, counts.
    - [Likes] ([domain/likes]): one interface ([LikeTarget] with its laws), two
      instances, exact counters.
    - [Views] ([post_service.py]): view tracking and the buffered flush; no view
      is counted twice or lost under any Redis schedule when the commit outcome
      is known.
    - [Moderation] ([domain/reports], [domain/admin]): reports, blinding, reset,
      the triage feed; counters equal the active reports.
    - [Dogs] ([domain/dogs]): replacing the list, one representative.
    - [Users] ([domain/users]): unique columns, profile, blocks, withdrawal, purge
      with cascades and counter repair.
    - [Auth] ([domain/auth], [core/security.py], [api/dependencies/auth.py], account
      status in [domain/admin]): sign-up, login, rotation, logout, token
      resolution; suspension and logout take effect, tokens are used once.

    - [Idempotency] ([domain/posts/idempotency.py], [POST /posts]): the hooks around
      post creation.  Specification: a memo of successful creations per user and
      key; the handler refines it on a reachable Redis, a crashed request blocks
      its key only for the lock's lifetime, Redis trouble never blocks.
    - [Chat] ([domain/chat/service.py], [model.py]): rooms, messages, paging, inbox;
      the store's invariant, both paging directions enumerate, unread counts.
    - [Json]: the standard library's [json.dumps] and [json.loads], which read each
      other back.
    - [Realtime] ([infra/pubsub.py], [domain/chat/manager.py]): envelopes, connection
      tables, a cluster of instances; at most once, private, reaching every open
      socket, bounded connections.
    - [Listener] ([infra/pubsub.py]): the subscriber's loop; the watchdog fires
      exactly on silence, the reconnection delay is bounded.
    - [ChatSocket] ([domain/chat/router.py]): the WebSocket session over [Chat],
      [Auth], [RateLimit] and [Realtime], with texts, binary frames and deliveries
      of other tasks that may drop the socket; every frame's outcome, the room
      cache, and the two exceptions that leave the handler.
    - [Cache] ([infra/cache.py]): the read-through cache.  Specification: a cell with
      a time to live; waiters share one computation, trouble falls back.
    - [Trending] ([trending_post_service.py], [hashtag_service.py]): rankings and the
      block overlay, on [Cache].
    - [Jobs] ([core/cleanup.py], [main.py]): periodic jobs under locks.  Specification:
      every free job once, in order, each on its own, on a reachable Redis; on any
      Redis a round raises nothing.
    - [Delivery] ([notifications/schema.py], [notifications/service.py],
      [worker/jobs]): payloads, the announcement after the commit, the worker's
      retries; queue and inline task publish the same message, once while Redis
      keeps the mark, at least once otherwise.
    - [Permissions] ([api/dependencies/permissions.py]): author checks composed with
      the handlers behind them; only authors write, and what else a write moves.
    - [Settings] ([core/config.py]): lists, floors, the production check; a loaded
      configuration meets what the other theorems assume of it.

    - [IpAddr]: the standard library's [ipaddress], the part the proxy check uses.
    - [Proxy] ([core/middleware/proxy_headers.py], [api/dependencies/client.py]):
      trusted networks and forwarded addresses; what the limiter is keyed by.
    - [Responses] ([core/exception_handlers.py], [common/responses.py],
      [core/openapi_camel.py], [AuthorInfo]): the body of every answer and error;
      the handlers refine the contract of [Common], inactive authors are hidden.
    - [Middleware] ([core/middleware], [main.py]): the layers in the order they are
      added, over a framework that is a parameter; exact metrics, request
      identifiers, protection headers, access entries.
    - [Stream] ([notifications/service.py], [notifications/router.py]): the SSE
      generators of an instance as a state machine of openings, iterations,
      disconnections and deliveries; slots and queues follow the streams.
    - [Lifespan] ([main.py], [db/connection.py], [infra/redis.py], [infra/queue.py],
      [worker/settings.py]): bounded probes over drivers that may ignore a
      cancellation, start-up, background loops, shutdown, its order and what is
      skipped when a closing call fails.
    - [Routes] ([auth/router.py], [users/router.py], [dogs/router.py],
      [admin/router.py], [media/router.py]): the account, administration and media
      routes with their dependencies, cookies and background tasks.
    - [ContentRoutes] (the other [router.py] files, [api/dependencies/query.py]):
      the content routes, who sees what, which session is read.
    - [Requests] (the [schema.py] files): the rules of request bodies, followed into
      the widths of the columns.
    - [Migrations] ([migrations/versions], beside [app]): the revision chain as
      statements on a schema; it ends in what the mapped classes declare, the
      conversion of ids to [uuid] keeps keys and references of the rows, each
      downgrade restores what its revision found.
    - [GrantAdmin] ([scripts/grant_admin.py]): the operator's change of a role; it
      decides the next request, unless a request races with it.
    - [SeedData], [SeedDemo], [SeedInvariant], [SeedOrder] ([scripts/seed_demo.py]): the
      demo content and the purge of demo accounts, on the store and the object
      store, over a random generator given by its documented laws.  A finished run
      keeps the six invariants of [SeedInvariant.store_ok] and the comment counts,
      not those of report counters and image objects; a purge removes the
      demo accounts with what hangs on them and nothing else; posts are in order.
    - [LockSnapshot] ([scripts/uv_lock_snapshot.py], beside [app]): the dependency
      snapshot.  Specification: what is reachable along expanded edges.
    - [Diagram], [DiagramDoc] ([tools/gen_pipeline.py], beside [app]): the document
      generator and its calls; its check accepts exactly when every printed text
      fits its place, Hangul taking two columns, and accepts what the script writes.
    - [Logging] ([common/logging_config.py]): formatters and set-up; a JSON log reads
      back as its records, whatever the logged texts contain.
    - [ErrorLog] ([core/exception_handlers.py], [chat/router.py]): the event beside a
      masked answer, composing [Responses] and [Logging], and the text of error
      frames; every masked error can be found by the id in its answer.

    The interfaces between components are [Likes.LikeTarget], [Moderation]'s record
    of target operations, [World.redis_blind] (a computation that does not look
    at Redis, which [Idempotency], [Cache] and [Jobs] ask of what they wrap),
    [Middleware.HeaderOps] (what the layers ask of a header store),
    [Requests.FitTable] (a table whose rows have limited columns) and
    [Common.keeps] (an invariant of effectful code).

    Theorems without a claim number are further properties, or counterexamples to
    what a comment or the intent of the code says; each of the latter is about a
    concrete run.

    ** Not modelled

    The text of the metrics page, the wording of printed and free-text log
    lines, creating clients, engines and sessions, registering routers:
    libraries or wiring.  Of the demo seed: the bytes of its placeholder
    PNG and its S3 client.  Of the lock file's snapshot: reading TOML and the
    environment.  Of logging: rotating the file, formatting a traceback (a
    parameter).  Of the migrations: index methods, server defaults, the seed
    rows of categories, the width of Alembic's own table.  Pydantic's conversion
    of JSON into typed fields is a parameter or done before; [Requests] starts
    from typed bodies.  The framework below the middleware is a parameter of
    [Middleware]; the routes are functions of their own and not run under the
    stack, because matching a path, resolving dependencies and writing the
    response between the two are the framework's.  Read replicas are
    identified with the primary except in [Permissions] and in the message pages
    of [ContentRoutes], where the code reasons about a lagging one. *)

From stdpp Require Export base gmap sets list strings.
From Stdlib Require Export ZArith Lia.
From Stdlib Require Export Permutation Sorted.

#[global] Open Scope Z_scope.
#[global] Set Default Goal Selector "!".

(** ** Text

    A Python [str] is a sequence of Unicode code points. *)

Abbreviation ustr := (list Z).

(** ASCII literals of the source, as code points. *)
Fixpoint lit (s : string) : ustr :=
  match s with
  | EmptyString => []
  | String a s' => Z.of_N (Ascii.N_of_ascii a) :: lit s'
  end.

(** The same for a literal with characters beyond ASCII: UTF-8 bytes to code points. *)
Fixpoint utf8 (s : string) : ustr :=
  let byte a := Z.of_N (Ascii.N_of_ascii a) in
  match s with
  | EmptyString => []
  | String a s1 =>
      if byte a <? 128 then byte a :: utf8 s1
      else match s1 with
           | EmptyString => []
           | String b s2 =>
               if byte a <? 224 then ((byte a - 192) * 64 + (byte b - 128)) :: utf8 s2
               else match s2 with
                    | EmptyString => []
                    | String c s3 =>
                        if byte a <? 240 then ((byte a - 224) * 4096 + (byte b - 128) * 64 + (byte c - 128)) :: utf8 s3
                        else match s3 with
                             | EmptyString => []
                             | String d s4 =>
                                 ((byte a - 240) * 262144 + (byte b - 128) * 4096 + (byte c - 128) * 64 + (byte d - 128)) :: utf8 s4
                             end
                    end
           end
  end.

(** The part of the Unicode character database that [str] methods consult
    outside ASCII: lower-casing, [str.isdigit], the decimal value [int()]
    accepts and [\w].  Every theorem holds for any such tables. *)
Class UnicodeDB := {
  u_lower : Z -> list Z;
  u_isdigit : Z -> bool;
  u_decimal : Z -> option Z;
  u_word : Z -> bool;
}.

Definition between (lo hi c : Z) : bool := (lo <=? c) && (c <=? hi).

(** [str.isspace] on one code point (the complete list). *)
Definition is_space (c : Z) : bool :=
  between 9 13 c || between 28 32 c || (c =? 133) || (c =? 160) ||
  (c =? 5760) || between 8192 8202 c || (c =? 8232) || (c =? 8233) ||
  (c =? 8239) || (c =? 8287) || (c =? 12288).

Fixpoint drop_while {A} (p : A -> bool) (l : list A) : list A :=
  match l with
  | [] => []
  | x :: l' => if p x then drop_while p l' else l
  end.

Definition lstrip_by (p : Z -> bool) (s : ustr) : ustr := drop_while p s.
Definition rstrip_by (p : Z -> bool) (s : ustr) : ustr := reverse (drop_while p (reverse s)).
Definition strip_by (p : Z -> bool) (s : ustr) : ustr := rstrip_by p (lstrip_by p s).

(** [s.strip()] *)
Definition strip (s : ustr) : ustr := strip_by is_space s.

Fixpoint startswith (pre s : ustr) : bool :=
  match pre, s with
  | [], _ => true
  | c :: pre', d :: s' => (c =? d) && startswith pre' s'
  | _ :: _, [] => false
  end.

(** [s.replace(pat, rep)] for a non-empty [pat]: leftmost, non-overlapping.
    Every step consumes at least one code point, so [length s] is enough fuel. *)
Fixpoint replace_fuel (fuel : nat) (pat rep s : ustr) : ustr :=
  match fuel, s with
  | O, _ => s
  | _, [] => []
  | S f, c :: s' =>
      if startswith pat s then rep ++ replace_fuel f pat rep (drop (length pat) s)
      else c :: replace_fuel f pat rep s'
  end.
Definition replace (pat rep s : ustr) : ustr := replace_fuel (length s) pat rep s.

(** [s.split()]: maximal runs of non-space code points. *)
Fixpoint split_ws_aux (acc : ustr) (s : ustr) : list ustr :=
  match s with
  | [] => match acc with [] => [] | _ => [reverse acc] end
  | c :: s' =>
      if is_space c
      then match acc with [] => split_ws_aux [] s' | _ => reverse acc :: split_ws_aux [] s' end
      else split_ws_aux (c :: acc) s'
  end.
Definition split_ws (s : ustr) : list ustr := split_ws_aux [] s.

(** [s.lower()] *)
Definition lower_cp `{UnicodeDB} (c : Z) : ustr :=
  if c <? 128 then (if between 65 90 c then [c + 32] else [c]) else u_lower c.
Definition lower `{UnicodeDB} (s : ustr) : ustr := flat_map lower_cp s.

(** ** Sequences *)

(** [xs[:n]] *)
Definition py_take {A} (n : Z) (l : list A) : list A :=
  if n <? 0 then take (Z.to_nat (Z.of_nat (length l) + n)) l else take (Z.to_nat n) l.

Definition py_len {A} (l : list A) : Z := Z.of_nat (length l).

Lemma py_take_nonneg {A} n (l : list A) : 0 <= n -> py_take n l = take (Z.to_nat n) l.
Proof. intros. unfold py_take. destruct (Z.ltb_spec n 0); [lia | done]. Qed.

Lemma filter_length_le {A} (P : A -> Prop) `{!forall x, Decision (P x)} (l : list A) :
  (length (filter P l) <= length l)%nat.
Proof. induction l as [|x l IH]; [done|]. rewrite filter_cons. destruct (decide _); cbn; lia. Qed.

(** A Python [dict]: an association list in insertion order, each key once. *)
Section Dict.
Context {K V : Type} `{!EqDecision K}.

Fixpoint dict_get (k : K) (d : list (K * V)) : option V :=
  match d with
  | [] => None
  | (k', v) :: d' => if decide (k = k') then Some v else dict_get k d'
  end.

Fixpoint dict_set (k : K) (v : V) (d : list (K * V)) : list (K * V) :=
  match d with
  | [] => [(k, v)]
  | (k', v') :: d' => if decide (k = k') then (k, v) :: d' else (k', v') :: dict_set k v d'
  end.

Definition dict_del (k : K) (d : list (K * V)) : list (K * V) := filter (fun p => p.1 <> k) d.

Lemma dict_get_set k v k' d : dict_get k' (dict_set k v d) = if decide (k' = k) then Some v else dict_get k' d.
Proof.
  induction d as [|[j w] d IH]; cbn; [done|]. destruct (decide (k = j)) as [->|Hj]; cbn.
  - by destruct (decide (k' = j)).
  - rewrite IH. destruct (decide (k' = j)) as [->|]; [|done]. by rewrite decide_False.
Qed.

Lemma dict_get_In k v d : dict_get k d = Some v -> (k, v) ∈ d.
Proof.
  induction d as [|[j w] d IH]; cbn; [done|]. destruct (decide (k = j)) as [->|]; [intros [= ->]; set_solver|].
  intros H%IH. set_solver.
Qed.

Lemma dict_get_None_notin k v d : dict_get k d = None -> (k, v) ∈ d -> False.
Proof.
  induction d as [|[j w] d IH]; cbn; [set_solver|]. destruct (decide (k = j)); [done|]. intros Hn [[=]|]%elem_of_cons; [done|auto].
Qed.

Lemma dict_set_fresh k v d : k ∉ d.*1 -> dict_set k v d = d ++ [(k, v)].
Proof.
  induction d as [|[j w] d IH]; cbn; [done|]. intros [Hj Hd]%not_elem_of_cons. rewrite decide_False by done. by rewrite IH.
Qed.

Lemma dict_set_length k v d : (length (dict_set k v d) <= S (length d))%nat.
Proof. induction d as [|[k' v'] d IH]; cbn; [lia|]. destruct (decide _); cbn; lia. Qed.

Lemma dict_set_get_length k v v' d : dict_get k d = Some v' -> length (dict_set k v d) = length d.
Proof. induction d as [|[k' w] d IH]; cbn; [done|]. destruct (decide _); cbn; auto. Qed.

Lemma dict_del_length k v d : (k, v) ∈ d -> (length (dict_del k d) < length d)%nat.
Proof.
  unfold dict_del. induction d as [|[k' v'] d IH]; intros Hin; [by apply not_elem_of_nil in Hin|].
  rewrite filter_cons. cbn [fst]. destruct (decide (k' <> k)) as [Hne|Heq]; cbn.
  - apply elem_of_cons in Hin as [[=]|Hin]; [congruence|]. specialize (IH Hin). lia.
  - pose proof (filter_length_le (fun p : K * V => p.1 <> k) d). lia.
Qed.
End Dict.

(** ** Lemmas on text *)

(** Membership of a code point in a closed literal. *)
Ltac in_lit := apply (bool_decide_unpack _); vm_compute; exact I.

Lemma startswith_notin c pre s : c ∈ pre -> c ∉ s -> startswith pre s = false.
Proof.
  revert s. induction pre as [|d pre IH]; intros s Hin Hout; [by apply not_elem_of_nil in Hin|].
  destruct s as [|e s]; [done|]. cbn [startswith].
  apply not_elem_of_cons in Hout as [Hne Hout].
  destruct (Z.eqb_spec d e) as [->|]; [|done]. cbn.
  apply elem_of_cons in Hin as [->|Hin]; [done|]. auto.
Qed.

(** A pattern with a code point that [s] lacks does not occur in [s]. *)
Lemma replace_notin c pat rep s : c ∈ pat -> c ∉ s -> replace pat rep s = s.
Proof.
  intros Hin Hout. unfold replace. generalize (length s) at 1 as f. intros f.
  revert s Hout. induction f as [|f IH]; intros s Hout; [done|].
  destruct s as [|d s]; [done|]. cbn [replace_fuel].
  rewrite (startswith_notin c) by done. apply not_elem_of_cons in Hout as [_ Hout]. by rewrite IH.
Qed.

Lemma drop_while_none {A} (p : A -> bool) l :
  Forall (fun x => p x = false) l -> drop_while p l = l.
Proof. destruct 1; simpl; by simplify_eq/=; rewrite ?H. Qed.

Lemma strip_by_none p s : Forall (fun c => p c = false) s -> strip_by p s = s.
Proof.
  intros H. unfold strip_by, rstrip_by, lstrip_by.
  rewrite (drop_while_none p s) by done.
  rewrite drop_while_none; [by rewrite reverse_involutive|].
  by apply Forall_reverse.
Qed.

Lemma drop_while_elem_of {A} (p : A -> bool) x (l : list A) : x ∈ drop_while p l -> x ∈ l.
Proof.
  induction l as [|y l IH]; cbn; [done|]. destruct (p y); [|done].
  intros Hx. apply elem_of_cons. auto.
Qed.

Lemma drop_while_length {A} (p : A -> bool) l : (length (drop_while p l) <= length l)%nat.
Proof. induction l as [|y l IH]; cbn; [lia|]. destruct (p y); cbn; lia. Qed.

Lemma strip_by_elem_of p c s : c ∈ strip_by p s -> c ∈ s.
Proof.
  unfold strip_by, rstrip_by, lstrip_by. rewrite elem_of_reverse.
  intros Hc%drop_while_elem_of. rewrite elem_of_reverse in Hc.
  by eapply drop_while_elem_of.
Qed.

Lemma strip_by_length p s : (length (strip_by p s) <= length s)%nat.
Proof.
  unfold strip_by, rstrip_by, lstrip_by. rewrite length_reverse.
  etransitivity; [apply drop_while_length|]. rewrite length_reverse.
  apply drop_while_length.
Qed.

Lemma replace_single_nil c s : replace [c] [] s = filter (fun d => d <> c) s.
Proof.
  unfold replace.
  assert (forall f, (length s <= f)%nat -> replace_fuel f [c] [] s = filter (fun d => d <> c) s) as H.
  { induction s as [|d s IH]; intros f Hf; [by destruct f|].
    destruct f as [|f]; cbn in Hf; [lia|].
    cbn [replace_fuel startswith]. rewrite andb_true_r, filter_cons.
    destruct (Z.eqb_spec c d) as [->|Hne].
    - destruct (decide (d <> d)); [done|]. cbn. apply IH. lia.
    - destruct (decide (d <> c)); [|naive_solver]. f_equal. apply IH. lia. }
  by apply H.
Qed.

Lemma list_filter_all {A} (P : A -> Prop) `{!forall x, Decision (P x)} (l : list A) :
  (forall x, x ∈ l -> P x) -> filter P l = l.
Proof.
  induction l as [|x l IH]; intros HP; [done|]. rewrite filter_cons.
  destruct (decide (P x)) as [|Hn]; [|destruct Hn; apply HP; set_solver].
  f_equal. apply IH. intros y Hy. apply HP. by apply elem_of_cons; right.
Qed.

Lemma elem_of_take_drop {A} (x : A) k d (l : list A) : x ∈ take k (drop d l) -> x ∈ l.
Proof. intros Hx%elem_of_take. destruct Hx as (i & Hi & _). rewrite lookup_drop in Hi. by eapply list_elem_of_lookup_2. Qed.

(** ** ORDER BY

    Rows are ordered by a strict total order on their sort key; a listing puts
    [a] first when [ltb (key a) (key b)].  Ascending and descending listings
    and lexicographic keys are all instances. *)

Class StrictTotal {K} (ltb : K -> K -> bool) : Prop := {
  st_irrefl : forall x, ltb x x = false;
  st_trans : forall x y z, ltb x y = true -> ltb y z = true -> ltb x z = true;
  st_total : forall x y, ltb x y = false -> ltb y x = false -> x = y;
}.

#[export] Hint Mode StrictTotal ! ! : typeclass_instances.
Arguments st_irrefl {K} ltb {_} x.
Arguments st_trans {K} ltb {_} x y z _ _.
Arguments st_total {K} ltb {_} x y _ _.

#[export] Instance Zltb_strict : StrictTotal Z.ltb.
Proof. split; lia. Qed.

(** Descending order: [ORDER BY k DESC]. *)
Definition zdesc (x y : Z) : bool := y <? x.
#[export] Instance zdesc_strict : StrictTotal zdesc.
Proof. unfold zdesc. split; lia. Qed.

(** Row-value comparison [(a, b) < (c, d)], as SQL and Python define it. *)
Definition lex_ltb {K L} (kl : K -> K -> bool) (ll : L -> L -> bool) (x y : K * L) : bool :=
  kl x.1 y.1 || (negb (kl y.1 x.1) && ll x.2 y.2).

#[export] Instance lex_strict {K L} (kl : K -> K -> bool) (ll : L -> L -> bool) :
  StrictTotal kl -> StrictTotal ll -> StrictTotal (lex_ltb kl ll).
Proof.
  intros Hk Hl. unfold lex_ltb. split.
  - intros [x y]; cbn. by rewrite (st_irrefl kl), (st_irrefl ll).
  - intros [x1 x2] [y1 y2] [z1 z2]; cbn.
    destruct (kl x1 y1) eqn:E1, (kl y1 z1) eqn:E2; cbn.
    + by rewrite (st_trans kl x1 y1 z1 E1 E2).
    + destruct (kl z1 y1) eqn:E3; [done|]. intros _ _.
      rewrite <-(st_total kl y1 z1 E2 E3). by rewrite E1.
    + destruct (kl y1 x1) eqn:E3; [done|]. intros _ _.
      rewrite (st_total kl x1 y1 E1 E3). by rewrite E2.
    + destruct (kl y1 x1) eqn:E3; [done|]. destruct (kl z1 y1) eqn:E4; [done|].
      rewrite <-(st_total kl y1 z1 E2 E4). rewrite E1, E3. cbn. apply (st_trans ll).
  - intros [x1 x2] [y1 y2]; cbn.
    destruct (kl x1 y1) eqn:E1, (kl y1 x1) eqn:E2; cbn; try done.
    intros H1 H2. f_equal; [by apply (st_total kl)|by apply (st_total ll)].
Qed.

(** The order of Python [str]: by code points. *)
Fixpoint codepoints_ltb (a b : ustr) : bool :=
  match a, b with
  | _, [] => false
  | [], _ :: _ => true
  | x :: a', y :: b' => (x <? y) || ((x =? y) && codepoints_ltb a' b')
  end.
#[export] Instance codepoints_strict : StrictTotal codepoints_ltb.
Proof.
  split.
  - intros x. induction x as [|c x IH]; cbn; [done|]. rewrite IH. lia.
  - intros x y z. revert x z. induction y as [|b y IH]; intros [|a x] [|c z]; cbn; try done; try lia.
    intros H1 H2. specialize (IH x z). apply orb_true_iff in H1, H2. rewrite !andb_true_iff in *.
    apply orb_true_iff. rewrite andb_true_iff. destruct H1 as [H1|[H1 H1']], H2 as [H2|[H2 H2']]; try (left; lia). right. split; [lia|auto].
  - intros x y. revert y. induction x as [|a x IH]; intros [|b y]; cbn; try done. intros H1 H2.
    apply orb_false_iff in H1 as [H1 H1'], H2 as [H2 H2']. assert (a = b) as -> by lia. rewrite Z.eqb_refl in *. f_equal. by apply IH.
Qed.

Section OrderBy.
Context {A K : Type} (key : A -> K) (ltb : K -> K -> bool) `{!StrictTotal ltb}.

Fixpoint insert_by (x : A) (l : list A) : list A :=
  match l with
  | [] => [x]
  | y :: l' => if ltb (key y) (key x) then y :: insert_by x l' else x :: y :: l'
  end.

(** [ORDER BY key] *)
Definition order_by (l : list A) : list A := foldr insert_by [] l.

Definition listed_before (a b : A) : Prop := ltb (key a) (key b) = true.
Definition not_after (a b : A) : Prop := ltb (key b) (key a) = false.

Lemma insert_by_perm x l : insert_by x l ≡ₚ x :: l.
Proof.
  induction l as [|y l IH]; cbn; [done|]. destruct (ltb _ _); [|done].
  rewrite IH. apply Permutation_swap.
Qed.

Lemma order_by_perm l : order_by l ≡ₚ l.
Proof. induction l as [|x l IH]; cbn; [done|]. by rewrite insert_by_perm, IH. Qed.

Lemma not_after_trans a b c : not_after a b -> not_after b c -> not_after a c.
Proof.
  unfold not_after. intros H1 H2. destruct (ltb (key c) (key a)) eqn:E; [|done].
  destruct (ltb (key a) (key b)) eqn:E2.
  - rewrite (st_trans ltb (key c) (key a) (key b)) in H2; done.
  - rewrite <-(st_total ltb _ _ E2 H1) in H2. congruence.
Qed.

Lemma order_by_sorted l : StronglySorted not_after (order_by l).
Proof.
  induction l as [|x l IH]; cbn; [constructor|]. fold (order_by l).
  induction (order_by l) as [|y k IHk]; cbn.
  { by repeat constructor. }
  apply StronglySorted_inv in IH as [Hk Hy].
  destruct (ltb (key y) (key x)) eqn:E.
  - constructor; [by apply IHk|]. rewrite insert_by_perm. constructor; [|done].
    unfold not_after. destruct (ltb (key x) (key y)) eqn:E2; [|done].
    pose proof (st_trans ltb _ _ _ E E2) as H. by rewrite (st_irrefl ltb) in H.
  - constructor; [by constructor|]. constructor; [done|].
    eapply Forall_impl; [exact Hy|]. intros z Hz. by eapply not_after_trans.
Qed.

(** With pairwise distinct keys the listing is strict, hence unique. *)
Lemma order_by_strict l : NoDup (key <$> l) -> StronglySorted listed_before (order_by l).
Proof.
  intros Hnd. pose proof (order_by_sorted l) as Hs. rewrite <-(order_by_perm l) in Hnd.
  induction Hs as [|x k Hs IH Hx]; [constructor|]. cbn in Hnd. apply NoDup_cons in Hnd as [Hn Hnd].
  constructor; [by apply IH|]. rewrite Forall_forall in *. intros y Hy. specialize (Hx y Hy).
  unfold listed_before, not_after in *. destruct (ltb (key x) (key y)) eqn:E; [done|].
  destruct Hn. apply list_elem_of_fmap. exists y. split; [by apply (st_total ltb)|done].
Qed.

Lemma strict_sorted_unique l k :
  StronglySorted listed_before l -> StronglySorted listed_before k -> l ≡ₚ k -> l = k.
Proof.
  intros Hl. revert k. induction Hl as [|x l Hl IH Hx]; intros k Hk Hp.
  { by apply Permutation_nil_l in Hp. }
  destruct k as [|y k]; [by apply Permutation_nil_r in Hp|].
  apply StronglySorted_inv in Hk as [Hk Hy]. rewrite Forall_forall in Hx, Hy.
  assert (x = y) as ->.
  { assert (x ∈ y :: k) as [->|Hin]%elem_of_cons by (rewrite <-Hp; set_solver); [done|].
    assert (y ∈ x :: l) as [->|Hin']%elem_of_cons by (rewrite Hp; set_solver); [done|].
    specialize (Hx y Hin'). specialize (Hy x Hin). unfold listed_before in *.
    pose proof (st_trans ltb _ _ _ Hx Hy) as H. by rewrite (st_irrefl ltb) in H. }
  f_equal. apply IH; [done|]. by eapply Permutation_cons_inv.
Qed.

Lemma strict_sorted_filter (P : A -> bool) l :
  StronglySorted listed_before l -> StronglySorted listed_before (List.filter P l).
Proof.
  induction 1 as [|x l Hl IH Hx]; cbn; [constructor|]. destruct (P x); [|done].
  constructor; [done|]. rewrite Forall_forall in *. intros y Hy.
  apply Hx. apply list_elem_of_In, filter_In in Hy as [Hy _]. by apply list_elem_of_In.
Qed.

Lemma lfilter_perm (P : A -> bool) l k : l ≡ₚ k -> List.filter P l ≡ₚ List.filter P k.
Proof.
  induction 1; cbn; try done.
  - by destruct (P x); [constructor|].
  - destruct (P x), (P y); try done. apply Permutation_swap.
  - by etransitivity.
Qed.

Lemma order_by_filter (P : A -> bool) l :
  NoDup (key <$> l) -> order_by (List.filter P l) = List.filter P (order_by l).
Proof.
  intros Hnd. assert (NoDup (key <$> List.filter P l)) as Hnd'.
  { clear -Hnd. induction l as [|x l IH]; cbn in *; [constructor|].
    apply NoDup_cons in Hnd as [Hx Hnd]. destruct (P x); [|auto]. cbn.
    apply NoDup_cons. split; [|auto]. intros (y & E & Hy)%list_elem_of_fmap.
    apply Hx, list_elem_of_fmap. exists y. split; [done|].
    apply list_elem_of_In, filter_In in Hy as [Hy _]. by apply list_elem_of_In. }
  apply strict_sorted_unique.
  - by apply order_by_strict.
  - by apply strict_sorted_filter, order_by_strict.
  - rewrite order_by_perm. apply lfilter_perm. by rewrite order_by_perm.
Qed.
End OrderBy.

Lemma sorted_reverse {A : Type} (R : A -> A -> Prop) (l : list A) :
  StronglySorted R l -> StronglySorted (fun x y => R y x) (reverse l).
Proof.
  induction 1 as [|x l Hl IH Hx]; [constructor|]. rewrite reverse_cons.
  assert (forall k, StronglySorted (fun x y => R y x) k -> Forall (fun y => R x y) k ->
    StronglySorted (fun x y => R y x) (k ++ [x])) as Hsnoc.
  { induction 1 as [|y k Hk IHk Hy]; intros HF; cbn; [by repeat constructor|]. apply Forall_cons in HF as [Hxy HF].
    constructor; [by apply IHk|]. apply Forall_app. by repeat constructor. }
  apply Hsnoc; [done|]. by apply Forall_reverse.
Qed.

(** The opposite order lists the same rows backwards. *)
Lemma order_by_flip {A K : Type} (key : A -> K) (ltb gtb : K -> K -> bool) `{!StrictTotal ltb, !StrictTotal gtb} (l : list A) :
  (forall x y, gtb x y = ltb y x) -> NoDup (key <$> l) -> order_by key gtb l = reverse (order_by key ltb l).
Proof.
  intros Hg Hnd. apply (strict_sorted_unique key gtb).
  - by apply order_by_strict.
  - pose proof (sorted_reverse _ _ (order_by_strict key ltb l Hnd)) as Hs. unfold listed_before in *.
    induction Hs as [|x k Hk IH Hx]; constructor; [done|]. eapply Forall_impl; [exact Hx|]. intros y Hy. by rewrite Hg.
  - by rewrite reverse_Permutation, !order_by_perm.
Qed.
