(* ===== verification/Ids.v ===== *)
(** * Public identifiers ([app/core/ids.py])

    A [uuid.UUID] is its 128-bit integer.  The file models the Base62 codec of
    public ids, the standard library's UUID text forms it falls back on, and
    the two parsers built from them, and proves the codec and the parsers
    inverse to each other on every 128-bit identifier. *)

From S2P Require Import Prelude.

(** The [ValueError] reasons raised on these paths. *)
Inductive value_error :=
  | empty_base62 | invalid_base62_char | base62_overflow
  | empty_sub | public_id_type | public_id_empty | badly_formed_uuid.

Definition uuid_ok (n : Z) : Prop := 0 <= n < 2 ^ 128.

Definition BASE62 : ustr :=
  lit "0123456789ABCDEFGHIJKLMNOPQRSTUVWXYZabcdefghijklmnopqrstuvwxyz".

(** [_BASE62_INDEX.get(ch)] *)
Fixpoint index_from (i : Z) (alphabet : ustr) (c : Z) : option Z :=
  match alphabet with
  | [] => None
  | d :: alphabet' => if c =? d then Some i else index_from (i + 1) alphabet' c
  end.
Definition BASE62_INDEX (c : Z) : option Z := index_from 0 BASE62 c.

(** [_BASE62[r]]; the default is never used for a remainder modulo 62. *)
Definition base62_char (r : Z) : Z := nth (Z.to_nat r) BASE62 0.

(** The [while n:] loop, least significant digit first.  Each turn divides [n]
    by 62, so [S (log2 n)] turns always suffice. *)
Fixpoint base62_loop (fuel : nat) (n : Z) : ustr :=
  match fuel with
  | O => []
  | S f => if n =? 0 then [] else base62_char (n mod 62) :: base62_loop f (n / 62)
  end.

Definition uuid_to_base62 (n : Z) : ustr :=
  if n =? 0 then [base62_char 0]
  else reverse (base62_loop (S (Z.to_nat (Z.log2 n))) n).

(** The accumulation loop of [base62_to_uuid]; [bit_length() > 128] on a
    non-negative integer is [2^128 <= n]. *)
Fixpoint base62_accumulate (n : Z) (s : ustr) : value_error + Z :=
  match s with
  | [] => inr n
  | ch :: s' =>
      match BASE62_INDEX ch with
      | None => inl invalid_base62_char
      | Some idx =>
          let n' := n * 62 + idx in
          if 2 ^ 128 <=? n' then inl base62_overflow else base62_accumulate n' s'
      end
  end.

Definition base62_to_uuid (s : ustr) : value_error + Z :=
  let s := strip s in
  if decide (s = []) then inl empty_base62 else base62_accumulate 0 s.

(** ** Standard library: [UUID(str)] and [str(UUID)] *)

Section Uuid.
Context `{UnicodeDB}.

(** Digit value in [int(_, 16)]: ASCII hexadecimal digits and any Unicode
    decimal digit. *)
Definition hex_value (c : Z) : option Z :=
  if between 48 57 c then Some (c - 48)
  else if between 97 102 c then Some (c - 87)
  else if between 65 70 c then Some (c - 55)
  else if c <? 128 then None else u_decimal c.

(** Digits with single underscores between them; [ok] tells whether a digit
    (rather than an underscore or the start) was just read. *)
Fixpoint int16_digits (ok : bool) (acc : Z) (s : ustr) : option Z :=
  match s with
  | [] => if ok then Some acc else None
  | c :: s' =>
      if c =? 95 then (if ok then int16_digits false acc s' else None)
      else match hex_value c with
           | Some v => int16_digits true (acc * 16 + v) s'
           | None => None
           end
  end.

(** After the sign: an optional [0x]/[0X] prefix, itself optionally followed by
    one underscore. *)
Definition int16_unsigned (s : ustr) : option Z :=
  match s with
  | z :: x :: s' =>
      if (z =? 48) && ((x =? 120) || (x =? 88))
      then match s' with
           | u :: s'' => if u =? 95 then int16_digits false 0 s'' else int16_digits false 0 s'
           | [] => None
           end
      else int16_digits false 0 s
  | _ => int16_digits false 0 s
  end.

(** [int(s, 16)] *)
Definition int16 (s : ustr) : option Z :=
  match strip s with
  | [] => None
  | c :: s' =>
      if c =? 43 then int16_unsigned s'
      else if c =? 45 then Z.opp <$> int16_unsigned s'
      else int16_unsigned (c :: s')
  end.

Definition is_brace (c : Z) : bool := (c =? 123) || (c =? 125).

(** [uuid.UUID(hex)] *)
Definition UUID_of_str (s : ustr) : value_error + Z :=
  let h := replace (lit "uuid:") [] (replace (lit "urn:") [] s) in
  let h := replace (lit "-") [] (strip_by is_brace h) in
  if negb (length h =? 32)%nat then inl badly_formed_uuid
  else match int16 h with
       | Some n => if (0 <=? n) && (n <? 2 ^ 128) then inr n else inl badly_formed_uuid
       | None => inl badly_formed_uuid
       end.

Definition hex_char (d : Z) : Z := if d <? 10 then 48 + d else 87 + d.

(** ['%0kx' % n] on the low [k] digits. *)
Fixpoint hex_digits (k : nat) (n : Z) : ustr :=
  match k with
  | O => []
  | S k' => hex_digits k' (n / 16) ++ [hex_char (n mod 16)]
  end.

(** [str(UUID)] *)
Definition uuid_str (n : Z) : ustr :=
  let h := hex_digits 32 n in
  let dash := lit "-" in
  take 8 h ++ dash ++ take 4 (drop 8 h) ++ dash ++ take 4 (drop 12 h) ++ dash
    ++ take 4 (drop 16 h) ++ dash ++ drop 20 h.

(** ** The application's parsers *)

Definition jwt_sub_to_uuid (sub : ustr) : value_error + Z :=
  let raw := strip sub in
  if decide (raw = []) then inl empty_sub
  else match UUID_of_str raw with
       | inr n => inr n
       | inl _ => base62_to_uuid raw
       end.

(** What the Pydantic validator may be handed. *)
Inductive py_value := VUuid (n : Z) | VStr (s : ustr) | VOther.

Definition parse_public_id_value (v : py_value) : value_error + Z :=
  match v with
  | VUuid n => inr n
  | VOther => inl public_id_type
  | VStr v =>
      let s := strip v in
      if decide (s = []) then inl public_id_empty
      else match UUID_of_str s with
           | inr n => inr n
           | inl _ => base62_to_uuid s
           end
  end.

Definition parse_optional_public_id_value (v : option py_value) : value_error + option Z :=
  match v with
  | None => inr None
  | Some v => match parse_public_id_value v with inl e => inl e | inr n => inr (Some n) end
  end.

End Uuid.

(** ** Digits *)

Lemma base62_index_char r : 0 <= r < 62 -> BASE62_INDEX (base62_char r) = Some r.
Proof.
  intros Hr.
  assert (Forall (fun k => BASE62_INDEX (base62_char (Z.of_nat k)) = Some (Z.of_nat k)) (seq 0 62))
    as HF by (vm_compute; repeat constructor).
  rewrite Forall_forall in HF. specialize (HF (Z.to_nat r)).
  rewrite Z2Nat.id in HF by lia. apply HF. apply elem_of_seq. lia.
Qed.

Lemma base62_alphabet_plain : Forall (fun c => is_space c = false /\ c <> 58 /\ c <> 45) BASE62.
Proof. vm_compute. repeat constructor; done. Qed.

Lemma base62_char_in r : 0 <= r < 62 -> base62_char r ∈ BASE62.
Proof.
  intros. unfold base62_char. apply list_elem_of_In, nth_In.
  change (length BASE62) with 62%nat. lia.
Qed.

Definition base62_digit (c : Z) : Z := default 0 (BASE62_INDEX c).
Definition base62_step (n c : Z) : Z := n * 62 + base62_digit c.
Definition base62_value (s : ustr) : Z := fold_left base62_step s 0.

Lemma base62_loop_chars f n : 0 <= n -> Forall (.∈ BASE62) (base62_loop f n).
Proof.
  revert n. induction f as [|f IH]; intros n Hn; simpl; [constructor|].
  destruct (Z.eqb_spec n 0); constructor.
  - apply base62_char_in, Z.mod_pos_bound. lia.
  - apply IH, Z.div_pos; lia.
Qed.

(** Enough fuel: the loop consumes the whole number. *)
Lemma base62_loop_value f n :
  0 <= n < 2 ^ Z.of_nat f -> base62_value (reverse (base62_loop f n)) = n.
Proof.
  revert n. induction f as [|f IH]; intros n Hn; cbn [base62_loop].
  - change (2 ^ Z.of_nat 0) with 1 in Hn. cbn. lia.
  - destruct (Z.eqb_spec n 0) as [->|Hne]; [done|].
    rewrite reverse_cons. unfold base62_value. rewrite fold_left_app. fold (base62_value (reverse (base62_loop f (n / 62)))).
    rewrite IH.
    + cbn [fold_left]. unfold base62_step, base62_digit.
      rewrite base62_index_char by (apply Z.mod_pos_bound; lia). cbn. pose proof (Z.div_mod n 62). lia.
    + rewrite Nat2Z.inj_succ, Z.pow_succ_r in Hn by lia.
      split; [apply Z.div_pos; lia|]. apply Z.div_lt_upper_bound; lia.
Qed.

Lemma base62_loop_length f n : 0 <= n -> forall k, n < 62 ^ Z.of_nat k -> (length (base62_loop f n) <= k)%nat.
Proof.
  revert n. induction f as [|f IH]; intros n Hn k Hk; cbn [base62_loop length]; [lia|].
  destruct (Z.eqb_spec n 0); cbn [length]; [lia|].
  destruct k as [|k]; [cbn in Hk; lia|].
  rewrite Nat2Z.inj_succ, Z.pow_succ_r in Hk by lia.
  apply le_n_S, IH; [apply Z.div_pos; lia|]. apply Z.div_lt_upper_bound; lia.
Qed.

Lemma uuid_to_base62_chars n : 0 <= n -> Forall (.∈ BASE62) (uuid_to_base62 n).
Proof.
  intros Hn. unfold uuid_to_base62. destruct (Z.eqb_spec n 0).
  - constructor; [apply base62_char_in; lia|constructor].
  - apply Forall_reverse, base62_loop_chars. done.
Qed.

Lemma uuid_to_base62_value n : 0 <= n -> base62_value (uuid_to_base62 n) = n.
Proof.
  intros Hn. unfold uuid_to_base62. destruct (Z.eqb_spec n 0) as [->|]; [done|].
  apply base62_loop_value. split; [done|].
  rewrite Nat2Z.inj_succ, Z2Nat.id by apply Z.log2_nonneg.
  apply Z.log2_spec. lia.
Qed.

Lemma uuid_to_base62_length n : uuid_ok n -> (1 <= length (uuid_to_base62 n) <= 22)%nat.
Proof.
  intros [Hn Hlt]. split.
  - pose proof (uuid_to_base62_value n Hn) as Hv.
    unfold uuid_to_base62 in *. destruct (Z.eqb_spec n 0); [done|].
    destruct (reverse _); [cbn in Hv; lia | simpl; lia].
  - unfold uuid_to_base62. destruct (Z.eqb_spec n 0); [simpl; lia|].
    rewrite length_reverse. apply base62_loop_length; [done|].
    transitivity (2 ^ 128); [done|]. by vm_compute.
Qed.

Lemma index_from_nonneg i a c k : 0 <= i -> index_from i a c = Some k -> 0 <= k.
Proof.
  revert i. induction a as [|d a IH]; intros i Hi; cbn; [done|].
  destruct (c =? d); [naive_solver|]. apply IH. lia.
Qed.

Lemma index_from_total i a c : c ∈ a -> is_Some (index_from i a c).
Proof.
  revert i. induction a as [|d a IH]; intros i Hc; cbn; [by apply not_elem_of_nil in Hc|].
  destruct (Z.eqb_spec c d); [done|]. apply IH. by apply elem_of_cons in Hc as [|].
Qed.

Lemma base62_digit_nonneg c : 0 <= base62_digit c.
Proof.
  unfold base62_digit, BASE62_INDEX. destruct (index_from _ _ _) eqn:E; cbn; [|lia].
  by eapply index_from_nonneg in E.
Qed.

Lemma base62_fold_mono s n : 0 <= n -> n <= fold_left base62_step s n.
Proof.
  revert n. induction s as [|c s IH]; intros n Hn; cbn; [lia|].
  pose proof (base62_digit_nonneg c). unfold base62_step in *.
  etransitivity; [|apply IH; lia]. lia.
Qed.

Lemma base62_accumulate_value s n :
  Forall (.∈ BASE62) s -> 0 <= n -> fold_left base62_step s n < 2 ^ 128 ->
  base62_accumulate n s = inr (fold_left base62_step s n).
Proof.
  revert n. induction s as [|c s IH]; intros n Hs Hn Hlt; cbn [fold_left base62_accumulate] in *.
  { done. }
  apply Forall_cons in Hs as [Hc Hs].
  pose proof (base62_digit_nonneg c) as Hd.
  pose proof (base62_fold_mono s (base62_step n c)) as Hmono. unfold base62_step in Hmono at 1 2.
  destruct (BASE62_INDEX c) as [i|] eqn:Hi.
  - assert (base62_digit c = i) as Hdi by (unfold base62_digit; by rewrite Hi).
    assert (base62_step n c = n * 62 + i) as Hst by (unfold base62_step; by rewrite Hdi).
    rewrite Hst in *.
    destruct (Z.leb_spec (2 ^ 128) (n * 62 + i)); [lia|]. apply IH; [done|lia|done].
  - apply (index_from_total 0) in Hc as [? Hx]. unfold BASE62_INDEX in Hi. congruence.
Qed.

(** Decoding inverts encoding on the bare codec. *)
Lemma base62_codec n : uuid_ok n -> base62_to_uuid (uuid_to_base62 n) = inr n.
Proof.
  intros Hn. unfold base62_to_uuid, strip.
  pose proof (uuid_to_base62_chars n ltac:(destruct Hn; lia)) as Hc.
  rewrite strip_by_none.
  2:{ eapply Forall_impl; [exact Hc|]. intros c Hin.
      pose proof base62_alphabet_plain as HF. rewrite Forall_forall in HF. by apply HF. }
  pose proof (uuid_to_base62_length n Hn) as Hlen.
  destruct (decide _) as [E|_]; [rewrite E in Hlen; cbn in Hlen; lia|].
  pose proof (uuid_to_base62_value n ltac:(destruct Hn; lia)) as Hv. unfold base62_value in Hv.
  rewrite base62_accumulate_value; [by rewrite Hv|done|lia|]. rewrite Hv. by destruct Hn.
Qed.

Section UuidLemmas.
Context `{UnicodeDB}.

(** Base62 text is never mistaken for a UUID string: it is too short. *)
Lemma base62_not_uuid n : uuid_ok n -> UUID_of_str (uuid_to_base62 n) = inl badly_formed_uuid.
Proof.
  intros Hn. unfold UUID_of_str.
  pose proof (uuid_to_base62_chars n ltac:(destruct Hn; lia)) as Hc.
  pose proof (uuid_to_base62_length n Hn) as Hlen.
  assert (forall c, c ∈ uuid_to_base62 n -> c <> 58 /\ c <> 45) as Hplain.
  { intros c Hin. rewrite Forall_forall in Hc. specialize (Hc c Hin).
    pose proof base62_alphabet_plain as HF. rewrite Forall_forall in HF. naive_solver. }
  rewrite (replace_notin 58 (lit "urn:")); [|in_lit|naive_solver].
  rewrite (replace_notin 58 (lit "uuid:")); [|in_lit|naive_solver].
  rewrite (replace_notin 45 (lit "-")); [|in_lit|].
  2:{ intros Hin%strip_by_elem_of. naive_solver. }
  pose proof (strip_by_length is_brace (uuid_to_base62 n)).
  destruct (Nat.eqb_spec (length (strip_by is_brace (uuid_to_base62 n))) 32); [lia|done].
Qed.

Lemma hex_value_char d : 0 <= d < 16 -> hex_value (hex_char d) = Some d.
Proof.
  intros Hd. unfold hex_value, hex_char, between.
  destruct (Z.ltb_spec d 10).
  - destruct (Z.leb_spec 48 (48 + d)), (Z.leb_spec (48 + d) 57); try lia. cbn. f_equal. lia.
  - destruct (Z.leb_spec 48 (87 + d)), (Z.leb_spec (87 + d) 57),
      (Z.leb_spec 97 (87 + d)), (Z.leb_spec (87 + d) 102); try lia. cbn. f_equal. lia.
Qed.

Lemma hex_char_range d : 0 <= d < 16 -> between 48 57 (hex_char d) || between 97 102 (hex_char d) = true.
Proof.
  intros. unfold hex_char, between. destruct (Z.ltb_spec d 10); lia.
Qed.

Lemma hex_digits_length k n : length (hex_digits k n) = k.
Proof. revert n. induction k; intros; cbn; [done|]. rewrite length_app, IHk. cbn. lia. Qed.

Lemma int16_digits_snoc ok acc s d v x :
  int16_digits ok acc s = Some v -> hex_value d = Some x -> d <> 95 ->
  int16_digits ok acc (s ++ [d]) = Some (v * 16 + x).
Proof.
  intros E Hd Hne. revert ok acc E. induction s as [|c s IH]; intros ok acc E; cbn in *.
  - destruct ok; simplify_eq. destruct (Z.eqb_spec d 95); [done|]. by rewrite Hd.
  - destruct (c =? 95); [destruct ok; [auto|done]|]. destruct (hex_value c); [auto|done].
Qed.

Lemma hex_digits_value k n : 0 <= n < 16 ^ Z.of_nat k -> (1 <= k)%nat ->
  int16_digits false 0 (hex_digits k n) = Some n.
Proof.
  revert n. induction k as [|k IH]; intros n Hn Hk; [lia|].
  cbn [hex_digits].
  assert (0 <= n mod 16 < 16) as Hm by (apply Z.mod_pos_bound; lia).
  pose proof (hex_value_char _ Hm) as Hv. pose proof (hex_char_range _ Hm) as Hr.
  assert (hex_char (n mod 16) <> 95) as Hne by (intros E; by rewrite E in Hr).
  rewrite Nat2Z.inj_succ, Z.pow_succ_r in Hn by lia.
  pose proof (Z.div_mod n 16 ltac:(lia)).
  destruct k as [|k].
  - change (16 ^ Z.of_nat 0) with 1 in Hn. cbn [hex_digits app int16_digits].
    rewrite (proj2 (Z.eqb_neq _ _) Hne), Hv. f_equal. rewrite Z.mod_small; lia.
  - erewrite int16_digits_snoc; [| |exact Hv|done].
    2:{ apply IH; [|lia]. split; [apply Z.div_pos; lia|apply Z.div_lt_upper_bound; lia]. }
    f_equal. lia.
Qed.

Lemma hex_digits_chars k n :
  Forall (fun c => between 48 57 c || between 97 102 c = true) (hex_digits k n).
Proof.
  revert n. induction k as [|k IH]; intros; cbn; [constructor|].
  apply Forall_app. split; [apply IH|]. constructor; [|constructor].
  apply hex_char_range, Z.mod_pos_bound. lia.
Qed.

Lemma int16_plain s v :
  Forall (fun c => between 48 57 c || between 97 102 c = true) s ->
  int16_digits false 0 s = Some v -> int16 s = Some v.
Proof.
  intros Hs Hv. unfold int16, strip. rewrite strip_by_none.
  2:{ eapply Forall_impl; [exact Hs|]. intros c. unfold between, is_space, between. lia. }
  destruct s as [|c s]; [done|]. apply Forall_cons in Hs as [Hc Hs].
  destruct (Z.eqb_spec c 43) as [->|_]; [done|].
  destruct (Z.eqb_spec c 45) as [->|_]; [done|].
  unfold int16_unsigned. destruct s as [|x s]; [done|].
  apply Forall_cons in Hs as [Hx _].
  destruct (Z.eqb_spec x 120) as [->|]; [done|]. destruct (Z.eqb_spec x 88) as [->|]; [done|].
  cbn [orb]. by rewrite andb_false_r.
Qed.

Lemma uuid_str_hex n : replace (lit "-") [] (uuid_str n) = hex_digits 32 n.
Proof.
  change (lit "-") with [45]. rewrite replace_single_nil. unfold uuid_str.
  pose proof (hex_digits_chars 32 n) as Hc. revert Hc. generalize (hex_digits 32 n) as h. intros h Hh.
  assert (forall l : ustr, (forall c, c ∈ l -> c ∈ h) -> filter (fun d => d <> 45) l = l) as Hf.
  { intros l Hl. apply list_filter_all. intros c Hin. rewrite Forall_forall in Hh.
    specialize (Hh c (Hl c Hin)). unfold between in Hh. lia. }
  change (lit "-") with [45]. rewrite !filter_app. change (filter (fun d : Z => d <> 45) [45]) with (@nil Z).
  rewrite !app_nil_l, !Hf.
  - change 20%nat with (8 + 4 + 4 + 4)%nat. rewrite <-!drop_drop.
    change 16%nat with (8 + 4 + 4)%nat. rewrite <-!drop_drop.
    change 12%nat with (8 + 4)%nat. rewrite <-!drop_drop. by rewrite !take_drop.
  - intros c Hx. rewrite <-(take_drop 20 h). set_solver.
  - intros c Hx%elem_of_take_drop. done.
  - intros c Hx%elem_of_take_drop. done.
  - intros c Hx%elem_of_take_drop. done.
  - intros c Hx. by eapply (elem_of_take_drop _ _ 0).
Qed.

Lemma uuid_str_chars n c : c ∈ uuid_str n -> between 48 57 c || between 97 102 c || (c =? 45) = true.
Proof.
  intros Hin. destruct (decide (c = 45)) as [->|Hne]; [done|].
  assert (c ∈ hex_digits 32 n) as Hh.
  { rewrite <-uuid_str_hex. change (lit "-") with [45]. rewrite replace_single_nil. by apply list_elem_of_filter. }
  pose proof (hex_digits_chars 32 n) as HF. rewrite Forall_forall in HF. by rewrite (HF c Hh).
Qed.

Lemma uuid_str_codec n : uuid_ok n -> UUID_of_str (uuid_str n) = inr n.
Proof.
  intros Hn. unfold UUID_of_str.
  pose proof (uuid_str_chars n) as Hc.
  rewrite (replace_notin 58 (lit "urn:")); [|in_lit|intros Hx%Hc; done].
  rewrite (replace_notin 58 (lit "uuid:")); [|in_lit|intros Hx%Hc; done].
  rewrite strip_by_none.
  2:{ apply Forall_forall. intros c Hin%Hc. unfold between, is_brace in *. lia. }
  rewrite uuid_str_hex, hex_digits_length.
  replace (negb (32 =? 32)%nat) with false by reflexivity.
  assert (int16 (hex_digits 32 n) = Some n) as ->.
  { apply int16_plain; [apply hex_digits_chars|]. apply hex_digits_value; [|lia].
    replace (16 ^ Z.of_nat 32) with (2 ^ 128) by reflexivity. exact Hn. }
  destruct Hn as [H0%Z.leb_le H1%Z.ltb_lt]. by rewrite H0, H1.
Qed.
End UuidLemmas.

(** ** Properties *)

Section Properties.
Context `{UnicodeDB}.

Lemma uuid_to_base62_strip n : uuid_ok n ->
  strip (uuid_to_base62 n) = uuid_to_base62 n /\ uuid_to_base62 n <> [].
Proof.
  intros Hn. split.
  - apply strip_by_none. eapply Forall_impl; [apply uuid_to_base62_chars; destruct Hn; lia|].
    intros c Hin. pose proof base62_alphabet_plain as HF. rewrite Forall_forall in HF. by apply HF.
  - intros E. pose proof (uuid_to_base62_length n Hn) as Hl. rewrite E in Hl. cbn in Hl. lia.
Qed.

Lemma uuid_str_strip n : strip (uuid_str n) = uuid_str n /\ uuid_str n <> [].
Proof.
  assert (forall c, c ∈ uuid_str n -> is_space c = false) as Hc.
  { intros c Hin%uuid_str_chars. unfold between, is_space, between in *. lia. }
  split; [by apply strip_by_none, Forall_forall|].
  intros E. pose proof (uuid_str_hex n) as Hx. rewrite E in Hx.
  pose proof (hex_digits_length 32 n) as Hl. by rewrite <-Hx in Hl.
Qed.

Lemma uuid_str_inj n m : uuid_ok n -> uuid_ok m -> uuid_str n = uuid_str m -> n = m.
Proof.
  intros Hn Hm E. pose proof (uuid_str_codec n Hn) as H1.
  rewrite E, (uuid_str_codec m Hm) in H1. congruence.
Qed.

Lemma uuid_to_base62_inj n m : uuid_ok n -> uuid_ok m -> uuid_to_base62 n = uuid_to_base62 m -> n = m.
Proof.
  intros Hn Hm E. pose proof (base62_codec n Hn) as H1.
  rewrite E, (base62_codec m Hm) in H1. congruence.
Qed.

Lemma base62_accumulate_range n s m : uuid_ok n -> base62_accumulate n s = inr m -> uuid_ok m.
Proof.
  revert n. induction s as [|c s IH]; intros n Hn; cbn [base62_accumulate]; [naive_solver|].
  destruct (BASE62_INDEX c) as [i|] eqn:Hi; [|done].
  destruct (Z.leb_spec (2 ^ 128) (n * 62 + i)); [done|]. apply IH.
  unfold BASE62_INDEX in Hi. apply index_from_nonneg in Hi; [|lia].
  destruct Hn. split; lia.
Qed.

Lemma base62_to_uuid_range s n : base62_to_uuid s = inr n -> uuid_ok n.
Proof.
  unfold base62_to_uuid. destruct (decide _); [done|]. apply base62_accumulate_range. split; [lia|reflexivity].
Qed.

Lemma UUID_of_str_range s n : UUID_of_str s = inr n -> uuid_ok n.
Proof.
  unfold UUID_of_str. destruct (negb _); [done|]. destruct (int16 _) as [m|]; [|done].
  destruct (Z.leb_spec 0 m), (Z.ltb_spec m (2 ^ 128)); cbn; intros; by simplify_eq.
Qed.

(** Public ids survive the wire: for every 128-bit identifier, the Base62
    text the API serialises and the canonical UUID text are both parsed back to
    that identifier, by the request-parameter parser and by the JWT-subject
    parser. *)
Theorem public_id_roundtrip n : uuid_ok n ->
  parse_public_id_value (VStr (uuid_to_base62 n)) = inr n /\
  parse_public_id_value (VStr (uuid_str n)) = inr n /\
  jwt_sub_to_uuid (uuid_to_base62 n) = inr n /\
  jwt_sub_to_uuid (uuid_str n) = inr n /\
  parse_optional_public_id_value (Some (VStr (uuid_to_base62 n))) = inr (Some n).
Proof.
  intros Hn. unfold parse_optional_public_id_value, parse_public_id_value, jwt_sub_to_uuid.
  destruct (uuid_to_base62_strip n Hn) as [-> Hb], (uuid_str_strip n) as [-> Hs].
  rewrite !decide_False by done. by rewrite base62_not_uuid, base62_codec, uuid_str_codec.
Qed.

(** Whatever text arrives, a parser that accepts it yields an identifier
    of 128 bits: an over-long Base62 text is rejected, never wrapped around. *)
Theorem parsed_ids_in_range :
  (forall v n, parse_public_id_value v = inr n -> (forall m, v = VUuid m -> uuid_ok m) -> uuid_ok n) /\
  (forall s n, jwt_sub_to_uuid s = inr n -> uuid_ok n) /\
  (forall s n, base62_to_uuid s = inr n -> uuid_ok n).
Proof.
  split; [|split].
  - intros [m|s|] n; cbn; [naive_solver| |done]. destruct (decide _); [done|].
    destruct (UUID_of_str _) eqn:E; intros; simplify_eq; eauto using UUID_of_str_range, base62_to_uuid_range.
  - intros s n; unfold jwt_sub_to_uuid. destruct (decide _); [done|].
    destruct (UUID_of_str _) eqn:E; intros; simplify_eq; eauto using UUID_of_str_range, base62_to_uuid_range.
  - apply base62_to_uuid_range.
Qed.

End Properties.

(** The ASCII fragment of the character tables, for evaluation. *)
Definition ascii_db : UnicodeDB :=
  {| u_lower c := [c]; u_isdigit _ := false; u_decimal _ := None; u_word _ := true |}.

Lemma public_id_roundtrip_witness :
  uuid_to_base62 61 = lit "z" /\
  parse_public_id_value (H := ascii_db) (VStr (uuid_to_base62 (2 ^ 128 - 1))) = inr (2 ^ 128 - 1).
Proof.
  split; [reflexivity|]. apply (public_id_roundtrip (H := ascii_db) (2 ^ 128 - 1)). split; [lia|reflexivity].
Defined.

Lemma parsed_ids_in_range_witness :
  uuid_ok 3844 /\ base62_to_uuid (lit "7n42DGM5Tflk9n8mt7Fhc8") = inl base62_overflow.
Proof.
  split; [|reflexivity].
  apply (proj2 (proj2 (parsed_ids_in_range (H := ascii_db))) (lit " 100 ")). reflexivity.
Defined.
