(* ===== verification/Common.v ===== *)
(** * Shared contracts ([app/common], [app/core/exception_handlers.py])

    The project's exceptions with their HTTP and WebSocket mapping, the effect
    monad of the services, and the two pagination schemes with the theorems
    that walking the pages enumerates exactly the listing. *)

From S2P Require Import Prelude.

(** ** Exceptions ([common/exceptions.py]) *)

Inductive exn :=
  | PostNotFoundException | ConcurrentUpdateException
  | UserNotFoundException | UserWithdrawnException
  | EmailAlreadyExistsException | NicknameAlreadyExistsException
  | MissingRequiredFieldException | SignupImageTokenInvalidException
  | InvalidCredentialsException | UnauthorizedException | ForbiddenException
  | SelfDmException | CommentNotFoundException | InvalidPostIdFormatException
  | ImageNotFoundException | InvalidImageFileException | InvalidFileTypeException
  | InternalServerErrorException | InvalidRequestException
  | TooManyRequestsException | NotFoundException
  (** raised by the driver, the cache client or the standard library *)
  | UniqueViolation (constraint : ustr)  (** IntegrityError, SQLSTATE 23505 *)
  | ForeignKeyViolation                   (** IntegrityError, SQLSTATE 23503 *)
  | CheckViolation                        (** IntegrityError, any other SQLSTATE *)
  | DatabaseError
  | RedisError
  | InvalidTokenError                     (** [jwt.InvalidTokenError] family *)
  | PyValueError
  | StorageError
  | StaleDataError.

#[export] Instance exn_eq_dec : EqDecision exn.
Proof. solve_decision. Defined.

Inductive ApiCode :=
  | POST_NOT_FOUND | CONFLICT | USER_NOT_FOUND | USER_WITHDRAWN
  | EMAIL_ALREADY_EXISTS | NICKNAME_ALREADY_EXISTS | MISSING_REQUIRED_FIELD
  | SIGNUP_IMAGE_TOKEN_INVALID | INVALID_CREDENTIALS | UNAUTHORIZED | FORBIDDEN
  | DM_SAME_USER | COMMENT_NOT_FOUND | INVALID_POSTID_FORMAT | IMAGE_NOT_FOUND
  | INVALID_IMAGE_FILE | INVALID_FILE_TYPE | INTERNAL_SERVER_ERROR
  | INVALID_REQUEST | RATE_LIMIT_EXCEEDED | LOGIN_RATE_LIMIT_EXCEEDED
  | NOT_FOUND | CONSTRAINT_ERROR | DB_ERROR.

(** Class attributes [status_code] and [code] of a project exception;
    [None] when the exception is not a [BaseProjectException]. *)
Definition project_class (e : exn) : option (Z * ApiCode) :=
  match e with
  | PostNotFoundException => Some (404, POST_NOT_FOUND)
  | ConcurrentUpdateException => Some (409, CONFLICT)
  | UserNotFoundException => Some (404, USER_NOT_FOUND)
  | UserWithdrawnException => Some (400, USER_WITHDRAWN)
  | EmailAlreadyExistsException => Some (409, EMAIL_ALREADY_EXISTS)
  | NicknameAlreadyExistsException => Some (409, NICKNAME_ALREADY_EXISTS)
  | MissingRequiredFieldException => Some (400, MISSING_REQUIRED_FIELD)
  | SignupImageTokenInvalidException => Some (400, SIGNUP_IMAGE_TOKEN_INVALID)
  | InvalidCredentialsException => Some (401, INVALID_CREDENTIALS)
  | UnauthorizedException => Some (401, UNAUTHORIZED)
  | ForbiddenException => Some (403, FORBIDDEN)
  | SelfDmException => Some (400, DM_SAME_USER)
  | CommentNotFoundException => Some (404, COMMENT_NOT_FOUND)
  | InvalidPostIdFormatException => Some (400, INVALID_POSTID_FORMAT)
  | ImageNotFoundException => Some (404, IMAGE_NOT_FOUND)
  | InvalidImageFileException => Some (400, INVALID_IMAGE_FILE)
  | InvalidFileTypeException => Some (400, INVALID_FILE_TYPE)
  | InternalServerErrorException => Some (500, INTERNAL_SERVER_ERROR)
  | InvalidRequestException => Some (400, INVALID_REQUEST)
  | TooManyRequestsException => Some (429, RATE_LIMIT_EXCEEDED)
  | NotFoundException => Some (404, NOT_FOUND)
  | _ => None
  end.

Definition WS_CLOSE_CONNECTION_LIMIT : Z := 4001.
Definition WS_CLOSE_RATE_LIMIT : Z := 4002.

Definition ws_close_code (status_code : Z) : Z :=
  if 500 <=? status_code then 1011
  else if status_code =? 429 then WS_CLOSE_RATE_LIMIT
  else 1008.

(** ** Global handlers ([core/exception_handlers.py]) *)

Fixpoint is_infix (pat s : ustr) : bool :=
  startswith pat s || match s with [] => false | _ :: s' => is_infix pat s' end.

(** [UNIQUE_CONSTRAINT_CODES]: first fragment contained in the constraint name. *)
Definition unique_constraint_code (constraint : ustr) : ApiCode :=
  if is_infix (lit "email") constraint then EMAIL_ALREADY_EXISTS
  else if is_infix (lit "nickname") constraint then NICKNAME_ALREADY_EXISTS
  else CONFLICT.

(** Status, code, and whether the message and data are masked. *)
Record error_response := { er_status : Z; er_code : ApiCode; er_masked : bool }.

(** The handler Starlette picks follows the exception's class. *)
Definition handle_exception (e : exn) : error_response :=
  match project_class e with
  | Some (st, code) =>
      {| er_status := st; er_code := code; er_masked := 500 <=? st |}
  | None =>
      match e with
      | UniqueViolation c =>
          {| er_status := 409; er_code := unique_constraint_code c; er_masked := false |}
      | ForeignKeyViolation =>
          {| er_status := 409; er_code := CONSTRAINT_ERROR; er_masked := false |}
      | CheckViolation => {| er_status := 400; er_code := INVALID_REQUEST; er_masked := false |}
      | DatabaseError => {| er_status := 500; er_code := DB_ERROR; er_masked := true |}
      | _ => {| er_status := 500; er_code := INTERNAL_SERVER_ERROR; er_masked := true |}
      end
  end.

(** ** Effects: state and exceptions

    An exception keeps the state reached when it was raised, as in Python; a
    database transaction undoes its own writes ([begin_tx] in [Db]). *)

Definition M (S A : Type) : Type := S -> (exn + A) * S.

#[export] Instance M_ret S : MRet (M S) := fun A a s => (inr a, s).
#[export] Instance M_bind S : MBind (M S) := fun A B k m s =>
  match m s with
  | (inr a, s') => k a s'
  | (inl e, s') => (inl e, s')
  end.

Definition raise {S A} (e : exn) : M S A := fun s => (inl e, s).
Definition get {S} : M S S := fun s => (inr s, s).
Definition put {S} (s : S) : M S unit := fun _ => (inr tt, s).
Definition modify {S} (f : S -> S) : M S unit := fun s => (inr tt, f s).
Definition gets {S A} (f : S -> A) : M S A := fun s => (inr (f s), s).

(** [try: m except Exception as e: h(e)] *)
Definition try_except {S A} (m : M S A) (h : exn -> M S A) : M S A := fun s =>
  match m s with
  | (inl e, s') => h e s'
  | r => r
  end.

(** [try: m finally: f], the finaliser's own exception winning. *)
Definition try_finally {S A} (m : M S A) (f : M S unit) : M S A := fun s =>
  match m s with
  | (r, s') => match f s' with (inl e, s'') => (inl e, s'') | (inr _, s'') => (r, s'') end
  end.

Definition when {S} (b : bool) (m : M S unit) : M S unit := if b then m else mret tt.

Fixpoint for_each {S A} (l : list A) (body : A -> M S unit) : M S unit :=
  match l with
  | [] => mret tt
  | x :: l' => body x ;; for_each l' body
  end.

(** ** Pagination ([common/schemas.py]) *)

Definition split_page {A} (rows : list A) (size : Z) : list A * bool :=
  (py_take size rows, size <? py_len rows).

Definition offset_of (page size : Z) : Z := (page - 1) * size.

(** [PaginatedResponse.from_page] *)
Definition from_page_has_more (page size total : Z) : bool := page * size <? total.

(** [.offset(offset).limit(size)] on an ordered result. *)
Definition offset_limit {A} (offset size : Z) (rows : list A) : list A :=
  take (Z.to_nat size) (drop (Z.to_nat offset) rows).

Section Keyset.
Context {A K : Type} (key : A -> K) (ltb : K -> K -> bool).

(** [WHERE key after cursor ORDER BY key LIMIT size + 1] *)
Definition after_cursor (cursor : option K) (r : A) : bool :=
  match cursor with None => true | Some c => ltb c (key r) end.

Definition keyset_fetch (cursor : option K) (size : Z) (rows : list A) : list A :=
  take (Z.to_nat (size + 1)) (order_by key ltb (List.filter (after_cursor cursor) rows)).

(** What a client gets by following [has_more] with the last key of each page. *)
Fixpoint keyset_walk (fuel : nat) (cursor : option K) (size : Z) (rows : list A) : list (list A) :=
  match fuel with
  | O => []
  | S f =>
      let '(page, has_more) := split_page (keyset_fetch cursor size rows) size in
      page :: if has_more then keyset_walk f (key <$> last page) size rows else []
  end.
End Keyset.

(** The pages 1, 2, ... of an offset listing, up to the first without more. *)
Fixpoint offset_walk {A} (fuel : nat) (page size : Z) (rows : list A) : list (list A) :=
  match fuel with
  | O => []
  | S f =>
      offset_limit (offset_of page size) size rows ::
      if from_page_has_more page size (py_len rows) then offset_walk f (page + 1) size rows else []
  end.

(** ** State invariants of effectful code *)

Definition keeps {S A} (I : S -> Prop) (m : M S A) : Prop := forall s, I s -> I (m s).2.

Lemma keeps_ret {S A} (I : S -> Prop) (a : A) : keeps I (mret a).
Proof. by intros s. Qed.
Lemma keeps_raise {S A} (I : S -> Prop) e : keeps I (raise (A := A) e).
Proof. by intros s. Qed.
Lemma keeps_bind {S A B} (I : S -> Prop) (m : M S A) (k : A -> M S B) :
  keeps I m -> (forall a, keeps I (k a)) -> keeps I (m ≫= k).
Proof.
  intros Hm Hk s Hs. unfold mbind, M_bind. specialize (Hm s Hs).
  destruct (m s) as [[e|a] s']; cbn in *; [done|]. by apply Hk.
Qed.
Lemma keeps_try {S A} (I : S -> Prop) (m : M S A) h :
  keeps I m -> (forall e, keeps I (h e)) -> keeps I (try_except m h).
Proof.
  intros Hm Hh s Hs. unfold try_except. specialize (Hm s Hs).
  destruct (m s) as [[e|a] s']; cbn in *; [by apply Hh|done].
Qed.
Lemma keeps_finally {S A} (I : S -> Prop) (m : M S A) f :
  keeps I m -> keeps I f -> keeps I (try_finally m f).
Proof.
  intros Hm Hf s Hs. unfold try_finally. specialize (Hm s Hs).
  destruct (m s) as [r s']; cbn in *. specialize (Hf s' Hm). by destruct (f s') as [[e|[]] s''].
Qed.
Lemma keeps_for_each {S A} (I : S -> Prop) (l : list A) body :
  (forall x, x ∈ l -> keeps I (body x)) -> keeps I (for_each l body).
Proof.
  induction l as [|x l IH]; intros Hb; cbn; [apply keeps_ret|].
  apply keeps_bind; [apply Hb; set_solver|]. intros _. apply IH. intros y Hy. apply Hb. set_solver.
Qed.

Create HintDb keeps.
#[export] Hint Resolve keeps_ret keeps_raise keeps_bind keeps_try keeps_finally keeps_for_each : keeps.

(** ** Lemmas *)

Section KeysetLemmas.
Context {A K : Type} (key : A -> K) (ltb : K -> K -> bool) `{!StrictTotal ltb}.

(** Below the last key of a sorted prefix lies exactly the rest. *)
Lemma after_last_suffix (pre post : list A) x :
  StronglySorted (listed_before key ltb) (pre ++ x :: post) ->
  List.filter (after_cursor key ltb (Some (key x))) (pre ++ x :: post) = post.
Proof.
  induction pre as [|y pre IH]; cbn; intros Hs; apply StronglySorted_inv in Hs as [Hs Hx].
  - rewrite (st_irrefl ltb). rewrite Forall_forall in Hx.
    clear Hs. induction post as [|z post IH]; cbn; [done|].
    rewrite (Hx z) by set_solver. f_equal. apply IH. intros. apply Hx. set_solver.
  - rewrite Forall_forall in Hx. specialize (Hx x ltac:(set_solver)). unfold listed_before in Hx.
    destruct (ltb (key x) (key y)) eqn:E; [|by apply IH].
    pose proof (st_trans ltb _ _ _ Hx E) as H. by rewrite (st_irrefl ltb) in H.
Qed.

Lemma split_page_take (rest : list A) size : 1 <= size ->
  split_page (take (Z.to_nat (size + 1)) rest) size =
  (take (Z.to_nat size) rest, size <? py_len rest).
Proof.
  intros Hs. unfold split_page. rewrite py_take_nonneg by lia. rewrite take_take.
  f_equal; [f_equal; lia|]. unfold py_len. rewrite length_take.
  destruct (Z.ltb_spec size (Z.of_nat (length rest))), (Z.ltb_spec size (Z.of_nat (Z.to_nat (size + 1) `min` length rest))); lia.
Qed.

(** Walking from a cursor lists what follows it: the induction behind the
    pagination theorems. *)
Lemma keyset_walk_rest fuel size rows pre rest cursor :
  NoDup (key <$> rows) -> 1 <= size ->
  order_by key ltb rows = pre ++ rest -> cursor = key <$> last pre ->
  (length rest < fuel)%nat ->
  concat (keyset_walk key ltb fuel cursor size rows) = rest /\
  Forall (fun p => py_len p <= size) (keyset_walk key ltb fuel cursor size rows).
Proof.
  intros Hnd Hsz. revert pre rest cursor.
  induction fuel as [|fuel IH]; intros pre rest cursor Hord -> Hlen; [lia|].
  cbn [keyset_walk]. unfold keyset_fetch.
  assert (order_by key ltb (List.filter (after_cursor key ltb (key <$> last pre)) rows) = rest) as ->.
  { rewrite order_by_filter, Hord by done. pose proof (order_by_strict key ltb rows Hnd) as Hs.
    rewrite Hord in Hs. destruct pre as [|x pre _] using rev_ind; cbn.
    - clear. by induction rest as [|z r IH]; cbn; [|f_equal].
    - rewrite last_snoc. cbn. rewrite <-app_assoc in *. by apply after_last_suffix. }
  rewrite split_page_take by done. cbn [concat].
  destruct (Z.ltb_spec size (py_len rest)) as [Hlt|Hge]; unfold py_len in *.
  - destruct (IH (pre ++ take (Z.to_nat size) rest) (drop (Z.to_nat size) rest)
      (key <$> last (take (Z.to_nat size) rest))) as [Hc HF].
    + by rewrite <-app_assoc, take_drop.
    + f_equal. destruct (take (Z.to_nat size) rest) as [|y t] eqn:E.
      * apply (f_equal length) in E. rewrite length_take in E. cbn in E. lia.
      * by rewrite last_app_cons.
    + rewrite length_drop. lia.
    + split; [rewrite Hc; apply take_drop|]. constructor; [rewrite length_take; lia|done].
  - split; [cbn; rewrite app_nil_r; apply take_ge; lia|]. constructor; [rewrite length_take; lia|constructor].
Qed.
End KeysetLemmas.

(** ** Properties *)

(** Offset pages from page [page] on list what lies beyond the earlier pages. *)
Lemma offset_walk_rest {A} fuel page size (rows : list A) :
  1 <= page -> 1 <= size ->
  (length (drop (Z.to_nat (offset_of page size)) rows) < fuel)%nat ->
  concat (offset_walk fuel page size rows) = drop (Z.to_nat (offset_of page size)) rows.
Proof.
  revert page. induction fuel as [|fuel IH]; intros page Hp Hs Hf; [lia|].
  cbn [offset_walk concat]. unfold offset_limit, from_page_has_more, py_len.
  assert (Z.to_nat (offset_of (page + 1) size) = (Z.to_nat (offset_of page size) + Z.to_nat size)%nat) as Hn
    by (unfold offset_of in *; nia).
  rewrite length_drop in Hf.
  destruct (Z.ltb_spec (page * size) (Z.of_nat (length rows))).
  - rewrite IH, Hn, <-drop_drop by (rewrite ?Hn, ?length_drop; unfold offset_of in *; nia).
    apply take_drop.
  - cbn. rewrite app_nil_r. apply take_ge. rewrite length_drop. unfold offset_of in *. nia.
Qed.

(** Offset pagination: starting at page 1 and following [has_more], a
    client receives every row of the listing exactly once and in order, and the
    walk stops (the flag is computed so that no empty page is promised). *)
Theorem offset_pages_enumerate {A} size (rows : list A) :
  1 <= size ->
  concat (offset_walk (S (length rows)) 1 size rows) = rows /\
  (forall page, 1 <= page ->
     from_page_has_more page size (py_len rows) = true <->
     offset_limit (offset_of (page + 1) size) size rows <> []).
Proof.
  intros Hs. split.
  - rewrite offset_walk_rest; unfold offset_of in *; rewrite ?length_drop; [done|lia|done|lia].
  - intros page Hp. unfold from_page_has_more, offset_limit, py_len, offset_of.
    replace ((page + 1 - 1) * size) with (page * size) by lia.
    rewrite Z.ltb_lt. split.
    + intros Hlt E. apply (f_equal length) in E. rewrite length_take, length_drop in E. cbn in E. nia.
    + intros Hne. destruct (Z.lt_ge_cases (page * size) (Z.of_nat (length rows))); [done|].
      destruct Hne. rewrite drop_ge by nia. by rewrite take_nil.
Qed.

Lemma offset_pages_enumerate_witness :
  concat (offset_walk 6 1 2 [10; 20; 30; 40; 50]) = [10; 20; 30; 40; 50] /\
  offset_walk 6 1 2 [10; 20; 30; 40] = [[10; 20]; [30; 40]].
Proof. split; [apply (offset_pages_enumerate 2 [10; 20; 30; 40; 50]); lia | reflexivity]. Defined.

(** Error surface: every 5xx body is masked and nothing else is, domain
    exceptions other than the explicit 500 are 4xx, and on the WebSocket surface
    an authentication or permission failure (1008) is never confused with a
    capacity rejection (4002) or an internal error (1011). *)
Theorem error_responses_masked_iff_5xx (e : exn) :
  (er_masked (handle_exception e) = true <-> 500 <= er_status (handle_exception e)) /\
  400 <= er_status (handle_exception e) <= 500 /\
  (forall st code, project_class e = Some (st, code) -> e <> InternalServerErrorException ->
     400 <= st < 500 /\ (ws_close_code st = WS_CLOSE_RATE_LIMIT <-> e = TooManyRequestsException) /\
     (ws_close_code st = 1008 <-> e <> TooManyRequestsException)).
Proof.
  split; [|split].
  - destruct e; cbn; split; intros; try done; lia.
  - destruct e; cbn; lia.
  - intros st code Hc Hne. destruct e; cbn in Hc; simplify_eq; (split; [lia|]); cbn; split; split; done.
Qed.
