(* ===== verification/Redis.v ===== *)
(** * Redis client and distributed locks ([app/infra/redis.py], [app/infra/lock.py])

    The server is a key space with expiry times and a clock.  Every command
    consumes one [tick] of a schedule that decides how long the command took
    and whether the request or its reply was lost: the application sees a lost
    reply and a lost request as the same exception, but the server state
    differs, which is what the fail-open code has to survive.  An exhausted
    schedule means a healthy connection. *)

From S2P Require Import Prelude Common.

Inductive rval :=
  | RStr (s : ustr)
  | RInt (n : Z)               (** a counter created by INCR *)
  | RHash (h : gmap ustr Z).   (** a hash of integer fields *)

Record rentry := { r_val : rval; r_exp : option Z }.

Inductive fault := NoFault | LostRequest | LostReply.
Record tick := { t_fault : fault; t_delay : Z; t_flush : bool }.
Definition healthy : tick := {| t_fault := NoFault; t_delay := 0; t_flush := false |}.

(** The Lua scripts run through [eval_script_cached]. *)
Inductive script := FIXED_WINDOW | RELEASE_LOCK | RENAME_IF_EXISTS.
#[export] Instance script_eq_dec : EqDecision script.
Proof. solve_decision. Defined.

Record redis := {
  r_data : gmap ustr rentry;
  r_now : Z;                    (** server clock, seconds *)
  r_loaded : list script;       (** the server's script cache *)
  r_sched : list tick;
}.

(** ** The key space *)

Definition expired (now : Z) (e : rentry) : bool :=
  match r_exp e with Some t => t <=? now | None => false end.

Definition live (now : Z) (d : gmap ustr rentry) (k : ustr) : option rval :=
  match d !! k with
  | Some e => if expired now e then None else Some (r_val e)
  | None => None
  end.

(** A server command: clock, key space to reply, key space. *)
Definition cmd (A : Type) : Type := Z -> gmap ustr rentry -> (exn + A) * gmap ustr rentry.

Definition c_get (k : ustr) : cmd (option ustr) := fun now d =>
  match live now d k with
  | None => (inr None, d)
  | Some (RStr s) => (inr (Some s), d)
  | Some _ => (inl RedisError, d)
  end.

(** [SET k v [NX] [EX ex]]; a non-positive [EX] is an error reply. *)
Definition c_set (k v : ustr) (nx : bool) (ex : option Z) : cmd bool := fun now d =>
  match ex with
  | Some t =>
      if t <=? 0 then (inl RedisError, d)
      else if nx && bool_decide (is_Some (live now d k)) then (inr false, d)
      else (inr true, <[k := {| r_val := RStr v; r_exp := Some (now + t) |}]> d)
  | None =>
      if nx && bool_decide (is_Some (live now d k)) then (inr false, d)
      else (inr true, <[k := {| r_val := RStr v; r_exp := None |}]> d)
  end.

Definition c_delete (ks : list ustr) : cmd unit := fun _ d =>
  (inr tt, foldr delete d ks).

Definition c_hget (k f : ustr) : cmd (option Z) := fun now d =>
  match live now d k with
  | None => (inr None, d)
  | Some (RHash h) => (inr (h !! f), d)
  | Some _ => (inl RedisError, d)
  end.

Definition c_hgetall (k : ustr) : cmd (gmap ustr Z) := fun now d =>
  match live now d k with
  | None => (inr ∅, d)
  | Some (RHash h) => (inr h, d)
  | Some _ => (inl RedisError, d)
  end.

(** HINCRBY keeps the key's expiry; it replies the new value. *)
Definition c_hincrby (k f : ustr) (n : Z) : cmd Z := fun now d =>
  match live now d k with
  | None => (inr n, <[k := {| r_val := RHash {[f := n]}; r_exp := None |}]> d)
  | Some (RHash h) =>
      let v := default 0 (h !! f) + n in
      (inr v, <[k := {| r_val := RHash (<[f := v]> h); r_exp := default None (r_exp <$> d !! k) |}]> d)
  | Some _ => (inl RedisError, d)
  end.

(** ** Scripts (atomic on the server) *)

(** [_LUA_FIXED_WINDOW]: INCR, EXPIRE on the first hit, reply (count, TTL).
    TTL is -1 for a key without expiry; EXPIRE with a non-positive delay
    deletes the key, after which TTL is -2. *)
Definition lua_fixed_window (k : ustr) (window : Z) : cmd (Z * Z) := fun now d =>
  match live now d k with
  | None =>
      if window <=? 0 then (inr (1, -2), delete k d)
      else (inr (1, window), <[k := {| r_val := RInt 1; r_exp := Some (now + window) |}]> d)
  | Some (RInt c) =>
      let exp := default None (r_exp <$> d !! k) in
      if c + 1 =? 1 then
        if window <=? 0 then (inr (c + 1, -2), delete k d)
        else (inr (c + 1, window), <[k := {| r_val := RInt (c + 1); r_exp := Some (now + window) |}]> d)
      else
        (inr (c + 1, match exp with Some t => t - now | None => -1 end),
         <[k := {| r_val := RInt (c + 1); r_exp := exp |}]> d)
  | Some _ => (inl RedisError, d)
  end.

(** [RELEASE_LOCK_LUA]: delete the key only when it holds the caller's token. *)
Definition lua_release_lock (k token : ustr) : cmd Z := fun now d =>
  match live now d k with
  | Some (RStr s) => if decide (s = token) then (inr 1, delete k d) else (inr 0, d)
  | None => (inr 0, d)
  | Some _ => (inl RedisError, d)
  end.

(** [_RENAME_IF_EXISTS_LUA]: RENAME moves the value with its expiry and
    overwrites the destination. *)
Definition lua_rename_if_exists (src dst : ustr) : cmd Z := fun now d =>
  match live now d src with
  | None => (inr 0, d)
  | Some v =>
      (inr 1, <[dst := {| r_val := v; r_exp := default None (r_exp <$> d !! src) |}]> (delete src d))
  end.

(** ** The client *)

Definition next_tick (r : redis) : tick * list tick :=
  match r_sched r with [] => (healthy, []) | t :: ts => (t, ts) end.

(** One round trip. *)
Definition command {A} (c : cmd A) : M redis A := fun r =>
  let '(t, ts) := next_tick r in
  let now := r_now r + t_delay t in
  let loaded := if t_flush t then [] else r_loaded r in
  let after d := {| r_data := d; r_now := now; r_loaded := loaded; r_sched := ts |} in
  match t_fault t with
  | NoFault => let '(res, d) := c now (r_data r) in (res, after d)
  | LostRequest => (inl RedisError, after (r_data r))
  | LostReply => let '(_, d) := c now (r_data r) in (inl RedisError, after d)
  end.

Definition redis_get k := command (c_get k).
Definition redis_set k v nx ex := command (c_set k v nx ex).
Definition redis_delete ks := command (c_delete ks).
Definition redis_hget k f := command (c_hget k f).
Definition redis_hgetall k := command (c_hgetall k).
Definition redis_hincrby k f n := command (c_hincrby k f n).

(** EVALSHA: [None] stands for the NOSCRIPT reply. *)
Definition evalsha {A} (s : script) (c : cmd A) : M redis (option A) := fun r =>
  let '(t, _) := next_tick r in
  if negb (t_flush t) && bool_decide (s ∈ r_loaded r)
  then command (fun now d => let '(res, d') := c now d in
                 (match res with inl e => inl e | inr a => inr (Some a) end, d')) r
  else command (fun _ d => (inr None, d)) r.

(** EVAL runs the text and loads it into the script cache. *)
Definition eval_load {A} (s : script) (c : cmd A) : M redis A := fun r =>
  let '(t, _) := next_tick r in
  let '(res, r') := command c r in
  (res, match t_fault t with
        | LostRequest => r'
        | _ => {| r_data := r_data r'; r_now := r_now r'; r_loaded := s :: r_loaded r'; r_sched := r_sched r' |}
        end).

Definition eval_script_cached {A} (s : script) (c : cmd A) : M redis A :=
  o ← evalsha s c;
  match o with
  | Some a => mret a
  | None => eval_load s c
  end.

Definition rename_if_exists (src dst : ustr) : M redis bool :=
  n ← eval_script_cached RENAME_IF_EXISTS (lua_rename_if_exists src dst);
  mret (negb (n =? 0)).

(** Field by field HINCRBY, then DEL. *)
Definition merge_hash_into (src dst : ustr) : M redis unit :=
  fields ← redis_hgetall src;
  for_each (map_to_list fields) (fun '(f, raw) => redis_hincrby dst f raw ;; mret tt) ;;
  redis_delete [src].

(** ** Locks ([infra/lock.py]) *)

(** The token is generated by the caller or drawn by [new_lock_token]; it is an
    argument here. *)
Definition try_acquire_lock (key : ustr) (ttl_seconds : Z) (token : ustr) : M redis (option ustr) :=
  acquired ← redis_set key token true (Some ttl_seconds);
  mret (if acquired : bool then Some token else None).

(** A failed release is only logged: expiry is the safety net. *)
Definition release_lock (key token : ustr) : M redis unit :=
  try_except (eval_script_cached RELEASE_LOCK (lua_release_lock key token) ;; mret tt)
             (fun _ => mret tt).

(** (may proceed, release token); absence and failure of Redis let the job run. *)
Definition try_acquire_job_lock (present : bool) (key : ustr) (ttl_seconds : Z) (token : ustr)
  : M redis (bool * option ustr) :=
  if present then
    try_except (o ← try_acquire_lock key ttl_seconds token; mret (bool_decide (is_Some o), o))
               (fun _ => mret (true, None))
  else mret (true, None).

(** ** Frame lemmas for round trips

    [stable I c]: the command keeps the key-space predicate [I], at any server
    time.  Whatever the schedule does, a client operation built from stable
    commands keeps [I]. *)

Definition stable {A : Type} (I : gmap ustr rentry -> Prop) (c : cmd A) : Prop :=
  forall now d, I d -> I (c now d).2.

Definition on_data (I : gmap ustr rentry -> Prop) (r : redis) : Prop := I (r_data r).

Lemma command_keeps {A : Type} (I : gmap ustr rentry -> Prop) (c : cmd A) : stable I c -> keeps (on_data I) (command c).
Proof.
  intros Hc r Hr. unfold command, on_data in *. destruct (next_tick r) as [t ts].
  specialize (Hc (r_now r + t_delay t) _ Hr).
  destruct (t_fault t); [|done|]; by destruct (c _ _).
Qed.

Lemma eval_script_cached_keeps {A : Type} (I : gmap ustr rentry -> Prop) s (c : cmd A) :
  stable I c -> keeps (on_data I) (eval_script_cached s c).
Proof.
  intros Hc. unfold eval_script_cached. apply keeps_bind.
  - intros r Hr. unfold evalsha. destruct (next_tick r) as [t ts].
    destruct (negb _ && _); apply command_keeps; try exact Hr; intros now d Hd; [|exact Hd].
    specialize (Hc now d Hd). by destruct (c now d).
  - intros [a|]; [apply keeps_ret|]. intros r Hr. unfold eval_load.
    pose proof (command_keeps I c Hc r Hr) as Hk. destruct (next_tick r) as [t ts].
    destruct (command c r) as [res r']. cbn in *. by destruct (t_fault t).
Qed.
#[export] Hint Resolve command_keeps eval_script_cached_keeps : keeps.

(** A command that leaves the current key space alone leaves it alone through
    the client, whatever the connection does. *)
Lemma release_lock_keeps I key token :
  stable I (lua_release_lock key token) -> keeps (on_data I) (release_lock key token).
Proof. unfold release_lock. eauto with keeps. Qed.

Lemma release_lock_total key token r : (release_lock key token r).1 = inr tt.
Proof.
  unfold release_lock, try_except.
  generalize (eval_script_cached RELEASE_LOCK (lua_release_lock key token) ;; mret () : M redis unit).
  intros m. by destruct (m r) as [[?|[]] ?].
Qed.

(** Lock operations touch only the lock's key. *)
Lemma lock_frame key token ttl k r : k <> key ->
  r_data (try_acquire_lock key ttl token r).2 !! k = r_data r !! k /\
  r_data (release_lock key token r).2 !! k = r_data r !! k.
Proof.
  intros Hk. split.
  - change (on_data (fun d => d !! k = r_data r !! k) (try_acquire_lock key ttl token r).2).
    revert r. intros r. assert (keeps (on_data (fun d => d !! k = r_data r !! k)) (try_acquire_lock key ttl token)) as H; [|by apply H].
    unfold try_acquire_lock. apply keeps_bind; [|intros ?; apply keeps_ret]. apply command_keeps.
    intros now d Hd. unfold c_set. destruct (ttl <=? 0); [done|]. destruct (_ && _); [done|]. cbn. by rewrite lookup_insert_ne.
  - change (on_data (fun d => d !! k = r_data r !! k) (release_lock key token r).2).
    apply release_lock_keeps; [|done]. intros now d Hd. unfold lua_release_lock. destruct (live now d key) as [[]|]; try done.
    destruct (decide _); [|done]. cbn. by rewrite lookup_delete_ne.
Qed.

(** Whatever the connection does, a round trip runs its command at most once,
    and a reply means that it ran. *)
Lemma command_once {A : Type} (c : cmd A) r :
  exists now, (r_data (command c r).2 = r_data r \/ r_data (command c r).2 = (c now (r_data r)).2) /\
    forall a, (command c r).1 = inr a -> c now (r_data r) = (inr a, r_data (command c r).2).
Proof.
  unfold command. destruct (next_tick r) as [t ts]. exists (r_now r + t_delay t).
  destruct (t_fault t); cbn.
  - destruct (c _ _) as [res d]; cbn. split; [by right|]. by intros a ->.
  - split; [by left|done].
  - destruct (c _ _) as [res d]; cbn. split; [by right|done].
Qed.

Lemma eval_script_cached_once {A : Type} s (c : cmd A) r :
  exists now, (r_data (eval_script_cached s c r).2 = r_data r \/ r_data (eval_script_cached s c r).2 = (c now (r_data r)).2) /\
    forall a, (eval_script_cached s c r).1 = inr a -> c now (r_data r) = (inr a, r_data (eval_script_cached s c r).2).
Proof.
  unfold eval_script_cached, evalsha. unfold mbind, M_bind. destruct (next_tick r) as [t ts].
  destruct (negb _ && _).
  - match goal with |- context [command ?c' r] => destruct (command_once c' r) as (now & Hd & Ha) end.
    exists now. destruct (command _ r) as [[e|[a|]] r']; cbn [fst snd] in *.
    + split; [|done]. destruct (c now (r_data r)) as [res d]. cbn in *. exact Hd.
    + specialize (Ha _ eq_refl). destruct (c now (r_data r)) as [[e|a'] d]; cbn in Ha; [done|]. injection Ha as -> ->.
      split; [by right|]. by intros ? [= ->].
    + specialize (Ha _ eq_refl). destruct (c now (r_data r)) as [[e|a'] d]; cbn in Ha; done.
  - match goal with |- context [command ?c' r] => destruct (command_once c' r) as (now0 & Hd & Ha) end.
    assert (r_data (command (fun _ d => (inr (None : option A), d)) r).2 = r_data r) as Hsame by (destruct Hd as [Hd|Hd]; exact Hd).
    destruct (command (fun _ d => (inr None, d)) r) as [[e|[a|]] r']; cbn [fst snd] in *.
    + exists now0. split; [by left|done].
    + specialize (Ha _ eq_refl). done.
    + rewrite <-Hsame. destruct (command_once c r') as (now & Hd' & Ha'). exists now. unfold eval_load.
      destruct (next_tick r') as [t' ts']. destruct (command c r') as [res r'']. cbn [fst snd] in *.
      destruct (t_fault t'); cbn; done.
Qed.

(** On a healthy connection one round trip is the command itself. *)
Lemma command_healthy {A} (c : cmd A) r : r_sched r = [] ->
  (command c r).1 = (c (r_now r) (r_data r)).1 /\
  r_data (command c r).2 = (c (r_now r) (r_data r)).2 /\
  r_now (command c r).2 = r_now r /\ r_sched (command c r).2 = [] /\
  r_loaded (command c r).2 = r_loaded r.
Proof.
  intros Hs. unfold command, next_tick. rewrite Hs. cbn. rewrite Z.add_0_r.
  by destruct (c _ _).
Qed.

Lemma eval_script_cached_healthy {A} s (c : cmd A) r : r_sched r = [] ->
  (eval_script_cached s c r).1 = (c (r_now r) (r_data r)).1 /\
  r_data (eval_script_cached s c r).2 = (c (r_now r) (r_data r)).2 /\
  r_now (eval_script_cached s c r).2 = r_now r /\ r_sched (eval_script_cached s c r).2 = [].
Proof.
  intros Hs. unfold eval_script_cached, evalsha, eval_load, mbind, M_bind, command, next_tick.
  rewrite Hs. cbn. rewrite !Z.add_0_r. case_bool_decide.
  - destruct (c _ _) as [[e|a] d]; cbn; by rewrite ?Z.add_0_r.
  - cbn. rewrite !Z.add_0_r. by destruct (c _ _) as [[e|a] d].
Qed.

(** ** Lock protocol as a transition system

    One lock key, any number of clients, arbitrary interleaving of their
    operations and of time.  [ls_held] records, for every client that was told it
    acquired the lock and has not released it, its token and lease end.  The steps
    run [try_acquire_lock] and [release_lock] on any connection to the server;
    [ls_release_script] is a release whose script runs between two commands of
    somebody else. *)

Section LockProtocol.
Context (key : ustr).

Record lock_state := { ls_data : gmap ustr rentry; ls_now : Z; ls_held : list (ustr * Z) }.

(** A client's connection to the server of the state. *)
Definition serves (r : redis) (s : lock_state) : Prop := r_data r = ls_data s /\ r_now r = ls_now s.

Definition after_try (s : lock_state) (ttl : Z) (res : (exn + option ustr) * redis) : lock_state :=
  {| ls_data := r_data res.2; ls_now := r_now res.2;
     ls_held := match res.1 with inr (Some token) => (token, r_now res.2 + ttl) :: ls_held s | _ => ls_held s end |}.

Definition after_release (s : lock_state) (token : ustr) (res : (exn + unit) * redis) : lock_state :=
  {| ls_data := r_data res.2; ls_now := r_now res.2; ls_held := filter (fun h => h.1 <> token) (ls_held s) |}.

Inductive lock_step : lock_state -> lock_state -> Prop :=
  | ls_try s token ttl r :
      serves r s -> (forall e, (token, e) ∉ ls_held s) -> ls_now s <= r_now (try_acquire_lock key ttl token r).2 ->
      lock_step s (after_try s ttl (try_acquire_lock key ttl token r))
  | ls_release s token r :
      serves r s -> ls_now s <= r_now (release_lock key token r).2 ->
      lock_step s (after_release s token (release_lock key token r))
  | ls_release_script s token :
      lock_step s {| ls_data := (lua_release_lock key token (ls_now s) (ls_data s)).2;
                     ls_now := ls_now s;
                     ls_held := filter (fun h => h.1 <> token) (ls_held s) |}
  | ls_time s dt : 0 <= dt ->
      lock_step s {| ls_data := ls_data s; ls_now := ls_now s + dt; ls_held := ls_held s |}.

Inductive lock_reachable : lock_state -> Prop :=
  | lr_init now d : lock_reachable {| ls_data := d; ls_now := now; ls_held := [] |}
  | lr_step s s' : lock_reachable s -> lock_step s s' -> lock_reachable s'.

(** A running lease is the server's current entry. *)
Definition lock_inv (s : lock_state) : Prop :=
  forall token e, (token, e) ∈ ls_held s -> ls_now s < e ->
    ls_data s !! key = Some {| r_val := RStr token; r_exp := Some e |}.

Lemma live_running now d token e :
  d !! key = Some {| r_val := RStr token; r_exp := Some e |} -> now < e ->
  live now d key = Some (RStr token).
Proof. intros Hd Hlt. unfold live, expired. rewrite Hd. cbn. destruct (Z.leb_spec e now); [lia|done]. Qed.

(** What an attempt does: it was told of success only when the key was free,
    and a running entry stays. *)
Lemma try_acquire_lock_effect ttl token r res r' : try_acquire_lock key ttl token r = (res, r') ->
  (forall t, res = inr (Some t) -> t = token /\ live (r_now r') (r_data r) key = None /\
     r_data r' !! key = Some {| r_val := RStr token; r_exp := Some (r_now r' + ttl) |}) /\
  (is_Some (live (r_now r') (r_data r) key) -> r_data r' = r_data r).
Proof.
  unfold try_acquire_lock, redis_set, command, mbind, M_bind, mret, M_ret. destruct (next_tick r) as [t ts].
  unfold c_set. cbn [andb].
  destruct (t_fault t), (ttl <=? 0), (bool_decide_reflect (is_Some (live (r_now r + t_delay t) (r_data r) key))) as [Hl|Hl];
    intros [= <- <-]; cbn [r_now r_data]; (split; [try done|try done]).
  all: intros t' [= <-]; split_and!; [done|by apply eq_None_not_Some|apply lookup_insert_eq].
Qed.

(** A release leaves somebody else's entry alone. *)
Lemma release_lock_spares token tk e r : tk <> token ->
  r_data r !! key = Some {| r_val := RStr tk; r_exp := e |} ->
  r_data (release_lock key token r).2 !! key = Some {| r_val := RStr tk; r_exp := e |}.
Proof.
  intros Hne Hr. change (on_data (fun d => d !! key = Some {| r_val := RStr tk; r_exp := e |}) (release_lock key token r).2).
  apply release_lock_keeps; [|done]. intros now d Hd. unfold lua_release_lock, live. rewrite Hd.
  destruct (expired _ _); [done|]. cbn [r_val]. by rewrite decide_False.
Qed.

Lemma lock_step_inv s s' : lock_inv s -> lock_step s s' -> lock_inv s'.
Proof.
  intros Hinv Hstep. destruct Hstep as [s token ttl r [Hd Hn] Hfresh Ht|s token r [Hd Hn] Ht|s token|s dt Hdt];
    intros tk e; unfold after_try, after_release; cbn [ls_held ls_now ls_data].
  - destruct (try_acquire_lock key ttl token r) as [res r'] eqn:E. cbn [fst snd] in *.
    apply try_acquire_lock_effect in E as [Hok Hsame]. rewrite Hd in *.
    assert (forall tk e, (tk, e) ∈ ls_held s -> r_now r' < e -> live (r_now r') (ls_data s) key = Some (RStr tk)) as Hlive.
    { intros tk' e' Hin Hlt. eapply live_running; [|exact Hlt]. apply Hinv; [done|lia]. }
    assert ((tk, e) ∈ ls_held s -> r_now r' < e -> r_data r' !! key = Some {| r_val := RStr tk; r_exp := Some e |}) as Hold.
    { intros Hin Hlt. rewrite Hsame by (rewrite (Hlive tk e Hin Hlt); by eexists). apply Hinv; [done|lia]. }
    destruct res as [x|[tk'|]]; [exact Hold| |exact Hold].
    destruct (Hok tk' eq_refl) as (-> & Hfree & Hset). intros [[= -> ->]|Hin]%elem_of_cons Hlt; [done|].
    by rewrite (Hlive tk e Hin Hlt) in Hfree.
  - intros [Hne Hin]%list_elem_of_filter Hlt. cbn in Hne. apply release_lock_spares; [done|]. rewrite Hd. apply Hinv; [done|lia].
  - intros [Hne Hin]%list_elem_of_filter Hlt. cbn in Hne. specialize (Hinv tk e Hin Hlt).
    unfold lua_release_lock. rewrite (live_running _ _ tk e) by done. by destruct (decide (tk = token)).
  - intros Hin Hlt. apply Hinv; [done|lia].
Qed.

Lemma lock_reachable_inv s : lock_reachable s -> lock_inv s.
Proof.
  induction 1 as [now d|s s' _ IH Hstep]; [|by eapply lock_step_inv].
  intros tk e Hin. by apply not_elem_of_nil in Hin.
Qed.
End LockProtocol.

(** ** Properties *)

(** C3. Mutual exclusion of the distributed lock: in every reachable
    interleaving of acquisitions, lost replies, releases (also late ones, after
    the holder's lease ended) and time, two clients whose leases are both still
    running are the same client, and the key on the server holds its token. *)
Theorem lock_mutual_exclusion key s t1 e1 t2 e2 :
  lock_reachable key s ->
  (t1, e1) ∈ ls_held s -> (t2, e2) ∈ ls_held s ->
  ls_now s < e1 -> ls_now s < e2 ->
  t1 = t2 /\ e1 = e2 /\ live (ls_now s) (ls_data s) key = Some (RStr t1).
Proof.
  intros Hr%lock_reachable_inv H1 H2 L1 L2.
  pose proof (Hr t1 e1 H1 L1) as K1. pose proof (Hr t2 e2 H2 L2) as K2.
  rewrite K1 in K2. simplify_eq. split; [done|]. split; [done|]. by eapply live_running.
Qed.

(** A release can only remove the caller's own lock: with any schedule of
    delays, lost requests, lost replies and script-cache flushes, releasing with
    a token the key does not hold changes nothing on the server, and releasing
    never raises. *)
Theorem release_lock_only_own key token r :
  (forall e, r_data r !! key = Some e -> r_val e <> RStr token) ->
  r_data (release_lock key token r).2 = r_data r /\ (release_lock key token r).1 = inr tt.
Proof.
  intros Hne. split.
  - change (on_data (fun d => d = r_data r) (release_lock key token r).2).
    apply release_lock_keeps; [|done]. intros now d ->. unfold lua_release_lock, live.
    destruct (r_data r !! key) as [e|] eqn:E; [|done]. destruct (expired now e); [done|].
    destruct (r_val e) eqn:Ev; [|done|done]. destruct (decide _); [|done]. subst.
    exfalso. by eapply Hne.
  - apply release_lock_total.
Qed.

(** EVALSHA with fallback is a faithful EVAL: on a healthy connection the
    reply and the key space are those of running the script exactly once,
    whether or not the server still has it cached. *)
Theorem eval_script_cached_runs_once {A} s (c : cmd A) r :
  r_sched r = [] ->
  (eval_script_cached s c r).1 = (c (r_now r) (r_data r)).1 /\
  r_data (eval_script_cached s c r).2 = (c (r_now r) (r_data r)).2.
Proof. intros Hs. destruct (eval_script_cached_healthy s c r Hs) as (? & ? & _). done. Qed.

(** ** Witnesses *)

Definition empty_redis : redis := {| r_data := ∅; r_now := 100; r_loaded := []; r_sched := [] |}.

Definition lock_demo : lock_state :=
  {| ls_data := <[lit "l" := {| r_val := RStr (lit "t"); r_exp := Some 130 |}]> ∅;
     ls_now := 100; ls_held := [(lit "t", 130)] |}.

Lemma lock_demo_reachable : lock_reachable (lit "l") lock_demo.
Proof.
  eapply lr_step; [apply (lr_init _ 100 ∅)|].
  apply (ls_try (lit "l") {| ls_data := ∅; ls_now := 100; ls_held := [] |} (lit "t") 30 empty_redis).
  - by split.
  - intros e Hin. by apply not_elem_of_nil in Hin.
  - vm_compute. discriminate.
Defined.

Lemma lock_mutual_exclusion_witness :
  live 100 (ls_data lock_demo) (lit "l") = Some (RStr (lit "t")).
Proof.
  apply (lock_mutual_exclusion (lit "l") lock_demo (lit "t") 130 (lit "t") 130);
    [apply lock_demo_reachable | apply list_elem_of_here | apply list_elem_of_here | cbn; lia | cbn; lia].
Defined.

Lemma release_lock_only_own_witness :
  r_data (release_lock (lit "l") (lit "mine")
    {| r_data := ls_data lock_demo; r_now := 100; r_loaded := [];
       r_sched := [{| t_fault := LostReply; t_delay := 1; t_flush := true |}] |}).2 = ls_data lock_demo.
Proof.
  apply (release_lock_only_own (lit "l") (lit "mine")
    {| r_data := ls_data lock_demo; r_now := 100; r_loaded := [];
       r_sched := [{| t_fault := LostReply; t_delay := 1; t_flush := true |}] |}).
  intros e He. vm_compute in He. injection He as <-. discriminate.
Defined.

Lemma eval_script_cached_runs_once_witness :
  (eval_script_cached FIXED_WINDOW (lua_fixed_window (lit "k") 60) empty_redis).1 = inr (1, 60).
Proof.
  transitivity (lua_fixed_window (lit "k") 60 100 ∅).1; [|reflexivity].
  apply (eval_script_cached_runs_once FIXED_WINDOW (lua_fixed_window (lit "k") 60) empty_redis). reflexivity.
Defined.
