(* ===== verification/RateLimit.v ===== *)
(** * Rate limiting ([app/core/rate_limit.py], [app/core/middleware/rate_limit.py],
    [app/core/middleware/proxy_headers.py])

    The distributed fixed window on Redis, the per-instance memory window that
    replaces it when Redis is away, the local rejection gate of WebSocket
    connections, and the HTTP middleware with its policy table. *)

From S2P Require Import Prelude Common Redis.

(** [time.monotonic()] in microseconds; window lengths are whole seconds. *)
Definition SEC : Z := 1000000.

(** [_memory_store]: a dict keeps insertion order, which decides ties of [min]. *)
Abbreviation mem_store := (list (ustr * (Z * Z))).

Definition MEMORY_MAX_KEYS : nat := Z.to_nat 10000.

(** [min(keys, key=end)]: the first key with the smallest window end. *)
Fixpoint oldest_key (d : mem_store) : option (ustr * Z) :=
  match d with
  | [] => None
  | (k, (_, e)) :: d' =>
      match oldest_key d' with
      | Some (k', e') => if e' <? e then Some (k', e') else Some (k, e)
      | None => Some (k, e)
      end
  end.

(** The [while len >= MAX and store:] loop; every turn deletes a key, so the
    store's length is enough fuel. *)
Fixpoint evict_oldest (fuel : nat) (max_keys : nat) (d : mem_store) : mem_store :=
  match fuel with
  | O => d
  | S f =>
      if (max_keys <=? length d)%nat then
        match oldest_key d with
        | Some (k, _) => evict_oldest f max_keys (dict_del k d)
        | None => d
        end
      else d
  end.

Definition memory_evict_if_needed (max_keys : nat) (now : Z) (d : mem_store) : mem_store :=
  if (length d <? max_keys)%nat then d
  else
    let d' := filter (fun p => ~ (p.2.2 < now)) d in
    evict_oldest (length d') max_keys d'.

(** (allowed, retry_after) and the new store. *)
Definition check_memory_fixed_window (max_keys : nat) (now : Z) (key : ustr) (window_sec max_count : Z)
    (d : mem_store) : (bool * Z) * mem_store :=
  let d := memory_evict_if_needed max_keys now d in
  match dict_get key d with
  | None => ((true, 0), dict_set key (1, now + window_sec * SEC) d)
  | Some (count, window_end) =>
      if window_end <=? now then ((true, 0), dict_set key (1, now + window_sec * SEC) d)
      else
        let count := count + 1 in
        let d := dict_set key (count, window_end) d in
        if max_count <? count then ((false, Z.max 0 ((window_end - now) / SEC)), d)
        else ((true, 0), d)
  end.

(** ** Process state: the Redis connection, the memory store, the monotonic
    clock and the rejection metric (labels counted, latest first). *)
Record rl_state := {
  rl_redis : redis;
  rl_memory : mem_store;
  rl_clock : Z;
  rl_rejections : list ustr;
}.

Definition with_redis {A} (m : M redis A) : M rl_state A := fun s =>
  let '(res, r') := m (rl_redis s) in
  (res, {| rl_redis := r'; rl_memory := rl_memory s; rl_clock := rl_clock s;
           rl_rejections := rl_rejections s |}).

Definition count_rejection (limit : ustr) : M rl_state unit :=
  modify (fun s => {| rl_redis := rl_redis s; rl_memory := rl_memory s; rl_clock := rl_clock s;
                      rl_rejections := limit :: rl_rejections s |}).

Definition memory_check (key : ustr) (window_sec max_count : Z) : M rl_state (bool * Z) := fun s =>
  let '(res, d) := check_memory_fixed_window MEMORY_MAX_KEYS (rl_clock s) key window_sec max_count (rl_memory s) in
  (inr res, {| rl_redis := rl_redis s; rl_memory := d; rl_clock := rl_clock s;
               rl_rejections := rl_rejections s |}).

Definition KEY_PREFIX : ustr := lit "rl".

Definition check_redis_fixed_window (key : ustr) (window_sec max_count : Z) : M redis (bool * Z) :=
  '(count, ttl) ← eval_script_cached FIXED_WINDOW
                    (lua_fixed_window (KEY_PREFIX ++ lit ":" ++ key) window_sec);
  let retry_after := if 0 <=? ttl then Z.max 0 ttl else window_sec in
  mret (if max_count <? count then (false, retry_after) else (true, 0)).

(** [key.split(":", 1)[0]] *)
Fixpoint before_colon (s : ustr) : ustr :=
  match s with
  | [] => []
  | c :: s' => if c =? 58 then [] else c :: before_colon s'
  end.

(** [present]: the application has a Redis client. *)
Definition check_fixed_window (present : bool) (key : ustr) (window_sec max_count : Z) (fail_open : bool)
  : M rl_state (bool * Z) :=
  r ← (if present then
         try_except (with_redis (check_redis_fixed_window key window_sec max_count))
           (fun _ => if fail_open then mret (true, 0) else memory_check key window_sec max_count)
       else if fail_open then mret (true, 0)
       else memory_check key window_sec max_count);
  when (negb (fst r)) (count_rejection (before_colon key)) ;;
  mret r.

(** ** [LocalRejectionGate] *)

Record gate := {
  g_key : ustr;
  g_close_threshold : Z;
  g_blocked_until : Z;
  g_consecutive_rejections : Z;
}.

Definition new_gate (key : ustr) (close_threshold : Z) : gate :=
  {| g_key := key; g_close_threshold := close_threshold; g_blocked_until := 0;
     g_consecutive_rejections := 0 |}.

(** ((allowed, retry_after, should_close), the gate afterwards). *)
Definition gate_check (g : gate) (present : bool) (window_sec max_count : Z)
  : M rl_state ((bool * Z * bool) * gate) :=
  s ← get;
  let now := rl_clock s in
  if now <? g_blocked_until g then
    count_rejection (before_colon (g_key g)) ;;
    let n := g_consecutive_rejections g + 1 in
    mret (false, (g_blocked_until g - now) / SEC + 1, g_close_threshold g <=? n,
          {| g_key := g_key g; g_close_threshold := g_close_threshold g;
             g_blocked_until := g_blocked_until g; g_consecutive_rejections := n |})
  else
    '(allowed, retry_after) ← check_fixed_window present (g_key g) window_sec max_count false;
    if allowed : bool then
      mret (true, 0, false,
            {| g_key := g_key g; g_close_threshold := g_close_threshold g;
               g_blocked_until := g_blocked_until g; g_consecutive_rejections := 0 |})
    else
      let n := g_consecutive_rejections g + 1 in
      mret (false, retry_after, g_close_threshold g <=? n,
            {| g_key := g_key g; g_close_threshold := g_close_threshold g;
               g_blocked_until := Z.max (g_blocked_until g) (now + Z.max retry_after 1 * SEC);
               g_consecutive_rejections := n |}).

(** ** HTTP middleware *)

Record rl_settings := {
  LOGIN_RATE_LIMIT_WINDOW : Z; LOGIN_RATE_LIMIT_MAX_ATTEMPTS : Z;
  SIGNUP_UPLOAD_RATE_LIMIT_WINDOW : Z; SIGNUP_UPLOAD_RATE_LIMIT_MAX : Z;
  RATE_LIMIT_WINDOW : Z; RATE_LIMIT_MAX_REQUESTS : Z;
  API_PREFIX : ustr;
}.

(** [s.rstrip("/")] *)
Definition rstrip_slash (s : ustr) : ustr := rstrip_by (fun c => c =? 47) s.

Section Middleware.
Context (settings : rl_settings).

Definition LOGIN_PATH : ustr := rstrip_slash (API_PREFIX settings) ++ lit "/auth/login".
Definition SIGNUP_PRESIGN_PATH : ustr :=
  rstrip_slash (API_PREFIX settings) ++ lit "/media/images/signup/presign".
Definition SIGNUP_CONFIRM_PATH : ustr :=
  rstrip_slash (API_PREFIX settings) ++ lit "/media/images/signup/confirm".
Definition INFRA_PROBE_PATHS : list ustr := [lit "/livez"; lit "/readyz"; lit "/metrics"].

Definition path_is_login (path : ustr) : bool := bool_decide (rstrip_slash path = LOGIN_PATH).
Definition path_is_signup_upload (path : ustr) : bool :=
  let p := rstrip_slash path in
  bool_decide (p = SIGNUP_PRESIGN_PATH \/ p = SIGNUP_CONFIRM_PATH).

Record RatePolicy := {
  matches : ustr -> bool;
  key_prefix : ustr;
  policy_code : ApiCode;
  policy_fail_open : bool;
  limits : Z * Z;
}.

Definition POLICIES : list RatePolicy := [
  {| matches := path_is_login; key_prefix := lit "login";
     policy_code := LOGIN_RATE_LIMIT_EXCEEDED; policy_fail_open := false;
     limits := (LOGIN_RATE_LIMIT_WINDOW settings, LOGIN_RATE_LIMIT_MAX_ATTEMPTS settings) |};
  {| matches := path_is_signup_upload; key_prefix := lit "signup_upload";
     policy_code := RATE_LIMIT_EXCEEDED; policy_fail_open := false;
     limits := (SIGNUP_UPLOAD_RATE_LIMIT_WINDOW settings, SIGNUP_UPLOAD_RATE_LIMIT_MAX settings) |};
  {| matches := fun _ => true; key_prefix := lit "global";
     policy_code := RATE_LIMIT_EXCEEDED; policy_fail_open := true;
     limits := (RATE_LIMIT_WINDOW settings, RATE_LIMIT_MAX_REQUESTS settings) |} ].

(** [next(p for p in _POLICIES if p.matches(path))]; [None] would be StopIteration. *)
Definition resolve_policy (path : ustr) : option RatePolicy :=
  List.find (fun p => matches p path) POLICIES.

Inductive scope_type := ScopeHttp | ScopeOther.
Record asgi_scope := {
  sc_type : scope_type; sc_path : ustr; sc_method : ustr; sc_client : option ustr;
}.

(** [client_ip_from_scope(scope)] with its default sentinel. *)
Definition client_ip_from_scope (sc : asgi_scope) (dflt : ustr) : ustr :=
  match sc_client sc with
  | Some ip => if decide (ip = []) then dflt else ip
  | None => dflt
  end.

Inductive outcome :=
  | Forward                                  (** [await self.app(...)] *)
  | Send429 (code : ApiCode) (retry_after : Z).

(** [RateLimitMiddleware.__call__] *)
Definition rate_limit_call (present : bool) (sc : asgi_scope) : M rl_state outcome :=
  match sc_type sc with
  | ScopeOther => mret Forward
  | ScopeHttp =>
      if bool_decide (sc_method sc = lit "OPTIONS") || bool_decide (sc_path sc ∈ INFRA_PROBE_PATHS)
      then mret Forward
      else
        let ip := client_ip_from_scope sc (lit "unknown") in
        match resolve_policy (sc_path sc) with
        | None => raise PyValueError
        | Some policy =>
            let '(window_sec, max_count) := limits policy in
            '(allowed, retry) ← check_fixed_window present (key_prefix policy ++ lit ":" ++ ip)
                                  window_sec max_count (policy_fail_open policy);
            mret (if allowed : bool then Forward else Send429 (policy_code policy) retry)
        end
  end.
End Middleware.

(** ** Lemmas: the memory store *)

Lemma oldest_key_in d k e : oldest_key d = Some (k, e) -> exists c, (k, (c, e)) ∈ d.
Proof.
  revert k e. induction d as [|[k' [c' e']] d IH]; intros k e; cbn; [done|].
  destruct (oldest_key d) as [[k2 e2]|] eqn:E.
  - destruct (e2 <? e'); intros; simplify_eq; [|set_solver].
    destruct (IH k e eq_refl) as [c Hc]. set_solver.
  - intros; simplify_eq. set_solver.
Qed.

Lemma oldest_key_none d : oldest_key d = None -> d = [].
Proof. destruct d as [|[k [c e]] d]; cbn; [done|]. destruct (oldest_key d) as [[??]|]; [by destruct (_ <? _)|done]. Qed.

Lemma evict_oldest_bound f max_keys d :
  (length d <= f)%nat -> (1 <= max_keys)%nat -> (length (evict_oldest f max_keys d) < max_keys)%nat.
Proof.
  revert d. induction f as [|f IH]; intros d Hf Hm; cbn.
  { destruct d; cbn in *; lia. }
  destruct (Nat.leb_spec max_keys (length d)); [|done].
  destruct (oldest_key d) as [[k e]|] eqn:E.
  - apply oldest_key_in in E as [c Hc]. apply dict_del_length in Hc. apply IH; [lia|done].
  - apply oldest_key_none in E as ->. cbn in *. lia.
Qed.

Lemma memory_evict_bound max_keys now d : (1 <= max_keys)%nat ->
  (length (memory_evict_if_needed max_keys now d) < max_keys)%nat.
Proof.
  intros Hm. unfold memory_evict_if_needed. destruct (Nat.ltb_spec (length d) max_keys); [done|].
  by apply evict_oldest_bound.
Qed.

(** ** Lemmas: the fixed window on Redis *)

Definition quiet (ts : list tick) : Prop := Forall (fun t => t_fault t = NoFault /\ 0 <= t_delay t) ts.
Definition total_delay (ts : list tick) : Z := foldr (fun t n => t_delay t + n) 0 ts.

Lemma total_delay_nonneg ts : quiet ts -> 0 <= total_delay ts.
Proof. induction 1 as [|t ts [_ Ht] _ IH]; [cbn; lia|]. cbn [total_delay foldr]. fold (total_delay ts). lia. Qed.

Lemma command_quiet {A : Type} (c : cmd A) r : quiet (r_sched r) ->
  exists now r', command c r = ((c now (r_data r)).1, r') /\ r_data r' = (c now (r_data r)).2 /\
    r_now r' = now /\ r_now r <= now /\ quiet (r_sched r') /\
    now + total_delay (r_sched r') = r_now r + total_delay (r_sched r).
Proof.
  intros Hq. unfold command, next_tick. destruct (r_sched r) as [|t ts] eqn:E.
  - cbn. destruct (c (r_now r + 0) (r_data r)) as [res d] eqn:Ec.
    exists (r_now r + 0). eexists. rewrite Ec. split; [done|]. cbn [r_data r_now r_sched fst snd].
    split_and!; try done; [lia|cbn; lia].
  - apply Forall_cons in Hq as [[Hf Hd] Hq]. rewrite Hf.
    destruct (c (r_now r + t_delay t) (r_data r)) as [res d] eqn:Ec.
    exists (r_now r + t_delay t). eexists. rewrite Ec. split; [done|]. cbn [r_data r_now r_sched fst snd].
    split_and!; try done; [lia|]. cbn [total_delay foldr]. fold (total_delay ts). lia.
Qed.

Lemma eval_script_cached_quiet {A : Type} s (c : cmd A) r : quiet (r_sched r) ->
  exists now r', eval_script_cached s c r = ((c now (r_data r)).1, r') /\ r_data r' = (c now (r_data r)).2 /\
    r_now r' = now /\ r_now r <= now /\ quiet (r_sched r') /\
    now + total_delay (r_sched r') = r_now r + total_delay (r_sched r).
Proof.
  intros Hq. unfold eval_script_cached, evalsha, mbind, M_bind.
  destruct (next_tick r) as [t ts]. destruct (negb _ && _).
  - edestruct (command_quiet (fun now d => let '(res, d') := c now d in
      (match res with inl e => inl e | inr a => inr (Some a) end, d')) r Hq)
      as (now & r' & -> & Hd & Hn & Hle & Hq' & Ht).
    exists now, r'. destruct (c now (r_data r)) as [[e|a] d]; cbn in *; by split_and!.
  - destruct (command_quiet (fun _ d => (inr (None : option A), d)) r Hq)
      as (now & r1 & -> & Hd & Hn & Hle & Hq1 & Ht). cbn [fst snd] in *.
    unfold eval_load. destruct (command_quiet c r1 Hq1) as (now2 & r2 & E & Hd2 & Hn2 & Hle2 & Hq2 & Ht2).
    rewrite E, Hd in *. destruct (next_tick r1) as [t1 ts1]. exists now2.
    destruct (t_fault t1); eexists; (split; [done|]); cbn [r_data r_now r_sched]; split_and!; try done; lia.
Qed.

Fixpoint repeat_check (n : nat) (key : ustr) (window_sec max_count : Z) : M redis (list (bool * Z)) :=
  match n with
  | O => mret []
  | S n' =>
      r ← check_redis_fixed_window key window_sec max_count;
      rs ← repeat_check n' key window_sec max_count;
      mret (r :: rs)
  end.

Definition window_key (key : ustr) : ustr := KEY_PREFIX ++ lit ":" ++ key.

(** From an open window with count [c], the [i]-th further hit has count [c + i]. *)
Lemma repeat_check_open n key window max r c e :
  quiet (r_sched r) -> 1 <= c ->
  r_data r !! window_key key = Some {| r_val := RInt c; r_exp := Some e |} ->
  r_now r + total_delay (r_sched r) < e ->
  exists res r', repeat_check n key window max r = (inr res, r') /\
    fst <$> res = (fun i => Z.of_nat i + c <=? max) <$> seq 1 n /\
    Forall (fun x => fst x = false -> 1 <= snd x <= e - r_now r) res.
Proof.
  revert r c. induction n as [|n IH]; intros r c Hq Hc Hd Hlt; cbn [repeat_check].
  { exists [], r. split; [done|]. by split. }
  unfold check_redis_fixed_window. fold (window_key key). unfold mbind, M_bind.
  destruct (eval_script_cached_quiet FIXED_WINDOW (lua_fixed_window (window_key key) window) r Hq)
    as (now & r1 & -> & Hd1 & Hn1 & Hle & Hq1 & Ht).
  pose proof (total_delay_nonneg _ Hq1) as Hnn.
  assert (lua_fixed_window (window_key key) window now (r_data r) =
    (inr (c + 1, e - now), <[window_key key := {| r_val := RInt (c + 1); r_exp := Some e |}]> (r_data r))) as Hl.
  { unfold lua_fixed_window, live, expired. rewrite Hd. cbn.
    destruct (Z.leb_spec e now); [lia|]. destruct (Z.eqb_spec (c + 1) 1); [lia|]. done. }
  rewrite Hl in *. cbn [fst snd] in *. cbn [mret M_ret].
  destruct (IH r1 (c + 1)) as (res & r' & -> & Hres & HF).
  { done. } { lia. } { rewrite Hd1. apply lookup_insert_eq. } { lia. }
  set (x := if max <? c + 1 then (false, if 0 <=? e - now then Z.max 0 (e - now) else window) else (true, 0)).
  exists (x :: res), r'. split; [done|]. cbn [fmap list_fmap seq]. split.
  - f_equal.
    + subst x. destruct (Z.ltb_spec max (c + 1)), (Z.leb_spec (Z.of_nat 1 + c) max); cbn; try done; lia.
    + rewrite Hres. rewrite <-(fmap_S_seq 1 n), <-list_fmap_compose.
      apply list_fmap_ext. intros i k Hk. cbn.
      destruct (Z.leb_spec (Z.of_nat k + (c + 1)) max), (Z.leb_spec (Z.of_nat (S k) + c) max); try done; lia.
  - constructor.
    + subst x. destruct (max <? c + 1); [|done]. intros _. cbn [snd].
      destruct (Z.leb_spec 0 (e - now)); lia.
    + eapply Forall_impl; [exact HF|]. cbn. intros y Hy Hf. specialize (Hy Hf). lia.
Qed.

(** ** Lemmas: availability *)

Lemma command_faulty {A : Type} (c : cmd A) r t ts :
  r_sched r = t :: ts -> t_fault t <> NoFault -> (command c r).1 = inl RedisError.
Proof.
  intros Hs Hf. unfold command, next_tick. rewrite Hs.
  destruct (t_fault t); [done|done|]. by destruct (c _ _).
Qed.

Lemma check_redis_faulty key w m r t ts :
  r_sched r = t :: ts -> t_fault t <> NoFault ->
  (check_redis_fixed_window key w m r).1 = inl RedisError.
Proof.
  intros Hs Hf. unfold check_redis_fixed_window, eval_script_cached, evalsha, mbind, M_bind.
  destruct (next_tick r) as [t' ts']. destruct (negb _ && _);
    match goal with |- context [command ?c r] => pose proof (command_faulty c r t ts Hs Hf) as Hc;
      destruct (command c r) as [[?|?] ?]; cbn in *; by simplify_eq end.
Qed.

(** Redis cannot answer: no client, or the next round trip fails. *)
Definition redis_away (present : bool) (s : rl_state) : Prop :=
  present = false \/ exists t ts, r_sched (rl_redis s) = t :: ts /\ t_fault t <> NoFault.

(** What the memory window decides in state [s]. *)
Definition memory_decision (s : rl_state) (key : ustr) (w m : Z) : bool * Z :=
  (check_memory_fixed_window MEMORY_MAX_KEYS (rl_clock s) key w m (rl_memory s)).1.

Lemma check_fixed_window_total present key w m fo s :
  exists r s', check_fixed_window present key w m fo s = (inr r, s') /\ rl_clock s' = rl_clock s.
Proof.
  unfold check_fixed_window, try_except, with_redis, memory_check, when, count_rejection, modify, mbind, M_bind.
  destruct present, fo; try destruct (check_redis_fixed_window _ _ _ _) as [[?|[[] ?]] ?];
    try destruct (check_memory_fixed_window _ _ _ _ _ _) as [[[] ?] ?]; cbn; eauto.
Qed.

Lemma check_fixed_window_away present key w m fo s : redis_away present s ->
  exists s', check_fixed_window present key w m fo s =
    (inr (if fo then (true, 0) else memory_decision s key w m), s') /\
    (fo = true -> rl_memory s' = rl_memory s /\ rl_rejections s' = rl_rejections s).
Proof.
  intros Haway.
  assert (forall r, (present = true -> (r (rl_redis s)).1 = inl RedisError) ->
    exists s1, rl_memory s1 = rl_memory s /\ rl_rejections s1 = rl_rejections s /\ rl_clock s1 = rl_clock s /\
    (if present then try_except (with_redis r) (fun _ => if fo then mret (true, 0) else memory_check key w m)
     else if fo then mret (true, 0) else memory_check key w m) s =
    (if fo then mret (true, 0) else memory_check key w m) s1) as Hcore.
  { intros r Hr. destruct present; [|by exists s]. unfold try_except, with_redis.
    specialize (Hr eq_refl). destruct (r (rl_redis s)) as [res r']. cbn in Hr. subst.
    eexists. split_and!; [..|reflexivity]; done. }
  destruct (Hcore (check_redis_fixed_window key w m)) as (s1 & Hm & Hrej & Hc & E).
  { intros ->. destruct Haway as [?|(t & ts & Ht & Hf)]; [done|]. by eapply check_redis_faulty. }
  unfold check_fixed_window. unfold mbind at 1, M_bind at 1. rewrite E. destruct fo; [by exists s1|].
  unfold memory_check, memory_decision. rewrite Hm, Hc.
  destruct (check_memory_fixed_window _ _ _ _ _ _) as [[[] ?] ?]; cbn; eexists; by split.
Qed.

Lemma resolve_policy_total settings path :
  exists p, resolve_policy settings path = Some p /\
    policy_fail_open p = negb (path_is_login settings path || path_is_signup_upload settings path) /\
    (policy_code p = LOGIN_RATE_LIMIT_EXCEEDED <-> path_is_login settings path = true).
Proof.
  unfold resolve_policy, POLICIES. cbn.
  destruct (path_is_login settings path), (path_is_signup_upload settings path); eexists; split; eauto; by split.
Qed.

(** ** The gate along a connection *)

Definition advance (dt : Z) : M rl_state unit :=
  modify (fun s => {| rl_redis := rl_redis s; rl_memory := rl_memory s; rl_clock := rl_clock s + dt;
                      rl_rejections := rl_rejections s |}).

(** One [check] per message, [dts] apart. *)
Fixpoint gate_run (dts : list Z) (g : gate) (present : bool) (w m : Z) : M rl_state (list (bool * Z * bool)) :=
  match dts with
  | [] => mret []
  | dt :: dts' =>
      advance dt ;;
      '(r, g') ← gate_check g present w m;
      rs ← gate_run dts' g' present w m;
      mret (r :: rs)
  end.

(** Rejections since the last accepted message, after each message. *)
Fixpoint streaks (n : Z) (accepted : list bool) : list Z :=
  match accepted with
  | [] => []
  | true :: l => 0 :: streaks 0 l
  | false :: l => (n + 1) :: streaks (n + 1) l
  end.

Lemma gate_check_spec g present w m s :
  exists allowed ra g' s',
    gate_check g present w m s =
      (inr (allowed, ra, negb allowed && (g_close_threshold g <=? g_consecutive_rejections g + 1), g'), s') /\
    g_close_threshold g' = g_close_threshold g /\
    g_consecutive_rejections g' = (if allowed : bool then 0 else g_consecutive_rejections g + 1) /\
    (rl_clock s < g_blocked_until g -> allowed = false /\ rl_redis s' = rl_redis s /\ rl_memory s' = rl_memory s).
Proof.
  unfold gate_check, get, mbind, M_bind.
  destruct (Z.ltb_spec (rl_clock s) (g_blocked_until g)).
  - cbn. eexists false, _, _, _. split; [done|]. by split_and!.
  - destruct (check_fixed_window_total present (g_key g) w m false s) as ([[] ra] & s' & -> & _); cbn.
    + eexists true, _, _, _. split; [reflexivity|]. split_and!; [done|done|lia].
    + eexists false, _, _, _. split; [reflexivity|]. split_and!; [done|done|lia].
Qed.

(** ** Properties *)

(** The distributed fixed window admits exactly [max_count] requests: when
    no window is open for the key and the connection answers, of [n] requests
    that all arrive within one window length the first [max_count] are allowed
    and every later one is refused with a retry time between one second and the
    window, whatever the delays between them and whether or not the script was
    cached. *)
Theorem redis_window_admits_max n key window max_count r :
  1 <= window -> quiet (r_sched r) ->
  (forall now, r_now r <= now -> live now (r_data r) (window_key key) = None) ->
  total_delay (r_sched r) < window ->
  exists res r', repeat_check n key window max_count r = (inr res, r') /\
    fst <$> res = (fun i => Z.of_nat i <=? max_count) <$> seq 1 n /\
    Forall (fun x => fst x = false -> 1 <= snd x <= window) res.
Proof.
  intros Hw Hq Hlive Ht. destruct n as [|n]; [by exists [], r|]. cbn [repeat_check].
  unfold check_redis_fixed_window. fold (window_key key). unfold mbind, M_bind.
  destruct (eval_script_cached_quiet FIXED_WINDOW (lua_fixed_window (window_key key) window) r Hq)
    as (now & r1 & -> & Hd1 & Hn1 & Hle & Hq1 & Htd).
  pose proof (total_delay_nonneg _ Hq1) as Hnn.
  assert (lua_fixed_window (window_key key) window now (r_data r) =
    (inr (1, window), <[window_key key := {| r_val := RInt 1; r_exp := Some (now + window) |}]> (r_data r))) as Hl.
  { unfold lua_fixed_window. rewrite Hlive by done. destruct (Z.leb_spec window 0); [lia|done]. }
  rewrite Hl in *. cbn [fst snd] in *. cbn [mret M_ret].
  destruct (repeat_check_open n key window max_count r1 1 (now + window)) as (res & r' & -> & Hres & HF);
    [done|lia|rewrite Hd1; apply lookup_insert_eq|lia|].
  eexists (_ :: res), r'. split; [done|]. cbn [fmap list_fmap seq]. split.
  - f_equal.
    + destruct (Z.ltb_spec max_count 1), (Z.leb_spec (Z.of_nat 1) max_count); cbn; try done; lia.
    + rewrite Hres, <-(fmap_S_seq 1 n), <-list_fmap_compose. apply list_fmap_ext. intros i k _. cbn.
      destruct (Z.leb_spec (Z.of_nat k + 1) max_count), (Z.leb_spec (Z.of_nat (S k)) max_count); try done; lia.
  - constructor.
    + destruct (max_count <? 1); [|done]. intros _. cbn [snd]. destruct (Z.leb_spec 0 window); lia.
    + eapply Forall_impl; [exact HF|]. cbn. intros y Hy Hf. specialize (Hy Hf). lia.
Qed.

(** Memory fallback: however many clients call, the store never exceeds its
    bound, the caller's window is recorded by the call, and a caller whose key
    is not evicted and already has [max_count] or more hits in an open window is
    refused. *)
Theorem memory_store_bounded max_keys now key w m d :
  (1 <= max_keys)%nat -> (length d <= max_keys)%nat ->
  let '((allowed, _), d') := check_memory_fixed_window max_keys now key w m d in
  (length d' <= max_keys)%nat /\ (exists e, dict_get key d' = Some e) /\
  (allowed = false <->
     exists c e, dict_get key (memory_evict_if_needed max_keys now d) = Some (c, e) /\ now < e /\ m <= c).
Proof.
  intros Hk Hd. unfold check_memory_fixed_window.
  pose proof (memory_evict_bound max_keys now d Hk) as Hb. set (d1 := memory_evict_if_needed max_keys now d) in *.
  assert (forall v, exists e, dict_get key (dict_set key v d1) = Some e) as Hget.
  { intros v. exists v. by rewrite dict_get_set, decide_True. }
  pose proof (fun v => dict_set_length key v d1) as Hlen.
  destruct (dict_get key d1) as [[c e]|] eqn:E.
  - destruct (Z.leb_spec e now).
    + split; [specialize (Hlen (1, now + w * SEC)); lia|]. split; [done|]. split; [done|].
      intros (? & ? & ? & ? & ?). simplify_eq. lia.
    + specialize (Hlen (c + 1, e)). destruct (Z.ltb_spec m (c + 1)); (split; [lia|]); (split; [done|]); (split; [|done || (intros (? & ? & ? & ? & ?); simplify_eq; lia)]); intros; simplify_eq; try done.
      exists c, e. split_and!; [done|lia|lia].
  - split; [specialize (Hlen (1, now + w * SEC)); lia|]. split; [done|]. split; [done|].
    intros (? & ? & ? & ? & ?). done.
Qed.

(** The middleware under failure: it never raises; probes, preflights and
    non-HTTP scopes pass without touching any limiter; and while Redis cannot
    answer, the login and sign-up upload paths are decided by the memory window
    (never waved through), every other path is forwarded untouched. *)
Theorem rate_limit_outage settings present sc s :
  (exists out s', rate_limit_call settings present sc s = (inr out, s')) /\
  (sc_type sc = ScopeOther \/ sc_method sc = lit "OPTIONS" \/ sc_path sc ∈ INFRA_PROBE_PATHS ->
     rate_limit_call settings present sc s = (inr Forward, s)) /\
  (redis_away present s -> sc_type sc = ScopeHttp -> sc_method sc <> lit "OPTIONS" ->
     sc_path sc ∉ INFRA_PROBE_PATHS ->
     exists p s', resolve_policy settings (sc_path sc) = Some p /\
       if path_is_login settings (sc_path sc) || path_is_signup_upload settings (sc_path sc)
       then rate_limit_call settings present sc s =
            (inr (let '(allowed, retry) := memory_decision s
                        (key_prefix p ++ lit ":" ++ client_ip_from_scope sc (lit "unknown"))
                        (limits p).1 (limits p).2 in
                  if allowed : bool then Forward else Send429 (policy_code p) retry), s')
       else rate_limit_call settings present sc s = (inr Forward, s') /\ rl_memory s' = rl_memory s).
Proof.
  destruct (resolve_policy_total settings (sc_path sc)) as (p & Hp & Hfo & _).
  unfold rate_limit_call. rewrite Hp. destruct (limits p) as [w m] eqn:El.
  split_and!.
  - destruct (sc_type sc); [|eauto]. destruct (bool_decide _ || _) eqn:Eb; [by eauto|]. unfold mbind, M_bind.
    destruct (check_fixed_window_total present
      (key_prefix p ++ lit ":" ++ client_ip_from_scope sc (lit "unknown")) w m (policy_fail_open p) s)
      as ([??] & s' & -> & _). eauto.
  - intros [->|H]; [done|]. destruct (sc_type sc); [|done].
    assert (bool_decide (sc_method sc = lit "OPTIONS") ||
            bool_decide (sc_path sc ∈ INFRA_PROBE_PATHS) = true) as ->; [|done].
    apply orb_true_iff. rewrite !bool_decide_eq_true. exact H.
  - intros Haway -> H1 H2. rewrite !bool_decide_eq_false_2 by done. cbn [orb].
    unfold mbind, M_bind.
    destruct (check_fixed_window_away present
      (key_prefix p ++ lit ":" ++ client_ip_from_scope sc (lit "unknown")) w m (policy_fail_open p) s Haway)
      as (s' & -> & Hs). exists p, s'. split; [done|]. rewrite Hfo in *. rewrite El.
    destruct (_ || _); cbn [negb fst snd] in *; [|split; [done|by apply Hs]].
    destruct (memory_decision _ _ _ _) as [a n]. reflexivity.
Qed.

(** Closing an abusive WebSocket connection: along any run of messages at
    any times, with Redis up, failing or absent, the gate answers every message
    and asks for the connection to be closed exactly when the number of
    rejections since the last accepted message has reached the threshold. *)
Theorem gate_closes_on_streak dts key thr present w m s :
  exists res s', gate_run dts (new_gate key thr) present w m s = (inr res, s') /\
    snd <$> res = (fun k => (0 <? k) && (thr <=? k)) <$> streaks 0 ((fun x => x.1.1) <$> res).
Proof.
  assert (forall g s, 0 <= g_consecutive_rejections g -> exists res s',
    gate_run dts g present w m s = (inr res, s') /\
    snd <$> res = (fun k => (0 <? k) && (g_close_threshold g <=? k)) <$>
                    streaks (g_consecutive_rejections g) ((fun x => x.1.1) <$> res)) as H;
    [|apply (H (new_gate key thr)); cbn; lia].
  clear s. induction dts as [|dt dts IH]; intros g s Hg; cbn [gate_run]; [by exists [], s|].
  unfold advance, modify. unfold mbind, M_bind.
  match goal with |- context [gate_check g present w m ?s1] =>
    destruct (gate_check_spec g present w m s1) as (a & ra & g' & s' & -> & Hthr & Hn & _) end.
  destruct (IH g' s') as (res & s'' & -> & Hres); [destruct a; lia|].
  eexists (_ :: res), s''. split; [done|]. cbn [fmap list_fmap]. rewrite Hres, Hthr, Hn.
  destruct a; cbn; [done|]. destruct (Z.ltb_spec 0 (g_consecutive_rejections g + 1)); [done|lia].
Qed.

(** ** Witnesses *)

Lemma redis_window_admits_max_witness :
  exists res r', repeat_check 3 (lit "login:1.2.3.4") 60 2 empty_redis = (inr res, r') /\
    fst <$> res = [true; true; false].
Proof.
  destruct (redis_window_admits_max 3 (lit "login:1.2.3.4") 60 2 empty_redis) as (res & r' & H & H1 & _).
  - lia.
  - constructor.
  - intros now _. reflexivity.
  - cbn. lia.
  - exists res, r'. split; [exact H|]. rewrite H1. reflexivity.
Defined.

Lemma memory_store_bounded_witness :
  exists d', (check_memory_fixed_window 2 5 (lit "b") 60 1 [(lit "a", (1, 4)); (lit "c", (1, 9))]).2 = d' /\
    (length d' <= 2)%nat.
Proof.
  eexists. split; [reflexivity|].
  pose proof (memory_store_bounded 2 5 (lit "b") 60 1 [(lit "a", (1, 4)); (lit "c", (1, 9))]) as H.
  apply H; cbn; lia.
Defined.

Definition demo_settings : rl_settings :=
  {| LOGIN_RATE_LIMIT_WINDOW := 60; LOGIN_RATE_LIMIT_MAX_ATTEMPTS := 5;
     SIGNUP_UPLOAD_RATE_LIMIT_WINDOW := 3600; SIGNUP_UPLOAD_RATE_LIMIT_MAX := 10;
     RATE_LIMIT_WINDOW := 60; RATE_LIMIT_MAX_REQUESTS := 100; API_PREFIX := lit "/v1" |}.

Definition demo_rl : rl_state :=
  {| rl_redis := empty_redis; rl_memory := []; rl_clock := 0; rl_rejections := [] |}.

Definition demo_scope (path : ustr) : asgi_scope :=
  {| sc_type := ScopeHttp; sc_path := path; sc_method := lit "POST"; sc_client := None |}.

Lemma rate_limit_outage_witness :
  exists s', rate_limit_call demo_settings false (demo_scope (lit "/v1/posts")) demo_rl = (inr Forward, s').
Proof.
  destruct (rate_limit_outage demo_settings false (demo_scope (lit "/v1/posts")) demo_rl) as (_ & _ & H).
  destruct H as (p & s' & _ & H).
  - left. reflexivity.
  - reflexivity.
  - discriminate.
  - in_lit.
  - exists s'. vm_compute in H. exact (proj1 H).
Defined.
