(* ===== verification/Db.v ===== *)
(** * Relational store ([app/db/statements.py], the ORM models of [app/domain])

    A table is a finite map from primary key to row; a statement is a function
    on the store and a transaction undoes its own writes when its block raises.
    [now] stands for [utc_now()] and fresh identifiers are arguments, so that
    every operation is a function of its inputs.  A statement inserting a key
    that exists, or a reference to a row that does not, raises what PostgreSQL
    raises. *)

From S2P Require Import Prelude Common.

(** ** Record update: [r <| field := v |>] *)

Class Eta (R : Type) := eta : R -> R.
Class Setter {R E} (proj : R -> E) := over : (E -> E) -> R -> R.
Arguments over {R E} proj {_} _ _.

Ltac solve_setter :=
  lazymatch goal with
  | |- @Setter ?R ?E ?p =>
      let i := constr:(_ : Eta R) in
      let e := eval hnf in i in
      lazymatch eval pattern p in e with
      | ?h _ => exact (fun F : E -> E => h (fun r => F (p r)))
      end
  end.
#[export] Hint Extern 0 (Setter _) => solve_setter : typeclass_instances.

Declare Scope rec_scope.
Delimit Scope rec_scope with rec.
#[warnings="-postfix-notation-not-level-1"]
Notation "r <| f := v |>" := (over f (fun _ => v) r)
  (at level 12, f at next level, v at level 200, left associativity) : rec_scope.
#[global] Open Scope rec_scope.

(** ** Rows *)

Inductive UserStatus := ACTIVE | SUSPENDED | WITHDRAWN.
#[export] Instance UserStatus_eq_dec : EqDecision UserStatus.
Proof. solve_decision. Defined.

Record User := {
  user_version : Z; email : ustr; password : ustr; nickname : ustr;
  user_profile_image_id : option Z; role : ustr; status : UserStatus;
  user_created_at : Z; user_updated_at : Z; user_deleted_at : option Z;
}.
#[export] Instance User_eta : Eta User := fun r =>
  Build_User (user_version r) (email r) (password r) (nickname r) (user_profile_image_id r)
    (role r) (status r) (user_created_at r) (user_updated_at r) (user_deleted_at r).

Record Post := {
  user_id : option Z; title : ustr; content : ustr; category_id : option Z;
  view_count : Z; like_count : Z; comment_count : Z; report_count : Z;
  is_blinded : bool; created_at : Z; updated_at : Z; deleted_at : option Z; version : Z;
}.
#[export] Instance Post_eta : Eta Post := fun r =>
  Build_Post (user_id r) (title r) (content r) (category_id r) (view_count r) (like_count r)
    (comment_count r) (report_count r) (is_blinded r) (created_at r) (updated_at r)
    (deleted_at r) (version r).

Record PostImage := { pi_post_id : Z; pi_image_id : Z; pi_created_at : Z }.

Record Comment := {
  c_post_id : Z; author_id : option Z; parent_id : option Z; c_content : ustr;
  c_like_count : Z; c_report_count : Z; c_is_blinded : bool;
  c_created_at : Z; c_updated_at : Z; c_deleted_at : option Z;
}.
#[export] Instance Comment_eta : Eta Comment := fun r =>
  Build_Comment (c_post_id r) (author_id r) (parent_id r) (c_content r) (c_like_count r)
    (c_report_count r) (c_is_blinded r) (c_created_at r) (c_updated_at r) (c_deleted_at r).

Inductive NotificationKind := COMMENT_ON_POST | LIKE_POST | LIKE_COMMENT.
Inductive TargetType := POST | COMMENT.
#[export] Instance TargetType_eq_dec : EqDecision TargetType.
Proof. solve_decision. Defined.

Record Notification := {
  n_user_id : Z; kind : NotificationKind; actor_id : option Z; n_post_id : option Z;
  n_comment_id : option Z; read_at : option Z; n_created_at : Z;
}.
#[export] Instance Notification_eta : Eta Notification := fun r =>
  Build_Notification (n_user_id r) (kind r) (actor_id r) (n_post_id r) (n_comment_id r)
    (read_at r) (n_created_at r).

Record Report := {
  reporter_id : Z; target_type : TargetType; target_id : Z; reason : option ustr;
  rep_created_at : Z; rep_deleted_at : option Z;
}.
#[export] Instance Report_eta : Eta Report := fun r =>
  Build_Report (reporter_id r) (target_type r) (target_id r) (reason r) (rep_created_at r)
    (rep_deleted_at r).

Record Image := {
  file_key : ustr; file_url : ustr; content_type : option ustr; size : option Z;
  uploader_id : option Z; img_created_at : Z; img_deleted_at : option Z;
}.
#[export] Instance Image_eta : Eta Image := fun r =>
  Build_Image (file_key r) (file_url r) (content_type r) (size r) (uploader_id r)
    (img_created_at r) (img_deleted_at r).

Record DogProfile := {
  owner_id : Z; dog_name : ustr; breed : ustr; gender : ustr; birth_date : Z;
  dog_profile_image_id : option Z; is_representative : bool;
  dog_created_at : Z; dog_updated_at : Z;
}.
#[export] Instance DogProfile_eta : Eta DogProfile := fun r =>
  Build_DogProfile (owner_id r) (dog_name r) (breed r) (gender r) (birth_date r)
    (dog_profile_image_id r) (is_representative r) (dog_created_at r) (dog_updated_at r).

Record ChatRoom := { user1_id : Z; user2_id : Z; room_created_at : Z; room_updated_at : Z }.
#[export] Instance ChatRoom_eta : Eta ChatRoom := fun r =>
  Build_ChatRoom (user1_id r) (user2_id r) (room_created_at r) (room_updated_at r).

Record ChatMessage := {
  room_id : Z; sender_id : Z; msg_content : ustr; is_read : bool; msg_created_at : Z;
}.
#[export] Instance ChatMessage_eta : Eta ChatMessage := fun r =>
  Build_ChatMessage (room_id r) (sender_id r) (msg_content r) (is_read r) (msg_created_at r).

(** ** The store *)

Record db := {
  users : gmap Z User;
  user_blocks : gmap (Z * Z) Z;           (** (blocker, blocked) to created_at *)
  categories : gset Z;
  hashtags : gmap Z ustr;                 (** id to name (unique) *)
  hashtag_seq : Z;                        (** last serial drawn *)
  post_hashtags : gset (Z * Z);           (** (post, hashtag) *)
  posts : gmap Z Post;
  post_images : gmap Z PostImage;
  post_likes : gmap (Z * Z) Z;            (** (post, user) to created_at *)
  comments : gmap Z Comment;
  comment_likes : gmap (Z * Z) Z;         (** (comment, user) to created_at *)
  notifications : gmap Z Notification;
  reports : gmap Z Report;
  images : gmap Z Image;
  dogs : gmap Z DogProfile;
  chat_rooms : gmap Z ChatRoom;
  chat_messages : gmap Z ChatMessage;
}.
#[export] Instance db_eta : Eta db := fun r =>
  Build_db (users r) (user_blocks r) (categories r) (hashtags r) (hashtag_seq r) (post_hashtags r)
    (posts r) (post_images r) (post_likes r) (comments r) (comment_likes r) (notifications r)
    (reports r) (images r) (dogs r) (chat_rooms r) (chat_messages r).

Definition empty_db : db :=
  {| users := ∅; user_blocks := ∅; categories := ∅; hashtags := ∅; hashtag_seq := 0;
     post_hashtags := ∅; posts := ∅; post_images := ∅; post_likes := ∅; comments := ∅;
     comment_likes := ∅; notifications := ∅; reports := ∅; images := ∅; dogs := ∅;
     chat_rooms := ∅; chat_messages := ∅ |}.

(** The [model] argument of the shared statements. *)
Class Table (K R : Type) `{Countable K} := {
  rows : db -> gmap K R;
  set_rows : gmap K R -> db -> db;
  rows_set : forall t d, rows (set_rows t d) = t;
  set_rows_id : forall d, set_rows (rows d) d = d;
}.

#[export] Instance posts_table : Table Z Post :=
  {| rows := posts; set_rows t d := d <| posts := t |>; rows_set _ _ := eq_refl;
     set_rows_id d := ltac:(by destruct d) |}.
#[export] Instance comments_table : Table Z Comment :=
  {| rows := comments; set_rows t d := d <| comments := t |>; rows_set _ _ := eq_refl;
     set_rows_id d := ltac:(by destruct d) |}.
#[export] Instance users_table : Table Z User :=
  {| rows := users; set_rows t d := d <| users := t |>; rows_set _ _ := eq_refl;
     set_rows_id d := ltac:(by destruct d) |}.
#[export] Instance notifications_table : Table Z Notification :=
  {| rows := notifications; set_rows t d := d <| notifications := t |>; rows_set _ _ := eq_refl;
     set_rows_id d := ltac:(by destruct d) |}.
#[export] Instance reports_table : Table Z Report :=
  {| rows := reports; set_rows t d := d <| reports := t |>; rows_set _ _ := eq_refl;
     set_rows_id d := ltac:(by destruct d) |}.
#[export] Instance images_table : Table Z Image :=
  {| rows := images; set_rows t d := d <| images := t |>; rows_set _ _ := eq_refl;
     set_rows_id d := ltac:(by destruct d) |}.
#[export] Instance post_images_table : Table Z PostImage :=
  {| rows := post_images; set_rows t d := d <| post_images := t |>; rows_set _ _ := eq_refl;
     set_rows_id d := ltac:(by destruct d) |}.
#[export] Instance dogs_table : Table Z DogProfile :=
  {| rows := dogs; set_rows t d := d <| dogs := t |>; rows_set _ _ := eq_refl;
     set_rows_id d := ltac:(by destruct d) |}.
#[export] Instance chat_rooms_table : Table Z ChatRoom :=
  {| rows := chat_rooms; set_rows t d := d <| chat_rooms := t |>; rows_set _ _ := eq_refl;
     set_rows_id d := ltac:(by destruct d) |}.
#[export] Instance chat_messages_table : Table Z ChatMessage :=
  {| rows := chat_messages; set_rows t d := d <| chat_messages := t |>; rows_set _ _ := eq_refl;
     set_rows_id d := ltac:(by destruct d) |}.

(** Link tables share their row type, so they are named rather than inferred. *)
Definition post_likes_table : Table (Z * Z) Z :=
  {| rows := post_likes; set_rows t d := d <| post_likes := t |>; rows_set _ _ := eq_refl;
     set_rows_id d := ltac:(by destruct d) |}.
Definition comment_likes_table : Table (Z * Z) Z :=
  {| rows := comment_likes; set_rows t d := d <| comment_likes := t |>; rows_set _ _ := eq_refl;
     set_rows_id d := ltac:(by destruct d) |}.
Definition user_blocks_table : Table (Z * Z) Z :=
  {| rows := user_blocks; set_rows t d := d <| user_blocks := t |>; rows_set _ _ := eq_refl;
     set_rows_id d := ltac:(by destruct d) |}.

(** ** Transactions: [async with db.begin()] *)

Definition begin_tx {A} (m : M db A) : M db A := fun d =>
  match m d with
  | (inl e, _) => (inl e, d)
  | (inr a, d') => (inr a, d')
  end.

(** ** Statements *)

Lemma keeps_begin {A} (I : db -> Prop) (m : M db A) : keeps I m -> keeps I (begin_tx m).
Proof.
  intros Hm d Hd. unfold begin_tx. specialize (Hm d Hd). by destruct (m d) as [[e|a] d'].
Qed.
#[export] Hint Resolve keeps_begin : keeps.

Lemma begin_tx_error {A} (m : M db A) d e d' : begin_tx m d = (inl e, d') -> d' = d.
Proof. unfold begin_tx. destruct (m d) as [[?|?] ?]; [|done]. by intros [= _ <-]. Qed.

Section Statements.
Context `{Table K R}.

(** [SELECT ... WHERE conds] *)
Definition select_where (conds : K -> R -> bool) (d : db) : list (K * R) :=
  List.filter (fun p => conds p.1 p.2) (map_to_list (rows d)).

(** [UPDATE ... SET ... WHERE conds] *)
Definition update_where (conds : K -> R -> bool) (values : R -> R) (d : db) : db :=
  set_rows (map_imap (fun k r => Some (if conds k r then values r else r)) (rows d)) d.

(** [UPDATE ... RETURNING e] read with [scalar_one_or_none]: no row and a NULL
    value are both [None]; two rows raise. *)
Definition update_one_returning {A} (conds : K -> R -> bool) (values : R -> R)
    (returning : K -> R -> option A) : M db (option A) := fun d =>
  let d' := update_where conds values d in
  match select_where conds d with
  | [] => (inr None, d')
  | [(k, r)] => (inr (returning k (values r)), d')
  | _ => (inl DatabaseError, d')
  end.

(** [INSERT ... ON CONFLICT (pk) DO NOTHING]; [refs] are the row's foreign keys. *)
Definition insert_ignore (k : K) (r : R) (refs : db -> bool) : M db bool := fun d =>
  match rows d !! k with
  | Some _ => (inr false, d)
  | None => if refs d then (inr true, set_rows (<[k := r]> (rows d)) d)
            else (inl ForeignKeyViolation, d)
  end.

(** [db.add(row); await db.flush()] *)
Definition insert_row (k : K) (r : R) (refs : db -> bool) : M db unit := fun d =>
  match rows d !! k with
  | Some _ => (inl (UniqueViolation (lit "pkey")), d)
  | None => if refs d then (inr tt, set_rows (<[k := r]> (rows d)) d)
            else (inl ForeignKeyViolation, d)
  end.

(** [DELETE ... WHERE conds], the number of rows. *)
Definition delete_rows (conds : K -> R -> bool) : M db Z := fun d =>
  (inr (py_len (select_where conds d)),
   set_rows (filter (fun p => conds p.1 p.2 = false) (rows d)) d).

(** Rows whose key is in [ks]: [WHERE id IN (...)]. *)
Definition key_in (ks : list K) (k : K) (_ : R) : bool := bool_decide (k ∈ ks).
End Statements.

(** [decrement_counter_by_link_owner]: every target loses as many as the owners
    have links to it, not below zero. *)
Definition links_of (owner_ids : list Z) (links : gmap (Z * Z) Z) (target : Z) : Z :=
  py_len (List.filter (fun p => bool_decide (p.1.1 = target) && bool_decide (p.1.2 ∈ owner_ids))
            (map_to_list links)).

Definition decrement_counter_by_link_owner {R} `{!Table Z R} (links : db -> gmap (Z * Z) Z)
    (counter : R -> Z) (set_counter : Z -> R -> R) (owner_ids : list Z) : M db unit := fun d =>
  match owner_ids with
  | [] => (inr tt, d)
  | _ =>
      (inr tt, set_rows (map_imap (fun k r =>
          let n := links_of owner_ids (links d) k in
          Some (if n =? 0 then r else set_counter (Z.max (counter r - n) 0) r)) (rows d)) d)
  end.

(** ** Users seen by other domains ([users/model.py]) *)

Definition has_block (blocker blocked : Z) (d : db) : bool :=
  bool_decide (is_Some (user_blocks d !! (blocker, blocked))).

(** [author_not_blocked_clause]: a NULL author matches no block row. *)
Definition author_not_blocked (author : option Z) (blocker_id : option Z) (d : db) : bool :=
  match blocker_id, author with
  | Some b, Some a => negb (has_block b a d)
  | _, _ => true
  end.

(** ** Lemmas *)

Section StatementLemmas.
Context `{Table K R}.

Lemma filter_map_to_list_none (conds : K -> R -> bool) (m : gmap K R) :
  (forall k r, m !! k = Some r -> conds k r = false) ->
  List.filter (fun p => conds p.1 p.2) (map_to_list m) = [].
Proof.
  intros Hc. apply elem_of_nil_inv. intros [k r] Hin.
  apply list_elem_of_In, filter_In in Hin as [Hin Ht].
  apply list_elem_of_In, elem_of_map_to_list in Hin. cbn in Ht. by rewrite (Hc k r Hin) in Ht.
Qed.

Lemma select_where_nodup (c : K -> R -> bool) d : NoDup (fst <$> select_where c d).
Proof.
  unfold select_where. pose proof (NoDup_fst_map_to_list (rows d)) as Hnd. revert Hnd.
  induction (map_to_list (rows d)) as [|x l IH]; cbn; [done|]. intros [Hx Hl]%NoDup_cons.
  destruct (c x.1 x.2); [|by apply IH]. cbn. apply NoDup_cons. split; [|by apply IH].
  intros (y & E & Hy)%list_elem_of_fmap. apply Hx, list_elem_of_fmap. exists y. split; [done|].
  apply list_elem_of_In, filter_In in Hy as [Hy _]. by apply list_elem_of_In.
Qed.

Lemma select_where_elem (c : K -> R -> bool) d k r :
  (k, r) ∈ select_where c d <-> rows d !! k = Some r /\ c k r = true.
Proof.
  unfold select_where. rewrite list_elem_of_In, filter_In. cbn.
  by rewrite <-list_elem_of_In, elem_of_map_to_list.
Qed.

Lemma select_where_and (c1 c2 : K -> R -> bool) d :
  select_where (fun k r => c1 k r && c2 k r) d = List.filter (fun p => c2 p.1 p.2) (select_where c1 d).
Proof.
  unfold select_where. induction (map_to_list (rows d)) as [|[k r] l IH]; cbn; [done|].
  destruct (c1 k r); cbn; [|done]. destruct (c2 k r); cbn; by rewrite IH.
Qed.

(** A condition that pins the primary key selects at most that row. *)
Lemma select_where_pk (pk : K) (c : R -> bool) d :
  select_where (fun k r => bool_decide (k = pk) && c r) d =
  match rows d !! pk with Some r => if c r then [(pk, r)] else [] | None => [] end.
Proof.
  unfold select_where. destruct (rows d !! pk) as [r|] eqn:E.
  - rewrite <-(insert_delete_id (rows d) pk r E) at 1.
    assert (List.filter (fun p : K * R => bool_decide (p.1 = pk) && c p.2)
              (map_to_list (<[pk:=r]> (delete pk (rows d)))) ≡ₚ (if c r then [(pk, r)] else [])) as Hp.
    { rewrite (lfilter_perm _ _ _ (map_to_list_insert _ pk r (lookup_delete_eq _ _))).
      cbn [List.filter fst snd]. rewrite bool_decide_eq_true_2 by done. cbn [andb].
      pose proof (filter_map_to_list_none (fun k x => bool_decide (k = pk) && c x) (delete pk (rows d))) as ->;
        [by destruct (c r)|].
      intros k x Hk. destruct (decide (k = pk)) as [->|Hne]; [by rewrite lookup_delete_eq in Hk|].
      by rewrite bool_decide_eq_false_2. }
    destruct (c r); [by apply Permutation_singleton_r in Hp|by apply Permutation_nil_r in Hp].
  - refine (filter_map_to_list_none (fun (k : K) x => bool_decide (k = pk) && c x) _ _). intros k r Hk.
    destruct (decide (k = pk)) as [->|]; [congruence|]. by rewrite bool_decide_eq_false_2.
Qed.

Lemma update_where_pk (pk : K) (c : R -> bool) (f : R -> R) d :
  rows (update_where (fun k r => bool_decide (k = pk) && c r) f d) =
  match rows d !! pk with
  | Some r => if c r then <[pk := f r]> (rows d) else rows d
  | None => rows d
  end.
Proof.
  unfold update_where. rewrite rows_set. apply map_eq. intros k. rewrite map_lookup_imap.
  destruct (decide (k = pk)) as [->|Hne].
  - destruct (rows d !! pk) as [r|] eqn:E; cbn; [|done]. rewrite bool_decide_eq_true_2 by done. cbn.
    destruct (c r); [by rewrite lookup_insert_eq|done].
  - assert ((match rows d !! pk with Some r => if c r then <[pk:=f r]> (rows d) else rows d | None => rows d end) !! k
            = rows d !! k) as ->.
    { destruct (rows d !! pk) as [r|]; [|done]. destruct (c r); [|done]. by rewrite lookup_insert_ne. }
    destruct (rows d !! k); cbn; [|done]. by rewrite bool_decide_eq_false_2.
Qed.

Lemma update_one_returning_pk {A : Type} (pk : K) (c : R -> bool) (f : R -> R) (ret : K -> R -> option A) d :
  update_one_returning (fun k r => bool_decide (k = pk) && c r) f ret d =
  match rows d !! pk with
  | Some r => if c r then (inr (ret pk (f r)), set_rows (<[pk := f r]> (rows d)) d) else (inr None, d)
  | None => (inr None, d)
  end.
Proof.
  unfold update_one_returning. rewrite select_where_pk.
  pose proof (update_where_pk pk c f d) as Hu.
  assert (update_where (fun k r => bool_decide (k = pk) && c r) f d =
          set_rows (rows (update_where (fun k r => bool_decide (k = pk) && c r) f d)) d) as ->.
  { unfold update_where. by rewrite rows_set. }
  rewrite Hu. destruct (rows d !! pk) as [r|]; [|by rewrite set_rows_id].
  destruct (c r); [done|by rewrite set_rows_id].
Qed.

(** The same without further conditions. *)
Lemma update_one_returning_id {A : Type} (pk : K) (f : R -> R) (ret : K -> R -> option A) d :
  update_one_returning (fun k _ => bool_decide (k = pk)) f ret d =
  match rows d !! pk with
  | Some r => (inr (ret pk (f r)), set_rows (<[pk := f r]> (rows d)) d)
  | None => (inr None, d)
  end.
Proof.
  pose proof (update_one_returning_pk pk (fun _ => true) f ret d) as <-.
  unfold update_one_returning, update_where, select_where.
  assert (forall p : K * R, bool_decide (p.1 = pk) = bool_decide (p.1 = pk) && true) as Hb
    by (intros; by rewrite andb_true_r).
  rewrite (filter_ext _ _ Hb).
  assert (map_imap (fun k r => Some (if bool_decide (k = pk) then f r else r)) (rows d) =
          map_imap (fun k r => Some (if bool_decide (k = pk) && true then f r else r)) (rows d)) as ->; [|done].
  apply map_eq. intros k. rewrite !map_lookup_imap. destruct (rows d !! k); cbn; by rewrite ?andb_true_r.
Qed.

(** Counting rows across a change of one row: [c] and [c'] may differ on the
    changed row only. *)
Lemma select_where_length (c : K -> R -> bool) d :
  length (select_where c d) = base.size (filter (fun p => c p.1 p.2 = true) (rows d)).
Proof.
  unfold select_where. rewrite <-length_map_to_list, map_filter_alt, map_to_list_to_map.
  - generalize (map_to_list (rows d)) as l. intros l. induction l as [|x l IH]; [done|].
    rewrite filter_cons. cbn [List.filter]. destruct (c x.1 x.2); destruct (decide _); try done. cbn. by rewrite IH.
  - eapply sublist_NoDup; [apply (NoDup_fst_map_to_list (rows d))|].
    apply fmap_sublist, sublist_filter.
Qed.

Lemma size_filter_insert (P P' : K * R -> Prop) `{!forall x, Decision (P x)} `{!forall x, Decision (P' x)}
    (m : gmap K R) k x :
  (forall j y, j <> k -> m !! j = Some y -> P (j, y) <-> P' (j, y)) ->
  (base.size (filter P' (<[k := x]> m)) + match m !! k with Some y => if decide (P (k, y)) then 1 else 0 | None => 0 end =
   base.size (filter P m) + if decide (P' (k, x)) then 1 else 0)%nat.
Proof.
  intros Hext.
  assert (filter P' (delete k m) = filter P (delete k m)) as Hd.
  { apply map_filter_ext. intros j y Hj. apply lookup_delete_Some in Hj as [Hne Hj]. symmetry. by apply Hext. }
  assert (forall (Q : K * R -> Prop) (HQ : forall x, Decision (Q x)) y, base.size (filter Q (<[k := y]> (delete k m))) =
            (base.size (filter Q (delete k m)) + if decide (Q (k, y)) then 1 else 0)%nat) as Hi.
  { intros Q HQ y. destruct (decide (Q (k, y))) as [Hq|Hq].
    - rewrite map_filter_insert_True by done. rewrite map_size_insert_None; [lia|].
      apply map_lookup_filter_None. left. apply lookup_delete_eq.
    - rewrite map_filter_insert_not' by (done || (intros ?; by rewrite lookup_delete_eq)). lia. }
  rewrite <-(insert_delete_eq m k x), Hi, Hd.
  destruct (m !! k) as [y|] eqn:E.
  - rewrite <-(insert_delete_id m k y E) at 2. rewrite Hi. lia.
  - rewrite (delete_id m k E). lia.
Qed.
End StatementLemmas.
