(* ===== verification/World.v ===== *)
(** * The process and its backing services

    What a request handler can touch: the database session, Redis, the object
    store, and the process-wide caches.  Services that use only the database
    are written on [db]; the others on [world]. *)

From S2P Require Import Prelude Common Redis Db.

(** ** The object store

    Objects with their bytes and content type.  Every call consumes a [s3tick]:
    the uploads clients made through presigned POSTs just before it (these can
    only write below [media/pending/]) and whether the request or its reply was
    lost.  An exhausted schedule is a quiet, healthy store. *)

Record s3obj := { o_data : list Z; o_type : ustr }.
Record s3tick := { s3_fault : fault; s3_uploads : list (ustr * s3obj) }.

Abbreviation bucket := (gmap ustr s3obj).

Definition PENDING_ROOT : ustr := lit "media/pending/".

Definition apply_uploads (ups : list (ustr * s3obj)) (b : bucket) : bucket :=
  foldr (fun u b => <[PENDING_ROOT ++ u.1 := u.2]> b) b ups.

Record world := {
  w_db : db;
  w_redis : redis;
  w_s3 : bucket;
  w_s3_sched : list s3tick;
  w_category_cache : option (Z * gset Z);   (** [_category_cache] of post_service *)
  w_clock : Z;                              (** [time.monotonic()] *)
}.
#[export] Instance world_eta : Eta world := fun w =>
  Build_world (w_db w) (w_redis w) (w_s3 w) (w_s3_sched w) (w_category_cache w) (w_clock w).

Definition empty_world : world :=
  {| w_db := empty_db; w_redis := empty_redis; w_s3 := ∅; w_s3_sched := [];
     w_category_cache := None; w_clock := 0 |}.

Definition on_db {A} (m : M db A) : M world A := fun w =>
  let '(r, d) := m (w_db w) in (r, w <| w_db := d |>).

Definition on_redis {A} (m : M redis A) : M world A := fun w =>
  let '(r, s) := m (w_redis w) in (r, w <| w_redis := s |>).

(** [async with db.begin()] around code that also touches other services: only
    the database is rolled back. *)
Definition tx {A} (m : M world A) : M world A := fun w =>
  match m w with
  | (inl e, w') => (inl e, w' <| w_db := w_db w |>)
  | (inr a, w') => (inr a, w')
  end.

(** One call to the object store. *)
Definition s3_call {A} (f : bucket -> (exn + A) * bucket) : M world A := fun w =>
  let '(t, ts) := match w_s3_sched w with
                  | [] => ({| s3_fault := NoFault; s3_uploads := [] |}, [])
                  | t :: ts => (t, ts)
                  end in
  let b := apply_uploads (s3_uploads t) (w_s3 w) in
  let w1 := w <| w_s3_sched := ts |> in
  match s3_fault t with
  | NoFault => let '(r, b') := f b in (r, w1 <| w_s3 := b' |>)
  | LostRequest => (inl StorageError, w1 <| w_s3 := b |>)
  | LostReply => let '(_, b') := f b in (inl StorageError, w1 <| w_s3 := b' |>)
  end.

(** ** What a call leaves unchanged *)

Lemma keeps_tx {A} (I : world -> Prop) (m : M world A) :
  (forall w e, I w -> (m w).1 = inl e -> I ((m w).2 <| w_db := w_db w |>)) ->
  keeps I m -> keeps I (tx m).
Proof.
  intros He Hm w Hw. unfold tx. specialize (Hm w Hw). specialize (He w).
  destruct (m w) as [[e|a] w'] eqn:E; [|done]. cbn in *. by eapply He.
Qed.

Lemma on_db_s3 {A} (m : M db A) w : w_s3 (on_db m w).2 = w_s3 w.
Proof. unfold on_db. by destruct (m (w_db w)). Qed.

Lemma on_redis_db {A} (m : M redis A) w :
  w_db (on_redis m w).2 = w_db w /\ w_s3 (on_redis m w).2 = w_s3 w.
Proof. unfold on_redis. by destruct (m (w_redis w)). Qed.

Lemma s3_call_db {A} (f : bucket -> (exn + A) * bucket) w : w_db (s3_call f w).2 = w_db w.
Proof.
  unfold s3_call. destruct (w_s3_sched w) as [|t ts]; cbn.
  - by destruct (f _).
  - destruct (s3_fault t); cbn; [|done|]; by destruct (f _).
Qed.

(** The bucket after a call: client uploads, then the operation or nothing. *)
Lemma s3_call_bucket {A} (f : bucket -> (exn + A) * bucket) w :
  exists ups, let b := apply_uploads ups (w_s3 w) in
    (w_s3 (s3_call f w).2 = b \/ w_s3 (s3_call f w).2 = (f b).2) /\
    (forall a, (s3_call f w).1 = inr a -> f b = (inr a, w_s3 (s3_call f w).2)).
Proof.
  unfold s3_call. destruct (w_s3_sched w) as [|t ts]; cbn.
  - exists []. cbn. destruct (f (w_s3 w)) as [r b']. cbn. split; [by right|]. by intros a ->.
  - exists (s3_uploads t). destruct (s3_fault t); cbn.
    + destruct (f _) as [r b']. cbn. split; [by right|]. by intros a ->.
    + split; [by left|done].
    + destruct (f _) as [r b']. cbn. split; [by right|done].
Qed.

Lemma apply_uploads_lookup ups b k :
  startswith PENDING_ROOT k = false -> apply_uploads ups b !! k = b !! k.
Proof.
  intros Hk. induction ups as [|[u o] ups IH]; [done|].
  change (apply_uploads ((u, o) :: ups) b) with (<[PENDING_ROOT ++ u := o]> (apply_uploads ups b)).
  rewrite lookup_insert_ne; [exact IH|]. intros <-.
  assert (forall p s, startswith p (p ++ s) = true) as Hs.
  { intros p s. induction p as [|c p IHp]; cbn; [done|]. by rewrite Z.eqb_refl, IHp. }
  by rewrite Hs in Hk.
Qed.

(** ** A reachable Redis

    Redis answers every command; the database and the other services are
    untouched by cache traffic. *)

Definition redis_up (w : world) : Prop := r_sched (w_redis w) = [].

(** The world [dt] seconds later, as far as Redis is concerned. *)
Definition later (dt : Z) (w : world) : world :=
  w <| w_redis := {| r_data := r_data (w_redis w); r_now := r_now (w_redis w) + dt;
                     r_loaded := r_loaded (w_redis w); r_sched := r_sched (w_redis w) |} |>.

Definition with_data (d : gmap ustr rentry) (w : world) : world :=
  w <| w_redis := {| r_data := d; r_now := r_now (w_redis w); r_loaded := r_loaded (w_redis w); r_sched := [] |} |>.

Lemma on_redis_quiet {A : Type} (c : cmd A) w : redis_up w ->
  on_redis (command c) w =
    ((c (r_now (w_redis w)) (r_data (w_redis w))).1, with_data (c (r_now (w_redis w)) (r_data (w_redis w))).2 w).
Proof.
  unfold redis_up. intros Hq. unfold on_redis, command, next_tick. rewrite Hq. cbn. rewrite Z.add_0_r.
  by destruct (c _ _).
Qed.

Lemma with_data_same w : redis_up w -> with_data (r_data (w_redis w)) w = w.
Proof. intros Hq. destruct w as [? [] ? ? ? ?]. unfold redis_up in Hq. cbn in Hq. by subst. Qed.

(** The text a cache read gives: other value types count as a miss. *)
Definition cached_text (k : ustr) (w : world) : option ustr :=
  match live (r_now (w_redis w)) (r_data (w_redis w)) k with Some (RStr s) => Some s | _ => None end.

Lemma cache_get_quiet k w : redis_up w ->
  try_except (on_redis (redis_get k)) (fun _ => mret None) w = (inr (cached_text k w), w).
Proof.
  intros Hq. unfold try_except, redis_get. rewrite on_redis_quiet by done. unfold c_get, cached_text.
  destruct (live _ _ k) as [[]|]; cbn [fst snd]; by rewrite with_data_same.
Qed.

(** ** Computations that do not look at Redis *)

Definition redis_blind {A : Type} (m : M world A) : Prop := forall w r,
  m (w <| w_redis := r |>) = ((m w).1, (m w).2 <| w_redis := r |>).

Lemma blind_ret {A : Type} (a : A) : redis_blind (mret a).
Proof. by intros w r. Qed.
Lemma blind_raise {A : Type} e : redis_blind (raise (A := A) e).
Proof. by intros w r. Qed.
Lemma blind_bind {A B : Type} (m : M world A) (k : A -> M world B) :
  redis_blind m -> (forall a, redis_blind (k a)) -> redis_blind (m ≫= k).
Proof.
  intros Hm Hk w r. unfold mbind, M_bind. rewrite Hm. destruct (m w) as [[e|a] w']; cbn [fst snd]; [done|]. apply Hk.
Qed.
Lemma blind_on_db {A : Type} (m : M db A) : redis_blind (on_db m).
Proof. intros w r. unfold on_db. cbn [w_db over]. by destruct (m (w_db w)). Qed.
Lemma blind_tx {A : Type} (m : M world A) : redis_blind m -> redis_blind (tx m).
Proof. intros Hm w r. unfold tx. rewrite Hm. by destruct (m w) as [[e|a] w']. Qed.
Create HintDb blind.
#[export] Hint Resolve blind_ret blind_raise blind_bind blind_on_db blind_tx : blind.

(** ** Running against a reachable Redis *)

Definition redis_at (v : world) (d : gmap ustr rentry) (now : Z) (l : list script) : world :=
  v <| w_redis := {| r_data := d; r_now := now; r_loaded := l; r_sched := [] |} |>.

Lemma on_redis_at {A : Type} (c : cmd A) v d now l :
  on_redis (command c) (redis_at v d now l) = ((c now d).1, redis_at v (c now d).2 now l).
Proof. unfold on_redis, command, redis_at. cbn. rewrite Z.add_0_r. by destruct (c now d). Qed.

Lemma on_redis_bind {A B : Type} (m : M redis A) (k : A -> M redis B) w :
  on_redis (m ≫= k) w = (on_redis m ≫= fun a => on_redis (k a)) w.
Proof. unfold on_redis, mbind, M_bind. by destruct (m (w_redis w)) as [[e|a] r]. Qed.

(** A lock taken, or found held. *)
Lemma acquire_at lock token ttl v d now l : live now d lock = None -> 0 < ttl ->
  on_redis (try_acquire_lock lock ttl token) (redis_at v d now l) =
  (inr (Some token), redis_at v (<[lock := {| r_val := RStr token; r_exp := Some (now + ttl) |}]> d) now l).
Proof.
  intros Hd Ht. unfold try_acquire_lock. rewrite on_redis_bind. unfold mbind, M_bind, redis_set. rewrite on_redis_at.
  unfold c_set. rewrite Hd. destruct (Z.leb_spec ttl 0); [lia|]. done.
Qed.
Lemma acquire_held lock token ttl v d now l : is_Some (live now d lock) -> 0 < ttl ->
  on_redis (try_acquire_lock lock ttl token) (redis_at v d now l) = (inr None, redis_at v d now l).
Proof.
  intros Hd Ht. unfold try_acquire_lock. rewrite on_redis_bind. unfold mbind, M_bind, redis_set. rewrite on_redis_at.
  unfold c_set. rewrite bool_decide_eq_true_2 by done. destruct (Z.leb_spec ttl 0); [lia|]. done.
Qed.

Lemma release_with key token t v d now l : d !! key = Some {| r_val := RStr token; r_exp := Some t |} -> now < t ->
  exists l', on_redis (release_lock key token) (redis_at v d now l) = (inr tt, redis_at v (delete key d) now l').
Proof.
  intros Hd Ht. unfold on_redis, redis_at. cbn [w_redis over].
  set (r := {| r_data := d; r_now := now; r_loaded := l; r_sched := [] |}).
  pose proof (release_lock_total key token r) as H1. unfold release_lock, try_except in *. unfold mbind, M_bind in *.
  destruct (eval_script_cached_healthy RELEASE_LOCK (lua_release_lock key token) r eq_refl) as (E1 & E2 & E3 & E4).
  assert (lua_release_lock key token now d = (inr 1, delete key d)) as El.
  { unfold lua_release_lock, live. rewrite Hd. unfold expired. cbn [r_exp r_val]. rewrite (proj2 (Z.leb_gt _ _) Ht).
    by rewrite decide_True. }
  cbn [r r_now r_data] in E1, E2. rewrite El in E1, E2.
  destruct (eval_script_cached _ _ r) as [[e|x] r'] eqn:E; cbn [fst snd] in *; [done|].
  exists (r_loaded r'). destruct r' as [d' n' l' s']. cbn in *. by subst.
Qed.

Lemma blind_with {A : Type} (m : M world A) v d now l : redis_blind m ->
  m (redis_at v d now l) = ((m v).1, redis_at (m v).2 d now l).
Proof. intros Hm. apply Hm. Qed.

(** Hooks that change nothing but Redis. *)
Definition only_redis (w w' : world) : Prop := exists r, w' = w <| w_redis := r |>.

Lemma only_redis_refl w : only_redis w w.
Proof. exists (w_redis w). by destruct w. Qed.
Lemma only_redis_trans w1 w2 w3 : only_redis w1 w2 -> only_redis w2 w3 -> only_redis w1 w3.
Proof. intros [r ->] [r' ->]. by exists r'. Qed.
Lemma on_redis_only {A : Type} (m : M redis A) w : only_redis w (on_redis m w).2.
Proof. unfold on_redis. destruct (m (w_redis w)) as [x r]. by exists r. Qed.
