(* ===== verification/Media.v ===== *)
(** * Media ([app/infra/storage.py], [app/domain/media])

    Upload confirmation as reserve, promote, confirm; soft deletion with its
    detachments; and the sweepers.  The theorems are about the agreement of the
    images table with the object store under any storage faults and any
    interleaving with client uploads and other requests. *)

From S2P Require Import Prelude Ids Common Redis Db World.

(** ** Keys ([infra/storage.py]) *)

Definition is_slash (c : Z) : bool := c =? 47.
Definition MEDIA_PREFIX : ustr := lit "media/".
Definition PENDING_KEY_PREFIX : ustr := lit "pending/".
Definition PRESIGNED_MAX_BYTES : Z := 10 * 1024 * 1024.

(** The [while k.startswith("media/")] loop: every turn drops six characters. *)
Fixpoint drop_media (fuel : nat) (k : ustr) : ustr :=
  match fuel with
  | O => k
  | S f => if startswith MEDIA_PREFIX k then drop_media f (lstrip_by is_slash (drop 6 k)) else k
  end.

Definition strip_redundant_media_prefixes (key : ustr) : ustr :=
  let k := lstrip_by is_slash (strip key) in drop_media (length k) k.

(** [None] is the ValueError of an empty key. *)
Definition s3_object_key (key : ustr) : option ustr :=
  match strip_redundant_media_prefixes key with
  | [] => None
  | body => Some (MEDIA_PREFIX ++ body)
  end.

Record storage_settings := {
  S3_PUBLIC_BASE_URL : ustr; S3_BUCKET_NAME : ustr; AWS_REGION : ustr;
  ALLOWED_IMAGE_TYPES : list ustr;
}.

(** [None] is the ValueError of an empty key. *)
Definition build_url (cfg : storage_settings) (key : ustr) : option ustr :=
  match S3_PUBLIC_BASE_URL cfg with
  | [] =>
      k ← s3_object_key key;
      Some (lit "https://" ++ S3_BUCKET_NAME cfg ++ lit ".s3." ++ AWS_REGION cfg ++ lit ".amazonaws.com/" ++ k)
  | base => Some (rstrip_by is_slash base ++ lit "/" ++ strip_redundant_media_prefixes key)
  end.

(** [_PENDING_KEY_RE]: one character class per position, then [\w.-]+ *)
Definition is_hex (c : Z) : bool := between 48 57 c || between 97 102 c.
Definition PENDING_KEY_HEAD : list (Z -> bool) :=
  map Z.eqb (lit "pending/") ++ replicate 8 is_hex ++ [Z.eqb 45] ++ replicate 4 is_hex ++ [Z.eqb 45; Z.eqb 55] ++
  replicate 3 is_hex ++ [Z.eqb 45; (fun c => (c =? 56) || (c =? 57) || (c =? 97) || (c =? 98))] ++
  replicate 3 is_hex ++ [Z.eqb 45] ++ replicate 12 is_hex ++ [Z.eqb 47].

Fixpoint match_head (cls : list (Z -> bool)) (s : ustr) : option ustr :=
  match cls, s with
  | [], _ => Some s
  | p :: cls', c :: s' => if p c then match_head cls' s' else None
  | _ :: _, [] => None
  end.

Section Text.
Context `{UnicodeDB}.

Definition is_word (c : Z) : bool :=
  if c <? 128 then between 48 57 c || between 65 90 c || between 97 122 c || (c =? 95) else u_word c.

Definition is_valid_pending_file_key (file_key : ustr) : bool :=
  match match_head PENDING_KEY_HEAD (lstrip_by is_slash (strip file_key)) with
  | Some (_ :: _ as rest) => forallb (fun c => is_word c || (c =? 46) || (c =? 45)) rest
  | _ => false
  end.

(** ** Policy ([media/image_policy.py]) *)

Definition CONTENT_TYPE_EXT (ct : ustr) : option ustr :=
  if decide (ct = lit "image/jpeg") then Some (lit "jpg")
  else if decide (ct = lit "image/png") then Some (lit "png")
  else if decide (ct = lit "image/webp") then Some (lit "webp")
  else None.

Fixpoint until (stop : Z) (s : ustr) : ustr :=
  match s with
  | [] => []
  | c :: s' => if c =? stop then [] else c :: until stop s'
  end.

(** The validated content type with its extension. *)
Definition validate_image_content_type (cfg : storage_settings) (ct : ustr) : option (ustr * ustr) :=
  let ct := lower (strip (until 59 ct)) in
  if bool_decide (ct ∈ ALLOWED_IMAGE_TYPES cfg)
  then ext ← CONTENT_TYPE_EXT ct; Some (ct, ext)
  else None.

(** [os.path.basename]: what follows the last slash. *)
Fixpoint after_last (stop : Z) (acc s : ustr) : ustr :=
  match s with
  | [] => reverse acc
  | c :: s' => if c =? stop then after_last stop [] s' else after_last stop (c :: acc) s'
  end.
Definition basename (s : ustr) : ustr := after_last 47 [] s.

(** [s.rsplit(".", 1)[0]] *)
Definition before_last_dot (s : ustr) : ustr :=
  match drop_while (fun c => negb (c =? 46)) (reverse s) with
  | _ :: r => reverse r
  | [] => s
  end.

Definition sanitize_presign_filename (cfg : storage_settings) (filename ct : ustr) : exn + ustr :=
  match validate_image_content_type cfg ct with
  | None => inl InvalidFileTypeException
  | Some (_, ext) =>
      let base := basename (strip filename) in
      if bool_decide (base = [] \/ base = lit "." \/ base = lit "..") then inl InvalidImageFileException
      else
        let stem := take 100 (map (fun c => if is_word c || (c =? 46) || (c =? 45) then c else 95)
                                (before_last_dot base)) in
        inr ((match stem with [] => lit "upload" | _ => stem end) ++ lit "." ++ ext)
  end.

Definition build_pending_file_key (upload_id : Z) (filename : ustr) : ustr :=
  PENDING_KEY_PREFIX ++ uuid_str upload_id ++ lit "/" ++ filename.

Definition build_permanent_file_key (cfg : storage_settings) (purpose ct ulid : ustr) : option ustr :=
  '(_, ext) ← validate_image_content_type cfg ct;
  Some (purpose ++ lit "/" ++ ulid ++ lit "." ++ ext).

(** The pending key a client is given; its presigned form is the store's. *)
Definition issue_presigned_upload (cfg : storage_settings) (upload_id : Z) (filename ct : ustr) : exn + ustr :=
  match validate_image_content_type cfg ct with
  | None => inl InvalidFileTypeException
  | Some (ct', _) =>
      match sanitize_presign_filename cfg filename ct' with
      | inl e => inl e
      | inr name => inr (build_pending_file_key upload_id name)
      end
  end.
End Text.

(** ** Object store calls *)

Section Storage.
Context `{UnicodeDB} (etag_of : list Z -> ustr).

Definition with_key {A} (key : ustr) (f : ustr -> M world A) : M world A :=
  match s3_object_key key with Some k => f k | None => raise PyValueError end.

Definition storage_delete (key : ustr) : M world unit :=
  with_key key (fun k => s3_call (fun b => (inr tt, delete k b))).

(** A 404 becomes ValueError, any other failure stays an error of the store. *)
Definition head_pending_object (key : ustr) : M world s3obj :=
  if is_valid_pending_file_key key
  then with_key key (fun k => s3_call (fun b =>
         match b !! k with Some o => (inr o, b) | None => (inl PyValueError, b) end))
  else raise PyValueError.

(** copy with [CopySourceIfMatch], then delete of the pending object. *)
Definition promote_pending_object (pending_key dest_key etag : ustr) : M world unit :=
  with_key dest_key (fun dst => with_key pending_key (fun src =>
    s3_call (fun b =>
      match b !! src with
      | Some o => if decide (etag_of (o_data o) = etag) then (inr tt, <[dst := o]> b) else (inl PyValueError, b)
      | None => (inl PyValueError, b)
      end) ;;
    s3_call (fun b => (inr tt, delete src b)))).
End Storage.

(** ** [MediaRepository] *)

Definition create_reserved_image (new_id now : Z) (key url : ustr) (ct : option ustr) (sz uploader : option Z)
  : M db Z :=
  insert_row new_id
    {| file_key := key; file_url := url; content_type := ct; size := sz; uploader_id := uploader;
       img_created_at := now; img_deleted_at := Some now |}
    (fun d => match uploader with Some u => bool_decide (is_Some (users d !! u)) | None => true end) ;;
  mret new_id.

Definition lock_reserved_image (image_id : Z) : M db (option Image) :=
  gets (fun d => img ← images d !! image_id; if img_deleted_at img then Some img else None).

Definition confirm_reserved_image (image_id : Z) (sz : option Z) (ct : option ustr) : M db (option Image) :=
  update_one_returning (fun k r => bool_decide (k = image_id) && bool_decide (is_Some (img_deleted_at r)))
    (fun r => r <| img_deleted_at := None |> <| size := sz |> <| content_type := ct |>)
    (fun _ r => Some r).

(** Every wanted image exists and is not soft-deleted. *)
Definition assert_images_attachable (image_ids : list Z) : M db unit :=
  match image_ids with
  | [] => mret tt
  | _ =>
      d ← get;
      let ok i := match images d !! i with Some img => negb (bool_decide (is_Some (img_deleted_at img))) | None => false end in
      if forallb ok image_ids then mret tt else raise InvalidRequestException
  end.

Definition claim_image_ownership (image_id user : Z) : M db bool :=
  r ← update_one_returning
        (fun k r => bool_decide (k = image_id) && (bool_decide (uploader_id r = None) && bool_decide (img_deleted_at r = None)))
        (fun r => r <| uploader_id := Some user |>) (fun k _ => Some k);
  mret (bool_decide (is_Some r)).

(** Foreign keys on images: profile images are SET NULL, post images CASCADE. *)
Definition refers (ids : list Z) (o : option Z) : bool :=
  match o with Some i => bool_decide (i ∈ ids) | None => false end.

Definition detach_images (ids : list Z) (d : db) : db :=
  let d := update_where (fun _ u => refers ids (user_profile_image_id u))
             (fun u : User => u <| user_profile_image_id := None |>) d in
  let d := update_where (fun _ g => refers ids (dog_profile_image_id g))
             (fun g : DogProfile => g <| dog_profile_image_id := None |>) d in
  d <| post_images := filter (fun p => pi_image_id p.2 ∉ ids) (post_images d) |>.

Definition delete_images_by_ids (ids : list Z) : M db Z :=
  match ids with
  | [] => mret 0
  | _ =>
      n ← delete_rows (fun (k : Z) (_ : Image) => bool_decide (k ∈ ids));
      modify (detach_images ids) ;;
      mret n
  end.

(** [_unreferenced]: no profile and no post points at the image. *)
Definition referenced (d : db) (image_id : Z) : bool :=
  existsb (fun p => bool_decide (user_profile_image_id p.2 = Some image_id)) (map_to_list (users d)) ||
  existsb (fun p => bool_decide (dog_profile_image_id p.2 = Some image_id)) (map_to_list (dogs d)) ||
  existsb (fun p => bool_decide (pi_image_id p.2 = image_id)) (map_to_list (post_images d)).

(** [_cleanup_page]: id ascending, after the cursor, at most [limit]. *)
Definition cleanup_page (pred : Z -> Image -> bool) (after_id : option Z) (limit : Z) (d : db) : list (Z * Image) :=
  take (Z.to_nat limit)
    (order_by fst Z.ltb
       (select_where (fun k r => pred k r && match after_id with Some a => a <? k | None => true end) d)).

Definition HOUR : Z := 3600.

Definition get_expired_signup_images (now ttl : Z) (d : db) : Z -> Image -> bool := fun _ r =>
  bool_decide (uploader_id r = None) && bool_decide (img_deleted_at r = None) && (img_created_at r <? now - ttl).

Definition get_abandoned_images (now older_than_hours : Z) (d : db) : Z -> Image -> bool := fun k r =>
  (img_created_at r <? now - older_than_hours * HOUR) && bool_decide (img_deleted_at r = None) && negb (referenced d k).

Definition get_reclaimable_images (now grace_seconds : Z) (d : db) : Z -> Image -> bool := fun k r =>
  match img_deleted_at r with Some t => t <? now - grace_seconds | None => false end && negb (referenced d k).

Definition soft_delete_image_if_owned (now image_id user : Z) : M db bool :=
  r ← update_one_returning
        (fun k r => bool_decide (k = image_id) &&
                    (bool_decide (uploader_id r = Some user) && bool_decide (img_deleted_at r = None)))
        (fun r => r <| img_deleted_at := Some now |>) (fun k _ => Some k);
  match r with
  | None => mret false
  | Some _ => modify (detach_images [image_id]) ;; mret true
  end.

(** ** [MediaService] *)

Section Service.
Context `{UnicodeDB} (etag_of : list Z -> ustr) (cfg : storage_settings).

Record reserved := {
  rs_image_id : Z; rs_key : ustr; rs_dest_key : ustr; rs_etag : ustr; rs_size : Z; rs_type : ustr;
}.

(** First half of [_reserved_upload]: validation against the pending object and
    the committed reservation row.  [new_id], [ulid] are the drawn identifiers. *)
Definition reserve_upload (now new_id : Z) (ulid : ustr) (fkey purpose : ustr) (expected_size uploader : option Z)
  : M world reserved :=
  let key := lstrip_by is_slash (strip fkey) in
  if is_valid_pending_file_key key then
    meta ← try_except (head_pending_object key)
             (fun e => if decide (e = PyValueError) then raise InvalidImageFileException else raise e);
    let sz := py_len (o_data meta) in
    if (sz <? 1) || (PRESIGNED_MAX_BYTES <? sz) then raise InvalidImageFileException
    else if match expected_size with Some n => negb (n =? sz) | None => false end then raise InvalidImageFileException
    else
      match validate_image_content_type cfg (o_type meta) with
      | None => raise InvalidFileTypeException
      | Some (ct, _) =>
          match etag_of (o_data meta) with
          | [] => raise InvalidImageFileException
          | etag =>
              match build_permanent_file_key cfg purpose ct ulid with
              | None => raise InvalidFileTypeException
              | Some dest_key =>
                  match build_url cfg dest_key with
                  | None => raise PyValueError
                  | Some url =>
                      image_id ← on_db (begin_tx (create_reserved_image new_id now dest_key url (Some ct) (Some sz) uploader));
                      mret {| rs_image_id := image_id; rs_key := key; rs_dest_key := dest_key; rs_etag := etag;
                              rs_size := sz; rs_type := ct |}
                  end
              end
          end
      end
  else raise InvalidRequestException.

(** Second half: one transaction from the row lock to the confirmation, with
    the caller's block [body] before the confirmation. *)
Definition finish_upload {A} (r : reserved) (body : Z -> M world A) : M world (A * Image) :=
  tx (locked ← on_db (lock_reserved_image (rs_image_id r));
      match locked with
      | None => raise InternalServerErrorException
      | Some _ =>
          try_except (promote_pending_object etag_of (rs_key r) (rs_dest_key r) (rs_etag r))
            (fun e => if decide (e = PyValueError) then raise InvalidImageFileException else raise e) ;;
          a ← body (rs_image_id r);
          confirmed ← on_db (confirm_reserved_image (rs_image_id r) (Some (rs_size r)) (Some (rs_type r)));
          match confirmed with
          | None => raise InternalServerErrorException
          | Some img => mret (a, img)
          end
      end).

Definition confirm_presigned_upload (now new_id : Z) (ulid fkey purpose : ustr) (sz : option Z) (user : Z)
  : M world (Z * Image) :=
  r ← reserve_upload now new_id ulid fkey purpose sz (Some user);
  '(_, img) ← finish_upload r (fun _ => mret tt);
  mret (rs_image_id r, img).

Definition UPLOAD_TOKEN_KEY_PREFIX : ustr := lit "upload_token:".

(** [token] is what [secrets.token_urlsafe] returned. *)
Definition issue_upload_token (present : bool) (ttl : Z) (token : ustr) (image_id : Z) : M world ustr :=
  if present then
    on_redis (redis_set (UPLOAD_TOKEN_KEY_PREFIX ++ token) (uuid_str image_id) false (Some ttl)) ;;
    mret token
  else raise InternalServerErrorException.

Definition confirm_presigned_signup_upload (present : bool) (ttl : Z) (token : ustr) (now new_id : Z)
    (ulid fkey : ustr) (sz : option Z) : M world (Z * Image * ustr) :=
  r ← reserve_upload now new_id ulid fkey (lit "signup") sz None;
  '(tok, img) ← finish_upload r (issue_upload_token present ttl token);
  mret (rs_image_id r, img, tok).

Definition verify_upload_token (present : bool) (token : ustr) : M world (option Z) :=
  match token, present with
  | [], _ | _, false => mret None
  | _, true =>
      try_except
        (v ← on_redis (redis_get (UPLOAD_TOKEN_KEY_PREFIX ++ token));
         match v with
         | None => mret None
         | Some image_id =>
             on_redis (redis_delete [UPLOAD_TOKEN_KEY_PREFIX ++ token]) ;;
             match image_id with
             | [] => mret None
             | _ => mret (match parse_public_id_value (VStr image_id) with inr i => Some i | inl _ => None end)
             end
         end)
        (fun _ => mret None)
  end.

Definition delete_image (now image_id user : Z) : M world unit :=
  on_db (begin_tx (ok ← soft_delete_image_if_owned now image_id user;
                   if ok : bool then mret tt else raise ImageNotFoundException)).

(** The deletable ones among [rows], with the failures reported. *)
Fixpoint delete_objects (rows : list (Z * Image)) : M world (list Z * list ustr) :=
  match rows with
  | [] => mret ([], [])
  | (i, img) :: rows' =>
      ok ← try_except (storage_delete (file_key img) ;; mret true) (fun _ => mret false);
      '(ids, failed) ← delete_objects rows';
      mret (if ok : bool then (i :: ids, failed) else (ids, file_key img :: failed))
  end.

(** One batch of [_keyset_cleanup], a transaction: rows of the page, number
    deleted, failed keys. *)
Definition cleanup_batch (pred : db -> Z -> Image -> bool) (batch_size : Z) (last_id : option Z)
  : M world (list (Z * Image) * Z * list ustr) :=
  tx (d ← gets w_db;
      let rows := cleanup_page (pred d) last_id batch_size d in
      match rows with
      | [] => mret ([], 0, [])
      | _ =>
          '(ids, failed) ← delete_objects rows;
          n ← on_db (delete_images_by_ids ids);
          mret (rows, n, failed)
      end).

(** The loop; [None] is fuel exhaustion, which [cleanup_terminates] excludes. *)
Fixpoint keyset_cleanup (fuel : nat) (pred : db -> Z -> Image -> bool) (batch_size : Z)
    (last_id : option Z) (total : Z) (failed : list ustr) : M world (option (Z * list ustr)) :=
  match fuel with
  | O => mret None
  | S f =>
      '(rows, n, fl) ← cleanup_batch pred batch_size last_id;
      let failed := failed ++ fl in
      match last rows with
      | None => mret (Some (total, failed))
      | Some (i, _) =>
          if py_len rows <? batch_size then mret (Some (total + n, failed))
          else keyset_cleanup f pred batch_size (Some i) (total + n) failed
      end
  end.

Definition cleanup (pred : db -> Z -> Image -> bool) (batch_size : Z) : M world (option (Z * list ustr)) :=
  w ← get;
  keyset_cleanup (S (base.size (images (w_db w)))) pred batch_size None 0 [].

Definition sweep_unused_images (now grace batch_size : Z) : M world (option Z) :=
  a ← cleanup (get_abandoned_images now 24) batch_size;
  b ← cleanup (get_reclaimable_images now grace) batch_size;
  mret (match a, b with Some (n, _), Some (m, _) => Some (n + m) | _, _ => None end).

Definition cleanup_expired_signup_images (now ttl batch_size : Z) : M world (option (Z * list ustr)) :=
  cleanup (get_expired_signup_images now ttl) batch_size.

(** The request-triggered sweep: same lock key as the periodic job, failures
    logged only. *)
Definition JOB_LOCK_SWEEP_UNUSED : ustr := lit "lock:media-sweep".
Definition sweep_unused_images_detached (present : bool) (token : ustr) (now grace batch_size : Z) : M world unit :=
  '(acquired, lock_value) ← on_redis (try_acquire_job_lock present JOB_LOCK_SWEEP_UNUSED 600 token);
  if acquired : bool then
    try_finally
      (try_except (sweep_unused_images now grace batch_size ;; mret tt) (fun _ => mret tt))
      (match lock_value with
       | Some v => if present then on_redis (release_lock JOB_LOCK_SWEEP_UNUSED v) else mret tt
       | None => mret tt
       end)
  else mret tt.
End Service.

(** ** No object without a row: lemmas *)

Definition permanent (k : ustr) : Prop := startswith PENDING_ROOT k = false.

(** Every object outside the pending area is named by an images row. *)
Definition covers (d : db) (b : bucket) : Prop :=
  forall k o, b !! k = Some o -> permanent k ->
    exists i img, images d !! i = Some img /\ s3_object_key (file_key img) = Some k.

Definition covered (w : world) : Prop := covers (w_db w) (w_s3 w).

(** The permanent part of [b'] lies within that of [b]. *)
Definition shrinks (b b' : bucket) : Prop :=
  forall k, permanent k -> b !! k = None -> b' !! k = None.

Lemma shrinks_refl b : shrinks b b.
Proof. by intros k. Qed.
Lemma shrinks_trans b1 b2 b3 : shrinks b1 b2 -> shrinks b2 b3 -> shrinks b1 b3.
Proof. unfold shrinks. eauto. Qed.
Lemma shrinks_uploads ups b : shrinks b (apply_uploads ups b).
Proof. intros k Hk Hb. by rewrite apply_uploads_lookup. Qed.
Lemma shrinks_delete x b : shrinks b (delete x b).
Proof. intros k Hk Hb. apply lookup_delete_None. by right. Qed.

Lemma covers_shrinks d b b' : covers d b -> shrinks b b' -> covers d b'.
Proof.
  intros Hc Hs k o Hk Hp. destruct (b !! k) as [o'|] eqn:E; [by eapply Hc|].
  by rewrite (Hs k Hp E) in Hk.
Qed.

Lemma covers_images d d' b :
  (forall i img, images d !! i = Some img -> exists img', images d' !! i = Some img' /\ file_key img' = file_key img) ->
  covers d b -> covers d' b.
Proof.
  intros Hd Hc k o Hk Hp. destruct (Hc k o Hk Hp) as (i & img & Hi & E).
  destruct (Hd i img Hi) as (img' & Hi' & Ef). exists i, img'. by rewrite Ef.
Qed.

Lemma storage_delete_spec key w :
  let w' := (storage_delete key w).2 in
  w_db w' = w_db w /\ shrinks (w_s3 w) (w_s3 w') /\
  ((storage_delete key w).1 = inr tt -> forall k, s3_object_key key = Some k -> w_s3 w' !! k = None).
Proof.
  unfold storage_delete, with_key. destruct (s3_object_key key) as [k|]; [|by split_and!; [|apply shrinks_refl|]].
  pose proof (s3_call_db (fun b : bucket => (inr tt : exn + unit, delete k b)) w) as Hdb.
  destruct (s3_call_bucket (fun b : bucket => (inr tt : exn + unit, delete k b)) w) as (ups & Hb & Ha).
  split; [exact Hdb|]. split.
  - destruct Hb as [-> | ->]; [apply shrinks_uploads|].
    eapply shrinks_trans; [apply shrinks_uploads|apply shrinks_delete].
  - intros E k' [= <-]. specialize (Ha tt E). injection Ha as <-. apply lookup_delete_eq.
Qed.

Lemma delete_objects_spec rws w :
  exists ids failed w', delete_objects rws w = (inr (ids, failed), w') /\
    w_db w' = w_db w /\ shrinks (w_s3 w) (w_s3 w') /\ ids ⊆ rws.*1 /\
    (forall i, i ∈ ids -> exists img, (i, img) ∈ rws /\
       forall k, s3_object_key (file_key img) = Some k -> permanent k -> w_s3 w' !! k = None).
Proof.
  revert w. induction rws as [|[i img] rws IH]; intros w; cbn [delete_objects].
  { exists [], [], w. split_and!; [done|done|apply shrinks_refl|done|]. by intros i Hi%not_elem_of_nil. }
  pose proof (storage_delete_spec (file_key img) w) as (Hdb & Hsh & Hgone).
  unfold try_except, mbind, M_bind.
  destruct (storage_delete (file_key img) w) as [[e|[]] w1] eqn:E; cbn [fst snd mret M_ret] in *;
    destruct (IH w1) as (ids & failed & w' & -> & Hdb' & Hsh' & Hsub & Hall).
  - exists ids, (file_key img :: failed), w'. split; [done|]. split; [congruence|].
    split; [by eapply shrinks_trans|]. split; [cbn; set_solver|].
    intros j Hj. destruct (Hall j Hj) as (img' & Hin & Hk). exists img'. split; [by apply elem_of_cons; right|done].
  - exists (i :: ids), failed, w'. split; [done|]. split; [congruence|].
    split; [by eapply shrinks_trans|]. split; [cbn; set_solver|].
    intros j Hj. apply elem_of_cons in Hj as [->|Hj].
    + exists img. split; [apply elem_of_cons; by left|]. intros k Hk Hp. apply Hsh'; [done|]. by apply Hgone.
    + destruct (Hall j Hj) as (img' & Hin & Hk). exists img'. split; [by apply elem_of_cons; right|done].
Qed.

Lemma detach_images_keeps ids d : images (detach_images ids d) = images d.
Proof. done. Qed.

(** ** References *)

Lemma existsb_map_to_list `{Countable K} {V} (f : V -> bool) (m : gmap K V) :
  existsb (fun p => f p.2) (map_to_list m) = true <-> exists k v, m !! k = Some v /\ f v = true.
Proof.
  rewrite existsb_exists. split.
  - intros ([k v] & Hin & Hf). apply list_elem_of_In, elem_of_map_to_list in Hin. eauto.
  - intros (k & v & Hk & Hf). exists (k, v). split; [|done]. by apply list_elem_of_In, elem_of_map_to_list.
Qed.

Lemma referenced_true d i : referenced d i = true <->
  (exists k u, users d !! k = Some u /\ user_profile_image_id u = Some i) \/
  (exists k g, dogs d !! k = Some g /\ dog_profile_image_id g = Some i) \/
  (exists k p, post_images d !! k = Some p /\ pi_image_id p = i).
Proof.
  pose proof (existsb_map_to_list (fun u => bool_decide (user_profile_image_id u = Some i)) (users d)) as H1.
  pose proof (existsb_map_to_list (fun g => bool_decide (dog_profile_image_id g = Some i)) (dogs d)) as H2.
  pose proof (existsb_map_to_list (fun p => bool_decide (pi_image_id p = i)) (post_images d)) as H3.
  setoid_rewrite bool_decide_eq_true in H1. setoid_rewrite bool_decide_eq_true in H2.
  setoid_rewrite bool_decide_eq_true in H3.
  unfold referenced. rewrite !orb_true_iff. cbn beta in *. rewrite H1, H2, H3. tauto.
Qed.

(** What detaching leaves: exactly the references to other images. *)
Lemma detach_images_referenced ids d i :
  referenced (detach_images ids d) i = true <-> referenced d i = true /\ i ∉ ids.
Proof.
  rewrite !referenced_true. unfold detach_images, update_where. cbn [rows set_rows users_table dogs_table users dogs post_images over].
  setoid_rewrite map_lookup_imap. setoid_rewrite map_lookup_filter_Some. cbn [snd].
  assert (forall o, o = Some i -> refers ids o = bool_decide (i ∈ ids)) as Hr by (by intros ? ->).
  split.
  - intros [(k & u & E & Hu)|[(k & g & E & Hg)|(k & p & [E Hp] & Hi)]].
    + destruct (users d !! k) as [u0|] eqn:Eu; [|done]. cbn in E. injection E as <-.
      destruct (refers ids (user_profile_image_id u0)) eqn:Er; [done|].
      rewrite (Hr _ Hu), bool_decide_eq_false in Er. split; [left; eauto|done].
    + destruct (dogs d !! k) as [g0|] eqn:Eg; [|done]. cbn in E. injection E as <-.
      destruct (refers ids (dog_profile_image_id g0)) eqn:Er; [done|].
      rewrite (Hr _ Hg), bool_decide_eq_false in Er. split; [right; left; eauto|done].
    + subst. split; [right; right; eauto|done].
  - intros [[(k & u & E & Hu)|[(k & g & E & Hg)|(k & p & E & Hi)]] Hn].
    + left. exists k, u. rewrite E. cbn. by rewrite (Hr _ Hu), bool_decide_eq_false_2.
    + right; left. exists k, g. rewrite E. cbn. by rewrite (Hr _ Hg), bool_decide_eq_false_2.
    + right; right. exists k, p. by subst.
Qed.

(** ** Cleanup *)

Lemma delete_images_by_ids_spec ids d :
  exists n d', delete_images_by_ids ids d = (inr n, d') /\
    (forall i img, images d' !! i = Some img <-> images d !! i = Some img /\ i ∉ ids) /\
    (forall i, referenced d' i = true <-> referenced d i = true /\ i ∉ ids).
Proof.
  unfold delete_images_by_ids. destruct ids as [|i ids].
  { eexists _, d. split; [done|]. split; intros; split; try (by intros []); intros; (split; [done|apply not_elem_of_nil]). }
  unfold delete_rows, modify, mbind, M_bind. eexists _, _. split; [done|].
  split; [|intros j; rewrite detach_images_referenced; reflexivity].
  intros j img. rewrite detach_images_keeps. cbn [rows set_rows images_table images over].
  rewrite map_lookup_filter_Some. cbn [fst snd]. rewrite bool_decide_eq_false. done.
Qed.

Lemma cleanup_page_elem pred after limit d i img :
  (i, img) ∈ cleanup_page pred after limit d ->
  images d !! i = Some img /\ pred i img = true /\ match after with Some a => a < i | None => True end.
Proof.
  unfold cleanup_page. intros Hin. apply elem_of_take in Hin as (n & Hn & _).
  apply list_elem_of_lookup_2 in Hn. rewrite (order_by_perm fst Z.ltb) in Hn.
  unfold select_where in Hn. apply list_elem_of_In, filter_In in Hn as [Hin Hp].
  apply list_elem_of_In, elem_of_map_to_list in Hin. cbn in *.
  apply andb_true_iff in Hp as [Hp Ha]. split; [done|]. split; [done|].
  destruct after; [by apply Z.ltb_lt|done].
Qed.

Lemma cleanup_batch_spec pred bs last w :
  exists rws n failed w', cleanup_batch pred bs last w = (inr (rws, n, failed), w') /\
    rws = cleanup_page (pred (w_db w)) last bs (w_db w) /\
    (covered w -> covered w') /\
    (forall i img, images (w_db w') !! i = Some img -> images (w_db w) !! i = Some img) /\
    (forall i img, images (w_db w) !! i = Some img -> images (w_db w') !! i = None ->
       pred (w_db w) i img = true) /\
    (forall i img, images (w_db w) !! i = Some img -> pred (w_db w) i img = false ->
       images (w_db w') !! i = Some img /\ (referenced (w_db w) i = true -> referenced (w_db w') i = true)).
Proof.
  unfold cleanup_batch, tx, gets. unfold mbind at 1, M_bind at 1. set (rws := cleanup_page _ _ _ _).
  destruct rws as [|x rws0] eqn:Er.
  { eexists [], _, _, w. split; [done|]. split; [done|]. split_and!; [done|done| |done]. intros; congruence. }
  rewrite <-Er. unfold mbind, M_bind.
  destruct (delete_objects_spec rws w) as (ids & failed & w1 & -> & Hdb & Hsh & Hsub & Hgone).
  unfold on_db. destruct (delete_images_by_ids_spec ids (w_db w1)) as (n & d' & -> & Hd' & Href).
  eexists rws, n, failed, _. split; [done|]. split; [done|]. unfold covered. cbn [w_db w_s3 over]. split_and!.
  - intros Hc k o Hk Hp. pose proof (covers_shrinks _ _ _ Hc Hsh) as Hc1.
    destruct (Hc1 k o Hk Hp) as (i & img & Hi & Ek). exists i, img. split; [|done].
    apply Hd'. rewrite Hdb. split; [done|]. intros Hin. destruct (Hgone i Hin) as (img' & Hrow & Hnone).
    apply cleanup_page_elem in Hrow as [Hrow _]. rewrite Hrow in Hi. simplify_eq.
    by rewrite (Hnone k Ek Hp) in Hk.
  - intros i img Hi. apply Hd' in Hi as [Hi _]. by rewrite Hdb in Hi.
  - intros i img Hi Hn. destruct (decide (i ∈ ids)) as [Hin|Hnin].
    + destruct (Hgone i Hin) as (img' & Hrow & _). apply cleanup_page_elem in Hrow as (Hrow & Hpr & _).
      congruence.
    + rewrite (proj2 (Hd' i img)) in Hn; [done|]. by rewrite Hdb.
  - intros i img Hi Hp. assert (i ∉ ids) as Hn.
    { intros Hin. destruct (Hgone i Hin) as (img' & Hrow & _). apply cleanup_page_elem in Hrow as (Hrow & Hpr & _).
      congruence. }
    rewrite Hdb in *. split; [by apply Hd'|]. intros Hre. by apply Href.
Qed.

Lemma keyset_cleanup_covered fuel pred bs last total failed :
  keeps covered (keyset_cleanup fuel pred bs last total failed).
Proof.
  revert last total failed. induction fuel as [|fuel IH]; intros lst total failed w Hw; [done|].
  cbn [keyset_cleanup]. unfold mbind, M_bind.
  destruct (cleanup_batch_spec pred bs lst w) as (rws & n & fl & w' & -> & _ & Hc & _ & _).
  specialize (Hc Hw). destruct (last rws) as [[i img]|]; [|done].
  destruct (py_len rws <? bs); [done|]. by apply IH.
Qed.

Lemma cleanup_covered pred bs : keeps covered (cleanup pred bs).
Proof. intros w Hw. unfold cleanup, get. unfold mbind, M_bind. by apply keyset_cleanup_covered. Qed.

(** ** Reservation *)

Section Reservation.
Context `{UnicodeDB} (etag_of : list Z -> ustr) (cfg : storage_settings).

Lemma head_spec key w :
  let w' := (head_pending_object key w).2 in
  w_db w' = w_db w /\ shrinks (w_s3 w) (w_s3 w').
Proof.
  unfold head_pending_object, with_key. destruct (is_valid_pending_file_key key); [|split; [done|apply shrinks_refl]].
  destruct (s3_object_key key) as [k|]; [|split; [done|apply shrinks_refl]].
  split; [apply s3_call_db|].
  destruct (s3_call_bucket (fun b : bucket => match b !! k with Some o => (inr o, b) | None => (inl PyValueError, b) end) w)
    as (ups & Hb & _).
  assert (forall b : bucket, (match b !! k with Some o => (inr o, b) | None => (inl PyValueError, b) end : (exn + s3obj) * bucket).2 = b) as E
    by (intros b; by destruct (b !! k)).
  destruct Hb as [-> | ->]; rewrite ?E; apply shrinks_uploads.
Qed.

(** A reservation adds at most its own, reserved row. *)
Lemma reserve_upload_spec now new_id ulid fkey purpose esz up w :
  let '(res, w') := reserve_upload etag_of cfg now new_id ulid fkey purpose esz up w in
  shrinks (w_s3 w) (w_s3 w') /\
  match res with
  | inl _ => w_db w' = w_db w
  | inr r => rs_image_id r = new_id /\ images (w_db w) !! new_id = None /\
      exists img, file_key img = rs_dest_key r /\ img_deleted_at img = Some now /\ uploader_id img = up /\
        images (w_db w') = <[new_id := img]> (images (w_db w))
  end.
Proof.
  unfold reserve_upload. destruct (is_valid_pending_file_key _); [|split; [apply shrinks_refl|done]].
  set (key := lstrip_by is_slash (strip fkey)). pose proof (head_spec key w) as [Hdb Hsh].
  unfold try_except. unfold mbind at 1, M_bind at 1.
  destruct (head_pending_object key w) as [[e|meta] w1]; cbn [fst snd] in *.
  { by destruct (decide _). }
  destruct (_ || _); [done|]. destruct (match esz with Some _ => _ | None => _ end); [done|].
  destruct (validate_image_content_type cfg (o_type meta)) as [[ct ext]|]; [|done].
  destruct (etag_of (o_data meta)) as [|c etag]; [done|].
  destruct (build_permanent_file_key cfg purpose ct ulid) as [dest|]; [|done].
  destruct (build_url cfg dest) as [url|]; [|done].
  unfold mbind, M_bind, on_db, begin_tx, create_reserved_image, insert_row, mbind, M_bind.
  cbn [rows set_rows images_table].
  destruct (images (w_db w1) !! new_id) eqn:Ei; [done|].
  destruct (match up with Some u => _ | None => true end); [|done].
  cbn. split; [done|]. rewrite Hdb in *. split; [done|]. split; [done|].
  eexists. split_and!; [..|reflexivity]; done.
Qed.

Definition passive {A} (body : Z -> M world A) : Prop :=
  forall i w, w_db (body i w).2 = w_db w /\ w_s3 (body i w).2 = w_s3 w.

Lemma promote_bucket key dest etag w :
  let w' := (promote_pending_object etag_of key dest etag w).2 in
  w_db w' = w_db w /\
  (forall k, permanent k -> s3_object_key dest <> Some k -> w_s3 w !! k = None -> w_s3 w' !! k = None).
Proof.
  unfold promote_pending_object, with_key.
  destruct (s3_object_key dest) as [dst|] eqn:Ed; [|split; [done|auto]].
  destruct (s3_object_key key) as [src|]; [|split; [done|auto]].
  set (f := fun b : bucket => match b !! src with
      | Some o => if decide (etag_of (o_data o) = etag) then (inr tt : exn + unit, <[dst:=o]> b) else (inl PyValueError, b)
      | None => (inl PyValueError, b) end).
  assert (forall b k, k <> dst -> (f b).2 !! k = b !! k) as Hf.
  { intros b k Hne. unfold f. destruct (b !! src); [|done]. destruct (decide _); [|done]. cbn. by rewrite lookup_insert_ne. }
  unfold mbind, M_bind. pose proof (s3_call_db f w) as Hdb.
  destruct (s3_call_bucket f w) as (ups & Hb & _).
  assert (forall k, permanent k -> Some dst <> Some k -> w_s3 w !! k = None -> w_s3 (s3_call f w).2 !! k = None) as H1.
  { intros k Hp Hne Hk. destruct Hb as [-> | ->]; rewrite ?Hf by congruence; by apply shrinks_uploads. }
  destruct (s3_call f w) as [[e|[]] w1]; cbn [fst snd] in *; [done|].
  split; [rewrite s3_call_db; exact Hdb|].
  intros k Hp Hne Hk.
  destruct (s3_call_bucket (fun b : bucket => (inr tt : exn + unit, delete src b)) w1) as (ups2 & Hb2 & _).
  destruct Hb2 as [-> | ->]; [by apply shrinks_uploads, H1|]. cbn.
  apply shrinks_delete; [done|]. by apply shrinks_uploads, H1.
Qed.

(** Finishing keeps rows and adds at most the reserved object. *)
Lemma finish_upload_spec {A} r (body : Z -> M world A) w res w' : passive body ->
  finish_upload etag_of r body w = (res, w') ->
  (forall i, file_key <$> images (w_db w') !! i = file_key <$> images (w_db w) !! i) /\
  (forall k, permanent k -> w_s3 w !! k = None -> w_s3 w' !! k <> None ->
     s3_object_key (rs_dest_key r) = Some k /\ is_Some (images (w_db w) !! rs_image_id r)).
Proof.
  intros Hbody. unfold finish_upload, tx. unfold mbind at 1, M_bind at 1.
  unfold on_db at 1, lock_reserved_image at 1, gets.
  destruct (images (w_db w) !! rs_image_id r) as [img0|] eqn:Ei; cbn [mbind option_bind];
    [|intros [= <- <-]; split; [done|intros k _ E Hne; by destruct Hne; exact E]].
  destruct (img_deleted_at img0); [|intros [= <- <-]; split; [done|intros k _ E Hne; by destruct Hne; exact E]].
  assert ((w <| w_db := w_db w |>) = w) as -> by (by destruct w).
  unfold try_except. unfold mbind at 1, M_bind at 1.
  pose proof (promote_bucket (rs_key r) (rs_dest_key r) (rs_etag r) w) as [Hdb Hs3].
  assert (forall (b : bucket) k, (forall k, permanent k -> s3_object_key (rs_dest_key r) <> Some k ->
     w_s3 w !! k = None -> b !! k = None) -> permanent k -> w_s3 w !! k = None -> b !! k <> None ->
     s3_object_key (rs_dest_key r) = Some k /\ is_Some (Some img0)) as Hk.
  { intros b k Hb Hp Hn Hne. split; [|done]. destruct (decide (s3_object_key (rs_dest_key r) = Some k)); [done|].
    by destruct Hne; apply Hb. }
  destruct (promote_pending_object etag_of _ _ _ w) as [[e|[]] w1]; cbn [fst snd] in *.
  { destruct (decide _); intros [= <- <-]; (split; [done|]); intros k; apply (Hk (w_s3 w1) k Hs3). }
  unfold mbind, M_bind. pose proof (Hbody (rs_image_id r) w1) as [Hdb2 Hs32].
  rewrite <-Hs32 in Hs3.
  destruct (body (rs_image_id r) w1) as [[e|a] w2]; cbn [fst snd] in *.
  { intros [= <- <-]. split; [done|]. intros k. apply (Hk (w_s3 w2) k Hs3). }
  unfold on_db, confirm_reserved_image. rewrite update_one_returning_pk. cbn [rows set_rows images_table].
  rewrite Hdb2, Hdb, Ei. destruct (bool_decide _); intros [= <- <-]; (split; [|intros k; apply (Hk (w_s3 w2) k Hs3)]).
  - cbn [w_db over images]. intros i. destruct (decide (i = rs_image_id r)) as [->|]; [by rewrite lookup_insert_eq, Ei|].
    by rewrite lookup_insert_ne.
  - cbn [w_db over images]. by rewrite ?Hdb2, ?Hdb.
Qed.
End Reservation.

(** ** Media as a transition system

    Uploads in their two halves, deletions, sweeps, client uploads and any
    request that leaves the images table alone, in any order.  [ms_reserved]
    are the reservations some request still holds. *)

Section Steps.
Context `{UnicodeDB} (etag_of : list Z -> ustr) (cfg : storage_settings).

Record mstate := { ms_world : world; ms_reserved : list reserved }.

Inductive media_step : mstate -> mstate -> Prop :=
  | ms_reserve w rs now new_id ulid fkey purpose esz up r w' :
      (forall r', r' ∈ rs -> rs_image_id r' <> new_id) ->
      reserve_upload etag_of cfg now new_id ulid fkey purpose esz up w = (inr r, w') ->
      media_step {| ms_world := w; ms_reserved := rs |} {| ms_world := w'; ms_reserved := r :: rs |}
  | ms_reserve_fails w rs now new_id ulid fkey purpose esz up e w' :
      reserve_upload etag_of cfg now new_id ulid fkey purpose esz up w = (inl e, w') ->
      media_step {| ms_world := w; ms_reserved := rs |} {| ms_world := w'; ms_reserved := rs |}
  | ms_finish A w rs r (body : Z -> M world A) :
      r ∈ rs -> passive body ->
      media_step {| ms_world := w; ms_reserved := rs |}
                 {| ms_world := (finish_upload etag_of r body w).2; ms_reserved := rs |}
  | ms_delete w rs now i u :
      media_step {| ms_world := w; ms_reserved := rs |}
                 {| ms_world := (delete_image now i u w).2; ms_reserved := rs |}
  | ms_cleanup w rs pred batch_size :
      media_step {| ms_world := w; ms_reserved := rs |}
                 {| ms_world := (cleanup pred batch_size w).2; ms_reserved := rs |}
  | ms_client_upload w rs ups :
      media_step {| ms_world := w; ms_reserved := rs |}
                 {| ms_world := w <| w_s3 := apply_uploads ups (w_s3 w) |>; ms_reserved := rs |}
  | ms_other w rs w' :
      images (w_db w') = images (w_db w) -> w_s3 w' = w_s3 w ->
      media_step {| ms_world := w; ms_reserved := rs |} {| ms_world := w'; ms_reserved := rs |}.

Inductive media_reachable : mstate -> Prop :=
  | mr_init w : covered w -> media_reachable {| ms_world := w; ms_reserved := [] |}
  | mr_step s s' : media_reachable s -> media_step s s' -> media_reachable s'.

(** A held reservation still owns its row, if the row exists. *)
Definition reserved_ok (w : world) (rs : list reserved) : Prop :=
  forall r, r ∈ rs -> forall img, images (w_db w) !! rs_image_id r = Some img -> file_key img = rs_dest_key r.

Lemma delete_image_rows now i u w :
  w_s3 (delete_image now i u w).2 = w_s3 w /\
  forall j, file_key <$> images (w_db (delete_image now i u w).2) !! j = file_key <$> images (w_db w) !! j.
Proof.
  unfold delete_image. split; [apply on_db_s3|]. intros j.
  unfold on_db, begin_tx, soft_delete_image_if_owned. unfold mbind, M_bind. rewrite update_one_returning_pk.
  cbn [rows set_rows images_table]. destruct (images (w_db w) !! i) as [img|] eqn:Ei; [|done].
  destruct (_ && _); [|done].
  match goal with |- _ <$> ?m !! j = _ => change m with (<[i := img <| img_deleted_at := Some now |>]> (images (w_db w))) end.
  destruct (decide (j = i)) as [->|]; [by rewrite lookup_insert_eq, Ei|by rewrite lookup_insert_ne].
Qed.

Lemma cleanup_rows fuel pred bs lst total failed w i img :
  images (w_db (keyset_cleanup fuel pred bs lst total failed w).2) !! i = Some img ->
  images (w_db w) !! i = Some img.
Proof.
  revert lst total failed w. induction fuel as [|fuel IH]; intros lst total failed w; [done|].
  cbn [keyset_cleanup]. unfold mbind, M_bind.
  destruct (cleanup_batch_spec pred bs lst w) as (rws & n & fl & w' & -> & _ & _ & Hsub & _ & _).
  destruct (last rws) as [[k x]|]; [|apply Hsub]. destruct (py_len rws <? bs); [apply Hsub|].
  intros Hi%IH. by apply Hsub.
Qed.

Lemma reserved_ok_file_keys w w' rs :
  (forall i, file_key <$> images (w_db w') !! i = file_key <$> images (w_db w) !! i) ->
  reserved_ok w rs -> reserved_ok w' rs.
Proof.
  intros Hf Hok r Hr img Hi. specialize (Hf (rs_image_id r)). rewrite Hi in Hf. cbn in Hf.
  destruct (images (w_db w) !! rs_image_id r) as [img0|] eqn:E; [|done]. injection Hf as ->. by eapply Hok.
Qed.

Lemma covers_file_keys d d' b :
  (forall i, file_key <$> images d' !! i = file_key <$> images d !! i) -> covers d b -> covers d' b.
Proof.
  intros Hf. apply covers_images. intros i img Hi. specialize (Hf i). rewrite Hi in Hf.
  destruct (images d' !! i) as [img'|]; [|done]. injection Hf as Hf. eauto.
Qed.

Lemma media_step_inv s s' :
  covered (ms_world s) /\ reserved_ok (ms_world s) (ms_reserved s) -> media_step s s' ->
  covered (ms_world s') /\ reserved_ok (ms_world s') (ms_reserved s').
Proof.
  intros [Hc Hok] Hstep.
  destruct Hstep as [w rs now new_id ulid fkey purpose esz up r w' Hfresh E
                    |w rs now new_id ulid fkey purpose esz up e w' E
                    |A w rs r body Hr Hbody|w rs now i u|w rs pred bs|w rs ups|w rs w' Hi Hs];
    cbn [ms_world ms_reserved] in *; unfold covered in *.
  - pose proof (reserve_upload_spec etag_of cfg now new_id ulid fkey purpose esz up w) as Hspec. rewrite E in Hspec.
    destruct Hspec as (Hsh & Hid & Hnone & img & Hfk & _ & _ & Him). split.
    + eapply covers_images; [|by eapply covers_shrinks]. intros j img' Hj. rewrite Him.
      exists img'. split; [|done]. rewrite lookup_insert_ne; [done|congruence].
    + intros r' Hr' img' Hl. rewrite Him in Hl. apply elem_of_cons in Hr' as [->|Hr'].
      * rewrite Hid, lookup_insert_eq in Hl. congruence.
      * rewrite lookup_insert_ne in Hl by (apply not_eq_sym, Hfresh, Hr'). by eapply Hok.
  - pose proof (reserve_upload_spec etag_of cfg now new_id ulid fkey purpose esz up w) as Hspec. rewrite E in Hspec.
    destruct Hspec as [Hsh Hdb]. rewrite Hdb. split; [by eapply covers_shrinks|].
    intros r Hr img. rewrite Hdb. by apply Hok.
  - destruct (finish_upload etag_of r body w) as [res w'] eqn:E. cbn [snd].
    destruct (finish_upload_spec etag_of r body w res w' Hbody E) as [Hf Hs].
    split; [|by eapply reserved_ok_file_keys].
    apply (covers_file_keys (w_db w) (w_db w') (w_s3 w') Hf). intros k o Hk Hp.
    destruct (w_s3 w !! k) as [o'|] eqn:Eo; [by eapply Hc|].
    destruct (Hs k Hp Eo) as [Hdest [img Himg]]; [congruence|].
    exists (rs_image_id r), img. split; [done|]. by rewrite (Hok r Hr img Himg).
  - destruct (delete_image_rows now i u w) as [Hs Hf]. rewrite Hs.
    split; [by apply (covers_file_keys (w_db w))|by eapply reserved_ok_file_keys].
  - split; [by apply (cleanup_covered pred bs w)|]. intros r Hr img Hi. eapply Hok; [done|].
    unfold cleanup, get in Hi. unfold mbind, M_bind in Hi. by eapply cleanup_rows.
  - split; [|done]. cbn. eapply covers_shrinks; [done|apply shrinks_uploads].
  - split; [|intros r Hr img; rewrite Hi; by apply Hok]. rewrite Hs. eapply covers_file_keys; [|done].
    intros j. by rewrite Hi.
Qed.

Lemma media_reachable_inv s : media_reachable s ->
  covered (ms_world s) /\ reserved_ok (ms_world s) (ms_reserved s).
Proof.
  induction 1 as [w Hw|s s' _ IH Hstep]; [|by eapply media_step_inv].
  split; [done|]. intros r Hr. by apply not_elem_of_nil in Hr.
Qed.
End Steps.

(** An image the predicate spares while it is referenced survives the loop. *)
Lemma keyset_cleanup_spares fuel pred bs lst total failed w i img (Q : db -> Prop) :
  (forall d, images d !! i = Some img -> Q d -> pred d i img = false) ->
  (forall d d', Q d -> (referenced d i = true -> referenced d' i = true) -> Q d') ->
  images (w_db w) !! i = Some img -> Q (w_db w) ->
  let d' := w_db (keyset_cleanup fuel pred bs lst total failed w).2 in
  images d' !! i = Some img /\ Q d'.
Proof.
  intros Hpred HQ. revert lst total failed w. induction fuel as [|fuel IH]; intros lst total failed w Hi Hq; [done|].
  cbn [keyset_cleanup]. unfold mbind, M_bind.
  destruct (cleanup_batch_spec pred bs lst w) as (rws & n & fl & w' & -> & _ & _ & _ & _ & Hsp).
  destruct (Hsp i img Hi (Hpred _ Hi Hq)) as [Hi' Hr].
  pose proof (HQ _ _ Hq Hr) as Hq'. destruct (last rws) as [[k x]|]; [|done].
  destruct (py_len rws <? bs); [done|]. by apply IH.
Qed.

(** ** Termination of the cleanup loop *)

#[local] Instance after_dec lst i : Decision (from_option (fun a => a < i) True lst).
Proof. destruct lst; cbn; apply _. Defined.

Definition beyond (lst : option Z) (d : db) : gset Z :=
  filter (fun i => from_option (fun a => a < i) True lst) (dom (images d)).

Lemma keyset_cleanup_terminates fuel pred bs lst total failed w :
  (base.size (beyond lst (w_db w)) < fuel)%nat ->
  exists n fl w', keyset_cleanup fuel pred bs lst total failed w = (inr (Some (n, fl)), w').
Proof.
  revert lst total failed w. induction fuel as [|fuel IH]; intros lst total failed w Hf; [lia|].
  cbn [keyset_cleanup]. unfold mbind, M_bind.
  destruct (cleanup_batch_spec pred bs lst w) as (rws & n & fl & w' & -> & Hrws & _ & Hsub & _ & _).
  destruct (last rws) as [[i img]|] eqn:El; [|by eauto].
  destruct (py_len rws <? bs); [by eauto|]. apply IH.
  rewrite last_lookup in El. apply list_elem_of_lookup_2 in El. rewrite Hrws in El.
  apply cleanup_page_elem in El as (Hi & _ & Ha).
  enough (base.size (beyond (Some i) (w_db w')) < base.size (beyond lst (w_db w)))%nat by lia.
  apply subset_size. split.
  - intros j. unfold beyond. rewrite !elem_of_filter, !elem_of_dom. intros [Hj [x Hx]].
    split; [|by eapply mk_is_Some, Hsub]. destruct lst; cbn [from_option] in *; [lia|done].
  - intros Hin. specialize (Hin i). unfold beyond in Hin. rewrite !elem_of_filter, !elem_of_dom in Hin.
    destruct Hin as [Hlt _]; [|cbn [from_option] in Hlt; lia]. split; [by destruct lst|by eapply mk_is_Some].
Qed.

Lemma cleanup_terminates pred bs w :
  exists n fl w', cleanup pred bs w = (inr (Some (n, fl)), w').
Proof.
  unfold cleanup, get. unfold mbind, M_bind. apply keyset_cleanup_terminates.
  unfold beyond. rewrite <-(size_dom (images (w_db w))).
  apply Nat.lt_succ_r, subseteq_size. intros i. rewrite elem_of_filter. tauto.
Qed.

Lemma cleanup_spares pred bs w i img (Q : db -> Prop) :
  (forall d, images d !! i = Some img -> Q d -> pred d i img = false) ->
  (forall d d', Q d -> (referenced d i = true -> referenced d' i = true) -> Q d') ->
  images (w_db w) !! i = Some img -> Q (w_db w) ->
  images (w_db (cleanup pred bs w).2) !! i = Some img /\ Q (w_db (cleanup pred bs w).2).
Proof. intros H1 H2 H3 H4. unfold cleanup, get. unfold mbind, M_bind. by apply keyset_cleanup_spares. Qed.

(** ** Keys of promoted objects *)

Lemma rstrip_snoc p s c : p c = false -> rstrip_by p (s ++ [c]) = s ++ [c].
Proof.
  intros Hc. unfold rstrip_by. rewrite reverse_snoc. cbn [drop_while]. rewrite Hc.
  by rewrite reverse_cons, reverse_involutive.
Qed.

Section Promotion.
Context `{UnicodeDB} (etag_of : list Z -> ustr) (cfg : storage_settings).

Definition PURPOSES : list ustr := [lit "profile"; lit "post"; lit "signup"].

Lemma ext_last ct ext : CONTENT_TYPE_EXT ct = Some ext -> exists pre c, ext = pre ++ [c] /\ is_space c = false.
Proof.
  unfold CONTENT_TYPE_EXT. repeat destruct (decide _); intros; simplify_eq.
  - by exists (lit "jp"), 103.
  - by exists (lit "pn"), 103.
  - by exists (lit "web"), 112.
Qed.

Lemma permanent_key purpose ct ulid dest :
  purpose ∈ PURPOSES -> build_permanent_file_key cfg purpose ct ulid = Some dest ->
  exists k, s3_object_key dest = Some k /\ permanent k.
Proof.
  intros Hp. unfold build_permanent_file_key, validate_image_content_type.
  destruct (bool_decide _); [|done]. destruct (CONTENT_TYPE_EXT _) as [ext|] eqn:Ee; [|done].
  apply ext_last in Ee as (pre & c & -> & Hc). cbn [mbind option_bind]. intros E. apply (inj Some) in E. subst dest.
  assert (forall s, strip (purpose ++ s ++ [c]) = purpose ++ s ++ [c]) as Hstrip.
  { intros s. unfold strip, strip_by. assert (lstrip_by is_space (purpose ++ s ++ [c]) = purpose ++ s ++ [c]) as ->.
    - unfold PURPOSES in Hp. rewrite !elem_of_cons in Hp. destruct Hp as [->|[->|[->|[]%not_elem_of_nil]]]; done.
    - rewrite app_assoc. by apply rstrip_snoc. }
  specialize (Hstrip (lit "/" ++ ulid ++ lit "." ++ pre)).
  rewrite <-!app_assoc in Hstrip. unfold s3_object_key, strip_redundant_media_prefixes. rewrite Hstrip.
  unfold PURPOSES in Hp. rewrite !elem_of_cons in Hp.
  destruct Hp as [->|[->|[->|[]%not_elem_of_nil]]]; cbn; (eexists; split; [done|]); done.
Qed.

Lemma match_head_eqb s t rest cls : match_head (map Z.eqb t ++ cls) s = Some rest -> exists s', s = t ++ s'.
Proof.
  revert s. induction t as [|c t IH]; intros s; cbn; [by eexists|]. destruct s as [|d s]; [done|].
  destruct (Z.eqb_spec c d) as [->|]; [|done]. intros [s' ->]%IH. by eexists.
Qed.

Lemma pending_key key :
  is_valid_pending_file_key key = true -> exists k, s3_object_key key = Some k /\ ~ permanent k.
Proof.
  unfold is_valid_pending_file_key. destruct (match_head _ _) as [[|c rest]|] eqn:E; [done| |done]. intros _.
  unfold PENDING_KEY_HEAD in E. apply match_head_eqb in E as [s' E].
  unfold s3_object_key, strip_redundant_media_prefixes. rewrite E. cbn.
  eexists. split; [done|]. unfold permanent. cbn. by destruct s'.
Qed.

(** Every object the client uploaded below a pending key, or still will, has one
    content type, as the conditions of the key's presigned POST say. *)
Definition type_pinned (src t : ustr) (w : world) : Prop :=
  (forall o, w_s3 w !! src = Some o -> o_type o = t) /\
  Forall (fun k => Forall (fun u => PENDING_ROOT ++ u.1 = src -> o_type u.2 = t) (s3_uploads k)) (w_s3_sched w).

Lemma uploads_pinned (src t : ustr) (ups : list (ustr * s3obj)) (b : bucket) : Forall (fun u => PENDING_ROOT ++ u.1 = src -> o_type u.2 = t) ups ->
  (forall o, b !! src = Some o -> o_type o = t) -> forall o, apply_uploads ups b !! src = Some o -> o_type o = t.
Proof.
  induction 1 as [|u ups Hu _ IH]; intros Hb o; [apply Hb|]. cbn [apply_uploads foldr].
  destruct (decide (PENDING_ROOT ++ u.1 = src)) as [Hs|Hs].
  - rewrite Hs, lookup_insert_eq. intros [= <-]. by apply Hu.
  - rewrite lookup_insert_ne by done. by apply IH.
Qed.

Lemma s3_call_pinned {A} (f : bucket -> (exn + A) * bucket) src t w :
  (forall b o, (f b).2 !! src = Some o -> b !! src = Some o) -> type_pinned src t w ->
  type_pinned src t (s3_call f w).2 /\
  forall a, (s3_call f w).1 = inr a -> exists b, (forall o, b !! src = Some o -> o_type o = t) /\ f b = (inr a, w_s3 (s3_call f w).2).
Proof.
  intros Hf [Hb Hs]. unfold s3_call, type_pinned. destruct (w_s3_sched w) as [|k ks] eqn:E; cbn [s3_uploads s3_fault].
  - pose proof (Hf (apply_uploads [] (w_s3 w))) as Hf0. destruct (f _) as [r b'] eqn:Ef. cbn. cbn in Hf0. split.
    + split; [|constructor]. intros o Ho. by apply Hb, Hf0.
    + intros a ->. by exists (w_s3 w).
  - apply Forall_cons in Hs as [Hk Hks]. pose proof (uploads_pinned src t _ _ Hk Hb) as Hu.
    pose proof (Hf (apply_uploads (s3_uploads k) (w_s3 w))) as Hf0. destruct (f _) as [r b'] eqn:Ef. cbn in Hf0.
    destruct (s3_fault k); cbn; (split; [split; [|exact Hks]|]); try exact Hu; try done; try (intros o Ho; by apply Hu, Hf0).
    intros a ->. by eexists.
Qed.

Lemma promote_success key dest etag dst src w w' :
  s3_object_key dest = Some dst -> s3_object_key key = Some src -> permanent dst -> ~ permanent src ->
  promote_pending_object etag_of key dest etag w = (inr tt, w') ->
  exists o, etag_of (o_data o) = etag /\ w_s3 w' !! dst = Some o /\ forall t, type_pinned src t w -> o_type o = t.
Proof.
  intros Ed Es Hd Hs. unfold promote_pending_object, with_key. rewrite Ed, Es. unfold mbind, M_bind.
  set (f := fun b : bucket => match b !! src with
      | Some o => if decide (etag_of (o_data o) = etag) then (inr tt : exn + unit, <[dst:=o]> b) else (inl PyValueError, b)
      | None => (inl PyValueError, b) end).
  destruct (s3_call_bucket f w) as (ups & _ & Ha).
  assert (forall b o, (f b).2 !! src = Some o -> b !! src = Some o) as Hfsrc.
  { intros b o. unfold f. destruct (b !! src) as [o'|] eqn:Eb; [|cbn; congruence]. destruct (decide _); cbn; [|congruence].
    rewrite lookup_insert_ne by congruence. congruence. }
  assert (forall t, type_pinned src t w -> (s3_call f w).1 = inr tt -> forall o, w_s3 (s3_call f w).2 !! dst = Some o -> o_type o = t) as Hty.
  { intros t Hp E. destruct (s3_call_pinned f src t w Hfsrc Hp) as [_ Hv]. destruct (Hv tt E) as (b & Hb & Hfb). clear Hv E.
    revert Hfb. generalize (w_s3 (s3_call f w).2). intros b' Hfb. unfold f in Hfb. destruct (b !! src) as [o'|]; [|done]. destruct (decide _); [|done]. injection Hfb as <-. rewrite lookup_insert_eq.
    intros o [= <-]. by apply Hb. }
  destruct (s3_call f w) as [[e|[]] w1]; [done|]. specialize (Ha tt eq_refl). cbn in Ha. cbn [fst snd] in Hty.
  intros Hcall. destruct (s3_call_bucket (fun b : bucket => (inr tt : exn + unit, delete src b)) w1) as (ups2 & _ & Hb).
  rewrite Hcall in Hb. specialize (Hb tt eq_refl). cbn in Hb. injection Hb as Hb.
  unfold f in Ha. destruct (apply_uploads ups (w_s3 w) !! src) as [o|]; [|done].
  destruct (decide _) as [He|]; [|done]. injection Ha as Ha. exists o. split; [done|].
  assert (w_s3 w1 !! dst = Some o) as Ho by (rewrite <-Ha; apply lookup_insert_eq).
  split; [|intros t Hp; by apply (Hty t Hp eq_refl)].
  rewrite <-Hb, lookup_delete_ne by congruence. by rewrite apply_uploads_lookup.
Qed.

(** What a successful reservation guarantees about its fields. *)
Lemma reserve_upload_valid now new_id ulid fkey purpose esz up w r w' :
  reserve_upload etag_of cfg now new_id ulid fkey purpose esz up w = (inr r, w') ->
  is_valid_pending_file_key (rs_key r) = true /\
  (exists ct, build_permanent_file_key cfg purpose ct ulid = Some (rs_dest_key r)) /\
  exists data, rs_etag r = etag_of data /\ rs_size r = py_len data /\ 1 <= rs_size r <= PRESIGNED_MAX_BYTES /\
    match esz with Some n => rs_size r = n | None => True end /\
    rs_type r ∈ ALLOWED_IMAGE_TYPES cfg /\ is_Some (CONTENT_TYPE_EXT (rs_type r)).
Proof.
  unfold reserve_upload. set (key := lstrip_by is_slash (strip fkey)).
  destruct (is_valid_pending_file_key key) eqn:Ek; [|done].
  unfold mbind at 1, M_bind at 1. destruct (try_except _ _ w) as [[e|meta] w1]; [done|].
  destruct ((_ <? 1) || _) eqn:Esz; [done|]. apply orb_false_iff in Esz as [E1 E2].
  apply Z.ltb_ge in E1, E2.
  destruct (match esz with Some n => _ | None => false end) eqn:Een; [done|].
  destruct (validate_image_content_type cfg (o_type meta)) as [[ct ext]|] eqn:Ev; [|done].
  destruct (etag_of (o_data meta)) as [|c etag] eqn:Ee; [done|].
  destruct (build_permanent_file_key cfg purpose ct ulid) as [dest|] eqn:Ed; [|done].
  destruct (build_url cfg dest) as [url|]; [|done]. unfold mbind, M_bind.
  destruct (on_db _ w1) as [[e|i] w2]; [done|]. intros [= <- <-]. cbn. split; [done|]. split; [eauto|].
  exists (o_data meta). rewrite Ee. split; [done|]. split; [done|]. split; [lia|].
  split; [destruct esz; [by destruct (Z.eqb_spec z (py_len (o_data meta)))|done]|].
  unfold validate_image_content_type in Ev. destruct (bool_decide _) eqn:Eb; [|done].
  destruct (CONTENT_TYPE_EXT _) as [x|] eqn:Ex; [|done]. cbn in Ev. simplify_eq.
  split; [by apply bool_decide_eq_true in Eb|eauto].
Qed.

Lemma reserve_upload_key now new_id ulid fkey purpose esz up w r w' :
  reserve_upload etag_of cfg now new_id ulid fkey purpose esz up w = (inr r, w') -> rs_key r = lstrip_by is_slash (strip fkey).
Proof.
  unfold reserve_upload. destruct (is_valid_pending_file_key _); [|done]. unfold mbind at 1, M_bind at 1.
  destruct (try_except _ _ w) as [[e|meta] w1]; [done|]. destruct (_ || _); [done|]. destruct (match esz with Some _ => _ | None => _ end); [done|].
  destruct (validate_image_content_type cfg (o_type meta)) as [[ct ext]|]; [|done]. destruct (etag_of (o_data meta)); [done|].
  destruct (build_permanent_file_key cfg purpose ct ulid); [|done]. destruct (build_url cfg _); [|done]. unfold mbind, M_bind.
  destruct (on_db _ w1) as [[e|i] w2]; [done|]. by intros [= <- _].
Qed.

(** The type recorded is the one of the pending key's uploads. *)
Lemma reserve_upload_type now new_id ulid fkey purpose esz up w r w' src t :
  reserve_upload etag_of cfg now new_id ulid fkey purpose esz up w = (inr r, w') -> s3_object_key (rs_key r) = Some src ->
  type_pinned src t w -> (exists ext, validate_image_content_type cfg t = Some (rs_type r, ext)) /\ type_pinned src t w'.
Proof.
  intros E Hsrc Hp. pose proof (reserve_upload_key _ _ _ _ _ _ _ _ _ _ E) as Hkey. revert E.
  unfold reserve_upload. set (key := lstrip_by is_slash (strip fkey)).
  destruct (is_valid_pending_file_key key) eqn:Ek; [|done].
  unfold mbind at 1, M_bind at 1. unfold try_except, head_pending_object, with_key. rewrite Ek.
  destruct (s3_object_key key) as [k|] eqn:Esrc; [|cbn; by destruct (decide _)].
  set (f := fun b : bucket => match b !! k with Some o => (inr o : exn + s3obj, b) | None => (inl PyValueError, b) end).
  intros E. change (rs_key r = key) in Hkey. rewrite Hkey, Esrc in Hsrc. injection Hsrc as ->.
  assert (forall b o, (f b).2 !! src = Some o -> b !! src = Some o) as Hf by (intros b o; unfold f; destruct (b !! src) eqn:Eb; cbn; congruence).
  destruct (s3_call_pinned f src t w Hf Hp) as [Hp1 Hv].
  destruct (s3_call f w) as [[e|meta] w1]; [by destruct (decide (e = PyValueError))|]. destruct (Hv meta eq_refl) as (b & Hb & Hfb). cbn [snd] in *.
  assert (o_type meta = t) as <-.
  { unfold f in Hfb. destruct (b !! src) as [o|] eqn:Eo; [|done]. injection Hfb as <- _. by apply Hb. }
  destruct (_ || _); [done|]. destruct (match esz with Some _ => _ | None => _ end); [done|].
  destruct (validate_image_content_type cfg (o_type meta)) as [[ct ext]|]; [|done]. destruct (etag_of (o_data meta)); [done|].
  destruct (build_permanent_file_key cfg purpose ct ulid); [|done]. destruct (build_url cfg _); [|done]. unfold mbind, M_bind in E.
  unfold on_db in E. destruct (begin_tx _ (w_db w1)) as [[e|i] d2]; [done|]. injection E as <- <-. cbn [rs_type]. split; [by eexists|exact Hp1].
Qed.

(** A finished upload: the promoted object and the confirmed row. *)
Lemma finish_upload_success {A} r (body : Z -> M world A) w a img w' dst src :
  passive body -> s3_object_key (rs_dest_key r) = Some dst -> s3_object_key (rs_key r) = Some src ->
  permanent dst -> ~ permanent src ->
  finish_upload etag_of r body w = (inr (a, img), w') ->
  (exists o, etag_of (o_data o) = rs_etag r /\ w_s3 w' !! dst = Some o /\ forall t, type_pinned src t w -> o_type o = t) /\
  images (w_db w') !! rs_image_id r = Some img /\ img_deleted_at img = None /\
  size img = Some (rs_size r) /\ content_type img = Some (rs_type r) /\
  exists img0, images (w_db w) !! rs_image_id r = Some img0 /\ is_Some (img_deleted_at img0) /\
    file_key img = file_key img0 /\ uploader_id img = uploader_id img0.
Proof.
  intros Hbody Ed Es Hd Hs. unfold finish_upload, tx. unfold mbind at 1, M_bind at 1.
  unfold on_db at 1, lock_reserved_image at 1, gets.
  destruct (images (w_db w) !! rs_image_id r) as [img0|] eqn:Ei; cbn [mbind option_bind]; [|done].
  destruct (img_deleted_at img0) eqn:Edel; [|done].
  assert ((w <| w_db := w_db w |>) = w) as -> by (by destruct w).
  unfold try_except. unfold mbind at 1, M_bind at 1.
  destruct (promote_pending_object etag_of _ _ _ w) as [[e|[]] w1] eqn:Ep; [by destruct (decide _)|].
  pose proof (promote_bucket etag_of (rs_key r) (rs_dest_key r) (rs_etag r) w) as [Hdb _]. rewrite Ep in Hdb. cbn in Hdb.
  apply (promote_success (rs_key r) (rs_dest_key r) (rs_etag r) dst src) in Ep as (o & Ho & Hl & Hty); [|done..].
  unfold mbind, M_bind. pose proof (Hbody (rs_image_id r) w1) as [Hdb2 Hs32].
  destruct (body (rs_image_id r) w1) as [[e|b] w2]; [done|]. cbn in Hdb2, Hs32.
  unfold on_db, confirm_reserved_image. rewrite update_one_returning_pk. cbn [rows set_rows images_table].
  rewrite Hdb2, Hdb, Ei, Edel. cbn. intros [= <- <- <-]. cbn [w_s3 w_db over images]. split; [exists o; by rewrite Hs32|].
  split; [apply lookup_insert_eq|]. cbn. split_and!; try done. exists img0. by rewrite Edel.
Qed.
End Promotion.

(** ** Properties *)

(** C2. No stored object without a database row: along every interleaving of
    upload confirmations (cut between reservation and promotion), deletions,
    sweeps, presigned client uploads and other requests, with any storage
    faults (lost requests and lost replies), every object outside the pending
    area is named by a row of the images table, so the row-driven sweeper can
    find it. *)
Theorem media_no_orphan_objects `{UnicodeDB} etag_of cfg s :
  media_reachable etag_of cfg s ->
  forall k o, w_s3 (ms_world s) !! k = Some o -> permanent k ->
    exists i img, images (w_db (ms_world s)) !! i = Some img /\ s3_object_key (file_key img) = Some k.
Proof. intros Hr. by destruct (media_reachable_inv etag_of cfg s Hr) as [Hc _]. Qed.

(** C35. A confirmed upload is the validated object: when confirmation answers
    with an image, the row is confirmed, belongs to the caller and records an
    allowed type and a size within bounds that equals the announced one, and the
    object promoted to the row's key has exactly that many bytes, even if the
    client re-uploaded the pending object between validation and promotion
    (the copy is conditional on the validated ETag).  The ETag says nothing of the
    content type: the promoted object's type is the recorded one, normalised, when
    all uploads below the pending key have one type, as the conditions of its
    presigned POST demand. *)
Theorem confirm_upload_promotes_validated `{UnicodeDB} etag_of cfg now new_id ulid fkey purpose esz user w i img w' :
  (forall x y, etag_of x = etag_of y -> x = y) ->
  purpose ∈ PURPOSES ->
  confirm_presigned_upload etag_of cfg now new_id ulid fkey purpose esz user w = (inr (i, img), w') ->
  images (w_db w') !! i = Some img /\ img_deleted_at img = None /\ uploader_id img = Some user /\
  exists ct, content_type img = Some ct /\ ct ∈ ALLOWED_IMAGE_TYPES cfg /\
  exists k o, s3_object_key (file_key img) = Some k /\ w_s3 w' !! k = Some o /\
    size img = Some (py_len (o_data o)) /\ 1 <= py_len (o_data o) <= PRESIGNED_MAX_BYTES /\
    match esz with Some n => py_len (o_data o) = n | None => True end /\
    forall src t, s3_object_key (lstrip_by is_slash (strip fkey)) = Some src -> type_pinned src t w ->
      o_type o = t /\ exists ext, validate_image_content_type cfg t = Some (ct, ext).
Proof.
  intros Hinj Hpur. unfold confirm_presigned_upload. unfold mbind, M_bind.
  pose proof (reserve_upload_spec etag_of cfg now new_id ulid fkey purpose esz (Some user) w) as Hspec.
  destruct (reserve_upload _ _ _ _ _ _ _ _ _ w) as [[e|r] w1] eqn:Er; [done|].
  pose proof (fun src t => reserve_upload_type etag_of cfg now new_id ulid fkey purpose esz (Some user) w r w1 src t Er) as Htype.
  pose proof (reserve_upload_key etag_of cfg _ _ _ _ _ _ _ _ _ _ Er) as Hrk.
  apply reserve_upload_valid in Er as (Hkey & (ct0 & Hdest) & data & He & Hsz & Hb & Hes & Hty & _).
  destruct Hspec as (_ & Hid & _ & img1 & Hfk & Hdel & Hup & Him).
  destruct (permanent_key cfg purpose ct0 ulid _ Hpur Hdest) as (dst & Hdst & Hperm).
  destruct (pending_key _ Hkey) as (src & Hsrc & Hpend).
  destruct (finish_upload etag_of r (fun _ => mret tt) w1) as [[e|[u img']] w2] eqn:Ef; [done|].
  intros [= <- <- <-].
  apply (finish_upload_success etag_of r (fun _ => mret tt) w1 u img' w2 dst src) in Ef
    as ((o & Ho & Hl & Hty0) & Hrow & Hd & Hsize & Hct & img0 & Hi0 & _ & Hf & Hu); [|by intros ??|done..].
  rewrite Hid, Him, lookup_insert_eq in Hi0. injection Hi0 as <-. rewrite Hid in *.
  split; [done|]. split; [done|]. split; [congruence|]. exists (rs_type r). split; [done|]. split; [done|].
  assert (o_data o = data) as Hdata by (apply Hinj; congruence).
  exists dst, o. split; [by rewrite Hf, Hfk|]. rewrite Hdata, <-Hsz. split; [done|]. split; [done|]. split; [done|]. split; [done|].
  intros src' t Hk' Hp. rewrite <-Hrk, Hsrc in Hk'. injection Hk' as <-. destruct (Htype src t Hsrc Hp) as [Hv Hp1].
  split; [by apply Hty0|exact Hv].
Qed.

(** Deleting an image, on both branches: by its owner while it is live,
    the row is marked for collection, every profile and post reference to it is
    gone in the same transaction and references to other images stay; otherwise
    the answer is the one 404 and nothing changes. *)
Theorem delete_image_detaches now image_id user w :
  match delete_image now image_id user w with
  | (inr tt, w') =>
      (exists img, images (w_db w) !! image_id = Some img /\ uploader_id img = Some user /\ img_deleted_at img = None /\
         images (w_db w') = <[image_id := img <| img_deleted_at := Some now |>]> (images (w_db w))) /\
      (forall j, referenced (w_db w') j = true <-> referenced (w_db w) j = true /\ j <> image_id)
  | (inl e, w') =>
      e = ImageNotFoundException /\ w' = w /\
      forall img, images (w_db w) !! image_id = Some img -> uploader_id img = Some user -> img_deleted_at img <> None
  end.
Proof.
  unfold delete_image, on_db, begin_tx, soft_delete_image_if_owned. unfold mbind, M_bind.
  rewrite update_one_returning_pk. cbn [rows set_rows images_table].
  destruct (images (w_db w) !! image_id) as [img|] eqn:Ei.
  - destruct (decide (uploader_id img = Some user)) as [Hu|Hu].
    + destruct (decide (img_deleted_at img = None)) as [Hd|Hd].
      * rewrite !bool_decide_eq_true_2 by done. cbn [andb].
        cbv beta iota delta [modify mret M_ret]. split.
        -- by exists img.
        -- intros j. cbn [w_db over]. rewrite detach_images_referenced, list_elem_of_singleton. reflexivity.
      * rewrite (bool_decide_eq_false_2 (img_deleted_at img = None)), andb_false_r by done.
        split; [done|]. split; [by destruct w|]. intros ? [= <-] _. done.
    + rewrite (bool_decide_eq_false_2 (uploader_id img = Some user)) by done.
      split; [done|]. split; [by destruct w|]. intros ? [= <-] ?. done.
  - split; [done|]. split; [by destruct w|]. done.
Qed.

(** The sweep stops, with a count, and never takes an image in use: an
    image that a profile or a post refers to keeps its row and its references,
    and so does a reservation within its grace period, whatever the batch size,
    the order of rows and the storage faults. *)
Theorem sweep_spares_used now grace batch_size w :
  (exists n w', sweep_unused_images now grace batch_size w = (inr (Some n), w')) /\
  (forall i img, images (w_db w) !! i = Some img -> referenced (w_db w) i = true ->
     let d' := w_db (sweep_unused_images now grace batch_size w).2 in
     images d' !! i = Some img /\ referenced d' i = true) /\
  (forall i img t, images (w_db w) !! i = Some img -> img_deleted_at img = Some t -> now - grace <= t ->
     images (w_db (sweep_unused_images now grace batch_size w).2) !! i = Some img).
Proof.
  unfold sweep_unused_images. unfold mbind, M_bind.
  pose proof (cleanup_spares (get_abandoned_images now 24) batch_size w) as S1.
  destruct (cleanup_terminates (get_abandoned_images now 24) batch_size w) as (n & fl & w1 & E1). rewrite E1 in *.
  pose proof (cleanup_spares (get_reclaimable_images now grace) batch_size w1) as S2.
  destruct (cleanup_terminates (get_reclaimable_images now grace) batch_size w1) as (m & fl2 & w2 & E2). rewrite E2 in *.
  cbn [fst snd] in *. split; [by eexists _, _|]. split.
  - intros i img Hi Hr.
    destruct (S1 i img (fun d => referenced d i = true)) as [Hi1 Hr1]; [|by auto|done|done|].
    { intros d _ Hq. unfold get_abandoned_images. by rewrite Hq, andb_false_r. }
    apply (S2 i img (fun d => referenced d i = true)); [|by auto|done|done].
    intros d _ Hq. unfold get_reclaimable_images. by rewrite Hq, andb_false_r.
  - intros i img t Hi Ht Hg.
    destruct (S1 i img (fun _ => True)) as [Hi1 _]; [|done|done|done|].
    { intros d _ _. unfold get_abandoned_images. rewrite bool_decide_eq_false_2 by congruence.
      by rewrite andb_false_r. }
    apply (S2 i img (fun _ => True)); [|done|done|done].
    intros d _ _. unfold get_reclaimable_images. rewrite Ht. destruct (Z.ltb_spec t (now - grace)); [lia|done].
Qed.

(** ** Witnesses *)

Definition demo_cfg : storage_settings :=
  {| S3_PUBLIC_BASE_URL := lit "https://cdn.example"; S3_BUCKET_NAME := lit "b"; AWS_REGION := lit "r";
     ALLOWED_IMAGE_TYPES := [lit "image/jpeg"; lit "image/png"] |}.

Definition demo_pending : ustr := lit "pending/01890a5d-ac96-774b-bcce-b302099a8057/dog.png".
Definition demo_object : s3obj := {| o_data := [1; 2; 3]; o_type := lit "image/png" |}.

Definition demo_user : User :=
  {| user_version := 1; email := lit "a@b.c"; password := lit "h"; nickname := lit "n";
     user_profile_image_id := None; role := lit "USER"; status := ACTIVE;
     user_created_at := 0; user_updated_at := 0; user_deleted_at := None |}.

Definition demo_media_world : world :=
  empty_world <| w_db := empty_db <| users := {[7 := demo_user]} |> |>
              <| w_s3 := {[MEDIA_PREFIX ++ demo_pending := demo_object]} |>.

(** An injective stand-in for the store's ETag. *)
Definition demo_etag (data : list Z) : ustr := 34 :: data.

Definition demo_upload := @confirm_presigned_upload ascii_db demo_etag demo_cfg 1000 99 (lit "01H") demo_pending (lit "post") (Some 3) 7.

Definition demo_reserve := @reserve_upload ascii_db demo_etag demo_cfg 1000 99 (lit "01H") demo_pending (lit "post") (Some 3) (Some 7) demo_media_world.
Definition demo_finish (rs : reserved) (w : world) : world := (@finish_upload demo_etag unit rs (fun _ => mret tt) w).2.

Lemma demo_upload_stored : match demo_reserve with (inr rs, w1) => bool_decide (is_Some (w_s3 (demo_finish rs w1) !! lit "media/post/01H.png")) | _ => false end = true.
Proof. vm_compute. reflexivity. Qed.

Lemma media_no_orphan_objects_witness : exists rs w1 i img, demo_reserve = (inr rs, w1) /\
  images (w_db (demo_finish rs w1)) !! i = Some img /\ s3_object_key (file_key img) = Some (lit "media/post/01H.png").
Proof.
  pose proof demo_upload_stored as Hs. destruct demo_reserve as [[e|rs] w1] eqn:Er; [discriminate|].
  apply bool_decide_eq_true in Hs as [o Ho]. exists rs, w1.
  assert (@media_reachable ascii_db demo_etag demo_cfg {| ms_world := demo_finish rs w1; ms_reserved := [rs] |}) as Hr.
  { eapply mr_step; [eapply mr_step|].
    - apply (mr_init _ _ demo_media_world). intros k o' Hk Hp. exfalso.
      cbn in Hk. apply lookup_singleton_Some in Hk as [<- _]. vm_compute in Hp. discriminate.
    - eapply (ms_reserve _ _ demo_media_world [] 1000 99 (lit "01H") demo_pending (lit "post") (Some 3) (Some 7)).
      + intros r' Hr'. by apply not_elem_of_nil in Hr'.
      + exact Er.
    - apply (ms_finish _ _ unit w1 [rs] rs (fun _ => mret tt)); [apply list_elem_of_here|by intros ??]. }
  destruct (@media_no_orphan_objects ascii_db demo_etag demo_cfg _ Hr (lit "media/post/01H.png") o) as (i & img & Hi); [exact Ho|reflexivity|].
  by exists i, img.
Defined.

Lemma confirm_upload_promotes_validated_witness :
  exists i img w' k o, demo_upload demo_media_world = (inr (i, img), w') /\ img_deleted_at img = None /\
    w_s3 w' !! k = Some o /\ o_type o = lit "image/png".
Proof.
  destruct (demo_upload demo_media_world) as [[e|[i img]] w'] eqn:E; [vm_compute in E; discriminate|].
  destruct (@confirm_upload_promotes_validated ascii_db demo_etag demo_cfg 1000 99 (lit "01H") demo_pending
              (lit "post") (Some 3) 7 demo_media_world i img w') as (_ & Hd & _ & ct & _ & _ & k & o & _ & Ho & _ & _ & _ & Ht).
  - intros x y [=]. assumption.
  - in_lit.
  - exact E.
  - exists i, img, w', k, o. split; [reflexivity|]. split; [exact Hd|]. split; [exact Ho|].
    apply (Ht (MEDIA_PREFIX ++ demo_pending) (lit "image/png")); [vm_compute; reflexivity|].
    split; [|apply Forall_nil_2]. cbn [w_s3 demo_media_world over]. intros o'. rewrite lookup_singleton_eq. by intros [= <-].
Defined.

(** Without the presigned condition the type could change under the same bytes. *)
Lemma promoted_type_not_compared :
  let w := demo_media_world <| w_s3_sched := [{| s3_fault := NoFault; s3_uploads := [] |};
    {| s3_fault := NoFault; s3_uploads := [(drop 14 (MEDIA_PREFIX ++ demo_pending), {| o_data := [1; 2; 3]; o_type := lit "text/html" |})] |}] |> in
  match demo_upload w with
  | (inr (_, img), w') => content_type img = Some (lit "image/png") /\ o_type <$> w_s3 w' !! lit "media/post/01H.png" = Some (lit "text/html")
  | _ => False
  end.
Proof. vm_compute. by split. Qed.
