(* ===== verification/Search.v ===== *)
(** * Search terms and hashtags ([posts/repository.py], [posts/services/post_service.py])

    Query validation and tokenisation, the ILIKE pattern a token becomes, and
    hashtag normalisation.  The pattern language and its case folding are
    PostgreSQL's. *)

From S2P Require Import Prelude Common.

(** ** PostgreSQL's ILIKE

    Both sides are folded code point by code point, then matched: [%] any
    sequence, [_] any one, backslash takes the next literally (a pattern may
    not end in one). *)

Class PgFold := {
  pg_fold : Z -> Z;
  pg_fold_special : forall c, c = 92 \/ c = 37 \/ c = 95 -> pg_fold c = c;
  pg_fold_plain : forall c, pg_fold c = 92 \/ pg_fold c = 37 \/ pg_fold c = 95 -> pg_fold c = c;
}.

(** Does [k] accept some suffix of [t]? *)
Fixpoint any_suffix (k : ustr -> bool) (t : ustr) : bool :=
  k t || match t with [] => false | _ :: t' => any_suffix k t' end.

Fixpoint sql_like (pat txt : ustr) {struct pat} : bool :=
  match pat with
  | [] => match txt with [] => true | _ => false end
  | p :: pat' =>
      if p =? 37 then any_suffix (sql_like pat') txt
      else if p =? 95 then match txt with [] => false | _ :: txt' => sql_like pat' txt' end
      else if p =? 92 then
        match pat' with
        | [] => false
        | q :: pat'' => match txt with [] => false | c :: txt' => (q =? c) && sql_like pat'' txt' end
        end
      else match txt with [] => false | c :: txt' => (p =? c) && sql_like pat' txt' end
  end.

Definition ilike `{PgFold} (txt pat : ustr) : bool := sql_like (map pg_fold pat) (map pg_fold txt).

(** ** Query validation *)

Record ParsedSearch := { tag : option ustr; tokens : list ustr }.

Section Queries.
Context `{UnicodeDB}.

Definition is_hangul (c : Z) : bool := between 44032 55203 c.

(** [str.isdigit]: non-empty and all digits. *)
Definition str_isdigit (s : ustr) : bool :=
  match s with [] => false | _ => forallb (fun c => if c <? 128 then between 48 57 c else u_isdigit c) s end.

Definition min_token_length (token : ustr) : Z :=
  if existsb is_hangul token then 2 else if str_isdigit token then 2 else 3.

Definition is_token_too_short (token : ustr) : bool := py_len token <? min_token_length token.

Definition validate_search_query (q : option ustr) : exn + option ParsedSearch :=
  match q with
  | None => inr None
  | Some q =>
      let stripped := strip q in
      if decide (stripped = []) then inr None
      else if startswith (lit "#") stripped then
        let tag_name := lower (strip (lstrip_by (fun c => c =? 35) stripped)) in
        if decide (tag_name = []) then inl InvalidRequestException
        else inr (Some {| tag := Some tag_name; tokens := [] |})
      else
        let toks := split_ws stripped in
        if existsb is_token_too_short toks then inl InvalidRequestException
        else inr (Some {| tag := None; tokens := toks |})
  end.

(** ** Hashtags *)

(** The class kept by [_HASHTAG_ALLOWED_RE]. *)
Definition hashtag_char (c : Z) : bool :=
  between 48 57 c || between 97 122 c || is_hangul c || (c =? 95).

Definition normalize_hashtag (v : ustr) : ustr :=
  let s := strip v in
  let s := if startswith (lit "#") s then strip (drop 1 s) else s in
  let s := concat (split_ws (lower s)) in
  take 50 (List.filter hashtag_char s).

Definition normalize_hashtags_step (out : list ustr) (v : ustr) : list ustr :=
  let s := normalize_hashtag v in
  if bool_decide (s = [] \/ s ∈ out) then out else out ++ [s].

Definition normalize_hashtags (raw : list ustr) : list ustr := fold_left normalize_hashtags_step raw [].
End Queries.

(** ** Patterns *)

Definition escape_ilike_token (token : ustr) : ustr :=
  replace (lit "_") (lit "\_") (replace (lit "%") (lit "\%") (replace (lit "\") (lit "\\") token)).

Definition token_pattern (token : ustr) : ustr := lit "%" ++ escape_ilike_token token ++ lit "%".

(** ** Lemmas *)

Lemma replace_single c rep s : replace [c] rep s = flat_map (fun d => if d =? c then rep else [d]) s.
Proof.
  unfold replace.
  assert (forall f, (length s <= f)%nat -> replace_fuel f [c] rep s = flat_map (fun d => if d =? c then rep else [d]) s) as H;
    [|by apply H].
  induction s as [|d s IH]; intros f Hf; [by destruct f|].
  destruct f as [|f]; cbn [length] in Hf; [lia|].
  cbn [replace_fuel startswith flat_map length drop]. rewrite andb_true_r, (Z.eqb_sym d c).
  destruct (c =? d); rewrite IH by lia; done.
Qed.

Definition escape_char (c : Z) : ustr := if (c =? 92) || (c =? 37) || (c =? 95) then [92; c] else [c].

Lemma escape_ilike_token_char token : escape_ilike_token token = flat_map escape_char token.
Proof.
  unfold escape_ilike_token. change (lit "\") with [92]. change (lit "%") with [37]. change (lit "_") with [95].
  rewrite !replace_single. change (lit "\\") with [92; 92]. change (lit "\%") with [92; 37]. change (lit "\_") with [92; 95].
  induction token as [|c token IH]; [done|]. cbn [flat_map]. rewrite !flat_map_app, IH. f_equal. unfold escape_char.
  destruct (Z.eqb_spec c 92) as [->|]; [done|]. cbn [flat_map app orb].
  destruct (Z.eqb_spec c 37) as [->|]; [done|]. cbn [flat_map app orb].
  destruct (Z.eqb_spec c 95) as [->|]; reflexivity.
Qed.

Lemma like_escaped tok rest txt :
  sql_like (flat_map escape_char tok ++ rest) txt = startswith tok txt && sql_like rest (drop (length tok) txt).
Proof.
  revert txt. induction tok as [|c tok IH]; intros txt; [done|].
  cbn [flat_map]. rewrite <-app_assoc. set (X := flat_map escape_char tok ++ rest) in *.
  assert (sql_like (escape_char c ++ X) txt = match txt with [] => false | d :: t => (c =? d) && sql_like X t end) as ->.
  { unfold escape_char. destruct (_ || _) eqn:E; [done|]. apply orb_false_iff in E as [[E1 E2]%orb_false_iff E3].
    cbn [app sql_like]. by rewrite E1, E2, E3. }
  destruct txt as [|d txt]; [done|]. cbn [startswith length drop]. by destruct (c =? d); cbn; [rewrite IH|].
Qed.

Lemma like_percent_end txt : sql_like [37] txt = true.
Proof. cbn. induction txt as [|c txt IH]; [done|]. cbn. exact IH. Qed.

Lemma any_suffix_infix tok txt :
  any_suffix (fun t => startswith tok t) txt = is_infix tok txt.
Proof. induction txt as [|c txt IH]; cbn; [done|]. by rewrite IH. Qed.

Lemma map_fold_escape `{PgFold} tok :
  map pg_fold (flat_map escape_char tok) = flat_map escape_char (map pg_fold tok).
Proof.
  induction tok as [|c tok IH]; [done|]. cbn. rewrite map_app, IH. f_equal. unfold escape_char.
  assert ((pg_fold c =? 92) || (pg_fold c =? 37) || (pg_fold c =? 95) = (c =? 92) || (c =? 37) || (c =? 95)) as ->.
  { apply eq_true_iff_eq. rewrite !orb_true_iff, !Z.eqb_eq. split; intros Hc.
    - assert (pg_fold c = c) by (apply pg_fold_plain; tauto). congruence.
    - assert (pg_fold c = c) by (apply pg_fold_special; tauto). rewrite !H0. done. }
  destruct (_ || _); cbn; [|done]. by rewrite (pg_fold_special 92) by tauto.
Qed.

Lemma split_ws_aux_nospace acc s :
  Forall (fun c => is_space c = false) acc ->
  Forall (fun w => w <> [] /\ Forall (fun c => is_space c = false) w) (split_ws_aux acc s).
Proof.
  revert acc. induction s as [|c s IH]; intros acc Ha; cbn.
  - destruct acc as [|a acc]; [constructor|]. repeat constructor.
    + intros E. apply (f_equal length) in E. rewrite length_reverse in E. done.
    + by apply Forall_reverse.
  - destruct (is_space c) eqn:Ec.
    + destruct acc as [|a acc]; [by apply IH|]. constructor; [|by apply IH]. split.
      * intros E. apply (f_equal length) in E. rewrite length_reverse in E. done.
      * by apply Forall_reverse.
    + apply IH. by constructor.
Qed.

(** The invariant of the normalisation loop. *)
Lemma normalize_hashtags_inv `{UnicodeDB} raw out :
  NoDup out -> Forall (fun s => s <> [] /\ (length s <= 50)%nat /\ forallb hashtag_char s = true) out ->
  let res := fold_left normalize_hashtags_step raw out in
  NoDup res /\ Forall (fun s => s <> [] /\ (length s <= 50)%nat /\ forallb hashtag_char s = true) res /\
  (forall s, s ∈ res <-> s ∈ out \/ (s <> [] /\ exists v, v ∈ raw /\ normalize_hashtag v = s)).
Proof.
  revert out. induction raw as [|v raw IH]; intros out Hnd HF; cbn.
  { split; [done|]. split; [done|]. intros s. split; [tauto|]. intros [?|(_ & v & Hv & _)]; [done|].
    by apply not_elem_of_nil in Hv. }
  unfold normalize_hashtags_step at 2 4 6. set (s0 := normalize_hashtag v).
  case_bool_decide as Hc.
  - destruct (IH out Hnd HF) as (H1 & H2 & H3). split; [done|]. split; [done|]. intros s. rewrite H3.
    setoid_rewrite elem_of_cons. split.
    + intros [?|(? & v' & ? & ?)]; [tauto|]. right. split; [done|]. eauto.
    + intros [?|(Hne & v' & [->|?] & E)]; [tauto| |right; eauto]. fold s0 in E. subst s. destruct Hc; [done|tauto].
  - assert (s0 <> [] /\ s0 ∉ out) as [Hne Hout] by (split; intros ?; apply Hc; tauto).
    destruct (IH (out ++ [s0])) as (H1 & H2 & H3).
    + apply NoDup_app. split; [done|]. split; [|apply NoDup_singleton]. intros x Hx ->%list_elem_of_singleton. done.
    + apply Forall_app. split; [done|]. apply Forall_singleton. split; [done|]. split.
      * unfold s0, normalize_hashtag. rewrite length_take. apply Nat.le_min_l.
      * apply forallb_forall. intros c Hin. unfold s0, normalize_hashtag in Hin.
        apply list_elem_of_In, elem_of_take in Hin as (n & Hn & _). apply list_elem_of_lookup_2, list_elem_of_In, filter_In in Hn.
        tauto.
    + split; [done|]. split; [done|]. intros s. rewrite H3. setoid_rewrite elem_of_cons.
      rewrite elem_of_app, list_elem_of_singleton. split.
      * intros [[?| ->]|(? & v' & ? & ?)]; [tauto|right; split; [done|]; eauto|right; split; [done|]; eauto].
      * intros [?|(Hs & v' & [->|?] & E)]; [tauto|left; right; done|right; split; [done|]; eauto].
Qed.

(** ** Properties *)

(** A search token matches literally: the pattern built for a token matches
    a text exactly when the folded token occurs in the folded text, so percent
    signs, underscores and backslashes of the user are not wildcards. *)
Theorem search_token_matches_literally `{PgFold} token txt :
  ilike txt (token_pattern token) = is_infix (map pg_fold token) (map pg_fold txt).
Proof.
  unfold ilike, token_pattern. rewrite escape_ilike_token_char, !map_app, map_fold_escape.
  change (lit "%") with [37]. cbn [map app]. rewrite (pg_fold_special 37) by tauto.
  cbn [sql_like Z.eqb Pos.eqb]. rewrite <-any_suffix_infix. generalize (map pg_fold txt) as t. intros t.
  generalize (map pg_fold token) as k. intros k.
  induction t as [|c t IH]; cbn [any_suffix]; rewrite like_escaped, like_percent_end, andb_true_r; [done|].
  by rewrite IH.
Qed.

(** Query validation decides every input: blank queries are no search, a
    tag search has a non-empty lower-cased tag, and an accepted token search has
    at least one token, every one of them free of blanks and at least two code
    points long (three unless it has Hangul or is all digits); the only error is
    the 400. *)
Theorem search_query_validated `{UnicodeDB} (q : option ustr) :
  match validate_search_query q with
  | inl e => e = InvalidRequestException
  | inr None => match q with Some s => strip s = [] | None => True end
  | inr (Some {| tag := Some t; tokens := ts |}) => t <> [] /\ ts = []
  | inr (Some {| tag := None; tokens := ts |}) =>
      ts <> [] /\ Forall (fun t => Forall (fun c => is_space c = false) t /\ 2 <= py_len t /\
        (py_len t < 3 -> existsb is_hangul t = true \/ str_isdigit t = true)) ts
  end.
Proof.
  unfold validate_search_query. destruct q as [q|]; [|done].
  destruct (decide (strip q = [])) as [|Hne]; [done|].
  destruct (startswith (lit "#") (strip q)); [by destruct (decide _)|].
  destruct (existsb is_token_too_short (split_ws (strip q))) eqn:Ex; [done|]. split.
  - assert (exists c, c ∈ strip q /\ is_space c = false) as (c & Hin & Hc).
    { unfold strip, strip_by, rstrip_by, lstrip_by in *.
      destruct (drop_while is_space (reverse (drop_while is_space q))) as [|c s] eqn:E; [done|].
      exists c. split; [rewrite elem_of_reverse; apply elem_of_cons; by left|].
      clear Hne Ex. revert E. generalize (reverse (drop_while is_space q)) as l. induction l as [|d l IH]; [done|].
      cbn. destruct (is_space d) eqn:Ed; [done|]. by intros [= -> _]. }
    intros E. revert Hin. cut (forall acc, (acc <> [] \/ c ∈ strip q) -> split_ws_aux acc (strip q) <> []).
    { intros Hcut Hin. by apply (Hcut []); [right|]. }
    clear E Ex Hne. induction (strip q) as [|d s IH]; intros acc Hacc; cbn.
    + destruct Hacc as [?|?%not_elem_of_nil]; [by destruct acc|done].
    + destruct (is_space d) eqn:Ed.
      * destruct acc; [|done]. apply IH. destruct Hacc as [?|[->|?]%elem_of_cons]; [done|congruence|tauto].
      * apply IH. by left.
  - rewrite Forall_forall. intros t Ht.
    pose proof (split_ws_aux_nospace [] (strip q) (Forall_nil_2 _)) as HF. rewrite Forall_forall in HF.
    destruct (HF t Ht) as [_ Hns]. split; [done|].
    assert (is_token_too_short t = false) as Hl.
    { destruct (is_token_too_short t) eqn:E; [|done]. rewrite <-Ex. symmetry. apply existsb_exists.
      exists t. split; [by apply list_elem_of_In|done]. }
    unfold is_token_too_short, min_token_length in Hl. apply Z.ltb_ge in Hl.
    destruct (existsb is_hangul t); [split; [done|tauto]|]. destruct (str_isdigit t); [split; [done|tauto]|].
    split; [lia|]. lia.
Qed.

(** Normalised hashtags: pairwise distinct, non-empty, at most fifty
    characters of the allowed alphabet, and exactly the normal forms of the raw
    tags that have one. *)
Theorem hashtags_normalized `{UnicodeDB} (raw : list ustr) :
  NoDup (normalize_hashtags raw) /\
  Forall (fun s => s <> [] /\ (length s <= 50)%nat /\ forallb hashtag_char s = true) (normalize_hashtags raw) /\
  (forall s, s ∈ normalize_hashtags raw <-> s <> [] /\ exists v, v ∈ raw /\ normalize_hashtag v = s).
Proof.
  destruct (normalize_hashtags_inv raw []) as (H1 & H2 & H3); [constructor|constructor|].
  split; [done|]. split; [done|]. intros s. rewrite (H3 s). split; [|tauto].
  intros [?%not_elem_of_nil|?]; tauto.
Qed.

(** ** Witnesses *)

Definition ascii_fold : PgFold.
Proof.
  refine {| pg_fold := fun c => if between 65 90 c then c + 32 else c |}; unfold between; intros c Hc.
  - destruct Hc as [->|[->| ->]]; reflexivity.
  - destruct (Z.leb_spec 65 c), (Z.leb_spec c 90); cbn in *; lia.
Defined.

Lemma search_token_matches_literally_witness :
  ilike (H := ascii_fold) (lit "It is 100% TRUE") (token_pattern (lit "0% t")) = true /\
  ilike (H := ascii_fold) (lit "It is 1000 true") (token_pattern (lit "0%")) = false.
Proof.
  split; (etransitivity; [apply (search_token_matches_literally (H := ascii_fold))|]); vm_compute; reflexivity.
Defined.
