(* ===== verification/Posts.v ===== *)
(** * Posts ([app/domain/posts])

    Visibility, the repository's statements, the keyset feed, and the service's
    create, edit and delete with its optimistic lock.  Sessions are opened with
    [autoflush=False] ([app/db/engine.py]): rows changed or added through the ORM
    reach the database when the transaction commits. *)

From S2P Require Import Prelude Ids Common Redis Db World Media Search.

Definition POST_IMAGES_MAX : Z := 5.

(** ** Visibility *)

Definition post_visible (current_user_id : option Z) (d : db) (p : Post) : bool :=
  bool_decide (deleted_at p = None) && negb (is_blinded p) && author_not_blocked (user_id p) current_user_id d.

Definition post_is_visible (post_id : Z) (current_user_id : option Z) (d : db) : bool :=
  match posts d !! post_id with Some p => post_visible current_user_id d p | None => false end.

(** [VisiblePost | None]: the outer option is visibility, the inner the author. *)
Definition get_visible_post_author (post_id : Z) (current_user_id : option Z) (d : db) : option (option Z) :=
  p ← posts d !! post_id; if post_visible current_user_id d p then Some (user_id p) else None.

Definition get_post_author_id (post_id : Z) (d : db) : option Z :=
  p ← posts d !! post_id; if deleted_at p then None else user_id p.

(** ** Counters and moderation columns *)

(** [_update_post]: always touches [updated_at], never [version]. *)
Definition update_post_columns {A} (now post_id : Z) (alive : bool) (returning : Z -> Post -> option A)
    (values : Post -> Post) : M db (option A) :=
  update_one_returning
    (fun k p => bool_decide (k = post_id) && (negb alive || bool_decide (deleted_at p = None)))
    (fun p => values p <| updated_at := now |>) returning.

Definition is_some {A} (m : M db (option A)) : M db bool := o ← m; mret (bool_decide (is_Some o)).
Definition ret_id (k : Z) (_ : Post) : option Z := Some k.

Definition increment_view_count (now post_id delta : Z) : M db bool :=
  if delta <=? 0 then mret true
  else is_some (update_post_columns now post_id true ret_id (fun p => p <| view_count := view_count p + delta |>)).

Definition increment_report_count (now post_id : Z) : M db (option Z) :=
  update_one_returning
    (fun k p => bool_decide (k = post_id) && (bool_decide (deleted_at p = None) && bool_decide (is_Some (user_id p))))
    (fun p => p <| report_count := report_count p + 1 |> <| updated_at := now |>)
    (fun _ p => Some (report_count p)).

Definition set_blinded (now post_id : Z) : M db bool :=
  is_some (update_post_columns now post_id true ret_id (fun p => p <| is_blinded := true |>)).
Definition unblind (now post_id : Z) : M db bool :=
  is_some (update_post_columns now post_id true ret_id (fun p => p <| is_blinded := false |>)).
Definition reset_reports (now post_id : Z) : M db bool :=
  is_some (update_post_columns now post_id true ret_id
             (fun p => p <| report_count := 0 |> <| is_blinded := false |>)).

Definition get_like_count (post_id : Z) : M db Z :=
  gets (fun d => match posts d !! post_id with Some p => like_count p | None => 0 end).

(** [row if row is not None else 0] *)
Definition or_zero (m : M db (option Z)) : M db Z := o ← m; mret (default 0 o).

Definition increment_like_count (now post_id : Z) : M db Z :=
  or_zero (update_post_columns now post_id false (fun _ p => Some (like_count p))
             (fun p => p <| like_count := like_count p + 1 |>)).
Definition decrement_like_count (now post_id : Z) : M db Z :=
  or_zero (update_post_columns now post_id false (fun _ p => Some (like_count p))
             (fun p => p <| like_count := Z.max (like_count p - 1) 0 |>)).

Definition increment_comment_count (now post_id : Z) : M db bool :=
  is_some (update_post_columns now post_id false ret_id (fun p => p <| comment_count := comment_count p + 1 |>)).
Definition decrement_comment_count (now post_id : Z) : M db bool :=
  is_some (update_post_columns now post_id false ret_id
             (fun p => p <| comment_count := Z.max (comment_count p - 1) 0 |>)).
Definition set_comment_count (now post_id value : Z) : M db bool :=
  is_some (update_post_columns now post_id false ret_id (fun p => p <| comment_count := Z.max 0 value |>)).

Definition decrement_post_like_counts_for_users (user_ids : list Z) : M db unit :=
  decrement_counter_by_link_owner post_likes like_count (fun n (p : Post) => p <| like_count := n |>) user_ids.

(** ** Hashtags *)

Definition hashtag_id (name : ustr) (d : db) : option Z :=
  fst <$> List.find (fun p => bool_decide (p.2 = name)) (map_to_list (hashtags d)).

(** [INSERT INTO hashtags ... ON CONFLICT (name) DO NOTHING], one row; the
    sequence advances whether or not the row conflicts. *)
Definition upsert_hashtag (d : db) (name : ustr) : db :=
  let n := hashtag_seq d + 1 in
  let d := d <| hashtag_seq := n |> in
  match hashtag_id name d with
  | Some _ => d
  | None => d <| hashtags := <[n := name]> (hashtags d) |>
  end.

Definition sync_post_hashtags (post_id : Z) (hashtag_names : list ustr) : M db unit := fun d =>
  let d := d <| post_hashtags := filter (fun l => l.1 <> post_id) (post_hashtags d) |> in
  match hashtag_names with
  | [] => (inr tt, d)
  | _ =>
      let d := fold_left upsert_hashtag hashtag_names d in
      let ids := omap (fun n => hashtag_id n d) hashtag_names in
      if bool_decide (is_Some (posts d !! post_id)) || bool_decide (ids = [])
      then (inr tt, d <| post_hashtags := list_to_set (map (pair post_id) ids) ∪ post_hashtags d |>)
      else (inl ForeignKeyViolation, d)
  end.

(** ** Creating *)

(** A flushed PostImage: unique image, existing post and image. *)
Definition insert_post_image (now post_id : Z) (row : Z * Z) : M db unit := fun d =>
  let '(new_id, image_id) := row in
  if existsb (fun p => bool_decide (pi_image_id p.2 = image_id)) (map_to_list (post_images d))
  then (inl (UniqueViolation (lit "uq_post_images_image_id")), d)
  else insert_row new_id {| pi_post_id := post_id; pi_image_id := image_id; pi_created_at := now |}
         (fun d => bool_decide (is_Some (posts d !! post_id)) && bool_decide (is_Some (images d !! image_id))) d.

Definition ensure_image_limit (image_ids : option (list Z)) : M db unit :=
  match image_ids with
  | Some ids => if POST_IMAGES_MAX <? py_len ids then raise InvalidRequestException else mret tt
  | None => mret tt
  end.

Definition image_ids_of (image_rows : option (list (Z * Z))) : option (list Z) :=
  (fun l => l.*2) <$> image_rows.

(** [image_rows] pairs each image with the identifier drawn for its link. *)
Definition create_post_row (now new_id user : Z) (ttl cnt : ustr) (image_rows : option (list (Z * Z)))
    (category : option Z) (hashtag_names : option (list ustr)) : M db Z :=
  ensure_image_limit (image_ids_of image_rows) ;;
  insert_row new_id
    {| user_id := Some user; title := ttl; content := cnt; category_id := category; view_count := 0;
       like_count := 0; comment_count := 0; report_count := 0; is_blinded := false;
       created_at := now; updated_at := now; deleted_at := None; version := 1 |}
    (fun d => bool_decide (is_Some (users d !! user)) &&
              match category with Some c => bool_decide (c ∈ categories d) | None => true end) ;;
  match hashtag_names with Some names => sync_post_hashtags new_id names | None => mret tt end ;;
  for_each (default [] image_rows) (insert_post_image now new_id) ;;
  mret new_id.

(** ** Reading *)

Definition pg_match `{PgFold} (pattern : ustr) (txt : ustr) : bool := ilike txt pattern.

(** [_hashtag_match_exists] *)
Definition hashtag_match_exists (d : db) (post_id : Z) (name_predicate : ustr -> bool) : bool :=
  existsb (fun l => bool_decide (l.1 = post_id) && match hashtags d !! l.2 with Some n => name_predicate n | None => false end)
    (elements (post_hashtags d)).

Definition token_match_clause `{PgFold} (d : db) (post_id : Z) (p : Post) (token : ustr) : bool :=
  let pattern := token_pattern token in
  pg_match pattern (title p) || pg_match pattern (content p) || hashtag_match_exists d post_id (pg_match pattern).

Definition search_filter `{PgFold} (search : option ParsedSearch) (d : db) (post_id : Z) (p : Post) : bool :=
  match search with
  | None => true
  | Some s =>
      match tag s with
      | Some t => hashtag_match_exists d post_id (fun n => bool_decide (n = t))
      | None => forallb (token_match_clause d post_id p) (tokens s)
      end
  end.

Section Feed.
Context `{PgFold}.

Definition feed_conds (search : option ParsedSearch) (category : option Z) (viewer : option Z) (d : db)
    (i : Z) (p : Post) : bool :=
  post_visible viewer d p && search_filter search d i p &&
  match category with Some c => bool_decide (category_id p = Some c) | None => true end.

(** [ORDER BY id DESC LIMIT size + 1] *)
Definition get_all_posts (sz : Z) (cursor : option Z) (search : option ParsedSearch) (category viewer : option Z)
    (d : db) : list (Z * Post) :=
  take (Z.to_nat (sz + 1))
    (order_by fst zdesc
       (select_where (fun i p => feed_conds search category viewer d i p &&
                                 match cursor with Some c => i <? c | None => true end) d)).

Definition get_liked_post_ids_for_user (user : Z) (post_ids : list Z) (d : db) : list Z :=
  List.filter (fun i => bool_decide (is_Some (post_likes d !! (i, user)))) post_ids.

(** What the response carries of a post. *)
Record PostResponse := {
  pr_id : Z; pr_post : Post; pr_view_count : Z; pr_is_liked : bool;
  pr_files : list (Z * Z); pr_hashtags : list Z;
}.

Definition post_files (d : db) (post_id : Z) : list (Z * Z) :=
  (fun p => (p.1, pi_image_id p.2)) <$>
    order_by fst Z.ltb (select_where (fun _ r => bool_decide (pi_post_id r = post_id)) d).

Definition post_response (d : db) (row : Z * Post) (liked : bool) : PostResponse :=
  {| pr_id := row.1; pr_post := row.2; pr_view_count := view_count row.2; pr_is_liked := liked;
     pr_files := post_files d row.1;
     pr_hashtags := snd <$> List.filter (fun l => bool_decide (l.1 = row.1)) (elements (post_hashtags d)) |}.

Definition is_edited (r : PostResponse) : bool := 1 <? version (pr_post r).

(** The page inside [get_posts]' transaction. *)
Definition posts_page (sz : Z) (cursor : option Z) (search : option ParsedSearch) (category viewer : option Z) (d : db)
  : list PostResponse * bool :=
  let '(rws, has_more) := split_page (get_all_posts sz cursor search category viewer d) sz in
  let liked := match viewer with
               | Some u => get_liked_post_ids_for_user u (fst <$> rws) d
               | None => []
               end in
  ((fun r => post_response d r (bool_decide (r.1 ∈ liked))) <$> rws, has_more).

(** [get_post_detail] of the repository. *)
Definition post_detail (post_id : Z) (viewer : option Z) (d : db) : option PostResponse :=
  p ← posts d !! post_id;
  if post_visible viewer d p
  then Some (post_response d (post_id, p)
               match viewer with Some u => bool_decide (is_Some (post_likes d !! (post_id, u))) | None => false end)
  else None.
End Feed.

(** ** Service: references *)

Definition CATEGORY_CACHE_TTL : Z := 300.

(** The process-wide cache; an empty table is not cached. *)
Definition category_exists (category : Z) : M world bool := fun w =>
  let fresh := match w_category_cache w with Some (e, _) => w_clock w <? e | None => false end in
  if fresh then
    (inr (match w_category_cache w with Some (_, ids) => bool_decide (category ∈ ids) | None => false end), w)
  else
    let ids := categories (w_db w) in
    if decide (ids = ∅) then (inr false, w)
    else (inr (bool_decide (category ∈ ids)), w <| w_category_cache := Some (w_clock w + CATEGORY_CACHE_TTL, ids) |>).

Definition validate_refs (category : option Z) (image_ids : option (list Z)) : M world unit :=
  match category with
  | Some c => ok ← category_exists c; if ok : bool then mret tt else raise InvalidRequestException
  | None => mret tt
  end ;;
  match image_ids with
  | Some ids => on_db (assert_images_attachable ids)
  | None => mret tt
  end.

Record PostCreateRequest := {
  cr_title : ustr; cr_content : ustr; cr_images : option (list (Z * Z)); cr_category : option Z;
  cr_hashtags : option (list ustr);
}.

Section Service.
Context `{UnicodeDB} `{PgFold}.

Definition create_post (now new_id user : Z) (data : PostCreateRequest) : M world Z :=
  tx (validate_refs (cr_category data) (image_ids_of (cr_images data)) ;;
      on_db (create_post_row now new_id user (cr_title data) (cr_content data) (cr_images data) (cr_category data)
               (normalize_hashtags <$> cr_hashtags data))).

Definition get_posts (sz : Z) (q : option ustr) (category viewer cursor : option Z) : M world (list PostResponse * bool) :=
  match validate_search_query q with
  | inl e => raise e
  | inr search =>
      tx (validate_refs category None ;;
          gets (fun w => posts_page sz cursor search category viewer (w_db w)))
  end.

(** ** Service: editing

    The transaction of an edit, as other transactions can see it: [update_begin]
    reads, [update_commit] applies what the edit decided (the statements it
    issued, then the ORM's versioned UPDATE at the commit). *)

Record PostUpdateRequest := {
  up_title : option ustr; up_content : option ustr; up_images : option (list (Z * Z));
  up_category : option Z; up_hashtags : option (list ustr); up_version : option Z;
}.

Record edit := {
  ed_post_id : Z; ed_read_version : Z; ed_apply : Post -> Post; ed_hashtags : option (list ustr);
  ed_remove : list Z; ed_add : list (Z * Z);
}.

Definition set_opt {A} (o : option A) (f : A -> Post -> Post) (p : Post) : Post :=
  match o with Some a => f a p | None => p end.

(** [set(image_ids)]: one row per image. *)
Fixpoint first_per_image (l : list (Z * Z)) : list (Z * Z) :=
  match l with
  | [] => []
  | r :: l' => r :: List.filter (fun x => negb (bool_decide (x.2 = r.2))) (first_per_image l')
  end.

(** [None] is the repository's [False]: missing, deleted or blinded. *)
Definition update_begin (now post_id : Z) (data : PostUpdateRequest) : M db (option edit) :=
  ensure_image_limit (image_ids_of (up_images data)) ;;
  d ← get;
  match posts d !! post_id with
  | Some p =>
      if bool_decide (deleted_at p = None) && negb (is_blinded p) then
        if match up_version data with Some v => negb (v =? version p) | None => false end
        then raise ConcurrentUpdateException
        else
          let old := (fun r => pi_image_id r.2) <$> select_where (fun _ r => bool_decide (pi_post_id r = post_id)) d in
          let new := default [] (up_images data) in
          mret (Some {| ed_post_id := post_id; ed_read_version := version p;
            ed_apply := fun p =>
              (set_opt (up_category data) (fun c p => p <| category_id := Some c |>)
                (set_opt (up_content data) (fun c p => p <| content := c |>)
                  (set_opt (up_title data) (fun t p => p <| title := t |>) p))) <| updated_at := now |>;
            ed_hashtags := normalize_hashtags <$> up_hashtags data;
            ed_remove := match up_images data with
                         | Some _ => List.filter (fun i => negb (bool_decide (i ∈ new.*2))) old
                         | None => []
                         end;
            ed_add := List.filter (fun r => negb (bool_decide (r.2 ∈ old))) (first_per_image new) |})
      else mret None
  | None => mret None
  end.

(** The versioned UPDATE of the mapper's [version_id_col]: no matching row is
    StaleDataError. *)
Definition flush_versioned (e : edit) : M db unit :=
  r ← update_one_returning
        (fun k p => bool_decide (k = ed_post_id e) && (version p =? ed_read_version e))
        (fun p => ed_apply e p <| version := version p + 1 |>) (fun k _ => Some k);
  match r with Some _ => mret tt | None => raise StaleDataError end.

Definition update_commit (now : Z) (e : edit) : M db unit :=
  begin_tx
    (match ed_hashtags e with Some names => sync_post_hashtags (ed_post_id e) names | None => mret tt end ;;
     (match ed_remove e with
      | [] => mret tt
      | ids => delete_rows (fun (_ : Z) r => bool_decide (pi_post_id r = ed_post_id e) && bool_decide (pi_image_id r ∈ ids)) ;;
               mret tt
      end) ;;
     flush_versioned e ;;
     for_each (ed_add e) (insert_post_image now (ed_post_id e))).

(** [PostService.update_post]: the handler around the repository call turns
    StaleDataError into the conflict answer, the commit is outside it. *)
Definition update_post (now post_id : Z) (data : PostUpdateRequest) : M world unit :=
  tx (validate_refs (up_category data) (image_ids_of (up_images data)) ;;
      found ← try_except (on_db (update_begin now post_id data))
                (fun e => if decide (e = StaleDataError) then raise ConcurrentUpdateException else raise e);
      match found with
      | None => raise PostNotFoundException
      | Some e => on_db (update_commit now e)
      end).
End Service.

(** ** Service: deleting *)

Definition soft_delete (now post_id : Z) : M db bool :=
  deleted ← is_some (update_post_columns now post_id true ret_id (fun p => p <| deleted_at := Some now |>));
  if deleted : bool then
    delete_rows (fun (_ : Z) r => bool_decide (pi_post_id r = post_id)) ;; mret true
  else mret false.

Definition soft_delete_comments_by_post (now post_id : Z) : M db unit :=
  modify (update_where (fun _ c => bool_decide (c_post_id c = post_id) && bool_decide (c_deleted_at c = None))
            (fun c : Comment => c <| c_deleted_at := Some now |>)).

Definition delete_likes_by_post_id (post_id : Z) : M db Z :=
  @delete_rows _ _ _ _ post_likes_table (fun k _ => bool_decide (k.1 = post_id)).

Definition delete_post (now post_id : Z) : M db unit :=
  begin_tx
    (ok ← soft_delete now post_id;
     if ok : bool then
       soft_delete_comments_by_post now post_id ;;
       delete_likes_by_post_id post_id ;;
       mret tt
     else raise PostNotFoundException).

(** ** Lemmas: the feed *)

Section FeedWalk.
Context `{PgFold}.
Context (sz : Z) (search : option ParsedSearch) (category viewer : option Z) (d : db).

Definition feed_rows : list (Z * Post) := select_where (feed_conds search category viewer d) d.

(** A client following [has_more] with the last id it saw. *)
Fixpoint feed_walk (fuel : nat) (cursor : option Z) : list (list PostResponse) :=
  match fuel with
  | O => []
  | S f =>
      let '(page, has_more) := posts_page sz cursor search category viewer d in
      page :: if has_more then feed_walk f (pr_id <$> last page) else []
  end.

Lemma get_all_posts_keyset cursor :
  get_all_posts sz cursor search category viewer d = keyset_fetch fst zdesc cursor sz feed_rows.
Proof.
  unfold get_all_posts, keyset_fetch, feed_rows. f_equal. f_equal.
  rewrite (select_where_and (feed_conds search category viewer d) (fun i _ => match cursor with Some c => i <? c | None => true end)).
  apply filter_ext. intros [i p]. by destruct cursor.
Qed.

Lemma feed_walk_keyset fuel cursor :
  (fun l : list PostResponse => pr_id <$> l) <$> feed_walk fuel cursor =
  (fun l : list (Z * Post) => l.*1) <$> keyset_walk fst zdesc fuel cursor sz feed_rows.
Proof.
  revert cursor. induction fuel as [|fuel IH]; intros cursor; cbn [feed_walk keyset_walk]; [done|].
  unfold posts_page. rewrite get_all_posts_keyset.
  destruct (split_page _ _) as [page more]. cbn [fmap list_fmap]. f_equal.
  - by rewrite <-list_fmap_compose.
  - destruct more; [|done]. rewrite IH. do 2 f_equal. rewrite fmap_last. rewrite <-option_fmap_compose. done.
Qed.
End FeedWalk.

(** ** Lemmas: hashtags *)

(** Serial identifiers were drawn from the sequence. *)
Definition hashtags_wf (d : db) : Prop := forall h n, hashtags d !! h = Some n -> h <= hashtag_seq d.

(** The tag names of a post. *)
Definition has_tag (d : db) (post_id : Z) (name : ustr) : Prop :=
  exists h, (post_id, h) ∈ post_hashtags d /\ hashtags d !! h = Some name.

Lemma hashtag_id_some name d h : hashtag_id name d = Some h -> hashtags d !! h = Some name.
Proof.
  unfold hashtag_id. destruct (List.find _ _) as [[k n]|] eqn:E; [|done]. cbn. intros [= <-].
  apply find_some in E as [Hin Hn]. apply bool_decide_eq_true in Hn. cbn in Hn. subst.
  by apply list_elem_of_In, elem_of_map_to_list in Hin.
Qed.

Lemma hashtag_id_none name d : hashtag_id name d = None -> forall h, hashtags d !! h <> Some name.
Proof.
  unfold hashtag_id. destruct (List.find _ _) as [[k n]|] eqn:E; [done|]. intros _ h Hh.
  eapply find_none in E; [|by apply list_elem_of_In, elem_of_map_to_list].
  apply bool_decide_eq_false in E. done.
Qed.

Lemma upsert_hashtag_spec d name : hashtags_wf d ->
  hashtags_wf (upsert_hashtag d name) /\ hashtags d ⊆ hashtags (upsert_hashtag d name) /\
  (exists h, hashtags (upsert_hashtag d name) !! h = Some name) /\
  post_hashtags (upsert_hashtag d name) = post_hashtags d /\ posts (upsert_hashtag d name) = posts d.
Proof.
  intros Hwf. unfold upsert_hashtag. set (d1 := d <| hashtag_seq := hashtag_seq d + 1 |>).
  destruct (hashtag_id name d1) as [h|] eqn:E.
  - split_and!; try done.
    + intros h' n' Hh. specialize (Hwf h' n' Hh). cbn. lia.
    + exists h. by apply hashtag_id_some in E.
  - split_and!; try done.
    + intros h' n' Hh. cbn in *. destruct (decide (h' = hashtag_seq d + 1)) as [->|]; [lia|].
      rewrite lookup_insert_ne in Hh by done. specialize (Hwf h' n' Hh). lia.
    + cbn. apply insert_subseteq. destruct (hashtags d !! (hashtag_seq d + 1)) as [n'|] eqn:En; [|done].
      specialize (Hwf _ _ En). lia.
    + eexists. cbn. apply lookup_insert_eq.
Qed.

Lemma upsert_hashtags_spec names d : hashtags_wf d ->
  let d' := fold_left upsert_hashtag names d in
  hashtags_wf d' /\ hashtags d ⊆ hashtags d' /\ (forall n, n ∈ names -> exists h, hashtags d' !! h = Some n) /\
  post_hashtags d' = post_hashtags d /\ posts d' = posts d.
Proof.
  revert d. induction names as [|n names IH]; intros d Hwf; cbn.
  { split_and!; try done. by intros ? ?%not_elem_of_nil. }
  destruct (upsert_hashtag_spec d n Hwf) as (H1 & H2 & [h Hh] & H4 & H5).
  destruct (IH _ H1) as (K1 & K2 & K3 & K4 & K5). split_and!; try congruence; [done|by etransitivity|].
  intros m [->|Hm]%elem_of_cons; [|by apply K3]. exists h. by eapply lookup_weaken.
Qed.

Lemma sync_post_hashtags_spec post_id names d :
  hashtags_wf d -> is_Some (posts d !! post_id) -> 
  exists d', sync_post_hashtags post_id names d = (inr tt, d') /\ hashtags_wf d' /\
    posts d' = posts d /\
    (forall n, has_tag d' post_id n <-> n ∈ names) /\
    (forall q n, q <> post_id -> (has_tag d q n -> has_tag d' q n)).
Proof.
  intros Hwf Hp. unfold sync_post_hashtags.
  set (d1 := d <| post_hashtags := filter (fun l => l.1 <> post_id) (post_hashtags d) |>).
  assert (hashtags_wf d1) as Hwf1 by done.
  assert (forall h, (post_id, h) ∉ post_hashtags d1) as Hnone.
  { intros h Hin. cbn in Hin. apply elem_of_filter in Hin as [Hne _]. done. }
  destruct names as [|n0 names].
  { exists d1. split_and!; try done.
    - intros n. split; [intros (h & Hh & _); by destruct (Hnone h)|by intros ?%not_elem_of_nil].
    - intros q n Hq (h & Hin & Hh). exists h. split; [|done]. cbn. apply elem_of_filter. done. }
  destruct (upsert_hashtags_spec (n0 :: names) d1 Hwf1) as (K1 & K2 & K3 & K4 & K5).
  remember (fold_left upsert_hashtag (n0 :: names) d1) as d2 eqn:Ed2. clear Ed2.
  set (ids := omap (fun n => hashtag_id n d2) (n0 :: names)).
  rewrite bool_decide_eq_true_2 by (by rewrite K5). cbn [orb].
  eexists. split; [done|]. split; [done|]. split; [exact K5|].
  assert (forall h, h ∈ ids <-> exists n, n ∈ n0 :: names /\ hashtag_id n d2 = Some h) as Hids.
  { intros h. unfold ids. by rewrite list_elem_of_omap. }
  assert (forall l, l ∈ (list_to_set (map (pair post_id) ids) : gset (Z * Z)) <-> l.1 = post_id /\ l.2 ∈ ids) as Hl.
  { intros [q h]. rewrite elem_of_list_to_set, list_elem_of_fmap. cbn. split.
    - by intros (x & [= -> ->] & Hx).
    - intros [-> Hx]. eauto. }
  split.
  - intros n. unfold has_tag. cbn [post_hashtags hashtags over]. setoid_rewrite elem_of_union. setoid_rewrite Hl. cbn [fst snd]. split.
    + intros (h & [[_ Hh]|Hin] & Hn); [|rewrite K4 in Hin; by destruct (Hnone h)].
      apply Hids in Hh as (m & Hm & Hmid). apply hashtag_id_some in Hmid. congruence.
    + intros Hn. destruct (hashtag_id n d2) as [h|] eqn:E.
      * exists h. split; [left; split; [done|]; apply Hids; eauto|]. by apply hashtag_id_some.
      * exfalso. destruct (K3 n Hn) as [h Hh]. by apply (hashtag_id_none n d2 E h).
  - intros q n Hq (h & Hin & Hh). exists h. cbn [post_hashtags hashtags over]. split.
    + apply elem_of_union. right. rewrite K4. cbn. by apply elem_of_filter.
    + by eapply lookup_weaken.
Qed.

(** ** Lemmas: creating and editing *)

Lemma upsert_hashtags_images names d : post_images (fold_left upsert_hashtag names d) = post_images d.
Proof.
  revert d. induction names as [|n names IH]; intros d; [done|]. cbn [fold_left]. rewrite IH.
  unfold upsert_hashtag. cbv zeta. by destruct (hashtag_id n _).
Qed.

Lemma insert_post_image_db now post_id row d :
  match insert_post_image now post_id row d with
  | (inr tt, d') => posts d' = posts d /\ hashtags d' = hashtags d /\ post_hashtags d' = post_hashtags d /\
      post_images d' = <[row.1 := {| pi_post_id := post_id; pi_image_id := row.2; pi_created_at := now |}]> (post_images d) /\
      post_images d !! row.1 = None /\ is_Some (images d !! row.2)
  | (inl _, d') => d' = d
  end.
Proof.
  unfold insert_post_image. destruct row as [new_id image_id]. destruct (existsb _ _); [done|].
  unfold insert_row. cbn [rows set_rows post_images_table]. destruct (post_images d !! new_id) eqn:E; [done|].
  destruct (_ && _) eqn:Er; [|done]. apply andb_true_iff in Er as [_ Hi]. apply bool_decide_eq_true in Hi. done.
Qed.

Lemma insert_post_images_db now post_id rws d :
  match for_each rws (insert_post_image now post_id) d with
  | (inr tt, d') => posts d' = posts d /\ hashtags d' = hashtags d /\ post_hashtags d' = post_hashtags d /\
      forall image, (exists k r, post_images d' !! k = Some r /\ pi_post_id r = post_id /\ pi_image_id r = image) <->
        image ∈ rws.*2 \/ (exists k r, post_images d !! k = Some r /\ pi_post_id r = post_id /\ pi_image_id r = image)
  | (inl _, _) => True
  end.
Proof.
  revert d. induction rws as [|row rws IH]; intros d; cbn [for_each].
  { split_and!; try done. intros image. cbn. split; [tauto|]. intros [?%not_elem_of_nil|?]; done. }
  unfold mbind, M_bind. pose proof (insert_post_image_db now post_id row d) as H1.
  destruct (insert_post_image now post_id row d) as [[e|[]] d1]; [done|].
  destruct H1 as (P1 & P2 & P3 & P4 & P5 & _). specialize (IH d1).
  destruct (for_each rws _ d1) as [[e|[]] d2]; [done|]. destruct IH as (Q1 & Q2 & Q3 & Q4).
  split; [congruence|]. split; [congruence|]. split; [congruence|]. intros image. rewrite Q4, P4. cbn.
  rewrite elem_of_cons. split.
  - intros [?|(k & r & Hk & Hp & Hi)]; [tauto|]. destruct (decide (k = row.1)) as [->|].
    + rewrite lookup_insert_eq in Hk. injection Hk as <-. left; left. by symmetry.
    + rewrite lookup_insert_ne in Hk by done. right. eauto.
  - intros [[->|?]|(k & r & Hk & Hp & Hi)]; [|tauto|].
    + right. eexists _, _. rewrite lookup_insert_eq. done.
    + right. exists k, r. rewrite lookup_insert_ne by congruence. done.
Qed.

(** Reference checks only read the database, and refuse with the 400. *)
Lemma validate_refs_db category image_ids w :
  w_db (validate_refs category image_ids w).2 = w_db w /\
  forall e, (validate_refs category image_ids w).1 = inl e -> e = InvalidRequestException.
Proof.
  assert (forall w2, w_db ((match image_ids with Some ids => on_db (assert_images_attachable ids) | None => mret tt end) w2).2 = w_db w2 /\
            forall e, ((match image_ids with Some ids => on_db (assert_images_attachable ids) | None => mret tt end) w2).1 = inl e ->
              e = InvalidRequestException) as Hi.
  { intros w2. destruct image_ids as [[|i ids]|]; [done| |done].
    unfold on_db, assert_images_attachable, get. unfold mbind, M_bind. destruct (forallb _ _); [done|].
    split; [done|]. by intros e [= <-]. }
  unfold validate_refs, category_exists. unfold mbind, M_bind. destruct category as [c|]; [|apply Hi].
  destruct (match w_category_cache w with Some _ => _ | None => false end).
  - destruct (match w_category_cache w with Some _ => _ | None => false end); [apply Hi|]. split; [done|]. by intros e [= <-].
  - destruct (decide _); [split; [done|]; by intros ex [= <-]|].
    destruct (bool_decide _);
      [exact (Hi (w <| w_category_cache := Some (w_clock w + CATEGORY_CACHE_TTL, categories (w_db w)) |>))
      |split; [done|]; by intros ex [= <-]].
Qed.

Lemma ensure_image_limit_spec image_ids d :
  ensure_image_limit image_ids d = (inr tt, d) \/ ensure_image_limit image_ids d = (inl InvalidRequestException, d).
Proof. unfold ensure_image_limit. destruct image_ids; [destruct (_ <? _)|]; auto. Qed.

Lemma for_each_images_error now post_id rws d e d' :
  for_each rws (insert_post_image now post_id) d = (inl e, d') -> e <> ConcurrentUpdateException.
Proof.
  revert d. induction rws as [|[k i] rws IH]; intros d; cbn [for_each]; [done|].
  unfold mbind, M_bind. unfold insert_post_image at 1, insert_row. cbn [rows set_rows post_images_table].
  destruct (existsb _ _); [by intros [= <- _]|]. destruct (post_images d !! k); [by intros [= <- _]|].
  destruct (_ && _); [|by intros [= <- _]]. by apply IH.
Qed.

(** Nothing the commit executes raises the conflict exception. *)
Lemma update_commit_no_conflict now e d d' : update_commit now e d <> (inl ConcurrentUpdateException, d').
Proof.
  unfold update_commit, begin_tx. unfold mbind, M_bind.
  set (tags := match ed_hashtags e with Some names => _ | None => _ end).
  assert (forall x d1, tags d = (inl x, d1) -> x <> ConcurrentUpdateException) as Ht.
  { subst tags. intros x d1. destruct (ed_hashtags e) as [[|n names]|]; try done. unfold sync_post_hashtags.
    destruct (_ || _); [done|]. by intros [= <- _]. }
  destruct (tags d) as [[x|[]] d1] eqn:E1; [specialize (Ht _ _ eq_refl); congruence|].
  set (rm := match ed_remove e with [] => _ | _ => _ end).
  assert (exists d2, rm d1 = (inr tt, d2)) as (d2 & ->) by (subst rm; destruct (ed_remove e); by eexists).
  unfold flush_versioned. unfold mbind, M_bind. rewrite update_one_returning_pk. cbn [rows set_rows posts_table].
  destruct (posts d2 !! ed_post_id e) as [p|]; [|done]. destruct (_ =? _); [|done]. cbn [mret M_ret].
  match goal with |- context [for_each _ _ ?x] => destruct (for_each (ed_add e) (insert_post_image now (ed_post_id e)) x) as [[y|[]] d4] eqn:E4 end; [|done].
  apply for_each_images_error in E4. congruence.
Qed.

Lemma update_commit_stale now e d p :
  hashtags_wf d -> posts d !! ed_post_id e = Some p -> version p <> ed_read_version e ->
  update_commit now e d = (inl StaleDataError, d).
Proof.
  intros Hwf Hp Hv. unfold update_commit, begin_tx. unfold mbind, M_bind.
  set (tags := match ed_hashtags e with Some names => _ | None => _ end).
  assert (exists d1, tags d = (inr tt, d1) /\ posts d1 = posts d) as (d1 & -> & H1).
  { subst tags. destruct (ed_hashtags e) as [names|]; [|by exists d].
    destruct (sync_post_hashtags_spec (ed_post_id e) names d) as (d1 & -> & _ & Hd & _); [done|by eexists|]. eauto. }
  set (rm := match ed_remove e with [] => _ | _ => _ end).
  assert (exists d2, rm d1 = (inr tt, d2) /\ posts d2 = posts d) as (d2 & -> & H2).
  { subst rm. destruct (ed_remove e); [by exists d1|]. unfold delete_rows, mbind, M_bind. eexists. split; [done|]. exact H1. }
  unfold flush_versioned. unfold mbind, M_bind. rewrite update_one_returning_pk. cbn [rows set_rows posts_table].
  rewrite H2, Hp. destruct (Z.eqb_spec (version p) (ed_read_version e)); [done|]. done.
Qed.

(** A committed edit left the post at the next version, edited. *)
Lemma update_commit_success now e d d' :
  hashtags_wf d -> update_commit now e d = (inr tt, d') ->
  exists p, posts d !! ed_post_id e = Some p /\ version p = ed_read_version e /\
    posts d' = <[ed_post_id e := ed_apply e p <| version := version p + 1 |>]> (posts d).
Proof.
  intros Hwf. unfold update_commit, begin_tx. unfold mbind, M_bind.
  set (tags := match ed_hashtags e with Some names => _ | None => _ end).
  assert (forall d1 x, tags d = (inr x, d1) -> posts d1 = posts d) as Ht.
  { subst tags. intros d1 x. destruct (ed_hashtags e) as [names|]; [|by intros [= _ <-]].
    unfold sync_post_hashtags. destruct names as [|n names]; [by intros [= _ <-]|].
    destruct (_ || _); [|done]. intros [= _ <-].
    destruct (upsert_hashtags_spec (n :: names) (d <| post_hashtags := filter (fun l => l.1 <> ed_post_id e) (post_hashtags d) |>))
      as (_ & _ & _ & _ & Hps); [done|]. exact Hps. }
  destruct (tags d) as [[x|[]] d1]; [done|]. specialize (Ht d1 tt eq_refl).
  set (rm := match ed_remove e with [] => _ | _ => _ end).
  assert (exists d2, rm d1 = (inr tt, d2) /\ posts d2 = posts d) as (d2 & -> & H2).
  { subst rm. destruct (ed_remove e); [by exists d1|]. unfold delete_rows, mbind, M_bind. eexists. split; [done|]. exact Ht. }
  unfold flush_versioned. unfold mbind, M_bind. rewrite update_one_returning_pk. cbn [rows set_rows posts_table].
  rewrite H2. destruct (posts d !! ed_post_id e) as [p|] eqn:Ep; [|done].
  destruct (Z.eqb_spec (version p) (ed_read_version e)) as [Hv|]; [|done]. cbn [mret M_ret].
  match goal with |- context [for_each _ _ ?x] => set (d3 := x) end.
  pose proof (insert_post_images_db now (ed_post_id e) (ed_add e) d3) as Himg.
  destruct (for_each (ed_add e) _ d3) as [[x|[]] d4]; [done|]. intros [= <-]. exists p. split; [done|]. split; [done|].
  destruct Himg as [-> _]. done.
Qed.

(** ** Properties *)

(** C34. The feed is complete and exact: a client that follows [has_more] with
    the last id it saw receives, newest first and each exactly once, precisely
    the posts that are not deleted, not blinded, not by an author the viewer
    blocks and that match the search and category, and no page is longer than
    requested. *)
Theorem feed_enumerates_visible `{PgFold} sz search category viewer d fuel :
  1 <= sz -> (length (feed_rows search category viewer d) < fuel)%nat ->
  concat ((fun l : list PostResponse => pr_id <$> l) <$> feed_walk sz search category viewer d fuel None) =
    (order_by fst zdesc (feed_rows search category viewer d)).*1 /\
  Forall (fun page => py_len page <= sz) (feed_walk sz search category viewer d fuel None) /\
  (forall i p, (i, p) ∈ feed_rows search category viewer d <->
     posts d !! i = Some p /\ deleted_at p = None /\ is_blinded p = false /\
     author_not_blocked (user_id p) viewer d = true /\ search_filter search d i p = true /\
     match category with Some c => category_id p = Some c | None => True end).
Proof.
  intros Hs Hf.
  destruct (keyset_walk_rest fst zdesc fuel sz (feed_rows search category viewer d) []
              (order_by fst zdesc (feed_rows search category viewer d)) None) as [Hc HF];
    [apply select_where_nodup|done|done|done|by rewrite (order_by_perm fst zdesc)|].
  pose proof (feed_walk_keyset sz search category viewer d fuel None) as Hw.
  split_and!.
  - rewrite Hw. rewrite <-Hc. generalize (keyset_walk fst zdesc fuel None sz (feed_rows search category viewer d)) as l.
    clear. intros l. induction l as [|x l IH]; [done|]. cbn [fmap list_fmap concat]. by rewrite IH, fmap_app.
  - revert HF Hw. generalize (feed_walk sz search category viewer d fuel None) as l.
    generalize (keyset_walk fst zdesc fuel None sz (feed_rows search category viewer d)) as k. clear.
    intros k l. revert k. induction l as [|x l IH]; intros [|y k] HF E; cbn in E; try done.
    injection E as E1 E2. apply Forall_cons in HF as [Hy HF]. constructor; [|by eapply IH].
    apply (f_equal length) in E1. rewrite !length_fmap in E1. unfold py_len in *. by rewrite E1.
  - intros i p. unfold feed_rows. rewrite select_where_elem. unfold feed_conds, post_visible.
    rewrite !andb_true_iff, negb_true_iff, bool_decide_eq_true.
    assert (match category with Some c => bool_decide (category_id p = Some c) | None => true end = true <->
            match category with Some c => category_id p = Some c | None => True end) as ->
      by (destruct category; [apply bool_decide_eq_true|done]). cbn. tauto.
Qed.

(** A valid request: known author and category (the process's cache, while it is
    fresh, must know the category too), at most the allowed number of distinct
    live images that no post uses yet, and unused identifiers. *)
Definition creatable (new_id user : Z) (data : PostCreateRequest) (w : world) : Prop :=
  let d := w_db w in
  let rws := default [] (cr_images data) in
  is_Some (users d !! user) /\ posts d !! new_id = None /\
  match cr_category data with
  | Some c => c ∈ categories d /\ forall e ids, w_category_cache w = Some (e, ids) -> w_clock w < e -> c ∈ ids
  | None => True
  end /\
  py_len rws <= POST_IMAGES_MAX /\ NoDup rws.*1 /\ NoDup rws.*2 /\
  forall r, r ∈ rws -> post_images d !! r.1 = None /\ (exists img, images d !! r.2 = Some img /\ img_deleted_at img = None) /\
    forall k l, post_images d !! k = Some l -> pi_image_id l <> r.2.

Lemma attach_images_succeed now post_id (rws : list (Z * Z)) d :
  is_Some (posts d !! post_id) -> NoDup rws.*1 -> NoDup rws.*2 ->
  (forall r, r ∈ rws -> post_images d !! r.1 = None /\ is_Some (images d !! r.2) /\
     forall k l, post_images d !! k = Some l -> pi_image_id l <> r.2) ->
  exists d', for_each rws (insert_post_image now post_id) d = (inr tt, d').
Proof.
  revert d. induction rws as [|[k i] rws IH]; intros d Hp Hn1 Hn2 Hr; [by eexists|]. cbn [for_each].
  rewrite !fmap_cons in Hn1, Hn2. apply NoDup_cons in Hn1 as [Hk1 Hn1], Hn2 as [Hk2 Hn2].
  destruct (Hr (k, i)) as (H1 & H2 & H3); [apply list_elem_of_here|]. cbn [fst snd] in *.
  unfold mbind, M_bind, insert_post_image at 1.
  match goal with |- context [existsb ?f ?l] => assert (existsb f l = false) as -> end.
  { apply not_true_iff_false. rewrite existsb_exists. intros ([k0 l] & Hin & Hc%bool_decide_eq_true). apply list_elem_of_In, elem_of_map_to_list in Hin. by apply (H3 k0 l). }
  unfold insert_row. cbn [rows set_rows post_images_table]. rewrite H1, !bool_decide_eq_true_2 by done. cbn [andb].
  apply IH; cbn [posts images post_images over]; [done..|]. intros [k' i'] Hin.
  destruct (Hr (k', i')) as (G1 & G2 & G3); [by apply list_elem_of_further|]. cbn [fst snd] in *.
  assert (k <> k') as Hkk by (intros ->; apply Hk1, list_elem_of_fmap; by exists (k', i')).
  split; [by rewrite lookup_insert_ne|]. split; [done|]. intros k0 l. destruct (decide (k0 = k)) as [->|Hne].
  - rewrite lookup_insert_eq. intros [= <-]. cbn. intros ->. apply Hk2, list_elem_of_fmap. by exists (k', i').
  - rewrite lookup_insert_ne by done. apply G3.
Qed.

Lemma upsert_hashtags_media names d : images (fold_left upsert_hashtag names d) = images d.
Proof.
  revert d. induction names as [|n names IH]; intros d; [done|]. cbn [fold_left]. rewrite IH.
  unfold upsert_hashtag. cbv zeta. by destruct (hashtag_id n _).
Qed.

Lemma sync_post_hashtags_images post_id names d : images (sync_post_hashtags post_id names d).2 = images d.
Proof.
  unfold sync_post_hashtags. destruct names as [|n names]; [done|]. destruct (_ || _); cbn [snd images over]; by rewrite upsert_hashtags_media.
Qed.

Lemma validate_refs_succeeds new_id user data w : creatable new_id user data w ->
  (validate_refs (cr_category data) (image_ids_of (cr_images data)) w).1 = inr tt.
Proof.
  intros (_ & _ & Hc & _ & _ & _ & Hr). unfold validate_refs. unfold mbind at 1, M_bind at 1.
  assert (exists w1, (match cr_category data with
    | Some c => ok ← category_exists c; if ok : bool then mret tt else raise InvalidRequestException
    | None => mret tt end : M world unit) w = (inr tt, w1) /\ w_db w1 = w_db w) as (w1 & -> & Hw1).
  { destruct (cr_category data) as [c|]; [|by exists w]. destruct Hc as [Hin Hcache]. unfold category_exists. unfold mbind, M_bind.
    destruct (w_category_cache w) as [[e ids]|] eqn:Ec.
    - destruct (Z.ltb_spec (w_clock w) e); [rewrite bool_decide_eq_true_2 by (by apply (Hcache e ids)); by exists w|].
      rewrite decide_False by set_solver. rewrite bool_decide_eq_true_2 by done. by eexists.
    - rewrite decide_False by set_solver. rewrite bool_decide_eq_true_2 by done. by eexists. }
  unfold image_ids_of. destruct (cr_images data) as [rws|]; [|done]. cbn [fmap option_fmap option_map default] in *.
  unfold on_db. rewrite Hw1. unfold assert_images_attachable. destruct (rws.*2) as [|i l] eqn:El; [done|].
  unfold get. unfold mbind, M_bind. rewrite (proj2 (forallb_forall _ _)); [done|]. intros m Hm%list_elem_of_In.
  rewrite <-El in Hm. apply list_elem_of_fmap in Hm as ([k m'] & -> & Hin). destruct (Hr _ Hin) as (_ & (img & Hi & Hd) & _).
  cbn [snd] in *. by rewrite Hi, Hd.
Qed.

(** Creating a post, on both outcomes: an error leaves the database as it
    was and a valid request never meets one; success adds exactly one post, by the caller, live and with zeroed
    counters at version 1, and the post carries exactly the normalised hashtags
    and exactly the requested images. *)
Theorem create_post_exact `{UnicodeDB} now new_id user data w :
  hashtags_wf (w_db w) -> (forall k r, post_images (w_db w) !! k = Some r -> pi_post_id r <> new_id) ->
  match create_post now new_id user data w with
  | (inl _, w') => w_db w' = w_db w /\ ~ creatable new_id user data w
  | (inr i, w') =>
      i = new_id /\ posts (w_db w) !! new_id = None /\
      (exists p, posts (w_db w') = <[new_id := p]> (posts (w_db w)) /\ user_id p = Some user /\
         deleted_at p = None /\ is_blinded p = false /\ version p = 1 /\
         (view_count p, like_count p, comment_count p, report_count p) = (0, 0, 0, 0)) /\
      (forall names, cr_hashtags data = Some names -> forall n, has_tag (w_db w') new_id n <-> n ∈ normalize_hashtags names) /\
      (forall image, (exists k r, post_images (w_db w') !! k = Some r /\ pi_post_id r = new_id /\ pi_image_id r = image) <->
         image ∈ (default [] (cr_images data)).*2)
  end.
Proof.
  intros Hwf Himg. unfold create_post, tx. unfold mbind at 1, M_bind at 1.
  destruct (validate_refs_db (cr_category data) (image_ids_of (cr_images data)) w) as [Hv _].
  pose proof (validate_refs_succeeds new_id user data w) as Hval.
  destruct (validate_refs _ _ w) as [[e|x] w1]; [by split; [|intros Hc; discriminate (Hval Hc)]|]. cbn [snd] in Hv.
  unfold on_db. rewrite Hv. unfold create_post_row. unfold mbind, M_bind.
  assert (creatable new_id user data w -> ensure_image_limit (image_ids_of (cr_images data)) (w_db w) = (inr tt, w_db w)) as Hlim.
  { intros (_ & _ & _ & Hl & _). unfold ensure_image_limit, image_ids_of. destruct (cr_images data) as [rws|]; [|done]. cbn in *.
    rewrite (proj2 (Z.ltb_ge _ _)); [done|]. unfold py_len in *. rewrite length_fmap. lia. }
  destruct (ensure_image_limit_spec (image_ids_of (cr_images data)) (w_db w)) as [El|El];
    rewrite El in *; [|by split; [|intros Hc; discriminate (Hlim Hc)]].
  unfold insert_row. cbn [rows set_rows posts_table]. destruct (posts (w_db w) !! new_id) eqn:Enone; [split; [done|]; intros (_ & Hn & _); congruence|].
  destruct (_ && _) eqn:Erefs; [|split; [done|]; intros (Hu & _ & Hc & _); apply andb_false_iff in Erefs as [Hf|Hf];
    [by apply bool_decide_eq_false in Hf|destruct (cr_category data); [|done]; apply bool_decide_eq_false in Hf; by destruct Hc]].
  match goal with |- context [<[new_id := ?p]> (posts (w_db w))] => set (p0 := p) end.
  set (d1 := (w_db w) <| posts := <[new_id := p0]> (posts (w_db w)) |>).
  set (tags := match normalize_hashtags <$> cr_hashtags data with Some names => sync_post_hashtags new_id names | None => mret tt end).
  assert (exists d2, tags d1 = (inr tt, d2) /\ posts d2 = posts d1 /\ post_images d2 = post_images d1 /\ images d2 = images d1 /\
            forall names, cr_hashtags data = Some names -> forall n, has_tag d2 new_id n <-> n ∈ normalize_hashtags names)
    as (d2 & -> & Hp2 & Hi2 & Hm2 & Ht2).
  { subst tags. destruct (cr_hashtags data) as [names|]; cbn [fmap option_fmap option_map].
    - destruct (sync_post_hashtags_spec new_id (normalize_hashtags names) d1) as (d2 & E & _ & Hp & Ht & _);
        [done|cbn; rewrite lookup_insert_eq; by eexists|].
      exists d2. split; [done|]. split; [done|]. split; [|split; [|by intros ? [= <-]]];
        [|pose proof (sync_post_hashtags_images new_id (normalize_hashtags names) d1) as Hm; by rewrite E in Hm].
      unfold sync_post_hashtags in E. destruct (normalize_hashtags names) as [|n ns]; [by injection E as <-|].
      destruct (_ || _); [|done]. apply (f_equal (fun x => post_images x.2)) in E.
      cbn [snd] in E. rewrite <-E. cbn [post_images over]. rewrite upsert_hashtags_images. reflexivity.
    - exists d1. split_and!; done. }
  pose proof (insert_post_images_db now new_id (default [] (cr_images data)) d2) as Himgs.
  assert (creatable new_id user data w -> exists d3, for_each (default [] (cr_images data)) (insert_post_image now new_id) d2 = (inr tt, d3)) as Hok.
  { intros (_ & _ & _ & _ & Hn1 & Hn2 & Hr). apply attach_images_succeed; [rewrite Hp2; cbn; rewrite lookup_insert_eq; by eexists|done..|].
    intros r Hin. destruct (Hr r Hin) as (R1 & (img & R2 & _) & R3). rewrite Hi2, Hm2. cbn. split; [done|]. split; [|done]. rewrite R2. by eexists. }
  destruct (for_each _ _ d2) as [[e|[]] d3]; [by split; [|intros Hc; destruct (Hok Hc)]|]. destruct Himgs as (Q1 & Q2 & Q3 & Q4). cbn [mret M_ret w_db over].
  split; [done|]. split; [done|]. split.
  - exists p0. split; [by rewrite Q1, Hp2|]. done.
  - split.
    + intros names En n. rewrite <-(Ht2 names En n). unfold has_tag. by rewrite Q2, Q3.
    + intros image. rewrite Q4. split; [|by left]. intros [?|(k & r & Hk & Hp & _)]; [done|].
      rewrite Hi2 in Hk. exfalso. by apply (Himg k r Hk).
Qed.

(** C4. No lost update: when two edits of a post have read the same version and
    one of them commits, the other cannot: its transaction raises the ORM's
    stale-row error and leaves the committed edit in place. *)
Theorem concurrent_edit_rejected now1 now2 e1 e2 d d1 :
  hashtags_wf d -> hashtags_wf d1 ->
  ed_post_id e1 = ed_post_id e2 -> ed_read_version e1 = ed_read_version e2 ->
  update_commit now1 e1 d = (inr tt, d1) ->
  update_commit now2 e2 d1 = (inl StaleDataError, d1) /\
  exists p, posts d !! ed_post_id e1 = Some p /\
    posts d1 !! ed_post_id e1 = Some (ed_apply e1 p <| version := ed_read_version e1 + 1 |>).
Proof.
  intros Hwf Hwf1 Hid Hv Hc. destruct (update_commit_success now1 e1 d d1 Hwf Hc) as (p & Hp & Hver & Hd1).
  rewrite Hd1, lookup_insert_eq. split.
  - eapply update_commit_stale; [done|rewrite Hd1, <-Hid; apply lookup_insert_eq|]. cbn. rewrite Hver. lia.
  - exists p. by rewrite <-Hver.
Qed.

(** The losing edit is answered with a server error: the conflict handler
    surrounds only the repository call, which issues no UPDATE, so no run of
    [update_post] turns a stale row into the 409; the exception that leaves the
    commit is mapped to 500. *)
Theorem stale_edit_surfaces_as_500 `{UnicodeDB} now post_id data w :
  (update_post now post_id data w).1 = inl ConcurrentUpdateException ->
  (exists p v, posts (w_db w) !! post_id = Some p /\ up_version data = Some v /\ v <> version p) /\
  er_status (handle_exception ConcurrentUpdateException) = 409 /\
  er_status (handle_exception StaleDataError) = 500.
Proof.
  intros Hr. split; [|done]. revert Hr. unfold update_post, tx. unfold mbind at 1, M_bind at 1.
  destruct (validate_refs_db (up_category data) (image_ids_of (up_images data)) w) as [Hdb Hne].
  destruct (validate_refs _ _ w) as [[e|x] w1]; cbn [fst snd] in *; [rewrite (Hne e eq_refl); done|].
  unfold try_except, on_db, update_begin. unfold mbind, M_bind. rewrite Hdb.
  destruct (ensure_image_limit_spec (image_ids_of (up_images data)) (w_db w)) as [-> | ->]; [|done].
  unfold get. destruct (posts (w_db w) !! post_id) as [p|] eqn:Ep; [|done].
  destruct (_ && _); [|done].
  destruct (up_version data) as [v|] eqn:Ever.
  - destruct (Z.eqb_spec v (version p)); cbn [negb]; [|intros _; by exists p, v].
    cbn [mret M_ret]. match goal with |- context [update_commit now ?e ?x] => destruct (update_commit now e x) as [[er|[]] d2] eqn:Ec end; cbn; [|done].
    intros [= ->]. exfalso. by eapply update_commit_no_conflict.
  - cbn [mret M_ret]. match goal with |- context [update_commit now ?e ?x] => destruct (update_commit now e x) as [[er|[]] d2] eqn:Ec end; cbn; [|done].
    intros [= ->]. exfalso. by eapply update_commit_no_conflict.
Qed.

(** Deleting a post cascades in one transaction: the post is marked
    deleted, its image links and likes are gone, every comment of it is marked
    deleted, other posts, their comments and likes are untouched, and a second
    deletion is a 404 that changes nothing. *)
Theorem delete_post_cascades now now2 post_id d :
  match delete_post now post_id d with
  | (inl e, d') => e = PostNotFoundException /\ d' = d /\
      forall p, posts d !! post_id = Some p -> deleted_at p <> None
  | (inr tt, d') =>
      (exists p, posts d !! post_id = Some p /\ deleted_at p = None /\
         posts d' = <[post_id := p <| deleted_at := Some now |> <| updated_at := now |>]> (posts d)) /\
      (forall k r, post_images d' !! k = Some r <-> post_images d !! k = Some r /\ pi_post_id r <> post_id) /\
      (forall l t, post_likes d' !! l = Some t <-> post_likes d !! l = Some t /\ l.1 <> post_id) /\
      (forall k c, comments d' !! k = Some c -> c_post_id c = post_id -> c_deleted_at c <> None) /\
      (forall k c, comments d !! k = Some c -> c_post_id c <> post_id -> comments d' !! k = Some c) /\
      delete_post now2 post_id d' = (inl PostNotFoundException, d')
  end.
Proof.
  assert (forall n d, (forall p, posts d !! post_id = Some p -> deleted_at p <> None) ->
    delete_post n post_id d = (inl PostNotFoundException, d)) as Hmiss.
  { intros n d0 Hd. unfold delete_post, begin_tx, soft_delete, is_some, update_post_columns. unfold mbind, M_bind.
    rewrite update_one_returning_pk. cbn [rows set_rows posts_table]. destruct (posts d0 !! post_id) as [p|]; [|done].
    rewrite bool_decide_eq_false_2 by (by apply Hd). done. }
  destruct (posts d !! post_id) as [p|] eqn:Ep; [|rewrite Hmiss by congruence; split_and!; congruence].
  destruct (decide (deleted_at p = None)) as [Hdel|Hdel];
    [|rewrite Hmiss by (rewrite Ep; intros ? [= <-]; done); split_and!; congruence].
  assert (exists d', delete_post now post_id d = (inr tt, d') /\
    post_images d' = filter (fun q => bool_decide (pi_post_id q.2 = post_id) = false) (post_images d) /\
    post_likes d' = filter (fun q => bool_decide (q.1.1 = post_id) = false) (post_likes d) /\
    comments d' = map_imap (fun _ c => Some (if bool_decide (c_post_id c = post_id) && bool_decide (c_deleted_at c = None)
            then c <| c_deleted_at := Some now |> else c)) (comments d) /\
    posts d' = <[post_id := p <| deleted_at := Some now |> <| updated_at := now |>]> (posts d))
    as (d' & -> & Hi & Hl & Hc & Hp').
  { unfold delete_post, begin_tx, soft_delete, is_some, update_post_columns, soft_delete_comments_by_post,
      delete_likes_by_post_id, delete_rows, modify. unfold mbind, M_bind.
    rewrite update_one_returning_pk. cbn [rows set_rows posts_table]. rewrite Ep, bool_decide_eq_true_2 by done.
    cbn [negb orb mret M_ret]. rewrite bool_decide_eq_true_2 by (by eexists).
    eexists. split; [reflexivity|]. by split_and!. }
  rewrite Hi, Hl, Hc.
  split; [by exists p|]. split_and!.
  - intros k r. rewrite map_lookup_filter_Some. cbn. by rewrite bool_decide_eq_false.
  - intros l t. rewrite map_lookup_filter_Some. cbn. by rewrite bool_decide_eq_false.
  - intros k c. rewrite map_lookup_imap. destruct (comments d !! k) as [c0|]; [|done]. cbn [mbind option_bind].
    intros [= <-]. destruct (bool_decide (c_post_id c0 = post_id)) eqn:E1; cbn [andb].
    + destruct (bool_decide (c_deleted_at c0 = None)) eqn:E2; [done|]. intros _. by apply bool_decide_eq_false in E2.
    + apply bool_decide_eq_false in E1. done.
  - intros k c Hk Hne. rewrite map_lookup_imap, Hk. cbn [mbind option_bind]. by rewrite bool_decide_eq_false_2.
  - apply Hmiss. intros p'. rewrite Hp', lookup_insert_eq. by intros [= <-].
Qed.

(** ** Witnesses *)

Definition demo_post (author : Z) : Post :=
  {| user_id := Some author; title := lit "t"; content := lit "c"; category_id := None; view_count := 0;
     like_count := 0; comment_count := 0; report_count := 0; is_blinded := false;
     created_at := 0; updated_at := 0; deleted_at := None; version := 1 |}.

(** Users 7 and 8; posts 1, 2 and 3, the second blinded. *)
Definition demo_db : db :=
  empty_db <| users := {[7 := demo_user; 8 := demo_user]} |>
           <| posts := {[1 := demo_post 7; 2 := demo_post 7 <| is_blinded := true |>; 3 := demo_post 8]} |>.

Lemma feed_enumerates_visible_witness :
  concat ((fun l : list PostResponse => pr_id <$> l) <$> feed_walk (H := ascii_fold) 1 None None (Some 7) demo_db 4 None) = [3; 1].
Proof.
  etransitivity; [apply (feed_enumerates_visible (H := ascii_fold) 1 None None (Some 7) demo_db 4)|].
  - lia.
  - vm_compute. lia.
  - vm_compute. reflexivity.
Defined.

Lemma create_post_exact_witness :
  exists w', create_post (H := ascii_db) 50 9 7
    {| cr_title := lit "t"; cr_content := lit "c"; cr_images := None; cr_category := None;
       cr_hashtags := Some [lit "#Dog"; lit "dog"] |} (empty_world <| w_db := demo_db |>) = (inr 9, w') /\
    has_tag (w_db w') 9 (lit "dog").
Proof.
  pose proof (create_post_exact (H := ascii_db) 50 9 7
    {| cr_title := lit "t"; cr_content := lit "c"; cr_images := None; cr_category := None;
       cr_hashtags := Some [lit "#Dog"; lit "dog"] |} (empty_world <| w_db := demo_db |>)) as H.
  destruct (create_post _ _ _ _ _) as [[e|i] w'] eqn:E; [vm_compute in E; discriminate|].
  destruct H as (-> & _ & _ & Ht & _).
  - intros h n Hh. vm_compute in Hh. discriminate.
  - intros k r Hk. vm_compute in Hk. discriminate.
  - exists w'. split; [reflexivity|]. apply (Ht _ eq_refl). vm_compute. apply list_elem_of_here.
Defined.

Definition demo_edit (t : ustr) : edit :=
  {| ed_post_id := 1; ed_read_version := 1; ed_apply := fun p => p <| title := t |>; ed_hashtags := None;
     ed_remove := []; ed_add := [] |}.

Lemma concurrent_edit_rejected_witness :
  exists d1, update_commit 60 (demo_edit (lit "a")) demo_db = (inr tt, d1) /\
    update_commit 61 (demo_edit (lit "b")) d1 = (inl StaleDataError, d1).
Proof.
  destruct (update_commit 60 (demo_edit (lit "a")) demo_db) as [[e|[]] d1] eqn:E; [vm_compute in E; discriminate|].
  exists d1. split; [reflexivity|].
  apply (concurrent_edit_rejected 60 61 (demo_edit (lit "a")) (demo_edit (lit "b")) demo_db d1).
  - intros h n Hh. vm_compute in Hh. discriminate.
  - apply (f_equal (fun r => hashtags r.2)) in E. intros h n Hh. cbn [snd] in E. rewrite <-E in Hh.
    vm_compute in Hh. discriminate.
  - reflexivity.
  - reflexivity.
  - exact E.
Defined.

Lemma stale_edit_surfaces_as_500_witness :
  exists p v, posts demo_db !! 1 = Some p /\ Some 5 = Some v /\ v <> version p.
Proof.
  refine (proj1 (stale_edit_surfaces_as_500 (H := ascii_db) 70 1
    {| up_title := Some (lit "x"); up_content := None; up_images := None; up_category := None;
       up_hashtags := None; up_version := Some 5 |} (empty_world <| w_db := demo_db |>) _)).
  vm_compute. reflexivity.
Defined.
