(* ===== verification/Notifications.v ===== *)
(** * Notifications ([app/domain/notifications], [app/infra/sns.py])

    The rows, their keyset listing, read marks and retention purge; the bounded
    per-user queues of the SSE fan-out; and the delivery choreography of the
    offline channel. *)

From S2P Require Import Prelude Ids Common Redis Db.

(** ** Rows ([notifications/model.py]) *)

Definition DAY : Z := 86400.

(** Foreign keys of a new row. *)
Definition ref_ok {V} (m : gmap Z V) (o : option Z) : bool :=
  match o with Some i => bool_decide (is_Some (m !! i)) | None => true end.

Definition insert_notification (now nid recipient : Z) (k : NotificationKind) (actor post comment : option Z) : M db Z :=
  insert_row nid
    {| n_user_id := recipient; kind := k; actor_id := actor; n_post_id := post; n_comment_id := comment;
       read_at := None; n_created_at := now |}
    (fun d => bool_decide (is_Some (users d !! recipient)) && ref_ok (users d) actor && ref_ok (posts d) post &&
              ref_ok (comments d) comment) ;;
  mret nid.

Definition list_for_user (user : Z) (cursor_id : option Z) (sz : Z) (d : db) : list (Z * Notification) * bool :=
  split_page
    (take (Z.to_nat (sz + 1))
       (order_by fst zdesc
          (select_where (fun i n => bool_decide (n_user_id n = user) &&
                                    match cursor_id with Some c => i <? c | None => true end) d))) sz.

Definition unread_of (user : Z) (ids : list Z) (i : Z) (n : Notification) : bool :=
  bool_decide (n_user_id n = user) && bool_decide (read_at n = None) &&
  match ids with [] => true | _ => bool_decide (i ∈ ids) end.

Definition mark_read (now user : Z) (ids : list Z) : M db Z := fun d =>
  (inr (py_len (select_where (unread_of user ids) d)),
   update_where (unread_of user ids) (fun n : Notification => n <| read_at := Some now |>) d).

(** One chunk: which expired rows the LIMIT picks is the database's choice,
    [pick]. *)
Definition expired_before (cutoff : Z) (_ : Z) (n : Notification) : bool := n_created_at n <? cutoff.

Definition delete_older_than (pick : list Z -> list Z) (now older_than_days limit : Z) : M db Z := fun d =>
  let cutoff := now - Z.max 1 older_than_days * DAY in
  let ids := take (Z.to_nat (Z.max 100 limit)) (pick (select_where (expired_before cutoff) d).*1) in
  delete_rows (fun i (_ : Notification) => bool_decide (i ∈ ids)) d.

(** [purge_old_notifications]: chunks until one deletes nothing; every other
    chunk removes a row, so the number of rows is enough fuel. *)
Fixpoint purge_loop (fuel : nat) (pick : list Z -> list Z) (now older_than_days chunk_size total : Z)
  : M db (option Z) :=
  match fuel with
  | O => mret None
  | S f =>
      deleted ← begin_tx (delete_older_than pick now older_than_days chunk_size);
      if deleted =? 0 then mret (Some total)
      else purge_loop f pick now older_than_days chunk_size (total + deleted)
  end.

Definition purge_old_notifications (pick : list Z -> list Z) (now older_than_days chunk_size : Z) : M db (option Z) :=
  d ← get;
  purge_loop (S (base.size (notifications d))) pick now older_than_days chunk_size 0.

(** ** [NotificationService.record] *)

Record NotificationEvent := {
  ev_recipient : Z; ev_notification_id : Z; ev_kind : NotificationKind;
  ev_actor : option Z; ev_post : option Z; ev_comment : option Z;
}.

Definition record (now nid recipient : Z) (k : NotificationKind) (actor post comment : option Z)
  : M db NotificationEvent :=
  i ← insert_notification now nid recipient k actor post comment;
  mret {| ev_recipient := recipient; ev_notification_id := i; ev_kind := k; ev_actor := actor;
          ev_post := post; ev_comment := comment |}.

(** ** SSE fan-out ([notifications/stream.py]) *)

Definition QUEUE_MAX_SIZE : nat := 100.

(** A queue has an identity (the object) and its pending payloads. *)
Record queue := { q_id : Z; q_items : list ustr }.
Abbreviation fanout := (gmap Z (list queue)).

Section Sse.
Context (MAX_CONNECTIONS : Z).

Definition bucket_of (user : Z) (m : fanout) : list queue := default [] (m !! user).

Definition has_capacity (user : Z) (m : fanout) : bool := py_len (bucket_of user m) <? MAX_CONNECTIONS.

(** [None] when the user is at the limit; an empty bucket is not left behind. *)
Definition register (user new_q : Z) (m : fanout) : option queue * fanout :=
  let b := bucket_of user m in
  if MAX_CONNECTIONS <=? py_len b then (None, match b with [] => delete user m | _ => m end)
  else
    let q := {| q_id := new_q; q_items := [] |} in
    (Some q, <[user := b ++ [q]]> m).

Definition unregister (user qid : Z) (m : fanout) : fanout :=
  match bucket_of user m with
  | [] => m
  | b =>
      match List.filter (fun q => negb (q_id q =? qid)) b with
      | [] => delete user m
      | b' => <[user := b']> m
      end
  end.

(** [put_nowait]: a full queue drops the payload. *)
Definition put_nowait (payload : ustr) (q : queue) : queue :=
  if (QUEUE_MAX_SIZE <=? length (q_items q))%nat then q
  else {| q_id := q_id q; q_items := q_items q ++ [payload] |}.

Definition deliver (user : Z) (payload : ustr) (m : fanout) : fanout :=
  match m !! user with
  | Some b => <[user := put_nowait payload <$> b]> m
  | None => m
  end.

(** [queue.get()] by the stream that owns the queue. *)
Definition consume (user qid : Z) (m : fanout) : fanout :=
  match m !! user with
  | Some b => <[user := (fun q => if q_id q =? qid then {| q_id := qid; q_items := drop 1 (q_items q) |} else q) <$> b]> m
  | None => m
  end.

Inductive sse_step : fanout -> fanout -> Prop :=
  | sse_register user new_q m :
      (forall u b q, m !! u = Some b -> q ∈ b -> q_id q <> new_q) ->
      sse_step m (register user new_q m).2
  | sse_unregister user qid m : sse_step m (unregister user qid m)
  | sse_deliver user payload m : sse_step m (deliver user payload m)
  | sse_consume user qid m : sse_step m (consume user qid m).

Inductive sse_reachable : fanout -> Prop :=
  | sr_init : sse_reachable ∅
  | sr_step m m' : sse_reachable m -> sse_step m m' -> sse_reachable m'.
End Sse.

(** ** Offline delivery ([infra/sns.py]) *)

(** [ds_sns] decides every publish: did the call raise, and did the topic get
    the message anyway. *)
Record dstate := { ds_redis : redis; ds_published : list ustr; ds_sns : list fault }.
#[export] Instance dstate_eta : Eta dstate := fun s => Build_dstate (ds_redis s) (ds_published s) (ds_sns s).

Definition d_redis {A} (m : M redis A) : M dstate A := fun s =>
  let '(r, x) := m (ds_redis s) in (r, s <| ds_redis := x |>).

Definition publish_sns (message : ustr) : M dstate unit := fun s =>
  let '(f, fs) := match ds_sns s with [] => (NoFault, []) | f :: fs => (f, fs) end in
  let s := s <| ds_sns := fs |> in
  match f with
  | NoFault => (inr tt, s <| ds_published := message :: ds_published s |>)
  | LostRequest => (inl StorageError, s)
  | LostReply => (inl StorageError, s <| ds_published := message :: ds_published s |>)
  end.

Definition DELIVERED_KEY_PREFIX : ustr := lit "notif:delivered:".

Definition deliver_once (present : bool) (idempotency_key message : ustr) (ttl : Z) : M dstate bool :=
  let key := DELIVERED_KEY_PREFIX ++ idempotency_key in
  seen ← (if present
          then try_except (v ← d_redis (redis_get key); mret (match v with Some (_ :: _) => true | _ => false end))
                          (fun _ => mret false)
          else mret false);
  if seen : bool then mret false
  else
    publish_sns message ;;
    (if present then try_except (d_redis (redis_set key (lit "1") false (Some ttl)) ;; mret tt) (fun _ => mret tt)
     else mret tt) ;;
    mret true.

Definition sns_idempotency_key (nid : Z) : ustr := lit "sns:" ++ uuid_to_base62 nid.

(** ** Lemmas *)

Lemma delete_rows_size (ids : list Z) d :
  NoDup ids -> (forall i, i ∈ ids -> is_Some (notifications d !! i)) ->
  exists d', delete_rows (fun i (_ : Notification) => bool_decide (i ∈ ids)) d = (inr (py_len ids), d') /\
    (base.size (notifications d') + length ids = base.size (notifications d))%nat /\
    (forall i n, notifications d' !! i = Some n <-> notifications d !! i = Some n /\ i ∉ ids).
Proof.
  intros Hnd Hin. unfold delete_rows. eexists. cbn [rows set_rows notifications_table].
  set (P := fun p : Z * Notification => bool_decide (p.1 ∈ ids) = false).
  assert (length (select_where (fun i (_ : Notification) => bool_decide (i ∈ ids)) d) = length ids) as Hlen.
  { rewrite <-(length_fmap fst). apply Permutation_length, list.NoDup_Permutation.
    - apply select_where_nodup.
    - done.
    - intros i. rewrite list_elem_of_fmap. split.
      + intros ([j n] & -> & [_ Hj]%select_where_elem). by apply bool_decide_eq_true in Hj.
      + intros Hi. destruct (Hin i Hi) as [n Hn]. exists (i, n). split; [done|].
        apply select_where_elem. split; [done|]. by apply bool_decide_eq_true_2. }
  split; [unfold py_len; by rewrite Hlen|]. cbn [notifications over]. split.
  - assert (base.size (notifications d) = base.size (filter P (notifications d)) +
              base.size (filter (fun p => ~ P p) (notifications d)))%nat as ->.
    { rewrite <-map_size_disj_union by apply map_disjoint_filter_complement. by rewrite map_filter_union_complement. }
    f_equal. rewrite <-(size_list_to_set (C := gset Z) ids Hnd), <-(size_dom (D := gset Z)). f_equal.
    apply set_eq. intros i. rewrite elem_of_list_to_set, elem_of_dom. unfold is_Some. setoid_rewrite map_lookup_filter_Some.
    unfold P. cbn. split.
    + intros Hi. destruct (Hin i Hi) as [n Hn]. exists n. split; [done|]. by rewrite bool_decide_eq_true_2.
    + intros (n & _ & Hi). apply not_false_iff_true in Hi. by apply bool_decide_eq_true in Hi.
  - intros i n. rewrite map_lookup_filter_Some. cbn. by rewrite bool_decide_eq_false.
Qed.

(** Invariant of the fan-out: bounded buckets of bounded queues with distinct
    identities, no empty bucket kept. *)
Definition sse_ok (MAX : Z) (m : fanout) : Prop :=
  forall u b, m !! u = Some b ->
    b <> [] /\ py_len b <= MAX /\ NoDup (q_id <$> b) /\ Forall (fun q => (length (q_items q) <= QUEUE_MAX_SIZE)%nat) b.

Lemma sse_ok_insert MAX m u b :
  sse_ok MAX m -> b <> [] -> py_len b <= MAX -> NoDup (q_id <$> b) ->
  Forall (fun q => (length (q_items q) <= QUEUE_MAX_SIZE)%nat) b -> sse_ok MAX (<[u := b]> m).
Proof.
  intros Hm H1 H2 H3 H4 v c Hv. destruct (decide (v = u)) as [->|].
  - rewrite lookup_insert_eq in Hv. by injection Hv as <-.
  - rewrite lookup_insert_ne in Hv by done. by eapply Hm.
Qed.

Lemma sse_ok_delete MAX m u : sse_ok MAX m -> sse_ok MAX (delete u m).
Proof. intros Hm v c Hv. apply lookup_delete_Some in Hv as [_ Hv]. by eapply Hm. Qed.

(** A map over a bucket that keeps identities and bounds keeps the invariant. *)
Lemma sse_ok_map MAX m u b (f : queue -> queue) :
  sse_ok MAX m -> m !! u = Some b -> (forall q, q_id (f q) = q_id q) ->
  (forall q, (length (q_items q) <= QUEUE_MAX_SIZE)%nat -> (length (q_items (f q)) <= QUEUE_MAX_SIZE)%nat) ->
  sse_ok MAX (<[u := f <$> b]> m).
Proof.
  intros Hm Hu Hid Hlen. destruct (Hm u b Hu) as (H1 & H2 & H3 & H4). apply sse_ok_insert; [done|..].
  - by destruct b.
  - unfold py_len in *. by rewrite length_fmap.
  - rewrite <-list_fmap_compose. erewrite list_fmap_ext; [exact H3|]. intros i q _. apply Hid.
  - rewrite Forall_fmap. eapply Forall_impl; [exact H4|]. cbn. auto.
Qed.

Lemma sse_step_ok MAX m m' : sse_ok MAX m -> sse_step MAX m m' -> sse_ok MAX m'.
Proof.
  intros Hm Hs. destruct Hs as [user new_q m Hf|user qid m|user payload m|user qid m].
  - unfold register. destruct (Z.leb_spec MAX (py_len (bucket_of user m))); cbn [snd].
    { destruct (bucket_of user m); [by apply sse_ok_delete|done]. }
    unfold bucket_of in *. destruct (m !! user) as [b|] eqn:E; cbn [default from_option id] in *.
    + destruct (Hm user b E) as (H1 & H2 & H3 & H4). apply sse_ok_insert; [done|by destruct b|..].
      * unfold py_len in *. rewrite length_app. cbn. lia.
      * rewrite fmap_app. apply NoDup_app. split; [done|]. split; [|apply NoDup_singleton].
        intros x (q & -> & Hq)%list_elem_of_fmap Hx%list_elem_of_singleton. by apply (Hf user b q).
      * apply Forall_app. split; [done|]. apply Forall_singleton. cbn. lia.
    + apply sse_ok_insert; try done.
      * unfold py_len in *. cbn in *. lia.
      * apply NoDup_singleton.
      * apply Forall_singleton. cbn. lia.
  - unfold unregister, bucket_of. destruct (m !! user) as [b|] eqn:E; cbn [default from_option id]; [|done].
    destruct (Hm user b E) as (H1 & H2 & H3 & H4). destruct b as [|q0 b0]; [done|].
    set (b := q0 :: b0) in *. destruct (List.filter (fun q => negb (q_id q =? qid)) b) as [|q1 b1] eqn:Ef; [by apply sse_ok_delete|].
    assert (List.filter (fun q => negb (q_id q =? qid)) b `sublist_of` b) as Hsub.
    { clear. induction b as [|x l IH]; cbn; [constructor|]. destruct (negb _); by constructor. }
    rewrite Ef in Hsub. apply sse_ok_insert; [done|done|..].
    + apply sublist_length in Hsub. unfold py_len in *. lia.
    + eapply sublist_NoDup; [exact H3|]. by apply fmap_sublist.
    + rewrite Forall_forall in *. intros q Hq. apply H4. by eapply elem_of_sublist.
  - unfold deliver. destruct (m !! user) as [b|] eqn:E; [|done]. apply sse_ok_map; [done|done|..].
    + intros q. unfold put_nowait. by destruct (_ <=? _)%nat.
    + intros q Hq. unfold put_nowait. destruct (Nat.leb_spec QUEUE_MAX_SIZE (length (q_items q))); [done|].
      cbn. rewrite length_app. cbn. lia.
  - unfold consume. destruct (m !! user) as [b|] eqn:E; [|done]. apply sse_ok_map; [done|done|..].
    + intros q. by destruct (Z.eqb_spec (q_id q) qid).
    + intros q Hq. destruct (_ =? _); [|done]. cbn. rewrite length_drop. lia.
Qed.

Lemma sse_reachable_ok MAX m : sse_reachable MAX m -> sse_ok MAX m.
Proof.
  induction 1 as [|m m' _ IH Hs]; [|by eapply sse_step_ok]. intros u b Hu. by rewrite lookup_empty in Hu.
Qed.

(** One chunk of the purge removes only expired rows, and some if there are any. *)
Lemma delete_older_than_spec pick now days limit d :
  (forall l, pick l ≡ₚ l) ->
  let cutoff := now - Z.max 1 days * DAY in
  exists n d', delete_older_than pick now days limit d = (inr (Z.of_nat n), d') /\
    (base.size (notifications d') + n = base.size (notifications d))%nat /\
    (forall i r, notifications d' !! i = Some r -> notifications d !! i = Some r) /\
    (forall i r, notifications d !! i = Some r -> cutoff <= n_created_at r -> notifications d' !! i = Some r) /\
    (n = 0%nat -> forall i r, notifications d !! i = Some r -> cutoff <= n_created_at r).
Proof.
  intros Hpick cutoff. unfold delete_older_than. fold cutoff. set (exp := (select_where (expired_before cutoff) d).*1).
  set (ids := take (Z.to_nat (Z.max 100 limit)) (pick exp)).
  assert (NoDup exp) as Hnd by apply select_where_nodup.
  assert (forall i, i ∈ ids -> exists r, notifications d !! i = Some r /\ n_created_at r < cutoff) as Hids.
  { intros i Hi. apply elem_of_take in Hi as (k & Hk & _). apply list_elem_of_lookup_2 in Hk. rewrite Hpick in Hk.
    apply list_elem_of_fmap in Hk as ([j r] & -> & [Hj He]%select_where_elem). exists r. split; [done|].
    unfold expired_before in He. by apply Z.ltb_lt in He. }
  destruct (delete_rows_size ids d) as (d' & -> & Hsz & Hd').
  { eapply sublist_NoDup; [|apply sublist_take]. by rewrite Hpick. }
  { intros i Hi. destruct (Hids i Hi) as (r & Hr & _). eauto. }
  exists (length ids), d'. split; [done|]. split; [done|]. split_and!.
  - intros i r Hi. by apply Hd'.
  - intros i r Hi Hc. apply Hd'. split; [done|]. intros Hin. destruct (Hids i Hin) as (r' & Hr' & Hlt). simplify_eq. lia.
  - intros Hn i r Hi. destruct (Z.lt_ge_cases (n_created_at r) cutoff) as [Hlt|]; [|done]. exfalso.
    assert (i ∈ exp) as Hin.
    { unfold exp. apply list_elem_of_fmap. exists (i, r). split; [done|]. apply select_where_elem. split; [done|].
      unfold expired_before. by apply Z.ltb_lt. }
    rewrite <-Hpick in Hin. unfold ids in Hn. rewrite length_take in Hn.
    destruct (pick exp) as [|x l]; [by apply not_elem_of_nil in Hin|]. cbn in Hn. lia.
Qed.

Lemma purge_loop_spec fuel pick now days chunk total d :
  (forall l, pick l ≡ₚ l) -> (base.size (notifications d) < fuel)%nat ->
  let cutoff := now - Z.max 1 days * DAY in
  exists n d', purge_loop fuel pick now days chunk total d = (inr (Some (total + Z.of_nat n)), d') /\
    (base.size (notifications d') + n = base.size (notifications d))%nat /\
    (forall i r, notifications d' !! i = Some r <-> notifications d !! i = Some r /\ cutoff <= n_created_at r).
Proof.
  intros Hpick. revert total d. induction fuel as [|fuel IH]; intros total d Hf cutoff; [lia|].
  cbn [purge_loop]. unfold begin_tx. unfold mbind, M_bind.
  destruct (delete_older_than_spec pick now days chunk d Hpick) as (n & d1 & -> & Hsz & Hsub & Hkeep & Hzero).
  fold cutoff in Hkeep, Hzero.
  destruct (Z.eqb_spec (Z.of_nat n) 0) as [E|E].
  - exists 0%nat, d1. split; [by rewrite Z.add_0_r|]. split; [lia|]. intros i r. split.
    + intros Hi. specialize (Hsub i r Hi). split; [done|]. by eapply Hzero; [lia|].
    + intros [Hi Hc]. by apply Hkeep.
  - destruct (IH (total + Z.of_nat n) d1) as (m & d2 & -> & Hsz2 & Hiff); [lia|]. fold cutoff in Hiff.
    exists (n + m)%nat, d2. split; [do 3 f_equal; lia|]. split; [lia|]. intros i r. rewrite Hiff. split.
    + intros [Hi Hc]. split; [by apply Hsub|done].
    + intros [Hi Hc]. split; [by apply Hkeep|done].
Qed.

Lemma publish_sns_redis msg s : ds_redis (publish_sns msg s).2 = ds_redis s.
Proof. unfold publish_sns. destruct (ds_sns s) as [|[] ?]; done. Qed.

(** The key is marked. *)
Definition delivered (key : ustr) (d : gmap ustr rentry) : Prop :=
  exists e, d !! (DELIVERED_KEY_PREFIX ++ key) = Some e.

(** ** Properties *)

(** The retention purge terminates and is exact: whatever order the
    database picks rows in and whatever the chunk size, it stops, deletes
    precisely the notifications older than the cutoff (never younger than one
    day) and returns their number. *)
Theorem purge_old_notifications_exact pick now days chunk d :
  (forall l, pick l ≡ₚ l) ->
  exists n d', purge_old_notifications pick now days chunk d = (inr (Some (Z.of_nat n)), d') /\
    (base.size (notifications d') + n = base.size (notifications d))%nat /\
    (forall i r, notifications d' !! i = Some r <->
       notifications d !! i = Some r /\ now - Z.max 1 days * DAY <= n_created_at r).
Proof.
  intros Hpick. unfold purge_old_notifications, get. unfold mbind, M_bind.
  destruct (purge_loop_spec (S (base.size (notifications d))) pick now days chunk 0 d Hpick) as (n & d' & E & H1 & H2); [lia|].
  exists n, d'. by rewrite E.
Qed.

(** Marking read touches only the caller's own unread rows, exactly those
    listed (all of them for an empty list), and reports how many; marking again
    reports zero. *)
Theorem mark_read_exact now now2 user ids d :
  let '(res, d') := mark_read now user ids d in
  (exists n, res = inr n /\ n = py_len (select_where (unread_of user ids) d)) /\
  (forall i r, notifications d !! i = Some r ->
     notifications d' !! i = Some (if unread_of user ids i r then r <| read_at := Some now |> else r)) /\
  (forall i r, notifications d !! i = Some r -> n_user_id r <> user -> notifications d' !! i = Some r) /\
  (mark_read now2 user ids d').1 = inr 0.
Proof.
  cbn [mark_read]. set (d' := update_where _ _ d).
  assert (forall i, notifications d' !! i = (fun r => if unread_of user ids i r then r <| read_at := Some now |> else r) <$> notifications d !! i) as Hd'.
  { intros i. unfold d', update_where. cbn [rows set_rows notifications_table notifications over].
    rewrite map_lookup_imap. by destruct (notifications d !! i). }
  split; [eauto|]. split; [intros i r Hi; by rewrite Hd', Hi|]. split.
  - intros i r Hi Hne. rewrite Hd', Hi. cbn. unfold unread_of. by rewrite bool_decide_eq_false_2.
  - unfold mark_read. cbn [fst]. enough (select_where (unread_of user ids) d' = []) as -> by done.
    apply elem_of_nil_inv. intros [i r] [Hi Hu]%select_where_elem. cbn [rows notifications_table] in Hi.
    rewrite Hd' in Hi. destruct (notifications d !! i) as [r0|]; [|done]. cbn in Hi. injection Hi as <-.
    destruct (unread_of user ids i r0) eqn:E; [|congruence].
    unfold unread_of in Hu. cbn in Hu. by rewrite andb_false_r in Hu.
Qed.

(** SSE resources stay bounded: after any sequence of connections,
    disconnections, deliveries and reads, no user has more open streams than
    the limit, no stream has more than a hundred pending events, a user without
    streams leaves no entry, and a delivery changes only that user's queues,
    appending to each one that has room. *)
Theorem sse_bounded MAX m user payload :
  sse_reachable MAX m ->
  (forall u b, m !! u = Some b -> b <> [] /\ py_len b <= MAX /\
     Forall (fun q => (length (q_items q) <= QUEUE_MAX_SIZE)%nat) b) /\
  (forall u, u <> user -> deliver user payload m !! u = m !! u) /\
  (forall b, m !! user = Some b -> exists b', deliver user payload m !! user = Some b' /\
     Forall2 (fun q q' => q_id q' = q_id q /\
       ((length (q_items q) < QUEUE_MAX_SIZE)%nat -> q_items q' = q_items q ++ [payload])) b b').
Proof.
  intros Hr%sse_reachable_ok. split_and!.
  - intros u b Hu. by destruct (Hr u b Hu) as (H1 & H2 & _ & H4).
  - intros u Hne. unfold deliver. destruct (m !! user); [|done]. by rewrite lookup_insert_ne.
  - intros b Hb. unfold deliver. rewrite Hb. eexists. rewrite lookup_insert_eq. split; [done|].
    apply Forall2_fmap_r, Forall_Forall2_diag, Forall_forall. intros q _. cbn. unfold put_nowait.
    destruct (Nat.leb_spec QUEUE_MAX_SIZE (length (q_items q))); [split; [done|lia]|done].
Qed.

(** Offline delivery marks only after publishing: with any Redis and topic
    faults, a key that was not marked is marked by an attempt only if that
    attempt published the message; an attempt that finds the mark publishes
    nothing. *)
Theorem deliver_once_marks_after_publish present key msg ttl s :
  let '(res, s') := deliver_once present key msg ttl s in
  (~ delivered key (r_data (ds_redis s)) -> delivered key (r_data (ds_redis s')) ->
     ds_published s' = msg :: ds_published s) /\
  (ds_published s' = ds_published s \/ ds_published s' = msg :: ds_published s) /\
  (res = inr false -> ds_published s' = ds_published s) /\
  (res = inr true -> ds_published s' = msg :: ds_published s).
Proof.
  unfold deliver_once. set (k := DELIVERED_KEY_PREFIX ++ key).
  assert (forall b : bool, exists s1 seen, (if b then try_except (v ← d_redis (redis_get k); mret (match v with Some (_ :: _) => true | _ => false end))
            (fun _ => mret false) else mret false) s = (inr seen, s1) /\
            r_data (ds_redis s1) = r_data (ds_redis s) /\ ds_published s1 = ds_published s /\ ds_sns s1 = ds_sns s) as Hseen.
  { intros [|]; [|by exists s, false]. unfold try_except, d_redis. unfold mbind, M_bind.
    pose proof (command_keeps (fun d => d = r_data (ds_redis s)) (c_get k)) as Hk.
    unfold keeps, on_data in Hk. specialize (Hk ltac:(intros now d ->; unfold c_get; destruct (live now _ k) as [[]|]; done) (ds_redis s) eq_refl).
    unfold redis_get. destruct (command (c_get k) (ds_redis s)) as [[e|v] r1]; cbn in *; eauto 6. }
  destruct (Hseen present) as (s1 & seen & E & Hd & Hp & Hs). unfold mbind at 1, M_bind at 1. rewrite E. clear E Hseen.
  destruct seen.
  { cbn. rewrite Hp. unfold delivered. rewrite Hd. split_and!; [done|by left|done|done]. }
  unfold mbind, M_bind. unfold publish_sns. rewrite Hs.
  destruct (match ds_sns s with [] => (NoFault, []) | f :: fs => (f, fs) end) as [f fs].
  assert (forall s2 : dstate, exists s3, (if present then try_except (d_redis (redis_set k (lit "1") false (Some ttl)) ≫= fun _ => mret tt)
            (fun _ => mret tt) else mret tt) s2 = (inr tt, s3) /\ ds_published s3 = ds_published s2) as Hmark.
  { intros s2. destruct present; [|by exists s2]. unfold try_except, d_redis. unfold mbind, M_bind.
    destruct (redis_set k (lit "1") false (Some ttl) (ds_redis s2)) as [[e|v] r1]; eauto. }
  destruct f; cbn [ds_published ds_redis over].
  - destruct (Hmark (s1 <| ds_sns := fs |> <| ds_published := msg :: ds_published s1 |>)) as (s3 & E3 & Hp3).
    unfold mbind, M_bind in E3. cbn [over] in E3. 
    match goal with |- context [(if present then ?a else ?b) ?st] => replace ((if present then a else b) st) with (inr tt : exn + unit, s3) by (symmetry; exact E3) end.
    cbn in Hp3. rewrite Hp in Hp3. cbn. split_and!; [done|by right|done|done].
  - cbn. rewrite Hp. unfold delivered. rewrite Hd. split_and!; [done|by left|done|done].
  - cbn. rewrite Hp. unfold delivered. rewrite Hd. split_and!; [done|by right|done|done].
Qed.

(** ** Witnesses *)

Definition demo_notification (t : Z) : Notification :=
  {| n_user_id := 7; kind := LIKE_POST; actor_id := None; n_post_id := None; n_comment_id := None;
     read_at := None; n_created_at := t |}.

Definition demo_notifications : db :=
  empty_db <| notifications := {[1 := demo_notification 0; 2 := demo_notification (99 * DAY)]} |>.

Lemma purge_old_notifications_exact_witness :
  exists n d', purge_old_notifications id (100 * DAY) 30 10 demo_notifications = (inr (Some (Z.of_nat n)), d') /\ n = 1%nat.
Proof.
  destruct (purge_old_notifications_exact id (100 * DAY) 30 10 demo_notifications) as (n & d' & E & _); [reflexivity|].
  exists n, d'. split; [exact E|].
  assert ((purge_old_notifications id (100 * DAY) 30 10 demo_notifications).1 = inr (Some 1)) as H by (vm_compute; reflexivity).
  rewrite E in H. injection H. lia.
Defined.

Lemma sse_bounded_witness :
  py_len (bucket_of 7 (register 2 7 100 ∅).2) <= 2.
Proof.
  destruct (sse_bounded 2 (register 2 7 100 ∅).2 7 (lit "x")) as [H _].
  - eapply sr_step; [apply sr_init|]. apply sse_register. intros u b q Hu. by rewrite lookup_empty in Hu.
  - destruct (H 7 [{| q_id := 100; q_items := [] |}]) as (_ & Hb & _); [reflexivity|exact Hb].
Defined.
