(* ===== verification/Comments.v ===== *)
(** * Comments ([app/domain/comments])

    Two-level threads: roots of a post and replies to roots.  The repository's
    visibility predicates and statements, the listing with reply previews, the
    keyset continuation, and the services that keep the post's comment count. *)

From S2P Require Import Prelude Common Db Posts Notifications.

(** ** Visibility ([comments/repository.py]) *)

(** [_reply_visible_conditions] *)
Definition reply_visible (viewer : option Z) (d : db) (c : Comment) : bool :=
  bool_decide (c_deleted_at c = None) && negb (c_is_blinded c) && author_not_blocked (author_id c) viewer d.

Definition is_reply_of (root : Z) (c : Comment) : bool := bool_decide (parent_id c = Some root).

Definition reply_exists (root : Z) (viewer : option Z) (d : db) : bool :=
  existsb (fun p => is_reply_of root p.2 && reply_visible viewer d p.2) (map_to_list (comments d)).

(** The [conds] of [page_root_comments]: a deleted root stays as a placeholder
    while it has a visible reply. *)
Definition root_conds (post_id : Z) (viewer : option Z) (d : db) (i : Z) (c : Comment) : bool :=
  bool_decide (c_post_id c = post_id) && bool_decide (parent_id c = None) && negb (c_is_blinded c) &&
  (bool_decide (c_deleted_at c = None) || reply_exists i viewer d) && author_not_blocked (author_id c) viewer d.

(** ** Statements *)

Record CommentAuthorPermissionRow := {
  pr_comment_id : option Z; pr_comment_post_id : option Z; pr_comment_author_id : option Z;
}.

(** [Post LEFT JOIN Comment]: one row while the post is alive. *)
Definition load_comment_author_permission_row (post_id comment_id : Z) (include_deleted : bool) (d : db)
  : option CommentAuthorPermissionRow :=
  p ← posts d !! post_id;
  if decide (deleted_at p = None) then
    Some match comments d !! comment_id with
         | Some c =>
             if include_deleted || bool_decide (c_deleted_at c = None)
             then {| pr_comment_id := Some comment_id; pr_comment_post_id := Some (c_post_id c);
                     pr_comment_author_id := author_id c |}
             else {| pr_comment_id := None; pr_comment_post_id := None; pr_comment_author_id := None |}
         | None => {| pr_comment_id := None; pr_comment_post_id := None; pr_comment_author_id := None |}
         end
  else None.

Definition create_comment_row (now new_id post_id user : Z) (text : ustr) (parent : option Z) : M db Z :=
  insert_row new_id
    {| c_post_id := post_id; author_id := Some user; parent_id := parent; c_content := text;
       c_like_count := 0; c_report_count := 0; c_is_blinded := false;
       c_created_at := now; c_updated_at := now; c_deleted_at := None |}
    (fun d => bool_decide (is_Some (posts d !! post_id)) && bool_decide (is_Some (users d !! user)) &&
              ref_ok (comments d) parent) ;;
  mret new_id.

(** The meta readers return the row; callers look at post, parent, author and
    deletion. *)
Definition get_comment_meta (comment_id : Z) (d : db) : option Comment := comments d !! comment_id.

Definition get_visible_root_meta (comment_id : Z) (d : db) : option Comment :=
  c ← comments d !! comment_id; if c_is_blinded c then None else Some c.

Definition get_visible_comment_meta (comment_id : Z) (viewer : option Z) (d : db) : option Comment :=
  c ← comments d !! comment_id; if reply_visible viewer d c then Some c else None.

(** Sort key of the root listing: likes then id for "popular", id for "latest",
    both descending. *)
Definition root_order (popular : bool) : (Z * Comment) -> Z * Z :=
  fun r => (if popular then c_like_count r.2 else 0, r.1).

Definition visible_roots (post_id : Z) (popular : bool) (viewer : option Z) (d : db) : list (Z * Comment) :=
  order_by (root_order popular) (lex_ltb zdesc zdesc) (select_where (root_conds post_id viewer d) d).

Definition page_root_comments (post_id offset sz : Z) (popular : bool) (viewer : option Z) (d : db)
  : list (Z * Comment) * Z :=
  (offset_limit offset sz (visible_roots post_id popular viewer d),
   py_len (select_where (root_conds post_id viewer d) d)).

Definition visible_replies (root : Z) (viewer : option Z) (d : db) : list (Z * Comment) :=
  order_by fst zdesc (select_where (fun _ c => is_reply_of root c && reply_visible viewer d c) d).

(** Row number at most [limit_per_root] in the partition of the parent, with
    the partition's size. *)
Definition get_reply_previews_for_roots (root_ids : list Z) (limit_per_root : Z) (viewer : option Z) (d : db)
  : list ((Z * Comment) * Z) :=
  flat_map (fun root =>
    let all := visible_replies root viewer d in
    (fun r => (r, py_len all)) <$> take (Z.to_nat limit_per_root) all) root_ids.

(** [_apply_id_keyset] on the replies of a root. *)
Definition get_replies_page (root sz : Z) (cursor : option Z) (oldest : bool) (viewer : option Z) (d : db)
  : list (Z * Comment) :=
  let cmp := if oldest then Z.ltb else zdesc in
  take (Z.to_nat (sz + 1))
    (order_by fst cmp
       (select_where (fun i c => is_reply_of root c && reply_visible viewer d c &&
                                 match cursor with Some k => cmp k i | None => true end) d)).

Definition update_comment_row (now post_id comment_id : Z) (text : ustr) : M db bool :=
  is_some (update_one_returning
    (fun k c => bool_decide (k = comment_id) && (bool_decide (c_post_id c = post_id) && bool_decide (c_deleted_at c = None)))
    (fun c => c <| c_content := text |> <| c_updated_at := now |>) (fun k _ => Some k)).

(** RETURNING yields NULL for a blinded comment. *)
Definition delete_comment_row (now post_id comment_id : Z) : M db (option Z) :=
  update_one_returning
    (fun k c => bool_decide (k = comment_id) && (bool_decide (c_post_id c = post_id) && bool_decide (c_deleted_at c = None)))
    (fun c => c <| c_deleted_at := Some now |>)
    (fun _ c => if c_is_blinded c then None else Some (c_post_id c)).

(** [_update_comment]: [touch] also stamps [updated_at]. *)
Definition update_comment_columns {A} (now comment_id : Z) (alive touch : bool) (returning : Z -> Comment -> option A)
    (values : Comment -> Comment) : M db (option A) :=
  update_one_returning
    (fun k c => bool_decide (k = comment_id) && (negb alive || bool_decide (c_deleted_at c = None)))
    (fun c => if touch then values c <| c_updated_at := now |> else values c) returning.

Definition comment_increment_report_count (comment_id : Z) : M db (option Z) :=
  update_one_returning
    (fun k c => bool_decide (k = comment_id) && (bool_decide (c_deleted_at c = None) && bool_decide (is_Some (author_id c))))
    (fun c => c <| c_report_count := c_report_count c + 1 |>) (fun _ c => Some (c_report_count c)).

Definition blind_if_visible (now comment_id : Z) : M db (option Z) :=
  update_one_returning
    (fun k c => bool_decide (k = comment_id) && (bool_decide (c_deleted_at c = None) && negb (c_is_blinded c)))
    (fun c => c <| c_is_blinded := true |> <| c_updated_at := now |>) (fun _ c => Some (c_post_id c)).

Definition unblind_if_blinded (now comment_id : Z) : M db (option Z) :=
  update_one_returning
    (fun k c => bool_decide (k = comment_id) && (bool_decide (c_deleted_at c = None) && c_is_blinded c))
    (fun c => c <| c_is_blinded := false |> <| c_updated_at := now |>) (fun _ c => Some (c_post_id c)).

Definition comment_reset_report_count (now comment_id : Z) : M db bool :=
  is_some (update_comment_columns now comment_id true true (fun k _ => Some k) (fun c => c <| c_report_count := 0 |>)).

(** The rows [count_visible_for_post] counts; the LEFT JOIN finds the parent. *)
Definition counted (post_id : Z) (d : db) (_ : Z) (c : Comment) : bool :=
  bool_decide (c_post_id c = post_id) && bool_decide (c_deleted_at c = None) && negb (c_is_blinded c) &&
  match parent_id c with
  | None => true
  | Some r => match comments d !! r with
              | Some p => bool_decide (c_deleted_at p = None) && negb (c_is_blinded p)
              | None => false
              end
  end.

Definition count_visible_for_post (post_id : Z) (d : db) : Z := py_len (select_where (counted post_id d) d).

Definition comment_get_like_count (comment_id : Z) : M db Z :=
  gets (fun d => match comments d !! comment_id with Some c => c_like_count c | None => 0 end).
Definition comment_increment_like_count (now comment_id : Z) : M db Z :=
  or_zero (update_comment_columns now comment_id false false (fun _ c => Some (c_like_count c))
             (fun c => c <| c_like_count := c_like_count c + 1 |>)).
Definition comment_decrement_like_count (now comment_id : Z) : M db Z :=
  or_zero (update_comment_columns now comment_id false false (fun _ c => Some (c_like_count c))
             (fun c => c <| c_like_count := Z.max (c_like_count c - 1) 0 |>)).

Definition decrement_comment_like_counts_for_users (user_ids : list Z) : M db unit :=
  decrement_counter_by_link_owner comment_likes c_like_count (fun n (c : Comment) => c <| c_like_count := n |>) user_ids.

Definition get_liked_comment_ids_for_user (user : Z) (comment_ids : list Z) (d : db) : list Z :=
  List.filter (fun i => bool_decide (is_Some (comment_likes d !! (i, user)))) comment_ids.

(** ** Responses ([comments/service.py]) *)

Definition REPLY_PREVIEW_LIMIT : Z := 3.

Inductive shown_content := Shown (text : ustr) | DeletedPlaceholder.

Record CommentResponse := {
  cm_id : Z; cm_content : shown_content; cm_author : option Z; cm_parent : option Z; cm_like_count : Z;
  cm_is_liked : bool; cm_is_edited : bool; cm_is_deleted : bool;
}.

Definition comment_to_response (liked : list Z) (r : Z * Comment) : CommentResponse :=
  {| cm_id := r.1;
     cm_content := match c_deleted_at r.2 with None => Shown (c_content r.2) | Some _ => DeletedPlaceholder end;
     cm_author := author_id r.2; cm_parent := parent_id r.2; cm_like_count := c_like_count r.2;
     cm_is_liked := bool_decide (r.1 ∈ liked);
     cm_is_edited := c_created_at r.2 <? c_updated_at r.2;
     cm_is_deleted := bool_decide (is_Some (c_deleted_at r.2)) |}.

Record RootResponse := {
  rr_root : CommentResponse; rr_replies : list CommentResponse; rr_reply_count : Z; rr_has_more : bool;
}.

(** [_build_comment_tree]: previews are attached to their parent, sorted by id
    descending; the count is the one the rows carry. *)
Definition build_root (liked : list Z) (previews : list ((Z * Comment) * Z)) (root : Z * Comment) : RootResponse :=
  let mine := List.filter (fun p => bool_decide (parent_id p.1.2 = Some root.1)) previews in
  let replies := order_by cm_id zdesc ((fun p => comment_to_response liked p.1) <$> mine) in
  let total := match last mine with Some (_, n) => n | None => 0 end in
  {| rr_root := comment_to_response liked root; rr_replies := replies; rr_reply_count := total;
     rr_has_more := py_len replies <? total |}.

Definition build_comment_tree (roots : list (Z * Comment)) (previews : list ((Z * Comment) * Z)) (liked : list Z)
  : list RootResponse := build_root liked previews <$> roots.

(** ** [CommentService] *)

Definition ensure_post_visible (post_id : Z) (viewer : option Z) : M db unit :=
  d ← get; if post_is_visible post_id viewer d then mret tt else raise PostNotFoundException.

(** The transaction of [create_comment]: the new id and the notification to
    publish after the commit. *)
Definition create_comment (now new_id nid post_id user : Z) (text : ustr) (parent : option Z)
  : M db (Z * option NotificationEvent) :=
  begin_tx
    (d ← get;
     match get_visible_post_author post_id (Some user) d with
     | None => raise PostNotFoundException
     | Some post_author =>
         match parent with
         | None => mret tt
         | Some pid =>
             match get_comment_meta pid d with
             | Some p =>
                 if bool_decide (c_deleted_at p = None) && bool_decide (c_post_id p = post_id) && bool_decide (parent_id p = None)
                 then mret tt else raise CommentNotFoundException
             | None => raise CommentNotFoundException
             end
         end ;;
         cid ← create_comment_row now new_id post_id user text parent;
         increment_comment_count now post_id ;;
         match post_author with
         | Some a =>
             if decide (a = user) then mret (cid, None)
             else ev ← record now nid a COMMENT_ON_POST (Some user) (Some post_id) (Some cid);
                  mret (cid, Some ev)
         | None => mret (cid, None)
         end
     end).

Definition get_comments (post_id page sz : Z) (popular : bool) (viewer : option Z) : M db (list RootResponse * Z) :=
  begin_tx
    (ensure_post_visible post_id viewer ;;
     d ← get;
     let '(roots, total) := page_root_comments post_id (offset_of page sz) sz popular viewer d in
     let previews := get_reply_previews_for_roots roots.*1 REPLY_PREVIEW_LIMIT viewer d in
     let liked := match viewer with
                  | Some u => get_liked_comment_ids_for_user u (roots.*1 ++ ((fun p => p.1.1) <$> previews)) d
                  | None => []
                  end in
     mret (build_comment_tree roots previews liked, total)).

Definition get_replies (post_id root sz : Z) (oldest : bool) (cursor viewer : option Z)
  : M db (list CommentResponse * bool) :=
  begin_tx
    (ensure_post_visible post_id viewer ;;
     d ← get;
     match get_visible_root_meta root d with
     | Some m =>
         if bool_decide (c_post_id m = post_id) && bool_decide (parent_id m = None) then
           let '(replies, has_more) := split_page (get_replies_page root sz cursor oldest viewer d) sz in
           let liked := match viewer with
                        | Some u => get_liked_comment_ids_for_user u replies.*1 d
                        | None => []
                        end in
           mret (comment_to_response liked <$> replies, has_more)
         else raise CommentNotFoundException
     | None => raise CommentNotFoundException
     end).

Definition update_comment (now post_id comment_id : Z) (text : ustr) : M db unit :=
  begin_tx (ok ← update_comment_row now post_id comment_id text;
            if ok : bool then mret tt else raise CommentNotFoundException).

Definition delete_comment (now post_id comment_id : Z) : M db unit :=
  begin_tx
    (deleted_from ← delete_comment_row now post_id comment_id;
     match deleted_from with
     | Some pid => decrement_comment_count now pid ;; mret tt
     | None =>
         d ← get;
         match get_comment_meta comment_id d with
         | Some m => if bool_decide (c_post_id m = post_id) && bool_decide (is_Some (c_deleted_at m))
                     then mret tt else raise CommentNotFoundException
         | None => raise CommentNotFoundException
         end
     end).

(** ** [CommentModeration] *)

Definition resync_count (now post_id : Z) : M db unit :=
  d ← get;
  set_comment_count now post_id (count_visible_for_post post_id d) ;;
  mret tt.

Definition comment_is_alive (comment_id : Z) : M db bool :=
  gets (fun d => match get_comment_meta comment_id d with
                 | Some m => bool_decide (c_deleted_at m = None)
                 | None => false
                 end).

Definition comment_set_blinded (now comment_id : Z) : M db bool :=
  o ← blind_if_visible now comment_id;
  match o with
  | Some pid => resync_count now pid ;; mret true
  | None => comment_is_alive comment_id
  end.

Definition comment_unblind (now comment_id : Z) : M db bool :=
  o ← unblind_if_blinded now comment_id;
  match o with
  | Some pid => resync_count now pid ;; mret true
  | None => comment_is_alive comment_id
  end.

Definition comment_reset_reports (now comment_id : Z) : M db bool :=
  comment_unblind now comment_id ;;
  comment_reset_report_count now comment_id.

(** ** Lemmas: thread shape *)

(** Replies hang off roots of the same post. *)
Definition thread_shape (d : db) : Prop :=
  forall k c r, comments d !! k = Some c -> parent_id c = Some r ->
    exists p, comments d !! r = Some p /\ parent_id p = None /\ c_post_id p = c_post_id c.

(** The columns the shape depends on. *)
Definition shape_of (c : Comment) : Z * option Z := (c_post_id c, parent_id c).

Lemma thread_shape_same d d' :
  (forall k, shape_of <$> comments d' !! k = shape_of <$> comments d !! k) -> thread_shape d -> thread_shape d'.
Proof.
  intros Hs Hd k c r Hk Hr. pose proof (Hs k) as Ek. rewrite Hk in Ek. cbn in Ek.
  destruct (comments d !! k) as [c0|] eqn:E0; [|done]. injection Ek as E1 E2.
  destruct (Hd k c0 r E0) as (p & Hp & Hpp & Hpost); [congruence|].
  pose proof (Hs r) as Er. rewrite Hp in Er. destruct (comments d' !! r) as [p'|]; [|done]. injection Er as F1 F2.
  exists p'. split; [done|]. split; congruence.
Qed.

Lemma shape_insert d k c c' :
  comments d !! k = Some c -> shape_of c' = shape_of c ->
  forall j, shape_of <$> (<[k := c']> (comments d)) !! j = shape_of <$> comments d !! j.
Proof.
  intros Hk Hs j. destruct (decide (j = k)) as [->|]; [|by rewrite lookup_insert_ne].
  rewrite lookup_insert_eq, Hk. cbn. by rewrite Hs.
Qed.

(** Statements on posts leave comments alone. *)
Lemma update_post_columns_comments {A : Type} now pid alive (ret : Z -> Post -> option A) f d :
  comments (update_post_columns now pid alive ret f d).2 = comments d.
Proof.
  unfold update_post_columns. rewrite update_one_returning_pk. cbn [rows set_rows posts_table].
  destruct (posts d !! pid) as [p|]; [|done]. by destruct (negb alive || _).
Qed.

(** A post-counter update, computed. *)
Lemma is_some_post_update now pid f d :
  is_some (update_post_columns now pid false ret_id f) d =
  match posts d !! pid with
  | Some p => (inr true, d <| posts := <[pid := f p <| updated_at := now |>]> (posts d) |>)
  | None => (inr false, d)
  end.
Proof.
  unfold is_some, update_post_columns. unfold mbind, M_bind. rewrite update_one_returning_pk.
  cbn [rows set_rows posts_table negb orb]. destruct (posts d !! pid) as [p|]; [|done].
  cbn [mret M_ret ret_id]. by rewrite bool_decide_eq_true_2 by (by eexists).
Qed.

Lemma resync_count_spec now pid d :
  resync_count now pid d =
  match posts d !! pid with
  | Some p => (inr tt, d <| posts := <[pid := p <| comment_count := Z.max 0 (count_visible_for_post pid d) |> <| updated_at := now |>]> (posts d) |>)
  | None => (inr tt, d)
  end.
Proof.
  unfold resync_count, set_comment_count, get. unfold mbind, M_bind. rewrite is_some_post_update.
  by destruct (posts d !! pid).
Qed.

(** ** Lemmas: counting *)

Lemma count_visible_posts d f pid : count_visible_for_post pid (d <| posts := f |>) = count_visible_for_post pid d.
Proof. done. Qed.

Lemma count_visible_size pid d :
  count_visible_for_post pid d = Z.of_nat (base.size (filter (fun p => counted pid d p.1 p.2 = true) (comments d))).
Proof. unfold count_visible_for_post, py_len. by rewrite select_where_length. Qed.

(** The effect on the count of changing the one row [k]. *)
Lemma count_visible_change pid d k x :
  let d' := d <| comments := <[k := x]> (comments d) |> in
  (forall j y, j <> k -> comments d !! j = Some y -> counted pid d j y = counted pid d' j y) ->
  count_visible_for_post pid d' + match comments d !! k with Some y => if counted pid d k y then 1 else 0 | None => 0 end =
  count_visible_for_post pid d + if counted pid d' k x then 1 else 0.
Proof.
  intros d' Hext. rewrite !count_visible_size.
  pose proof (size_filter_insert (fun p => counted pid d p.1 p.2 = true) (fun p => counted pid d' p.1 p.2 = true)
    (comments d) k x) as H. cbn [fst snd] in H.
  change (comments d') with (<[k := x]> (comments d)).
  specialize (H ltac:(intros j y Hne Hj; by rewrite (Hext j y Hne Hj))).
  destruct (comments d !! k) as [y|].
  - destruct (counted pid d k y), (counted pid d' k x); repeat destruct (decide _); try done; lia.
  - destruct (counted pid d' k x); destruct (decide _); try done; lia.
Qed.

(** Other rows are counted as before unless the changed row is their parent and
    its visibility changed. *)
Lemma counted_frame pid d k x j y :
  (forall y0, parent_id y = Some k -> comments d !! k = Some y0 ->
     bool_decide (c_deleted_at y0 = None) && negb (c_is_blinded y0) = bool_decide (c_deleted_at x = None) && negb (c_is_blinded x)) ->
  (parent_id y = Some k -> is_Some (comments d !! k)) ->
  counted pid d j y = counted pid (d <| comments := <[k := x]> (comments d) |>) j y.
Proof.
  intros Hv Hex. unfold counted. f_equal. destruct (parent_id y) as [r|]; [|done]. cbn [comments over].
  destruct (decide (r = k)) as [->|]; [|by rewrite lookup_insert_ne].
  rewrite lookup_insert_eq. destruct (Hex eq_refl) as [y0 E]. rewrite E. by rewrite (Hv y0 eq_refl E).
Qed.

(** The count column agrees with what is countable. *)
Definition count_ok (pid : Z) (d : db) : Prop :=
  exists p, posts d !! pid = Some p /\ comment_count p = count_visible_for_post pid d.

Lemma count_visible_nonneg pid d : 0 <= count_visible_for_post pid d.
Proof. unfold count_visible_for_post, py_len. lia. Qed.

(** What a successful creation did, up to the notification row. *)
Lemma create_comment_effect now new_id nid pid user text parent d cid ev d' :
  create_comment now new_id nid pid user text parent d = (inr (cid, ev), d') ->
  exists p c, posts d !! pid = Some p /\ cid = new_id /\ comments d !! new_id = None /\
    c_post_id c = pid /\ parent_id c = parent /\ c_deleted_at c = None /\ c_is_blinded c = false /\
    author_id c = Some user /\ post_visible (Some user) d p = true /\
    (forall r, parent = Some r -> exists q, comments d !! r = Some q /\ c_deleted_at q = None /\ c_post_id q = pid /\ parent_id q = None) /\
    comments d' = <[new_id := c]> (comments d) /\
    posts d' = <[pid := p <| comment_count := comment_count p + 1 |> <| updated_at := now |>]> (posts d) /\
    (is_Some ev <-> exists a, user_id p = Some a /\ a <> user).
Proof.
  unfold create_comment, begin_tx, get. unfold mbind at 1, M_bind at 1. unfold get_visible_post_author.
  destruct (posts d !! pid) as [p|] eqn:Ep; cbn [mbind option_bind]; [|done].
  destruct (post_visible (Some user) d p) eqn:Evis; [|done].
  set (chk := match parent with None => _ | Some _ => _ end).
  assert (forall x d1, chk d = (inr x, d1) -> d1 = d /\
    forall r, parent = Some r -> exists q, comments d !! r = Some q /\ c_deleted_at q = None /\ c_post_id q = pid /\ parent_id q = None) as Hchk.
  { subst chk. intros x d1. destruct parent as [r|]; [|by intros [= _ <-]]. unfold get_comment_meta.
    destruct (comments d !! r) as [q|] eqn:Eq; [|done]. destruct (_ && _) eqn:Eb; [|done]. intros [= _ <-].
    rewrite !andb_true_iff, !bool_decide_eq_true in Eb. split; [done|]. intros ? [= <-]. exists q. tauto. }
  unfold mbind, M_bind. destruct (chk d) as [[e|x] d1]; [done|]. destruct (Hchk x d1 eq_refl) as [-> Hpar]. clear Hchk.
  unfold create_comment_row. unfold mbind, M_bind. unfold insert_row. cbn [rows set_rows comments_table].
  destruct (comments d !! new_id) eqn:En; [done|]. destruct (_ && _); [|done]. cbn [mret M_ret].
  unfold increment_comment_count. rewrite is_some_post_update. cbn [posts over]. rewrite Ep.
  match goal with |- context [<[new_id := ?x]> (comments d)] => set (c := x) end.
  destruct (user_id p) as [a|] eqn:Eu.
  - destruct (decide (a = user)) as [->|Hne].
    + intros [= <- <- <-]. exists p, c. split_and!; try done. split; [by intros []|]. intros (b & ? & ?). congruence.
    + unfold record, insert_notification. unfold mbind, M_bind. unfold insert_row. cbn [rows set_rows notifications_table].
      destruct (_ !! nid); [done|]. destruct (_ && _); [|done]. intros [= <- <- <-].
      exists p, c. split_and!; try done. split; [|by eexists]. intros _. by exists a.
  - intros [= <- <- <-]. exists p, c. split_and!; try done. split; [by intros []|]. intros (b & ? & _). congruence.
Qed.

(** Deletion on every branch. *)
Lemma delete_comment_spec now pid cid d :
  delete_comment now pid cid d =
  match comments d !! cid with
  | Some c =>
      if bool_decide (c_post_id c = pid) then
        if c_deleted_at c then (inr tt, d)
        else
          let d1 := d <| comments := <[cid := c <| c_deleted_at := Some now |>]> (comments d) |> in
          if c_is_blinded c then (inr tt, d1)
          else (inr tt, match posts d !! pid with
                        | Some p => d1 <| posts := <[pid := p <| comment_count := Z.max (comment_count p - 1) 0 |> <| updated_at := now |>]> (posts d) |>
                        | None => d1
                        end)
      else (inl CommentNotFoundException, d)
  | None => (inl CommentNotFoundException, d)
  end.
Proof.
  unfold delete_comment, begin_tx, delete_comment_row. unfold mbind at 1, M_bind at 1. rewrite update_one_returning_pk.
  cbn [rows set_rows comments_table]. destruct (comments d !! cid) as [c|] eqn:Ec.
  - destruct (bool_decide (c_post_id c = pid)) eqn:Ep; cbn [andb].
    + apply bool_decide_eq_true in Ep. destruct (c_deleted_at c) as [t|] eqn:Et.
      * rewrite (bool_decide_eq_false_2 (Some t = None)) by done. unfold get, get_comment_meta. unfold mbind, M_bind.
        rewrite Ec, Et, !bool_decide_eq_true_2 by done. done.
      * rewrite (bool_decide_eq_true_2 (None = None)) by done. cbn [c_is_blinded over].
        destruct (c_is_blinded c) eqn:Eb.
        -- unfold get, get_comment_meta. unfold mbind, M_bind. cbn [comments over]. rewrite lookup_insert_eq. cbn.
           by rewrite !bool_decide_eq_true_2 by done.
        -- cbn [c_post_id over]. rewrite Ep. unfold mbind, M_bind. unfold decrement_comment_count.
           rewrite is_some_post_update. cbn [posts over]. by destruct (posts d !! pid).
    + unfold get, get_comment_meta. unfold mbind, M_bind. by rewrite Ec, Ep.
  - unfold get, get_comment_meta. unfold mbind, M_bind. by rewrite Ec.
Qed.

(** Moderation transitions, computed. *)
Lemma comment_blind_transition now cid d d' :
  comment_set_blinded now cid d = (inr true, d') \/ comment_unblind now cid d = (inr true, d') ->
  (comments d' = comments d /\ posts d' = posts d) \/
  exists c c', comments d !! cid = Some c /\ shape_of c' = shape_of c /\ comments d' = <[cid := c']> (comments d) /\
    (is_Some (posts d !! c_post_id c) -> count_ok (c_post_id c) d').
Proof.
  assert (forall c c' (b : bool), comments d !! cid = Some c -> shape_of c' = shape_of c ->
    (resync_count now (c_post_id c) ;; mret b) (d <| comments := <[cid := c']> (comments d) |>) = (inr b, d') ->
    exists c c', comments d !! cid = Some c /\ shape_of c' = shape_of c /\ comments d' = <[cid := c']> (comments d) /\
    (is_Some (posts d !! c_post_id c) -> count_ok (c_post_id c) d')) as Hcore.
  { intros c c' b Hc Hs. unfold mbind, M_bind. rewrite resync_count_spec. cbn [posts over].
    destruct (posts d !! c_post_id c) as [p|] eqn:Ep; intros [= <-]; exists c, c'; (split; [done|]); (split; [done|]); (split; [done|]);
      [|rewrite Ep; by intros []].
    intros _. eexists. split; [cbn [posts over]; apply lookup_insert_eq|]. cbn [comment_count over].
    rewrite Z.max_r by apply count_visible_nonneg. done. }
  intros [E|E].
  - unfold comment_set_blinded, blind_if_visible in E. unfold mbind at 1, M_bind at 1 in E. rewrite update_one_returning_pk in E.
    cbn [rows set_rows comments_table] in E. destruct (comments d !! cid) as [c|] eqn:Ec.
    + destruct (_ && _);
      [right; eapply (Hcore c _ true eq_refl); [|exact E]; done|left]. unfold comment_is_alive, gets in E. by injection E as _ <-.
    + left. unfold comment_is_alive, gets in E. by injection E as _ <-.
  - unfold comment_unblind, unblind_if_blinded in E. unfold mbind at 1, M_bind at 1 in E. rewrite update_one_returning_pk in E.
    cbn [rows set_rows comments_table] in E. destruct (comments d !! cid) as [c|] eqn:Ec.
    + destruct (_ && _);
      [right; eapply (Hcore c _ true eq_refl); [|exact E]; done|left]. unfold comment_is_alive, gets in E. by injection E as _ <-.
    + left. unfold comment_is_alive, gets in E. by injection E as _ <-.
Qed.

(** ** Lemmas: replies *)

Lemma visible_replies_strict root viewer d :
  StronglySorted (listed_before fst zdesc) (visible_replies root viewer d).
Proof. apply order_by_strict; [apply _|apply select_where_nodup]. Qed.

Lemma visible_replies_elem root viewer d i c :
  (i, c) ∈ visible_replies root viewer d <->
  comments d !! i = Some c /\ parent_id c = Some root /\ reply_visible viewer d c = true.
Proof.
  unfold visible_replies. rewrite (order_by_perm fst zdesc), select_where_elem. unfold is_reply_of.
  rewrite andb_true_iff, bool_decide_eq_true. done.
Qed.

(** Of all previews, those of one root are that root's newest replies. *)
Lemma previews_of_root roots limit viewer d root :
  NoDup roots -> root ∈ roots ->
  List.filter (fun p => bool_decide (parent_id p.1.2 = Some root)) (get_reply_previews_for_roots roots limit viewer d) =
  (fun r => (r, py_len (visible_replies root viewer d))) <$> take (Z.to_nat limit) (visible_replies root viewer d).
Proof.
  unfold get_reply_previews_for_roots.
  assert (forall r (l : list (Z * Comment)) n b, (forall x, x ∈ l -> parent_id x.2 = Some r) -> b = bool_decide (r = root) ->
    List.filter (fun p : (Z * Comment) * Z => bool_decide (parent_id p.1.2 = Some root)) ((fun x => (x, n)) <$> l) =
    if b then (fun x => (x, n)) <$> l else []) as Hseg.
  { intros r l n b Hl ->. induction l as [|x l IH]; cbn; [by destruct (bool_decide _)|].
    rewrite (Hl x) by set_solver. rewrite IH by (intros; apply Hl; set_solver).
    destruct (decide (r = root)) as [->|Hne]; [by rewrite !bool_decide_eq_true_2|].
    by rewrite !bool_decide_eq_false_2 by congruence. }
  assert (forall r x, x ∈ take (Z.to_nat limit) (visible_replies r viewer d) -> parent_id x.2 = Some r) as Hpar.
  { intros r [i c] Hx. apply elem_of_take in Hx as (k & Hk & _). apply list_elem_of_lookup_2 in Hk.
    apply visible_replies_elem in Hk as (_ & Hp & _). exact Hp. }
  induction roots as [|r roots IH]; intros Hnd Hin; [by apply not_elem_of_nil in Hin|].
  apply NoDup_cons in Hnd as [Hr Hnd]. cbn [flat_map]. rewrite List.filter_app.
  rewrite (Hseg r _ _ _ (Hpar r) eq_refl).
  destruct (decide (r = root)) as [->|Hne].
  - rewrite bool_decide_eq_true_2 by done.
    assert (forall l, root ∉ l -> List.filter (fun p : (Z * Comment) * Z => bool_decide (parent_id p.1.2 = Some root))
      (flat_map (fun r => let all := visible_replies r viewer d in (fun x => (x, py_len all)) <$> take (Z.to_nat limit) all) l) = []) as Hnil.
    { clear -Hseg Hpar. intros l. induction l as [|q l IH]; intros Hq; [done|]. cbn [flat_map]. rewrite List.filter_app.
      rewrite (Hseg q _ _ _ (Hpar q) eq_refl). apply not_elem_of_cons in Hq as [Hq1 Hq2].
      rewrite bool_decide_eq_false_2 by congruence. exact (IH Hq2). }
    etransitivity; [apply (f_equal (app _)); exact (Hnil roots Hr)|apply app_nil_r].
  - rewrite bool_decide_eq_false_2 by done. cbn [app]. apply IH; [done|]. by apply elem_of_cons in Hin as [->|].
Qed.

Lemma order_by_id {A K} (key : A -> K) ltb `{!StrictTotal ltb} l :
  StronglySorted (listed_before key ltb) l -> order_by key ltb l = l.
Proof.
  intros Hs. apply (strict_sorted_unique key ltb); [|done|apply order_by_perm].
  apply order_by_strict; [done|]. induction Hs as [|x l Hs IH Hx]; [constructor|]. cbn. apply NoDup_cons. split; [|done].
  intros (y & E & Hy)%list_elem_of_fmap. rewrite Forall_forall in Hx. specialize (Hx y Hy). unfold listed_before in Hx.
  rewrite E in Hx. by rewrite (st_irrefl ltb) in Hx.
Qed.

Lemma strict_sorted_take {A} (R : A -> A -> Prop) n l : StronglySorted R l -> StronglySorted R (take n l).
Proof.
  intros Hs. revert n. induction Hs as [|x l Hs IH Hx]; intros [|n]; cbn; try constructor; [apply IH|].
  rewrite Forall_forall in *. intros y Hy. apply Hx. apply elem_of_take in Hy as (k & Hk & _). by eapply list_elem_of_lookup_2.
Qed.

(** The root's entry in the listing. *)
Lemma build_root_spec liked roots limit viewer d (root : Z * Comment) :
  NoDup roots -> root.1 ∈ roots -> 0 <= limit ->
  let all := visible_replies root.1 viewer d in
  let rr := build_root liked (get_reply_previews_for_roots roots limit viewer d) root in
  rr_replies rr = comment_to_response liked <$> take (Z.to_nat limit) all /\
  (0 < limit -> rr_reply_count rr = py_len all /\ rr_has_more rr = (limit <? py_len all)).
Proof.
  intros Hnd Hin Hlim all. unfold build_root. rewrite (previews_of_root roots limit viewer d root.1 Hnd Hin). fold all.
  cbn [rr_replies rr_reply_count rr_has_more]. rewrite <-list_fmap_compose.
  assert (order_by cm_id zdesc (((fun p : (Z * Comment) * Z => comment_to_response liked p.1) ∘ (fun r => (r, py_len all))) <$> take (Z.to_nat limit) all)
          = comment_to_response liked <$> take (Z.to_nat limit) all) as ->.
  { change (((fun p : (Z * Comment) * Z => comment_to_response liked p.1) ∘ (fun r => (r, py_len all))) <$> take (Z.to_nat limit) all)
      with (comment_to_response liked <$> take (Z.to_nat limit) all).
    apply (order_by_id cm_id zdesc). pose proof (strict_sorted_take _ (Z.to_nat limit) _ (visible_replies_strict root.1 viewer d)) as Hs.
    fold all in Hs. induction Hs as [|x l Hs IH Hx]; cbn; constructor; [done|]. rewrite Forall_fmap. exact Hx. }
  split; [done|]. intros Hl. rewrite fmap_last. unfold py_len. rewrite length_fmap, length_take.
  destruct all as [|x all'] eqn:Ea; [rewrite take_nil; cbn [last fmap option_fmap option_map length]; rewrite Nat.min_0_r; split; [done|];
    destruct (Z.ltb_spec limit (Z.of_nat 0)); [lia|done]|]. rewrite <-Ea.
  destruct (last (take (Z.to_nat limit) all)) as [y|] eqn:El.
  - cbn. split; [done|].
    destruct (Z.ltb_spec limit (Z.of_nat (length all))), (Z.ltb_spec (Z.of_nat (Z.to_nat limit `min` length all)) (Z.of_nat (length all))); try done; lia.
  - apply last_None in El. rewrite Ea in El. destruct (Z.to_nat limit) eqn:E; [lia|done].
Qed.

(** A client continuing a thread from a cursor. *)
Fixpoint replies_walk (fuel : nat) (root sz : Z) (cursor : option Z) (viewer : option Z) (d : db) : list (list (Z * Comment)) :=
  match fuel with
  | O => []
  | S f =>
      let '(page, has_more) := split_page (get_replies_page root sz cursor false viewer d) sz in
      page :: if has_more then replies_walk f root sz (fst <$> last page) viewer d else []
  end.

Lemma replies_walk_keyset fuel root sz cursor viewer d :
  replies_walk fuel root sz cursor viewer d =
  keyset_walk fst zdesc fuel cursor sz (select_where (fun _ c => is_reply_of root c && reply_visible viewer d c) d).
Proof.
  revert cursor. induction fuel as [|fuel IH]; intros cursor; [done|]. cbn [replies_walk keyset_walk].
  assert (get_replies_page root sz cursor false viewer d =
    keyset_fetch fst zdesc cursor sz (select_where (fun _ c => is_reply_of root c && reply_visible viewer d c) d)) as ->.
  { unfold get_replies_page, keyset_fetch. f_equal. f_equal.
    rewrite (select_where_and (fun _ c => is_reply_of root c && reply_visible viewer d c)
               (fun i _ => match cursor with Some k => zdesc k i | None => true end)).
    apply filter_ext. intros [i c]. by destruct cursor. }
  destruct (split_page _ _) as [page more]. f_equal. destruct more; [|done]. apply IH.
Qed.

(** ** Properties *)

(** C9. Threads have two levels: every operation keeps the shape in which a
    reply's parent exists, is itself a root and belongs to the same post, so a
    thread never nests deeper and never crosses posts. *)
Theorem thread_shape_preserved now new_id nid pid cid user text parent :
  keeps thread_shape (create_comment now new_id nid pid user text parent) /\
  keeps thread_shape (update_comment now pid cid text) /\
  keeps thread_shape (delete_comment now pid cid) /\
  (forall d d', thread_shape d -> comment_set_blinded now cid d = (inr true, d') \/ comment_unblind now cid d = (inr true, d') ->
     thread_shape d').
Proof.
  split_and!.
  - intros d Hd. destruct (create_comment _ _ _ _ _ _ _ d) as [[e|[i ev]] d'] eqn:E; cbn.
    + by apply begin_tx_error in E as ->.
    + apply create_comment_effect in E as (p & c & _ & -> & Hnone & Hpost & Hpar & _ & _ & _ & _ & Hroot & Hc & _).
      intros k x r Hk Hr. rewrite Hc in Hk |- *. destruct (decide (k = new_id)) as [->|Hne].
      * rewrite lookup_insert_eq in Hk. injection Hk as <-. rewrite Hpar in Hr.
        destruct (Hroot r Hr) as (q & Hq & _ & Hqp & Hqr). exists q. rewrite lookup_insert_ne by congruence. by rewrite Hpost.
      * rewrite lookup_insert_ne in Hk by done. destruct (Hd k x r Hk Hr) as (q & Hq & H1 & H2).
        exists q. by rewrite lookup_insert_ne by congruence.
  - intros d. apply thread_shape_same. intros k. unfold update_comment, begin_tx, update_comment_row, is_some.
    unfold mbind, M_bind. rewrite update_one_returning_pk. cbn [rows set_rows comments_table].
    destruct (comments d !! cid) as [c|] eqn:Ec; [|done]. destruct (_ && _); [|done]. cbn [mret M_ret].
    rewrite bool_decide_eq_true_2 by (by eexists). cbn [snd comments over]. by apply (shape_insert d cid c).
  - intros d. apply thread_shape_same. intros k. rewrite delete_comment_spec.
    destruct (comments d !! cid) as [c|] eqn:Ec; [|done]. destruct (bool_decide _); [|done].
    destruct (c_deleted_at c); [done|]. destruct (c_is_blinded c); cbn [snd]; [|destruct (posts d !! pid)];
      cbn [comments over]; by apply (shape_insert d cid c).
  - intros d d' Hd Ht. apply (thread_shape_same d); [|done]. intros k.
    destruct (comment_blind_transition now cid d d' Ht) as [[-> _]|(c & c' & Hc & Hs & -> & _)]; [done|].
    by apply (shape_insert d cid c).
Qed.

(** The comment count after moderation: whenever a blind or an unblind
    actually changes a comment, the post's count afterwards is the number of
    comments its own rule counts, whatever it was before. *)
Theorem moderation_resyncs_count now cid d d' c :
  comments d !! cid = Some c -> is_Some (posts d !! c_post_id c) ->
  comment_set_blinded now cid d = (inr true, d') \/ comment_unblind now cid d = (inr true, d') ->
  (comments d' = comments d /\ posts d' = posts d) \/ count_ok (c_post_id c) d'.
Proof.
  intros Hc Hp Ht. destruct (comment_blind_transition now cid d d' Ht) as [?|(c0 & c' & Hc0 & _ & _ & Hok)]; [by left|].
  right. rewrite Hc in Hc0. injection Hc0 as <-. by apply Hok.
Qed.

(** Writing and deleting keep the count in the cases the incremental
    update covers: a new root, or a new reply to a root that is not blinded; the
    deletion of a reply whose root is visible, or of a root without countable
    replies. *)
Theorem incremental_count_preserved now new_id nid pid cid user text parent d :
  thread_shape d -> count_ok pid d ->
  (forall i ev d', create_comment now new_id nid pid user text parent d = (inr (i, ev), d') ->
     (forall r p, parent = Some r -> comments d !! r = Some p -> c_is_blinded p = false) ->
     count_ok pid d') /\
  (forall c d', delete_comment now pid cid d = (inr tt, d') -> comments d !! cid = Some c ->
     (forall r p, parent_id c = Some r -> comments d !! r = Some p -> c_deleted_at p = None /\ c_is_blinded p = false) ->
     (forall j y, comments d !! j = Some y -> parent_id y = Some cid -> reply_visible None d y = false) ->
     count_ok pid d').
Proof.
  intros Hshape (p & Hp & Hcount). split.
  - intros i ev d' E Hbl.
    apply create_comment_effect in E as (p' & c & Hp' & _ & Hnone & Hpost & Hpar & Hdel & Hb & _ & _ & Hroot & Hc & Hps & _).
    rewrite Hp in Hp'. injection Hp' as <-.
    assert (count_visible_for_post pid d' = count_visible_for_post pid (d <| comments := <[new_id := c]> (comments d) |>)) as Ecnt.
    { unfold count_visible_for_post, select_where, counted. cbn [rows comments_table comments over]. by rewrite Hc. }
    eexists. split; [rewrite Hps; apply lookup_insert_eq|]. cbn [comment_count over]. rewrite Ecnt, Hcount.
    pose proof (count_visible_change pid d new_id c) as Hch. cbv zeta in Hch. rewrite Hnone in Hch.
    assert (counted pid (d <| comments := <[new_id := c]> (comments d) |>) new_id c = true) as Hnew.
    { unfold counted. rewrite Hpost, Hdel, Hb, !bool_decide_eq_true_2 by done. cbn [andb negb]. rewrite Hpar.
      destruct parent as [r|]; [|done]. destruct (Hroot r eq_refl) as (q & Hq & Hqd & _). cbn [comments over].
      rewrite lookup_insert_ne by congruence. rewrite Hq, Hqd, (Hbl r q eq_refl Hq). by rewrite bool_decide_eq_true_2. }
    rewrite Hnew in Hch. cbv match in Hch. symmetry. rewrite Z.add_0_r in Hch. apply Hch. intros j y Hne Hj.
    apply counted_frame; [|]; intros Hy; [congruence|].
    destruct (Hshape j y new_id Hj) as (q & Hq & _); [congruence|]. eauto.
  - intros c d' E Hc Hparent Hreplies. rewrite delete_comment_spec, Hc in E.
    destruct (bool_decide (c_post_id c = pid)) eqn:Epid; [|done]. apply bool_decide_eq_true in Epid.
    destruct (c_deleted_at c) eqn:Edel; [injection E as <-; by exists p|].
    set (x := c <| c_deleted_at := Some now |>) in *.
    assert (forall j y, j <> cid -> comments d !! j = Some y ->
      counted pid d j y = counted pid (d <| comments := <[cid := x]> (comments d) |>) j y) as Hframe.
    { intros j y Hne Hj. destruct (decide (parent_id y = Some cid)) as [Hy|Hy].
      - assert (counted pid d j y = false /\ counted pid (d <| comments := <[cid := x]> (comments d) |>) j y = false) as [-> ->]; [|done].
        specialize (Hreplies j y Hj Hy). unfold reply_visible in Hreplies. cbn [author_not_blocked] in Hreplies.
        rewrite andb_true_r in Hreplies. unfold counted.
        rewrite <-!(andb_assoc (bool_decide (c_post_id y = pid))), Hreplies. by rewrite !andb_false_r.
      - by apply counted_frame. }
    pose proof (count_visible_change pid d cid x Hframe) as Hch. cbv zeta in Hch. rewrite Hc in Hch.
    assert (counted pid (d <| comments := <[cid := x]> (comments d) |>) cid x = false) as Hx0.
    { unfold counted, x. cbn. by rewrite !andb_false_r. }
    rewrite Hx0 in Hch.
    destruct (c_is_blinded c) eqn:Ebl.
    + injection E as <-. exists p. split; [done|].
      assert (counted pid d cid c = false) as Hc0 by (unfold counted; rewrite Ebl; cbn; by rewrite !andb_false_r).
      rewrite Hc0 in Hch. cbv match in Hch. change (count_visible_for_post pid _) with (count_visible_for_post pid (d <| comments := <[cid := x]> (comments d) |>)).
      rewrite Hcount. rewrite !Z.add_0_r in Hch. symmetry. exact Hch.
    + rewrite Hp in E. injection E as <-. eexists. split; [cbn [posts over]; apply lookup_insert_eq|]. cbn [comment_count over].
      assert (counted pid d cid c = true) as Hc1.
      { unfold counted. rewrite Epid, Edel, Ebl, !bool_decide_eq_true_2 by done. cbn [andb negb].
        destruct (parent_id c) as [r|] eqn:Er; [|done]. destruct (Hshape cid c r Hc Er) as (q & Hq & _). rewrite Hq.
        destruct (Hparent r q eq_refl Hq) as [-> ->]. by rewrite bool_decide_eq_true_2. }
      rewrite Hc1 in Hch. cbv match in Hch. rewrite count_visible_posts.
      pose proof (count_visible_nonneg pid (d <| comments := <[cid := x]> (comments d) |>)). lia.
Qed.

(** Reply previews and "more" fit together: in a page of roots every root
    carries its newest visible replies, at most three, with the exact number of
    its visible replies and the matching flag; and continuing the thread from
    the last preview lists precisely the remaining replies, newest first, no
    reply twice. *)
Theorem previews_then_pages_enumerate liked roots viewer d (root : Z * Comment) sz fuel :
  NoDup roots -> root.1 ∈ roots -> 1 <= sz -> (length (visible_replies root.1 viewer d) < fuel)%nat ->
  let all := visible_replies root.1 viewer d in
  let rr := build_root liked (get_reply_previews_for_roots roots REPLY_PREVIEW_LIMIT viewer d) root in
  rr_replies rr = comment_to_response liked <$> take 3 all /\
  rr_reply_count rr = py_len all /\ rr_has_more rr = (3 <? py_len all) /\
  concat (replies_walk fuel root.1 sz (fst <$> last (take 3 all)) viewer d) = drop 3 all /\
  Forall (fun page => py_len page <= sz) (replies_walk fuel root.1 sz (fst <$> last (take 3 all)) viewer d).
Proof.
  intros Hnd Hin Hs Hf all rr.
  destruct (build_root_spec liked roots REPLY_PREVIEW_LIMIT viewer d root Hnd Hin) as [H1 H2]; [done|].
  destruct (H2 eq_refl) as [H3 H4]. fold all in H1, H3, H4. fold rr in H1, H3, H4.
  split; [done|]. split; [done|]. split; [done|]. rewrite replies_walk_keyset.
  apply (keyset_walk_rest fst zdesc fuel sz _ (take 3 all) (drop 3 all)).
  - apply select_where_nodup.
  - done.
  - by rewrite take_drop.
  - done.
  - rewrite length_drop. fold all in Hf. lia.
Qed.

(** ** Where the count and the listing part ways *)

Definition demo_comment (parent : option Z) (blinded : bool) (del : option Z) : Comment :=
  {| c_post_id := 1; author_id := Some 8; parent_id := parent; c_content := lit "x"; c_like_count := 0;
     c_report_count := 0; c_is_blinded := blinded; c_created_at := 0; c_updated_at := 0; c_deleted_at := del |}.

Definition demo_thread (cs : gmap Z Comment) (n : Z) : db :=
  demo_db <| comments := cs |> <| posts := {[1 := demo_post 7 <| comment_count := n |>]} |>.

(** The counting rule is not the listing rule: a reply under a deleted root
    is listed (its root stays as a placeholder, and the thread can be paged) but
    not counted, so the next moderation action on the post drops it from the
    displayed number. *)
Theorem deleted_root_replies_listed_not_counted :
  let d := demo_thread {[10 := demo_comment None false None; 11 := demo_comment (Some 10) false None;
                         12 := demo_comment None true None]} 2 in
  let d1 := (delete_comment 50 1 10 d).2 in
  let d2 := (comment_unblind 60 12 d1).2 in
  comment_count <$> posts d1 !! 1 = Some 1 /\
  (fst <$> visible_roots 1 false None d2) = [12; 10] /\ (fst <$> visible_replies 10 None d2) = [11] /\
  comment_count <$> posts d2 !! 1 = Some 1 /\
  (length (List.filter (fun r => bool_decide (c_deleted_at r.2 = None)) (visible_roots 1 false None d2)) +
   length (visible_replies 10 None d2) = 2)%nat.
Proof. vm_compute. split_and!; reflexivity. Qed.

(** Replies of a blinded root are counted twice over: blinding the root
    already removed them from the count, yet deleting one of them lowers it
    again, and a reply can still be written under the blinded root and raises
    it although nobody can see it. *)
Theorem blinded_root_count_drifts :
  let d := demo_thread {[10 := demo_comment None false None; 11 := demo_comment (Some 10) false None;
                         12 := demo_comment None false None]} 3 in
  let d1 := (comment_set_blinded 50 10 d).2 in
  comment_count <$> posts d1 !! 1 = Some 1 /\ count_visible_for_post 1 d1 = 1 /\
  (let d2 := (delete_comment 60 1 11 d1).2 in
   comment_count <$> posts d2 !! 1 = Some 0 /\ count_visible_for_post 1 d2 = 1) /\
  (let d3 := (create_comment 60 13 20 1 8 (lit "y") (Some 10) d1).2 in
   comment_count <$> posts d3 !! 1 = Some 2 /\ count_visible_for_post 1 d3 = 1).
Proof. vm_compute. split_and!; reflexivity. Qed.

(** ** Witnesses *)

Definition demo_three : db :=
  demo_thread {[10 := demo_comment None false None; 11 := demo_comment (Some 10) false None;
                12 := demo_comment None false None]} 3.

Lemma demo_three_shape : thread_shape demo_three.
Proof.
  intros k c r Hk Hr. unfold demo_three, demo_thread in *. cbn [comments over] in *.
  apply lookup_insert_Some in Hk as [[<- <-]|[_ Hk]]; [discriminate|].
  apply lookup_insert_Some in Hk as [[<- <-]|[_ Hk]].
  - injection Hr as <-. eexists. split; [vm_compute; reflexivity|]. split; reflexivity.
  - apply lookup_singleton_Some in Hk as [<- <-]. discriminate.
Qed.

Lemma thread_shape_preserved_witness : thread_shape (delete_comment 50 1 11 demo_three).2.
Proof.
  destruct (thread_shape_preserved 50 0 0 1 11 0 [] None) as (_ & _ & H & _). apply (H demo_three).
  apply demo_three_shape.
Defined.

Lemma moderation_resyncs_count_witness : count_ok 1 (comment_set_blinded 50 10 demo_three).2.
Proof.
  destruct (comment_set_blinded 50 10 demo_three) as [[e|b] d'] eqn:E; [vm_compute in E; discriminate|].
  assert (b = true) as -> by (apply (f_equal fst) in E; vm_compute in E; congruence). cbn [snd].
  destruct (moderation_resyncs_count 50 10 demo_three d' (demo_comment None false None)) as [[H _]|H].
  - vm_compute. reflexivity.
  - vm_compute. eexists. reflexivity.
  - left. exact E.
  - exfalso. apply (f_equal (fun r => comments r.2 !! 10)) in E. cbn [snd] in E. rewrite H in E. vm_compute in E. discriminate.
  - exact H.
Defined.

Lemma incremental_count_preserved_witness : count_ok 1 (delete_comment 50 1 11 demo_three).2.
Proof.
  destruct (incremental_count_preserved 50 0 0 1 11 0 [] None demo_three) as [_ H].
  - apply demo_three_shape.
  - eexists. split; vm_compute; reflexivity.
  - destruct (delete_comment 50 1 11 demo_three) as [[e|[]] d'] eqn:E; [vm_compute in E; discriminate|].
    apply (H (demo_comment (Some 10) false None) d' eq_refl).
    + vm_compute. reflexivity.
    + intros r p [= <-] Hp. vm_compute in Hp. injection Hp as <-. done.
    + intros j y Hj Hy. unfold demo_three, demo_thread in Hj. cbn [comments over] in Hj.
      apply lookup_insert_Some in Hj as [[<- <-]|[_ Hj]]; [discriminate|].
      apply lookup_insert_Some in Hj as [[<- <-]|[_ Hj]]; [discriminate|].
      apply lookup_singleton_Some in Hj as [<- <-]. discriminate.
Defined.

Lemma previews_then_pages_enumerate_witness :
  rr_reply_count (build_root [] (get_reply_previews_for_roots [10; 12] REPLY_PREVIEW_LIMIT None demo_three)
                    (10, demo_comment None false None)) = 1.
Proof.
  etransitivity; [apply (previews_then_pages_enumerate [] [10; 12] None demo_three (10, demo_comment None false None) 5 2)|].
  - apply (bool_decide_unpack _). vm_compute. exact I.
  - apply (bool_decide_unpack _). vm_compute. exact I.
  - lia.
  - vm_compute. lia.
  - vm_compute. reflexivity.
Defined.
