(* ===== verification/Likes.v ===== *)
(** * Likes ([app/domain/likes], the comment-like rows of [app/domain/comments])

    Liking and withdrawing are written once against an interface, as
    [likes/service.py] does with [_Target], and instantiated for posts and
    comments.  The laws of the interface are what the service relies on; the
    counter theorems are proved from the laws and hold for both instances. *)

From S2P Require Import Prelude Common Db Posts Notifications Comments.

(** ** The interface *)

Record LikeNotify := {
  ln_author : option Z; ln_kind : NotificationKind; ln_post : option Z; ln_comment : option Z;
}.

(** [_Target]: the link and counter repositories and the two target checks. *)
Class LikeTarget := {
  links_create : Z -> Z -> Z -> M db bool;
  links_delete : Z -> Z -> M db bool;
  counter_increment : Z -> Z -> M db Z;
  counter_decrement : Z -> Z -> M db Z;
  counter_get : Z -> M db Z;
  resolve_for_like : Z -> Z -> M db LikeNotify;
  ensure_unlikeable : Z -> M db unit;
}.

(** ** [LikeService] *)

Section Service.
Context `{LikeTarget}.

(** The notification of a new like: none to the liker's own content. *)
Definition notify_like (now nid user : Z) (notify : LikeNotify) : M db (option NotificationEvent) :=
  match ln_author notify with
  | Some a =>
      if decide (a = user) then mret None
      else ev ← record now nid a (ln_kind notify) (Some user) (ln_post notify) (ln_comment notify);
           mret (Some ev)
  | None => mret None
  end.

(** The transaction of [_like]: (count, inserted) and the event to publish. *)
Definition like (now nid target user : Z) : M db ((Z * bool) * option NotificationEvent) :=
  begin_tx
    (notify ← resolve_for_like target user;
     try_except
       (inserted ← links_create now target user;
        if inserted : bool then
          n ← counter_increment now target;
          ev ← notify_like now nid user notify;
          mret ((n, true), ev)
        else n ← counter_get target; mret ((n, false), None))
       (fun e => if decide (e = StaleDataError) then raise ConcurrentUpdateException else raise e)).

Definition unlike (now target user : Z) : M db Z :=
  begin_tx
    (ensure_unlikeable target ;;
     try_except
       (deleted ← links_delete target user;
        if deleted : bool then counter_decrement now target else counter_get target)
       (fun e => if decide (e = StaleDataError) then raise ConcurrentUpdateException else raise e)).
End Service.

(** ** Instances *)

Definition resolve_post_for_like (post_id user : Z) : M db LikeNotify :=
  d ← get;
  match get_visible_post_author post_id (Some user) d with
  | None => raise PostNotFoundException
  | Some author => mret {| ln_author := author; ln_kind := LIKE_POST; ln_post := Some post_id; ln_comment := None |}
  end.

Definition ensure_post_unlikeable (post_id : Z) : M db unit :=
  d ← get; if post_is_visible post_id None d then mret tt else raise PostNotFoundException.

Definition resolve_comment_for_like (comment_id user : Z) : M db LikeNotify :=
  d ← get;
  match get_visible_comment_meta comment_id (Some user) d with
  | None => raise CommentNotFoundException
  | Some c => mret {| ln_author := author_id c; ln_kind := LIKE_COMMENT; ln_post := Some (c_post_id c);
                      ln_comment := Some comment_id |}
  end.

Definition ensure_comment_unlikeable (comment_id : Z) : M db unit :=
  d ← get;
  match get_comment_meta comment_id d with
  | Some c => if bool_decide (c_deleted_at c = None) then mret tt else raise CommentNotFoundException
  | None => raise CommentNotFoundException
  end.

Definition post_links_create (now post_id user : Z) : M db bool :=
  @insert_ignore _ _ _ _ post_likes_table (post_id, user) now
    (fun d => bool_decide (is_Some (posts d !! post_id)) && bool_decide (is_Some (users d !! user))).
Definition post_links_delete (post_id user : Z) : M db bool :=
  n ← @delete_rows _ _ _ _ post_likes_table (fun k _ => bool_decide (k = (post_id, user)));
  mret (0 <? n).
Definition comment_links_create (now comment_id user : Z) : M db bool :=
  @insert_ignore _ _ _ _ comment_likes_table (comment_id, user) now
    (fun d => bool_decide (is_Some (comments d !! comment_id)) && bool_decide (is_Some (users d !! user))).
Definition comment_links_delete (comment_id user : Z) : M db bool :=
  n ← @delete_rows _ _ _ _ comment_likes_table (fun k _ => bool_decide (k = (comment_id, user)));
  mret (0 <? n).

Definition POST_TARGET : LikeTarget :=
  {| links_create := post_links_create; links_delete := post_links_delete;
     counter_increment := increment_like_count; counter_decrement := decrement_like_count;
     counter_get := get_like_count; resolve_for_like := resolve_post_for_like;
     ensure_unlikeable := ensure_post_unlikeable |}.

Definition COMMENT_TARGET : LikeTarget :=
  {| links_create := comment_links_create; links_delete := comment_links_delete;
     counter_increment := comment_increment_like_count; counter_decrement := comment_decrement_like_count;
     counter_get := comment_get_like_count; resolve_for_like := resolve_comment_for_like;
     ensure_unlikeable := ensure_comment_unlikeable |}.

Definition like_post := like (H := POST_TARGET).
Definition unlike_post := unlike (H := POST_TARGET).
Definition like_comment := like (H := COMMENT_TARGET).
Definition unlike_comment := unlike (H := COMMENT_TARGET).

(** ** Laws

    [view] are the link rows, [counter] the count column of a live target. *)

Class LikeTargetLaws (T : LikeTarget) := {
  view : db -> gmap (Z * Z) Z;
  counter : db -> Z -> option Z;
  resolve_pure : forall t u d r d', resolve_for_like t u d = (r, d') -> d' = d /\ r <> inl StaleDataError;
  resolve_live : forall t u d n d', resolve_for_like t u d = (inr n, d') -> is_Some (counter d t);
  ensure_pure : forall t d r d', ensure_unlikeable t d = (r, d') -> d' = d;
  ensure_live : forall t d x d', ensure_unlikeable t d = (inr x, d') -> is_Some (counter d t);
  create_law : forall now t u d,
    match links_create now t u d with
    | (inr b, d') => b = bool_decide (view d !! (t, u) = None) /\ counter d' = counter d /\
        view d' = (if b then <[(t, u) := now]> (view d) else view d)
    | (inl e, d') => e = ForeignKeyViolation
    end;
  delete_law : forall t u d,
    exists d', links_delete t u d = (inr (bool_decide (is_Some (view d !! (t, u)))), d') /\
      view d' = delete (t, u) (view d) /\ counter d' = counter d;
  increment_law : forall now t d n, counter d t = Some n ->
    exists d', counter_increment now t d = (inr (n + 1), d') /\ view d' = view d /\
      counter d' t = Some (n + 1) /\ forall s, s <> t -> counter d' s = counter d s;
  decrement_law : forall now t d n, counter d t = Some n ->
    exists d', counter_decrement now t d = (inr (Z.max (n - 1) 0), d') /\ view d' = view d /\
      counter d' t = Some (Z.max (n - 1) 0) /\ forall s, s <> t -> counter d' s = counter d s;
  get_law : forall t d n, counter d t = Some n -> counter_get t d = (inr n, d);
  notify_frame : forall d ns, view (d <| notifications := ns |>) = view d /\ counter (d <| notifications := ns |>) = counter d;
}.
Arguments view {T _} _.
Arguments counter {T _} _ _.

(** ** Proofs from the laws *)

(** The number of likes a target has. *)
Definition likes_of (m : gmap (Z * Z) Z) (t : Z) : Z := Z.of_nat (base.size (filter (fun p => p.1.1 = t) m)).

Lemma likes_of_insert m t u now s : m !! (t, u) = None ->
  likes_of (<[(t, u) := now]> m) s = likes_of m s + if decide (s = t) then 1 else 0.
Proof.
  intros Hn. unfold likes_of. pose proof (size_filter_insert (fun p : (Z * Z) * Z => p.1.1 = s) (fun p : (Z * Z) * Z => p.1.1 = s) m (t, u) now) as H.
  rewrite Hn in H. cbn [fst] in H. specialize (H ltac:(done)). destruct (decide (s = t)), (decide (t = s)); try congruence; lia.
Qed.

Lemma likes_of_delete m t u s : is_Some (m !! (t, u)) ->
  likes_of (delete (t, u) m) s = likes_of m s - if decide (s = t) then 1 else 0.
Proof.
  intros [x Hx]. rewrite <-(insert_delete_id m (t, u) x Hx) at 2. rewrite likes_of_insert by apply lookup_delete_eq. lia.
Qed.

Section Counters.
Context {T : LikeTarget} `{!LikeTargetLaws T}.

(** The count column of every live target is its number of link rows. *)
Definition counters_ok (d : db) : Prop := forall t n, counter d t = Some n -> n = likes_of (view d) t.

Lemma record_frame now nid a k u p c d :
  match record now nid a k u p c d with
  | (inr ev, d') => view d' = view d /\ counter d' = counter d
  | (inl e, _) => e <> StaleDataError
  end.
Proof.
  unfold record, insert_notification. unfold mbind, M_bind. unfold insert_row. cbn [rows set_rows notifications_table].
  destruct (notifications d !! nid); [done|]. destruct (_ && _); [|done]. cbn. apply notify_frame.
Qed.

Lemma notify_frame_like now nid u nt d :
  match notify_like now nid u nt d with
  | (inr _, d') => view d' = view d /\ counter d' = counter d
  | (inl _, _) => True
  end.
Proof.
  unfold notify_like. destruct (ln_author nt) as [a|]; [|done]. destruct (decide (a = u)); [done|].
  unfold mbind, M_bind. pose proof (record_frame now nid a (ln_kind nt) (Some u) (ln_post nt) (ln_comment nt) d) as Hr.
  by destruct (record _ _ _ _ _ _ _ d) as [[e|ev] d'].
Qed.

(** [like] on both outcomes. *)
Lemma like_spec now nid t u d :
  match like now nid t u d with
  | (inl _, d') => d' = d
  | (inr ((n, inserted), ev), d') =>
      exists n0, counter d t = Some n0 /\ inserted = bool_decide (view d !! (t, u) = None) /\
        view d' = (if inserted then <[(t, u) := now]> (view d) else view d) /\
        n = (if inserted then n0 + 1 else n0) /\ counter d' t = Some n /\
        (forall s, s <> t -> counter d' s = counter d s) /\ (inserted = false -> ev = None)
  end.
Proof.
  destruct (like now nid t u d) as [[e|[[n ins] ev]] d'] eqn:E; [by apply begin_tx_error in E|].
  unfold like, begin_tx in E. unfold mbind at 1, M_bind at 1 in E.
  destruct (resolve_for_like t u d) as [[e|nt] d0] eqn:Er; [done|].
  pose proof (resolve_pure _ _ _ _ _ Er) as [-> _]. destruct (resolve_live _ _ _ _ _ Er) as [n0 Hn0]. exists n0.
  split; [done|]. unfold try_except in E. unfold mbind at 1, M_bind at 1 in E.
  pose proof (create_law now t u d) as Hc. destruct (links_create now t u d) as [[e|b] d1].
  { subst e. by destruct (decide _). }
  destruct Hc as (Hb & Hcnt & Hview). destruct b.
  - rewrite <-Hcnt in Hn0. destruct (increment_law now t d1 n0 Hn0) as (d2 & Ei & Hv2 & Hc2 & Ho2).
    unfold mbind, M_bind in E. rewrite Ei in E. pose proof (notify_frame_like now nid u nt d2) as Hf.
    destruct (notify_like now nid u nt d2) as [[e|ev'] d3]; [by destruct (decide _)|].
    destruct Hf as [Hv3 Hc3]. injection E as <- <- <- <-.
    split; [done|]. rewrite Hv3, Hc3. split; [congruence|]. split; [done|]. split; [done|]. split; [|done].
    intros s Hs. rewrite Ho2 by done. by rewrite Hcnt.
  - rewrite <-Hcnt in Hn0. unfold mbind, M_bind in E. rewrite (get_law t d1 n0 Hn0) in E. injection E as <- <- <- <-.
    split; [done|]. split; [done|]. split; [done|]. split; [done|]. split; [|done]. intros s _. by rewrite Hcnt.
Qed.

Lemma unlike_spec now t u d :
  match unlike now t u d with
  | (inl _, d') => d' = d
  | (inr n, d') =>
      exists n0, counter d t = Some n0 /\ view d' = delete (t, u) (view d) /\
        n = (if bool_decide (is_Some (view d !! (t, u))) then Z.max (n0 - 1) 0 else n0) /\ counter d' t = Some n /\
        (forall s, s <> t -> counter d' s = counter d s)
  end.
Proof.
  destruct (unlike now t u d) as [[e|n] d'] eqn:E; [by apply begin_tx_error in E|].
  unfold unlike, begin_tx in E. unfold mbind at 1, M_bind at 1 in E.
  destruct (ensure_unlikeable t d) as [[e|nt] d0] eqn:Er; [done|].
  pose proof (ensure_pure _ _ _ _ Er) as ->. destruct (ensure_live _ _ _ _ Er) as [n0 Hn0]. exists n0.
  split; [done|]. unfold try_except in E. unfold mbind at 1, M_bind at 1 in E.
  destruct (delete_law t u d) as (d1 & Ed & Hv & Hc). rewrite Ed in E. rewrite <-Hc in Hn0.
  destruct (bool_decide (is_Some (view d !! (t, u)))).
  - destruct (decrement_law now t d1 n0 Hn0) as (d2 & Ei & Hv2 & Hc2 & Ho2). rewrite Ei in E. injection E as <- <-.
    split; [congruence|]. split; [done|]. split; [done|]. intros s Hs. by rewrite Ho2, Hc.
  - rewrite (get_law t d1 n0 Hn0) in E. injection E as <- <-. split; [done|]. split; [done|]. split; [done|]. intros s _. by rewrite Hc.
Qed.

Lemma counters_ok_like now nid t u d : counters_ok d -> counters_ok (like now nid t u d).2.
Proof.
  intros Hok. pose proof (like_spec now nid t u d) as Hs.
  destruct (like now nid t u d) as [[e|[[n ins] ev]] d']; cbn [snd]; [by subst|].
  destruct Hs as (n0 & Hn0 & Hins & Hv & Hn & Hc & Ho & _). pose proof (Hok t n0 Hn0) as Hcount.
  intros s m Hm. rewrite Hv. destruct (decide (s = t)) as [->|Hne].
  - rewrite Hc in Hm. injection Hm as <-. rewrite Hn. destruct ins; [|done].
    symmetry in Hins. apply bool_decide_eq_true in Hins. rewrite likes_of_insert by done. destruct (decide (t = t)); [lia|done].
  - rewrite Ho in Hm by done. rewrite (Hok s m Hm). destruct ins; [|done].
    symmetry in Hins. apply bool_decide_eq_true in Hins. rewrite likes_of_insert by done. destruct (decide (s = t)); [done|lia].
Qed.

Lemma counters_ok_unlike now t u d : counters_ok d -> counters_ok (unlike now t u d).2.
Proof.
  intros Hok. pose proof (unlike_spec now t u d) as Hs.
  destruct (unlike now t u d) as [[e|n] d']; cbn [snd]; [by subst|].
  destruct Hs as (n0 & Hn0 & Hv & Hn & Hc & Ho). pose proof (Hok t n0 Hn0) as Hcount.
  assert (forall s, likes_of (view d') s = likes_of (view d) s - if bool_decide (is_Some (view d !! (t, u))) then (if decide (s = t) then 1 else 0) else 0) as Hl.
  { intros s. rewrite Hv. case_bool_decide as Hb; [by apply likes_of_delete|]. rewrite delete_id; [lia|]. by apply eq_None_not_Some. }
  intros s m Hm. rewrite Hl. destruct (decide (s = t)) as [->|Hne].
  - rewrite Hc in Hm. injection Hm as <-. rewrite Hn.
    destruct (bool_decide (is_Some (view d !! (t, u)))) eqn:Eb; [|lia].
    apply bool_decide_eq_true in Eb. pose proof (likes_of_delete (view d) t u t Eb) as Hd.
    destruct (decide (t = t)); [|done]. unfold likes_of in *. lia.
  - rewrite Ho in Hm by done. rewrite (Hok s m Hm). destruct (bool_decide _); lia.
Qed.
End Counters.

(** ** The two targets satisfy the laws *)

(** Deleting one link row by its key. *)
Lemma delete_link_row (T : Table (Z * Z) Z) t u d :
  @delete_rows _ _ _ _ T (fun k _ => bool_decide (k = (t, u))) d =
  (inr (if bool_decide (is_Some (rows d !! (t, u))) then 1 else 0), set_rows (delete (t, u) (rows d)) d).
Proof.
  unfold delete_rows. f_equal.
  - f_equal. pose proof (select_where_pk (t, u) (fun _ : Z => true) d) as Hs.
    assert (select_where (fun (k : Z * Z) (_ : Z) => bool_decide (k = (t, u))) d =
            select_where (fun (k : Z * Z) (r : Z) => bool_decide (k = (t, u)) && true) d) as ->.
    { unfold select_where. apply filter_ext. intros. by rewrite andb_true_r. }
    rewrite Hs. destruct (rows d !! (t, u)); [by rewrite bool_decide_eq_true_2 by done|].
    by rewrite bool_decide_eq_false_2 by (intros [? ?]; done).
  - f_equal. apply map_eq. intros k. destruct (decide (k = (t, u))) as [->|Hne].
    + rewrite lookup_delete_eq. apply map_lookup_filter_None. right. intros x _. cbn. by rewrite bool_decide_eq_true_2.
    + rewrite lookup_delete_ne by done. destruct (rows d !! k) as [x|] eqn:E.
      * apply map_lookup_filter_Some. split; [done|]. cbn. by apply bool_decide_eq_false_2.
      * apply map_lookup_filter_None. by left.
Qed.

Definition post_counter (d : db) (t : Z) : option Z :=
  p ← posts d !! t; if decide (deleted_at p = None) then Some (like_count p) else None.
Definition comment_counter (d : db) (t : Z) : option Z :=
  c ← comments d !! t; if decide (c_deleted_at c = None) then Some (c_like_count c) else None.

Lemma post_counter_update now t d p (f : Z -> Z) :
  posts d !! t = Some p -> deleted_at p = None ->
  let d' := d <| posts := <[t := p <| like_count := f (like_count p) |> <| updated_at := now |>]> (posts d) |> in
  post_counter d' t = Some (f (like_count p)) /\ forall s, s <> t -> post_counter d' s = post_counter d s.
Proof.
  intros Hp Hdel d'. unfold post_counter, d'. cbn [posts over]. split.
  - rewrite lookup_insert_eq. cbn. by rewrite decide_True.
  - intros s Hs. by rewrite lookup_insert_ne.
Qed.

Lemma comment_counter_update t d c (f : Z -> Z) :
  comments d !! t = Some c -> c_deleted_at c = None ->
  let d' := d <| comments := <[t := c <| c_like_count := f (c_like_count c) |>]> (comments d) |> in
  comment_counter d' t = Some (f (c_like_count c)) /\ forall s, s <> t -> comment_counter d' s = comment_counter d s.
Proof.
  intros Hp Hdel d'. unfold comment_counter, d'. cbn [comments over]. split.
  - rewrite lookup_insert_eq. cbn. by rewrite decide_True.
  - intros s Hs. by rewrite lookup_insert_ne.
Qed.

Lemma post_counter_inv d t n : post_counter d t = Some n ->
  exists p, posts d !! t = Some p /\ deleted_at p = None /\ n = like_count p.
Proof.
  unfold post_counter. destruct (posts d !! t) as [p|]; cbn; [|done]. case_decide; [|done]. intros [= <-]. by exists p.
Qed.
Lemma comment_counter_inv d t n : comment_counter d t = Some n ->
  exists c, comments d !! t = Some c /\ c_deleted_at c = None /\ n = c_like_count c.
Proof.
  unfold comment_counter. destruct (comments d !! t) as [p|]; cbn; [|done]. case_decide; [|done]. intros [= <-]. by exists p.
Qed.

Lemma post_visible_live v d p : post_visible v d p = true -> deleted_at p = None.
Proof. unfold post_visible. case_bool_decide; [done|]. done. Qed.

Lemma visible_meta_live t v d c : get_visible_comment_meta t v d = Some c -> is_Some (comment_counter d t).
Proof.
  unfold get_visible_comment_meta, comment_counter, reply_visible. destruct (comments d !! t) as [x|]; cbn; [|done].
  case_bool_decide; cbn; [|done]. intros _. by rewrite decide_True.
Qed.

#[export] Instance post_laws : LikeTargetLaws POST_TARGET.
Proof.
  refine {| view := post_likes; counter := post_counter |}; cbn [POST_TARGET links_create links_delete counter_increment counter_decrement counter_get resolve_for_like ensure_unlikeable].
  - intros t u d r d'. unfold resolve_post_for_like. unfold mbind, M_bind, get.
    destruct (get_visible_post_author t (Some u) d); intros [= <- <-]; done.
  - intros t u d n d'. unfold resolve_post_for_like, get_visible_post_author. unfold mbind, M_bind, get, post_counter.
    destruct (posts d !! t) as [p|]; cbn; [|done]. destruct (post_visible _ d p) eqn:Ev; [|done].
    intros _. rewrite decide_True by by eapply post_visible_live. done.
  - intros t d r d'. unfold ensure_post_unlikeable. unfold mbind, M_bind, get. destruct (post_is_visible t None d); by intros [= _ <-].
  - intros t d n d'. unfold ensure_post_unlikeable, post_is_visible. unfold mbind, M_bind, get, post_counter.
    destruct (posts d !! t) as [p|]; cbn; [|done]. destruct (post_visible _ d p) eqn:Ev; [|done].
    intros _. rewrite decide_True by by eapply post_visible_live. done.
  - intros now t u d. unfold post_links_create, insert_ignore. cbn [rows set_rows post_likes_table].
    destruct (post_likes d !! (t, u)); [done|]. destruct (_ && _); [|done]. done.
  - intros t u d. unfold post_links_delete. unfold mbind, M_bind. rewrite delete_link_row.
    cbn [rows set_rows post_likes_table].
    exists (d <| post_likes := delete (t, u) (post_likes d) |>). split; [|done]. by destruct (bool_decide _).
  - intros now t d n (p & Hp & Hdel & ->)%post_counter_inv. unfold increment_like_count, or_zero, update_post_columns.
    unfold mbind, M_bind. rewrite update_one_returning_pk. cbn [rows set_rows posts_table]. rewrite Hp. cbn [negb orb].
    eexists. split; [reflexivity|]. split; [done|]. apply (post_counter_update now t d p (fun n => n + 1) Hp Hdel).
  - intros now t d n (p & Hp & Hdel & ->)%post_counter_inv. unfold decrement_like_count, or_zero, update_post_columns.
    unfold mbind, M_bind. rewrite update_one_returning_pk. cbn [rows set_rows posts_table]. rewrite Hp. cbn [negb orb].
    eexists. split; [reflexivity|]. split; [done|]. apply (post_counter_update now t d p (fun n => Z.max (n - 1) 0) Hp Hdel).
  - intros t d n (p & Hp & Hdel & ->)%post_counter_inv. unfold get_like_count, gets. by rewrite Hp.
  - done.
Defined.

#[export] Instance comment_laws : LikeTargetLaws COMMENT_TARGET.
Proof.
  refine {| view := comment_likes; counter := comment_counter |}; cbn [COMMENT_TARGET links_create links_delete counter_increment counter_decrement counter_get resolve_for_like ensure_unlikeable].
  - intros t u d r d'. unfold resolve_comment_for_like. unfold mbind, M_bind, get.
    destruct (get_visible_comment_meta t (Some u) d); intros [= <- <-]; done.
  - intros t u d n d'. unfold resolve_comment_for_like. unfold mbind, M_bind, get.
    destruct (get_visible_comment_meta t (Some u) d) as [c|] eqn:E; [|done]. intros _.
    by apply visible_meta_live in E.
  - intros t d r d'. unfold ensure_comment_unlikeable. unfold mbind, M_bind, get.
    destruct (get_comment_meta t d) as [c|]; [|by intros [= _ <-]]. destruct (bool_decide _); by intros [= _ <-].
  - intros t d n d'. unfold ensure_comment_unlikeable, get_comment_meta. unfold mbind, M_bind, get, comment_counter.
    destruct (comments d !! t) as [c|]; [|done]. case_bool_decide; [|done]. intros _. cbn. by rewrite decide_True.
  - intros now t u d. unfold comment_links_create, insert_ignore. cbn [rows set_rows comment_likes_table].
    destruct (comment_likes d !! (t, u)); [done|]. destruct (_ && _); [|done]. done.
  - intros t u d. unfold comment_links_delete. unfold mbind, M_bind. rewrite delete_link_row.
    cbn [rows set_rows comment_likes_table].
    exists (d <| comment_likes := delete (t, u) (comment_likes d) |>). split; [|done]. by destruct (bool_decide _).
  - intros now t d n (c & Hc & Hdel & ->)%comment_counter_inv. unfold comment_increment_like_count, or_zero, update_comment_columns.
    unfold mbind, M_bind. rewrite update_one_returning_pk. cbn [rows set_rows comments_table]. rewrite Hc. cbn [negb orb].
    eexists. split; [reflexivity|]. split; [done|]. exact (comment_counter_update t d c (fun n => n + 1) Hc Hdel).
  - intros now t d n (c & Hc & Hdel & ->)%comment_counter_inv. unfold comment_decrement_like_count, or_zero, update_comment_columns.
    unfold mbind, M_bind. rewrite update_one_returning_pk. cbn [rows set_rows comments_table]. rewrite Hc. cbn [negb orb].
    eexists. split; [reflexivity|]. split; [done|]. exact (comment_counter_update t d c (fun n => Z.max (n - 1) 0) Hc Hdel).
  - intros t d n (c & Hc & Hdel & ->)%comment_counter_inv. unfold comment_get_like_count, gets. by rewrite Hc.
  - done.
Defined.

(** ** Properties *)

Inductive LikeRequest := ReqLike (now nid target user : Z) | ReqUnlike (now target user : Z).

Section Requests.
Context {T : LikeTarget} `{!LikeTargetLaws T}.

(** One request: the target and the count answered, if it succeeded. *)
Definition handle (q : LikeRequest) (d : db) : option (Z * Z) * db :=
  match q with
  | ReqLike now nid t u =>
      match like now nid t u d with (inr ((n, _), _), d') => (Some (t, n), d') | (inl _, d') => (None, d') end
  | ReqUnlike now t u =>
      match unlike now t u d with (inr n, d') => (Some (t, n), d') | (inl _, d') => (None, d') end
  end.

Fixpoint serve (qs : list LikeRequest) (d : db) : list (option (Z * Z) * db) :=
  match qs with
  | [] => []
  | q :: qs => let r := handle q d in r :: serve qs r.2
  end.

Lemma handle_ok q d : counters_ok d ->
  counters_ok (handle q d).2 /\
  forall t n, (handle q d).1 = Some (t, n) -> n = likes_of (view (handle q d).2) t.
Proof.
  intros Hok. destruct q as [now nid t u|now t u]; cbn [handle].
  - pose proof (counters_ok_like now nid t u d Hok) as Hok'. pose proof (like_spec now nid t u d) as Hs.
    destruct (like now nid t u d) as [[e|[[n i] ev]] d']; cbn [fst snd] in *; (split; [done|]); [done|].
    destruct Hs as (_ & _ & _ & _ & _ & Hc & _). intros ? ? [= <- <-]. by apply Hok'.
  - pose proof (counters_ok_unlike now t u d Hok) as Hok'. pose proof (unlike_spec now t u d) as Hs.
    destruct (unlike now t u d) as [[e|n] d']; cbn [fst snd] in *; (split; [done|]); [done|].
    destruct Hs as (_ & _ & _ & _ & Hc & _). intros ? ? [= <- <-]. by apply Hok'.
Qed.

(** C10. Whatever sequence of like and unlike requests a target type serves,
    every count answered is the number of users who like the target at that
    moment, and every count column stays equal to the number of like rows. *)
Theorem like_counts_exact (qs : list LikeRequest) (d : db) :
  counters_ok d ->
  Forall (fun r => counters_ok r.2 /\ forall t n, r.1 = Some (t, n) -> n = likes_of (view r.2) t) (serve qs d).
Proof.
  revert d. induction qs as [|q qs IH]; intros d Hok; cbn [serve]; [done|]. pose proof (handle_ok q d Hok) as [Hok' Hr].
  constructor; [done|]. by apply IH.
Qed.

(** Liking is idempotent and withdrawing undoes it: when a like succeeded, a
    second like of the same user adds no row, no count and no notification, and a
    withdrawal answers one less and leaves the user without a like. *)
Theorem like_idempotent (now nid t u : Z) (d d1 : db) (n : Z) (inserted : bool) (ev : option NotificationEvent) :
  counters_ok d -> like now nid t u d = (inr ((n, inserted), ev), d1) ->
  match like now nid t u d1 with
  | (inr r, d2) => r = ((n, false), None) /\ view d2 = view d1 /\ forall s, counter d2 s = counter d1 s
  | (inl _, d2) => d2 = d1
  end /\
  match unlike now t u d1 with
  | (inr m, d2) => m = n - 1 /\ view d2 !! (t, u) = None /\ counter d2 t = Some (n - 1)
  | (inl _, d2) => d2 = d1
  end.
Proof.
  intros Hok E. pose proof (counters_ok_like now nid t u d Hok) as Hok1. pose proof (like_spec now nid t u d) as H1.
  rewrite E in H1, Hok1. cbn [snd] in Hok1. destruct H1 as (n0 & _ & Hins & Hv & _ & Hc & _ & _).
  assert (is_Some (view d1 !! (t, u))) as [x Hx].
  { rewrite Hv. destruct inserted; [rewrite lookup_insert_eq; by eexists|].
    symmetry in Hins. apply bool_decide_eq_false in Hins. by apply not_eq_None_Some. }
  split.
  - pose proof (like_spec now nid t u d1) as H2. destruct (like now nid t u d1) as [[e|[[m i] ev2]] d2]; [done|].
    destruct H2 as (n1 & Hn1 & Hi & Hv2 & Hm & Hc2 & Ho & Hev). rewrite Hx, bool_decide_eq_false_2 in Hi by done. subst i.
    rewrite Hc in Hn1. injection Hn1 as <-. rewrite (Hev eq_refl). subst m. split; [done|]. split; [done|].
    intros s. destruct (decide (s = t)) as [->|]; [by rewrite Hc2, Hc|by apply Ho].
  - pose proof (unlike_spec now t u d1) as H2. destruct (unlike now t u d1) as [[e|m] d2]; [done|].
    destruct H2 as (n1 & Hn1 & Hv2 & Hm & Hc2 & _). rewrite Hc in Hn1. injection Hn1 as <-.
    rewrite Hx, bool_decide_eq_true_2 in Hm by by eexists.
    pose proof (likes_of_delete (view d1) t u t ltac:(by eexists)) as Hl. rewrite (decide_True _ _ eq_refl) in Hl.
    pose proof (Hok1 t n Hc). unfold likes_of in *. assert (m = n - 1) as -> by lia.
    split; [done|]. split; [|done]. rewrite Hv2. apply lookup_delete_eq.
Qed.
End Requests.

(** A like on a post that was blinded afterwards cannot be withdrawn by its
    owner: the request answers not-found and changes nothing. *)
Theorem blinded_post_like_not_withdrawable (now post_id user : Z) (d : db) (p : Post) :
  posts d !! post_id = Some p -> is_blinded p = true ->
  unlike_post now post_id user d = (inl PostNotFoundException, d).
Proof.
  intros Hp Hb. unfold unlike_post, unlike, begin_tx. cbn [ensure_unlikeable POST_TARGET].
  unfold ensure_post_unlikeable, post_is_visible. unfold mbind, M_bind, get. rewrite Hp.
  unfold post_visible. rewrite Hb, andb_false_r. done.
Qed.

(** ** Witnesses *)

Lemma demo_counters_ok : counters_ok (T := POST_TARGET) demo_db.
Proof.
  intros t n (p & Hp & _ & ->)%post_counter_inv. apply elem_of_map_to_list in Hp.
  vm_compute in Hp. repeat (apply elem_of_cons in Hp as [[= -> ->]|Hp]; [done|]). by apply elem_of_nil in Hp.
Qed.

Lemma like_counts_exact_witness :
  counters_ok (T := POST_TARGET) demo_db /\
  fst <$> serve (T := POST_TARGET) [ReqLike 5 100 1 8; ReqLike 5 101 1 8; ReqLike 5 102 1 7; ReqUnlike 5 1 8; ReqLike 5 103 2 8] demo_db
    = [Some (1, 1); Some (1, 1); Some (1, 2); Some (1, 1); None] /\
  Forall (fun r => counters_ok (T := POST_TARGET) r.2 /\
            forall t n, r.1 = Some (t, n) -> n = likes_of (view (T := POST_TARGET) r.2) t)
    (serve (T := POST_TARGET) [ReqLike 5 100 1 8; ReqLike 5 101 1 8; ReqLike 5 102 1 7; ReqUnlike 5 1 8; ReqLike 5 103 2 8] demo_db).
Proof.
  split; [exact demo_counters_ok|]. split; [vm_compute; reflexivity|]. apply (like_counts_exact (T := POST_TARGET)). exact demo_counters_ok.
Defined.

Lemma like_idempotent_witness :
  exists d1, like_post 5 100 1 8 demo_db =
      (inr ((1, true), Some {| ev_notification_id := 100; ev_recipient := 7; ev_kind := LIKE_POST;
                               ev_actor := Some 8; ev_post := Some 1; ev_comment := None |}), d1) /\
    match unlike_post 5 1 8 d1 with
    | (inr m, d2) => m = 0 /\ post_likes d2 !! (1, 8) = None /\ post_counter d2 1 = Some 0
    | (inl _, d2) => d2 = d1
    end.
Proof.
  destruct (like_post 5 100 1 8 demo_db) as [[e|[[n i] ev]] d1] eqn:E; [vm_compute in E; discriminate|].
  pose proof (proj2 (like_idempotent (T := POST_TARGET) 5 100 1 8 demo_db d1 n i ev demo_counters_ok E)) as H.
  pose proof (f_equal fst E) as E1. vm_compute in E1. injection E1 as <- <- <-. exists d1. split; [reflexivity|exact H].
Defined.

Lemma blinded_post_like_not_withdrawable_witness :
  unlike_post 5 2 8 demo_db = (inl PostNotFoundException, demo_db).
Proof.
  apply (blinded_post_like_not_withdrawable 5 2 8 demo_db (demo_post 7 <| is_blinded := true |>)); reflexivity.
Defined.
