(* ===== verification/Views.v ===== *)
(** * View counting ([posts/services/post_service.py])

    A view is deduplicated per viewer by a Redis key, buffered in a Redis hash
    and moved to the database by a periodic flush: take the buffer away by
    renaming it, add its counts in one transaction, and on failure add what was
    taken back to the buffer.  The reading and the writing session are one store
    here (no replica lag). *)

From S2P Require Import Prelude Ids Common Redis Db World Search Posts.

Definition VIEW_BUFFER_KEY : ustr := lit "views:{v}:buffer".
Definition VIEW_FLUSH_LOCK_KEY : ustr := lit "views:{v}:flush:lock".
Definition drain_key (ulid : ustr) : ustr := lit "views:{v}:drain:" ++ ulid.

Arguments uuid_str : simpl never.

Definition view_redis_key (post_id : Z) (viewer_key : ustr) : ustr :=
  lit "view:post:" ++ uuid_str post_id ++ lit ":viewer:" ++ viewer_key.

(** [present] is [redis_client is not None]; the result is (count in the
    database directly, pending views in the buffer). *)
Definition track_view (present : bool) (ttl_seconds post_id : Z) (viewer_key : ustr) : M world (bool * Z) :=
  if negb present then mret (true, 0)
  else
    let field := uuid_str post_id in
    try_except
      (if ttl_seconds <=? 0 then
         n ← on_redis (redis_hincrby VIEW_BUFFER_KEY field 1); mret (false, n)
       else
         created ← on_redis (redis_set (view_redis_key post_id viewer_key) (lit "1") true (Some ttl_seconds));
         if created : bool then n ← on_redis (redis_hincrby VIEW_BUFFER_KEY field 1); mret (false, n)
         else raw ← on_redis (redis_hget VIEW_BUFFER_KEY field); mret (false, default 0 raw))
      (fun _ => mret (true, 0)).

Definition get_buffer_pending (present : bool) (post_id : Z) : M world Z :=
  if negb present then mret 0
  else try_except (raw ← on_redis (redis_hget VIEW_BUFFER_KEY (uuid_str post_id)); mret (default 0 raw))
                  (fun _ => mret 0).

(** [get_post_detail] of the service; [writer] is [writer_db is not None]. *)
Definition get_post_detail `{UnicodeDB} (present writer : bool) (ttl_seconds now post_id : Z) (viewer : option Z)
    (viewer_key : ustr) : M world PostResponse :=
  w ← get;
  match post_detail post_id viewer (w_db w) with
  | None => raise PostNotFoundException
  | Some data =>
      '(pending, extra_db) ←
        (if writer then
           '(direct_db, pending) ← track_view present ttl_seconds post_id viewer_key;
           if direct_db : bool then
             on_db (begin_tx (try_except (increment_view_count now post_id 1)
               (fun e => if decide (e = StaleDataError) then raise ConcurrentUpdateException else raise e))) ;;
             mret (pending, 1)
           else mret (pending, 0)
         else pending ← get_buffer_pending present post_id; mret (pending, 0));
      mret {| pr_id := pr_id data; pr_post := pr_post data;
              pr_view_count := pr_view_count data + pending + extra_db; pr_is_liked := pr_is_liked data;
              pr_files := pr_files data; pr_hashtags := pr_hashtags data |}
  end.

(** ** The flush *)

(** How the commit of the flush ends: [AckLost] commits on the server but the
    driver raises. *)
Inductive commit_outcome := Committed | CommitFailed | AckLost.

(** [async with get_connection() as db: async with db.begin()] *)
Definition commit_tx {A} (o : commit_outcome) (m : M db A) : M world A := fun w =>
  match m (w_db w) with
  | (inl e, _) => (inl e, w)
  | (inr a, d) =>
      match o with
      | Committed => (inr a, w <| w_db := d |>)
      | CommitFailed => (inl DatabaseError, w)
      | AckLost => (inl DatabaseError, w <| w_db := d |>)
      end
  end.

Section Flush.
Context `{UnicodeDB}.

Definition flush_increments (now : Z) (fields : list (ustr * Z)) : M db unit :=
  for_each fields (fun '(pid, delta) =>
    if 0 <? delta then
      match parse_public_id_value (VStr pid) with
      | inl _ => raise PyValueError
      | inr p => increment_view_count now p delta ;; mret tt
      end
    else mret tt).

(** The guarded part: [true] when the increments were committed, [false] on an
    early return. *)
Definition flush_drain (now : Z) (drain : ustr) (o : commit_outcome) : M world bool :=
  try_except
    (renamed ← on_redis (rename_if_exists VIEW_BUFFER_KEY drain);
     if negb renamed then mret false
     else
       fields ← on_redis (redis_hgetall drain);
       if decide (fields = ∅) then on_redis (redis_delete [drain]) ;; mret false
       else commit_tx o (flush_increments now (map_to_list fields)) ;; mret true)
    (fun e => on_redis (merge_hash_into drain VIEW_BUFFER_KEY) ;; raise e).

Definition flush_view_counts_to_db (present : bool) (lock_seconds now : Z) (token ulid : ustr) (o : commit_outcome)
  : M world unit :=
  if negb present then mret tt
  else
    let drain := drain_key ulid in
    lock_value ← on_redis (try_acquire_lock VIEW_FLUSH_LOCK_KEY lock_seconds token);
    match lock_value with
    | None => mret tt
    | Some v =>
        try_finally
          (committed ← flush_drain now drain o;
           if committed : bool then try_except (on_redis (redis_delete [drain])) (fun _ => mret tt) else mret tt)
          (on_redis (release_lock VIEW_FLUSH_LOCK_KEY v))
    end.
End Flush.

(** ** What is counted *)

Definition hash_field (d : gmap ustr rentry) (k f : ustr) : Z :=
  match d !! k with Some {| r_val := RHash h |} => default 0 (h !! f) | _ => 0 end.

Definition buffered (w : world) (p : Z) : Z := hash_field (r_data (w_redis w)) VIEW_BUFFER_KEY (uuid_str p).

Definition stored_views (d : db) (p : Z) : Z := match posts d !! p with Some r => view_count r | None => 0 end.

(** Views of a post: what the database has and what waits in the buffer. *)
Definition total_views (w : world) (p : Z) : Z := stored_views (w_db w) p + buffered w p.

Definition post_alive (d : db) (p : Z) : bool :=
  match posts d !! p with Some r => bool_decide (deleted_at r = None) | None => false end.

(** Only [track_view] and [merge_hash_into] write the buffer: integer fields
    named by identifiers, never empty, no expiry. *)
Definition buffer_ok (w : world) : Prop :=
  match r_data (w_redis w) !! VIEW_BUFFER_KEY with
  | None => True
  | Some e => r_exp e = None /\
      exists h, r_val e = RHash h /\ h <> ∅ /\
        forall f n, h !! f = Some n -> 0 <= n /\ exists p, uuid_ok p /\ f = uuid_str p
  end.

(** ** Sums over the fields of a hash *)

Definition field_sum (l : list (ustr * Z)) (f : ustr) : Z :=
  foldr (fun x acc => (if decide (x.1 = f) then x.2 else 0) + acc) 0 l.

Arguments field_sum : simpl never.

Lemma field_sum_cons x l f : field_sum (x :: l) f = (if decide (x.1 = f) then x.2 else 0) + field_sum l f.
Proof. done. Qed.

Lemma field_sum_none l f : f ∉ l.*1 -> field_sum l f = 0.
Proof.
  induction l as [|[g n] l IH]; cbn; [done|]. intros [Hne Hl]%not_elem_of_cons. rewrite field_sum_cons. cbn [fst].
  rewrite decide_False by congruence. by rewrite IH.
Qed.

Lemma field_sum_lookup (h : gmap ustr Z) f : field_sum (map_to_list h) f = default 0 (h !! f).
Proof.
  assert (forall l, NoDup l.*1 -> forall n, (f, n) ∈ l -> field_sum l f = n) as Hs.
  { induction l as [|[g m] l IH]; cbn; intros Hnd n Hin; [by apply elem_of_nil in Hin|].
    rewrite field_sum_cons. cbn [fst snd]. apply NoDup_cons in Hnd as [Hg Hnd]. apply elem_of_cons in Hin as [[= -> ->]|Hin].
    - rewrite decide_True by done. rewrite field_sum_none by done. lia.
    - rewrite decide_False; [by rewrite (IH Hnd n Hin)|]. intros ->. apply Hg. by apply (list_elem_of_fmap_2 fst l (f, n)). }
  destruct (h !! f) as [n|] eqn:E; cbn.
  - apply Hs; [apply NoDup_fst_map_to_list|by apply elem_of_map_to_list].
  - apply field_sum_none. intros ((g & n) & -> & Hin)%list_elem_of_fmap. apply elem_of_map_to_list in Hin. cbn in E. congruence.
Qed.

(** ** The buffer under faults *)

(** A key holding nothing or a hash of integers without expiry. *)
Definition plain_hash (d : gmap ustr rentry) (k : ustr) : Prop :=
  match d !! k with None => True | Some e => r_exp e = None /\ exists h, r_val e = RHash h end.

Lemma live_no_expiry now d k e : d !! k = Some e -> r_exp e = None -> live now d k = Some (r_val e).
Proof. intros Hk He. unfold live, expired. by rewrite Hk, He. Qed.

Lemma hincrby_plain now d k f n : plain_hash d k ->
  (exists v, (c_hincrby k f n now d).1 = inr v) /\ plain_hash (c_hincrby k f n now d).2 k /\
  (forall g, hash_field (c_hincrby k f n now d).2 k g = hash_field d k g + if decide (f = g) then n else 0) /\
  forall k', k' <> k -> (c_hincrby k f n now d).2 !! k' = d !! k'.
Proof.
  unfold plain_hash, hash_field, c_hincrby. destruct (d !! k) as [[v x]|] eqn:E.
  - cbn. intros [-> [h ->]]. rewrite (live_no_expiry now d k _ E eq_refl). cbn. split; [by eexists|].
    split; [rewrite lookup_insert_eq; cbn; by eauto|]. split.
    + intros g. rewrite lookup_insert_eq. destruct (decide (f = g)) as [->|Hne]; [by rewrite lookup_insert_eq|].
      rewrite lookup_insert_ne by done. lia.
    + intros k' Hk. by rewrite lookup_insert_ne.
  - intros _. unfold live. rewrite E. cbn. split; [by eexists|]. split; [rewrite lookup_insert_eq; cbn; by eauto|]. split.
    + intros g. rewrite lookup_insert_eq. cbn. destruct (decide (f = g)) as [->|Hne]; [by rewrite lookup_singleton_eq|].
      by rewrite lookup_singleton_ne.
    + intros k' Hk. by rewrite lookup_insert_ne.
Qed.

(** Merging field by field: never more than was taken, exactly that when every
    command was answered; other keys are untouched. *)
Lemma merge_loop dst (l : list (ustr * Z)) r :
  Forall (fun x => 0 <= x.2) l -> plain_hash (r_data r) dst ->
  let out := for_each l (fun '(f, raw) => redis_hincrby dst f raw ;; mret tt) r in
  plain_hash (r_data out.2) dst /\
  (forall g, hash_field (r_data out.2) dst g <= hash_field (r_data r) dst g + field_sum l g) /\
  (out.1 = inr tt -> forall g, hash_field (r_data out.2) dst g = hash_field (r_data r) dst g + field_sum l g) /\
  forall k, k <> dst -> r_data out.2 !! k = r_data r !! k.
Proof.
  revert r. induction l as [|[f n] l IH]; intros r Hl Hp; cbn [for_each]; cbv zeta.
  { cbn. split_and!; [done|intros g; change (field_sum [] g) with 0; lia|intros _ g; change (field_sum [] g) with 0; lia|done]. }
  apply Forall_cons in Hl as [Hn Hl]. cbn in Hn.
  assert (forall g, 0 <= field_sum l g) as Hpos.
  { intros g. clear IH. induction l as [|x l IHl]; [done|]. rewrite field_sum_cons. apply Forall_cons in Hl as [Hx Hl].
    specialize (IHl Hl). destruct (decide _); lia. }
  unfold redis_hincrby. destruct (command_once (c_hincrby dst f n) r) as (now & Hd & Ha).
  destruct (hincrby_plain now (r_data r) dst f n Hp) as (_ & Hp' & Hh & Hk). setoid_rewrite field_sum_cons. cbn [fst snd].
  unfold redis_hincrby, mbind, M_bind in *. destruct (command (c_hincrby dst f n) r) as [[e|v] r1]; cbn [fst snd] in *.
  - destruct Hd as [Hd|Hd].
    + rewrite Hd. split_and!; [done| |done|done]. intros g. specialize (Hpos g).
      destruct (decide (f = g)); lia.
    + rewrite Hd. split_and!; [done| |done|done]. intros g. rewrite Hh. specialize (Hpos g). lia.
  - specialize (Ha v eq_refl). rewrite Ha in Hp', Hh, Hk. cbn [snd] in *.
    destruct (IH r1 Hl Hp') as (H1 & H2 & H3 & H4). cbn [mret M_ret]. split_and!; [done| | |].
    + intros g. specialize (H2 g). rewrite Hh in H2. lia.
    + intros Ho g. rewrite (H3 Ho g), Hh. lia.
    + intros k Hne. by rewrite H4, Hk.
Qed.

(** A plain hash whose counts are not negative. *)
Definition counts_hash (d : gmap ustr rentry) (k : ustr) : Prop :=
  match d !! k with
  | None => True
  | Some e => r_exp e = None /\ exists h, r_val e = RHash h /\ forall f n, h !! f = Some n -> 0 <= n
  end.

Lemma hgetall_counts now d k : counts_hash d k ->
  exists h, c_hgetall k now d = (inr h, d) /\ (forall g, default 0 (h !! g) = hash_field d k g) /\
    Forall (fun x => 0 <= x.2) (map_to_list h).
Proof.
  unfold counts_hash, c_hgetall, hash_field. destruct (d !! k) as [[v x]|] eqn:E; cbn.
  - intros (-> & h & -> & Hn). rewrite (live_no_expiry now d k _ E eq_refl). cbn. exists h. split; [done|]. split; [done|].
    apply Forall_forall. intros [f n] Hin. apply elem_of_map_to_list in Hin. cbn. by eapply Hn.
  - intros _. unfold live. rewrite E. exists ∅. split; [done|]. split; [done|]. by rewrite map_to_list_empty.
Qed.

Lemma hgetall_once k r : counts_hash (r_data r) k ->
  r_data (redis_hgetall k r).2 = r_data r /\
  forall h, (redis_hgetall k r).1 = inr h -> (forall g, default 0 (h !! g) = hash_field (r_data r) k g) /\
    Forall (fun x => 0 <= x.2) (map_to_list h).
Proof.
  intros Hc. unfold redis_hgetall. destruct (command_once (c_hgetall k) r) as (now & Hd & Ha).
  destruct (hgetall_counts now (r_data r) k Hc) as (h & Eh & Hg & Hf). rewrite Eh in Hd, Ha. split; [by destruct Hd|].
  intros h' Hh. specialize (Ha h' Hh). by injection Ha as -> _.
Qed.

Lemma merge_spec src dst r : src <> dst -> plain_hash (r_data r) dst -> counts_hash (r_data r) src ->
  let out := merge_hash_into src dst r in
  (forall g, hash_field (r_data out.2) dst g <= hash_field (r_data r) dst g + hash_field (r_data r) src g) /\
  (out.1 = inr tt -> r_data out.2 !! src = None /\
     forall g, hash_field (r_data out.2) dst g = hash_field (r_data r) dst g + hash_field (r_data r) src g) /\
  forall k, k <> dst -> k <> src -> r_data out.2 !! k = r_data r !! k.
Proof.
  intros Hne Hp Hc. cbv zeta. destruct (merge_hash_into src dst r) as [res r'] eqn:Eout. cbn [fst snd].
  unfold merge_hash_into in Eout. destruct (hgetall_once src r Hc) as [Hd Hh].
  assert (forall g, 0 <= hash_field (r_data r) src g) as Hpos.
  { intros g. destruct (hgetall_counts 0 (r_data r) src Hc) as (h & _ & Hg & Hf). rewrite <-Hg.
    destruct (h !! g) as [n|] eqn:E; [|done]. rewrite Forall_forall in Hf. by apply (Hf (g, n)), elem_of_map_to_list. }
  unfold mbind at 1, M_bind at 1 in Eout. destruct (redis_hgetall src r) as [[e|h] r1]; cbn [fst snd] in *.
  { injection Eout as <- <-. rewrite Hd. split_and!; [|done|done]. intros g. specialize (Hpos g). lia. }
  destruct (Hh h eq_refl) as [Hg Hf]. rewrite <-Hd in Hp. pose proof (merge_loop dst (map_to_list h) r1 Hf Hp) as Hm.
  unfold mbind at 1, M_bind at 1 in Eout. destruct (for_each _ _ r1) as [[e|[]] r2]; cbn [fst snd] in Hm.
  - injection Eout as <- <-. destruct Hm as (_ & H2 & _ & H4). rewrite Hd in H2, H4. split_and!; [|done|].
    + intros g. specialize (H2 g). by rewrite field_sum_lookup, Hg in H2.
    + intros k Hk _. by apply H4.
  - destruct Hm as (_ & _ & H3 & H4). rewrite Hd in H3, H4. unfold redis_delete in Eout.
    destruct (command_once (c_delete [src]) r2) as (now & Hdel & Ha). rewrite Eout in Hdel, Ha. cbn [c_delete foldr fst snd] in *.
    assert (forall k, k <> src -> r_data r' !! k = r_data r2 !! k) as Hother.
    { intros k Hk. destruct Hdel as [->| ->]; [done|]. by rewrite lookup_delete_ne. }
    assert (forall g, hash_field (r_data r') dst g = hash_field (r_data r) dst g + hash_field (r_data r) src g) as Heq.
    { intros g. unfold hash_field at 1. rewrite Hother by done. fold (hash_field (r_data r2) dst g).
      by rewrite (H3 eq_refl g), field_sum_lookup, Hg. }
    split_and!; [intros g; by rewrite Heq| |].
    + intros Ho. specialize (Ha tt Ho). injection Ha as Ha. split; [|done]. rewrite <-Ha. apply lookup_delete_eq.
    + intros k Hk Hk'. rewrite Hother by done. by apply H4.
Qed.

(** Renaming under faults: the buffer is either moved as it is or left alone. *)
Lemma rename_spec src dst r : src <> dst -> counts_hash (r_data r) src -> r_data r !! dst = None ->
  let d := r_data r in let d' := r_data (rename_if_exists src dst r).2 in let res := (rename_if_exists src dst r).1 in
  (d' = d /\ res <> inr true /\ (res = inr false -> d !! src = None)) \/
  (exists e, d !! src = Some e /\ d' = <[dst := e]> (delete src d) /\ res <> inr false).
Proof.
  intros Hne Hc Hdst. cbv zeta. destruct (rename_if_exists src dst r) as [res r'] eqn:E. cbn [fst snd].
  unfold rename_if_exists in E. unfold mbind, M_bind in E.
  destruct (eval_script_cached_once RENAME_IF_EXISTS (lua_rename_if_exists src dst) r) as (now & Hd & Ha).
  destruct (eval_script_cached _ _ r) as [[e|n] r1]; injection E as <- <-; cbn [fst snd] in *;
    unfold lua_rename_if_exists in Hd, Ha; unfold counts_hash in Hc;
    (destruct (r_data r !! src) as [en|] eqn:Es; [|unfold live in Hd, Ha; rewrite Es in Hd, Ha]).
  - destruct Hc as [He _]. rewrite (live_no_expiry now _ src en Es He) in Hd. cbn [snd] in Hd.
    destruct Hd as [->| ->]; [by left|]. right. exists en. split; [done|]. split; [|done]. cbn. by destruct en; cbn in *; subst.
  - left. by destruct Hd as [->| ->].
  - destruct Hc as [He _]. specialize (Ha n eq_refl). rewrite (live_no_expiry now _ src en Es He) in Ha. injection Ha as <- <-.
    right. exists en. split; [done|]. split; [|done]. cbn. by destruct en; cbn in *; subst.
  - specialize (Ha n eq_refl). injection Ha as <- <-. by left.
Qed.

(** ** The increments *)

Section Increments.
Context `{UnicodeDB}.

Definition id_fields (l : list (ustr * Z)) : Prop :=
  Forall (fun x => 0 <= x.2 /\ exists p, uuid_ok p /\ x.1 = uuid_str p) l.

Lemma parse_field p : uuid_ok p -> parse_public_id_value (VStr (uuid_str p)) = inr p.
Proof.
  intros Hp. unfold parse_public_id_value. destruct (uuid_str_strip p) as [-> Hs].
  rewrite decide_False by done. by rewrite uuid_str_codec.
Qed.

Lemma increment_view_spec now q n d : 0 < n ->
  exists b d', increment_view_count now q n d = (inr b, d') /\
    (forall p, post_alive d' p = post_alive d p) /\
    forall p, stored_views d' p = stored_views d p + if post_alive d p then (if decide (q = p) then n else 0) else 0.
Proof.
  intros Hn. unfold increment_view_count. destruct (Z.leb_spec n 0); [lia|].
  unfold is_some, update_post_columns. unfold mbind, M_bind. rewrite update_one_returning_pk. cbn [rows set_rows posts_table negb orb].
  assert (post_alive d q = false -> forall p, stored_views d p = stored_views d p + if post_alive d p then (if decide (q = p) then n else 0) else 0) as Hdead.
  { intros Hq p. destruct (decide (q = p)) as [<-|]; [rewrite Hq|destruct (post_alive d p)]; lia. }
  destruct (posts d !! q) as [r|] eqn:Er.
  - destruct (bool_decide (deleted_at r = None)) eqn:Ea.
    + eexists _, _. split; [reflexivity|]. apply bool_decide_eq_true in Ea.
      split; intros p; unfold post_alive, stored_views; cbn [posts over]; (destruct (decide (q = p)) as [<-|Hne];
        [rewrite lookup_insert_eq, Er; cbn; by rewrite ?bool_decide_eq_true_2 by done|rewrite lookup_insert_ne by done]).
      * done.
      * destruct (posts d !! p); [case_bool_decide|]; lia.
    + eexists _, _. split; [reflexivity|]. split; [done|]. apply Hdead. unfold post_alive. by rewrite Er.
  - eexists _, _. split; [reflexivity|]. split; [done|]. apply Hdead. unfold post_alive. by rewrite Er.
Qed.

Lemma flush_increments_spec now l d : id_fields l ->
  exists d', flush_increments now l d = (inr tt, d') /\
    (forall p, post_alive d' p = post_alive d p) /\
    forall p, uuid_ok p -> stored_views d' p = stored_views d p + if post_alive d p then field_sum l (uuid_str p) else 0.
Proof.
  unfold flush_increments. revert d. induction l as [|[f n] l IH]; intros d Hl; cbn [for_each].
  { eexists. split; [reflexivity|]. split; [done|]. intros p _. change (field_sum [] (uuid_str p)) with 0. destruct (post_alive d p); lia. }
  apply Forall_cons in Hl as [(Hn & q & Hq & Hf) Hl]. cbn [fst snd] in *. subst f. rewrite parse_field by done.
  unfold mbind, M_bind. destruct (Z.ltb_spec 0 n) as [Hpos|Hz].
  - destruct (increment_view_spec now q n d Hpos) as (b & d1 & -> & Hal & Hst). cbn [mret M_ret].
    destruct (IH d1 Hl) as (d2 & E2 & Hal2 & Hst2). unfold mbind, M_bind in E2. rewrite E2. exists d2. split; [done|].
    split; [intros p; by rewrite Hal2|]. intros p Hp. rewrite Hst2, Hst, Hal, field_sum_cons by done. cbn [fst snd].
    destruct (decide (uuid_str q = uuid_str p)) as [Heq|Hne]; destruct (decide (q = p)) as [->|Hne']; try done.
    + destruct (post_alive d p); lia.
    + by apply uuid_str_inj in Heq.
    + destruct (post_alive d p); lia.
  - destruct (IH d Hl) as (d2 & E2 & Hal2 & Hst2). unfold mbind, M_bind in E2. cbn [mret M_ret]. rewrite E2. exists d2.
    split; [done|]. split; [done|]. intros p Hp. rewrite Hst2, field_sum_cons by done. cbn [fst snd].
    destruct (post_alive d p); [|lia]. destruct (decide _); lia.
Qed.
End Increments.

(** ** The flush under any schedule of faults *)

Section FlushProofs.
Context `{UnicodeDB}.

Abbreviation rdata w := (r_data (w_redis w)).

Lemma buffer_ok_counts w : buffer_ok w -> counts_hash (rdata w) VIEW_BUFFER_KEY.
Proof.
  unfold buffer_ok, counts_hash. destruct (rdata w !! _) as [e|]; [|done]. intros (He & h & Hh & _ & Hf). split; [done|].
  exists h. split; [done|]. intros f n Hn. by apply (Hf f n).
Qed.

Lemma buffer_ok_fields w e : buffer_ok w -> rdata w !! VIEW_BUFFER_KEY = Some e ->
  r_exp e = None /\ exists h, r_val e = RHash h /\ h <> ∅ /\ id_fields (map_to_list h).
Proof.
  unfold buffer_ok. intros Hb He. rewrite He in Hb. destruct Hb as (Hx & h & Hh & Hn & Hf). split; [done|]. exists h.
  split; [done|]. split; [done|]. apply Forall_forall. intros [f n] Hin. apply elem_of_map_to_list in Hin. cbn. by apply Hf.
Qed.

(** What the guarded part took: nothing, or the whole buffer. *)
Definition taken (drain : ustr) (d d' : gmap ustr rentry) : Prop :=
  d' = d \/ exists e, d !! VIEW_BUFFER_KEY = Some e /\ d' = <[drain := e]> (delete VIEW_BUFFER_KEY d).

(** Giving back after a failure. *)
Lemma merge_back drain w r :
  drain <> VIEW_BUFFER_KEY -> buffer_ok w -> rdata w !! drain = None -> taken drain (rdata w) (r_data r) ->
  let out := merge_hash_into drain VIEW_BUFFER_KEY r in
  (forall g, hash_field (r_data out.2) VIEW_BUFFER_KEY g <= hash_field (rdata w) VIEW_BUFFER_KEY g) /\
  (out.1 = inr tt -> r_data out.2 !! drain = None /\
     forall g, hash_field (r_data out.2) VIEW_BUFFER_KEY g = hash_field (rdata w) VIEW_BUFFER_KEY g).
Proof.
  intros Hne Hb Hdr Ht. pose proof (buffer_ok_counts w Hb) as Hc.
  assert (plain_hash (r_data r) VIEW_BUFFER_KEY /\ counts_hash (r_data r) drain /\
    forall g, hash_field (r_data r) VIEW_BUFFER_KEY g + hash_field (r_data r) drain g = hash_field (rdata w) VIEW_BUFFER_KEY g)
    as (Hp & Hcd & Hsum).
  { unfold plain_hash, counts_hash, hash_field in *. destruct Ht as [->|(e & He & ->)].
    - rewrite Hdr. split; [|split; [done|intros g; lia]]. destruct (rdata w !! VIEW_BUFFER_KEY) as [e|]; [|done].
      destruct Hc as (? & h & ? & _). by eauto.
    - rewrite lookup_insert_ne, lookup_delete_eq, lookup_insert_eq by done. split; [done|]. rewrite He in *. split; [done|].
      intros g. destruct e as [[]]; done. }
  destruct (merge_spec drain VIEW_BUFFER_KEY r Hne Hp Hcd) as (H1 & H2 & _). cbv zeta in *. split.
  - intros g. by rewrite <-Hsum.
  - intros Ho. destruct (H2 Ho) as [Hn Heq]. split; [done|]. intros g. by rewrite Heq, <-Hsum.
Qed.

(** The guarded part before its handler. *)
Definition flush_try (now : Z) (drain : ustr) (o : commit_outcome) : M world bool :=
  renamed ← on_redis (rename_if_exists VIEW_BUFFER_KEY drain);
  if negb renamed then mret false
  else
    fields ← on_redis (redis_hgetall drain);
    if decide (fields = ∅) then on_redis (redis_delete [drain]) ;; mret false
    else commit_tx o (flush_increments now (map_to_list fields)) ;; mret true.

Lemma flush_try_spec now drain o w : drain <> VIEW_BUFFER_KEY -> buffer_ok w -> rdata w !! drain = None ->
  match flush_try now drain o w with
  | (inr true, w') => o = Committed /\ exists h e, rdata w !! VIEW_BUFFER_KEY = Some e /\ r_val e = RHash h /\
      flush_increments now (map_to_list h) (w_db w) = (inr tt, w_db w') /\
      rdata w' = <[drain := e]> (delete VIEW_BUFFER_KEY (rdata w))
  | (inr false, w') => w_db w' = w_db w /\ rdata w' = rdata w
  | (inl e, w') => (o <> AckLost -> w_db w' = w_db w) /\ taken drain (rdata w) (rdata w')
  end.
Proof.
  intros Hne Hb Hdr. unfold flush_try. unfold mbind at 1, M_bind at 1, on_redis at 1.
  pose proof (rename_spec VIEW_BUFFER_KEY drain (w_redis w) (not_eq_sym Hne) (buffer_ok_counts w Hb) Hdr) as Hr.
  cbv zeta in Hr. destruct (rename_if_exists VIEW_BUFFER_KEY drain (w_redis w)) as [[e|b] r1]; cbn [fst snd] in Hr.
  { cbn. split; [done|]. destruct Hr as [(-> & _)|(en & He & -> & _)]; [by left|]. right. by exists en. }
  destruct Hr as [(Hd & Hres & _)|(en & He & Hd & Hres)].
  { destruct b; [done|]. cbn. done. }
  destruct b; [|done]. cbn [negb]. destruct (buffer_ok_fields w en Hb He) as (Hx & h & Hh & Hnz & Hf).
  assert (taken drain (rdata w) (r_data r1)) as Ht by (right; by exists en).
  unfold mbind at 1, M_bind at 1, on_redis at 1. cbn [w_redis over].
  assert (r_data r1 !! drain = Some en) as Hdrain by (rewrite Hd; apply lookup_insert_eq).
  unfold redis_hgetall. destruct (command_once (c_hgetall drain) r1) as (t & Hsame & Hrep).
  assert (c_hgetall drain t (r_data r1) = (inr h, r_data r1)) as Eh.
  { unfold c_hgetall. rewrite (live_no_expiry t _ _ _ Hdrain Hx), Hh. done. }
  rewrite Eh in Hsame, Hrep. destruct (command (c_hgetall drain) r1) as [[e|h'] r2]; cbn [fst snd] in Hsame, Hrep.
  { cbn. split; [done|]. by destruct Hsame as [->| ->]. }
  specialize (Hrep h' eq_refl). injection Hrep as <- Hr2. rewrite decide_False by done.
  unfold mbind, M_bind, commit_tx. cbn [w_db over].
  destruct (flush_increments_spec now (map_to_list h) (w_db w) Hf) as (d' & Ed & _). rewrite Ed.
  destruct o.
  - split; [done|]. exists h, en. split; [done|]. split; [done|]. split; [exact Ed|]. rewrite <-Hd. by symmetry.
  - split; [done|]. right. exists en. split; [done|]. rewrite <-Hd. by symmetry.
  - split; [done|]. right. exists en. split; [done|]. rewrite <-Hd. by symmetry.
Qed.

Lemma hash_field_ext d d' k g : d !! k = d' !! k -> hash_field d k g = hash_field d' k g.
Proof. unfold hash_field. by intros ->. Qed.

Lemma buffer_ok_ext w w' : rdata w' !! VIEW_BUFFER_KEY = rdata w !! VIEW_BUFFER_KEY -> buffer_ok w -> buffer_ok w'.
Proof. unfold buffer_ok. by intros ->. Qed.

Lemma drain_key_fresh ulid : drain_key ulid <> VIEW_BUFFER_KEY /\ drain_key ulid <> VIEW_FLUSH_LOCK_KEY.
Proof. split; intros Hk; apply (f_equal (fun s => nth 10 s 0)) in Hk; vm_compute in Hk; discriminate. Qed.

(** The guarded part with its handler: the buffer afterwards and the store. *)
Lemma flush_drain_spec now drain o w : drain <> VIEW_BUFFER_KEY -> buffer_ok w -> rdata w !! drain = None ->
  match flush_drain now drain o w with
  | (inr true, w') => o = Committed /\ (forall g, hash_field (rdata w') VIEW_BUFFER_KEY g = 0) /\
      forall p, uuid_ok p -> stored_views (w_db w') p = stored_views (w_db w) p + if post_alive (w_db w) p then buffered w p else 0
  | (inr false, w') => w_db w' = w_db w /\ rdata w' = rdata w
  | (inl e, w') => (o <> AckLost -> w_db w' = w_db w) /\
      forall g, hash_field (rdata w') VIEW_BUFFER_KEY g <= hash_field (rdata w) VIEW_BUFFER_KEY g
  end.
Proof.
  intros Hne Hb Hdr. pose proof (flush_try_spec now drain o w Hne Hb Hdr) as Ht.
  change (flush_drain now drain o) with
    (try_except (flush_try now drain o) (fun e => on_redis (merge_hash_into drain VIEW_BUFFER_KEY) ;; raise e)).
  unfold try_except. destruct (flush_try now drain o w) as [[e|[]] w'].
  - destruct Ht as [Hdb Htk]. unfold mbind, M_bind, on_redis.
    destruct (merge_back drain w (w_redis w') Hne Hb Hdr Htk) as [Hle _].
    destruct (merge_hash_into drain VIEW_BUFFER_KEY (w_redis w')) as [[e'|[]] r]; cbn [raise]; by split.
  - destruct Ht as (Ho & h & e & He & Hh & Einc & Hd). split; [done|]. split.
    + intros g. rewrite Hd. unfold hash_field. by rewrite lookup_insert_ne, lookup_delete_eq.
    + intros p Hp. destruct (buffer_ok_fields w e Hb He) as (_ & h' & Hh' & _ & Hf). rewrite Hh in Hh'. injection Hh' as <-.
      destruct (flush_increments_spec now (map_to_list h) (w_db w) Hf) as (d' & Ed & _ & Hst).
      rewrite Einc in Ed. injection Ed as ->. rewrite Hst by done. rewrite field_sum_lookup. unfold buffered, hash_field.
      rewrite He. destruct e as [v x]. cbn in Hh. by subst v.
  - done.
Qed.
End FlushProofs.

(** ** Properties *)

Section Properties.
Context `{UnicodeDB}.

Lemma buffered_nonneg w p : buffer_ok w -> 0 <= buffered w p.
Proof.
  unfold buffer_ok, buffered, hash_field. destruct (r_data (w_redis w) !! VIEW_BUFFER_KEY) as [[v x]|]; [|done]. cbn.
  intros (_ & h & -> & _ & Hf). destruct (h !! uuid_str p) as [n|] eqn:E; [exact (proj1 (Hf _ n E))|done].
Qed.

(** The part after the lock was taken. *)
Definition flush_locked (now : Z) (drain token : ustr) (o : commit_outcome) : M world unit :=
  try_finally
    (committed ← flush_drain now drain o;
     if committed : bool then try_except (on_redis (redis_delete [drain])) (fun _ => mret tt) else mret tt)
    (on_redis (release_lock VIEW_FLUSH_LOCK_KEY token)).

Lemma release_after (token : ustr) (w : world) :
  exists w', on_redis (release_lock VIEW_FLUSH_LOCK_KEY token) w = (inr tt, w') /\ w_db w' = w_db w /\
    r_data (w_redis w') !! VIEW_BUFFER_KEY = r_data (w_redis w) !! VIEW_BUFFER_KEY.
Proof.
  unfold on_redis. pose proof (release_lock_total VIEW_FLUSH_LOCK_KEY token (w_redis w)) as Ht.
  pose proof (proj2 (lock_frame VIEW_FLUSH_LOCK_KEY token 0 VIEW_BUFFER_KEY (w_redis w) ltac:(by vm_compute))) as Hf.
  destruct (release_lock _ _ _) as [res r]. cbn [fst snd] in *. subst res. eexists. split; [reflexivity|]. done.
Qed.

(** A best-effort delete of the drain key leaves the buffer alone. *)
Lemma delete_drain_after drain w : drain <> VIEW_BUFFER_KEY ->
  exists w', try_except (on_redis (redis_delete [drain])) (fun _ => mret tt) w = (inr tt, w') /\ w_db w' = w_db w /\
    r_data (w_redis w') !! VIEW_BUFFER_KEY = r_data (w_redis w) !! VIEW_BUFFER_KEY.
Proof.
  intros Hne. unfold try_except, on_redis, redis_delete. destruct (command_once (c_delete [drain]) (w_redis w)) as (t & Hd & _).
  assert (r_data (command (c_delete [drain]) (w_redis w)).2 !! VIEW_BUFFER_KEY = r_data (w_redis w) !! VIEW_BUFFER_KEY) as Hk.
  { destruct Hd as [->| ->]; [done|]. cbn. by rewrite lookup_delete_ne. }
  destruct (command (c_delete [drain]) (w_redis w)) as [[e|[]] r]; eexists; (split; [reflexivity|]); done.
Qed.

Lemma flush_locked_spec now drain token o w :
  drain <> VIEW_BUFFER_KEY -> buffer_ok w -> r_data (w_redis w) !! drain = None -> o <> AckLost ->
  match flush_locked now drain token o w with
  | (inr _, w') => forall p, uuid_ok p ->
      total_views w' p <= total_views w p /\ (post_alive (w_db w) p = true -> total_views w' p = total_views w p)
  | (inl _, w') => w_db w' = w_db w /\ forall p, total_views w' p <= total_views w p
  end.
Proof.
  intros Hne Hb Hdr Ho. pose proof (flush_drain_spec now drain o w Hne Hb Hdr) as Hs.
  unfold flush_locked, try_finally. unfold mbind, M_bind. destruct (flush_drain now drain o w) as [[e|[]] w1].
  - destruct Hs as [Hdb Hle]. specialize (Hdb Ho). destruct (release_after token w1) as (w2 & -> & Hdb2 & Hk2).
    split; [congruence|]. intros p. unfold total_views, buffered. rewrite Hdb2, Hdb, (hash_field_ext _ _ _ _ Hk2).
    specialize (Hle (uuid_str p)). lia.
  - destruct Hs as (_ & Hz & Hst). destruct (delete_drain_after drain w1 Hne) as (w2 & -> & Hdb2 & Hk2).
    destruct (release_after token w2) as (w3 & -> & Hdb3 & Hk3). intros p Hp. unfold total_views at 1 3.
    unfold buffered at 1 2. rewrite Hdb3, Hdb2, (hash_field_ext _ _ _ _ Hk3), (hash_field_ext _ _ _ _ Hk2), Hz, Hst by done.
    pose proof (buffered_nonneg w p Hb). unfold total_views. destruct (post_alive (w_db w) p); split; try done; lia.
  - destruct Hs as [Hdb Hd]. cbn [mret M_ret]. destruct (release_after token w1) as (w2 & -> & Hdb2 & Hk2).
    intros p _. unfold total_views, buffered. rewrite Hdb2, Hdb, (hash_field_ext _ _ _ _ Hk2), Hd. split; [lia|done].
Qed.

(** C1. A flush never counts a view twice and loses none when it succeeds.  With
    any schedule of delays, lost requests, lost replies and script-cache flushes,
    and whether the transaction commits or fails: no post ends with more views
    (stored plus buffered) than before; when the flush returns normally every
    live post has exactly as many; when it raises, the database is unchanged. *)
Theorem flush_conserves_views (present : bool) (lock_seconds now : Z) (token ulid : ustr) (o : commit_outcome) (w : world) :
  o <> AckLost -> buffer_ok w -> r_data (w_redis w) !! drain_key ulid = None ->
  match flush_view_counts_to_db present lock_seconds now token ulid o w with
  | (inr _, w') => forall p, uuid_ok p ->
      total_views w' p <= total_views w p /\ (post_alive (w_db w) p = true -> total_views w' p = total_views w p)
  | (inl _, w') => w_db w' = w_db w /\ forall p, total_views w' p <= total_views w p
  end.
Proof.
  intros Ho Hb Hdr. unfold flush_view_counts_to_db. destruct present; cbn [negb]; [|done].
  destruct (drain_key_fresh ulid) as [Hd1 Hd2]. unfold mbind, M_bind, on_redis at 1.
  pose proof (fun k Hk => proj1 (lock_frame VIEW_FLUSH_LOCK_KEY token lock_seconds k (w_redis w) Hk)) as Hl.
  destruct (try_acquire_lock VIEW_FLUSH_LOCK_KEY lock_seconds token (w_redis w)) as [res r]; cbn [snd] in Hl.
  set (w1 := w <| w_redis := r |>).
  assert (forall p, total_views w1 p = total_views w p) as Ht.
  { intros p. unfold total_views, buffered. cbn [w_db w_redis over w1]. rewrite (hash_field_ext (r_data r) (r_data (w_redis w))); [done|].
    apply Hl. by vm_compute. }
  destruct res as [e|[v|]]; cbv beta iota zeta.
  - split; [done|]. intros p. by rewrite Ht.
  - pose proof (flush_locked_spec now (drain_key ulid) v o w1 Hd1) as Hs.
    unfold flush_locked in Hs. unfold mbind, M_bind in Hs.
    match type of Hs with _ -> _ -> _ -> match ?x with _ => _ end => destruct x as [[e|u] w'] end.
    + destruct Hs as [Hdb Hle]; [by eapply (buffer_ok_ext w); [apply Hl; by vm_compute|]|by rewrite Hl|done|].
      split; [done|]. intros p. rewrite <-Ht. done.
    + intros p Hp. rewrite <-Ht. apply Hs; [by eapply (buffer_ok_ext w); [apply Hl; by vm_compute|]|by rewrite Hl|done|done].
  - intros p _. by rewrite Ht.
Qed.

(** One buffered increment on a healthy connection. *)
Lemma hincrby_healthy w f n : r_sched (w_redis w) = [] -> buffer_ok w ->
  exists r, redis_hincrby VIEW_BUFFER_KEY f n (w_redis w) = (inr (hash_field (r_data (w_redis w)) VIEW_BUFFER_KEY f + n), r) /\
    r_now r = r_now (w_redis w) /\
    (forall g, hash_field (r_data r) VIEW_BUFFER_KEY g = hash_field (r_data (w_redis w)) VIEW_BUFFER_KEY g + if decide (f = g) then n else 0) /\
    forall k, k <> VIEW_BUFFER_KEY -> r_data r !! k = r_data (w_redis w) !! k.
Proof.
  intros Hs Hb. destruct (command_healthy (c_hincrby VIEW_BUFFER_KEY f n) (w_redis w) Hs) as (H1 & H2 & H3 & _ & _).
  assert (plain_hash (r_data (w_redis w)) VIEW_BUFFER_KEY) as Hp.
  { pose proof (buffer_ok_counts w Hb) as Hc. unfold plain_hash, counts_hash in *. destruct (_ !! _) as [e|]; [|done].
    destruct Hc as (? & h & ? & _). by eauto. }
  destruct (hincrby_plain (r_now (w_redis w)) _ _ f n Hp) as ([v Hv] & _ & Hh & Hk).
  unfold redis_hincrby. destruct (command _ (w_redis w)) as [res r]; cbn [fst snd] in *. exists r.
  rewrite H2. split; [|done]. f_equal. rewrite H1. unfold c_hincrby, hash_field, plain_hash in *.
  destruct (r_data (w_redis w) !! VIEW_BUFFER_KEY) as [[x y]|] eqn:E; cbn in *.
  - destruct Hp as [-> [h ->]]. by rewrite (live_no_expiry _ _ _ _ E eq_refl).
  - unfold live. by rewrite E.
Qed.

Lemma hget_healthy w f : r_sched (w_redis w) = [] -> buffer_ok w ->
  exists r raw, redis_hget VIEW_BUFFER_KEY f (w_redis w) = (inr raw, r) /\ r_now r = r_now (w_redis w) /\
    default 0 raw = hash_field (r_data (w_redis w)) VIEW_BUFFER_KEY f /\ r_data r = r_data (w_redis w).
Proof.
  intros Hs Hb. destruct (command_healthy (c_hget VIEW_BUFFER_KEY f) (w_redis w) Hs) as (H1 & H2 & H3 & _ & _).
  pose proof (buffer_ok_counts w Hb) as Hc. unfold redis_hget. destruct (command _ (w_redis w)) as [res r]; cbn [fst snd] in *.
  subst res. exists r. rewrite H2, H3. unfold c_hget, hash_field, counts_hash in *.
  destruct (r_data (w_redis w) !! VIEW_BUFFER_KEY) as [[x y]|] eqn:E; cbn in *.
  - destruct Hc as (-> & h & -> & _). rewrite (live_no_expiry _ _ _ _ E eq_refl). cbn. by eexists.
  - unfold live. rewrite E. by eexists.
Qed.

Lemma view_key_fresh p v : view_redis_key p v <> VIEW_BUFFER_KEY.
Proof. intros Hk. apply (f_equal (fun s => nth 4 s 0)) in Hk. vm_compute in Hk. discriminate. Qed.

(** [track_view] on a healthy connection: one more unless the viewer was seen. *)
Lemma track_view_healthy ttl p viewer w : r_sched (w_redis w) = [] -> buffer_ok w -> 0 < ttl ->
  let key := view_redis_key p viewer in
  let seen := bool_decide (is_Some (live (r_now (w_redis w)) (r_data (w_redis w)) key)) in
  exists w', track_view true ttl p viewer w = (inr (false, buffered w p + if seen then 0 else 1), w') /\
    w_db w' = w_db w /\
    (forall g, hash_field (r_data (w_redis w')) VIEW_BUFFER_KEY g =
       hash_field (r_data (w_redis w)) VIEW_BUFFER_KEY g + if seen then 0 else if decide (uuid_str p = g) then 1 else 0) /\
    forall t, t < r_now (w_redis w) + ttl -> seen = false -> is_Some (live t (r_data (w_redis w')) key).
Proof.
  intros Hs Hb Httl. cbv zeta. unfold track_view. cbn [negb]. destruct (Z.leb_spec ttl 0); [lia|].
  unfold try_except, on_redis. unfold mbind, M_bind. unfold redis_set.
  destruct (command_healthy (c_set (view_redis_key p viewer) (lit "1") true (Some ttl)) (w_redis w) Hs) as (H1 & H2 & H3 & H4 & _).
  destruct (command _ (w_redis w)) as [res r1]; cbn [fst snd] in *. unfold c_set in H1, H2.
  assert (r_sched (w_redis (w <| w_redis := r1 |>)) = []) as H4' by exact H4.
  destruct (Z.leb_spec ttl 0); [lia|]. cbn [andb] in H1, H2. destruct (bool_decide _) eqn:Eseen; cbn [fst snd] in H1, H2; subst res.
  - assert (buffer_ok (w <| w_redis := r1 |>)) as Hb1 by (apply (buffer_ok_ext w); [cbn [w_redis over]; by rewrite H2|done]).
    destruct (hget_healthy _ (uuid_str p) H4' Hb1) as (r2 & raw & E2 & _ & Hraw & Hd2). cbn [w_redis over] in *.
    rewrite E2. cbn [mret M_ret]. eexists. split; [by rewrite Hraw, H2, Z.add_0_r|]. split; [done|]. split; [|done].
    intros g. cbn [w_redis over]. rewrite Hd2, H2. lia.
  - assert (buffer_ok (w <| w_redis := r1 |>)) as Hb1.
    { apply (buffer_ok_ext w); [|done]. cbn [w_redis over]. rewrite H2, lookup_insert_ne by apply view_key_fresh. done. }
    assert (forall g, hash_field (r_data r1) VIEW_BUFFER_KEY g = hash_field (r_data (w_redis w)) VIEW_BUFFER_KEY g) as Hsame.
    { intros g. apply hash_field_ext. by rewrite H2, lookup_insert_ne by apply view_key_fresh. }
    destruct (hincrby_healthy _ (uuid_str p) 1 H4' Hb1) as (r2 & E2 & _ & Hh2 & Hk2). cbn [w_redis over] in *.
    rewrite E2. cbn [mret M_ret]. eexists. split; [by rewrite Hsame|]. split; [done|]. split.
    + intros g. cbn [w_redis over]. by rewrite Hh2, Hsame.
    + intros t Ht _. cbn [w_redis over]. unfold live. rewrite Hk2, H2, lookup_insert_eq by apply view_key_fresh.
      unfold expired. cbn. destruct (Z.leb_spec (r_now (w_redis w) + ttl) t); [lia|by eexists].
Qed.

(** A viewer is counted once per window and sees its own view: on a healthy
    connection, reading a visible post answers the number of views recorded for
    it, which grew by one exactly when the viewer's key had expired; the key then
    lives for the whole window; no other post's count moves. *)
Theorem view_counted_once (ttl now p : Z) (viewer : option Z) (viewer_key : ustr) (w : world) :
  r_sched (w_redis w) = [] -> buffer_ok w -> 0 < ttl -> post_is_visible p viewer (w_db w) = true ->
  let key := view_redis_key p viewer_key in
  let seen := bool_decide (is_Some (live (r_now (w_redis w)) (r_data (w_redis w)) key)) in
  exists resp w', get_post_detail true true ttl now p viewer viewer_key w = (inr resp, w') /\
    pr_view_count resp = total_views w' p /\
    total_views w' p = total_views w p + (if seen then 0 else 1) /\
    (forall q, uuid_ok p -> uuid_ok q -> q <> p -> total_views w' q = total_views w q) /\
    (seen = false -> forall t, t < r_now (w_redis w) + ttl -> is_Some (live t (r_data (w_redis w')) key)).
Proof.
  intros Hs Hb Httl Hvis. cbv zeta. destruct (track_view_healthy ttl p viewer_key w Hs Hb Httl) as (w' & Et & Hdb & Hh & Hl).
  unfold get_post_detail. unfold mbind, M_bind, get. unfold post_detail, post_is_visible in *.
  destruct (posts (w_db w) !! p) as [r|] eqn:Er; [|done]. cbn [mbind option_bind]. rewrite Hvis. cbn iota. rewrite Et.
  cbn [mret M_ret]. eexists _, w'. split; [reflexivity|]. cbn [pr_view_count post_response snd].
  unfold total_views, buffered, stored_views. rewrite Hdb, Er, !Hh. rewrite (decide_True _ _ eq_refl).
  split; [lia|]. split; [lia|]. split.
  - intros q Hp Hq Hne. rewrite Hh, decide_False; [destruct (bool_decide _); lia|]. intros Heq. by apply uuid_str_inj in Heq.
  - intros Hseen t Ht. by apply Hl.
Qed.
End Properties.

(** ** Witnesses *)

(** Post 1 has three views waiting in the buffer. *)
Definition demo_views : world :=
  empty_world <| w_db := demo_db |>
              <| w_redis := {| r_data := {[VIEW_BUFFER_KEY := {| r_val := RHash {[uuid_str 1 := 3]}; r_exp := None |}]};
                               r_now := 100; r_loaded := []; r_sched := [] |} |>.

Lemma demo_buffer_ok : buffer_ok demo_views.
Proof.
  unfold buffer_ok. change (r_data (w_redis demo_views)) with
    ({[VIEW_BUFFER_KEY := {| r_val := RHash {[uuid_str 1 := 3]}; r_exp := None |}]} : gmap ustr rentry).
  rewrite lookup_singleton_eq. split; [done|]. exists {[uuid_str 1 := 3]}. split; [done|].
  split; [apply insert_non_empty|]. intros f n [<- <-]%lookup_singleton_Some. split; [lia|]. by exists 1.
Qed.

(** The commit whose acknowledgement is lost is the one case the hand-back
    does not survive: the increments are durable, the driver raises, and the
    handler merges the same counts back into the buffer, to be added again by the
    next flush.  A commit that really failed is given back exactly. *)
Theorem ack_lost_counts_twice :
  let run o := flush_view_counts_to_db (H := ascii_db) true 60 500 (lit "tok") (lit "u1") o demo_views in
  (total_views demo_views 1, (run Committed).1, total_views (run Committed).2 1, buffered (run Committed).2 1) = (3, inr tt, 3, 0) /\
  ((run CommitFailed).1, total_views (run CommitFailed).2 1, buffered (run CommitFailed).2 1) = (inl DatabaseError, 3, 3) /\
  ((run AckLost).1, total_views (run AckLost).2 1, buffered (run AckLost).2 1) = (inl DatabaseError, 6, 3).
Proof. vm_compute. split_and!; reflexivity. Qed.

Lemma flush_conserves_views_witness :
  total_views (flush_view_counts_to_db (H := ascii_db) true 60 500 (lit "tok") (lit "u1") Committed demo_views).2 1 =
  total_views demo_views 1.
Proof.
  pose proof (flush_conserves_views (H := ascii_db) true 60 500 (lit "tok") (lit "u1") Committed demo_views) as Hc.
  destruct (flush_view_counts_to_db _ _ _ _ _ _ _) as [[e|[]] w'] eqn:E.
  - apply (f_equal fst) in E. vm_compute in E. discriminate.
  - refine (proj2 (Hc _ demo_buffer_ok _ 1 _) _); [discriminate|vm_compute; reflexivity|by split|vm_compute; reflexivity].
Defined.

Lemma view_counted_once_witness :
  exists resp w', get_post_detail (H := ascii_db) true true 60 500 1 (Some 8) (lit "u:8") demo_views = (inr resp, w') /\
    pr_view_count resp = 4.
Proof.
  destruct (view_counted_once (H := ascii_db) 60 500 1 (Some 8) (lit "u:8") demo_views) as (resp & w' & E & Hv & Ht & _).
  - reflexivity.
  - exact demo_buffer_ok.
  - lia.
  - vm_compute. reflexivity.
  - exists resp, w'. split; [exact E|]. rewrite Hv, Ht. vm_compute. reflexivity.
Defined.
