(* ===== verification/Moderation.v ===== *)
(** * Reports and moderation ([app/domain/reports], [app/domain/admin])

    Reports raise the target's counter and blind it at the threshold; the
    administrator blinds, unblinds, resets and reads the triage feed.  Posts and
    comments share the code through a table of targets. *)

From S2P Require Import Prelude Common Db Posts Notifications Comments.

(** ** Report rows ([reports/model.py]) *)

Definition create_report (now rid reporter : Z) (ty : TargetType) (target : Z) (why : option ustr) : M db unit :=
  insert_row rid
    {| reporter_id := reporter; target_type := ty; target_id := target; reason := why;
       rep_created_at := now; rep_deleted_at := None |}
    (fun d => bool_decide (is_Some (users d !! reporter))).

Definition active_on (ty : TargetType) (target : Z) (r : Report) : bool :=
  bool_decide (target_type r = ty) && bool_decide (target_id r = target) && bool_decide (rep_deleted_at r = None).

Definition delete_by_target (now : Z) (ty : TargetType) (target : Z) : M db unit :=
  modify (update_where (fun _ r => active_on ty target r) (fun r : Report => r <| rep_deleted_at := Some now |>)).

(** [bulk_report_meta]: the scan of the ordered rows builds both dictionaries. *)
Definition meta_scan (acc : gmap (bool * Z) (list ustr) * gmap (bool * Z) Z) (row : Report)
  : gmap (bool * Z) (list ustr) * gmap (bool * Z) Z :=
  let key := (bool_decide (target_type row = POST), target_id row) in
  let reasons := match reason row with
                 | Some (c :: s) => <[key := default [] (acc.1 !! key) ++ [c :: s]]> acc.1
                 | _ => acc.1
                 end in
  let last_at := match acc.2 !! key with
                 | Some prev => if prev <? rep_created_at row then <[key := rep_created_at row]> acc.2 else acc.2
                 | None => <[key := rep_created_at row]> acc.2
                 end in
  (reasons, last_at).

Definition meta_rows (post_ids comment_ids : list Z) (d : db) : list (Z * Report) :=
  order_by (fun r : Z * Report => (target_id r.2, rep_created_at r.2)) (lex_ltb Z.ltb Z.ltb)
    (select_where (fun _ r =>
       bool_decide (rep_deleted_at r = None) &&
       match target_type r with
       | POST => bool_decide (target_id r ∈ post_ids)
       | COMMENT => bool_decide (target_id r ∈ comment_ids)
       end) d).

Definition bulk_report_meta (post_ids comment_ids : list Z) (d : db)
  : gmap (bool * Z) (list ustr) * gmap (bool * Z) Z :=
  fold_left meta_scan (snd <$> meta_rows post_ids comment_ids d) (∅, ∅).

(** ** Moderation targets ([reports/targets.py]) *)

Record ModerationTarget := {
  mt_type : TargetType;
  mt_increment_report_count : Z -> Z -> M db (option Z);
  mt_set_blinded : Z -> Z -> M db bool;
  mt_unblind : Z -> Z -> M db bool;
  mt_reset_reports : Z -> Z -> M db bool;
  mt_not_found : exn;
}.

Definition moderation_target (ty : TargetType) : ModerationTarget :=
  match ty with
  | POST =>
      {| mt_type := POST; mt_increment_report_count := increment_report_count; mt_set_blinded := set_blinded;
         mt_unblind := unblind; mt_reset_reports := reset_reports; mt_not_found := PostNotFoundException |}
  | COMMENT =>
      {| mt_type := COMMENT; mt_increment_report_count := fun _ => comment_increment_report_count;
         mt_set_blinded := comment_set_blinded; mt_unblind := comment_unblind;
         mt_reset_reports := comment_reset_reports; mt_not_found := CommentNotFoundException |}
  end.

(** ** [ReportService] *)

Record ReportCreateRequest := { rq_type : TargetType; rq_target : Z; rq_reason : option ustr }.

(** The result is the [blinded] flag of the response. *)
Definition submit_report (threshold now rid reporter : Z) (data : ReportCreateRequest) : M db bool :=
  let target := moderation_target (rq_type data) in
  begin_tx
    (new_count ← mt_increment_report_count target now (rq_target data);
     match new_count with
     | None => raise (mt_not_found target)
     | Some n =>
         create_report now rid reporter (mt_type target) (rq_target data) (rq_reason data) ;;
         if threshold <=? n then mt_set_blinded target now (rq_target data) ;; mret true
         else mret false
     end).

(** ** [AdminService]: moderation *)

(** The transaction commits before the not-found answer. *)
Definition or_not_found (ty : TargetType) (m : M db bool) : M db unit :=
  ok ← begin_tx m;
  if ok : bool then mret tt else raise (mt_not_found (moderation_target ty)).

Definition admin_blind (now : Z) (ty : TargetType) (target : Z) : M db unit :=
  or_not_found ty (mt_set_blinded (moderation_target ty) now target).
Definition admin_unblind (now : Z) (ty : TargetType) (target : Z) : M db unit :=
  or_not_found ty (mt_unblind (moderation_target ty) now target).
Definition admin_reset_reports (now : Z) (ty : TargetType) (target : Z) : M db unit :=
  or_not_found ty (delete_by_target now ty target ;; mt_reset_reports (moderation_target ty) now target).

Definition admin_delete_post (now post_id : Z) : M db unit := delete_post now post_id.
Definition admin_delete_comment (now post_id comment_id : Z) : M db unit := delete_comment now post_id comment_id.

(** ** The triage feed ([admin/repository.py], [AdminService.get_reported_posts]) *)

(** A row of the UNION ALL: (type, id), report count, created at. *)
Record reported := { rt_type : TargetType; rt_id : Z; rt_rc : Z; rt_ca : Z }.

Definition reported_posts_sel (d : db) : list reported :=
  (fun p : Z * Post => {| rt_type := POST; rt_id := p.1; rt_rc := report_count p.2; rt_ca := created_at p.2 |}) <$>
    select_where (fun _ p => bool_decide (deleted_at p = None) && (0 <? report_count p) && bool_decide (is_Some (user_id p))) d.

Definition reported_comments_sel (d : db) : list reported :=
  (fun c : Z * Comment => {| rt_type := COMMENT; rt_id := c.1; rt_rc := c_report_count c.2; rt_ca := c_created_at c.2 |}) <$>
    select_where (fun _ c => bool_decide (c_deleted_at c = None) && (0 <? c_report_count c) && bool_decide (is_Some (author_id c))) d.

(** [ORDER BY rc DESC, ca DESC, target_id DESC] *)
Definition triage_order (d : db) : list reported :=
  order_by (fun r => (rt_rc r, (rt_ca r, rt_id r))) (lex_ltb zdesc (lex_ltb zdesc zdesc))
    (reported_posts_sel d ++ reported_comments_sel d).

Definition page_reported_targets (offset sz : Z) (d : db) : list (TargetType * Z) * Z :=
  ((fun r => (rt_type r, rt_id r)) <$> offset_limit offset sz (triage_order d), py_len (triage_order d)).

Definition get_titles_by_ids (post_ids : list Z) (d : db) : gmap Z ustr :=
  list_to_map ((fun p : Z * Post => (p.1, title p.2)) <$>
    select_where (fun i p => bool_decide (i ∈ post_ids) && bool_decide (deleted_at p = None)) d).

Definition CONTENT_PREVIEW_LEN : Z := 80.
Definition content_preview (text : ustr) : ustr :=
  py_take CONTENT_PREVIEW_LEN text ++ (if CONTENT_PREVIEW_LEN <? py_len text then [8230] else []).

Record ReportedPostItem := {
  ri_type : TargetType; ri_id : Z; ri_post_id : Z; ri_title : ustr; ri_preview : ustr; ri_user_id : Z;
  ri_author : option (ustr * UserStatus); ri_report_count : Z; ri_reasons : list ustr; ri_is_blinded : bool;
  ri_created_at : Z; ri_last_reported_at : option Z;
}.

Definition author_info (d : db) (u : Z) : option (ustr * UserStatus) :=
  (fun r => (nickname r, status r)) <$> users d !! u.

(** One round of the hydration loop; [None] is [continue]. *)
Definition hydrate (d : db) (posts_by_id : gmap Z Post) (comments_by_id : gmap Z Comment) (titles : gmap Z ustr)
    (meta : gmap (bool * Z) (list ustr) * gmap (bool * Z) Z) (row : TargetType * Z) : option ReportedPostItem :=
  let '(ty, tid) := row in
  let key := (bool_decide (ty = POST), tid) in
  match ty with
  | POST =>
      p ← posts_by_id !! tid; u ← user_id p;
      Some {| ri_type := ty; ri_id := tid; ri_post_id := tid; ri_title := title p; ri_preview := content_preview (content p);
              ri_user_id := u; ri_author := author_info d u; ri_report_count := report_count p;
              ri_reasons := default [] (meta.1 !! key); ri_is_blinded := is_blinded p; ri_created_at := created_at p;
              ri_last_reported_at := meta.2 !! key |}
  | COMMENT =>
      c ← comments_by_id !! tid; u ← author_id c;
      Some {| ri_type := ty; ri_id := tid; ri_post_id := c_post_id c; ri_title := default [] (titles !! c_post_id c);
              ri_preview := content_preview (c_content c); ri_user_id := u; ri_author := author_info d u;
              ri_report_count := c_report_count c; ri_reasons := default [] (meta.1 !! key);
              ri_is_blinded := c_is_blinded c; ri_created_at := c_created_at c; ri_last_reported_at := meta.2 !! key |}
  end.

Definition ids_of (ty : TargetType) (rows : list (TargetType * Z)) : list Z :=
  snd <$> List.filter (fun r => bool_decide (r.1 = ty)) rows.

Definition get_reported_posts (page sz : Z) (d : db) : list ReportedPostItem * Z :=
  let '(page_rows, total) := page_reported_targets (offset_of page sz) sz d in
  let post_ids := ids_of POST page_rows in
  let comment_ids := ids_of COMMENT page_rows in
  let posts_by_id : gmap Z Post := list_to_map (select_where (key_in post_ids) d) in
  let comments_by_id : gmap Z Comment := list_to_map (select_where (key_in comment_ids) d) in
  let meta := bulk_report_meta post_ids comment_ids d in
  let titles := get_titles_by_ids ((fun c : Z * Comment => c_post_id c.2) <$> map_to_list comments_by_id) d in
  (omap (hydrate d posts_by_id comments_by_id titles meta) page_rows, total).

(** ** What moderation observes of a live target: count, blinded, has an author *)

Definition observed (ty : TargetType) (d : db) (t : Z) : option (Z * bool * bool) :=
  match ty with
  | POST => p ← posts d !! t;
            if decide (deleted_at p = None)
            then Some (report_count p, is_blinded p, bool_decide (is_Some (user_id p))) else None
  | COMMENT => c ← comments d !! t;
               if decide (c_deleted_at c = None)
               then Some (c_report_count c, c_is_blinded c, bool_decide (is_Some (author_id c))) else None
  end.

(** A step on one target: only its own observation may change. *)
Definition mod_frame (ty : TargetType) (t : Z) (d d' : db) : Prop :=
  reports d' = reports d /\ users d' = users d /\
  forall ty' s, (ty', s) <> (ty, t) -> observed ty' d' s = observed ty' d s.

Lemma mod_frame_refl ty t d : mod_frame ty t d d.
Proof. done. Qed.
Lemma mod_frame_trans ty t d d1 d2 : mod_frame ty t d d1 -> mod_frame ty t d1 d2 -> mod_frame ty t d d2.
Proof.
  intros (H1 & H2 & H3) (K1 & K2 & K3). split; [congruence|]. split; [congruence|]. intros. by rewrite K3, H3.
Qed.

Lemma observed_posts_same d d' : posts d' = posts d -> forall t, observed POST d' t = observed POST d t.
Proof. intros E t. cbn. by rewrite E. Qed.
Lemma observed_comments_same d d' : comments d' = comments d -> forall t, observed COMMENT d' t = observed COMMENT d t.
Proof. intros E t. cbn. by rewrite E. Qed.

(** Rewriting one post, or one comment. *)
Lemma post_write d t p p' : posts d !! t = Some p -> deleted_at p' = None ->
  let d' := d <| posts := <[t := p']> (posts d) |> in
  observed POST d' t = Some (report_count p', is_blinded p', bool_decide (is_Some (user_id p'))) /\ mod_frame POST t d d'.
Proof.
  intros Hp Hdel d'. split; [cbn; by rewrite lookup_insert_eq; cbn; rewrite decide_True|]. split; [done|]. split; [done|].
  intros [] s Hs; [|done]. cbn. rewrite lookup_insert_ne; [done|]. intros <-. done.
Qed.

Lemma comment_write d t c c' : comments d !! t = Some c -> c_deleted_at c' = None ->
  let d' := d <| comments := <[t := c']> (comments d) |> in
  observed COMMENT d' t = Some (c_report_count c', c_is_blinded c', bool_decide (is_Some (author_id c'))) /\ mod_frame COMMENT t d d'.
Proof.
  intros Hp Hdel d'. split; [cbn; by rewrite lookup_insert_eq; cbn; rewrite decide_True|]. split; [done|]. split; [done|].
  intros [] s Hs; [done|]. cbn. rewrite lookup_insert_ne; [done|]. intros <-. done.
Qed.

(** Recounting a post's comments is invisible to moderation. *)
Lemma resync_invisible now pid d : exists d', resync_count now pid d = (inr tt, d') /\
  reports d' = reports d /\ users d' = users d /\ forall ty s, observed ty d' s = observed ty d s.
Proof.
  rewrite resync_count_spec. destruct (posts d !! pid) as [p|] eqn:Ep; eexists; (split; [reflexivity|]); [|done].
  split; [done|]. split; [done|]. intros [] s; [|done]. cbn. destruct (decide (pid = s)) as [<-|Hne].
  - rewrite lookup_insert_eq, Ep. done.
  - by rewrite lookup_insert_ne.
Qed.

(** ** Specifications of the target table *)

Lemma increment_spec ty now t d :
  match observed ty d t with
  | Some (n, b, true) => exists d', mt_increment_report_count (moderation_target ty) now t d = (inr (Some (n + 1)), d') /\
      observed ty d' t = Some (n + 1, b, true) /\ mod_frame ty t d d'
  | _ => mt_increment_report_count (moderation_target ty) now t d = (inr None, d)
  end.
Proof.
  destruct ty; cbn [moderation_target mt_increment_report_count observed].
  - unfold increment_report_count. rewrite update_one_returning_pk. cbn [rows set_rows posts_table].
    destruct (posts d !! t) as [p|] eqn:Ep; cbn [mbind option_bind]; [|done]. destruct (decide (deleted_at p = None)) as [Hd|Hd].
    + rewrite (bool_decide_eq_true_2 _ Hd). cbn [andb]. case_bool_decide as Hu; [|done]. eexists. split; [reflexivity|].
      pose proof (post_write d t p (p <| report_count := report_count p + 1 |> <| updated_at := now |>) Ep) as Hw.
      destruct (Hw Hd) as [Ho Hf].
      split; [|exact Hf]. etransitivity; [exact Ho|]. cbn. by rewrite bool_decide_eq_true_2.
    + by rewrite bool_decide_eq_false_2.
  - unfold comment_increment_report_count. rewrite update_one_returning_pk. cbn [rows set_rows comments_table].
    destruct (comments d !! t) as [c|] eqn:Ep; cbn [mbind option_bind]; [|done]. destruct (decide (c_deleted_at c = None)) as [Hd|Hd].
    + rewrite (bool_decide_eq_true_2 _ Hd). cbn [andb]. case_bool_decide as Hu; [|done]. eexists. split; [reflexivity|].
      pose proof (comment_write d t c (c <| c_report_count := c_report_count c + 1 |>) Ep) as Hw.
      destruct (Hw Hd) as [Ho Hf].
      split; [|exact Hf]. etransitivity; [exact Ho|]. cbn. by rewrite bool_decide_eq_true_2.
    + by rewrite bool_decide_eq_false_2.
Qed.

(** A moderation switch [op] that turns (count, blinded, author) into [f] of it. *)
Definition switch_spec (ty : TargetType) (t : Z) (f : Z * bool * bool -> Z * bool * bool) (op : M db bool) : Prop :=
  forall d, match observed ty d t with
            | Some o => exists d', op d = (inr true, d') /\ observed ty d' t = Some (f o) /\ mod_frame ty t d d'
            | None => op d = (inr false, d)
            end.

Lemma switch_intro ty t f (op : M db bool) :
  (forall d, observed ty d t = None -> op d = (inr false, d)) ->
  (forall d o, observed ty d t = Some o ->
     exists d', op d = (inr true, d') /\ observed ty d' t = Some (f o) /\ mod_frame ty t d d') ->
  switch_spec ty t f op.
Proof. intros Hn Hs d. destruct (observed ty d t) as [o|] eqn:E; [by apply Hs|by apply Hn]. Qed.

Lemma observed_post_inv d t o : observed POST d t = Some o ->
  exists p, posts d !! t = Some p /\ deleted_at p = None /\ o = (report_count p, is_blinded p, bool_decide (is_Some (user_id p))).
Proof. cbn. destruct (posts d !! t) as [p|]; cbn; [|done]. case_decide; [|done]. intros [= <-]. by exists p. Qed.
Lemma observed_comment_inv d t o : observed COMMENT d t = Some o ->
  exists c, comments d !! t = Some c /\ c_deleted_at c = None /\ o = (c_report_count c, c_is_blinded c, bool_decide (is_Some (author_id c))).
Proof. cbn. destruct (comments d !! t) as [p|]; cbn; [|done]. case_decide; [|done]. intros [= <-]. by exists p. Qed.
Lemma observed_post_none d t : observed POST d t = None -> forall p, posts d !! t = Some p -> bool_decide (deleted_at p = None) = false.
Proof. cbn. intros H p Hp. rewrite Hp in H. cbn in H. case_decide; [done|]. by apply bool_decide_eq_false_2. Qed.
Lemma observed_comment_none d t : observed COMMENT d t = None -> forall c, comments d !! t = Some c -> bool_decide (c_deleted_at c = None) = false.
Proof. cbn. intros H p Hp. rewrite Hp in H. cbn in H. case_decide; [done|]. by apply bool_decide_eq_false_2. Qed.

Lemma post_switch now t (g : Post -> Post) f :
  (forall p, deleted_at (g p) = deleted_at p /\
     f (report_count p, is_blinded p, bool_decide (is_Some (user_id p))) =
       (report_count (g p), is_blinded (g p), bool_decide (is_Some (user_id (g p))))) ->
  switch_spec POST t f (is_some (update_post_columns now t true ret_id g)).
Proof.
  intros Hg. apply switch_intro; intros d; unfold is_some, update_post_columns; unfold mbind, M_bind;
    rewrite update_one_returning_pk; cbn [rows set_rows posts_table negb orb].
  - intros Hn. destruct (posts d !! t) as [p|] eqn:Ep; [|done]. by rewrite (observed_post_none d t Hn p Ep).
  - intros o (p & Ep & Hd & ->)%observed_post_inv. rewrite Ep, (bool_decide_eq_true_2 _ Hd). cbn [ret_id].
    eexists. split; [reflexivity|]. destruct (Hg p) as [Hgd ->].
    pose proof (post_write d t p (g p <| updated_at := now |>) Ep) as Hw. destruct Hw as [Ho Hf]; [cbn; by rewrite Hgd|].
    split; [exact Ho|exact Hf].
Qed.

(** A comment switch writes the row, recounts the post, and is idempotent. *)
Lemma comment_switch now t (b : bool) (c : Comment) d :
  comments d !! t = Some c -> c_deleted_at c = None ->
  exists d', (resync_count now (c_post_id c) ;; mret true)
      (d <| comments := <[t := c <| c_is_blinded := b |> <| c_updated_at := now |>]> (comments d) |>) = (inr true, d') /\
    observed COMMENT d' t = Some (c_report_count c, b, bool_decide (is_Some (author_id c))) /\ mod_frame COMMENT t d d'.
Proof.
  intros Ec Hd. pose proof (comment_write d t c (c <| c_is_blinded := b |> <| c_updated_at := now |>) Ec) as Hw.
  destruct (Hw Hd) as [Ho Hf]. unfold mbind, M_bind.
  match goal with |- context [resync_count now ?p ?d1] => destruct (resync_invisible now p d1) as (d2 & E2 & H2 & H3 & H4) end.
  rewrite E2. exists d2. split; [done|]. split; [etransitivity; [apply (H4 COMMENT)|exact Ho]|].
  eapply mod_frame_trans; [exact Hf|]. split; [done|]. by split.
Qed.

Lemma comment_alive_same d t c : comments d !! t = Some c -> c_deleted_at c = None ->
  comment_is_alive t d = (inr true, d) /\
  observed COMMENT d t = Some (c_report_count c, c_is_blinded c, bool_decide (is_Some (author_id c))).
Proof.
  intros Ec Hd. unfold comment_is_alive, gets, get_comment_meta. cbn. rewrite Ec. cbn. by rewrite bool_decide_eq_true_2, decide_True.
Qed.

Lemma comment_dead_same d t : observed COMMENT d t = None -> comment_is_alive t d = (inr false, d).
Proof.
  intros Hn. unfold comment_is_alive, gets, get_comment_meta. destruct (comments d !! t) as [c|] eqn:Ec; [|done].
  by rewrite (observed_comment_none d t Hn c Ec).
Qed.

Lemma comment_blind_switch now t : switch_spec COMMENT t (fun '(n, _, a) => (n, true, a)) (comment_set_blinded now t).
Proof.
  apply switch_intro; intros d; unfold comment_set_blinded, blind_if_visible; unfold mbind at 1, M_bind at 1;
    rewrite update_one_returning_pk; cbn [rows set_rows comments_table].
  - intros Hn. destruct (comments d !! t) as [c|] eqn:Ec; [rewrite (observed_comment_none d t Hn c Ec)|]; by apply comment_dead_same.
  - intros o (c & Ec & Hd & ->)%observed_comment_inv. rewrite Ec, (bool_decide_eq_true_2 _ Hd). cbn [andb].
    destruct (c_is_blinded c) eqn:Eb; cbn [negb]; [|exact (comment_switch now t true c d Ec Hd)].
    destruct (comment_alive_same d t c Ec Hd) as [-> Ho]. exists d. rewrite Eb in Ho. done.
Qed.

Lemma comment_unblind_switch now t : switch_spec COMMENT t (fun '(n, _, a) => (n, false, a)) (comment_unblind now t).
Proof.
  apply switch_intro; intros d; unfold comment_unblind, unblind_if_blinded; unfold mbind at 1, M_bind at 1;
    rewrite update_one_returning_pk; cbn [rows set_rows comments_table].
  - intros Hn. destruct (comments d !! t) as [c|] eqn:Ec; [rewrite (observed_comment_none d t Hn c Ec)|]; by apply comment_dead_same.
  - intros o (c & Ec & Hd & ->)%observed_comment_inv. rewrite Ec, (bool_decide_eq_true_2 _ Hd). cbn [andb].
    destruct (c_is_blinded c) eqn:Eb; [exact (comment_switch now t false c d Ec Hd)|].
    destruct (comment_alive_same d t c Ec Hd) as [-> Ho]. exists d. rewrite Eb in Ho. done.
Qed.

Lemma comment_reset_switch now t : switch_spec COMMENT t (fun '(_, _, a) => (0, false, a)) (comment_reset_reports now t).
Proof.
  apply switch_intro; intros d; unfold comment_reset_reports; unfold mbind at 1, M_bind at 1;
    pose proof (comment_unblind_switch now t d) as Hu.
  - intros Hn. rewrite Hn in Hu. rewrite Hu. unfold comment_reset_report_count, is_some, update_comment_columns.
    unfold mbind, M_bind. rewrite update_one_returning_pk. cbn [rows set_rows comments_table negb orb].
    destruct (comments d !! t) as [c|] eqn:Ec; [|done]. by rewrite (observed_comment_none d t Hn c Ec).
  - intros [[n b] a] Ho. rewrite Ho in Hu. destruct Hu as (d1 & -> & Ho1 & Hf1).
    destruct (observed_comment_inv _ _ _ Ho1) as (c & Ec & Hd & Heq). injection Heq as _ Hb Ha.
    unfold comment_reset_report_count, is_some, update_comment_columns.
    unfold mbind, M_bind. rewrite update_one_returning_pk. cbn [rows set_rows comments_table negb orb].
    rewrite Ec, (bool_decide_eq_true_2 _ Hd). eexists. split; [reflexivity|].
    pose proof (comment_write d1 t c (c <| c_report_count := 0 |> <| c_updated_at := now |>) Ec) as Hw.
    destruct (Hw Hd) as [Ho2 Hf2]. split; [|by eapply mod_frame_trans].
    etransitivity; [exact Ho2|]. cbn. by rewrite <-Ha, <-Hb.
Qed.

Lemma blind_switch ty now t : switch_spec ty t (fun '(n, _, a) => (n, true, a)) (mt_set_blinded (moderation_target ty) now t).
Proof. destruct ty; [by apply post_switch|apply comment_blind_switch]. Qed.
Lemma unblind_switch ty now t : switch_spec ty t (fun '(n, _, a) => (n, false, a)) (mt_unblind (moderation_target ty) now t).
Proof. destruct ty; [by apply post_switch|apply comment_unblind_switch]. Qed.
Lemma reset_switch ty now t : switch_spec ty t (fun '(_, _, a) => (0, false, a)) (mt_reset_reports (moderation_target ty) now t).
Proof. destruct ty; [by apply post_switch|apply comment_reset_switch]. Qed.

(** ** Reports and counters *)

Definition active_reports (d : db) (ty : TargetType) (t : Z) : Z :=
  Z.of_nat (base.size (filter (fun p : Z * Report => active_on ty t p.2 = true) (reports d))).

(** Every live target's counter is its number of active reports. *)
Definition reports_ok (d : db) : Prop :=
  forall ty t n b a, observed ty d t = Some (n, b, a) -> n = active_reports d ty t.

Lemma active_reports_insert d rid reporter ty t why now ty' s : reports d !! rid = None ->
  active_reports (d <| reports := <[rid := {| reporter_id := reporter; target_type := ty; target_id := t; reason := why;
       rep_created_at := now; rep_deleted_at := None |}]> (reports d) |>) ty' s =
  active_reports d ty' s + if decide ((ty', s) = (ty, t)) then 1 else 0.
Proof.
  intros Hn. unfold active_reports. cbn [reports over].
  pose proof (size_filter_insert (fun p : Z * Report => active_on ty' s p.2 = true) (fun p : Z * Report => active_on ty' s p.2 = true)
    (reports d) rid {| reporter_id := reporter; target_type := ty; target_id := t; reason := why;
       rep_created_at := now; rep_deleted_at := None |} ltac:(done)) as H.
  rewrite Hn in H. cbn [snd] in H.
  assert (forall r, target_type r = ty -> target_id r = t -> rep_deleted_at r = None ->
    active_on ty' s r = true <-> (ty', s) = (ty, t)) as Hiff.
  { intros r <- <- Hr. unfold active_on. rewrite !andb_true_iff, !bool_decide_eq_true. naive_solver. }
  destruct (decide ((ty', s) = (ty, t))), (decide (active_on ty' s _ = true)) as [Ha|Ha];
    rewrite Hiff in Ha by done; try done; lia.
Qed.

Lemma active_reports_cleared now ty t d ty' s :
  active_reports (update_where (fun _ r => active_on ty t r) (fun r : Report => r <| rep_deleted_at := Some now |>) d) ty' s =
  if decide ((ty', s) = (ty, t)) then 0 else active_reports d ty' s.
Proof.
  unfold active_reports, update_where. cbn [rows set_rows reports_table reports over].
  set (g := fun (k : Z) (r : Report) => Some (if active_on ty t r then r <| rep_deleted_at := Some now |> else r)).
  destruct (decide ((ty', s) = (ty, t))) as [[= -> ->]|Hne].
  - apply (Nat2Z.inj_iff _ 0), map_size_empty_iff, map_eq. intros k. rewrite lookup_empty. apply map_lookup_filter_None. right.
    intros r. rewrite map_lookup_imap. destruct (reports d !! k) as [r0|]; [|done].
    cbn. intros [= <-]. cbn. destruct (active_on ty t r0) eqn:E; [|by rewrite E]. unfold active_on. cbn. by rewrite andb_false_r.
  - f_equal. assert (forall r, active_on ty t r = true -> active_on ty' s r = false) as Hdis.
    { intros r. unfold active_on. rewrite !andb_true_iff, !bool_decide_eq_true. intros [[<- <-] _].
      destruct (decide (target_type r = ty')) as [<-|]; [|by rewrite (bool_decide_eq_false_2 (target_type r = ty'))].
      rewrite (bool_decide_eq_false_2 (target_id r = s)); [by rewrite andb_false_r|]. congruence. }
    assert (forall k r, map_imap g (reports d) !! k = Some r /\ active_on ty' s r = true <-> reports d !! k = Some r /\ active_on ty' s r = true) as Hiff.
    { intros k r. rewrite map_lookup_imap. destruct (reports d !! k) as [r0|]; cbn; [|naive_solver].
      unfold g. destruct (active_on ty t r0) eqn:E; [|naive_solver]. split.
      - intros [[= <-] Ha]. unfold active_on in Ha. cbn in Ha. by rewrite andb_false_r in Ha.
      - intros [[= ->] Ha]. by rewrite (Hdis r E) in Ha. }
    f_equal. apply map_eq. intros k. apply option_eq. intros r. rewrite !map_lookup_filter_Some. apply Hiff.
Qed.

(** ** Properties *)

Lemma create_report_spec now rid reporter ty t why d :
  is_Some (users d !! reporter) -> reports d !! rid = None ->
  create_report now rid reporter ty t why d =
    (inr tt, d <| reports := <[rid := {| reporter_id := reporter; target_type := ty; target_id := t; reason := why;
       rep_created_at := now; rep_deleted_at := None |}]> (reports d) |>).
Proof.
  intros Hu Hr. unfold create_report, insert_row. cbn [rows set_rows reports_table]. rewrite Hr.
  by rewrite bool_decide_eq_true_2 by done.
Qed.

(** A report on a reportable target, step by step. *)
Lemma submit_success th now rid reporter ty t why d n b :
  is_Some (users d !! reporter) -> reports d !! rid = None -> observed ty d t = Some (n, b, true) ->
  exists d', submit_report th now rid reporter {| rq_type := ty; rq_target := t; rq_reason := why |} d = (inr (th <=? n + 1), d') /\
    observed ty d' t = Some (n + 1, b || (th <=? n + 1), true) /\
    (forall ty' s, (ty', s) <> (ty, t) -> observed ty' d' s = observed ty' d s) /\
    reports d' = <[rid := {| reporter_id := reporter; target_type := ty; target_id := t; reason := why;
       rep_created_at := now; rep_deleted_at := None |}]> (reports d).
Proof.
  intros Hu Hr Ho. pose proof (increment_spec ty now t d) as Hi. rewrite Ho in Hi. destruct Hi as (d1 & E1 & Ho1 & Hr1 & Hu1 & Hf1).
  unfold submit_report, begin_tx. cbn [rq_type rq_target rq_reason]. unfold mbind at 1, M_bind at 1. rewrite E1.
  unfold mbind at 1, M_bind at 1. replace (mt_type (moderation_target ty)) with ty by (by destruct ty).
  rewrite (create_report_spec now rid reporter ty t why d1) by congruence. rewrite Hr1.
  set (d2 := d1 <| reports := _ |>).
  assert (forall ty' s, observed ty' d2 s = observed ty' d1 s) as Hsame by (by intros []).
  destruct (th <=? n + 1).
  - pose proof (blind_switch ty now t d2) as Hb. rewrite Hsame, Ho1 in Hb. destruct Hb as (d3 & E3 & Ho3 & Hr3 & Hu3 & Hf3).
    unfold mbind, M_bind. rewrite E3. exists d3. split; [done|]. split; [by rewrite orb_true_r|].
    split; [|by rewrite Hr3]. intros ty' s Hne. by rewrite Hf3, Hsame, Hf1.
  - exists d2. split; [done|]. split; [by rewrite Hsame, Ho1, orb_false_r|]. split; [|done].
    intros ty' s Hne. by rewrite Hsame, Hf1.
Qed.

(** A report: on a live target with an author it adds exactly one report row,
    raises that target's count by one, answers [blinded] exactly when the new
    count reaches the threshold and then the target is blinded, and changes
    nothing about any other target; otherwise the answer is the target's
    not-found error and nothing is written. *)
Theorem submit_report_exact (threshold now rid reporter : Z) (rq : ReportCreateRequest) (d : db) :
  is_Some (users d !! reporter) -> reports d !! rid = None ->
  match observed (rq_type rq) d (rq_target rq) with
  | Some (n, b, true) =>
      exists d', submit_report threshold now rid reporter rq d = (inr (threshold <=? n + 1), d') /\
        observed (rq_type rq) d' (rq_target rq) = Some (n + 1, b || (threshold <=? n + 1), true) /\
        (forall ty s, (ty, s) <> (rq_type rq, rq_target rq) -> observed ty d' s = observed ty d s) /\
        exists r, reports d' = <[rid := r]> (reports d) /\ reporter_id r = reporter /\
          active_on (rq_type rq) (rq_target rq) r = true
  | _ => submit_report threshold now rid reporter rq d = (inl (mt_not_found (moderation_target (rq_type rq))), d)
  end.
Proof.
  intros Hu Hr. destruct rq as [ty t why]. cbn [rq_type rq_target].
  assert (forall e, mt_increment_report_count (moderation_target ty) now t d = (inr None, d) -> e = mt_not_found (moderation_target ty) ->
    submit_report threshold now rid reporter {| rq_type := ty; rq_target := t; rq_reason := why |} d = (inl e, d)) as Hmiss.
  { intros e E ->. unfold submit_report, begin_tx. cbn [rq_type rq_target]. unfold mbind, M_bind. by rewrite E. }
  pose proof (increment_spec ty now t d) as Hi. destruct (observed ty d t) as [[[n b] [|]]|] eqn:Ho; [|by apply Hmiss|by apply Hmiss].
  destruct (submit_success threshold now rid reporter ty t why d n b Hu Hr Ho) as (d' & E & Ho' & Hf & Hr').
  exists d'. split; [done|]. split; [done|]. split; [done|]. eexists. split; [exact Hr'|]. split; [done|].
  unfold active_on. cbn. by rewrite !bool_decide_eq_true_2.
Qed.

Inductive mod_request :=
  | Submit (threshold now rid reporter : Z) (rq : ReportCreateRequest)
  | Blind (now : Z) (ty : TargetType) (t : Z)
  | Unblind (now : Z) (ty : TargetType) (t : Z)
  | ResetReports (now : Z) (ty : TargetType) (t : Z).

Definition moderate (q : mod_request) (d : db) : db :=
  match q with
  | Submit th now rid reporter rq => (submit_report th now rid reporter rq d).2
  | Blind now ty t => (admin_blind now ty t d).2
  | Unblind now ty t => (admin_unblind now ty t d).2
  | ResetReports now ty t => (admin_reset_reports now ty t d).2
  end.

Lemma submit_success_inv th now rid reporter ty t why d x d' :
  submit_report th now rid reporter {| rq_type := ty; rq_target := t; rq_reason := why |} d = (inr x, d') ->
  is_Some (users d !! reporter) /\ reports d !! rid = None /\ exists n b, observed ty d t = Some (n, b, true).
Proof.
  unfold submit_report, begin_tx. cbn [rq_type rq_target rq_reason]. unfold mbind at 1, M_bind at 1.
  pose proof (increment_spec ty now t d) as Hi. destruct (observed ty d t) as [[[n b] [|]]|]; [|by rewrite Hi|by rewrite Hi].
  destruct Hi as (d1 & -> & _ & Hr & Hu & _). unfold mbind at 1, M_bind at 1. unfold create_report, insert_row.
  cbn [rows set_rows reports_table]. rewrite Hr. destruct (reports d !! rid); [done|]. case_bool_decide as Hb; [|done].
  rewrite Hu in Hb. intros _. split; [done|]. split; [done|]. by exists n, b.
Qed.

Lemma reports_ok_frame ty t d d' o f :
  observed ty d t = Some o -> observed ty d' t = Some (f o) -> (f o).1.1 = o.1.1 -> mod_frame ty t d d' -> reports_ok d -> reports_ok d'.
Proof.
  intros Ho Ho' Hc (Hr & _ & Hf) Hok ty' s n b a Hs. unfold active_reports. rewrite Hr.
  destruct (decide ((ty', s) = (ty, t))) as [[= -> ->]|Hne].
  - rewrite Ho' in Hs. injection Hs as Hs. destruct o as [[n0 b0] a0]. apply (Hok ty t n b0 a0). rewrite Ho. rewrite Hs in Hc. cbn in Hc. by subst.
  - rewrite Hf in Hs by done. by apply (Hok ty' s n b a).
Qed.

Lemma or_not_found_state ty m d : (or_not_found ty m d).2 = (begin_tx m d).2.
Proof. unfold or_not_found. unfold mbind, M_bind. destruct (begin_tx m d) as [[e|[]] d']; done. Qed.

Lemma switch_keeps_reports ty t f op d :
  switch_spec ty t f op -> (forall o, (f o).1.1 = o.1.1) -> reports_ok d -> reports_ok (or_not_found ty op d).2.
Proof.
  intros Hs Hc Hok. rewrite or_not_found_state. unfold begin_tx. specialize (Hs d).
  destruct (observed ty d t) as [o|] eqn:Ho.
  - destruct Hs as (d' & -> & Ho' & Hf). exact (reports_ok_frame ty t d d' o f Ho Ho' (Hc o) Hf Hok).
  - by rewrite Hs.
Qed.

Lemma reset_keeps_reports now ty t d : reports_ok d -> reports_ok (admin_reset_reports now ty t d).2.
Proof.
  intros Hok. unfold admin_reset_reports. rewrite or_not_found_state. unfold begin_tx. unfold mbind, M_bind, delete_by_target, modify.
  set (d1 := update_where _ _ d).
  assert (forall ty' s, observed ty' d1 s = observed ty' d s) as Hsame by (by intros []).
  assert (forall ty' s, active_reports d1 ty' s = if decide ((ty', s) = (ty, t)) then 0 else active_reports d ty' s) as Hact
    by apply active_reports_cleared.
  pose proof (reset_switch ty now t d1) as Hs. rewrite Hsame in Hs. destruct (observed ty d t) as [[[n b] a]|] eqn:Ho.
  - destruct Hs as (d2 & -> & Ho2 & Hr2 & _ & Hf2). cbn [snd]. intros ty' s n' b' a' Hs'.
    unfold active_reports. rewrite Hr2. fold (active_reports d1 ty' s). rewrite Hact.
    destruct (decide ((ty', s) = (ty, t))) as [[= -> ->]|Hne]; [rewrite Ho2 in Hs'; by injection Hs' as <-|].
    rewrite Hf2, Hsame in Hs' by done. by eapply Hok.
  - rewrite Hs. cbn [snd]. intros ty' s n' b' a' Hs'. rewrite Hsame in Hs'. rewrite Hact.
    destruct (decide ((ty', s) = (ty, t))) as [[= -> ->]|Hne]; [congruence|]. by eapply Hok.
Qed.

Lemma submit_keeps_reports th now rid reporter rq d : reports_ok d -> reports_ok (submit_report th now rid reporter rq d).2.
Proof.
  intros Hok. destruct rq as [ty t why]. destruct (submit_report _ _ _ _ _ d) as [[e|x] d'] eqn:E.
  { apply begin_tx_error in E. by subst. }
  destruct (submit_success_inv _ _ _ _ _ _ _ _ _ _ E) as (Hu & Hr & n & b & Ho).
  destruct (submit_success th now rid reporter ty t why d n b Hu Hr Ho) as (d2 & E2 & Ho2 & Hf2 & Hr2).
  rewrite E in E2. injection E2 as _ <-. cbn [snd]. intros ty' s n' b' a' Hs.
  pose proof (active_reports_insert d rid reporter ty t why now ty' s Hr) as Ha. unfold active_reports in Ha at 1. cbn [reports over] in Ha.
  unfold active_reports. rewrite Hr2, Ha. destruct (decide ((ty', s) = (ty, t))) as [[= -> ->]|Hne].
  - rewrite Ho2 in Hs. injection Hs as <- _ _. by rewrite (Hok _ _ _ _ _ Ho).
  - rewrite Hf2 in Hs by done. rewrite (Hok _ _ _ _ _ Hs). lia.
Qed.

(** C11. Report counters are exact: from a store in which every live post and
    comment has as many active reports as its counter says, any sequence of
    reports, blinds, unblinds and resets, on any targets and with any outcomes,
    leads to such a store. *)
Theorem report_counters_exact (qs : list mod_request) (d : db) :
  reports_ok d -> reports_ok (fold_left (fun d q => moderate q d) qs d).
Proof.
  revert d. induction qs as [|q qs IH]; intros d Hok; cbn; [done|]. apply IH. destruct q; cbn.
  - by apply submit_keeps_reports.
  - eapply switch_keeps_reports; [apply blind_switch|by intros [[] ?]|done].
  - eapply switch_keeps_reports; [apply unblind_switch|by intros [[] ?]|done].
  - by apply reset_keeps_reports.
Qed.

(** ** The triage feed *)

Definition item_key (i : ReportedPostItem) : TargetType * Z := (ri_type i, ri_id i).
Definition row_key (r : reported) : TargetType * Z := (rt_type r, rt_id r).

(** What the administrator sees following [has_more] from a page on. *)
Fixpoint triage_walk (fuel : nat) (page sz : Z) (d : db) : list (list (TargetType * Z)) :=
  match fuel with
  | O => []
  | S f =>
      let '(items, total) := get_reported_posts page sz d in
      (item_key <$> items) :: if from_page_has_more page sz total then triage_walk f (page + 1) sz d else []
  end.

(** A live reported target with an author. *)
Definition reportable (d : db) (k : TargetType * Z) : Prop := exists n b, observed k.1 d k.2 = Some (n, b, true) /\ 0 < n.

Lemma triage_row_inv d r : r ∈ triage_order d ->
  match rt_type r with
  | POST => exists p u, posts d !! rt_id r = Some p /\ user_id p = Some u
  | COMMENT => exists c u, comments d !! rt_id r = Some c /\ author_id c = Some u
  end /\ reportable d (row_key r).
Proof.
  unfold triage_order. rewrite order_by_perm, elem_of_app. unfold reported_posts_sel, reported_comments_sel. rewrite !list_elem_of_fmap.
  intros [([k p] & -> & [Hp Hc]%select_where_elem)|([k c] & -> & [Hp Hc]%select_where_elem)];
    cbn [rows posts_table comments_table] in Hp; rewrite !andb_true_iff, !bool_decide_eq_true, Z.ltb_lt in Hc;
    destruct Hc as [[Hd Hn] [u Hu]]; cbn [rt_type rt_id fst snd row_key]; (split; [by eexists _, u|]).
  - exists (report_count p), (is_blinded p). cbn. rewrite Hp. cbn. rewrite decide_True, bool_decide_eq_true_2 by (done || by rewrite Hu). done.
  - exists (c_report_count c), (c_is_blinded c). cbn. rewrite Hp. cbn. rewrite decide_True, bool_decide_eq_true_2 by (done || by rewrite Hu). done.
Qed.

Lemma by_id_lookup `{!Table Z R} ids k (d : db) (r : R) :
  rows d !! k = Some r -> k ∈ ids -> (list_to_map (select_where (key_in ids) d) : gmap Z R) !! k = Some r.
Proof.
  intros Hr Hk. apply elem_of_list_to_map; [apply select_where_nodup|]. apply select_where_elem. split; [done|].
  by apply bool_decide_eq_true_2.
Qed.

Lemma ids_of_elem ty k (rows : list (TargetType * Z)) : (ty, k) ∈ rows -> k ∈ ids_of ty rows.
Proof.
  intros Hin. unfold ids_of. apply list_elem_of_fmap. exists (ty, k). split; [done|]. apply list_elem_of_In, filter_In.
  split; [by apply list_elem_of_In|]. by apply bool_decide_eq_true_2.
Qed.

Lemma omap_keys {A B C} (f : A -> option B) (key : B -> C) (g : A -> C) (l : list A) :
  (forall x, x ∈ l -> exists y, f x = Some y /\ key y = g x) -> key <$> omap f l = g <$> l.
Proof.
  induction l as [|x l IH]; intros H; cbn; [done|]. destruct (H x) as (y & -> & Hk); [set_solver|]. cbn. rewrite Hk. f_equal.
  apply IH. intros z Hz. apply H. set_solver.
Qed.

(** No row of a page is skipped by the hydration loop. *)
Lemma reported_page page sz d :
  item_key <$> (get_reported_posts page sz d).1 = row_key <$> offset_limit (offset_of page sz) sz (triage_order d).
Proof.
  unfold get_reported_posts, page_reported_targets. cbn [fst]. change (fun r => (rt_type r, rt_id r)) with row_key.
  set (pr := row_key <$> offset_limit _ _ _). rewrite (omap_keys _ item_key id); [apply list_fmap_id|].
  intros [ty tid] Hin. pose proof Hin as Hin'. unfold pr in Hin'. apply list_elem_of_fmap in Hin' as (r & Hk & Hr).
  unfold row_key in Hk. injection Hk as -> ->.
  assert (r ∈ triage_order d) as Hr'. { unfold offset_limit in Hr. by eapply elem_of_take_drop. }
  destruct (triage_row_inv d r Hr') as [Hrow _]. pose proof (ids_of_elem _ _ _ Hin) as Hid.
  unfold hydrate. destruct (rt_type r); destruct Hrow as (p & u & Hp & Hu).
  - rewrite (@by_id_lookup Post posts_table (ids_of POST pr) (rt_id r) d p Hp Hid). cbn [mbind option_bind]. rewrite Hu. by eexists.
  - rewrite (@by_id_lookup Comment comments_table (ids_of COMMENT pr) (rt_id r) d p Hp Hid). cbn [mbind option_bind]. rewrite Hu. by eexists.
Qed.

Lemma reported_total page sz d : (get_reported_posts page sz d).2 = py_len (triage_order d).
Proof. done. Qed.

Lemma triage_walk_offset fuel page sz d :
  triage_walk fuel page sz d = (fun l : list reported => row_key <$> l) <$> offset_walk fuel page sz (triage_order d).
Proof.
  revert page. induction fuel as [|fuel IH]; intros page; cbn [triage_walk offset_walk]; [done|].
  pose proof (reported_page page sz d) as Hp. pose proof (reported_total page sz d) as Ht.
  destruct (get_reported_posts page sz d) as [items total]. cbn [fst snd] in *. rewrite fmap_cons, Hp, Ht. f_equal.
  destruct (from_page_has_more _ _ _); [apply IH|done].
Qed.

Lemma triage_row_intro d k : reportable d k -> exists r, r ∈ triage_order d /\ row_key r = k.
Proof.
  destruct k as [[] t]; intros (n & b & Ho & Hn); cbn [fst snd] in Ho; unfold triage_order.
  - destruct (observed_post_inv _ _ _ Ho) as (p & Hp & Hd & Heq). injection Heq as Hn' _ Hu. symmetry in Hu. apply bool_decide_eq_true in Hu.
    exists {| rt_type := POST; rt_id := t; rt_rc := report_count p; rt_ca := created_at p |}. split; [|done].
    rewrite order_by_perm, elem_of_app. left. unfold reported_posts_sel. apply list_elem_of_fmap. exists (t, p). split; [done|].
    apply select_where_elem. split; [done|]. rewrite !bool_decide_eq_true_2 by done. cbn. rewrite andb_true_r. apply Z.ltb_lt. lia.
  - destruct (observed_comment_inv _ _ _ Ho) as (p & Hp & Hd & Heq). injection Heq as Hn' _ Hu. symmetry in Hu. apply bool_decide_eq_true in Hu.
    exists {| rt_type := COMMENT; rt_id := t; rt_rc := c_report_count p; rt_ca := c_created_at p |}. split; [|done].
    rewrite order_by_perm, elem_of_app. right. unfold reported_comments_sel. apply list_elem_of_fmap. exists (t, p). split; [done|].
    apply select_where_elem. split; [done|]. rewrite !bool_decide_eq_true_2 by done. cbn. rewrite andb_true_r. apply Z.ltb_lt. lia.
Qed.

Lemma concat_fmap {A B} (f : A -> B) (l : list (list A)) : concat ((fun x : list A => f <$> x) <$> l) = f <$> concat l.
Proof. induction l as [|x l IH]; cbn; [done|]. by rewrite fmap_app, <-IH. Qed.

Lemma triage_keys_nodup d : NoDup (row_key <$> triage_order d).
Proof.
  unfold triage_order. rewrite order_by_perm, fmap_app. apply NoDup_app. unfold reported_posts_sel, reported_comments_sel.
  rewrite <-!list_fmap_compose.
  assert (forall (T : TargetType) (l : list Z), NoDup l -> NoDup ((fun k => (T, k)) <$> l)) as Hnd.
  { intros T l Hl. apply NoDup_fmap_2; [|done]. by intros x y [= ->]. }
  split_and!.
  - rewrite (list_fmap_ext _ ((fun k => (POST, k)) ∘ fst)) by done. rewrite list_fmap_compose. apply Hnd, select_where_nodup.
  - intros k (x & -> & _)%list_elem_of_fmap (y & E & _)%list_elem_of_fmap. done.
  - rewrite (list_fmap_ext _ ((fun k => (COMMENT, k)) ∘ fst)) by done. rewrite list_fmap_compose. apply Hnd, select_where_nodup.
Qed.

(** The triage feed is complete: paging from the first page and following
    [has_more], the administrator sees every live, authored target with reports
    exactly once, most-reported first, nothing else, and the walk ends. *)
Theorem triage_feed_complete (sz : Z) (d : db) :
  1 <= sz ->
  let seen := concat (triage_walk (S (length (triage_order d))) 1 sz d) in
  seen = row_key <$> triage_order d /\ NoDup seen /\ (forall k, k ∈ seen <-> reportable d k) /\
  StronglySorted (fun a b => rt_rc b <= rt_rc a) (triage_order d).
Proof.
  intros Hs. cbv zeta. rewrite triage_walk_offset, concat_fmap.
  rewrite offset_walk_rest by (unfold offset_of; rewrite ?length_drop; lia).
  change (Z.to_nat (offset_of 1 sz)) with 0%nat. rewrite drop_0. split; [done|]. split; [apply triage_keys_nodup|]. split.
  - intros k. split.
    + intros (r & -> & Hr)%list_elem_of_fmap. by apply triage_row_inv.
    + intros (r & Hr & <-)%triage_row_intro. by apply list_elem_of_fmap_2.
  - pose proof (order_by_sorted (fun r => (rt_rc r, (rt_ca r, rt_id r))) (lex_ltb zdesc (lex_ltb zdesc zdesc))
      (reported_posts_sel d ++ reported_comments_sel d)) as Hsort. fold (triage_order d) in Hsort.
    induction Hsort as [|a l Hl IH Ha]; constructor; [done|]. eapply Forall_impl; [exact Ha|].
    intros b. unfold not_after, lex_ltb, zdesc. cbn. destruct (Z.ltb_spec (rt_rc a) (rt_rc b)); [done|]. lia.
Qed.

(** ** Witnesses *)

(** Post 1 of user 7 with one report, comment 10 of user 8 with none. *)
Definition demo_reports : db :=
  demo_db <| posts := {[1 := demo_post 7 <| report_count := 1 |>]} |>
          <| comments := {[10 := demo_comment None false None]} |>
          <| reports := {[100 := {| reporter_id := 8; target_type := POST; target_id := 1; reason := Some (lit "spam");
                                    rep_created_at := 5; rep_deleted_at := None |}]} |>.

Lemma submit_report_exact_witness :
  exists d', submit_report 2 50 101 8 {| rq_type := POST; rq_target := 1; rq_reason := None |} demo_reports = (inr true, d') /\
    observed POST d' 1 = Some (2, true, true).
Proof.
  destruct (submit_report_exact 2 50 101 8 {| rq_type := POST; rq_target := 1; rq_reason := None |} demo_reports)
    as (d' & E & Ho & _).
  - vm_compute. by eexists.
  - vm_compute. reflexivity.
  - exists d'. split; [exact E|exact Ho].
Defined.

Lemma report_counters_exact_witness :
  reports_ok (fold_left (fun d q => moderate q d)
    [Submit 2 50 101 8 {| rq_type := POST; rq_target := 1; rq_reason := None |}; Blind 51 COMMENT 10; ResetReports 52 POST 1] demo_reports).
Proof.
  apply report_counters_exact. intros [] t n b a Ho.
  - apply observed_post_inv in Ho as (p & Hp & _ & [= -> _ _]). cbn [demo_reports posts over] in Hp.
    apply lookup_singleton_Some in Hp as [<- <-]. vm_compute. reflexivity.
  - apply observed_comment_inv in Ho as (p & Hp & _ & [= -> _ _]). cbn [demo_reports comments over] in Hp.
    apply lookup_singleton_Some in Hp as [<- <-]. vm_compute. reflexivity.
Defined.

Lemma triage_feed_complete_witness : concat (triage_walk 2 1 1 demo_reports) = [(POST, 1)].
Proof.
  etransitivity; [apply (proj1 (triage_feed_complete 1 demo_reports ltac:(lia)))|]. vm_compute. reflexivity.
Defined.
