(* ===== verification/Dogs.v ===== *)
(** * Dog profiles ([app/domain/dogs])

    A user's list of dogs is replaced as a whole: rows with an id are updated,
    rows without one created, the others deleted, and the representative is
    assigned last so that the partial unique index (one representative per owner)
    holds after every statement. *)

From S2P Require Import Prelude Common Db World Media.

(** ** Statements ([dogs/model.py]) *)

Definition dog_get_by_id (dog_id owner : Z) (d : db) : option DogProfile :=
  g ← dogs d !! dog_id; if decide (owner_id g = owner) then Some g else None.

Definition get_ids_by_owner_id (owner : Z) (d : db) : gset Z :=
  list_to_set (fst <$> select_where (fun _ g => bool_decide (owner_id g = owner)) d).

Definition get_owned_ids_in (owner : Z) (dog_ids : list Z) (d : db) : gset Z :=
  list_to_set (fst <$> select_where (fun k g => bool_decide (owner_id g = owner) && bool_decide (k ∈ dog_ids)) d).

(** An item of the request; [di_image] is [None] when the field was not sent. *)
Record DogProfileUpsertItem := {
  di_id : option Z; di_name : ustr; di_breed : ustr; di_gender : ustr; di_birth_date : Z;
  di_image : option (option Z); di_is_representative : bool;
}.

Definition create_dog (now owner : Z) (fresh : nat -> Z) (i : nat) (item : DogProfileUpsertItem) : M db unit :=
  let image := default None (di_image item) in
  insert_row (fresh i)
    {| owner_id := owner; dog_name := di_name item; breed := di_breed item; gender := di_gender item;
       birth_date := di_birth_date item; dog_profile_image_id := image; is_representative := false;
       dog_created_at := now; dog_updated_at := now |}
    (fun d => bool_decide (is_Some (users d !! owner)) &&
              match image with Some m => bool_decide (is_Some (images d !! m)) | None => true end).

Fixpoint create_many (now owner : Z) (fresh : nat -> Z) (i : nat) (rows : list DogProfileUpsertItem) : M db unit :=
  match rows with
  | [] => mret tt
  | r :: rows' => create_dog now owner fresh i r ;; create_many now owner fresh (S i) rows'
  end.

Definition dog_update (now owner : Z) (row : Z * DogProfileUpsertItem) : db -> db :=
  let '(dog_id, r) := row in
  update_where (fun k g => bool_decide (owner_id g = owner) && bool_decide (k = dog_id))
    (fun g => g <| dog_name := di_name r |> <| breed := di_breed r |> <| gender := di_gender r |>
                <| birth_date := di_birth_date r |> <| is_representative := false |>
                <| dog_profile_image_id := default (dog_profile_image_id g) (di_image r) |>
                <| dog_updated_at := now |>).

Definition bulk_update_by_owner (now owner : Z) (rows : list (Z * DogProfileUpsertItem)) : M db unit :=
  for_each rows (fun row => modify (dog_update now owner row)).

Definition bulk_delete_by_owner_ids (owner : Z) (dog_ids : gset Z) : M db Z :=
  delete_rows (fun k g => bool_decide (owner_id g = owner) && bool_decide (k ∈ dog_ids)).

(** The partial unique index [uq_dog_profiles_owner_representative]. *)
Definition another_representative (owner dog_id : Z) (d : db) : bool :=
  existsb (fun p => bool_decide (owner_id p.2 = owner) && is_representative p.2 && bool_decide (p.1 <> dog_id))
          (map_to_list (dogs d)).

Definition set_representative (now owner dog_id : Z) : M db bool :=
  modify (update_where (fun _ g => bool_decide (owner_id g = owner)) (fun g : DogProfile => g <| is_representative := false |>)) ;;
  d ← get;
  if another_representative owner dog_id d && bool_decide (is_Some (dog_get_by_id dog_id owner d))
  then raise (UniqueViolation (lit "uq_dog_profiles_owner_representative"))
  else
    o ← update_one_returning (fun k g => bool_decide (k = dog_id) && bool_decide (owner_id g = owner))
          (fun g => g <| is_representative := true |> <| dog_updated_at := now |>) (fun k _ => Some k);
    mret (bool_decide (is_Some o)).

(** ** [DogService] *)

(** What the loop over the items collects. *)
Record upsert_plan := {
  pl_updates : list (Z * DogProfileUpsertItem); pl_creates : list DogProfileUpsertItem;
  pl_rep_existing : option Z; pl_rep_new : option nat; pl_images : list Z;
}.

Definition plan_step (p : upsert_plan) (item : DogProfileUpsertItem) : upsert_plan :=
  let imgs := match di_image item with Some (Some m) => pl_images p ++ [m] | _ => pl_images p end in
  match di_id item with
  | None =>
      {| pl_updates := pl_updates p; pl_creates := pl_creates p ++ [item];
         pl_rep_existing := if di_is_representative item then None else pl_rep_existing p;
         pl_rep_new := if di_is_representative item then Some (length (pl_creates p)) else pl_rep_new p;
         pl_images := imgs |}
  | Some i =>
      {| pl_updates := pl_updates p ++ [(i, item)]; pl_creates := pl_creates p;
         pl_rep_existing := if di_is_representative item then Some i else pl_rep_existing p;
         pl_rep_new := if di_is_representative item then None else pl_rep_new p;
         pl_images := imgs |}
  end.

Definition upsert_plan_of (items : list DogProfileUpsertItem) : upsert_plan :=
  fold_left plan_step items
    {| pl_updates := []; pl_creates := []; pl_rep_existing := None; pl_rep_new := None; pl_images := [] |}.

Definition created_ids (fresh : nat -> Z) (p : upsert_plan) : list Z := fresh <$> seq 0 (length (pl_creates p)).

Definition chosen_representative (fresh : nat -> Z) (p : upsert_plan) : option Z :=
  match pl_rep_new p with
  | Some i => if (i <? length (pl_creates p))%nat then Some (fresh i) else None
  | None => pl_rep_existing p
  end.

Definition upsert_dog_profile (now owner : Z) (fresh : nat -> Z) (items : list DogProfileUpsertItem) : M db unit :=
  d ← get;
  let existing_ids := get_ids_by_owner_id owner d in
  let p := upsert_plan_of items in
  let update_ids := fst <$> pl_updates p in
  let owned := get_owned_ids_in owner update_ids d in
  if negb (bool_decide (base.size owned = base.size (list_to_set update_ids : gset Z))) then raise ForbiddenException
  else
    assert_images_attachable (pl_images p) ;;
    bulk_update_by_owner now owner (pl_updates p) ;;
    create_many now owner fresh 0 (pl_creates p) ;;
    let requested_ids : gset Z := list_to_set update_ids ∪ list_to_set (created_ids fresh p) in
    let delete_ids := existing_ids ∖ requested_ids in
    (if decide (delete_ids = ∅) then mret tt else bulk_delete_by_owner_ids owner delete_ids ;; mret tt) ;;
    match chosen_representative fresh p with
    | Some r => if decide (requested_ids = ∅) then mret tt else set_representative now owner r ;; mret tt
    | None => mret tt
    end.

Definition set_representative_dog (now owner dog_id : Z) : M db unit :=
  begin_tx
    (d ← get;
     match dog_get_by_id dog_id owner d with
     | None => raise NotFoundException
     | Some _ =>
         ok ← set_representative now owner dog_id;
         if ok : bool then
           d' ← get;
           match users d' !! owner with
           | Some u => if decide (user_deleted_at u = None) then mret tt else raise InternalServerErrorException
           | None => raise InternalServerErrorException
           end
         else raise InternalServerErrorException
     end).

(** ** Lemmas *)

Lemma update_dogs_lookup (c : Z -> DogProfile -> bool) f d k :
  dogs (update_where c f d) !! k = (fun g => if c k g then f g else g) <$> dogs d !! k.
Proof. unfold update_where. cbn [rows set_rows dogs_table dogs over]. rewrite map_lookup_imap. by destruct (dogs d !! k). Qed.

(** The representative of an owner after [set_representative]. *)
Definition represented (now owner dog_id k : Z) (g : DogProfile) : DogProfile :=
  if decide (owner_id g = owner) then
    if decide (k = dog_id) then g <| is_representative := true |> <| dog_updated_at := now |>
    else g <| is_representative := false |>
  else g.

Lemma set_representative_spec now owner dog_id d :
  exists d', set_representative now owner dog_id d = (inr (bool_decide (is_Some (dog_get_by_id dog_id owner d))), d') /\
    users d' = users d /\ forall k, dogs d' !! k = represented now owner dog_id k <$> dogs d !! k.
Proof.
  unfold set_representative, modify, get. unfold mbind, M_bind.
  set (d1 := update_where _ _ d).
  assert (forall k, dogs d1 !! k = (fun g : DogProfile => if bool_decide (owner_id g = owner) then g <| is_representative := false |> else g) <$> dogs d !! k) as H1.
  { intros k. apply update_dogs_lookup. }
  assert (another_representative owner dog_id d1 = false) as ->.
  { unfold another_representative. apply not_true_iff_false. rewrite existsb_exists. intros ((k & g) & Hin & Hc). cbn in Hc.
    apply list_elem_of_In, elem_of_map_to_list in Hin. rewrite H1 in Hin. destruct (dogs d !! k) as [g0|]; [|done]. cbn in Hin.
    injection Hin as <-. rewrite !andb_true_iff, !bool_decide_eq_true in Hc. destruct Hc as [[Ho Hr] _].
    destruct (bool_decide (owner_id g0 = owner)) eqn:E; [done|]. apply bool_decide_eq_false in E. done. }
  cbn [andb]. rewrite update_one_returning_pk. cbn [rows set_rows dogs_table].
  unfold dog_get_by_id. rewrite H1. destruct (dogs d !! dog_id) as [g|] eqn:Eg; cbn [fmap option_fmap option_map].
  - destruct (decide (owner_id g = owner)) as [Ho|Ho].
    + rewrite (bool_decide_eq_true_2 _ Ho). cbn [owner_id over]. rewrite (bool_decide_eq_true_2 _ Ho). cbn [mbind option_bind].
      rewrite decide_True by done. eexists. split; [reflexivity|]. split; [done|]. intros k. cbn [dogs over]. unfold represented.
      destruct (decide (k = dog_id)) as [->|Hne].
      * rewrite lookup_insert_eq, Eg. cbn. by rewrite decide_True.
      * rewrite lookup_insert_ne, H1 by done. destruct (dogs d !! k) as [g'|]; [|done]. cbn.
        destruct (decide (owner_id g' = owner)); [by rewrite bool_decide_eq_true_2|by rewrite bool_decide_eq_false_2].
    + rewrite (bool_decide_eq_false_2 _ Ho), (bool_decide_eq_false_2 _ Ho). cbn [mbind option_bind]. rewrite decide_False by done.
      eexists. split; [reflexivity|]. split; [done|]. intros k. rewrite H1. unfold represented.
      destruct (decide (k = dog_id)) as [->|Hne].
      * rewrite Eg. cbn. by rewrite (bool_decide_eq_false_2 _ Ho), decide_False.
      * destruct (dogs d !! k) as [g'|]; [|done]. cbn.
        destruct (decide (owner_id g' = owner)); [by rewrite bool_decide_eq_true_2|by rewrite bool_decide_eq_false_2].
  - eexists. split; [reflexivity|]. split; [done|]. intros k. rewrite H1. unfold represented.
    destruct (decide (k = dog_id)) as [->|Hne]; [by rewrite Eg|]. destruct (dogs d !! k) as [g'|]; [|done]. cbn.
    destruct (decide (owner_id g' = owner)); [by rewrite bool_decide_eq_true_2|by rewrite bool_decide_eq_false_2].
Qed.

Lemma for_each_modify {S A} (f : A -> S -> S) (l : list A) (s : S) :
  for_each l (fun x => modify (f x)) s = (inr tt, fold_left (fun s x => f x s) l s).
Proof. revert s. induction l as [|x l IH]; intros s; cbn; [done|]. unfold mbind, M_bind, modify in *. apply IH. Qed.

(** The updates keep keys and owners, clear the flag of the rows they touch and
    leave the others alone. *)
Lemma bulk_update_spec now owner rows d :
  exists d', bulk_update_by_owner now owner rows d = (inr tt, d') /\ users d' = users d /\
    forall k, match dogs d !! k, dogs d' !! k with
              | Some g, Some g' => owner_id g' = owner_id g /\
                  if decide (owner_id g = owner /\ k ∈ fst <$> rows) then is_representative g' = false else g' = g
              | None, None => True
              | _, _ => False
              end.
Proof.
  unfold bulk_update_by_owner. rewrite for_each_modify. eexists. split; [reflexivity|].
  revert d. induction rows as [|[i r] rows IH]; intros d; cbn [fold_left].
  { split; [done|]. intros k. destruct (dogs d !! k) as [g|]; [|done]. split; [done|].
    rewrite decide_False; [done|]. intros [_ H]. by apply elem_of_nil in H. }
  destruct (IH (dog_update now owner (i, r) d)) as [Hu Hd]. split; [by rewrite Hu|].
  generalize dependent (fold_left (fun d r => dog_update now owner r d) rows (dog_update now owner (i, r) d)). intros d2 Hu Hd k.
  specialize (Hd k). unfold dog_update in Hd. rewrite update_dogs_lookup in Hd.
  destruct (dogs d !! k) as [g|] eqn:Eg; cbn [fmap option_fmap option_map] in Hd; [|done].
  destruct (dogs d2 !! k) as [g2|]; [|done].
  destruct (decide (owner_id g = owner)) as [Ho|Ho].
  - rewrite (bool_decide_eq_true_2 _ Ho) in Hd. cbn [andb] in Hd. rewrite fmap_cons. cbn [fst].
    destruct (decide (k = i)) as [->|Hne].
    + rewrite (bool_decide_eq_true_2 (i = i)) in Hd by done. cbn [owner_id over] in Hd. destruct Hd as [Hd1 Hd2].
      split; [done|]. rewrite decide_True by (split; [done|apply list_elem_of_here]). destruct (decide _) in Hd2; [done|by subst g2].
    + rewrite (bool_decide_eq_false_2 (k = i)) in Hd by done. destruct Hd as [Hd1 Hd2]. split; [done|].
      destruct (decide (owner_id g = owner /\ k ∈ fst <$> rows)) as [[? Hin]|Hn] in Hd2.
      * rewrite decide_True; [done|]. split; [done|]. by apply list_elem_of_further.
      * rewrite decide_False; [done|]. intros [_ H]. apply elem_of_cons in H as [->|H]; [done|]. by apply Hn.
  - rewrite (bool_decide_eq_false_2 _ Ho) in Hd. cbn [andb] in Hd. destruct Hd as [Hd1 Hd2]. split; [done|].
    rewrite decide_False in Hd2 by (intros [? _]; done). by rewrite decide_False by (intros [? _]; done).
Qed.

(** Creation inserts one unflagged row per item under the fresh ids. *)
Lemma create_many_spec now owner fresh i items d d' :
  create_many now owner fresh i items d = (inr tt, d') ->
  users d' = users d /\
  (forall k g, dogs d' !! k = Some g -> (dogs d !! k = Some g /\ k ∉ fresh <$> seq i (length items)) \/
     (k ∈ fresh <$> seq i (length items) /\ owner_id g = owner /\ is_representative g = false)) /\
  (forall k, k ∈ fresh <$> seq i (length items) -> is_Some (dogs d' !! k) /\ dogs d !! k = None) /\
  (forall k g, dogs d !! k = Some g -> dogs d' !! k = Some g).
Proof.
  revert i d. induction items as [|r items IH]; intros i d; cbn [create_many length seq fmap list_fmap].
  { intros [= <-]. split; [done|]. split; [|split; [|done]].
    - intros k g Hg. left. split; [done|]. apply not_elem_of_nil.
    - intros k Hk. by apply elem_of_nil in Hk. }
  unfold mbind, M_bind. unfold create_dog at 1. unfold insert_row. cbn [rows set_rows dogs_table].
  destruct (dogs d !! fresh i) as [g0|] eqn:Ef; [done|]. destruct (_ && _); [|done].
  match goal with |- create_many _ _ _ _ _ (d <| dogs := <[fresh i := ?g]> _ |>) = _ -> _ => set (gi := g) end.
  intros E. destruct (IH _ _ E) as (Hu & H1 & H2 & H3). clear IH E. cbn [dogs over users] in *.
  assert (forall k, k ∈ fresh <$> seq (S i) (length items) -> k <> fresh i) as Hne.
  { intros k Hk ->. destruct (H2 _ Hk) as [_ Hn]. by rewrite lookup_insert_eq in Hn. }
  split; [done|]. split; [|split].
  - intros k g Hg. destruct (H1 k g Hg) as [[Hk Hn]|(Hk & Ho & Hr)].
    + destruct (decide (k = fresh i)) as [->|Hki].
      * rewrite lookup_insert_eq in Hk. injection Hk as <-. right. split; [apply list_elem_of_here|done].
      * rewrite lookup_insert_ne in Hk by done. left. split; [done|]. apply not_elem_of_cons. done.
    + right. split; [by apply list_elem_of_further|done].
  - intros k [->|Hk]%elem_of_cons.
    + split; [|done]. rewrite (H3 (fresh i) gi); [by eexists|]. apply lookup_insert_eq.
    + destruct (H2 k Hk) as [Hs Hn]. split; [done|]. rewrite lookup_insert_ne in Hn by (intros <-; by apply (Hne _ Hk)). done.
  - intros k g Hg. apply H3. rewrite lookup_insert_ne; [done|]. intros <-. congruence.
Qed.

(** The plan: the representative is one of the requested rows, and there is one
    exactly when an item asks for it. *)
Definition plan_ok (items : list DogProfileUpsertItem) (p : upsert_plan) : Prop :=
  (forall i, pl_rep_existing p = Some i -> i ∈ (fst <$> pl_updates p) /\ pl_rep_new p = None) /\
  (forall n, pl_rep_new p = Some n -> (n < length (pl_creates p))%nat) /\
  (existsb di_is_representative items = true <-> is_Some (pl_rep_existing p) \/ is_Some (pl_rep_new p)).

Lemma plan_step_ok done p item : plan_ok done p -> plan_ok (done ++ [item]) (plan_step p item).
Proof.
  intros (H1 & H2 & H3). unfold plan_ok, plan_step. rewrite existsb_app. cbn [existsb]. rewrite orb_false_r, orb_true_iff, H3.
  destruct (di_id item) as [i|]; destruct (di_is_representative item); cbn.
  - split_and!.
    + intros ? [= <-]. split; [|done]. rewrite fmap_app. apply elem_of_app. right. apply list_elem_of_here.
    + done.
    + split; [|by right]. intros _. left. by eexists.
  - split_and!.
    + intros j Hj. destruct (H1 j Hj) as [Hin Hn]. split; [|done]. rewrite fmap_app. apply elem_of_app. by left.
    + done.
    + split; [by intros [?|?]|by left].
  - split_and!.
    + done.
    + intros n [= <-]. rewrite length_app. cbn. lia.
    + split; [|by right]. intros _. right. by eexists.
  - split_and!.
    + done.
    + intros n Hn. rewrite length_app. specialize (H2 n Hn). lia.
    + split; [by intros [?|?]|by left].
Qed.

Lemma upsert_plan_ok items : plan_ok items (upsert_plan_of items).
Proof.
  unfold upsert_plan_of. set (p0 := Build_upsert_plan _ _ _ _ _).
  assert (forall l done p, plan_ok done p -> plan_ok (done ++ l) (fold_left plan_step l p)) as H.
  { induction l as [|x l IH]; intros done p Hp; cbn; [by rewrite app_nil_r|].
    rewrite (cons_middle x done l), app_assoc. apply IH, plan_step_ok, Hp. }
  apply (H items [] p0). split; [done|]. split; [done|]. cbn. split; [done|]. intros [[? ?]|[? ?]]; done.
Qed.

Lemma chosen_requested fresh p items : plan_ok items p ->
  (forall r, chosen_representative fresh p = Some r -> r ∈ (fst <$> pl_updates p) \/ r ∈ created_ids fresh p) /\
  (is_Some (chosen_representative fresh p) <-> existsb di_is_representative items = true).
Proof.
  intros (H1 & H2 & H3). rewrite H3. unfold chosen_representative, created_ids. destruct (pl_rep_new p) as [n|].
  - specialize (H2 n eq_refl). rewrite (proj2 (Nat.ltb_lt _ _) H2). split.
    + intros r [= <-]. right. apply list_elem_of_fmap_2. apply elem_of_seq. lia.
    + split; [|by eexists]. intros _. right. by eexists.
  - split.
    + intros r Hr. left. by apply H1.
    + split; [by left|]. intros [?|[? ?]]; done.
Qed.

Lemma owned_elem owner ids d k : k ∈ get_owned_ids_in owner ids d <->
  k ∈ ids /\ exists g, dogs d !! k = Some g /\ owner_id g = owner.
Proof.
  unfold get_owned_ids_in. rewrite elem_of_list_to_set, list_elem_of_fmap. split.
  - intros ([k' g] & -> & [Hg Hc]%select_where_elem). rewrite andb_true_iff, !bool_decide_eq_true in Hc. cbn. naive_solver.
  - intros (Hk & g & Hg & Ho). exists (k, g). split; [done|]. apply select_where_elem. split; [done|]. by rewrite !bool_decide_eq_true_2.
Qed.

Lemma ids_by_owner_elem owner d k : k ∈ get_ids_by_owner_id owner d <-> exists g, dogs d !! k = Some g /\ owner_id g = owner.
Proof.
  unfold get_ids_by_owner_id. rewrite elem_of_list_to_set, list_elem_of_fmap. split.
  - intros ([k' g] & -> & [Hg Hc]%select_where_elem). rewrite bool_decide_eq_true in Hc. by exists g.
  - intros (g & Hg & Ho). exists (k, g). split; [done|]. apply select_where_elem. split; [done|]. by rewrite bool_decide_eq_true_2.
Qed.

Lemma owned_all owner ids d : base.size (get_owned_ids_in owner ids d) = base.size (list_to_set ids : gset Z) ->
  forall k, k ∈ ids -> exists g, dogs d !! k = Some g /\ owner_id g = owner.
Proof.
  intros Hs k Hk. assert (get_owned_ids_in owner ids d = list_to_set ids) as E.
  { apply leibniz_equiv, set_subseteq_size_equiv; [|lia]. intros x Hx. apply owned_elem in Hx as [Hx _]. by apply elem_of_list_to_set. }
  apply (owned_elem owner ids d k). rewrite E. by apply elem_of_list_to_set.
Qed.

Lemma owned_complete owner ids d : (forall k, k ∈ ids -> is_Some (dog_get_by_id k owner d)) ->
  get_owned_ids_in owner ids d = list_to_set ids.
Proof.
  intros Hown. apply set_eq. intros k. rewrite owned_elem, elem_of_list_to_set. split; [by intros [? _]|].
  intros Hk. split; [done|]. destruct (Hown k Hk) as [g Hg]. unfold dog_get_by_id in Hg.
  destruct (dogs d !! k) as [g0|]; [|done]. cbn in Hg. destruct (decide (owner_id g0 = owner)); [|done]. by exists g0.
Qed.

(** After updates, creations and deletions, before the representative. *)
Definition listed (owner : Z) (requested : gset Z) (d d' : db) : Prop :=
  users d' = users d /\
  (forall k, (exists g, dogs d' !! k = Some g /\ owner_id g = owner) <-> k ∈ requested) /\
  (forall k g, dogs d' !! k = Some g -> owner_id g = owner -> is_representative g = false) /\
  (forall k g, owner_id g <> owner -> dogs d' !! k = Some g <-> dogs d !! k = Some g).

Lemma replace_listed now owner fresh updates creates d d1 d2 d3 :
  (forall k, k ∈ (fst <$> updates) -> exists g, dogs d !! k = Some g /\ owner_id g = owner) ->
  bulk_update_by_owner now owner updates d = (inr tt, d1) ->
  create_many now owner fresh 0 creates d1 = (inr tt, d2) ->
  let created := fresh <$> seq 0 (length creates) in
  let requested : gset Z := list_to_set (fst <$> updates) ∪ list_to_set created in
  users d3 = users d2 ->
  dogs d3 = filter (fun p : Z * DogProfile => bool_decide (owner_id p.2 = owner) && bool_decide (p.1 ∈ get_ids_by_owner_id owner d ∖ requested) = false) (dogs d2) ->
  listed owner requested d d3.
Proof.
  intros Hown E1 E2 created requested Hu3 Hd3.
  destruct (bulk_update_spec now owner updates d) as (d1' & E1' & Hu1 & Hb). rewrite E1 in E1'. injection E1' as <-.
  destruct (create_many_spec now owner fresh 0 creates d1 d2 E2) as (Hu2 & Hc1 & Hc2 & Hc3). fold created in Hc1, Hc2.
  assert (forall k g, dogs d3 !! k = Some g <-> dogs d2 !! k = Some g /\ ~ (owner_id g = owner /\ k ∈ get_ids_by_owner_id owner d /\ k ∉ requested)) as Hl3.
  { intros k g. rewrite Hd3, map_lookup_filter_Some. cbn. rewrite andb_false_iff, !bool_decide_eq_false, elem_of_difference.
    destruct (decide (owner_id g = owner)), (decide (k ∈ get_ids_by_owner_id owner d)), (decide (k ∈ requested)); naive_solver. }
  assert (forall k, k ∈ requested <-> k ∈ (fst <$> updates) \/ k ∈ created) as Hreq.
  { intros k. unfold requested. by rewrite elem_of_union, !elem_of_list_to_set. }
  split; [congruence|]. split_and!.
  - intros k. split.
    + intros (g & Hg & Ho). apply Hl3 in Hg as [Hg Hn]. rewrite Hreq. destruct (Hc1 k g Hg) as [[Hk _]|[Hk _]]; [|by right].
      specialize (Hb k). rewrite Hk in Hb. destruct (dogs d !! k) as [g0|] eqn:E0; [|done]. destruct Hb as [Ho' _].
      destruct (decide (k ∈ requested)) as [Hr|Hr]; [by apply Hreq|]. destruct Hn. split; [done|]. split; [|done].
      apply ids_by_owner_elem. exists g0. split; [done|congruence].
    + intros Hr. pose proof Hr as Hr'. rewrite Hreq in Hr'. destruct Hr' as [Hk|Hk].
      * destruct (Hown k Hk) as (g0 & Hg0 & Ho0). specialize (Hb k). rewrite Hg0 in Hb. destruct (dogs d1 !! k) as [g1|] eqn:E1'; [|done].
        destruct Hb as [Ho1 _]. exists g1. split; [|congruence]. apply Hl3. split; [by apply Hc3|naive_solver].
      * destruct (Hc2 k Hk) as [[g Hg] Hn]. exists g. destruct (Hc1 k g Hg) as [[? _]|(_ & Ho & _)]; [congruence|].
        split; [|done]. apply Hl3. split; [done|naive_solver].
  - intros k g Hg Ho. apply Hl3 in Hg as [Hg Hn]. destruct (Hc1 k g Hg) as [[Hk Hnc]|(_ & _ & Hr)]; [|done].
    specialize (Hb k). rewrite Hk in Hb. destruct (dogs d !! k) as [g0|] eqn:E0; [|done]. destruct Hb as [Ho' Hr].
    destruct (decide (owner_id g0 = owner /\ k ∈ updates.*1)) as [|Hx]; [done|]. destruct (decide (k ∈ requested)) as [Hq|Hq].
    + exfalso. apply Hreq in Hq as [Hq|Hq]; [|done]. apply Hx. split; [congruence|done].
    + destruct Hn. split; [done|]. split; [|done]. apply ids_by_owner_elem. exists g0. split; [done|congruence].
  - intros k g Hne. rewrite Hl3. specialize (Hb k). split.
    + intros [Hg _]. destruct (Hc1 k g Hg) as [[Hk _]|(_ & Ho & _)]; [|done]. rewrite Hk in Hb.
      destruct (dogs d !! k) as [g0|]; [|done]. destruct Hb as [Ho Hr]. rewrite decide_False in Hr by (intros [? _]; congruence). by subst.
    + intros Hg. rewrite Hg in Hb. destruct (dogs d1 !! k) as [g1|] eqn:E1'; [|done]. destruct Hb as [Ho Hr].
      rewrite decide_False in Hr by (intros [? _]; congruence). subst g1. split; [by apply Hc3|naive_solver].
Qed.

(** ** When a save succeeds *)

Lemma bulk_update_images now owner rows d : images (bulk_update_by_owner now owner rows d).2 = images d.
Proof.
  unfold bulk_update_by_owner. rewrite for_each_modify. cbn [snd]. revert d.
  induction rows as [|[i r] rows IH]; intros d; [done|]. cbn [fold_left]. by rewrite IH.
Qed.

Lemma create_many_succeeds now owner fresh i items d :
  is_Some (users d !! owner) -> (forall a b, fresh a = fresh b -> a = b) -> (forall n, (i <= n)%nat -> dogs d !! fresh n = None) ->
  (forall item m, item ∈ items -> di_image item = Some (Some m) -> is_Some (images d !! m)) ->
  exists d', create_many now owner fresh i items d = (inr tt, d').
Proof.
  intros Hu Hinj. revert i d Hu. induction items as [|r items IH]; intros i d Hu Hf Him; [by eexists|].
  cbn [create_many]. unfold mbind, M_bind, create_dog at 1, insert_row. cbn [rows set_rows dogs_table].
  rewrite (Hf i) by lia. rewrite (bool_decide_eq_true_2 _ Hu). cbn [andb].
  assert (match default None (di_image r) with Some m => bool_decide (is_Some (images d !! m)) | None => true end = true) as ->.
  { destruct (di_image r) as [[m|]|] eqn:E; cbn; try done. apply bool_decide_eq_true. apply (Him r m); [apply list_elem_of_here|done]. }
  apply IH; cbn [users images dogs over]; [done| |].
  - intros n Hn. rewrite lookup_insert_ne; [apply Hf; lia|]. intros E%Hinj. lia.
  - intros item m Hin. apply Him. by apply list_elem_of_further.
Qed.

(** Images of created dogs are among those checked. *)
Lemma plan_images items item m :
  item ∈ pl_creates (upsert_plan_of items) -> di_image item = Some (Some m) -> m ∈ pl_images (upsert_plan_of items).
Proof.
  unfold upsert_plan_of. set (p0 := Build_upsert_plan _ _ _ _ _). intros Hin Hm. revert Hin.
  assert (forall l p, (item ∈ pl_creates p -> m ∈ pl_images p) ->
    item ∈ pl_creates (fold_left plan_step l p) -> m ∈ pl_images (fold_left plan_step l p)) as H.
  { induction l as [|x l IH]; intros p Hp; cbn [fold_left]; [done|]. apply IH. unfold plan_step.
    destruct (di_id x); cbn.
    - intros Hi. specialize (Hp Hi). destruct (di_image x) as [[]|]; try done. apply elem_of_app. by left.
    - intros [Hi|Hi]%elem_of_app.
      + specialize (Hp Hi). destruct (di_image x) as [[]|]; try done. apply elem_of_app. by left.
      + apply list_elem_of_singleton in Hi as ->. rewrite Hm. apply elem_of_app. right. by apply list_elem_of_singleton. }
  apply H. intros Hi. by apply elem_of_nil in Hi.
Qed.

Lemma attachable_images ids d : assert_images_attachable ids d = (inr tt, d) <->
  forall m, m ∈ ids -> exists img, images d !! m = Some img /\ img_deleted_at img = None.
Proof.
  unfold assert_images_attachable. destruct ids as [|i ids]; [split; [|done]; intros _ m Hm; by apply elem_of_nil in Hm|].
  unfold get. unfold mbind, M_bind. set (ok := fun i => _). destruct (forallb ok (i :: ids)) eqn:E.
  - split; [|done]. intros _ m Hm%list_elem_of_In. pose proof (proj1 (forallb_forall _ _) E m Hm) as Ho. unfold ok in Ho.
    destruct (images d !! m) as [img|]; [|done]. exists img. split; [done|]. destruct (img_deleted_at img); [|done]. by vm_compute in Ho.
  - split; [done|]. intros Ha. enough (forallb ok (i :: ids) = true) by congruence. apply forallb_forall. intros m Hm%list_elem_of_In.
    destruct (Ha m Hm) as (img & Hi & Hd). unfold ok. by rewrite Hi, Hd.
Qed.

Lemma upsert_listed (now owner : Z) (fresh : nat -> Z) (items : list DogProfileUpsertItem) (d d' : db) :
  upsert_dog_profile now owner fresh items d = (inr tt, d') ->
  let p := upsert_plan_of items in
  (forall k, (exists g, dogs d' !! k = Some g /\ owner_id g = owner) <-> k ∈ (fst <$> pl_updates p) \/ k ∈ created_ids fresh p) /\
  (forall k g, dogs d' !! k = Some g -> owner_id g = owner ->
     is_representative g = bool_decide (chosen_representative fresh p = Some k)) /\
  (is_Some (chosen_representative fresh p) <-> existsb di_is_representative items = true) /\
  (forall k g, owner_id g <> owner -> dogs d' !! k = Some g <-> dogs d !! k = Some g).
Proof.
  intros E p. destruct (chosen_requested fresh p items (upsert_plan_ok items)) as [Hch Hflag].
  unfold upsert_dog_profile in E. fold p in E. unfold get in E. unfold mbind at 1, M_bind at 1 in E.
  case_bool_decide as Hsz; cbn [negb] in E; [|done]. pose proof (owned_all _ _ _ Hsz) as Hown.
  unfold mbind at 1, M_bind at 1 in E. destruct (assert_images_attachable (pl_images p) d) as [[e|[]] d0] eqn:E0; [done|].
  assert (d0 = d) as ->.
  { unfold assert_images_attachable in E0. destruct (pl_images p); [by injection E0|]. unfold mbind, M_bind, get in E0. by destruct (forallb _ _); injection E0. }
  unfold mbind at 1, M_bind at 1 in E. destruct (bulk_update_spec now owner (pl_updates p) d) as (d1 & E1 & _). rewrite E1 in E.
  unfold mbind at 1, M_bind at 1 in E. destruct (create_many now owner fresh 0 (pl_creates p) d1) as [[e|[]] d2] eqn:E2; [done|].
  set (req := list_to_set (pl_updates p).*1 ∪ list_to_set (created_ids fresh p) : gset Z) in E.
  unfold mbind at 1, M_bind at 1 in E.
  assert (exists d3, (if decide (get_ids_by_owner_id owner d ∖ req = ∅) then mret tt
      else bulk_delete_by_owner_ids owner (get_ids_by_owner_id owner d ∖ req) ;; mret tt) d2 = (inr tt, d3) /\ listed owner req d d3) as (d3 & E3 & Hl).
  { destruct (decide (get_ids_by_owner_id owner d ∖ req = ∅)) as [He|He]; eexists; (split; [reflexivity|]).
    - eapply (replace_listed now owner fresh _ _ d d1 d2 d2 Hown E1 E2); [done|]. symmetry. apply map_filter_id. intros k g _. cbn.
      change (get_ids_by_owner_id owner d ∖ _) with (get_ids_by_owner_id owner d ∖ req). rewrite He.
      by rewrite (bool_decide_eq_false_2 (k ∈ ∅)) by set_solver; rewrite andb_false_r.
    - eapply (replace_listed now owner fresh _ _ d d1 d2 _ Hown E1 E2); done. }
  rewrite E3 in E. destruct Hl as (Hu & H1 & H2 & H3).
  assert (forall k, k ∈ req <-> k ∈ (pl_updates p).*1 \/ k ∈ created_ids fresh p) as Hreq.
  { intros k. unfold req. by rewrite elem_of_union, !elem_of_list_to_set. }
  destruct (chosen_representative fresh p) as [r|] eqn:Er.
  - rewrite decide_False in E; [|intros He; specialize (Hch r eq_refl); rewrite <-Hreq, He in Hch; by apply elem_of_empty in Hch].
    destruct (set_representative_spec now owner r d3) as (d4 & E4 & _ & Hd4). unfold mbind, M_bind in E. rewrite E4 in E. injection E as <-.
    assert (forall k g, dogs d4 !! k = Some g <-> exists g0, dogs d3 !! k = Some g0 /\ g = represented now owner r k g0) as Hl4.
    { intros k g. rewrite Hd4. destruct (dogs d3 !! k) as [g0|]; cbn; naive_solver. }
    assert (forall k g0, owner_id (represented now owner r k g0) = owner_id g0) as Hro.
    { intros k g0. unfold represented. destruct (decide (owner_id g0 = owner)); [|done]. by destruct (decide (k = r)). }
    split_and!; [| |done|].
    + intros k. rewrite <-Hreq, <-H1. split.
      * intros (g & Hg & Ho). apply Hl4 in Hg as (g0 & Hg0 & ->). exists g0. by rewrite Hro in Ho.
      * intros (g0 & Hg0 & Ho). exists (represented now owner r k g0). split; [apply Hl4; by exists g0|by rewrite Hro].
    + intros k g Hg Ho. apply Hl4 in Hg as (g0 & Hg0 & ->). rewrite Hro in Ho. unfold represented. rewrite decide_True by done.
      destruct (decide (k = r)) as [->|Hne]; cbn; [by rewrite bool_decide_eq_true_2|]. rewrite bool_decide_eq_false_2; [done|]. by intros [= ->].
    + intros k g Hne. rewrite Hl4, <-(H3 k g Hne). split.
      * intros (g0 & Hg0 & ->). rewrite Hro in Hne. unfold represented. by rewrite decide_False.
      * intros Hg. exists g. split; [done|]. unfold represented. by rewrite decide_False.
  - injection E as <-. split_and!; [|intros k g Hg Ho; by rewrite (H2 k g Hg Ho)|done|done]. intros k. by rewrite <-Hreq, <-H1.
Qed.

Lemma upsert_succeeds (now owner : Z) (fresh : nat -> Z) (items : list DogProfileUpsertItem) (d : db) :
  let p := upsert_plan_of items in
  is_Some (users d !! owner) -> (forall a b, fresh a = fresh b -> a = b) -> (forall n, dogs d !! fresh n = None) ->
  (forall m, m ∈ pl_images p -> exists img, images d !! m = Some img /\ img_deleted_at img = None) ->
  (forall k, k ∈ (fst <$> pl_updates p) -> is_Some (dog_get_by_id k owner d)) ->
  exists d', upsert_dog_profile now owner fresh items d = (inr tt, d').
Proof.
  intros p Hu Hinj Hf Him Hown. unfold upsert_dog_profile, get. unfold mbind at 1, M_bind at 1. fold p.
  rewrite bool_decide_eq_true_2; [|f_equal; by apply owned_complete]. cbn [negb].
  unfold mbind at 1, M_bind at 1. rewrite (proj2 (attachable_images (pl_images p) d) Him).
  destruct (bulk_update_spec now owner (pl_updates p) d) as (d1 & E1 & Hu1 & Hb). unfold mbind at 1, M_bind at 1. rewrite E1.
  pose proof (bulk_update_images now owner (pl_updates p) d) as Hi1. rewrite E1 in Hi1. cbn [snd] in Hi1.
  destruct (create_many_succeeds now owner fresh 0 (pl_creates p) d1) as (d2 & E2).
  - by rewrite Hu1.
  - done.
  - intros n _. specialize (Hb (fresh n)). rewrite Hf in Hb. by destruct (dogs d1 !! fresh n).
  - intros item m Hin Hm. rewrite Hi1. destruct (Him m (plan_images items item m Hin Hm)) as (img & -> & _). by eexists.
  - unfold mbind at 1, M_bind at 1. rewrite E2. unfold mbind at 1, M_bind at 1.
    match goal with |- context [if ?c then mret tt else bulk_delete_by_owner_ids owner ?x ;; mret tt] =>
      assert (exists d3, (if c then mret tt else bulk_delete_by_owner_ids owner x ;; mret tt) d2 = (inr tt, d3)) as (d3 & ->) end.
    { destruct (decide _); by eexists. }
    destruct (chosen_representative fresh p) as [r|]; [|by eexists]. destruct (decide _); [by eexists|].
    destruct (set_representative_spec now owner r d3) as (d4 & E4 & _). unfold mbind, M_bind. rewrite E4. by eexists.
Qed.

(** ** Properties *)

(** The list of dogs is replaced exactly, and only by its owner.  If an item
    names a dog that is not the caller's, the answer is 403 and nothing changes.
    Otherwise, when the attached images exist and are not deleted and the drawn
    ids are new, the save succeeds: the owner has precisely the updated and the
    created dogs, the representative is the one the request chose (none if no
    item asks for it, and at most one in any case), and the dogs of other users
    are as they were. *)
Theorem dogs_list_replaced (now owner : Z) (fresh : nat -> Z) (items : list DogProfileUpsertItem) (d : db) :
  let p := upsert_plan_of items in
  is_Some (users d !! owner) -> (forall a b, fresh a = fresh b -> a = b) -> (forall n, dogs d !! fresh n = None) ->
  (forall m, m ∈ pl_images p -> exists img, images d !! m = Some img /\ img_deleted_at img = None) ->
  ((exists k, k ∈ (fst <$> pl_updates p) /\ dog_get_by_id k owner d = None) ->
     upsert_dog_profile now owner fresh items d = (inl ForbiddenException, d)) /\
  ((forall k, k ∈ (fst <$> pl_updates p) -> is_Some (dog_get_by_id k owner d)) ->
   exists d', upsert_dog_profile now owner fresh items d = (inr tt, d') /\
     (forall k, (exists g, dogs d' !! k = Some g /\ owner_id g = owner) <-> k ∈ (fst <$> pl_updates p) \/ k ∈ created_ids fresh p) /\
     (forall k g, dogs d' !! k = Some g -> owner_id g = owner ->
        is_representative g = bool_decide (chosen_representative fresh p = Some k)) /\
     (is_Some (chosen_representative fresh p) <-> existsb di_is_representative items = true) /\
     (forall k g, owner_id g <> owner -> dogs d' !! k = Some g <-> dogs d !! k = Some g)).
Proof.
  intros p Hu Hinj Hf Him. split.
  - intros (k & Hk & Hn). unfold upsert_dog_profile, get. unfold mbind at 1, M_bind at 1. fold p. case_bool_decide as Hs; [|done].
    exfalso. destruct (owned_all owner _ d Hs k Hk) as (g & Hg & Ho). unfold dog_get_by_id in Hn. rewrite Hg in Hn. cbn in Hn.
    by rewrite decide_True in Hn.
  - intros Hown. destruct (upsert_succeeds now owner fresh items d Hu Hinj Hf Him Hown) as (d' & E).
    exists d'. split; [exact E|]. exact (upsert_listed now owner fresh items d d' E).
Qed.

(** ** Witnesses *)

Definition demo_dog (owner : Z) (rep : bool) : DogProfile :=
  {| owner_id := owner; dog_name := lit "n"; breed := lit "b"; gender := lit "MALE"; birth_date := 0;
     dog_profile_image_id := None; is_representative := rep; dog_created_at := 0; dog_updated_at := 0 |}.

Definition demo_dogs : db :=
  empty_db <| users := {[7 := demo_user]} |>
           <| dogs := {[1 := demo_dog 7 true; 2 := demo_dog 7 false; 3 := demo_dog 9 true]} |>.

Definition demo_item (i : option Z) (rep : bool) : DogProfileUpsertItem :=
  {| di_id := i; di_name := lit "m"; di_breed := lit "b"; di_gender := lit "MALE"; di_birth_date := 0; di_image := None;
     di_is_representative := rep |}.

Lemma dogs_list_replaced_witness :
  let items := [demo_item None false; demo_item (Some 2) true] in
  let fresh := fun i => 100 + Z.of_nat i in
  exists d', upsert_dog_profile 50 7 fresh items demo_dogs = (inr tt, d') /\
    dogs d' !! 1 = None /\ is_representative <$> dogs d' !! 2 = Some true /\ is_representative <$> dogs d' !! 100 = Some false /\
    ((exists g, dogs d' !! 100 = Some g /\ owner_id g = 7) <-> 100 ∈ [2] \/ 100 ∈ [100]).
Proof.
  intros items fresh.
  destruct (dogs_list_replaced 50 7 fresh items demo_dogs) as [_ Hs].
  - vm_compute. by eexists.
  - unfold fresh. lia.
  - intros n. cbn [demo_dogs dogs over]. repeat (rewrite lookup_insert_ne by (unfold fresh; lia)). apply lookup_singleton_ne. unfold fresh. lia.
  - intros m Hm. by apply elem_of_nil in Hm.
  - destruct Hs as (d' & E & H & _).
    + intros k Hk. apply list_elem_of_singleton in Hk as ->. vm_compute. by eexists.
    + exists d'. split; [exact E|]. specialize (H 100).
      apply (f_equal (fun r => dogs r.2)) in E. cbn [snd] in E. rewrite <-E. split_and!; [vm_compute; reflexivity..|].
      rewrite <-E in H. exact H.
Defined.
