(* ===== verification/Users.v ===== *)
(** * Users ([app/domain/users])

    Accounts, blocks, profile changes, withdrawal and the purge of withdrawn
    accounts with the foreign-key actions of the schema.  Password hashing is
    bcrypt's and enters as a parameter. *)

From stdpp Require Import pretty.
From S2P Require Import Prelude Ids Common Redis Db World Media Posts Notifications Comments Likes Dogs.

(** ** Unique columns *)

Definition already_used (other : User -> bool) (self : Z) (d : db) : bool :=
  existsb (fun p => bool_decide (p.1 <> self) && other p.2) (map_to_list (users d)).

(** The unique constraints a statement writing row [k] as [u] would break. *)
Definition unique_error (k : Z) (u : User) (d : db) : option exn :=
  if already_used (fun v => bool_decide (email v = email u)) k d then Some (UniqueViolation (lit "ix_users_email"))
  else if already_used (fun v => bool_decide (nickname v = nickname u)) k d then Some (UniqueViolation (lit "ix_users_nickname"))
  else None.

(** [UPDATE users ... WHERE id = k AND deleted_at IS NULL RETURNING id] *)
Definition update_live_user (k : Z) (f : User -> User) : M db bool := fun d =>
  match users d !! k with
  | Some u =>
      if decide (user_deleted_at u = None) then
        match unique_error k (f u) d with
        | Some e => (inl e, d)
        | None => (inr true, d <| users := <[k := f u]> (users d) |>)
        end
      else (inr false, d)
  | None => (inr false, d)
  end.

(** ** [UsersRepository] *)

Definition user_create `{UnicodeDB} (now new_id : Z) (mail hashed nick : ustr) (image : option Z) : M db Z := fun d =>
  let u := {| user_version := 1; email := lower mail; password := hashed; nickname := nick;
              user_profile_image_id := image; role := lit "USER"; status := ACTIVE;
              user_created_at := now; user_updated_at := now; user_deleted_at := None |} in
  match unique_error new_id u d with
  | Some e => (inl e, d)
  | None =>
      (insert_row new_id u
         (fun d => match image with Some m => bool_decide (is_Some (images d !! m)) | None => true end) ;;
       mret new_id) d
  end.

Definition get_user_by_id (k : Z) (d : db) : option User :=
  u ← users d !! k; if decide (user_deleted_at u = None) then Some u else None.
Definition get_user_by_id_including_deleted (k : Z) (d : db) : option User := users d !! k.

Definition live_with (c : User -> bool) (_ : Z) (u : User) : bool := c u && bool_decide (user_deleted_at u = None).

(** [one_or_none] of the unique live row with that address. *)
Definition get_user_by_email `{UnicodeDB} (mail : ustr) : M db (option (Z * User)) := fun d =>
  match select_where (live_with (fun u => bool_decide (email u = lower mail))) d with
  | [] => (inr None, d)
  | [r] => (inr (Some r), d)
  | _ => (inl DatabaseError, d)
  end.

Definition get_password_hash (k : Z) (d : db) : option ustr := password <$> get_user_by_id k d.

Definition email_exists `{UnicodeDB} (mail : ustr) (d : db) : bool :=
  bool_decide (select_where (live_with (fun u => bool_decide (email u = lower mail))) d <> []).
Definition nickname_exists (nick : ustr) (d : db) : bool :=
  bool_decide (select_where (live_with (fun u => bool_decide (nickname u = nick))) d <> []).

(** [update_user] with the allowed fields; [None] is a field not passed. *)
Record user_fields := {
  uf_nickname : option ustr; uf_profile_image_id : option (option Z); uf_status : option UserStatus;
}.
Definition no_fields : user_fields := {| uf_nickname := None; uf_profile_image_id := None; uf_status := None |}.

Definition update_user (now k : Z) (f : user_fields) : M db bool :=
  match uf_nickname f, uf_profile_image_id f, uf_status f with
  | None, None, None => mret true
  | n, i, s =>
      update_live_user k (fun u =>
        u <| nickname := default (nickname u) n |> <| user_profile_image_id := default (user_profile_image_id u) i |>
          <| status := default (status u) s |> <| user_updated_at := now |>)
  end.

Definition update_password_row (k : Z) (hashed : ustr) : M db bool :=
  update_live_user k (fun u => u <| password := hashed |>).

(** ** Blocks *)

(** [get_blocked_users]: the blocked, live users after the cursor, size + 1. *)
Definition blocked_rows (blocker : Z) (d : db) : list (Z * User) :=
  List.filter (fun p => has_block blocker p.1 d) (select_where (live_with (fun _ => true)) d).
Definition get_blocked_users (blocker sz : Z) (cursor : option Z) (d : db) : list (Z * User) :=
  keyset_fetch fst zdesc cursor sz (blocked_rows blocker d).

Definition get_status_and_block_between (user other : Z) (d : db) : option (UserStatus * bool) :=
  u ← get_user_by_id other d; Some (status u, has_block user other d || has_block other user d).

Definition block_user (now blocker blocked : Z) : M db unit :=
  @insert_row _ _ _ _ user_blocks_table (blocker, blocked) now
    (fun d => bool_decide (is_Some (users d !! blocker)) && bool_decide (is_Some (users d !! blocked))).
Definition unblock_user (blocker blocked : Z) : M db Z :=
  @delete_rows _ _ _ _ user_blocks_table (fun k _ => bool_decide (k = (blocker, blocked))).

(** ** Withdrawal and purge *)

Definition DELETED_AT_MAX_LEN : Z := 255.
Definition deleted_at_suffix (user now : Z) : ustr :=
  lit "_deleted_" ++ uuid_str user ++ lit "_" ++ lit (pretty now).
Definition mask_for_withdrawal (value suffix : ustr) : ustr :=
  let prefix_len := Z.max 0 (DELETED_AT_MAX_LEN - py_len suffix) in
  py_take DELETED_AT_MAX_LEN (py_take prefix_len value ++ suffix).

Definition delete_user_row (now k : Z) : M db bool := fun d =>
  match get_user_by_id k d with
  | None => (inr false, d)
  | Some row =>
      let suffix := deleted_at_suffix k now in
      update_live_user k (fun u =>
        u <| email := mask_for_withdrawal (email row) suffix |> <| nickname := mask_for_withdrawal (nickname row) suffix |>
          <| status := WITHDRAWN |> <| user_profile_image_id := None |> <| user_deleted_at := Some now |>
          <| user_updated_at := now |>) d
  end.

Definition purgeable (cutoff : Z) (_ : Z) (u : User) : bool :=
  bool_decide (status u = WITHDRAWN) && match user_deleted_at u with Some t => t <? cutoff | None => false end.

(** Which purgeable rows the LIMIT picks is the database's choice, [pick]. *)
Definition select_purgeable_user_ids (pick : list Z -> list Z) (now older_than_days limit : Z) (d : db) : list Z :=
  take (Z.to_nat limit) (pick (select_where (purgeable (now - older_than_days * DAY)) d).*1).

(** [DELETE FROM users WHERE id IN (...)] with the schema's ON DELETE actions. *)
Definition gone (ids : list Z) (o : option Z) : option Z :=
  match o with Some u => if decide (u ∈ ids) then None else Some u | None => None end.
Definition cascade_users (ids : list Z) (d : db) : db :=
  let keep1 := fun p : (Z * Z) * Z => p.1.2 ∉ ids in
  let rooms := filter (fun p : Z * ChatRoom => user1_id p.2 ∉ ids /\ user2_id p.2 ∉ ids) (chat_rooms d) in
  {| users := filter (fun p : Z * User => p.1 ∉ ids) (users d);
     user_blocks := filter (fun p : (Z * Z) * Z => p.1.1 ∉ ids /\ p.1.2 ∉ ids) (user_blocks d);
     categories := categories d; hashtags := hashtags d; hashtag_seq := hashtag_seq d; post_hashtags := post_hashtags d;
     posts := (fun p : Post => p <| user_id := gone ids (user_id p) |>) <$> posts d;
     post_images := post_images d;
     post_likes := filter keep1 (post_likes d);
     comments := (fun c : Comment => c <| author_id := gone ids (author_id c) |>) <$> comments d;
     comment_likes := filter keep1 (comment_likes d);
     notifications := (fun n : Notification => n <| actor_id := gone ids (actor_id n) |>) <$>
                        filter (fun p : Z * Notification => n_user_id p.2 ∉ ids) (notifications d);
     reports := filter (fun p : Z * Report => reporter_id p.2 ∉ ids) (reports d);
     images := (fun i : Image => i <| uploader_id := gone ids (uploader_id i) |>) <$> images d;
     dogs := filter (fun p : Z * DogProfile => owner_id p.2 ∉ ids) (dogs d);
     chat_rooms := rooms;
     chat_messages := filter (fun p : Z * ChatMessage => sender_id p.2 ∉ ids /\ is_Some (rooms !! room_id p.2)) (chat_messages d) |}.

Definition purge_users_by_ids (ids : list Z) : M db (list Z) := fun d =>
  match ids with
  | [] => (inr [], d)
  | _ => (inr (select_where (fun k (_ : User) => bool_decide (k ∈ ids)) d).*1, cascade_users ids d)
  end.

(** ** [UserService] *)

Definition check_availability `{UnicodeDB} (mail nick : option ustr) (d : db) : option bool * option bool :=
  let ask (f : ustr -> bool) (o : option ustr) :=
    match o with Some (c :: s) => Some (negb (f (c :: s))) | _ => None end in
  (ask (fun m => email_exists m d) mail, ask (fun n => nickname_exists n d) nick).

Record UpdateUserRequest := {
  uu_nickname : option ustr; uu_profile_image_id : option (option Z);  (** [None]: not sent *)
  uu_clear_profile_image : bool; uu_dogs : option (list DogProfileUpsertItem);
}.

Definition update_user_profile (now k : Z) (fresh : nat -> Z) (data : UpdateUserRequest) : M db User :=
  begin_tx
    (d ← get;
     match get_user_by_id k d with
     | None => raise UnauthorizedException
     | Some user =>
         match uu_nickname data with
         | Some n => when (negb (bool_decide (n = nickname user)) && nickname_exists n d) (raise NicknameAlreadyExistsException)
         | None => mret tt
         end ;;
         image ←
           (if bool_decide (is_Some (uu_profile_image_id data)) || uu_clear_profile_image data then
              if uu_clear_profile_image data || bool_decide (uu_profile_image_id data = Some None) then mret (Some None)
              else match uu_profile_image_id data with
                   | Some (Some i) => assert_images_attachable [i] ;; mret (Some (Some i))
                   | _ => raise InvalidRequestException
                   end
            else mret None);
         ok ← update_user now k {| uf_nickname := uu_nickname data; uf_profile_image_id := image; uf_status := None |};
         when (negb ok) (raise InternalServerErrorException) ;;
         match uu_dogs data with
         | Some items => upsert_dog_profile now k fresh items
         | None => mret tt
         end ;;
         d' ← get;
         match get_user_by_id k d' with
         | Some u => mret u
         | None => raise InternalServerErrorException
         end
     end).

Section Passwords.
(** [bcrypt.checkpw] (false on malformed hashes) and [bcrypt.hashpw] with a fresh salt. *)
Context (checkpw : ustr -> ustr -> bool) (hashpw : ustr -> ustr) (pepper : ustr).

Definition password_with_pepper (plain : ustr) : ustr := plain ++ pepper.

Definition verify_password_with_legacy_fallback (plain hashed : ustr) : bool :=
  match pepper with
  | [] => checkpw plain hashed
  | _ => checkpw (password_with_pepper plain) hashed || checkpw plain hashed
  end.

Definition update_password (k : Z) (current new_password : ustr) : M db unit :=
  begin_tx
    (d ← get;
     match get_password_hash k d with
     | Some (c :: h) =>
         let hashed := c :: h in
         if negb (verify_password_with_legacy_fallback current hashed) then raise UnauthorizedException
         else if verify_password_with_legacy_fallback new_password hashed then raise InvalidRequestException
         else
           ok ← update_password_row k (hashpw (password_with_pepper new_password));
           if ok : bool then mret tt else raise InternalServerErrorException
     | _ => raise UnauthorizedException
     end).
End Passwords.

Definition get_blocked_list (blocker sz : Z) (cursor : option Z) (d : db) : list (Z * ustr) * bool :=
  let '(us, has_more) := split_page (get_blocked_users blocker sz cursor d) sz in
  ((fun p : Z * User => (p.1, nickname p.2)) <$> us, has_more).

Definition toggle_block_user (now blocker target : Z) : M db bool :=
  if decide (blocker = target) then raise InvalidRequestException
  else
    begin_tx
      (d ← get;
       if has_block blocker target d then unblock_user blocker target ;; mret false
       else block_user now blocker target ;; mret true).

Definition delete_user (now k : Z) : M db unit :=
  begin_tx
    (d ← get;
     match get_user_by_id k d with
     | None => raise InternalServerErrorException
     | Some _ =>
         ok ← delete_user_row now k;
         if ok : bool then mret tt else raise InternalServerErrorException
     end).

(** One chunk; [None] when nothing is left. *)
Definition purge_chunk (pick : list Z -> list Z) (now older_than_days : Z) : M db (option (list Z)) :=
  begin_tx
    (d ← get;
     match select_purgeable_user_ids pick now older_than_days 200 d with
     | [] => mret None
     | ids =>
         decrement_post_like_counts_for_users ids ;;
         decrement_comment_like_counts_for_users ids ;;
         deleted ← purge_users_by_ids ids;
         mret (Some deleted)
     end).

(** Every chunk removes a row, so the number of rows is enough fuel. *)
Fixpoint purge_users_loop (fuel : nat) (pick : list Z -> list Z) (now older_than_days total : Z) : M db (option Z) :=
  match fuel with
  | O => mret None
  | S f =>
      o ← purge_chunk pick now older_than_days;
      match o with
      | None => mret (Some total)
      | Some deleted => purge_users_loop f pick now older_than_days (total + py_len deleted)
      end
  end.

Definition purge_withdrawn_users (pick : list Z -> list Z) (now older_than_days : Z) : M db (option Z) :=
  d ← get;
  purge_users_loop (S (base.size (users d))) pick now older_than_days 0.

(** ** Lemmas: the purge *)

Lemma length_filter_map {K A} `{Countable K} (f : K * A -> bool) (m : gmap K A) :
  length (List.filter f (map_to_list m)) = base.size (filter (fun p => f p = true) m).
Proof.
  rewrite <-length_map_to_list, map_filter_alt, map_to_list_to_map.
  - generalize (map_to_list m) as l. intros l. induction l as [|x l IH]; [done|].
    rewrite filter_cons. cbn [List.filter]. destruct (f x); destruct (decide _); try done. cbn. by rewrite IH.
  - eapply sublist_NoDup; [apply (NoDup_fst_map_to_list m)|]. apply fmap_sublist, sublist_filter.
Qed.

(** The likes that remain when the rows of [ids] go. *)
Lemma likes_after_cascade (ids : list Z) (m : gmap (Z * Z) Z) (t : Z) :
  likes_of (filter (fun p : (Z * Z) * Z => p.1.2 ∉ ids) m) t = likes_of m t - links_of ids m t /\ 0 <= links_of ids m t.
Proof.
  unfold links_of, py_len. rewrite length_filter_map. unfold likes_of.
  set (P := fun p : (Z * Z) * Z => p.1.2 ∉ ids). set (Q := fun p : (Z * Z) * Z => p.1.1 = t).
  assert (base.size (filter Q m) = base.size (filter P (filter Q m)) + base.size (filter (fun p => ~ P p) (filter Q m)))%nat as ->.
  { rewrite <-map_size_disj_union by apply map_disjoint_filter_complement. by rewrite map_filter_union_complement. }
  assert (filter Q (filter P m) = filter P (filter Q m)) as -> by apply map_filter_comm.
  assert (filter (fun p => ~ P p) (filter Q m) = filter (fun p => bool_decide (p.1.1 = t) && bool_decide (p.1.2 ∈ ids) = true) m) as ->; [|lia].
  rewrite map_filter_filter. apply map_filter_ext. intros [a b] x _. unfold P, Q. cbn.
  rewrite andb_true_iff, !bool_decide_eq_true. destruct (decide (b ∈ ids)); naive_solver.
Qed.

Definition decremented (owner_ids : list Z) (links : gmap (Z * Z) Z) (t n : Z) : Z := Z.max (n - links_of owner_ids links t) 0.

Lemma decrement_posts_lookup ids d : ids <> [] ->
  exists d', decrement_post_like_counts_for_users ids d = (inr tt, d') /\
    users d' = users d /\ post_likes d' = post_likes d /\ comments d' = comments d /\ comment_likes d' = comment_likes d /\
    forall t, posts d' !! t = (fun p : Post => if links_of ids (post_likes d) t =? 0 then p
        else p <| like_count := decremented ids (post_likes d) t (like_count p) |>) <$> posts d !! t.
Proof.
  intros Hne. unfold decrement_post_like_counts_for_users, decrement_counter_by_link_owner. destruct ids as [|i ids]; [done|].
  eexists. split; [reflexivity|]. cbn [rows set_rows posts_table users post_likes comments comment_likes posts over].
  split_and!; [done..|]. intros t. rewrite map_lookup_imap. by destruct (posts d !! t).
Qed.

Lemma decrement_comments_lookup ids d : ids <> [] ->
  exists d', decrement_comment_like_counts_for_users ids d = (inr tt, d') /\
    users d' = users d /\ post_likes d' = post_likes d /\ posts d' = posts d /\ comment_likes d' = comment_likes d /\
    forall t, comments d' !! t = (fun c : Comment => if links_of ids (comment_likes d) t =? 0 then c
        else c <| c_like_count := decremented ids (comment_likes d) t (c_like_count c) |>) <$> comments d !! t.
Proof.
  intros Hne. unfold decrement_comment_like_counts_for_users, decrement_counter_by_link_owner. destruct ids as [|i ids]; [done|].
  eexists. split; [reflexivity|]. cbn [rows set_rows comments_table users post_likes comments comment_likes posts over].
  split_and!; [done..|]. intros t. rewrite map_lookup_imap. by destruct (comments d !! t).
Qed.

(** What purging a set of users does to accounts and like counters. *)
Lemma purge_ids_spec ids d : ids <> [] -> NoDup ids -> (forall k, k ∈ ids -> is_Some (users d !! k)) ->
  counters_ok (T := POST_TARGET) d -> counters_ok (T := COMMENT_TARGET) d ->
  exists deleted d', (decrement_post_like_counts_for_users ids ;; decrement_comment_like_counts_for_users ids ;;
      deleted ← purge_users_by_ids ids; mret (Some deleted)) d = (inr (Some deleted), d') /\
    deleted ≡ₚ ids /\ users d' = filter (fun p : Z * User => p.1 ∉ ids) (users d) /\
    counters_ok (T := POST_TARGET) d' /\ counters_ok (T := COMMENT_TARGET) d' /\
    (forall k, is_Some (posts d' !! k) <-> is_Some (posts d !! k)) /\
    (forall k, is_Some (comments d' !! k) <-> is_Some (comments d !! k)).
Proof.
  intros Hne Hnd Hex Hp Hc. destruct (decrement_posts_lookup ids d Hne) as (d1 & E1 & Hu1 & Hpl1 & Hco1 & Hcl1 & Hd1).
  destruct (decrement_comments_lookup ids d1 Hne) as (d2 & E2 & Hu2 & Hpl2 & Hpo2 & Hcl2 & Hd2).
  unfold mbind, M_bind. rewrite E1, E2. unfold purge_users_by_ids. destruct ids as [|i0 ids0] eqn:Eids; [done|]. rewrite <-Eids in *.
  eexists _, _. split; [reflexivity|]. split_and!.
  - apply list.NoDup_Permutation; [apply select_where_nodup|done|]. intros k. rewrite list_elem_of_fmap. split.
    + intros ([k' u] & -> & [_ Hk]%select_where_elem). by apply bool_decide_eq_true in Hk.
    + intros Hk. destruct (Hex k Hk) as [u Hu]. exists (k, u). split; [done|]. apply select_where_elem. cbn [rows users_table].
      rewrite Hu2, Hu1. split; [done|by apply bool_decide_eq_true_2].
  - cbn [cascade_users users]. by rewrite Hu2, Hu1.
  - intros t n (p & Hpt & Hdel & ->)%post_counter_inv. cbn [cascade_users posts] in Hpt. rewrite lookup_fmap, Hpo2, Hd1 in Hpt.
    destruct (posts d !! t) as [p0|] eqn:Ep; [|done]. cbn in Hpt. injection Hpt as <-. cbn [view post_laws cascade_users post_likes].
    rewrite Hpl2, Hpl1. destruct (likes_after_cascade ids (post_likes d) t) as [-> Hpos].
    assert (like_count p0 = likes_of (post_likes d) t) as Hcnt.
    { apply (Hp t). cbn. unfold post_counter. rewrite Ep. cbn. rewrite decide_True; [done|]. cbn in Hdel. by destruct (_ =? 0). }
    cbn [like_count over]. destruct (Z.eqb_spec (links_of ids (post_likes d) t) 0) as [E0|E0]; [lia|]. cbn [like_count over]. unfold decremented.
    destruct (likes_after_cascade ids (post_likes d) t) as [Hla _]. rewrite Hcnt. unfold likes_of in *. lia.
  - intros t n (p & Hpt & Hdel & ->)%comment_counter_inv. cbn [cascade_users comments] in Hpt. rewrite lookup_fmap, Hd2, Hco1, Hcl1 in Hpt.
    destruct (comments d !! t) as [p0|] eqn:Ep; [|done]. cbn in Hpt. injection Hpt as <-. cbn [view comment_laws cascade_users comment_likes].
    rewrite Hcl2, Hcl1. destruct (likes_after_cascade ids (comment_likes d) t) as [-> Hpos].
    assert (c_like_count p0 = likes_of (comment_likes d) t) as Hcnt.
    { apply (Hc t). cbn. unfold comment_counter. rewrite Ep. cbn. rewrite decide_True; [done|]. cbn in Hdel. by destruct (_ =? 0). }
    cbn [c_like_count over]. destruct (Z.eqb_spec (links_of ids (comment_likes d) t) 0) as [E0|E0]; [lia|]. cbn [c_like_count over]. unfold decremented.
    destruct (likes_after_cascade ids (comment_likes d) t) as [Hla _]. rewrite Hcnt. unfold likes_of in *. lia.
  - intros k. cbn [cascade_users posts]. rewrite lookup_fmap, Hpo2, Hd1, !fmap_is_Some. done.
  - intros k. cbn [cascade_users comments]. rewrite lookup_fmap, Hd2, Hco1, !fmap_is_Some. done.
Qed.

Definition likes_ok (d : db) : Prop := counters_ok (T := POST_TARGET) d /\ counters_ok (T := COMMENT_TARGET) d.

(** Posts and comments survive, whatever happens to their authors. *)
Definition content_kept (d d' : db) : Prop :=
  (forall k, is_Some (posts d' !! k) <-> is_Some (posts d !! k)) /\
  (forall k, is_Some (comments d' !! k) <-> is_Some (comments d !! k)).

Lemma users_filter_size (ids : list Z) (m : gmap Z User) : NoDup ids -> (forall k, k ∈ ids -> is_Some (m !! k)) ->
  (base.size (filter (fun p : Z * User => p.1 ∉ ids) m) + length ids = base.size m)%nat.
Proof.
  intros Hnd Hin. set (P := fun p : Z * User => p.1 ∉ ids).
  assert (base.size m = base.size (filter P m) + base.size (filter (fun p => ~ P p) m))%nat as ->.
  { rewrite <-map_size_disj_union by apply map_disjoint_filter_complement. by rewrite map_filter_union_complement. }
  f_equal. rewrite <-(size_list_to_set (C := gset Z) ids Hnd), <-(size_dom (D := gset Z)). f_equal.
  apply set_eq. intros i. rewrite elem_of_list_to_set, elem_of_dom. unfold is_Some. setoid_rewrite map_lookup_filter_Some. unfold P. cbn. split.
  - intros Hi. destruct (Hin i Hi) as [u Hu]. exists u. split; [done|]. by intros Hx.
  - intros (u & _ & Hi). destruct (decide (i ∈ ids)); [done|]. by destruct Hi.
Qed.

Section Purge.
Context (pick : list Z -> list Z) (pick_perm : forall l, pick l ≡ₚ l) (now older_than_days : Z).
Let cutoff := now - older_than_days * DAY.

Lemma purge_chunk_spec d : likes_ok d ->
  exists r d', purge_chunk pick now older_than_days d = (inr r, d') /\ likes_ok d' /\ content_kept d d' /\
  match r with
  | None => d' = d /\ forall k u, users d !! k = Some u -> purgeable cutoff k u = false
  | Some del => (0 < length del)%nat /\ (base.size (users d') + length del = base.size (users d))%nat /\
      (forall k u, users d' !! k = Some u <-> users d !! k = Some u /\ k ∉ del) /\
      (forall k, k ∈ del -> exists u, users d !! k = Some u /\ purgeable cutoff k u = true)
  end.
Proof.
  intros [Hp Hc]. unfold purge_chunk, begin_tx. unfold mbind at 1, M_bind at 1, get.
  set (sel := select_where (purgeable cutoff) d).
  assert (forall k, k ∈ pick sel.*1 <-> exists u, users d !! k = Some u /\ purgeable cutoff k u = true) as Hsel.
  { intros k. rewrite (pick_perm sel.*1), list_elem_of_fmap. split.
    - intros ([k' u] & -> & [Hu Hk]%select_where_elem). by exists u.
    - intros (u & Hu & Hk). exists (k, u). split; [done|]. by apply select_where_elem. }
  assert (forall k, k ∈ select_purgeable_user_ids pick now older_than_days 200 d -> exists u, users d !! k = Some u /\ purgeable cutoff k u = true) as Hids.
  { intros k Hk. apply Hsel. unfold select_purgeable_user_ids in Hk. eapply elem_of_take_drop with (d := 0%nat). rewrite drop_0. exact Hk. }
  assert (NoDup (select_purgeable_user_ids pick now older_than_days 200 d)) as Hnd.
  { unfold select_purgeable_user_ids. eapply sublist_NoDup; [|apply sublist_take]. rewrite pick_perm. apply select_where_nodup. }
  destruct (select_purgeable_user_ids pick now older_than_days 200 d) as [|i l] eqn:El.
  - exists None, d. split; [done|]. split; [by split|]. split; [by split|]. split; [done|]. intros k u Hu.
    destruct (purgeable cutoff k u) eqn:Ek; [|done]. exfalso. unfold select_purgeable_user_ids in El.
    assert (k ∈ pick sel.*1) as Hk by (apply Hsel; by exists u). fold cutoff in El. fold sel in El.
    destruct (pick sel.*1); [by apply elem_of_nil in Hk|done].
  - destruct (purge_ids_spec (i :: l) d) as (del & d' & E & Hperm & Hu & Hp' & Hc' & Hk1 & Hk2);
      [done|done|intros k Hk; destruct (Hids k Hk) as (u & ? & _); by exists u|done|done|].
    rewrite E. exists (Some del), d'. split; [done|]. split; [by split|]. split; [by split|].
    assert (forall k, k ∈ del <-> k ∈ i :: l) as Hin by (intros k; by rewrite Hperm).
    split_and!.
    + rewrite Hperm. cbn. lia.
    + rewrite Hu, Hperm. apply users_filter_size; [done|]. intros k Hk. destruct (Hids k Hk) as (u & ? & _). by exists u.
    + intros k u. rewrite Hu, map_lookup_filter_Some, Hin. done.
    + intros k Hk. by apply Hids, Hin.
Qed.

Lemma purge_users_loop_spec fuel total d : likes_ok d -> (base.size (users d) < fuel)%nat ->
  exists n d', purge_users_loop fuel pick now older_than_days total d = (inr (Some (total + Z.of_nat n)), d') /\
    likes_ok d' /\ content_kept d d' /\ (base.size (users d') + n = base.size (users d))%nat /\
    (forall k u, users d' !! k = Some u <-> users d !! k = Some u /\ purgeable cutoff k u = false).
Proof.
  revert total d. induction fuel as [|fuel IH]; intros total d Hl Hf; [lia|]. cbn [purge_users_loop].
  destruct (purge_chunk_spec d Hl) as (r & d1 & E & Hl1 & Hk1 & Hr). unfold mbind, M_bind. rewrite E. destruct r as [del|].
  - destruct Hr as (Hpos & Hsz & Hus & Hdel). destruct (IH (total + py_len del) d1 Hl1) as (n & d2 & E2 & Hl2 & Hk2 & Hsz2 & Hus2); [lia|].
    exists (length del + n)%nat, d2. split; [|split; [done|split; [|split; [lia|]]]].
    + rewrite E2. do 3 f_equal. unfold py_len. lia.
    + destruct Hk1 as [Ha Hb], Hk2 as [Hc Hd]. split; intros k; [by rewrite Hc, Ha|by rewrite Hd, Hb].
    + intros k u. rewrite Hus2, Hus. split; [naive_solver|]. intros [Hu Hf']. split; [|done]. split; [done|]. intros Hin.
      destruct (Hdel k Hin) as (u' & Hu' & Hp'). congruence.
  - destruct Hr as [-> Hnone]. exists 0%nat, d. split; [by rewrite Z.add_0_r|]. split; [done|]. split; [done|]. split; [lia|].
    intros k u. split; [|naive_solver]. intros Hu. split; [done|]. by apply Hnone.
Qed.
End Purge.

(** ** Properties *)

(** C12. The purge of withdrawn accounts terminates and is exact: whatever order
    the database picks rows in, it removes precisely the accounts withdrawn
    before the cutoff and returns their number; no post or comment disappears;
    and although the likes of purged users are removed by the foreign keys, every
    like counter still equals its number of likes. *)
Theorem purge_withdrawn_users_exact (pick : list Z -> list Z) (now older_than_days : Z) (d : db) :
  (forall l, pick l ≡ₚ l) -> likes_ok d ->
  exists n d', purge_withdrawn_users pick now older_than_days d = (inr (Some (Z.of_nat n)), d') /\
    (base.size (users d') + n = base.size (users d))%nat /\
    (forall k u, users d' !! k = Some u <->
       users d !! k = Some u /\ purgeable (now - older_than_days * DAY) k u = false) /\
    content_kept d d' /\ likes_ok d'.
Proof.
  intros Hpick Hl. unfold purge_withdrawn_users, get. unfold mbind, M_bind.
  destruct (purge_users_loop_spec pick Hpick now older_than_days (S (base.size (users d))) 0 d Hl) as (n & d' & E & Hl' & Hk & Hsz & Hus); [lia|].
  exists n, d'. by split_and!.
Qed.

(** ** Withdrawal *)

Definition users_unique (d : db) : Prop :=
  forall k1 k2 u1 u2, users d !! k1 = Some u1 -> users d !! k2 = Some u2 ->
    email u1 = email u2 \/ nickname u1 = nickname u2 -> k1 = k2.

Lemma already_used_false other self d :
  already_used other self d = false <-> forall k v, users d !! k = Some v -> k <> self -> other v = false.
Proof.
  unfold already_used. rewrite <-not_true_iff_false, existsb_exists. split.
  - intros Hn k v Hv Hk. apply not_true_iff_false. intros Ho. apply Hn. exists (k, v). cbn.
    split; [by apply list_elem_of_In, elem_of_map_to_list|]. by rewrite bool_decide_eq_true_2.
  - intros Ha ([k v] & Hin%list_elem_of_In%elem_of_map_to_list & Hc). cbn in Hc. apply andb_true_iff in Hc as [Hk Ho].
    apply bool_decide_eq_true in Hk. by rewrite (Ha k v Hin Hk) in Ho.
Qed.

Lemma unique_error_none k u d :
  unique_error k u d = None <-> forall k' v, users d !! k' = Some v -> k' <> k -> email v <> email u /\ nickname v <> nickname u.
Proof.
  unfold unique_error.
  destruct (already_used (fun v => bool_decide (email v = email u)) k d) eqn:E1;
    [|destruct (already_used (fun v => bool_decide (nickname v = nickname u)) k d) eqn:E2].
  - split; [done|]. intros Ha. enough (already_used (fun v => bool_decide (email v = email u)) k d = false) by congruence.
    apply already_used_false. intros k' v Hv Hk. apply bool_decide_eq_false. by apply (Ha k' v).
  - split; [done|]. intros Ha. enough (already_used (fun v => bool_decide (nickname v = nickname u)) k d = false) by congruence.
    apply already_used_false. intros k' v Hv Hk. apply bool_decide_eq_false. by apply (Ha k' v).
  - split; [|done]. intros _ k' v Hv Hk. rewrite already_used_false in E1, E2.
    split; eapply bool_decide_eq_false; [by apply (E1 k' v)|by apply (E2 k' v)].
Qed.

Lemma users_unique_insert k u d : unique_error k u d = None -> users_unique d ->
  users_unique (d <| users := <[k := u]> (users d) |>).
Proof.
  rewrite unique_error_none. intros Hn Hu k1 k2 u1 u2. cbn [users over].
  destruct (decide (k1 = k)) as [->|N1], (decide (k2 = k)) as [->|N2];
    rewrite ?lookup_insert_eq, ?lookup_insert_ne by done; intros H1 H2 Heq; simplify_eq; [done| | |].
  - destruct (Hn k2 u2 H2 N2). destruct Heq; congruence.
  - destruct (Hn k1 u1 H1 N1). destruct Heq; congruence.
  - by eapply Hu.
Qed.

Lemma py_take_all {A} n (l : list A) : py_len l <= n -> py_take n l = l.
Proof. intros Hl. rewrite py_take_nonneg by (unfold py_len in Hl; lia). apply take_ge. unfold py_len in Hl. lia. Qed.

Lemma mask_length value suffix : py_len (mask_for_withdrawal value suffix) <= DELETED_AT_MAX_LEN.
Proof.
  unfold mask_for_withdrawal. rewrite py_take_nonneg by (unfold DELETED_AT_MAX_LEN; lia).
  unfold py_len. rewrite length_take. unfold DELETED_AT_MAX_LEN. lia.
Qed.

Lemma mask_fits value suffix : py_len value + py_len suffix <= DELETED_AT_MAX_LEN ->
  mask_for_withdrawal value suffix = value ++ suffix.
Proof.
  intros Hl. unfold mask_for_withdrawal. rewrite (py_take_all _ value) by (unfold py_len in *; lia).
  apply py_take_all. unfold py_len in *. rewrite length_app. lia.
Qed.

Lemma app_nil_inv_head {A} (l k : list A) : l ++ k = l -> k = [].
Proof. intros E. apply (app_inv_head l). by rewrite app_nil_r. Qed.

Lemma live_select_empty c d : (forall k u, users d !! k = Some u -> user_deleted_at u = None -> c u = false) ->
  select_where (live_with c) d = [].
Proof.
  intros Ha. apply filter_map_to_list_none. intros k u Hu. unfold live_with. destruct (decide (user_deleted_at u = None)) as [Hd|Hd].
  - by rewrite (Ha k u Hu Hd).
  - by rewrite bool_decide_eq_false_2, andb_false_r.
Qed.

Lemma unique_error_some k u d e : unique_error k u d = Some e ->
  exists j v, users d !! j = Some v /\ j <> k /\ (email v = email u \/ nickname v = nickname u).
Proof.
  assert (forall f, already_used f k d = true -> exists j v, users d !! j = Some v /\ j <> k /\ f v = true) as Ha.
  { intros f ([j v] & Hin%list_elem_of_In%elem_of_map_to_list & [Hj Hf]%andb_true_iff)%existsb_exists.
    apply bool_decide_eq_true in Hj. by exists j, v. }
  unfold unique_error. destruct (already_used _ k d) eqn:E1.
  - intros _. destruct (Ha _ E1) as (j & v & Hv & Hj & Hf%bool_decide_eq_true). exists j, v. auto.
  - destruct (already_used (fun v => bool_decide (nickname v = nickname u)) k d) eqn:E2; [|done].
    intros _. destruct (Ha _ E2) as (j & v & Hv & Hj & Hf%bool_decide_eq_true). exists j, v. auto.
Qed.

Lemma delete_user_error now k u d e : get_user_by_id k d = Some u -> (delete_user now k d).1 = inl e ->
  exists j u v, users d !! k = Some u /\ users d !! j = Some v /\ j <> k /\
      (email v = mask_for_withdrawal (email u) (deleted_at_suffix k now) \/
       nickname v = mask_for_withdrawal (nickname u) (deleted_at_suffix k now)).
Proof.
  intros Eg. pose proof Eg as Eg'. unfold get_user_by_id in Eg'. destruct (users d !! k) as [u0|] eqn:Eu; [|done]. cbn in Eg'.
  destruct (decide (user_deleted_at u0 = None)) as [Hd|]; [|done]. injection Eg' as ->.
  unfold delete_user, begin_tx, get. unfold mbind, M_bind. rewrite Eg. unfold delete_user_row, update_live_user. rewrite Eg, Eu, decide_True by done.
  match goal with |- context [unique_error k ?u' d] => destruct (unique_error k u' d) as [e'|] eqn:En end; [|done].
  intros _. apply unique_error_some in En as (j & v & Hv & Hj & Hf). by exists j, u, v.
Qed.

(** Withdrawal, on both outcomes: an error changes nothing and happens only
    when the account does not exist, is already deleted, or another account
    already has the masked address or nickname; success marks
    exactly that live account withdrawn and deleted, masks its address and
    nickname within the column width, keeps the unique columns unique, leaves
    every other account alone, and frees the address and the nickname: no live
    account has them, and (when they are short enough not to be cut) a new
    account with them violates no constraint. *)
Theorem withdrawal_frees_identity `{UnicodeDB} (now k : Z) (d : db) :
  users_unique d ->
  match delete_user now k d with
  | (inl e, d') => d' = d /\ (get_user_by_id k d = None \/ exists j u v, users d !! k = Some u /\ users d !! j = Some v /\ j <> k /\
      (email v = mask_for_withdrawal (email u) (deleted_at_suffix k now) \/
       nickname v = mask_for_withdrawal (nickname u) (deleted_at_suffix k now)))
  | (inr _, d') => exists u u', users d !! k = Some u /\ user_deleted_at u = None /\
      users d' = <[k := u']> (users d) /\ user_deleted_at u' = Some now /\ status u' = WITHDRAWN /\
      user_profile_image_id u' = None /\ py_len (email u') <= 255 /\ py_len (nickname u') <= 255 /\ users_unique d' /\
      (forall mail, lower mail = email u -> email_exists mail d' = false) /\ nickname_exists (nickname u) d' = false /\
      (py_len (email u) + py_len (deleted_at_suffix k now) <= 255 ->
       py_len (nickname u) + py_len (deleted_at_suffix k now) <= 255 ->
       forall j v, users d !! j = None -> email v = email u -> nickname v = nickname u -> unique_error j v d' = None)
  end.
Proof.
  intros Huq. destruct (delete_user now k d) as [[e|[]] d'] eqn:E.
  { pose proof (begin_tx_error _ _ _ _ E) as ->. split; [done|]. destruct (get_user_by_id k d) as [u|] eqn:Eg; [right|by left].
    apply (delete_user_error now k u d e Eg). by rewrite E. }
  unfold delete_user, begin_tx, delete_user_row, get, update_live_user, get_user_by_id in E. unfold mbind, M_bind, option_bind in E.
  destruct (users d !! k) as [u|] eqn:Eu; [|done]. destruct (decide (user_deleted_at u = None)) as [Hd|Hd]; [|done].
  rewrite Eu, !decide_True in E by done. cbv beta iota zeta in E.
  match type of E with context [unique_error k ?u' d] => set (u1 := u') in E; destruct (unique_error k u1 d) eqn:En end; [done|].
  injection E as <-. exists u, u1. pose proof (users_unique_insert k u1 d En Huq) as Huq'.
  assert (forall j w, users (d <| users := <[k := u1]> (users d) |>) !! j = Some w -> user_deleted_at w = None ->
    email w <> email u /\ nickname w <> nickname u) as Hfree.
  { intros j w. cbn [users over]. destruct (decide (j = k)) as [->|Hne].
    - rewrite lookup_insert_eq. by intros [= <-].
    - rewrite lookup_insert_ne by done. intros Hw _. split; intros Heq; apply Hne; eapply (Huq j k w u Hw Eu); auto. }
  split_and!; try done; [apply mask_length|apply mask_length| | |].
  - intros mail Hm. unfold email_exists. rewrite Hm, live_select_empty; [done|]. intros j w Hw Hdel.
    apply bool_decide_eq_false. by apply (Hfree j w).
  - unfold nickname_exists. rewrite live_select_empty; [done|]. intros j w Hw Hdel. apply bool_decide_eq_false. by apply (Hfree j w).
  - intros He Hn j v Hj Hve Hvn. apply unique_error_none. rewrite Hve, Hvn. intros i w. cbn [users over].
    assert (deleted_at_suffix k now <> []) as Hs by done.
    destruct (decide (i = k)) as [->|Hne].
    + rewrite lookup_insert_eq. intros [= <-] _. cbn [email nickname over u1]. rewrite !mask_fits by done.
      split; intros Heq; apply Hs; by eapply app_nil_inv_head.
    + rewrite lookup_insert_ne by done. intros Hw _. split; intros Heq; apply Hne; eapply (Huq i k w u Hw Eu); auto.
Qed.

(** ** Blocks *)

(** Blocking is a switch that hides: for two distinct existing users the
    answer is the new state, only that pair changes, a second call restores it,
    and while the block stands the blocker sees no post of the blocked user. *)
Theorem toggle_block_hides (now blocker target : Z) (d : db) :
  blocker <> target -> is_Some (users d !! blocker) -> is_Some (users d !! target) ->
  exists d', toggle_block_user now blocker target d = (inr (negb (has_block blocker target d)), d') /\
    has_block blocker target d' = negb (has_block blocker target d) /\
    (forall a b, (a, b) <> (blocker, target) -> has_block a b d' = has_block a b d) /\
    (exists d'', toggle_block_user now blocker target d' = (inr (has_block blocker target d), d'') /\
       forall a b, has_block a b d'' = has_block a b d) /\
    (has_block blocker target d' = true ->
       forall i p, posts d' !! i = Some p -> user_id p = Some target -> post_is_visible i (Some blocker) d' = false).
Proof.
  intros Hne Hb Ht.
  assert (forall d, is_Some (users d !! blocker) -> is_Some (users d !! target) ->
    exists d', toggle_block_user now blocker target d = (inr (negb (has_block blocker target d)), d') /\ users d' = users d /\
      has_block blocker target d' = negb (has_block blocker target d) /\
      (forall a b, (a, b) <> (blocker, target) -> has_block a b d' = has_block a b d)) as Hstep.
  { intros d0 Hb0 Ht0. unfold toggle_block_user. rewrite decide_False by done. unfold begin_tx, get. unfold mbind, M_bind.
    destruct (has_block blocker target d0) eqn:E; unfold has_block in *.
    - unfold unblock_user. rewrite delete_link_row. cbn [rows set_rows user_blocks_table]. eexists. split; [reflexivity|]. split; [done|].
      cbn [user_blocks over]. split.
      + rewrite lookup_delete_eq. done.
      + intros a b Hab. by rewrite lookup_delete_ne by congruence.
    - unfold block_user, insert_row. cbn [rows set_rows user_blocks_table]. apply bool_decide_eq_false in E.
      rewrite (proj2 (eq_None_not_Some _) E), !bool_decide_eq_true_2 by done. eexists. split; [reflexivity|]. split; [done|].
      cbn [user_blocks over]. split.
      + rewrite lookup_insert_eq. done.
      + intros a b Hab. by rewrite lookup_insert_ne by congruence. }
  destruct (Hstep d Hb Ht) as (d' & E & Hu & Hself & Hoth). exists d'. split; [done|]. split; [done|]. split; [done|]. split.
  - destruct (Hstep d') as (d'' & E2 & _ & Hself2 & Hoth2); [by rewrite Hu|by rewrite Hu|]. exists d''.
    rewrite Hself, negb_involutive in E2, Hself2. split; [done|]. intros a b.
    destruct (decide ((a, b) = (blocker, target))) as [[= -> ->]|Hab]; [done|]. by rewrite Hoth2, Hoth.
  - intros Hblk i p Hp Hpu. unfold post_is_visible, post_visible. rewrite Hp, Hpu. unfold author_not_blocked. rewrite Hblk.
    by rewrite andb_false_r.
Qed.

(** ** Images of purged users *)

(** User 7 withdrew long ago; their post 1 still shows image 5. *)
Definition demo_purge : db :=
  demo_db <| users := {[7 := demo_user <| status := WITHDRAWN |> <| user_deleted_at := Some 0 |>; 8 := demo_user <| email := lit "b" |> <| nickname := lit "m" |>]} |>
          <| post_likes := {[(1, 7) := 0; (1, 8) := 0]} |>
          <| posts := {[1 := demo_post 7 <| like_count := 2 |>]} |>
          <| images := {[5 := {| file_key := lit "post/x.png"; file_url := []; content_type := None; size := None;
                                 uploader_id := Some 7; img_created_at := 0; img_deleted_at := None |}]} |>
          <| post_images := {[50 := {| pi_post_id := 1; pi_image_id := 5; pi_created_at := 0 |}]} |>.

(** A purge takes images out of posts that survive it: the purged user's
    image loses its uploader, after which the cleanup of abandoned sign-up images
    (no uploader, older than the token lifetime, no reference check) deletes it
    although the post, which stays visible, still shows it. *)
Theorem purge_then_cleanup_drops_used_image :
  let now := 100 * DAY in
  let d1 := (purge_withdrawn_users (fun l => l) now 30 demo_purge).2 in
  let w2 := (cleanup_expired_signup_images now 3600 100 (empty_world <| w_db := d1 |>)).2 in
  post_is_visible 1 (Some 8) d1 = true /\ referenced d1 5 = true /\ is_Some (images d1 !! 5) /\
  post_is_visible 1 (Some 8) (w_db w2) = true /\ images (w_db w2) !! 5 = None /\ post_images (w_db w2) !! 50 = None.
Proof. vm_compute. split_and!; try reflexivity. by eexists. Qed.

(** ** Witnesses *)

Lemma demo_purge_likes_ok : likes_ok demo_purge.
Proof.
  split.
  - intros t n (p & Hp & _ & ->)%post_counter_inv. cbn [demo_purge posts over] in Hp.
    apply lookup_singleton_Some in Hp as [<- <-]. vm_compute. reflexivity.
  - intros t n (p & Hp & _ & ->)%comment_counter_inv. cbn [demo_purge demo_db comments over empty_db] in Hp. by rewrite lookup_empty in Hp.
Qed.

Lemma purge_withdrawn_users_exact_witness :
  exists n d', purge_withdrawn_users (fun l => l) (100 * DAY) 30 demo_purge = (inr (Some (Z.of_nat n)), d') /\
    n = 1%nat /\ like_count <$> posts d' !! 1 = Some 1 /\ likes_ok d'.
Proof.
  destruct (purge_withdrawn_users_exact (fun l => l) (100 * DAY) 30 demo_purge) as (n & d' & E & _ & _ & _ & Hl).
  - intros l. reflexivity.
  - exact demo_purge_likes_ok.
  - exists n, d'. split; [exact E|].
    pose proof (f_equal (fun r => match r.1 with inr (Some m) => m | _ => -1 end) E) as En. cbn [fst] in En.
    pose proof (f_equal (fun r => like_count <$> posts r.2 !! 1) E) as Ep. cbn [snd] in Ep.
    vm_compute in Ep. split; [|split; [exact (eq_sym Ep)|exact Hl]].
    assert (Z.of_nat n = 1) as Hn; [|lia]. rewrite <-En. vm_compute. reflexivity.
Defined.

Lemma withdrawal_frees_identity_witness :
  exists d', delete_user 9 8 demo_purge = (inr tt, d') /\ nickname_exists (lit "m") d' = false.
Proof.
  pose proof (withdrawal_frees_identity (H := ascii_db) 9 8 demo_purge) as Hw.
  destruct (delete_user 9 8 demo_purge) as [[e|[]] d'] eqn:E; [vm_compute in E; discriminate|].
  destruct Hw as (u & u' & Hu & _ & _ & _ & _ & _ & _ & _ & _ & _ & Hn & _).
  - intros k1 k2 u1 u2 H1 H2 Heq. apply elem_of_map_to_list in H1, H2. vm_compute in H1, H2.
    repeat (apply elem_of_cons in H1 as [[= -> ->]|H1]; [|]); [..|by apply elem_of_nil in H1];
      (repeat (apply elem_of_cons in H2 as [[= -> ->]|H2]; [|]); [..|by apply elem_of_nil in H2]); try reflexivity;
      destruct Heq as [Heq|Heq]; vm_compute in Heq; discriminate.
  - exists d'. split; [reflexivity|]. vm_compute in Hu. injection Hu as <-. exact Hn.
Defined.

Lemma toggle_block_hides_witness :
  exists d', toggle_block_user 5 7 8 demo_db = (inr true, d') /\ post_is_visible 3 (Some 7) d' = false.
Proof.
  destruct (toggle_block_hides 5 7 8 demo_db) as (d' & E & Hs & _ & _ & Hv).
  - discriminate.
  - vm_compute. by eexists.
  - vm_compute. by eexists.
  - exists d'. split; [exact E|]. apply (Hv Hs 3 (demo_post 8)); [|reflexivity].
    apply (f_equal (fun r => posts r.2 !! 3)) in E. cbn [snd] in E. rewrite <-E. vm_compute. reflexivity.
Defined.
