(* ===== verification/Auth.v ===== *)
(** * Authentication ([app/domain/auth], [app/core/security.py],
    [app/api/dependencies/auth.py], account status of [app/domain/admin])

    Sign-up, login, refresh-token rotation, logout, the status caches and the
    resolution of an access token.  JWT encoding, SHA-256 and bcrypt are
    libraries: the services take them as parameters. *)

From S2P Require Import Prelude Ids Common Redis Db World Media Posts Users.

(** ** Request validation ([users/schema.py]) *)

Definition PASSWORD_SPECIAL : ustr := lit "!@#$%^&*()_+-=[]{};':\|,.<>/?" ++ [34].

Definition password_complexity_ok (p : ustr) : bool :=
  existsb (between 97 122) p && existsb (between 48 57) p && existsb (fun c => bool_decide (c ∈ PASSWORD_SPECIAL)) p.

Definition validate_password_format_auth (p : ustr) : bool :=
  (8 <=? py_len p) && (py_len p <=? 20) && password_complexity_ok p.
Definition validate_password_format_update (p : ustr) : bool :=
  (8 <=? py_len p) && (py_len p <=? 128) && password_complexity_ok p.

(** [^[가-힣a-zA-Z0-9]{1,10}$]: one to ten Hangul syllables, ASCII letters or
    digits; [$] also matches before a final newline. *)
Definition nickname_char (c : Z) : bool :=
  between 44032 55203 c || between 97 122 c || between 65 90 c || between 48 57 c.
Definition before_final_newline (s : ustr) : ustr :=
  match reverse s with 10 :: r => reverse r | _ => s end.
Definition validate_nickname_format (n : ustr) : bool :=
  let n := before_final_newline n in
  (1 <=? py_len n) && (py_len n <=? 10) && forallb nickname_char n.

Definition ensure_nickname_format (v : ustr) : exn + ustr :=
  if bool_decide (strip v = []) then inl PyValueError
  else if validate_nickname_format (strip v) then inr (strip v) else inl PyValueError.

Definition optional_nickname (v : option ustr) : exn + option ustr :=
  match v with
  | None => inr None
  | Some v =>
      if bool_decide (strip v = []) then inr None
      else match ensure_nickname_format (strip v) with inl e => inl e | inr n => inr (Some n) end
  end.

(** ** Keys and caches ([security.py], [user_status_cache.py]) *)

Definition access_jti_blacklist_redis_key (jti : ustr) : ustr := lit "blacklist:jti:" ++ jti.
Definition user_refresh_key (user : Z) : ustr := lit "user_refresh:" ++ uuid_str user.
Definition user_status_cache_key (user : Z) : ustr := lit "user:status:" ++ uuid_str user.
Definition user_auth_cache_key (user : Z) : ustr := lit "user:auth:" ++ uuid_str user.
Definition USER_STATUS_CACHE_TTL_SECONDS : Z := 240.

Definition status_str (s : UserStatus) : ustr :=
  match s with ACTIVE => lit "ACTIVE" | SUSPENDED => lit "SUSPENDED" | WITHDRAWN => lit "WITHDRAWN" end.
Definition is_active_value (s : ustr) : bool := bool_decide (s = lit "ACTIVE").

Definition best_effort (m : M world unit) : M world unit := try_except m (fun _ => mret tt).

Definition set_user_status_cache_best_effort (user : Z) (s : ustr) : M world unit :=
  best_effort (on_redis (redis_set (user_status_cache_key user) s false (Some USER_STATUS_CACHE_TTL_SECONDS)) ;; mret tt).

Definition invalidate_user_status_cache (present : bool) (user : Z) : M world unit :=
  if present then best_effort (on_redis (redis_delete [user_status_cache_key user; user_auth_cache_key user]))
  else mret tt.

(** ** Refresh rotation ([auth/service.py]) *)

(** [_REFRESH_ROTATE_CAS_LUA] *)
Definition lua_refresh_rotate_cas (k incoming fresh : ustr) (ttl : Z) : cmd Z := fun now d =>
  match live now d k with
  | None => (inr 0, d)
  | Some (RStr cur) =>
      if decide (cur <> incoming) then (inr 0, d)
      else if ttl <=? 0 then (inr 0, d)
      else (inr 1, <[k := {| r_val := RStr fresh; r_exp := Some (now + ttl) |}]> d)
  | Some _ => (inl RedisError, d)
  end.

Definition refresh_rotation_sequential (user_key incoming fresh : ustr) (ttl_seconds : Z) : M redis bool :=
  try_except
    (raw ← redis_get user_key;
     if decide (raw = Some incoming) then redis_set user_key fresh false (Some ttl_seconds) ;; mret true
     else mret false)
    (fun _ => mret false).

Definition try_refresh_rotation_redis (user_key incoming fresh : ustr) (ttl_seconds : Z) : M redis bool :=
  if ttl_seconds <=? 0 then
    try_except (raw ← redis_get user_key; mret (bool_decide (raw = Some incoming))) (fun _ => mret false)
  else
    try_except (rc ← command (lua_refresh_rotate_cas user_key incoming fresh ttl_seconds); mret (rc =? 1))
               (fun _ => refresh_rotation_sequential user_key incoming fresh ttl_seconds).

(** The status cache first, then the database, which refills the cache. *)
Definition ensure_user_may_refresh (user : Z) : M world unit :=
  cached ← try_except (on_redis (redis_get (user_status_cache_key user))) (fun _ => mret None);
  match cached with
  | Some s => if is_active_value s then mret tt else raise UnauthorizedException
  | None =>
      w ← get;
      match get_user_by_id user (w_db w) with
      | None => raise UnauthorizedException
      | Some u =>
          best_effort (on_redis (redis_set (user_status_cache_key user) (status_str (status u)) false
                                   (Some USER_STATUS_CACHE_TTL_SECONDS)) ;; mret tt) ;;
          if is_active_value (status_str (status u)) then mret tt else raise UnauthorizedException
      end
  end.

(** The claims a decoded token may carry, with the types the code expects. *)
Record claims := {
  cl_sub : option ustr; cl_exp : option Z; cl_jti : option ustr; cl_type : option ustr;
}.

(** [now_us]: the wall clock in microseconds. *)
Definition remaining_ttl_seconds_from_access_payload (now_us : Z) (c : claims) : Z :=
  match cl_exp c with
  | Some e => Z.max 0 (Z.quot (e * 1000000 - now_us) 1000000)
  | None => 0
  end.

Record SignUpRequest := {
  su_email : ustr; su_password : ustr; su_nickname : ustr; su_profile_image_id : option Z; su_signup_token : option ustr;
}.

Section Auth.
Context `{UnicodeDB}.
(** [jwt.decode] with the configured key ([None]: expired or invalid), the token
    digest, bcrypt and the configured pepper. *)
Context (jwt_decode : ustr -> option claims) (refresh_token_digest : ustr -> ustr).
Context (checkpw : ustr -> ustr -> bool) (hashpw : ustr -> ustr) (pepper : ustr).

Definition verify_token (kind token : ustr) : exn + claims :=
  match jwt_decode token with
  | None => inl InvalidTokenError
  | Some c => if decide (cl_type c = Some kind) then inr c else inl InvalidTokenError
  end.
Definition verify_access_token := verify_token (lit "access").
Definition verify_refresh_token := verify_token (lit "refresh").

Definition truthy (o : option ustr) : bool := match o with Some (_ :: _) => true | _ => false end.

Definition signup (present : bool) (now new_id : Z) (data : SignUpRequest) : M world unit :=
  let has_token := truthy (su_signup_token data) in
  if bool_decide (is_Some (su_profile_image_id data)) && negb has_token then raise MissingRequiredFieldException
  else
    let hashed := hashpw (password_with_pepper pepper (su_password data)) in
    tx
      (w ← get;
       if email_exists (su_email data) (w_db w) then raise EmailAlreadyExistsException
       else if nickname_exists (su_nickname data) (w_db w) then raise NicknameAlreadyExistsException
       else
         image ←
           (if has_token then
              o ← verify_upload_token present (default [] (su_signup_token data));
              match o with
              | None => raise SignupImageTokenInvalidException
              | Some i =>
                  if bool_decide (is_Some (su_profile_image_id data)) && negb (bool_decide (su_profile_image_id data = Some i))
                  then raise SignupImageTokenInvalidException
                  else mret (Some i)
              end
            else mret None);
         created ← try_except (on_db (user_create now new_id (su_email data) hashed (su_nickname data) image))
           (fun e => match e with
                     | UniqueViolation c =>
                         if is_infix (lit "email") c then raise EmailAlreadyExistsException
                         else if is_infix (lit "nickname") c then raise NicknameAlreadyExistsException
                         else raise e
                     | _ => raise e
                     end);
         match image with
         | Some i =>
             attached ← on_db (claim_image_ownership i created);
             if attached : bool then mret tt else raise SignupImageTokenInvalidException
         | None => mret tt
         end).

(** [new_refresh] and [new_access] are the tokens drawn. *)
Definition login (present : bool) (refresh_ttl_seconds : Z) (mail plain new_refresh new_access : ustr)
  : M world ((Z * User) * ustr * ustr) :=
  user ←
    tx (found ← on_db (get_user_by_email mail);
        match found with
        | None => raise InvalidCredentialsException
        | Some (i, u) =>
            if negb (is_active_value (status_str (status u))) then raise ForbiddenException
            else if negb (verify_password_with_legacy_fallback checkpw pepper plain (password u))
                 then raise InvalidCredentialsException
                 else mret (i, u)
        end);
  when (present && (0 <? refresh_ttl_seconds))
    (on_redis (redis_set (user_refresh_key user.1) (refresh_token_digest new_refresh) false (Some refresh_ttl_seconds)) ;;
     set_user_status_cache_best_effort user.1 (lit "ACTIVE")) ;;
  mret (user, new_access, new_refresh).

Definition logout (present : bool) (user now_us : Z) (access_payload : claims) : M world unit :=
  if negb present then raise UnauthorizedException
  else
    let ttl := remaining_ttl_seconds_from_access_payload now_us access_payload in
    match cl_jti access_payload with
    | Some jti =>
        when ((0 <? ttl) && negb (bool_decide (strip jti = [])))
          (on_redis (redis_set (access_jti_blacklist_redis_key (strip jti)) (lit "logout") false (Some ttl)) ;; mret tt)
    | None => mret tt
    end ;;
    on_redis (redis_delete [user_refresh_key user]).

Definition revoke_refresh_for_user (present : bool) (user : Z) : M world unit :=
  when present (on_redis (redis_delete [user_refresh_key user])).

Definition refresh_tokens (present : bool) (refresh_ttl_seconds : Z) (refresh_token new_refresh new_access : ustr)
  : M world (ustr * ustr) :=
  match refresh_token with
  | [] => raise UnauthorizedException
  | _ =>
      match verify_refresh_token refresh_token with
      | inl e => raise e
      | inr payload =>
          match cl_sub payload with
          | Some (c :: s) =>
              match jwt_sub_to_uuid (c :: s) with
              | inl _ => raise UnauthorizedException
              | inr user =>
                  if negb present then raise UnauthorizedException
                  else
                    ensure_user_may_refresh user ;;
                    rotated ← on_redis (try_refresh_rotation_redis (user_refresh_key user)
                                 (refresh_token_digest refresh_token) (refresh_token_digest new_refresh) refresh_ttl_seconds);
                    if rotated : bool then mret (new_access, new_refresh) else raise UnauthorizedException
              end
          | _ => raise UnauthorizedException
          end
      end
  end.

(** ** Access tokens ([api/dependencies/auth.py]) *)

Record CurrentUser := {
  cu_id : Z; cu_email : ustr; cu_nickname : ustr; cu_role : ustr; cu_profile_image_id : option Z; cu_created_at : Z;
}.

Definition current_user_of (i : Z) (u : User) : CurrentUser :=
  {| cu_id := i; cu_email := email u; cu_nickname := nickname u; cu_role := role u;
     cu_profile_image_id := user_profile_image_id u; cu_created_at := user_created_at u |}.

(** The JSON of the snapshot: status and user as far as they have the right type. *)
Context (snapshot_dump : ustr -> CurrentUser -> ustr) (snapshot_load : ustr -> option (option ustr * option CurrentUser)).

Definition get_auth_cache (user : Z) : M world (option (option ustr * option CurrentUser)) :=
  try_except
    (raw ← on_redis (redis_get (user_auth_cache_key user));
     mret (s ← raw; snapshot_load s))
    (fun _ => mret None).

Definition set_auth_cache_best_effort (user : Z) (s : ustr) (cu : CurrentUser) : M world unit :=
  best_effort (on_redis (redis_set (user_auth_cache_key user) (snapshot_dump s cu) false (Some USER_STATUS_CACHE_TTL_SECONDS)) ;; mret tt).

Definition ensure_jti_not_blacklisted (present : bool) (jti : ustr) : M world unit :=
  if negb present then mret tt
  else
    blacklisted ← try_except (o ← on_redis (redis_get (access_jti_blacklist_redis_key jti)); mret (bool_decide (is_Some o)))
                             (fun _ => mret false);
    if blacklisted : bool then raise UnauthorizedException else mret tt.

(** The database path after a cache miss. *)
Definition resolve_from_db (present : bool) (user : Z) : M world CurrentUser :=
  w ← get;
  match get_user_by_id user (w_db w) with
  | None => raise UnauthorizedException
  | Some u =>
      let s := status_str (status u) in
      let result := current_user_of user u in
      when present (set_auth_cache_best_effort user s result ;; set_user_status_cache_best_effort user s) ;;
      if is_active_value s then mret result else raise ForbiddenException
  end.

Definition resolve_access_token_user (present : bool) (token : ustr) : M world CurrentUser :=
  match verify_access_token token with
  | inl _ => raise UnauthorizedException
  | inr payload =>
      match cl_jti payload with
      | Some jti => if bool_decide (strip jti = []) then mret tt else ensure_jti_not_blacklisted present (strip jti)
      | None => mret tt
      end ;;
      match cl_sub payload with
      | None => raise UnauthorizedException
      | Some sub =>
          match jwt_sub_to_uuid sub with
          | inl _ => raise UnauthorizedException
          | inr user =>
              cached ← (if present then get_auth_cache user else mret None);
              match cached with
              | Some (Some s, cu) =>
                  if negb (is_active_value s) then raise ForbiddenException
                  else match cu with
                       | Some c => mret c
                       | None => resolve_from_db present user
                       end
              | _ => resolve_from_db present user
              end
          end
      end
  end.

(** The [Authorization] header. *)
Definition bearer_token (auth : option ustr) : option ustr :=
  match auth with
  | Some h =>
      if startswith (lit "Bearer ") h
      then (let t := strip (drop 7 h) in if bool_decide (t = []) then None else Some t)
      else None
  | None => None
  end.

Definition get_current_user (present : bool) (auth : option ustr) : M world CurrentUser :=
  match bearer_token auth with
  | None => raise UnauthorizedException
  | Some token => resolve_access_token_user present token
  end.

Definition get_current_user_optional (present : bool) (auth : option ustr) : M world (option CurrentUser) :=
  match bearer_token auth with
  | None => mret None
  | Some token =>
      try_except (cu ← resolve_access_token_user present token; mret (Some cu))
        (fun e => match e with
                  | UnauthorizedException | ForbiddenException => mret None
                  | _ => raise e
                  end)
  end.

Definition get_current_admin (present : bool) (auth : option ustr) : M world CurrentUser :=
  cu ← get_current_user present auth;
  if decide (cu_role cu = lit "ADMIN") then mret cu else raise ForbiddenException.

(** ** Account status ([AdminService]) *)

Definition set_user_status (present : bool) (now user : Z) (s : UserStatus) (revoke_refresh : bool) : M world unit :=
  on_db (begin_tx
    (d ← get;
     match get_user_by_id_including_deleted user d with
     | None => raise UserNotFoundException
     | Some u =>
         if bool_decide (user_deleted_at u <> None) || bool_decide (status u = WITHDRAWN) then raise UserWithdrawnException
         else update_user now user {| uf_nickname := None; uf_profile_image_id := None; uf_status := Some s |} ;; mret tt
     end)) ;;
  when revoke_refresh (revoke_refresh_for_user present user) ;;
  invalidate_user_status_cache present user.

Definition suspend_user (present : bool) (now user : Z) : M world unit := set_user_status present now user SUSPENDED true.
Definition activate_user (present : bool) (now user : Z) : M world unit := set_user_status present now user ACTIVE false.
End Auth.

(** ** Rotation as a transition system

    One user's refresh key, any number of devices, arbitrary interleaving of the
    server commands that touch it.  [rs_issued] are the digests ever handed out,
    [rs_accepted] those whose exchange was answered with success. *)

Section Rotation.
Context (key : ustr).

Record rot_state := { rs_data : gmap ustr rentry; rs_now : Z; rs_issued : list ustr; rs_accepted : list ustr }.

Inductive rot_step : rot_state -> rot_state -> Prop :=
  | rot_login s dg ttl b d :
      dg ∉ rs_issued s -> c_set key dg false (Some ttl) (rs_now s) (rs_data s) = (inr b, d) ->
      rot_step s {| rs_data := d; rs_now := rs_now s; rs_issued := dg :: rs_issued s; rs_accepted := rs_accepted s |}
  | rot_exchange s incoming dg ttl rc d :
      dg ∉ rs_issued s -> lua_refresh_rotate_cas key incoming dg ttl (rs_now s) (rs_data s) = (inr rc, d) ->
      rot_step s {| rs_data := d; rs_now := rs_now s; rs_issued := dg :: rs_issued s;
                    rs_accepted := if rc =? 1 then incoming :: rs_accepted s else rs_accepted s |}
  | rot_reply_lost s incoming dg ttl :
      dg ∉ rs_issued s ->
      rot_step s {| rs_data := (lua_refresh_rotate_cas key incoming dg ttl (rs_now s) (rs_data s)).2; rs_now := rs_now s;
                    rs_issued := dg :: rs_issued s; rs_accepted := rs_accepted s |}
  | rot_revoke s :
      rot_step s {| rs_data := (c_delete [key] (rs_now s) (rs_data s)).2; rs_now := rs_now s;
                    rs_issued := rs_issued s; rs_accepted := rs_accepted s |}
  | rot_other s d dt :
      0 <= dt -> d !! key = rs_data s !! key ->
      rot_step s {| rs_data := d; rs_now := rs_now s + dt; rs_issued := rs_issued s; rs_accepted := rs_accepted s |}.

Inductive rot_reachable : rot_state -> Prop :=
  | rot_init now d : d !! key = None ->
      rot_reachable {| rs_data := d; rs_now := now; rs_issued := []; rs_accepted := [] |}
  | rot_next s s' : rot_reachable s -> rot_step s s' -> rot_reachable s'.

(** The stored digest was issued and has not been exchanged yet. *)
Definition rot_inv (s : rot_state) : Prop :=
  NoDup (rs_accepted s) /\ (forall dg, dg ∈ rs_accepted s -> dg ∈ rs_issued s) /\
  forall e dg, rs_data s !! key = Some e -> r_val e = RStr dg -> dg ∈ rs_issued s /\ dg ∉ rs_accepted s.

(** What the script does: nothing, or replace the presented digest. *)
Lemma rotate_cas_cases incoming dg ttl now d rc d' :
  lua_refresh_rotate_cas key incoming dg ttl now d = (rc, d') ->
  (d' = d /\ rc <> inr 1) \/
  (rc = inr 1 /\ (exists e, d !! key = Some e /\ r_val e = RStr incoming) /\
   d' = <[key := {| r_val := RStr dg; r_exp := Some (now + ttl) |}]> d).
Proof.
  unfold lua_refresh_rotate_cas, live. destruct (d !! key) as [e|] eqn:Ed; [|intros [= <- <-]; by left].
  destruct (expired now e); [intros [= <- <-]; by left|]. destruct (r_val e) as [cur| |] eqn:Ev; [|intros [= <- <-]; by left..].
  destruct (decide (cur <> incoming)) as [|Heq]; [intros [= <- <-]; by left|]. destruct (ttl <=? 0); intros [= <- <-]; [by left|].
  right. split; [done|]. split; [|done]. exists e. split; [done|]. destruct (decide (cur = incoming)); [congruence|done].
Qed.

Lemma rot_inv_issue s dg : rot_inv s -> rot_inv {| rs_data := rs_data s; rs_now := rs_now s; rs_issued := dg :: rs_issued s; rs_accepted := rs_accepted s |}.
Proof.
  intros (H1 & H2 & H3). split; [done|]. cbn. split; [intros x Hx; apply list_elem_of_further, H2, Hx|].
  intros e x He Hx. destruct (H3 e x He Hx). split; [by apply list_elem_of_further|done].
Qed.

Lemma rot_step_inv s s' : rot_inv s -> rot_step s s' -> rot_inv s'.
Proof.
  intros Hi Hs. pose proof Hi as (H1 & H2 & H3). destruct Hs as [s dg ttl b d Hf E|s inc dg ttl rc d Hf E|s inc dg ttl Hf|s|s d dt Hdt Hk].
  - pose proof (rot_inv_issue s dg Hi) as Hi'. unfold c_set in E. destruct (ttl <=? 0); [done|]. cbn [andb] in E. injection E as _ <-.
    destruct Hi' as (K1 & K2 & _). split; [done|]. split; [done|]. cbn. intros e x He Hx. rewrite lookup_insert_eq in He.
    injection He as <-. injection Hx as <-. split; [apply list_elem_of_here|]. intros Hin. by apply Hf, H2.
  - destruct (rotate_cas_cases _ _ _ _ _ _ _ E) as [[-> Hrc]|(Hrc & (e & He & Hv) & ->)].
    + assert (rc =? 1 = false) as -> by (apply Z.eqb_neq; congruence). by apply rot_inv_issue.
    + injection Hrc as ->. cbn. destruct (H3 e inc He Hv) as [Hin Hna]. split; [by apply NoDup_cons|]. split.
      * intros x [->|Hx]%elem_of_cons; apply list_elem_of_further; [done|by apply H2].
      * cbn. intros e' x He' Hx. rewrite lookup_insert_eq in He'. injection He' as <-. injection Hx as <-.
        split; [apply list_elem_of_here|]. intros [->|Hx]%elem_of_cons; [done|]. by apply Hf, H2.
  - destruct (lua_refresh_rotate_cas key inc dg ttl (rs_now s) (rs_data s)) as [rc d] eqn:E. cbn [snd].
    destruct (rotate_cas_cases _ _ _ _ _ _ _ E) as [[-> Hrc]|(Hrc & (e & He & Hv) & ->)]; [by apply rot_inv_issue|].
    split; [done|]. cbn. split; [intros x Hx; apply list_elem_of_further, H2, Hx|]. intros e' x He' Hx.
    rewrite lookup_insert_eq in He'. injection He' as <-. injection Hx as <-. split; [apply list_elem_of_here|]. intros Hin. by apply Hf, H2.
  - split; [done|]. split; [done|]. cbn. intros e x He. by rewrite lookup_delete_eq in He.
  - split; [done|]. split; [done|]. cbn. intros e x He. rewrite Hk in He. by apply H3.
Qed.

Lemma rot_reachable_inv s : rot_reachable s -> rot_inv s.
Proof.
  induction 1 as [now d Hd|s s' _ IH Hs]; [|by eapply rot_step_inv]. split; [apply NoDup_nil; done|]. cbn. split; [done|].
  intros e x He. congruence.
Qed.
End Rotation.

(** ** Properties *)

(** C6. A refresh token is exchanged at most once: along every interleaving of
    logins, exchanges (also with lost replies), revocations and expiry, no digest
    is accepted twice and the stored one has not been accepted before, provided
    each new token has a digest not handed out before.  The exchanges are those
    of the atomic script; the sequential path after a failed script is not. *)
Theorem refresh_token_single_use (key : ustr) (s : rot_state) :
  rot_reachable key s ->
  NoDup (rs_accepted s) /\
  forall e dg, rs_data s !! key = Some e -> r_val e = RStr dg -> dg ∈ rs_issued s /\ dg ∉ rs_accepted s.
Proof. intros Hr. destruct (rot_reachable_inv key s Hr) as (H1 & _ & H3). by split. Qed.

(** ** A reachable Redis *)

Lemma best_effort_set_quiet k v ttl w : redis_up w -> 0 < ttl ->
  best_effort (on_redis (redis_set k v false (Some ttl)) ;; mret tt) w =
    (inr tt, with_data (<[k := {| r_val := RStr v; r_exp := Some (r_now (w_redis w) + ttl) |}]> (r_data (w_redis w))) w).
Proof.
  intros Hq Ht. unfold best_effort, try_except, redis_set. unfold mbind, M_bind. rewrite on_redis_quiet by done.
  unfold c_set. destruct (Z.leb_spec ttl 0); [lia|]. done.
Qed.

(** The keys of the four families never coincide. *)
Lemma user_keys_distinct i j :
  user_refresh_key i <> user_status_cache_key j /\ user_refresh_key i <> user_auth_cache_key j /\
  user_status_cache_key i <> user_auth_cache_key j.
Proof. split_and!; discriminate. Qed.

Lemma blacklist_key_distinct jti i : access_jti_blacklist_redis_key jti <> user_refresh_key i.
Proof. discriminate. Qed.

(** The refresh gate on a reachable Redis: it lets the user through or answers
    401, and writes at most the status cache. *)
Lemma ensure_user_may_refresh_quiet user w : redis_up w ->
  exists r w', ensure_user_may_refresh user w = (r, w') /\ (r = inr tt \/ r = inl UnauthorizedException) /\
    redis_up w' /\ r_now (w_redis w') = r_now (w_redis w) /\
    forall k, k <> user_status_cache_key user -> r_data (w_redis w') !! k = r_data (w_redis w) !! k.
Proof.
  intros Hq. unfold ensure_user_may_refresh. unfold mbind at 1, M_bind at 1. rewrite cache_get_quiet by done.
  destruct (cached_text _ w) as [s|].
  { destruct (is_active_value s); eexists _, w; (split; [reflexivity|]); auto. }
  unfold get. unfold mbind, M_bind. destruct (get_user_by_id user (w_db w)) as [u|]; [|eexists _, w; split; [reflexivity|]; auto].
  pose proof (best_effort_set_quiet (user_status_cache_key user) (status_str (status u)) USER_STATUS_CACHE_TTL_SECONDS w Hq) as Hb.
  unfold mbind, M_bind in Hb. rewrite Hb by done.
  destruct (is_active_value _); eexists _, _; (split; [reflexivity|]); (split; [auto|]); (split; [done|]); (split; [done|]);
    intros k Hk; cbn; by rewrite lookup_insert_ne.
Qed.

Lemma rotation_without_key key incoming fresh ttl w : redis_up w -> live (r_now (w_redis w)) (r_data (w_redis w)) key = None ->
  (on_redis (try_refresh_rotation_redis key incoming fresh ttl) w).1 = inr false.
Proof.
  intros Hq Hl. unfold redis_up in Hq. unfold on_redis, try_refresh_rotation_redis, try_except, redis_get, command, next_tick.
  unfold mbind, M_bind. destruct (ttl <=? 0); rewrite Hq; cbn; rewrite Z.add_0_r.
  - unfold c_get. by rewrite Hl.
  - unfold lua_refresh_rotate_cas. by rewrite Hl.
Qed.

Section AuthTheorems.
Context `{UnicodeDB}.
Context (jwt_decode : ustr -> option claims) (refresh_token_digest : ustr -> ustr).
Context (checkpw : ustr -> ustr -> bool) (pepper : ustr).
Context (snapshot_dump : ustr -> CurrentUser -> ustr) (snapshot_load : ustr -> option (option ustr * option CurrentUser)).

(** A token's user. *)
Definition token_of (kind token : ustr) (c : claims) (user : Z) : Prop :=
  verify_token jwt_decode kind token = inr c /\ exists s, cl_sub c = Some s /\ jwt_sub_to_uuid s = inr user.

(** With no digest alive, no refresh token of the user is exchanged. *)
Lemma refresh_digest_gone user w ttl token c new_refresh new_access :
  redis_up w -> live (r_now (w_redis w)) (r_data (w_redis w)) (user_refresh_key user) = None -> token_of (lit "refresh") token c user ->
  token <> [] ->
  (refresh_tokens jwt_decode refresh_token_digest true ttl token new_refresh new_access w).1 = inl UnauthorizedException.
Proof.
  intros Hq Hk (Hv & s & Hs & Hu) Hne. unfold refresh_tokens. destruct token as [|x token]; [done|].
  unfold verify_refresh_token. rewrite Hv, Hs. destruct s as [|y s]; [done|]. rewrite Hu. cbn [negb].
  destruct (ensure_user_may_refresh_quiet user w Hq) as (r & w1 & E & Hr & Hq1 & Hn & Hd).
  unfold mbind at 1, M_bind at 1. rewrite E. destruct Hr as [->| ->]; [|done].
  assert (live (r_now (w_redis w1)) (r_data (w_redis w1)) (user_refresh_key user) = None) as Hl.
  { rewrite Hn. unfold live in *. by rewrite (Hd (user_refresh_key user)) by apply user_keys_distinct. }
  unfold mbind at 1, M_bind at 1.
  pose proof (rotation_without_key (user_refresh_key user) (refresh_token_digest (x :: token)) (refresh_token_digest new_refresh) ttl w1 Hq1 Hl) as Hw.
  destruct (on_redis _ w1) as [[e|b] w2]; cbn in Hw; simplify_eq. done.
Qed.

Lemma refresh_without_digest user w ttl token c new_refresh new_access :
  redis_up w -> r_data (w_redis w) !! user_refresh_key user = None -> token_of (lit "refresh") token c user ->
  token <> [] ->
  (refresh_tokens jwt_decode refresh_token_digest true ttl token new_refresh new_access w).1 = inl UnauthorizedException.
Proof. intros Hq Hk. apply refresh_digest_gone; [done|]. unfold live. by rewrite Hk. Qed.

(** The unique live row with an address. *)
Lemma get_user_by_email_found mail k u d : users_unique d -> users d !! k = Some u -> user_deleted_at u = None ->
  lower mail = email u -> get_user_by_email mail d = (inr (Some (k, u)), d).
Proof.
  intros Huq Hu Hd Hm. unfold get_user_by_email. set (c := live_with _).
  assert ((k, u) ∈ select_where c d) as Hin.
  { apply select_where_elem. split; [done|]. unfold c, live_with. by rewrite !bool_decide_eq_true_2. }
  assert (forall p, p ∈ select_where c d -> p = (k, u)) as Hall.
  { intros [j v] [Hv Hc]%select_where_elem. unfold c, live_with in Hc. apply andb_true_iff in Hc as [Hc _].
    apply bool_decide_eq_true in Hc. assert (j = k) as -> by (eapply (Huq j k v u Hv Hu); left; congruence).
    f_equal. cbn in Hv. congruence. }
  pose proof (select_where_nodup c d) as Hnd. destruct (select_where c d) as [|p [|q l]].
  - by apply elem_of_nil in Hin.
  - f_equal. f_equal. f_equal. by apply Hall, list_elem_of_here.
  - exfalso. assert (p = (k, u)) as -> by (apply Hall, list_elem_of_here).
    assert (q = (k, u)) as -> by (apply Hall, list_elem_of_further, list_elem_of_here).
    cbn in Hnd. apply NoDup_cons in Hnd as [Hnd _]. apply Hnd, list_elem_of_here.
Qed.

(** The account row after a status change. *)
Definition with_status (now : Z) (s : UserStatus) (u : User) : User := u <| status := s |> <| user_updated_at := now |>.

Lemma set_status_db now k s u d : users_unique d -> users d !! k = Some u -> user_deleted_at u = None ->
  update_user now k {| uf_nickname := None; uf_profile_image_id := None; uf_status := Some s |} d =
    (inr true, d <| users := <[k := with_status now s u]> (users d) |>).
Proof.
  intros Huq Hu Hd. unfold update_user, update_live_user. cbn [uf_nickname uf_profile_image_id uf_status default]. rewrite Hu, decide_True by done.
  match goal with |- context [unique_error k ?u' d] => assert (unique_error k u' d = None) as -> end.
  { apply unique_error_none. intros k' v Hv Hk. cbn. split; intros Heq; apply Hk; eapply (Huq k' k v u Hv Hu); auto. }
  reflexivity.
Qed.

(** [_set_user_status] on a reachable Redis: the row, and the cached keys gone. *)
Lemma set_user_status_quiet now k s rv u w : redis_up w -> users_unique (w_db w) -> users (w_db w) !! k = Some u ->
  user_deleted_at u = None -> status u <> WITHDRAWN ->
  exists w', set_user_status true now k s rv w = (inr tt, w') /\ redis_up w' /\
    w_db w' = (w_db w <| users := <[k := with_status now s u]> (users (w_db w)) |>) /\
    r_now (w_redis w') = r_now (w_redis w) /\
    r_data (w_redis w') !! user_status_cache_key k = None /\ r_data (w_redis w') !! user_auth_cache_key k = None /\
    (rv = true -> r_data (w_redis w') !! user_refresh_key k = None).
Proof.
  intros Hq Huq Hu Hd Hs. unfold set_user_status, get_user_by_id_including_deleted. unfold mbind, M_bind.
  unfold on_db at 1, begin_tx, get at 1. rewrite Hu.
  rewrite !bool_decide_eq_false_2 by congruence. cbn [orb]. rewrite (set_status_db now k s u (w_db w)) by done. cbn [mret M_ret].
  set (w1 := w <| w_db := _ |>). assert (redis_up w1) as Hq1 by done.
  assert (exists w2, (if rv then revoke_refresh_for_user true k else mret tt) w1 = (inr tt, w2) /\ redis_up w2 /\ w_db w2 = w_db w1 /\
    r_now (w_redis w2) = r_now (w_redis w) /\ (rv = true -> r_data (w_redis w2) !! user_refresh_key k = None)) as (w2 & E2 & Hq2 & Hdb2 & Hn2 & Hk2).
  { destruct rv; [|by exists w1]. unfold revoke_refresh_for_user, when, redis_delete. rewrite on_redis_quiet by done.
    eexists. split; [reflexivity|]. split_and!; try done. intros _. cbn. apply lookup_delete_eq. }
  unfold when. rewrite E2. unfold invalidate_user_status_cache, best_effort, try_except, redis_delete. rewrite on_redis_quiet by done.
  cbn [c_delete fst snd foldr]. eexists. split; [reflexivity|]. split; [done|]. split; [exact Hdb2|]. split; [exact Hn2|].
  cbn [with_data w_redis over r_data]. split; [apply lookup_delete_eq|]. split.
  - rewrite lookup_delete_ne by discriminate. apply lookup_delete_eq.
  - intros Hrv. rewrite !lookup_delete_ne by discriminate. by apply Hk2.
Qed.

(** The logout entry of a token, as [ensure_jti_not_blacklisted] reads it. *)
Definition logged_out (c : claims) (w : world) : bool :=
  match cl_jti c with
  | Some jti => negb (bool_decide (strip jti = [])) && bool_decide (is_Some (cached_text (access_jti_blacklist_redis_key (strip jti)) w))
  | None => false
  end.

Lemma blacklist_check c w : redis_up w ->
  (match cl_jti c with
   | Some jti => if bool_decide (strip jti = []) then mret tt else ensure_jti_not_blacklisted true (strip jti)
   | None => mret tt
   end : M world unit) w = (if logged_out c w then inl UnauthorizedException else inr tt, w).
Proof.
  intros Hq. unfold logged_out. destruct (cl_jti c) as [jti|]; [|done]. case_bool_decide; [done|].
  unfold ensure_jti_not_blacklisted, try_except, redis_get, cached_text. cbn [negb andb]. unfold mbind, M_bind. rewrite on_redis_quiet by done.
  unfold c_get. destruct (live _ _ _) as [[]|]; cbn [fst snd]; by rewrite with_data_same.
Qed.

(** A token whose user has no cached snapshot is judged on the database row. *)
Lemma resolve_by_row token c k w : redis_up w -> token_of (lit "access") token c k ->
  live (r_now (w_redis w)) (r_data (w_redis w)) (user_auth_cache_key k) = None ->
  (resolve_access_token_user jwt_decode snapshot_dump snapshot_load true token w).1 =
    if logged_out c w then inl UnauthorizedException
    else match get_user_by_id k (w_db w) with
         | None => inl UnauthorizedException
         | Some u => if bool_decide (status u = ACTIVE) then inr (current_user_of k u) else inl ForbiddenException
         end.
Proof.
  intros Hq (Hv & s & Hs & Hk) Hc. unfold resolve_access_token_user, verify_access_token. rewrite Hv.
  unfold mbind at 1, M_bind at 1. rewrite blacklist_check by done. destruct (logged_out c w); [done|].
  rewrite Hs, Hk. unfold mbind at 1, M_bind at 1. unfold get_auth_cache, try_except, redis_get. unfold mbind at 1, M_bind at 1.
  rewrite on_redis_quiet by done. unfold c_get. rewrite Hc. cbn [fst snd mret M_ret mbind option_bind].
  rewrite with_data_same by done. unfold resolve_from_db, get. unfold mbind, M_bind.
  destruct (get_user_by_id k (w_db w)) as [u|]; [|done]. unfold when, set_auth_cache_best_effort, set_user_status_cache_best_effort.
  rewrite !best_effort_set_quiet by done. by destruct (status u).
Qed.

Lemma live_absent (k : ustr) w : r_data (w_redis w) !! k = None -> live (r_now (w_redis w)) (r_data (w_redis w)) k = None.
Proof. intros E. unfold live. by rewrite E. Qed.

(** C5. Suspension takes effect at once on a reachable Redis: for every live
    account not withdrawn the call succeeds and changes only that row's status;
    afterwards every access token of the user is refused (403, or 401 when
    blacklisted), no refresh token of the user is exchanged, and a login with the
    account's address is refused with 403 whatever the password, at any later
    time, whatever had been cached before.  The token check reads the replica
    ([get_slave_db]); here replica and primary are one database, without lag. *)
Theorem suspension_takes_effect (now k : Z) (u : User) (w : world) :
  redis_up w -> users_unique (w_db w) -> users (w_db w) !! k = Some u -> user_deleted_at u = None -> status u <> WITHDRAWN ->
  exists w', suspend_user true now k w = (inr tt, w') /\
    w_db w' = (w_db w <| users := <[k := with_status now SUSPENDED u]> (users (w_db w)) |>) /\
    (forall dt token c, token_of (lit "access") token c k ->
       exists e, (resolve_access_token_user jwt_decode snapshot_dump snapshot_load true token (later dt w')).1 = inl e /\
         (e = ForbiddenException \/ e = UnauthorizedException)) /\
    (forall dt ttl token c new_refresh new_access, token_of (lit "refresh") token c k -> token <> [] ->
       (refresh_tokens jwt_decode refresh_token_digest true ttl token new_refresh new_access (later dt w')).1 = inl UnauthorizedException) /\
    (forall dt ttl mail plain new_refresh new_access, lower mail = email u ->
       (login refresh_token_digest checkpw pepper true ttl mail plain new_refresh new_access (later dt w')).1 = inl ForbiddenException).
Proof.
  intros Hq Huq Hu Hd Hs. unfold suspend_user.
  destruct (set_user_status_quiet now k SUSPENDED true u w Hq Huq Hu Hd Hs) as (w' & E & Hq' & Hdb & Hn & Hks & Hka & Hkr).
  exists w'. split; [done|]. split; [done|].
  assert (users (w_db w') !! k = Some (with_status now SUSPENDED u)) as Hu' by (rewrite Hdb; apply lookup_insert_eq).
  split_and!.
  - intros dt token c Ht. rewrite (resolve_by_row token c k) by (try apply live_absent; done).
    unfold get_user_by_id. cbn [later w_db over]. rewrite Hu'. cbn [mbind option_bind]. rewrite decide_True by done.
    destruct (logged_out _ _); eexists; (split; [reflexivity|]); auto.
  - intros dt ttl token c nr na Ht Hne. eapply refresh_without_digest; [done| |done|done]. by apply Hkr.
  - intros dt ttl mail plain nr na Hm.
    assert (users_unique (w_db w')) as Huq'.
    { rewrite Hdb. apply users_unique_insert; [|done]. apply unique_error_none. intros k' v Hv Hk.
      cbn. split; intros Heq; apply Hk; eapply (Huq k' k v u Hv Hu); auto. }
    unfold login. unfold mbind at 1, M_bind at 1. unfold tx, on_db. unfold mbind at 1, M_bind at 1. cbn [later w_db over].
    rewrite (get_user_by_email_found mail k (with_status now SUSPENDED u) (w_db w')) by done. done.
Qed.

(** Logout ends the session on a reachable Redis: it succeeds, touches no
    row, and from then on the presented access token is refused for as long as
    the blacklist entry lives (the whole seconds left at logout), and, as long as
    no new login stores a digest, no refresh token of the user is exchanged. *)
Theorem logout_ends_session (user now_us : Z) (c : claims) (jti : ustr) (w : world) :
  redis_up w -> cl_jti c = Some jti -> strip jti <> [] -> 0 < remaining_ttl_seconds_from_access_payload now_us c ->
  exists w', logout true user now_us c w = (inr tt, w') /\ w_db w' = w_db w /\
    (forall dt token, 0 <= dt < remaining_ttl_seconds_from_access_payload now_us c ->
       verify_access_token jwt_decode token = inr c ->
       (resolve_access_token_user jwt_decode snapshot_dump snapshot_load true token (later dt w')).1 = inl UnauthorizedException) /\
    (forall dt ttl token c' new_refresh new_access, token_of (lit "refresh") token c' user -> token <> [] ->
       (refresh_tokens jwt_decode refresh_token_digest true ttl token new_refresh new_access (later dt w')).1 = inl UnauthorizedException).
Proof.
  intros Hq Hj Hne Ht. unfold logout. cbn [negb]. rewrite Hj. set (ttl := remaining_ttl_seconds_from_access_payload now_us c) in *.
  rewrite (proj2 (Z.ltb_lt 0 ttl)), bool_decide_eq_false_2 by done. cbn [andb negb when].
  unfold mbind, M_bind, redis_set, redis_delete. rewrite on_redis_quiet by done.
  unfold c_set at 1. rewrite (proj2 (Z.leb_gt ttl 0)) by done. cbn [andb fst snd mret M_ret].
  set (w1 := with_data _ w). rewrite (on_redis_quiet _ w1) by done. eexists. split; [reflexivity|]. split; [done|].
  set (w2 := with_data _ w1).
  assert (forall dt, redis_up (later dt w2)) as Hq2 by done. split.
  - intros dt token Hdt Hv. unfold resolve_access_token_user. rewrite Hv, Hj, bool_decide_eq_false_2 by done.
    unfold ensure_jti_not_blacklisted, try_except, redis_get. cbn [negb]. unfold mbind, M_bind. rewrite on_redis_quiet by done.
    unfold c_get, live.
    assert (r_data (w_redis (later dt w2)) !! access_jti_blacklist_redis_key (strip jti) =
      Some {| r_val := RStr (lit "logout"); r_exp := Some (r_now (w_redis w) + ttl) |}) as ->.
    { cbn [later w2 w1 with_data w_redis over r_data c_delete foldr snd]. rewrite lookup_delete_ne by discriminate.
      unfold c_set. rewrite (proj2 (Z.leb_gt ttl 0)) by done. apply lookup_insert_eq. }
    unfold expired. cbn [r_exp]. rewrite (proj2 (Z.leb_gt _ _)); [done|]. cbn. lia.
  - intros dt tl token c' nr na Htok Hn. eapply refresh_without_digest; [done| |done|done].
    cbn [later w2 w1 with_data w_redis over r_data c_delete foldr snd]. apply lookup_delete_eq.
Qed.
End AuthTheorems.

(** ** Two limits that disagree *)

(** A password the change form accepts passes the form of the login only up to
    20 characters, although the change form (and bcrypt) accept up to 128: after
    changing to a longer one the user can no longer log in. *)
Theorem long_password_refused_at_login (p : ustr) :
  validate_password_format_update p = true -> validate_password_format_auth p = (py_len p <=? 20).
Proof.
  unfold validate_password_format_update, validate_password_format_auth. intros [[-> _]%andb_true_iff ->]%andb_true_iff.
  by rewrite andb_true_r.
Qed.

Example long_password_accepted_by_change :
  let p := lit "correct-horse-battery-9!" in
  validate_password_format_update p = true /\ validate_password_format_auth p = false.
Proof. by vm_compute. Qed.

(** The blacklist entry of a logout lives for the whole seconds left, rounded
    down, so it can lapse before the token it names: here the token expires at
    second 100, the logout happens at 0.5 and the entry ends at 99.5. *)
Theorem blacklist_lapses_before_expiry :
  let c := {| cl_sub := None; cl_exp := Some 100; cl_jti := Some (lit "j"); cl_type := Some (lit "access") |} in
  let now_us := 500000 in
  now_us + remaining_ttl_seconds_from_access_payload now_us c * 1000000 < 100 * 1000000.
Proof. by vm_compute. Qed.

(** ** Witnesses *)

(** One login, one exchange of its token. *)
Definition rot_demo : rot_state :=
  {| rs_data := {[user_refresh_key 7 := {| r_val := RStr (lit "d2"); r_exp := Some 60 |}]}; rs_now := 0;
     rs_issued := [lit "d2"; lit "d1"]; rs_accepted := [lit "d1"] |}.

Lemma rot_demo_reachable : rot_reachable (user_refresh_key 7) rot_demo.
Proof.
  set (key := user_refresh_key 7).
  set (s0 := {| rs_data := ∅; rs_now := 0; rs_issued := []; rs_accepted := [] |}).
  set (d1 := {[key := {| r_val := RStr (lit "d1"); r_exp := Some 60 |}]} : gmap ustr rentry).
  set (s1 := {| rs_data := d1; rs_now := 0; rs_issued := [lit "d1"]; rs_accepted := [] |}).
  assert (rot_step key s0 s1) as H1.
  { refine (rot_login key s0 (lit "d1") 60 true d1 _ _); [apply not_elem_of_nil|reflexivity]. }
  assert (rot_step key s1 rot_demo) as H2.
  { refine (rot_exchange key s1 (lit "d1") (lit "d2") 60 1 _ _ _); [by apply (bool_decide_unpack _)|vm_compute; reflexivity]. }
  eapply rot_next, H2. eapply rot_next, H1. apply rot_init, lookup_empty.
Qed.

Lemma refresh_token_single_use_witness :
  NoDup (rs_accepted rot_demo) /\ lit "d2" ∉ rs_accepted rot_demo.
Proof.
  destruct (refresh_token_single_use (user_refresh_key 7) rot_demo rot_demo_reachable) as [H1 H2]. split; [exact H1|].
  refine (proj2 (H2 {| r_val := RStr (lit "d2"); r_exp := Some 60 |} (lit "d2") _ eq_refl)). vm_compute. reflexivity.
Defined.

(** Tokens "a" (access) and "r" (refresh) of user 7. *)
Definition demo_claims (kind : ustr) : claims :=
  {| cl_sub := Some (uuid_str 7); cl_exp := Some 100; cl_jti := Some (lit "j"); cl_type := Some kind |}.
Definition demo_jwt (t : ustr) : option claims :=
  if decide (t = lit "a") then Some (demo_claims (lit "access"))
  else if decide (t = lit "r") then Some (demo_claims (lit "refresh")) else None.
Definition demo_auth_world : world :=
  empty_world <| w_db := empty_db <| users := {[7 := demo_user]} |> |>.

Lemma demo_auth_unique : users_unique (w_db demo_auth_world).
Proof.
  intros k1 k2 u1 u2 H1 H2 _. cbn [demo_auth_world w_db users over] in H1, H2. apply lookup_singleton_Some in H1 as [<- _]. by apply lookup_singleton_Some in H2 as [<- _].
Qed.

Lemma demo_token_of kind t : demo_jwt t = Some (demo_claims kind) ->
  token_of (H := ascii_db) demo_jwt kind t (demo_claims kind) 7.
Proof.
  intros Ht. split.
  - unfold verify_token. rewrite Ht. cbn [cl_type demo_claims]. by rewrite decide_True.
  - exists (uuid_str 7). split; [done|]. vm_compute. reflexivity.
Qed.

Lemma suspension_takes_effect_witness :
  exists w', suspend_user true 5 7 demo_auth_world = (inr tt, w') /\
    (refresh_tokens (H := ascii_db) demo_jwt (fun t => t) true 60 (lit "r") (lit "n") (lit "m") (later 0 w')).1 = inl UnauthorizedException.
Proof.
  destruct (suspension_takes_effect (H := ascii_db) demo_jwt (fun t => t) (fun _ _ => true) [] (fun _ _ => []) (fun _ => None)
              5 7 demo_user demo_auth_world) as (w' & E & _ & _ & Hr & _).
  - reflexivity.
  - exact demo_auth_unique.
  - vm_compute. reflexivity.
  - reflexivity.
  - discriminate.
  - exists w'. split; [exact E|]. apply (Hr 0 60 (lit "r") (demo_claims (lit "refresh"))); [|discriminate].
    apply demo_token_of. vm_compute. reflexivity.
Defined.

Lemma logout_ends_session_witness :
  exists w', logout true 7 0 (demo_claims (lit "access")) demo_auth_world = (inr tt, w') /\
    (resolve_access_token_user (H := ascii_db) demo_jwt (fun _ _ => []) (fun _ => None) true (lit "a") (later 99 w')).1 = inl UnauthorizedException.
Proof.
  destruct (logout_ends_session (H := ascii_db) demo_jwt (fun t => t) (fun _ _ => []) (fun _ => None)
              7 0 (demo_claims (lit "access")) (lit "j") demo_auth_world) as (w' & E & _ & Ha & _).
  - reflexivity.
  - reflexivity.
  - discriminate.
  - vm_compute. reflexivity.
  - exists w'. split; [exact E|]. apply (Ha 99 (lit "a")); [vm_compute; split; congruence|]. vm_compute. reflexivity.
Defined.
