(* ===== verification/Idempotency.v ===== *)
(** * Idempotent post creation ([posts/idempotency.py], [POST /posts])

    A client may send [X-Idempotency-Key]; the result of a successful creation is
    kept in Redis and replayed, and an in-flight lock refuses a second request
    with the same key while the first is running.  Redis trouble never blocks a
    creation.  SHA-256 and the JSON form of the response are libraries. *)

From S2P Require Import Prelude Ids Common Redis Db World Media Posts.

Definition IDEMP_KEY_MIN : Z := 8.
Definition IDEMP_KEY_MAX : Z := 128.

(** [None]: no key sent, or a blank one. *)
Definition normalize_idempotency_key (raw : option ustr) : exn + option ustr :=
  match raw with
  | None => inr None
  | Some r =>
      let s := strip r in
      if bool_decide (s = []) then inr None
      else if (py_len s <? IDEMP_KEY_MIN) || (IDEMP_KEY_MAX <? py_len s) then inl InvalidRequestException
      else inr (Some s)
  end.

Definition result_redis_key (fp : ustr) : ustr := lit "idemp:post:create:res:" ++ fp.
Definition lock_redis_key (fp : ustr) : ustr := lit "idemp:post:create:lock:" ++ fp.

Record IdempotencyHandle := { ih_fingerprint : ustr; ih_lock_token : option ustr }.

(** [ApiResponse[PostIdData]]: the new post and the id of the answered request. *)
Record created_response := { cr_post_id : Z; cr_request_id : ustr }.

(** What the fail-open block of the before hook ends with. *)
Inductive before_outcome := Replayed (r : created_response) | LockAnswer (o : option ustr) | RedisFailed.

(** The settings and what a request brings. *)
Record idemp_settings := { IDEMPOTENCY_POST_CREATE_TTL_SECONDS : Z; IDEMPOTENCY_POST_CREATE_LOCK_TTL_SECONDS : Z }.

Section Idempotency.
Context `{UnicodeDB}.
Context (sha256_hex : ustr -> ustr) (dump_json : created_response -> ustr) (validate_json : ustr -> option created_response).
Context (cfg : idemp_settings) (present : bool).

Definition idempotency_fingerprint (user : Z) (norm : ustr) : ustr := sha256_hex (uuid_str user ++ lit ":" ++ norm).

Definition merge_request_id (request_id : ustr) (r : created_response) : created_response :=
  {| cr_post_id := cr_post_id r; cr_request_id := request_id |}.

(** The two round trips of the before hook. *)
Definition read_result (fp request_id : ustr) : M world (option created_response) :=
  payload ← on_redis (redis_get (result_redis_key fp));
  mret (match payload with
        | Some (c :: s) => merge_request_id request_id <$> validate_json (c :: s)
        | _ => None
        end).
Definition take_lock (fp token : ustr) : M world (option ustr) :=
  on_redis (try_acquire_lock (lock_redis_key fp) (IDEMPOTENCY_POST_CREATE_LOCK_TTL_SECONDS cfg) token).

(** [token] is what [new_lock_token] drew. *)
Definition post_create_idempotency_before (user : Z) (raw_key : option ustr) (request_id token : ustr)
  : M world (option created_response * option IdempotencyHandle) :=
  match normalize_idempotency_key raw_key with
  | inl e => raise e
  | inr None => mret (None, None)
  | inr (Some norm) =>
      let fp := idempotency_fingerprint user norm in
      if negb present then mret (None, Some {| ih_fingerprint := fp; ih_lock_token := None |})
      else
        out ← try_except
                (cached ← read_result fp request_id;
                 match cached with
                 | Some r => mret (Replayed r)
                 | None => o ← take_lock fp token; mret (LockAnswer o)
                 end)
                (fun _ => mret RedisFailed);
        match out with
        | Replayed r => mret (Some r, Some {| ih_fingerprint := fp; ih_lock_token := None |})
        | RedisFailed => mret (None, Some {| ih_fingerprint := fp; ih_lock_token := Some token |})
        | LockAnswer None => raise ConcurrentUpdateException
        | LockAnswer (Some _) => mret (None, Some {| ih_fingerprint := fp; ih_lock_token := Some token |})
        end
  end.

Definition store_success_result (fp : ustr) (r : created_response) : M world unit :=
  try_except
    (on_redis (redis_set (result_redis_key fp) (dump_json r) false (Some (IDEMPOTENCY_POST_CREATE_TTL_SECONDS cfg))) ;; mret tt)
    (fun _ => mret tt).

Definition release_if_held (h : IdempotencyHandle) : M world unit :=
  match ih_lock_token h with
  | None => mret tt
  | Some token => on_redis (release_lock (lock_redis_key (ih_fingerprint h)) token)
  end.

(** [asyncio.gather] of storing and releasing: which comes first is open. *)
Definition post_create_idempotency_after_success (store_first : bool) (h : option IdempotencyHandle) (r : created_response)
  : M world unit :=
  match h with
  | None => mret tt
  | Some h =>
      if negb present then mret tt
      else if store_first then store_success_result (ih_fingerprint h) r ;; release_if_held h
           else release_if_held h ;; store_success_result (ih_fingerprint h) r
  end.

Definition post_create_idempotency_after_failure (h : option IdempotencyHandle) : M world unit :=
  match h with
  | None => mret tt
  | Some h => if negb present then mret tt else release_if_held h
  end.

(** A request to [POST /posts] with the values drawn while it is served. *)
Record create_request := {
  rq_user : Z; rq_key : option ustr; rq_data : PostCreateRequest; rq_request_id : ustr;
  rq_now : Z; rq_new_id : Z; rq_token : ustr; rq_store_first : bool;
}.

Definition create_post_handler (q : create_request) : M world created_response :=
  '(cached, idemp) ← post_create_idempotency_before (rq_user q) (rq_key q) (rq_request_id q) (rq_token q);
  match cached with
  | Some r => mret r
  | None =>
      try_except
        (post_id ← create_post (rq_now q) (rq_new_id q) (rq_user q) (rq_data q);
         let out := {| cr_post_id := post_id; cr_request_id := rq_request_id q |} in
         post_create_idempotency_after_success (rq_store_first q) idemp out ;;
         mret out)
        (fun e => post_create_idempotency_after_failure idemp ;; raise e)
  end.
End Idempotency.

(** ** Computations that do not look at Redis *)

Lemma category_exists_blind c : redis_blind (category_exists c).
Proof.
  intros w r. unfold category_exists. cbn [w_category_cache w_clock w_db over].
  destruct (match w_category_cache w with Some _ => _ | None => false end); [done|]. by destruct (decide _).
Qed.
#[export] Hint Resolve category_exists_blind : blind.

Lemma create_post_blind `{UnicodeDB} now new_id user data : redis_blind (create_post now new_id user data).
Proof.
  unfold create_post, validate_refs. apply blind_tx, blind_bind; [|intros ?; apply blind_on_db].
  apply blind_bind.
  - destruct (cr_category data); [|apply blind_ret]. apply blind_bind; [apply category_exists_blind|]. intros []; auto with blind.
  - intros _. destruct (image_ids_of _); auto with blind.
Qed.

(** ** The promise: a memo of successful creations

    What the mechanism stands for: a table from (user, key) to the first
    successful response and the time until which it answers for the key. *)

Record memo_entry := { me_response : created_response; me_until : Z }.

Record memo_state := { ms_world : world; ms_now : Z; ms_memo : gmap (Z * ustr) memo_entry }.

Inductive event := Request (q : create_request) | Wait (dt : Z).

Section Memo.
Context `{UnicodeDB} (cfg : idemp_settings).

Definition run_creation (q : create_request) (remember : memo_entry -> gmap (Z * ustr) memo_entry -> gmap (Z * ustr) memo_entry)
    (s : memo_state) : (exn + created_response) * memo_state :=
  match create_post (rq_now q) (rq_new_id q) (rq_user q) (rq_data q) (ms_world s) with
  | (inl e, v) => (inl e, {| ms_world := v; ms_now := ms_now s; ms_memo := ms_memo s |})
  | (inr i, v) =>
      let out := {| cr_post_id := i; cr_request_id := rq_request_id q |} in
      (inr out, {| ms_world := v; ms_now := ms_now s;
         ms_memo := remember {| me_response := out; me_until := ms_now s + IDEMPOTENCY_POST_CREATE_TTL_SECONDS cfg |} (ms_memo s) |})
  end.

Definition memo_create (q : create_request) (s : memo_state) : (exn + created_response) * memo_state :=
  match normalize_idempotency_key (rq_key q) with
  | inl e => (inl e, s)
  | inr None => run_creation q (fun _ m => m) s
  | inr (Some k) =>
      match ms_memo s !! (rq_user q, k) with
      | Some e => if ms_now s <? me_until e then (inr (merge_request_id (rq_request_id q) (me_response e)), s)
                  else run_creation q (fun e => <[(rq_user q, k) := e]>) s
      | None => run_creation q (fun e => <[(rq_user q, k) := e]>) s
      end
  end.

Definition memo_event (ev : event) (s : memo_state) : list (exn + created_response) * memo_state :=
  match ev with
  | Request q => let '(r, s') := memo_create q s in ([r], s')
  | Wait dt => ([], {| ms_world := ms_world s; ms_now := ms_now s + dt; ms_memo := ms_memo s |})
  end.
End Memo.

Fixpoint run_events {S : Type} (step : event -> S -> list (exn + created_response) * S) (evs : list event) (s : S)
  : list (exn + created_response) * S :=
  match evs with
  | [] => ([], s)
  | ev :: evs' => let '(o, s1) := step ev s in let '(os, s2) := run_events step evs' s1 in (o ++ os, s2)
  end.

Lemma result_lock_distinct fp fp' : result_redis_key fp <> lock_redis_key fp'.
Proof. discriminate. Qed.
Lemma result_key_inj fp fp' : result_redis_key fp = result_redis_key fp' -> fp = fp'.
Proof. apply app_inv_head. Qed.

Lemma uuid_str_length n : length (uuid_str n) = 36%nat.
Proof.
  unfold uuid_str. rewrite !length_app, !length_take, !length_drop, !hex_digits_length. reflexivity.
Qed.

Section Refinement.
Context `{UnicodeDB}.
Context (sha256_hex : ustr -> ustr) (dump_json : created_response -> ustr) (validate_json : ustr -> option created_response).
Context (cfg : idemp_settings).
(** SHA-256 has no collisions on the keys in use; a response survives its JSON. *)
Context (sha_inj : forall x y, sha256_hex x = sha256_hex y -> x = y).
Context (json_roundtrip : forall r, validate_json (dump_json r) = Some r) (json_nonempty : forall r, dump_json r <> []).
Context (ttl_pos : 0 < IDEMPOTENCY_POST_CREATE_TTL_SECONDS cfg) (lock_ttl_pos : 0 < IDEMPOTENCY_POST_CREATE_LOCK_TTL_SECONDS cfg).

Local Abbreviation fp := (idempotency_fingerprint sha256_hex).

Lemma fingerprint_inj u k u' k' : uuid_ok u -> uuid_ok u' -> fp u k = fp u' k' -> u = u' /\ k = k'.
Proof.
  intros Hu Hu' E. apply sha_inj in E. apply app_inj_1 in E as [E1 E2]; [|by rewrite !uuid_str_length].
  apply app_inv_head in E2. split; [by apply uuid_str_inj|done].
Qed.

Definition handler_event (ev : event) (w : world) : list (exn + created_response) * world :=
  match ev with
  | Request q => let '(r, w') := create_post_handler sha256_hex dump_json validate_json cfg true q w in ([r], w')
  | Wait dt => ([], later dt w)
  end.

Definition stored (e : memo_entry) : rentry := {| r_val := RStr (dump_json (me_response e)); r_exp := Some (me_until e) |}.

(** Redis holds exactly the memo, and no lock. *)
Definition refines (w : world) (s : memo_state) : Prop :=
  exists d l, w = redis_at (ms_world s) d (ms_now s) l /\
    (forall f, d !! lock_redis_key f = None) /\
    (forall u k, uuid_ok u -> d !! result_redis_key (fp u k) = stored <$> ms_memo s !! (u, k)).

Lemma read_result_with f rid v d now l e : d !! result_redis_key f = stored <$> e ->
  read_result validate_json f rid (redis_at v d now l) =
    (inr (match e with
          | Some e => if now <? me_until e then Some (merge_request_id rid (me_response e)) else None
          | None => None
          end), redis_at v d now l).
Proof.
  intros Hd. unfold read_result, redis_get. unfold mbind, M_bind. rewrite on_redis_at. unfold c_get, live. rewrite Hd.
  destruct e as [e|]; [|done]. cbn [fmap option_fmap option_map]. unfold expired, stored. cbn [r_exp r_val].
  destruct (Z.leb_spec (me_until e) now), (Z.ltb_spec now (me_until e)); try lia; [done|]. cbn [fst snd].
  destruct (dump_json (me_response e)) as [|c t] eqn:E; [by apply json_nonempty in E|].
  cbn [mret M_ret]. by rewrite <-E, json_roundtrip.
Qed.

Lemma take_lock_with f token v d now l : live now d (lock_redis_key f) = None ->
  take_lock cfg f token (redis_at v d now l) =
    (inr (Some token), redis_at v (<[lock_redis_key f := {| r_val := RStr token;
       r_exp := Some (now + IDEMPOTENCY_POST_CREATE_LOCK_TTL_SECONDS cfg) |}]> d) now l).
Proof.
  intros Hd. unfold take_lock, try_acquire_lock, redis_set. rewrite on_redis_bind. unfold mbind, M_bind. rewrite on_redis_at.
  unfold c_set. by rewrite Hd, (proj2 (Z.leb_gt _ _)) by done.
Qed.

(** Both orders of the after hook end in the same key space. *)
Lemma after_success_with sf f token t out v d now l :
  d !! lock_redis_key f = Some {| r_val := RStr token; r_exp := Some t |} -> now < t ->
  exists l', post_create_idempotency_after_success dump_json cfg true sf (Some {| ih_fingerprint := f; ih_lock_token := Some token |}) out
      (redis_at v d now l) =
    (inr tt, redis_at v (<[result_redis_key f := {| r_val := RStr (dump_json out);
       r_exp := Some (now + IDEMPOTENCY_POST_CREATE_TTL_SECONDS cfg) |}]> (delete (lock_redis_key f) d)) now l').
Proof.
  intros Hd Ht. unfold post_create_idempotency_after_success. cbn [negb ih_fingerprint].
  assert (forall d l, store_success_result dump_json cfg f out (redis_at v d now l) =
    (inr tt, redis_at v (<[result_redis_key f := {| r_val := RStr (dump_json out);
       r_exp := Some (now + IDEMPOTENCY_POST_CREATE_TTL_SECONDS cfg) |}]> d) now l)) as Hs.
  { intros d0 l0. unfold store_success_result, try_except, redis_set. unfold mbind, M_bind. rewrite on_redis_at.
    unfold c_set. by rewrite (proj2 (Z.leb_gt _ _)) by done. }
  unfold release_if_held. cbn [ih_lock_token ih_fingerprint]. unfold mbind, M_bind. destruct sf.
  - rewrite Hs. match goal with |- context [redis_at v ?d1 now l] => destruct (release_with (lock_redis_key f) token t v d1 now l) as (l' & ->) end.
    + rewrite lookup_insert_ne by discriminate. done.
    + done.
    + exists l'. by rewrite delete_insert_ne by discriminate.
  - destruct (release_with (lock_redis_key f) token t v d now l Hd Ht) as (l' & ->). exists l'. by rewrite Hs.
Qed.

(** Creation inside the handler, once the lock is taken, against the memo. *)
Lemma creation_refines q k s d l : uuid_ok (rq_user q) ->
  (forall f, d !! lock_redis_key f = None) ->
  (forall u k, uuid_ok u -> d !! result_redis_key (fp u k) = stored <$> ms_memo s !! (u, k)) ->
  let f := fp (rq_user q) k in
  let locked := <[lock_redis_key f := {| r_val := RStr (rq_token q);
                    r_exp := Some (ms_now s + IDEMPOTENCY_POST_CREATE_LOCK_TTL_SECONDS cfg) |}]> d in
  let h := Some {| ih_fingerprint := f; ih_lock_token := Some (rq_token q) |} in
  let '(r, w') := try_except
        (post_id ← create_post (rq_now q) (rq_new_id q) (rq_user q) (rq_data q);
         let out := {| cr_post_id := post_id; cr_request_id := rq_request_id q |} in
         post_create_idempotency_after_success dump_json cfg true (rq_store_first q) h out ;; mret out)
        (fun e => post_create_idempotency_after_failure true h ;; raise e) (redis_at (ms_world s) locked (ms_now s) l) in
  let '(r', s') := run_creation cfg q (fun e => <[(rq_user q, k) := e]>) s in
  r = r' /\ refines w' s'.
Proof.
  intros Hu Hl Hr f locked h.
  assert (locked !! lock_redis_key f = Some {| r_val := RStr (rq_token q);
    r_exp := Some (ms_now s + IDEMPOTENCY_POST_CREATE_LOCK_TTL_SECONDS cfg) |}) as Hk by apply lookup_insert_eq.
  assert (delete (lock_redis_key f) locked = d) as Hdel by (apply delete_insert_id, Hl).
  unfold try_except, run_creation. unfold mbind at 1, M_bind at 1. rewrite (blind_with _ _ _ _ _ (create_post_blind _ _ _ _)).
  destruct (create_post _ _ _ _ (ms_world s)) as [[e|i] v]; cbn [fst snd].
  - unfold post_create_idempotency_after_failure, h, release_if_held. cbn [negb ih_lock_token ih_fingerprint]. unfold mbind, M_bind.
    destruct (release_with (lock_redis_key f) (rq_token q) _ v locked (ms_now s) l Hk) as (l' & ->); [lia|]. rewrite Hdel.
    split; [done|]. exists d, l'. done.
  - cbv zeta. set (out := {| cr_post_id := i; cr_request_id := rq_request_id q |}).
    destruct (after_success_with (rq_store_first q) f (rq_token q) _ out v locked (ms_now s) l Hk) as (l' & E); [lia|].
    unfold mbind, M_bind, h. rewrite E, Hdel. cbn [mret M_ret]. split; [done|].
    eexists _, l'. split; [reflexivity|]. cbn [ms_memo]. split.
    + intros f'. by rewrite lookup_insert_ne by discriminate.
    + intros u k' Hu'. destruct (decide ((u, k') = (rq_user q, k))) as [[= -> ->]|Hne].
      * by rewrite !lookup_insert_eq.
      * rewrite lookup_insert_ne, (lookup_insert_ne (ms_memo s)) by (try congruence; intros E'%result_key_inj%fingerprint_inj; naive_solver).
        by apply Hr.
Qed.

Lemma handler_refines q w s : uuid_ok (rq_user q) -> refines w s ->
  let '(r, w') := create_post_handler sha256_hex dump_json validate_json cfg true q w in
  let '(r', s') := memo_create cfg q s in r = r' /\ refines w' s'.
Proof.
  intros Hok (d & l & -> & Hl & Hr). unfold create_post_handler, memo_create.
  unfold mbind at 1, M_bind at 1. unfold post_create_idempotency_before.
  destruct (normalize_idempotency_key (rq_key q)) as [e|[k|]].
  - split; [done|]. by exists d, l.
  - cbn [negb]. unfold mbind at 1, M_bind at 1. unfold try_except at 1. unfold mbind at 1, M_bind at 1.
    rewrite (read_result_with _ _ _ _ _ _ (ms_memo s !! (rq_user q, k))) by (by apply Hr).
    pose proof (creation_refines q k s d l Hok Hl Hr) as Hc.
    destruct (ms_memo s !! (rq_user q, k)) as [e|] eqn:Em; [destruct (ms_now s <? me_until e)|].
    + split; [done|]. by exists d, l.
    + unfold mbind at 1, M_bind at 1. rewrite take_lock_with by (unfold live; by rewrite Hl). exact Hc.
    + unfold mbind at 1, M_bind at 1. rewrite take_lock_with by (unfold live; by rewrite Hl). exact Hc.
  - cbn [mret M_ret]. unfold try_except, run_creation. unfold mbind at 1, M_bind at 1. rewrite (blind_with _ _ _ _ _ (create_post_blind _ _ _ _)).
    destruct (create_post _ _ _ _ (ms_world s)) as [[e|i] v]; cbn; (split; [done|]); by exists d, l.
Qed.

Lemma event_refines ev w s : (forall q, ev = Request q -> uuid_ok (rq_user q)) -> refines w s ->
  (handler_event ev w).1 = (memo_event cfg ev s).1 /\ refines (handler_event ev w).2 (memo_event cfg ev s).2.
Proof.
  intros Hok Href. destruct ev as [q|dt].
  - pose proof (handler_refines q w s (Hok q eq_refl) Href) as Hh. unfold handler_event, memo_event.
    destruct (create_post_handler _ _ _ _ _ _ _) as [r w'], (memo_create _ _ _) as [r' s']. by destruct Hh as [-> ?].
  - destruct Href as (d & l & -> & Hl & Hr). split; [done|]. by exists d, l.
Qed.

(** C7. Post creation with idempotency keys implements the memo: on a reachable
    Redis, for every sequence of requests (any users, keys, payloads, and either
    order of the after hook) and waits, the answers are those of a table that
    remembers, per user and key, the first successful response for its lifetime:
    a repeated key creates nothing and replays that response with the caller's
    request id, a failed creation is not remembered, another user's equal key is
    independent, and no lock stays behind. *)
Theorem idempotent_creation_refines_memo (evs : list event) (w : world) (s : memo_state) :
  (forall q, Request q ∈ evs -> uuid_ok (rq_user q)) -> refines w s ->
  let '(outs, w') := run_events handler_event evs w in
  let '(outs', s') := run_events (memo_event cfg) evs s in
  outs = outs' /\ refines w' s' /\ w_db w' = w_db (ms_world s').
Proof.
  revert w s. induction evs as [|ev evs IH]; intros w s Hok Href; cbn [run_events].
  - split; [done|]. split; [done|]. by destruct Href as (d & l & -> & _).
  - destruct (event_refines ev w s) as [Ho Hr]; [intros q ->; apply Hok, list_elem_of_here|done|].
    destruct (handler_event ev w) as [o w1], (memo_event cfg ev s) as [o' s1]. cbn [fst snd] in *. subst o'.
    specialize (IH w1 s1). destruct (run_events handler_event evs w1) as [os w2], (run_events (memo_event cfg) evs s1) as [os' s2].
    destruct IH as (-> & Hr2 & Hdb); [|done|by split].
    intros q Hq. by apply Hok, list_elem_of_further.
Qed.

Definition advance (dt : Z) (s : memo_state) : memo_state :=
  {| ms_world := ms_world s; ms_now := ms_now s + dt; ms_memo := ms_memo s |}.

(** A creation that dies without its after hook does not block the key for
    ever: on a reachable Redis, after a request took the in-flight lock and
    vanished, the same user's requests with that key are refused with 409, and
    change nothing, exactly until the lock's lifetime is over; from then on the
    next one is served as if the first had never been made. *)
Theorem crashed_creation_unblocks (q q' : create_request) (k : ustr) (w : world) (s : memo_state) (dt : Z) :
  refines w s -> uuid_ok (rq_user q) -> rq_user q' = rq_user q -> ms_memo s !! (rq_user q, k) = None ->
  normalize_idempotency_key (rq_key q) = inr (Some k) -> normalize_idempotency_key (rq_key q') = inr (Some k) ->
  exists h w1, post_create_idempotency_before sha256_hex validate_json cfg true (rq_user q) (rq_key q) (rq_request_id q) (rq_token q) w =
      (inr (None, h), w1) /\
    (dt < IDEMPOTENCY_POST_CREATE_LOCK_TTL_SECONDS cfg ->
       create_post_handler sha256_hex dump_json validate_json cfg true q' (later dt w1) = (inl ConcurrentUpdateException, later dt w1)) /\
    (IDEMPOTENCY_POST_CREATE_LOCK_TTL_SECONDS cfg <= dt ->
       let '(r, w2) := create_post_handler sha256_hex dump_json validate_json cfg true q' (later dt w1) in
       let '(r', s2) := memo_create cfg q' (advance dt s) in r = r' /\ refines w2 s2).
Proof.
  intros (d & l & -> & Hl & Hr) Hu Hsame Hm Hk Hk'. set (f := fp (rq_user q) k).
  assert (d !! result_redis_key f = None) as Hres by (unfold f; rewrite (Hr _ _ Hu); by rewrite Hm).
  set (e1 := {| r_val := RStr (rq_token q); r_exp := Some (ms_now s + IDEMPOTENCY_POST_CREATE_LOCK_TTL_SECONDS cfg) |}).
  set (d1 := <[lock_redis_key f := e1]> d).
  assert (forall n rid, read_result validate_json f rid (redis_at (ms_world s) d1 n l) = (inr None, redis_at (ms_world s) d1 n l)) as Hread.
  { intros n rid. apply (read_result_with f rid _ _ _ _ None). unfold d1. by rewrite lookup_insert_ne by discriminate. }
  exists (Some {| ih_fingerprint := f; ih_lock_token := Some (rq_token q) |}), (redis_at (ms_world s) d1 (ms_now s) l). split; [|split].
  - unfold post_create_idempotency_before. rewrite Hk. cbn [negb]. unfold mbind at 1, M_bind at 1. unfold try_except. unfold mbind at 1, M_bind at 1.
    fold f. rewrite (read_result_with f _ _ _ _ _ None) by done.
    unfold mbind, M_bind. rewrite take_lock_with by (unfold live; by rewrite Hl). done.
  - intros Hdt. change (later dt _) with (redis_at (ms_world s) d1 (ms_now s + dt) l).
    unfold create_post_handler, post_create_idempotency_before. rewrite Hk', Hsame. cbn [negb]. fold f. unfold mbind at 1, M_bind at 1.
    unfold mbind at 1, M_bind at 1. unfold try_except at 1. unfold mbind at 1, M_bind at 1. rewrite Hread.
    unfold mbind at 1, M_bind at 1. unfold take_lock, try_acquire_lock, redis_set. rewrite on_redis_bind. unfold mbind at 1, M_bind at 1.
    rewrite on_redis_at. unfold c_set. rewrite (proj2 (Z.leb_gt _ _)) by done.
    assert (live (ms_now s + dt) d1 (lock_redis_key f) = Some (r_val e1)) as ->; [|done].
    unfold live, d1. rewrite lookup_insert_eq. unfold expired. cbn [e1 r_exp]. by rewrite (proj2 (Z.leb_gt _ _)) by lia.
  - intros Hdt. change (later dt _) with (redis_at (ms_world s) d1 (ms_now s + dt) l).
    pose proof (creation_refines q' k (advance dt s) d l) as Hc. rewrite Hsame in Hc. specialize (Hc Hu Hl Hr). fold f in Hc.
    unfold create_post_handler, post_create_idempotency_before, memo_create. rewrite Hk', Hsame. cbn [negb advance ms_memo]. rewrite Hm.
    fold f. unfold mbind at 1, M_bind at 1.
    unfold mbind at 1, M_bind at 1. unfold try_except at 1. unfold mbind at 1, M_bind at 1. rewrite Hread.
    unfold mbind at 1, M_bind at 1. rewrite take_lock_with.
    + cbn [mret M_ret]. unfold d1. rewrite insert_insert_eq. exact Hc.
    + unfold live, d1. rewrite lookup_insert_eq. unfold expired. cbn [e1 r_exp]. by rewrite (proj2 (Z.leb_le _ _)) by lia.
Qed.
End Refinement.

(** ** Any Redis *)

Section FailOpen.
Context `{UnicodeDB}.
Context (sha256_hex : ustr -> ustr) (dump_json : created_response -> ustr) (validate_json : ustr -> option created_response).
Context (cfg : idemp_settings) (present : bool).

(** Hooks change nothing but Redis. *)
Lemma before_only user raw rid token w :
  only_redis w (post_create_idempotency_before sha256_hex validate_json cfg present user raw rid token w).2.
Proof.
  unfold post_create_idempotency_before. destruct (normalize_idempotency_key raw) as [e|[k|]]; try apply only_redis_refl.
  destruct present; cbn [negb]; [|apply only_redis_refl]. unfold try_except, read_result. unfold mbind, M_bind.
  pose proof (on_redis_only (redis_get (result_redis_key (idempotency_fingerprint sha256_hex user k))) w) as H1.
  destruct (on_redis _ w) as [[e|o] w1]; cbn [fst snd mret M_ret] in *; [done|].
  match goal with |- context [match ?x with Some r => _ | None => _ end] => destruct x as [r|] end; [done|].
  unfold take_lock. pose proof (on_redis_only (try_acquire_lock (lock_redis_key (idempotency_fingerprint sha256_hex user k))
    (IDEMPOTENCY_POST_CREATE_LOCK_TTL_SECONDS cfg) token) w1) as H2.
  destruct (on_redis _ w1) as [[e|[t|]] w2]; cbn [fst snd] in *; by eapply only_redis_trans.
Qed.

Lemma release_if_held_ok h w : exists w', release_if_held h w = (inr tt, w') /\ only_redis w w'.
Proof.
  unfold release_if_held. destruct (ih_lock_token h) as [t|]; [|exists w; split; [done|apply only_redis_refl]].
  pose proof (on_redis_only (release_lock (lock_redis_key (ih_fingerprint h)) t) w) as H1. unfold on_redis in *.
  pose proof (release_lock_total (lock_redis_key (ih_fingerprint h)) t (w_redis w)) as H2.
  destruct (release_lock _ _ _) as [x r]. cbn [fst snd] in *. subst x. by eexists.
Qed.

Lemma store_result_ok f r w : exists w', store_success_result dump_json cfg f r w = (inr tt, w') /\ only_redis w w'.
Proof.
  unfold store_success_result, try_except. unfold mbind, M_bind.
  match goal with |- context [on_redis ?m w] => pose proof (on_redis_only m w) as H1; destruct (on_redis m w) as [[e|b] w1] end;
    cbn [fst snd] in *; by exists w1.
Qed.

Lemma after_success_ok sf h r w : exists w', post_create_idempotency_after_success dump_json cfg present sf h r w = (inr tt, w') /\ only_redis w w'.
Proof.
  unfold post_create_idempotency_after_success. destruct h as [h|]; [|exists w; split; [done|apply only_redis_refl]].
  destruct present; cbn [negb]; [|exists w; split; [done|apply only_redis_refl]]. unfold mbind, M_bind. destruct sf.
  - destruct (store_result_ok (ih_fingerprint h) r w) as (w1 & -> & H1). destruct (release_if_held_ok h w1) as (w2 & -> & H2).
    exists w2. split; [done|]. by eapply only_redis_trans.
  - destruct (release_if_held_ok h w) as (w1 & -> & H1). destruct (store_result_ok (ih_fingerprint h) r w1) as (w2 & -> & H2).
    exists w2. split; [done|]. by eapply only_redis_trans.
Qed.

Lemma after_failure_ok h w : exists w', post_create_idempotency_after_failure present h w = (inr tt, w') /\ only_redis w w'.
Proof.
  unfold post_create_idempotency_after_failure. destruct h as [h|]; [|exists w; split; [done|apply only_redis_refl]].
  destruct present; cbn [negb]; [|exists w; split; [done|apply only_redis_refl]]. apply release_if_held_ok.
Qed.

(** The answer of a creation that was carried out. *)
Definition created_answer (q : create_request) (c : exn + Z) : exn + created_response :=
  match c with inl e => inl e | inr i => inr {| cr_post_id := i; cr_request_id := rq_request_id q |} end.

Lemma carried_out q h w w1 : only_redis w w1 ->
  let '(r, w') := try_except
        (post_id ← create_post (rq_now q) (rq_new_id q) (rq_user q) (rq_data q);
         let out := {| cr_post_id := post_id; cr_request_id := rq_request_id q |} in
         post_create_idempotency_after_success dump_json cfg present (rq_store_first q) h out ;; mret out)
        (fun e => post_create_idempotency_after_failure present h ;; raise e) w1 in
  let '(c, v) := create_post (rq_now q) (rq_new_id q) (rq_user q) (rq_data q) w in
  r = created_answer q c /\ w_db w' = w_db v.
Proof.
  intros [rr ->]. unfold try_except. unfold mbind at 1, M_bind at 1. rewrite create_post_blind.
  destruct (create_post _ _ _ _ w) as [[e|i] v]; cbn [fst snd]; unfold mbind, M_bind.
  - destruct (after_failure_ok h (v <| w_redis := rr |>)) as (w2 & -> & [r2 ->]). done.
  - cbv zeta. match goal with |- context [post_create_idempotency_after_success _ _ _ ?sf ?h ?o ?x] =>
      destruct (after_success_ok sf h o x) as (w2 & -> & [r2 ->]) end. done.
Qed.

(** Redis never stands in the way: whatever it does (absent, slow, losing
    requests or replies), a creation request ends with the outcome of the
    creation itself, or changes no row and answers 400 for a malformed key, 409,
    or a replay.  Without a key, without Redis, or when the lookup of the stored
    result fails, the creation is carried out. *)
Theorem idempotency_fails_open (q : create_request) (w : world) :
  let '(r, w') := create_post_handler sha256_hex dump_json validate_json cfg present q w in
  let '(c, v) := create_post (rq_now q) (rq_new_id q) (rq_user q) (rq_data q) w in
  let carried := r = created_answer q c /\ w_db w' = w_db v in
  match normalize_idempotency_key (rq_key q) with
  | inl e => r = inl e /\ e = InvalidRequestException /\ w' = w
  | inr None => carried
  | inr (Some _) =>
      (carried \/ (w_db w' = w_db w /\ (r = inl ConcurrentUpdateException \/ exists i, r = inr {| cr_post_id := i; cr_request_id := rq_request_id q |}))) /\
      (present = false \/ t_fault (next_tick (w_redis w)).1 <> NoFault -> carried)
  end.
Proof.
  unfold create_post_handler. unfold mbind at 1, M_bind at 1.
  pose proof (before_only (rq_user q) (rq_key q) (rq_request_id q) (rq_token q) w) as Hb.
  destruct (post_create_idempotency_before _ _ _ _ _ _ _ _ w) as [[e|[cached h]] w1] eqn:E; cbn [snd] in Hb.
  - destruct (create_post _ _ _ _ w) as [c v]. unfold post_create_idempotency_before in E.
    destruct (normalize_idempotency_key (rq_key q)) as [e'|[k|]] eqn:En; [|destruct present; cbn [negb] in E|done].
    + injection E as <- <-. split; [done|]. split; [|done]. unfold normalize_idempotency_key in En.
      destruct (rq_key q); [|done]. destruct (bool_decide _); [done|]. destruct (_ || _); [|done]. by injection En.
    + assert (e = ConcurrentUpdateException /\ t_fault (next_tick (w_redis w)).1 = NoFault) as [-> Hf].
      { unfold try_except, read_result in E. unfold mbind, M_bind in E. unfold redis_get, on_redis, command in E.
        destruct (next_tick (w_redis w)) as [t ts]. cbn [fst]. destruct (t_fault t).
        - split; [|done]. destruct (c_get _ _ _) as [[e1|o] d1]; cbn [mret M_ret] in E; [done|].
          match type of E with context [match ?x with Some r => _ | None => _ end] => destruct x end; [done|].
          destruct (take_lock _ _ _ _) as [[e2|[tk|]] w2]; cbn in E; try done. by injection E.
        - done.
        - destruct (c_get _ _ _) as [x d1]. done. }
      destruct Hb as [rr ->]. split; [right; split; [done|by left]|]. intros [?|?]; done.
    + done.
  - destruct cached as [r|].
    + assert (exists k, normalize_idempotency_key (rq_key q) = inr (Some k) /\ present = true /\
        t_fault (next_tick (w_redis w)).1 = NoFault /\ cr_request_id r = rq_request_id q) as (k & -> & -> & Hf & Hid).
      { unfold post_create_idempotency_before in E. destruct (normalize_idempotency_key (rq_key q)) as [e'|[k|]] eqn:En; [done| |done].
        destruct present; cbn [negb] in E; [|done]. exists k. split; [done|]. split; [done|].
        unfold try_except, read_result in E. unfold mbind, M_bind in E. unfold redis_get, on_redis, command in E.
        destruct (next_tick (w_redis w)) as [t ts]. cbn [fst]. destruct (t_fault t).
        - split; [done|]. destruct (c_get _ _ _) as [[e1|o] d1]; cbn [mret M_ret] in E; [done|].
          match type of E with context [match ?x with Some r => _ | None => _ end] => destruct x as [r'|] eqn:Er end.
          + cbn [mret M_ret] in E. injection E as -> _ _. destruct o as [[|]|]; try done. destruct (validate_json _); [|done]. by injection Er as <-.
          + destruct (take_lock _ _ _ _) as [[e2|[tk|]] w2]; cbn in E; done.
        - done.
        - by destruct (c_get _ _ _). }
      destruct (create_post _ _ _ _ w) as [c v]. destruct Hb as [rr ->]. cbn [mret M_ret]. split; [|intros [?|?]; done].
      right. split; [done|]. right. exists (cr_post_id r). destruct r. cbn in *. by subst.
    + pose proof (carried_out q h w w1 Hb) as Hc. destruct (try_except _ _ _) as [r w']. destruct (create_post _ _ _ _ w) as [c v].
      destruct (normalize_idempotency_key (rq_key q)) as [e|[k|]] eqn:En; [|by split; [left|]|done].
      unfold post_create_idempotency_before in E. by rewrite En in E.
Qed.
End FailOpen.

(** ** Between the lookup and the lock *)

(** Stand-ins for the libraries: text as its own digest, a response as its numbers. *)
Definition demo_dump (r : created_response) : ustr := cr_post_id r :: cr_request_id r.
Definition demo_load (s : ustr) : option created_response :=
  match s with [] => None | i :: rid => Some {| cr_post_id := i; cr_request_id := rid |} end.
Definition demo_idemp : idemp_settings :=
  {| IDEMPOTENCY_POST_CREATE_TTL_SECONDS := 600; IDEMPOTENCY_POST_CREATE_LOCK_TTL_SECONDS := 30 |}.
Definition demo_request (new_id : Z) (rid : string) : create_request :=
  {| rq_user := 7; rq_key := Some (lit "retry-key-1");
     rq_data := {| cr_title := lit "t"; cr_content := lit "c"; cr_images := None; cr_category := None; cr_hashtags := None |};
     rq_request_id := lit rid; rq_now := 50; rq_new_id := new_id; rq_token := lit rid; rq_store_first := true |}.
Definition demo_idemp_world : world := empty_world <| w_db := demo_db |>.

(** Two requests with one key can both create a post although Redis answers every
    command: the second looks for a stored result while the first is running,
    the first stores its result and releases the lock, and the second then takes
    the lock, which is free, and does not look again. *)
Theorem idempotency_race_creates_twice :
  let a := demo_request 20 "a" in let b := demo_request 21 "b" in
  let f := idempotency_fingerprint (fun x => x) 7 (lit "retry-key-1") in
  let '(ra, w1) := post_create_idempotency_before (fun x => x) demo_load demo_idemp true 7 (rq_key a) (rq_request_id a) (rq_token a) demo_idemp_world in
  let '(rb, w2) := read_result demo_load f (rq_request_id b) w1 in
  let '(ia, w3) := create_post (H := ascii_db) (rq_now a) (rq_new_id a) 7 (rq_data a) w2 in
  let '(_, w4) := post_create_idempotency_after_success demo_dump demo_idemp true true
                    (Some {| ih_fingerprint := f; ih_lock_token := Some (rq_token a) |}) {| cr_post_id := 20; cr_request_id := rq_request_id a |} w3 in
  let '(lb, w5) := take_lock demo_idemp f (rq_token b) w4 in
  let '(ib, w6) := create_post (H := ascii_db) (rq_now b) (rq_new_id b) 7 (rq_data b) w5 in
  ra = inr (None, Some {| ih_fingerprint := f; ih_lock_token := Some (rq_token a) |}) /\ rb = inr None /\ ia = inr 20 /\
  lb = inr (Some (rq_token b)) /\ ib = inr 21 /\ is_Some (posts (w_db w6) !! 20) /\ is_Some (posts (w_db w6) !! 21).
Proof. vm_compute. split_and!; try reflexivity; by eexists. Qed.

(** ** Witnesses *)

Definition demo_memo : memo_state := {| ms_world := demo_idemp_world; ms_now := 100; ms_memo := ∅ |}.

Lemma demo_refines : refines (fun x => x) demo_dump demo_idemp_world demo_memo.
Proof. exists ∅, []. split; [reflexivity|]. split; [intros f; apply lookup_empty|]. intros u k _. by rewrite !lookup_empty. Qed.

Lemma idempotent_creation_refines_memo_witness :
  let evs := [Request (demo_request 20 "a"); Wait 5; Request (demo_request 21 "b")] in
  (run_events (handler_event (H := ascii_db) (fun x => x) demo_dump demo_load demo_idemp) evs demo_idemp_world).1 =
    [inr {| cr_post_id := 20; cr_request_id := lit "a" |}; inr {| cr_post_id := 20; cr_request_id := lit "b" |}].
Proof.
  intros evs.
  pose proof (idempotent_creation_refines_memo (H := ascii_db) (fun x => x) demo_dump demo_load demo_idemp (fun x y e => e)
    (fun r => match r with {| cr_post_id := i; cr_request_id := rid |} => eq_refl end) (fun r => ltac:(discriminate)) eq_refl eq_refl
    evs demo_idemp_world demo_memo) as Hw.
  destruct (run_events (handler_event _ _ _ _) evs demo_idemp_world) as [outs w'].
  destruct (run_events (memo_event demo_idemp) evs demo_memo) as [outs' s'] eqn:E.
  destruct Hw as [-> _].
  - intros q Hq. apply list_elem_of_In in Hq. cbn in Hq. destruct Hq as [[= <-]|[|[[= <-]|[]]]]; [|discriminate|]; vm_compute; split; congruence.
  - exact demo_refines.
  - apply (f_equal fst) in E. cbn [fst] in *. rewrite <-E. vm_compute. reflexivity.
Defined.

Lemma crashed_creation_unblocks_witness :
  exists w1, create_post_handler (H := ascii_db) (fun x => x) demo_dump demo_load demo_idemp true (demo_request 21 "b") (later 29 w1) =
    (inl ConcurrentUpdateException, later 29 w1).
Proof.
  destruct (crashed_creation_unblocks (H := ascii_db) (fun x => x) demo_dump demo_load demo_idemp (fun x y e => e)
    (fun r => match r with {| cr_post_id := i; cr_request_id := rid |} => eq_refl end) (fun r => ltac:(discriminate)) eq_refl eq_refl
    (demo_request 20 "a") (demo_request 21 "b") (lit "retry-key-1") demo_idemp_world demo_memo 29) as (h & w1 & _ & Hr & _).
  - exact demo_refines.
  - vm_compute. split; congruence.
  - reflexivity.
  - reflexivity.
  - vm_compute. reflexivity.
  - vm_compute. reflexivity.
  - exists w1. apply Hr. reflexivity.
Defined.
