(* ===== verification/Chat.v ===== *)
(** * Direct messages ([domain/chat/service.py], [model.py], [schema.py])

    Rooms of two users (one per pair, normalised and unique), messages with a
    keyset listing in both directions, read marks, and the inbox. *)

From S2P Require Import Prelude Ids Common Redis Db World Users Auth.

(** ** Rooms *)

Definition normalize_dm_user_ids (user_a user_b : Z) : Z * Z :=
  if user_a <? user_b then (user_a, user_b) else (user_b, user_a).

Definition assert_can_dm (user peer : Z) : M db unit :=
  if decide (peer = user) then raise SelfDmException
  else
    d ← get;
    match get_status_and_block_between user peer d with
    | None => raise UserNotFoundException
    | Some (s, blocked) =>
        if negb (is_active_value (status_str s)) then raise UserNotFoundException
        else if blocked : bool then raise ForbiddenException
        else mret tt
    end.

Definition find_room (u1 u2 : Z) (d : db) : option (Z * ChatRoom) :=
  List.find (fun p => bool_decide (user1_id p.2 = u1) && bool_decide (user2_id p.2 = u2)) (map_to_list (chat_rooms d)).

(** [INSERT ... ON CONFLICT (user1_id, user2_id) DO UPDATE ... RETURNING id]; the
    CHECK and the foreign keys are those of the table. *)
Definition upsert_room (now new_id user peer : Z) : M db Z := fun d =>
  let '(u1, u2) := normalize_dm_user_ids user peer in
  if negb (u1 <? u2) then (inl CheckViolation, d)
  else
    match find_room u1 u2 d with
    | Some (r, room) =>
        (inr r, d <| chat_rooms := <[r := room <| room_updated_at := now |>]> (chat_rooms d) |>)
    | None =>
        (insert_row new_id {| user1_id := u1; user2_id := u2; room_created_at := now; room_updated_at := now |}
           (fun d => bool_decide (is_Some (users d !! u1)) && bool_decide (is_Some (users d !! u2))) ;;
         mret new_id) d
    end.

Definition get_or_create_room (now new_id user peer : Z) : M db Z :=
  assert_can_dm user peer ;; upsert_room now new_id user peer.

Definition resolve_direct_room (now new_id user peer : Z) : M db Z :=
  begin_tx (get_or_create_room now new_id user peer).

(** ** Sending *)

(** [ChatMessageSend]: the length bounds hold for the text as sent, the stored
    text is stripped. *)
Definition chat_content (v : ustr) : option ustr :=
  if (1 <=? py_len v) && (py_len v <=? 10000) && negb (bool_decide (strip v = [])) then Some (strip v) else None.

(** The transaction of [send_dm_from_ws]: the room and the message stored. *)
Definition send_dm_tx (now msg_id new_room sender peer : Z) (text : ustr) (cached_room : option Z) : M db (Z * ChatMessage) :=
  begin_tx
    (assert_can_dm sender peer ;;
     room ← match cached_room with Some r => mret r | None => upsert_room now new_room sender peer end;
     let msg := {| room_id := room; sender_id := sender; msg_content := text; is_read := false; msg_created_at := now |} in
     insert_row msg_id msg
       (fun d => bool_decide (is_Some (chat_rooms d !! room)) && bool_decide (is_Some (users d !! sender))) ;;
     mret (room, msg)).

(** ** Reading *)

Definition is_member (user : Z) (room : ChatRoom) : bool :=
  bool_decide (user = user1_id room) || bool_decide (user = user2_id room).

(** The sort key of messages. *)
Definition msg_key (p : Z * ChatMessage) : Z * Z := (msg_created_at p.2, p.1).

Definition room_membership_guard (room user : Z) (cursor : option Z) : M db (option (Z * Z)) := fun d =>
  match chat_rooms d !! room with
  | None => (inl ForbiddenException, d)
  | Some r =>
      if negb (is_member user r) then (inl ForbiddenException, d)
      else
        match cursor with
        | None => (inr None, d)
        | Some m =>
            match chat_messages d !! m with
            | Some msg => if decide (room_id msg = room) then (inr (Some (msg_key (m, msg))), d) else (inl InvalidRequestException, d)
            | None => (inl InvalidRequestException, d)
            end
        end
  end.

Definition room_messages (room : Z) (d : db) : list (Z * ChatMessage) :=
  select_where (fun _ m => bool_decide (room_id m = room)) d.

Definition newest_first : Z * Z -> Z * Z -> bool := lex_ltb zdesc zdesc.
Definition oldest_first : Z * Z -> Z * Z -> bool := lex_ltb Z.ltb Z.ltb.
#[export] Instance newest_first_strict : StrictTotal newest_first := lex_strict _ _ _ _.
#[export] Instance oldest_first_strict : StrictTotal oldest_first := lex_strict _ _ _ _.

(** [after]: the page adjacent to the cursor upwards, returned newest first. *)
Definition list_room_messages (room user : Z) (cursor : option Z) (limit : Z) (after : bool)
  : M db (list (Z * ChatMessage) * bool) :=
  begin_tx
    (cursor_row ← room_membership_guard room user cursor;
     if after && bool_decide (cursor_row = None) then raise InvalidRequestException
     else
       d ← get;
       let rws := if after then keyset_fetch msg_key oldest_first cursor_row limit (room_messages room d)
                  else keyset_fetch msg_key newest_first cursor_row limit (room_messages room d) in
       let '(page, has_more) := split_page rws limit in
       mret (if after then reverse page else page, has_more)).

Definition mark_room_read (room user : Z) : M db unit :=
  begin_tx
    (room_membership_guard room user None ;;
     modify (update_where
       (fun (_ : Z) m => bool_decide (room_id m = room) && bool_decide (sender_id m <> user) && negb (is_read m))
       (fun m => m <| is_read := true |>))).

(** ** The inbox *)

(** [_PeerJoin]: the other member with image and representative dog; the inner
    join drops rooms without peer row, the dog join is an outer one. *)
Record ChatPeerProfile := {
  peer_user_id : Z; peer_nickname : ustr; peer_profile_image_url : option ustr;
  peer_dog : option DogProfile; peer_dog_profile_image_url : option ustr;
}.

Definition peer_of (user : Z) (room : ChatRoom) : Z :=
  if decide (user1_id room = user) then user2_id room else user1_id room.

Definition image_url (i : option Z) (d : db) : option ustr := j ← i; file_url <$> images d !! j.

Definition peer_rows (user : Z) (room : ChatRoom) (d : db) : list ChatPeerProfile :=
  let peer := peer_of user room in
  match users d !! peer with
  | None => []
  | Some u =>
      let row g :=
        {| peer_user_id := peer; peer_nickname := nickname u; peer_profile_image_url := image_url (user_profile_image_id u) d;
           peer_dog := g; peer_dog_profile_image_url := image_url (g ≫= dog_profile_image_id) d |} in
      match select_where (fun (_ : Z) g => bool_decide (owner_id g = peer) && is_representative g) d with
      | [] => [row None]
      | gs => (fun g => row (Some g.2)) <$> gs
      end
  end.

Definition last_message (room : Z) (d : db) : option (Z * ChatMessage) :=
  head (order_by msg_key newest_first (room_messages room d)).

Definition unread_count (user room : Z) (d : db) : Z :=
  py_len (select_where (fun (_ : Z) m => bool_decide (room_id m = room) && negb (is_read m) && bool_decide (sender_id m <> user)) d).

Definition message_preview (content : ustr) : ustr :=
  let p := strip (replace [10] [32] content) in
  if 120 <? py_len p then py_take 117 p ++ [8230] else p.

Record ChatRoomListItem := {
  ri_room_id : Z; ri_peer : ChatPeerProfile; ri_preview : ustr; ri_unread : Z; ri_updated_at : Z;
}.

Definition inbox_rows (user : Z) (d : db) : list ChatRoomListItem :=
  flat_map (fun p : Z * ChatRoom =>
      match last_message p.1 d with
      | None => []
      | Some (_, m) =>
          (fun peer => {| ri_room_id := p.1; ri_peer := peer; ri_preview := message_preview (msg_content m);
                          ri_unread := unread_count user p.1 d; ri_updated_at := msg_created_at m |}) <$> peer_rows user p.2 d
      end)
    (select_where (fun (_ : Z) room => is_member user room) d).

Definition list_recent_rooms (user limit : Z) (d : db) : list ChatRoomListItem :=
  take (Z.to_nat limit) (order_by (fun i => (ri_updated_at i, ri_room_id i)) newest_first (inbox_rows user d)).

Definition get_room_peer_info (room user : Z) : M db (Z * ChatPeerProfile) := fun d =>
  match chat_rooms d !! room with
  | Some r =>
      if is_member user r then
        match peer_rows user r d with
        | p :: _ => (inr (room, p), d)
        | [] => (inl ForbiddenException, d)
        end
      else (inl ForbiddenException, d)
  | None => (inl ForbiddenException, d)
  end.

(** ** The store's shape *)

Definition room_of (a b : Z) (room : ChatRoom) : Prop := (user1_id room, user2_id room) = normalize_dm_user_ids a b.

Definition chat_ok (d : db) : Prop :=
  (forall r room, chat_rooms d !! r = Some room -> user1_id room < user2_id room /\
     is_Some (users d !! user1_id room) /\ is_Some (users d !! user2_id room)) /\
  (forall r1 r2 a b, chat_rooms d !! r1 = Some a -> chat_rooms d !! r2 = Some b ->
     user1_id a = user1_id b -> user2_id a = user2_id b -> r1 = r2) /\
  (forall m msg, chat_messages d !! m = Some msg ->
     exists room, chat_rooms d !! room_id msg = Some room /\ is_member (sender_id msg) room = true).

Lemma normalize_sym a b : normalize_dm_user_ids a b = normalize_dm_user_ids b a.
Proof. unfold normalize_dm_user_ids. destruct (Z.ltb_spec a b), (Z.ltb_spec b a); try done; try lia. f_equal; lia. Qed.

Lemma normalize_cases a b : a <> b ->
  (a < b /\ normalize_dm_user_ids a b = (a, b)) \/ (b < a /\ normalize_dm_user_ids a b = (b, a)).
Proof. intros Hne. unfold normalize_dm_user_ids. destruct (Z.ltb_spec a b); [by left|right]. split; [lia|done]. Qed.

Lemma room_of_member a b room : room_of a b room -> is_member a room = true /\ is_member b room = true.
Proof.
  unfold room_of, normalize_dm_user_ids, is_member. destruct (a <? b); intros [= -> ->];
    rewrite !orb_true_iff, !bool_decide_eq_true; auto.
Qed.

Lemma find_room_spec u1 u2 d :
  match find_room u1 u2 d with
  | Some (r, room) => chat_rooms d !! r = Some room /\ user1_id room = u1 /\ user2_id room = u2
  | None => forall r room, chat_rooms d !! r = Some room -> user1_id room = u1 -> user2_id room = u2 -> False
  end.
Proof.
  unfold find_room. destruct (List.find _ _) as [[r room]|] eqn:E.
  - apply find_some in E as [Hin Hc]. apply list_elem_of_In, elem_of_map_to_list in Hin.
    cbn in Hc. by rewrite andb_true_iff, !bool_decide_eq_true in Hc.
  - intros r room Hr H1 H2. assert (Hin : In (r, room) (map_to_list (chat_rooms d))).
    { by apply list_elem_of_In, elem_of_map_to_list. }
    pose proof (find_none _ _ E _ Hin) as Hf. cbn in Hf. by rewrite !bool_decide_eq_true_2 in Hf.
Qed.

(** What opening a room does: the pair's room, new or with a fresh timestamp. *)
Lemma upsert_room_spec now new_id a b d : a <> b -> chat_ok d ->
  match upsert_room now new_id a b d with
  | (inl e, d') => d' = d /\ (forall r room, chat_rooms d !! r = Some room -> ~ room_of a b room) /\
      (is_Some (chat_rooms d !! new_id) \/ users d !! a = None \/ users d !! b = None)
  | (inr r, d') => exists room, room_of a b room /\ chat_rooms d' = <[r := room]> (chat_rooms d) /\
      users d' = users d /\ chat_messages d' = chat_messages d /\
      is_Some (users d !! user1_id room) /\ is_Some (users d !! user2_id room) /\
      match chat_rooms d !! r with
      | Some old => room_of a b old
      | None => r = new_id /\ forall r' room', chat_rooms d !! r' = Some room' -> ~ room_of a b room'
      end
  end.
Proof.
  intros Hne (Hord & Huq & _). unfold upsert_room, room_of.
  assert (exists u1 u2, normalize_dm_user_ids a b = (u1, u2) /\ u1 < u2 /\ ((u1 = a /\ u2 = b) \/ (u1 = b /\ u2 = a))) as (u1 & u2 & -> & Hlt & Hab).
  { destruct (normalize_cases a b Hne) as [[? ->]|[? ->]]; eauto 10. }
  rewrite (proj2 (Z.ltb_lt _ _) Hlt). cbn [negb]. pose proof (find_room_spec u1 u2 d) as Hf.
  destruct (find_room u1 u2 d) as [[r room]|].
  - destruct Hf as (Hr & H1 & H2). exists (room <| room_updated_at := now |>). cbn [user1_id user2_id over chat_rooms users chat_messages].
    rewrite H1, H2. split_and!; try done; [rewrite <-H1|rewrite <-H2|]; [by eapply Hord..|]. rewrite Hr. by rewrite H1, H2.
  - assert (forall r room, chat_rooms d !! r = Some room -> (user1_id room, user2_id room) <> (u1, u2)) as Hno.
    { intros r room Hr [= H1 H2]. by eapply Hf. }
    unfold mbind, M_bind, insert_row. cbn [rows set_rows chat_rooms_table].
    destruct (chat_rooms d !! new_id) as [old|] eqn:En.
    { split; [done|]. split; [done|]. left. by eexists. }
    destruct (bool_decide (is_Some (users d !! u1)) && bool_decide (is_Some (users d !! u2))) eqn:Er; cbn [mret M_ret].
    + rewrite andb_true_iff, !bool_decide_eq_true in Er. destruct Er as [E1 E2].
      eexists. split; [|split; [reflexivity|]]; [done|]. cbn [user1_id user2_id]. split_and!; try done. by rewrite En.
    + split; [done|]. split; [done|]. right. apply andb_false_iff in Er. rewrite !bool_decide_eq_false in Er.
      rewrite !eq_None_not_Some. naive_solver.
Qed.

Lemma chat_ok_rooms now new_id a b d : a <> b -> chat_ok d -> chat_ok (upsert_room now new_id a b d).2.
Proof.
  intros Hne Hok. pose proof (upsert_room_spec now new_id a b d Hne Hok) as Hs. destruct Hok as (Hord & Huq & Hmsg).
  destruct (upsert_room now new_id a b d) as [[e|r] d']; cbn [snd]; [by destruct Hs as [-> _]|].
  destruct Hs as (room & Hro & Hrooms & Husers & Hmsgs & Hu1 & Hu2 & Hold).
  assert (forall r' room', chat_rooms d' !! r' = Some room' ->
    exists old, (r' = r /\ room' = room) \/ (r' <> r /\ chat_rooms d !! r' = Some room' /\ old = room')) as Hcase.
  { intros r' room'. rewrite Hrooms. destruct (decide (r' = r)) as [->|Hr'].
    - rewrite lookup_insert_eq. intros [= <-]. exists room. by left.
    - rewrite lookup_insert_ne by done. intros ?. exists room'. by right. }
  assert (user1_id room < user2_id room) as Hlt.
  { unfold room_of in Hro. destruct (normalize_cases a b Hne) as [[? En]|[? En]]; rewrite En in Hro; injection Hro as -> ->; lia. }
  assert (forall r' room', r' <> r -> chat_rooms d !! r' = Some room' -> ~ room_of a b room') as Hother.
  { intros r' room' Hr' Hroom' Hro'. destruct (chat_rooms d !! r) as [old|] eqn:Eo.
    - apply Hr'. unfold room_of in *. eapply (Huq r' r room' old); [done|done|congruence|congruence].
    - destruct Hold as [_ Hold]. by eapply Hold. }
  split_and!.
  - intros r' room' H'. rewrite Husers. destruct (Hcase r' room' H') as (_ & [[-> ->]|(_ & Hr' & _)]); [done|]. by eapply Hord.
  - intros r1 r2 x y H1 H2 E1 E2.
    destruct (Hcase r1 x H1) as (_ & [[-> ->]|(N1 & G1 & _)]), (Hcase r2 y H2) as (_ & [[-> ->]|(N2 & G2 & _)]); [done| | |by eapply Huq].
    + exfalso. apply (Hother r2 y N2 G2). unfold room_of in *. congruence.
    + exfalso. apply (Hother r1 x N1 G1). unfold room_of in *. congruence.
  - intros m msg. rewrite Hmsgs. intros Hm. destruct (Hmsg m msg Hm) as (rm & Hrm & Hmem). rewrite Hrooms.
    destruct (decide (room_id msg = r)) as [E|E].
    + subst r. rewrite lookup_insert_eq. exists room. split; [done|]. rewrite Hrm in Hold. unfold room_of in *.
      rewrite <-Hro in Hold. injection Hold as E1 E2. unfold is_member in *. by rewrite <-E1, <-E2.
    + rewrite lookup_insert_ne by done. by exists rm.
Qed.


(** The outcome of the checks before a room is opened or a message stored. *)
Inductive dm_verdict := DmSelf | DmNoPeer | DmBlocked | DmAllowed.

Definition dm_allowed (user peer : Z) (d : db) : dm_verdict :=
  if decide (peer = user) then DmSelf
  else match users d !! peer with
       | Some u =>
           if bool_decide (user_deleted_at u = None) && bool_decide (status u = ACTIVE) then
             if has_block user peer d || has_block peer user d then DmBlocked else DmAllowed
           else DmNoPeer
       | None => DmNoPeer
       end.

Lemma assert_can_dm_spec user peer d :
  assert_can_dm user peer d =
  (match dm_allowed user peer d with
   | DmSelf => inl SelfDmException | DmNoPeer => inl UserNotFoundException
   | DmBlocked => inl ForbiddenException | DmAllowed => inr tt
   end, d).
Proof.
  unfold assert_can_dm, dm_allowed. destruct (decide (peer = user)); [done|].
  unfold get, mbind, M_bind, get_status_and_block_between, get_user_by_id, option_bind.
  destruct (users d !! peer) as [u|]; cbn; [|done].
  destruct (decide (user_deleted_at u = None)) as [Hd|Hd]; [|by rewrite bool_decide_eq_false_2].
  rewrite bool_decide_eq_true_2 by done. unfold mbind, option_bind, is_active_value, status_str.
  destruct (status u); [|done..]. by destruct (_ || _).
Qed.

Lemma dm_allowed_ne user peer d : dm_allowed user peer d = DmAllowed -> user <> peer.
Proof. unfold dm_allowed. destruct (decide (peer = user)); [done|]. congruence. Qed.

Lemma dm_allowed_frame user peer d d' :
  users d' = users d -> user_blocks d' = user_blocks d -> dm_allowed user peer d' = dm_allowed user peer d.
Proof. intros Hu Hb. unfold dm_allowed, has_block. by rewrite Hu, Hb. Qed.

(** A cached room id still names the pair's room, or none any more. *)
Definition cached_ok (user peer : Z) (cached : option Z) (d : db) : Prop :=
  forall r room, cached = Some r -> chat_rooms d !! r = Some room -> room_of user peer room.

Lemma chat_ok_message m msg room d : chat_ok d -> chat_rooms d !! room_id msg = Some room ->
  is_member (sender_id msg) room = true -> chat_ok (d <| chat_messages := <[m := msg]> (chat_messages d) |>).
Proof.
  intros (Hord & Huq & Hmsg) Hr Hmem. split; [exact Hord|split; [exact Huq|]].
  intros m' msg'. cbn [chat_messages chat_rooms over]. destruct (decide (m' = m)) as [->|Hne].
  - rewrite lookup_insert_eq. intros [= <-]. by exists room.
  - rewrite lookup_insert_ne by done. apply Hmsg.
Qed.

(** A message stored in a room: what [insert_row] does on the table. *)
Lemma insert_message_spec m msg refs d :
  insert_row m msg refs d =
  match chat_messages d !! m with
  | Some _ => (inl (UniqueViolation (lit "pkey")), d)
  | None => if refs d : bool then (inr tt, d <| chat_messages := <[m := msg]> (chat_messages d) |>)
            else (inl ForeignKeyViolation, d)
  end.
Proof. done. Qed.

(** What a send does: refused without any change, or one message stored in the
    pair's room. *)
Lemma send_dm_spec now m new_room a b text cached d : chat_ok d -> cached_ok a b cached d ->
  match send_dm_tx now m new_room a b text cached d with
  | (inl e, d') => d' = d
  | (inr (r, msg), d') =>
      dm_allowed a b d = DmAllowed /\
      msg = {| room_id := r; sender_id := a; msg_content := text; is_read := false; msg_created_at := now |} /\
      exists d1 room, chat_ok d1 /\ chat_rooms d1 !! r = Some room /\ room_of a b room /\ users d1 = users d /\
        chat_messages d1 = chat_messages d /\ chat_messages d !! m = None /\
        d' = d1 <| chat_messages := <[m := msg]> (chat_messages d) |> /\
        (cached = None -> d1 = (upsert_room now new_room a b d).2) /\ (forall c, cached = Some c -> d1 = d /\ r = c)
  end.
Proof.
  intros Hok Hc. unfold send_dm_tx, begin_tx. unfold mbind at 1, M_bind at 1. rewrite assert_can_dm_spec.
  destruct (dm_allowed a b d) eqn:Ea; try done. pose proof (dm_allowed_ne a b d Ea) as Hne.
  unfold mbind at 1, M_bind at 1. destruct cached as [r|].
  - cbn [mret M_ret]. unfold mbind at 1, M_bind at 1. rewrite insert_message_spec.
    destruct (chat_messages d !! m) eqn:Em; [done|]. cbn [room_id sender_id].
    destruct (bool_decide (is_Some (chat_rooms d !! r)) && _) eqn:Er; [|done].
    rewrite andb_true_iff, bool_decide_eq_true in Er. destruct Er as [[room Hr] _].
    split; [done|split; [done|]]. exists d, room. split_and!; try done; [by eapply Hc|]. by intros c [= ->].
  - pose proof (upsert_room_spec now new_room a b d Hne Hok) as Hs. pose proof (chat_ok_rooms now new_room a b d Hne Hok) as Hok1.
    destruct (upsert_room now new_room a b d) as [[e|r] d1]; [done|]. cbn [snd] in Hok1.
    destruct Hs as (room & Hro & Hrooms & Husers & Hmsgs & _).
    unfold mbind at 1, M_bind at 1. rewrite insert_message_spec, Hmsgs.
    destruct (chat_messages d !! m) eqn:Em; [done|]. destruct (_ && _); [|done].
    split; [done|split; [done|]]. exists d1, room. split_and!; try done. by rewrite Hrooms, lookup_insert_eq.
Qed.

Lemma mark_room_read_spec room user d :
  mark_room_read room user d =
  match chat_rooms d !! room with
  | Some r =>
      if is_member user r then
        (inr tt, d <| chat_messages := (fun m : ChatMessage =>
           if bool_decide (room_id m = room) && bool_decide (sender_id m <> user) && negb (is_read m)
           then m <| is_read := true |> else m) <$> chat_messages d |>)
      else (inl ForbiddenException, d)
  | None => (inl ForbiddenException, d)
  end.
Proof.
  unfold mark_room_read, begin_tx, mbind, M_bind, room_membership_guard.
  destruct (chat_rooms d !! room) as [r|]; [|done]. destruct (is_member user r); [|done]. cbn [negb modify].
  unfold modify, update_where. cbn [rows set_rows chat_messages_table]. f_equal. unfold over at 1 3. f_equal.
  apply map_eq. intros k. rewrite map_lookup_imap, lookup_fmap. by destruct (chat_messages d !! k).
Qed.

Lemma chat_ok_purge ids d : chat_ok d -> chat_ok (purge_users_by_ids ids d).2.
Proof.
  intros (Hord & Huq & Hmsg). unfold purge_users_by_ids. destruct ids as [|i ids]; [by split|]. cbn [snd].
  split_and!; cbn [cascade_users users chat_rooms chat_messages].
  - intros r room [Hr [H1 H2]]%map_lookup_filter_Some. destruct (Hord r room Hr) as (Hlt & [u1 Hu1] & [u2 Hu2]).
    split; [done|]. cbn [snd] in *. split; [exists u1|exists u2]; by apply map_lookup_filter_Some.
  - intros r1 r2 a b [Ha _]%map_lookup_filter_Some [Hb _]%map_lookup_filter_Some. by apply Huq.
  - intros m msg [Hm [Hs [room Hr]]]%map_lookup_filter_Some. cbn [snd] in *. exists room. split; [done|].
    apply map_lookup_filter_Some in Hr as [Hr _]. destruct (Hmsg m msg Hm) as (room' & Hr' & Hmem). by simplify_eq.
Qed.

Lemma chat_store_keeps d now m new_room user peer text cached room ids :
  chat_ok d -> cached_ok user peer cached d ->
  chat_ok (resolve_direct_room now new_room user peer d).2 /\
  chat_ok (send_dm_tx now m new_room user peer text cached d).2 /\
  chat_ok (mark_room_read room user d).2 /\
  chat_ok (purge_users_by_ids ids d).2.
Proof.
  intros Hok Hc. split_and!.
  - unfold resolve_direct_room, begin_tx, get_or_create_room. unfold mbind, M_bind. rewrite assert_can_dm_spec.
    destruct (dm_allowed user peer d) eqn:E; try done. apply dm_allowed_ne in E.
    pose proof (chat_ok_rooms now new_room user peer d E Hok) as H. by destruct (upsert_room _ _ _ _ d) as [[]].
  - pose proof (send_dm_spec now m new_room user peer text cached d Hok Hc) as Hs.
    destruct (send_dm_tx _ _ _ _ _ _ _ d) as [[e|[r msg]] d']; [by subst|].
    destruct Hs as (_ & Emsg & d1 & rm & Hok1 & Hr & Hro & _ & Hm & _ & -> & _). cbn [snd]. rewrite <-Hm.
    apply (chat_ok_message m msg rm); subst msg; cbn; [done|done|]. by apply room_of_member in Hro as [? _].
  - rewrite mark_room_read_spec. destruct (chat_rooms d !! room) as [r|]; [|done]. destruct (is_member user r); [|done].
    destruct Hok as (Hord & Huq & Hmsg). split; [exact Hord|split; [exact Huq|]]. intros k msg. cbn [snd chat_messages chat_rooms over].
    rewrite lookup_fmap. intros (msg0 & Hk & ->)%fmap_Some. destruct (Hmsg k msg0 Hk) as (rm & Hr & Hmem). exists rm.
    by destruct (_ && _ && _).
  - by apply chat_ok_purge.
Qed.

(** C18. The chat store's invariant: every room joins two existing users in
    normalised order, no pair has two rooms, and every message lies in an
    existing room one of whose members sent it.  Opening a room, sending (with
    a cached room id that names the pair's room or none any more), marking read
    and the purge of users, on every branch, preserve it. *)
Theorem chat_store_invariant d now m new_room user peer text cached room ids :
  chat_ok d -> cached_ok user peer cached d ->
  chat_ok (resolve_direct_room now new_room user peer d).2 /\
  chat_ok (send_dm_tx now m new_room user peer text cached d).2 /\
  chat_ok (mark_room_read room user d).2 /\
  chat_ok (purge_users_by_ids ids d).2.
Proof. apply chat_store_keeps. Qed.

(** Two members, a blocked third user and a conversation, for the witnesses. *)
Definition chat_user (nick : ustr) (s : UserStatus) : User :=
  {| user_version := 1; email := nick; password := []; nickname := nick; user_profile_image_id := None; role := lit "USER";
     status := s; user_created_at := 0; user_updated_at := 0; user_deleted_at := None |}.
Definition chat_msg (room sender at_ : Z) : ChatMessage :=
  {| room_id := room; sender_id := sender; msg_content := lit "hi"; is_read := false; msg_created_at := at_ |}.
Definition demo_chat : db :=
  empty_db <| users := list_to_map [(7, chat_user (lit "a") ACTIVE); (8, chat_user (lit "b") ACTIVE); (9, chat_user (lit "c") ACTIVE)] |>
           <| user_blocks := {[(9, 7) := 1]} |>
           <| chat_rooms := {[40 := {| user1_id := 7; user2_id := 8; room_created_at := 1; room_updated_at := 1 |}]} |>
           <| chat_messages := list_to_map [(50, chat_msg 40 7 2); (51, chat_msg 40 8 3); (52, chat_msg 40 8 4); (53, chat_msg 40 7 4)] |>.

Lemma demo_chat_rooms r room : chat_rooms demo_chat !! r = Some room ->
  r = 40 /\ room = {| user1_id := 7; user2_id := 8; room_created_at := 1; room_updated_at := 1 |}.
Proof. cbn [demo_chat chat_rooms over]. intros [-> <-]%lookup_singleton_Some. done. Qed.

Lemma demo_chat_ok : chat_ok demo_chat.
Proof.
  split_and!.
  - intros r room [-> ->]%demo_chat_rooms. cbn [user1_id user2_id]. split; [lia|split]; by eexists.
  - intros r1 r2 a b [-> _]%demo_chat_rooms [-> _]%demo_chat_rooms. done.
  - intros m msg Hm. apply elem_of_list_to_map_2 in Hm. rewrite !elem_of_cons, elem_of_nil in Hm.
    destruct Hm as [[= -> ->]|[[= -> ->]|[[= -> ->]|[[= -> ->]|[]]]]]; eexists; split; done.
Qed.

Lemma chat_store_invariant_witness :
  chat_ok (send_dm_tx 5 54 41 7 8 (lit "yo") (Some 40) demo_chat).2 /\
  chat_ok (resolve_direct_room 5 41 8 9 demo_chat).2.
Proof.
  assert (cached_ok 7 8 (Some 40) demo_chat) as Hc by (intros r room [= <-] [_ ->]%demo_chat_rooms; reflexivity).
  split; [apply (chat_store_invariant demo_chat 5 54 41 7 8 (lit "yo") (Some 40) 40 [] demo_chat_ok Hc)|].
  apply (chat_store_invariant demo_chat 5 54 41 8 9 [] None 40 [] demo_chat_ok). by intros ???.
Defined.

Lemma resolve_direct_room_spec now new_room user peer d :
  resolve_direct_room now new_room user peer d =
  match dm_allowed user peer d with
  | DmSelf => (inl SelfDmException, d)
  | DmNoPeer => (inl UserNotFoundException, d)
  | DmBlocked => (inl ForbiddenException, d)
  | DmAllowed => begin_tx (upsert_room now new_room user peer) d
  end.
Proof.
  unfold resolve_direct_room, get_or_create_room, begin_tx. unfold mbind, M_bind. rewrite assert_can_dm_spec.
  by destruct (dm_allowed user peer d).
Qed.

Lemma upsert_room_unblocked now new_room a b d : user_blocks (upsert_room now new_room a b d).2 = user_blocks d.
Proof.
  unfold upsert_room. destruct (normalize_dm_user_ids a b) as [u1 u2]. destruct (negb _); [done|].
  destruct (find_room u1 u2 d) as [[r room]|]; [done|]. unfold mbind, M_bind, insert_row.
  destruct (_ !! new_room); [done|]. by destruct (_ && _).
Qed.

(** The pair's room as the uniqueness constraint gives it. *)
Lemma room_of_unique a b d r1 r2 x y : chat_ok d -> chat_rooms d !! r1 = Some x -> chat_rooms d !! r2 = Some y ->
  room_of a b x -> room_of a b y -> r1 = r2.
Proof. unfold room_of. intros (_ & Huq & _) H1 H2 E1 E2. eapply (Huq r1 r2 x y); try done; congruence. Qed.

Lemma room_of_sym a b room : room_of a b room <-> room_of b a room.
Proof. unfold room_of. by rewrite normalize_sym. Qed.

(** Opening a direct room, on every branch: oneself is refused, an absent,
    withdrawn or suspended peer is not found, a block in either direction is
    forbidden, and nothing changes then; otherwise the call succeeds with the
    one room of the pair, created or found, and the peer opening the room from
    the other side, at any time and with any fresh id, gets the same room. *)
Theorem direct_room_shared now new_room user peer d :
  chat_ok d -> is_Some (users d !! user) -> chat_rooms d !! new_room = None ->
  match dm_allowed user peer d with
  | DmSelf => resolve_direct_room now new_room user peer d = (inl SelfDmException, d)
  | DmNoPeer => resolve_direct_room now new_room user peer d = (inl UserNotFoundException, d)
  | DmBlocked => resolve_direct_room now new_room user peer d = (inl ForbiddenException, d)
  | DmAllowed => exists r room d1,
      resolve_direct_room now new_room user peer d = (inr r, d1) /\
      chat_rooms d1 !! r = Some room /\ is_member user room = true /\ is_member peer room = true /\
      (forall r' room', chat_rooms d1 !! r' = Some room' -> room_of user peer room' -> r' = r) /\
      (forall now' new', dm_allowed peer user d = DmAllowed -> (resolve_direct_room now' new' peer user d1).1 = inr r)
  end.
Proof.
  intros Hok [u Hu] Hnew. rewrite resolve_direct_room_spec. destruct (dm_allowed user peer d) eqn:Ea; try done.
  pose proof (dm_allowed_ne _ _ _ Ea) as Hne.
  pose proof (upsert_room_spec now new_room user peer d Hne Hok) as Hs. pose proof (chat_ok_rooms now new_room user peer d Hne Hok) as Hok1.
  pose proof (upsert_room_unblocked now new_room user peer d) as Hb. unfold begin_tx.
  destruct (upsert_room now new_room user peer d) as [[e|r] d1]; cbn [snd] in *.
  { destruct Hs as (_ & _ & [[]|[|Hp]]); [congruence..|]. unfold dm_allowed in Ea. rewrite Hp in Ea. by destruct (decide _). }
  destruct Hs as (room & Hro & Hrooms & Husers & _).
  assert (chat_rooms d1 !! r = Some room) as Hr by (by rewrite Hrooms, lookup_insert_eq).
  destruct (room_of_member _ _ _ Hro) as [Hm1 Hm2]. exists r, room, d1. split_and!; try done.
  - intros r' room' Hr' Hro'. by eapply (room_of_unique user peer d1 r' r).
  - intros now' new' Ea'. rewrite resolve_direct_room_spec, (dm_allowed_frame _ _ d) by done. rewrite Ea'. unfold begin_tx.
    pose proof (upsert_room_spec now' new' peer user d1 (not_eq_sym Hne) Hok1) as Hs.
    destruct (upsert_room now' new' peer user d1) as [[e|r2] d2]; cbn [fst].
    + destruct Hs as (_ & Hno & _). destruct (Hno r room Hr). by apply room_of_sym.
    + destruct Hs as (room2 & _ & _ & _ & _ & _ & _ & Hold). f_equal. destruct (chat_rooms d1 !! r2) as [old|] eqn:E2.
      * symmetry. eapply (room_of_unique user peer d1 r r2); try done. by apply room_of_sym.
      * destruct Hold as [_ Hno]. destruct (Hno r room Hr). by apply room_of_sym.
Qed.

Lemma direct_room_shared_witness :
  dm_allowed 8 9 demo_chat = DmAllowed /\ dm_allowed 7 9 demo_chat = DmBlocked /\
  (exists r room d1, resolve_direct_room 5 41 8 9 demo_chat = (inr r, d1) /\ chat_rooms d1 !! r = Some room).
Proof.
  split; [reflexivity|split; [reflexivity|]].
  pose proof (direct_room_shared 5 41 8 9 demo_chat demo_chat_ok) as H.
  destruct H as (r & room & d1 & H1 & H2 & _); [by eexists|reflexivity|]. by exists r, room, d1.
Defined.

(** ** Reading a room page by page *)

(** The client's two loops: scrolling up from the newest message with
    [items[-1].id] as cursor, and catching up after a reconnection with
    [items[0].id]; both follow [has_more].  [None] is a refused request. *)
Fixpoint scroll_back (fuel : nat) (room user : Z) (cursor : option Z) (limit : Z) (d : db) : option (list (list (Z * ChatMessage))) :=
  match fuel with
  | O => Some []
  | S f =>
      match (list_room_messages room user cursor limit false d).1 with
      | inl _ => None
      | inr (page, more) => cons page <$> if more then scroll_back f room user (fst <$> last page) limit d else Some []
      end
  end.

Fixpoint catch_up (fuel : nat) (room user : Z) (cursor : option Z) (limit : Z) (d : db) : option (list (list (Z * ChatMessage))) :=
  match fuel with
  | O => Some []
  | S f =>
      match (list_room_messages room user cursor limit true d).1 with
      | inl _ => None
      | inr (page, more) => cons page <$> if more then catch_up f room user (fst <$> head page) limit d else Some []
      end
  end.

Lemma msg_key_nodup (l : list (Z * ChatMessage)) : NoDup (l.*1) -> NoDup (msg_key <$> l).
Proof.
  intros Hnd. apply (NoDup_fmap_1 snd). rewrite <-list_fmap_compose. by erewrite list_fmap_ext; [exact Hnd|].
Qed.

Lemma room_messages_elem room d m msg :
  (m, msg) ∈ room_messages room d <-> chat_messages d !! m = Some msg /\ room_id msg = room.
Proof. unfold room_messages. rewrite select_where_elem. cbn [rows chat_messages_table]. by rewrite bool_decide_eq_true. Qed.

Lemma keyset_fetch_elem {A K : Type} (key : A -> K) ltb c size (l : list A) x :
  x ∈ keyset_fetch key ltb c size l -> x ∈ l.
Proof.
  unfold keyset_fetch. intros Hx%elem_of_take. destruct Hx as (i & Hi & _). apply list_elem_of_lookup_2 in Hi.
  rewrite order_by_perm in Hi. by apply list_elem_of_In, filter_In in Hi as [?%list_elem_of_In _].
Qed.

(** The cursor a client sends: a message it has seen in the room. *)
Definition cursor_of (c : option (Z * ChatMessage)) : option Z := fst <$> c.

Lemma list_room_messages_member room user r c limit after d :
  chat_rooms d !! room = Some r -> is_member user r = true ->
  (forall x, c = Some x -> x ∈ room_messages room d) ->
  (list_room_messages room user (cursor_of c) limit after d).1 =
  if after && bool_decide (c = None) then inl InvalidRequestException
  else
    let '(page, more) := split_page (keyset_fetch msg_key (if after then oldest_first else newest_first) (msg_key <$> c) limit
                                       (room_messages room d)) limit in
    inr (if after then reverse page else page, more).
Proof.
  intros Hr Hm Hc. unfold list_room_messages, begin_tx.
  assert (room_membership_guard room user (cursor_of c) d = (inr (msg_key <$> c), d)) as Hg.
  { unfold room_membership_guard. rewrite Hr, Hm. destruct c as [[m msg]|]; cbn [cursor_of fmap option_fmap option_map negb fst]; [|done].
    destruct (proj1 (room_messages_elem room d m msg) (Hc _ eq_refl)) as [Hl Hi]. by rewrite Hl, decide_True. }
  unfold mbind, M_bind. rewrite Hg. destruct c as [[m msg]|]; cbn [fmap option_fmap option_map].
  - rewrite !bool_decide_eq_false_2 by done. rewrite andb_false_r. cbn [get]. unfold get. destruct after; by destruct (split_page _ _).
  - rewrite !bool_decide_eq_true_2 by done. rewrite andb_true_r. destruct after; [done|]. unfold get. by destruct (split_page _ _).
Qed.

Section Walks.
Context (room user limit : Z) (r : ChatRoom) (d : db).
Context (Hroom : chat_rooms d !! room = Some r) (Hmem : is_member user r = true) (Hlim : 1 <= limit).

Lemma page_seen after c page more x :
  split_page (keyset_fetch msg_key (if after : bool then oldest_first else newest_first) c limit (room_messages room d)) limit = (page, more) ->
  x ∈ page -> x ∈ room_messages room d.
Proof.
  unfold split_page. intros [= <- _] Hx. rewrite py_take_nonneg in Hx by lia. apply elem_of_take in Hx as (i & Hi & _).
  apply list_elem_of_lookup_2 in Hi. by eapply keyset_fetch_elem.
Qed.

Lemma scroll_back_walk fuel c : (forall x, c = Some x -> x ∈ room_messages room d) ->
  scroll_back fuel room user (cursor_of c) limit d =
  Some (keyset_walk msg_key newest_first fuel (msg_key <$> c) limit (room_messages room d)).
Proof.
  revert c. induction fuel as [|fuel IH]; intros c Hc; cbn [scroll_back keyset_walk]; [done|].
  rewrite (list_room_messages_member room user r c limit false d Hroom Hmem Hc). cbn [andb].
  destruct (split_page _ _) as [page more] eqn:E. destruct more; [|done].
  change (fst <$> last page) with (cursor_of (last page)). rewrite IH; [done|].
  intros x Hx. eapply (page_seen false); [exact E|]. by apply last_Some_elem_of.
Qed.

Lemma catch_up_walk fuel x : x ∈ room_messages room d ->
  catch_up fuel room user (Some x.1) limit d =
  Some (reverse <$> keyset_walk msg_key oldest_first fuel (Some (msg_key x)) limit (room_messages room d)).
Proof.
  revert x. induction fuel as [|fuel IH]; intros x Hx; cbn [catch_up keyset_walk]; [done|].
  pose proof (list_room_messages_member room user r (Some x) limit true d Hroom Hmem) as Hl.
  change (cursor_of (Some x)) with (Some x.1) in Hl. rewrite Hl by (by intros ? [= <-]). clear Hl.
  rewrite bool_decide_eq_false_2 by done. cbn [andb fmap option_fmap option_map].
  destruct (split_page _ _) as [page more] eqn:E. destruct more; [|done].
  destruct page as [|y page _] using rev_ind.
  { exfalso. unfold split_page in E. injection E as E1 E2. rewrite py_take_nonneg in E1 by lia.
    apply (f_equal length) in E1. rewrite length_take in E1. unfold py_len in E2. apply Z.ltb_lt in E2. cbn in E1. lia. }
  rewrite last_snoc. rewrite reverse_app at 2. cbn [reverse rev_append head app fmap option_fmap option_map fst].
  rewrite IH; [done|]. eapply (page_seen true); [exact E|]. set_solver.
Qed.
End Walks.

Definition newer_than (x y : Z * ChatMessage) : bool := oldest_first (msg_key x) (msg_key y).

Lemma concat_reverse {A : Type} (l : list (list A)) : concat (reverse (reverse <$> l)) = reverse (concat l).
Proof.
  induction l as [|x l IH]; [done|]. rewrite fmap_cons, reverse_cons, concat_app, IH. cbn [concat].
  by rewrite app_nil_r, reverse_app.
Qed.

(** Reading a room page by page: for a member, scrolling up from the newest
    message lists every message of the room exactly once, newest first; and
    catching up after a reconnection from any message the client has lists
    exactly the messages newer than it, without gap or repetition, the pages in
    order of time and each newest first.  No page exceeds the limit and both
    loops stop. *)
Theorem chat_pages_enumerate room user r limit d fuel :
  chat_rooms d !! room = Some r -> is_member user r = true -> 1 <= limit ->
  (length (room_messages room d) < fuel)%nat ->
  (exists pages, scroll_back fuel room user None limit d = Some pages /\
     concat pages = order_by msg_key newest_first (room_messages room d) /\ Forall (fun p => py_len p <= limit) pages) /\
  (forall x, x ∈ room_messages room d ->
     exists pages, catch_up fuel room user (Some x.1) limit d = Some pages /\
       concat (reverse pages) = order_by msg_key newest_first (List.filter (newer_than x) (room_messages room d)) /\
       Forall (fun p => py_len p <= limit) pages).
Proof.
  intros Hr Hm Hlim Hf. set (l := room_messages room d) in *.
  assert (NoDup (msg_key <$> l)) as Hnd by (apply msg_key_nodup, select_where_nodup). split.
  - eexists. split; [apply (scroll_back_walk room user limit r d Hr Hm Hlim fuel None); by intros ?|].
    apply (keyset_walk_rest msg_key newest_first fuel limit l [] (order_by msg_key newest_first l)); try done.
    by rewrite order_by_perm.
  - intros x Hx. eexists. split; [by apply (catch_up_walk room user limit r d Hr Hm Hlim)|].
    assert (x ∈ order_by msg_key oldest_first l) as Hx' by (by rewrite order_by_perm).
    apply list_elem_of_split in Hx' as (pre & post & Ho).
    pose proof (order_by_strict msg_key oldest_first l Hnd) as Hs. rewrite Ho in Hs.
    assert (order_by msg_key oldest_first (List.filter (newer_than x) l) = post) as Hpost.
    { rewrite (order_by_filter msg_key oldest_first), Ho by done. by apply (after_last_suffix msg_key oldest_first). }
    assert (Hlen : (length post < fuel)%nat).
    { apply (f_equal length) in Ho. rewrite length_app, (Permutation_length (order_by_perm _ _ _)) in Ho. cbn in Ho. lia. }
    destruct (keyset_walk_rest msg_key oldest_first fuel limit l (pre ++ [x]) post (Some (msg_key x))) as [Hc HF]; try done.
    + by rewrite <-app_assoc.
    + by rewrite last_snoc.
    + fold l. split.
      * rewrite concat_reverse, Hc, (order_by_flip msg_key oldest_first newest_first); [by rewrite Hpost| |].
        -- intros [a1 a2] [b1 b2]. done.
        -- apply msg_key_nodup. unfold l, room_messages. rewrite <-(select_where_and (fun _ m => _) (fun k m => newer_than x (k, m))).
           apply select_where_nodup.
      * apply Forall_fmap. eapply Forall_impl; [exact HF|]. intros p. unfold py_len. cbn. by rewrite length_reverse.
Qed.

Lemma chat_pages_enumerate_witness :
  scroll_back 5 40 7 None 3 demo_chat = Some [[(53, chat_msg 40 7 4); (52, chat_msg 40 8 4); (51, chat_msg 40 8 3)]; [(50, chat_msg 40 7 2)]] /\
  exists pages, catch_up 5 40 8 (Some 50) 2 demo_chat = Some pages /\
    concat (reverse pages) = [(53, chat_msg 40 7 4); (52, chat_msg 40 8 4); (51, chat_msg 40 8 3)].
Proof.
  split; [vm_compute; reflexivity|].
  destruct (chat_pages_enumerate 40 8 {| user1_id := 7; user2_id := 8; room_created_at := 1; room_updated_at := 1 |} 2 demo_chat 5) as [_ H];
    [reflexivity|reflexivity|lia|vm_compute; lia|].
  destruct (H (50, chat_msg 40 7 2)) as (pages & Hp & Hc & _).
  { apply room_messages_elem. split; reflexivity. }
  exists pages. split; [exact Hp|]. rewrite Hc. vm_compute. reflexivity.
Defined.

(** ** Read marks *)

Definition unread_for (user room : Z) (_ : Z) (m : ChatMessage) : bool :=
  bool_decide (room_id m = room) && negb (is_read m) && bool_decide (sender_id m <> user).

Lemma unread_count_size user room d :
  unread_count user room d = Z.of_nat (base.size (filter (fun p => unread_for user room p.1 p.2 = true) (chat_messages d))).
Proof. unfold unread_count, py_len. f_equal. exact (select_where_length (unread_for user room) d). Qed.

Lemma unread_insert user room m msg d : chat_messages d !! m = None ->
  unread_count user room (d <| chat_messages := <[m := msg]> (chat_messages d) |>) =
  unread_count user room d + if unread_for user room m msg then 1 else 0.
Proof.
  intros Hm. rewrite !unread_count_size. cbn [chat_messages over].
  pose proof (size_filter_insert (fun p => unread_for user room p.1 p.2 = true) (fun p => unread_for user room p.1 p.2 = true)
    (chat_messages d) m msg ltac:(done)) as Hs. rewrite Hm in Hs. cbn [fst snd] in Hs.
  destruct (decide (unread_for user room m msg = true)) as [E|E]; destruct (unread_for user room m msg); try done; lia.
Qed.

Lemma unread_fmap user room (f : ChatMessage -> ChatMessage) d :
  (forall m msg, chat_messages d !! m = Some msg -> unread_for user room m (f msg) = unread_for user room m msg) ->
  unread_count user room (d <| chat_messages := f <$> chat_messages d |>) = unread_count user room d.
Proof.
  intros Hf. rewrite !unread_count_size. cbn [chat_messages over]. f_equal. rewrite map_filter_fmap, map_size_fmap. f_equal.
  apply map_filter_ext. intros m msg Hm. cbn [fst snd]. by rewrite (Hf m msg Hm).
Qed.

(** Read marks: a stored message adds one to the peer's unread count of
    that room, nothing to the sender's and nothing to any other room's; a
    member marking the room read brings their own count to zero and leaves the
    other member's and all other rooms' alone; a stranger or an unknown room is
    forbidden and nothing changes. *)
Theorem unread_counts_exact now m new_room a b text cached room user d :
  chat_ok d -> cached_ok a b cached d ->
  (forall r msg d', send_dm_tx now m new_room a b text cached d = (inr (r, msg), d') ->
     unread_count b r d' = unread_count b r d + 1 /\ unread_count a r d' = unread_count a r d /\
     forall u r', r' <> r -> unread_count u r' d' = unread_count u r' d) /\
  match mark_room_read room user d with
  | (inr _, d') =>
      unread_count user room d' = 0 /\
      (forall u r', (exists x, chat_rooms d !! r' = Some x /\ is_member u x = true) -> (u, r') <> (user, room) ->
         unread_count u r' d' = unread_count u r' d)
  | (inl e, d') => e = ForbiddenException /\ d' = d /\
      forall x, chat_rooms d !! room = Some x -> is_member user x = false
  end.
Proof.
  intros Hok Hc. split.
  - intros r msg d' E. pose proof (send_dm_spec now m new_room a b text cached d Hok Hc) as Hs. rewrite E in Hs.
    destruct Hs as (Ha & -> & d1 & rm & _ & _ & _ & _ & Hm & Hn & -> & _). apply dm_allowed_ne in Ha. rewrite <-Hm in *.
    assert (forall u r', unread_count u r' d1 = unread_count u r' d) as Hd by (intros; by rewrite !unread_count_size, Hm).
    split_and!; [| |intros u r' Hne]; rewrite unread_insert, Hd by done; unfold unread_for; cbn [room_id is_read sender_id negb].
    + by rewrite !bool_decide_eq_true_2.
    + rewrite (bool_decide_eq_false_2 (a <> a)) by tauto. by rewrite andb_false_r, Z.add_0_r.
    + rewrite (bool_decide_eq_false_2 (r = r')) by congruence. by rewrite Z.add_0_r.
  - rewrite mark_room_read_spec. destruct (chat_rooms d !! room) as [x|] eqn:Er; [|done].
    destruct (is_member user x) eqn:Em; [|split; [done|split; [done|]]; by intros ? [= <-]].
    split.
    + rewrite unread_count_size. cbn [chat_messages over]. rewrite map_filter_fmap, map_size_fmap.
      rewrite (proj2 (map_empty_filter _ _)); [done|]. intros k msg Hk. cbn [fst snd]. unfold unread_for.
      destruct (bool_decide (room_id msg = room)) eqn:E1, (bool_decide (sender_id msg <> user)) eqn:E2, (is_read msg) eqn:E3;
        cbn [andb negb]; cbn [over room_id is_read sender_id]; rewrite ?E1, ?E2, ?E3; done.
    + intros u r' (y & Hy & Hmy) Hne. apply unread_fmap. intros k msg Hk. unfold unread_for.
      destruct (bool_decide (room_id msg = room)) eqn:E1, (bool_decide (sender_id msg <> user)) eqn:E2, (is_read msg) eqn:E3;
        cbn [andb negb]; cbn [over room_id is_read sender_id]; rewrite ?E3; try done.
      apply bool_decide_eq_true in E1, E2. destruct (decide (room_id msg = r')) as [E4|E4]; [|by rewrite bool_decide_eq_false_2].
      rewrite (bool_decide_eq_false_2 (sender_id msg <> u)); [by rewrite !andb_false_r|].
      destruct Hok as (Hord & _ & Hmsg). destruct (Hmsg k msg Hk) as (z & Hz & Hmz).
      assert (y = x /\ z = x) as [-> ->] by (split; congruence). assert (u <> user) by congruence.
      unfold is_member in *. rewrite orb_true_iff, !bool_decide_eq_true in *. intuition congruence.
Qed.

Lemma unread_counts_exact_witness :
  unread_count 8 40 demo_chat = 2 /\ unread_count 7 40 demo_chat = 2 /\
  (exists d', mark_room_read 40 8 demo_chat = (inr tt, d') /\ unread_count 8 40 d' = 0 /\ unread_count 7 40 d' = 2).
Proof.
  split; [reflexivity|split; [reflexivity|]].
  destruct (unread_counts_exact 5 54 41 7 8 [] None 40 8 demo_chat demo_chat_ok) as [_ H]; [by intros ???|].
  destruct (mark_room_read 40 8 demo_chat) as [[e|[]] d'] eqn:E; [vm_compute in E; discriminate|].
  destruct H as [H1 H2]. exists d'. split; [reflexivity|split; [exact H1|]]. rewrite H2; [reflexivity| |congruence].
  eexists. split; reflexivity.
Defined.
