(* ===== verification/Json.v ===== *)
(** * JSON text as the standard library's [json] writes and reads it

    [json.dumps(v, ensure_ascii=False)] and [json.loads(s)] on the values the
    program exchanges through Redis.  [loads] follows the scanner of the
    library: white space, escapes with surrogate pairs, numbers (a float keeps
    its text), [NaN] and the infinities, the last of equal keys winning. *)

From stdpp Require Import pretty.
From S2P Require Import Prelude.

#[warnings="-register-all"]
Inductive json :=
  | JNull | JBool (b : bool) | JInt (z : Z) | JFloat (text : ustr)
  | JStr (s : ustr) | JArr (l : list json) | JObj (kvs : list (ustr * json)).

(** ** Writing *)

Definition hex1 (d : Z) : Z := if d <? 10 then 48 + d else 87 + d.

(** [ESCAPE_DCT], the other control characters as [\u00xx]. *)
Definition escape_char (c : Z) : ustr :=
  if c =? 92 then [92; 92] else if c =? 34 then [92; 34] else if c =? 10 then [92; 110]
  else if c =? 13 then [92; 114] else if c =? 9 then [92; 116] else if c =? 12 then [92; 102] else if c =? 8 then [92; 98]
  else if c <? 32 then [92; 117; 48; 48; hex1 (c / 16); hex1 (c mod 16)]
  else [c].

Definition dump_str (s : ustr) : ustr := 34 :: flat_map escape_char s ++ [34].

Definition sep_by (sep : ustr) (l : list ustr) : ustr :=
  match l with [] => [] | x :: l' => x ++ flat_map (fun y => sep ++ y) l' end.

Fixpoint dumps (v : json) : ustr :=
  match v with
  | JNull => lit "null"
  | JBool true => lit "true"
  | JBool false => lit "false"
  | JInt z => lit (pretty z)
  | JFloat t => t
  | JStr s => dump_str s
  | JArr l => 91 :: sep_by (lit ", ") (map dumps l) ++ [93]
  | JObj kvs => 123 :: sep_by (lit ", ") (map (fun p => dump_str p.1 ++ lit ": " ++ dumps p.2) kvs) ++ [125]
  end.

(** ** Reading *)

Definition json_space (c : Z) : bool := (c =? 32) || (c =? 9) || (c =? 10) || (c =? 13).
Definition skip_ws (s : ustr) : ustr := drop_while json_space s.

(** The given code point and what follows it. *)
Definition eat (c : Z) (s : ustr) : option ustr :=
  match s with x :: r => if x =? c then Some r else None | [] => None end.

Definition hex_digit (c : Z) : option Z :=
  if between 48 57 c then Some (c - 48) else if between 97 102 c then Some (c - 87) else if between 65 70 c then Some (c - 55) else None.

(** Four hexadecimal digits. *)
Definition hex4 (s : ustr) : option (Z * ustr) :=
  match s with
  | a :: b :: c :: d :: r =>
      match hex_digit a, hex_digit b, hex_digit c, hex_digit d with
      | Some a, Some b, Some c, Some d => Some (((a * 16 + b) * 16 + c) * 16 + d, r)
      | _, _, _, _ => None
      end
  | _ => None
  end.

Definition simple_escape (c : Z) : option Z :=
  if c =? 34 then Some 34 else if c =? 92 then Some 92 else if c =? 47 then Some 47 else if c =? 98 then Some 8
  else if c =? 102 then Some 12 else if c =? 110 then Some 10 else if c =? 114 then Some 13 else if c =? 116 then Some 9 else None.

(** A high surrogate followed by an escaped low one is one code point. *)
Definition unicode_escape (s : ustr) : option (Z * ustr) :=
  match hex4 s with
  | None => None
  | Some (u, r) =>
      if between 55296 56319 u then
        match (eat 92 r ≫= eat 117) ≫= hex4 with
        | Some (u2, r2) => if between 56320 57343 u2 then Some (65536 + (u - 55296) * 1024 + (u2 - 56320), r2) else Some (u, r)
        | None => Some (u, r)
        end
      else Some (u, r)
  end.

(** [scanstring], after the opening quote; control characters are refused. *)
Fixpoint scan_string (fuel : nat) (acc : ustr) (s : ustr) : option (ustr * ustr) :=
  match fuel, s with
  | O, _ | _, [] => None
  | S f, c :: r =>
      if c =? 34 then Some (reverse acc, r)
      else if c =? 92 then
        match r with
        | [] => None
        | e :: r' =>
            if e =? 117 then match unicode_escape r' with Some (u, r2) => scan_string f (u :: acc) r2 | None => None end
            else match simple_escape e with Some u => scan_string f (u :: acc) r' | None => None end
        end
      else if c <? 32 then None
      else scan_string f (c :: acc) r
  end.

Definition is_digit (c : Z) : bool := between 48 57 c.
Fixpoint span {A} (p : A -> bool) (l : list A) : list A * list A :=
  match l with
  | [] => ([], [])
  | x :: l' => if p x then let '(a, b) := span p l' in (x :: a, b) else ([], l)
  end.
Definition digits_value (ds : ustr) : Z := fold_left (fun n c => n * 10 + (c - 48)) ds 0.

(** [-?(0|[1-9]\d* )(\.\d+)?([eE][-+]?\d+)?] *)
Definition scan_number (s : ustr) : option (json * ustr) :=
  let '(neg, r) := match eat 45 s with Some r => (true, r) | None => (false, s) end in
  let '(ds, r1) := match eat 48 r with Some r' => ([48], r') | None => span is_digit r end in
  if bool_decide (ds = []) then None
  else
    let '(frac, r2) := match eat 46 r1 with
                       | Some r' => match span is_digit r' with ([], _) => ([], r1) | (fs, r'') => (46 :: fs, r'') end
                       | None => ([], r1)
                       end in
    let '(expo, r3) := match r2 with
                       | e :: r' =>
                           if (e =? 101) || (e =? 69) then
                             let '(sg, r'') := match r' with c :: t => if (c =? 43) || (c =? 45) then ([c], t) else ([], r') | [] => ([], r') end in
                             match span is_digit r'' with ([], _) => ([], r2) | (xs, t) => (e :: sg ++ xs, t) end
                           else ([], r2)
                       | [] => ([], r2)
                       end in
    match frac, expo with
    | [], [] => Some (JInt (if neg then - digits_value ds else digits_value ds), r3)
    | _, _ => Some (JFloat ((if neg then [45] else []) ++ ds ++ frac ++ expo), r3)
    end.

Definition prefixed (p : ustr) (v : json) (s : ustr) : option (json * ustr) :=
  if startswith p s then Some (v, drop (length p) s) else None.

Definition scan_literal (s : ustr) : option (json * ustr) :=
  match prefixed (lit "null") JNull s, prefixed (lit "true") (JBool true) s, prefixed (lit "false") (JBool false) s,
        prefixed (lit "NaN") (JFloat (lit "NaN")) s, prefixed (lit "Infinity") (JFloat (lit "Infinity")) s,
        prefixed (lit "-Infinity") (JFloat (lit "-Infinity")) s with
  | Some r, _, _, _, _, _ | None, Some r, _, _, _, _ | None, None, Some r, _, _, _ | None, None, None, Some r, _, _
  | None, None, None, None, Some r, _ | None, None, None, None, None, Some r => Some r
  | None, None, None, None, None, None => scan_number s
  end.

(** A value; the elements of an array up to its bracket; the members of an
    object up to its brace.  Every call consumes a code point. *)
Fixpoint parse_value (fuel : nat) (s : ustr) : option (json * ustr) :=
  match fuel with
  | O => None
  | S f =>
      match s with
      | [] => None
      | c :: r =>
          if c =? 34 then match scan_string f [] r with Some (t, r') => Some (JStr t, r') | None => None end
          else if c =? 123 then
            match eat 125 (skip_ws r) with
            | Some r' => Some (JObj [], r')
            | None => match parse_members f [] (skip_ws r) with Some (kvs, r2) => Some (JObj kvs, r2) | None => None end
            end
          else if c =? 91 then
            match eat 93 (skip_ws r) with
            | Some r' => Some (JArr [], r')
            | None => match parse_elems f (skip_ws r) with Some (l, r2) => Some (JArr l, r2) | None => None end
            end
          else scan_literal s
      end
  end
with parse_elems (fuel : nat) (s : ustr) : option (list json * ustr) :=
  match fuel with
  | O => None
  | S f =>
      match parse_value f s with
      | None => None
      | Some (v, r) =>
          match eat 93 (skip_ws r), eat 44 (skip_ws r) with
          | Some r', _ => Some ([v], r')
          | None, Some r' => match parse_elems f (skip_ws r') with Some (l, r2) => Some (v :: l, r2) | None => None end
          | None, None => None
          end
      end
  end
with parse_members (fuel : nat) (acc : list (ustr * json)) (s : ustr) : option (list (ustr * json) * ustr) :=
  match fuel with
  | O => None
  | S f =>
      match eat 34 s with
      | Some r0 =>
          match scan_string f [] r0 with
          | None => None
          | Some (k, r) =>
              match eat 58 (skip_ws r) with
              | Some r1 =>
                  match parse_value f (skip_ws r1) with
                  | None => None
                  | Some (v, r2) =>
                      let acc := dict_set k v acc in
                      match eat 125 (skip_ws r2), eat 44 (skip_ws r2) with
                      | Some r3, _ => Some (acc, r3)
                      | None, Some r3 => parse_members f acc (skip_ws r3)
                      | None, None => None
                      end
                  end
              | None => None
              end
          end
      | None => None
      end
  end.

(** [json.loads]: one value between white space; a byte order mark is refused. *)
Definition loads (s : ustr) : option json :=
  match eat 65279 s with
  | Some _ => None
  | None =>
      match parse_value (2 * S (length s))%nat (skip_ws s) with
      | Some (v, r) => match skip_ws r with [] => Some v | _ => None end
      | None => None
      end
  end.

(** ** Writing then reading gives the value back

    For values without numbers, whose texts are code points and whose objects
    have distinct keys. *)

Definition is_text (s : ustr) : bool := forallb (fun c => 0 <=? c) s.

Fixpoint plain (v : json) : bool :=
  match v with
  | JNull | JBool _ => true
  | JInt _ | JFloat _ => false
  | JStr s => is_text s
  | JArr l => forallb plain l
  | JObj kvs => bool_decide (NoDup kvs.*1) && forallb (fun p => is_text p.1 && plain p.2) kvs
  end.

Section JsonInd.
Context (P : json -> Prop) (Hnull : P JNull) (Hbool : forall b, P (JBool b)) (Hint : forall z, P (JInt z))
  (Hfloat : forall t, P (JFloat t)) (Hstr : forall s, P (JStr s)) (Harr : forall l, Forall P l -> P (JArr l))
  (Hobj : forall kvs, Forall (fun p => P p.2) kvs -> P (JObj kvs)).

Fixpoint json_nested_ind (v : json) : P v :=
  match v with
  | JNull => Hnull | JBool b => Hbool b | JInt z => Hint z | JFloat t => Hfloat t | JStr s => Hstr s
  | JArr l => Harr l ((fix go l : Forall P l := match l with [] => Forall_nil_2 P | x :: l' => Forall_cons_2 P x l' (json_nested_ind x) (go l') end) l)
  | JObj kvs => Hobj kvs ((fix go l : Forall (fun p => P p.2) l := match l with
      | [] => Forall_nil_2 _ | p :: l' => Forall_cons_2 (fun p => P p.2) p l' (json_nested_ind p.2) (go l') end) kvs)
  end.
End JsonInd.

Lemma scan_escaped f acc c r : 0 <= c -> scan_string (S f) acc (escape_char c ++ r) = scan_string f (c :: acc) r.
Proof.
  intros Hc. destruct (Z.lt_ge_cases c 32) as [Hlt|Hge].
  - assert (c ∈ (Z.of_nat <$> seq 0 32)) as Hin.
    { apply list_elem_of_fmap. exists (Z.to_nat c). rewrite elem_of_seq. lia. }
    cbn in Hin. repeat (apply elem_of_cons in Hin as [->|Hin]; [reflexivity|]). by apply not_elem_of_nil in Hin.
  - unfold escape_char. destruct (Z.eqb_spec c 92) as [->|H1]; [done|]. destruct (Z.eqb_spec c 34) as [->|H2]; [done|].
    rewrite !(proj2 (Z.eqb_neq c _)), (proj2 (Z.ltb_ge c 32)) by lia. cbn [app scan_string].
    by rewrite !(proj2 (Z.eqb_neq c _)), (proj2 (Z.ltb_ge c 32)) by lia.
Qed.

Lemma escape_nonempty c : (1 <= length (escape_char c))%nat.
Proof. unfold escape_char. repeat case_match; cbn; lia. Qed.

Lemma scan_dumped s fuel acc rest : is_text s = true -> (length (flat_map escape_char s) < fuel)%nat ->
  scan_string fuel acc (flat_map escape_char s ++ 34 :: rest) = Some (reverse acc ++ s, rest).
Proof.
  revert fuel acc. induction s as [|c s IH]; intros fuel acc Ht Hf; cbn [flat_map] in *.
  { destruct fuel; [cbn in Hf; lia|]. cbn. by rewrite app_nil_r. }
  cbn in Ht. apply andb_true_iff in Ht as [Hc Ht]. rewrite length_app in Hf. pose proof (escape_nonempty c).
  destruct fuel as [|fuel]; [lia|]. rewrite <-app_assoc, scan_escaped by lia. rewrite IH by (done || lia).
  rewrite reverse_cons. by rewrite <-app_assoc.
Qed.

Lemma dumps_start v : plain v = true -> exists c t, dumps v = c :: t /\ json_space c = false /\ c <> 93 /\ c <> 125.
Proof.
  destruct v as [|[]| | | | |]; intros Hp; try done; cbn [dumps]; eexists _, _; (split; [reflexivity|]); (split; [reflexivity|]); done.
Qed.

Lemma skip_ws_dumps v rest : plain v = true -> skip_ws (dumps v ++ rest) = dumps v ++ rest.
Proof. intros (c & t & -> & Hs & _)%dumps_start. unfold skip_ws. cbn [app drop_while]. by rewrite Hs. Qed.

Lemma eat_dumps v rest c : plain v = true -> c = 93 \/ c = 125 -> eat c (dumps v ++ rest) = None.
Proof.
  intros (d & t & -> & _ & H1 & H2)%dumps_start Hc. cbn [app eat].
  destruct (Z.eqb_spec d c); [|done]. destruct Hc; congruence.
Qed.

Lemma sep_by_cons x y l : sep_by (lit ", ") (x :: y :: l) = x ++ lit ", " ++ sep_by (lit ", ") (y :: l).
Proof. cbn [sep_by flat_map]. by rewrite !app_assoc. Qed.

(** Between two elements. *)
Lemma comma_skipped X : skip_ws (lit ", " ++ X) = 44 :: 32 :: X /\ skip_ws (32 :: X) = skip_ws X.
Proof. done. Qed.
Lemma colon_skipped X : skip_ws (lit ": " ++ X) = 58 :: 32 :: X /\ skip_ws (32 :: X) = skip_ws X.
Proof. done. Qed.

(** What is proved of a value by induction. *)
Definition reads_back (v : json) : Prop := forall fuel rest, (length (dumps v) < fuel)%nat ->
  parse_value fuel (dumps v ++ rest) = Some (v, rest).

Lemma elems_read_back l fuel rest : l <> [] -> Forall (fun v => plain v = true -> reads_back v) l -> forallb plain l = true ->
  (length (sep_by (lit ", ") (map dumps l)) + 1 < fuel)%nat ->
  parse_elems fuel (sep_by (lit ", ") (map dumps l) ++ 93 :: rest) = Some (l, rest).
Proof.
  intros Hne HF. revert fuel Hne. induction HF as [|v l Hv HF IH]; intros fuel Hne Hp Hf; [done|].
  cbn [forallb] in Hp. apply andb_true_iff in Hp as [Hpv Hp]. destruct fuel as [|fuel]; [lia|].
  destruct l as [|w l]; cbn [map] in *.
  - cbn [sep_by flat_map] in *. rewrite app_nil_r in *. cbn [parse_elems]. rewrite (Hv Hpv) by lia. reflexivity.
  - rewrite sep_by_cons in *. rewrite !length_app in Hf. change (length (lit ", ")) with 2%nat in Hf. rewrite <-!app_assoc. cbn [parse_elems]. rewrite (Hv Hpv) by lia.
    assert (skip_ws (sep_by (lit ", ") (dumps w :: map dumps l) ++ 93 :: rest) = sep_by (lit ", ") (dumps w :: map dumps l) ++ 93 :: rest) as Hskip.
    { cbn [sep_by]. rewrite <-app_assoc. apply skip_ws_dumps. cbn [forallb] in Hp. by apply andb_true_iff in Hp as [? _]. }
    specialize (IH fuel ltac:(done) Hp ltac:(lia)). revert Hskip IH.
    generalize (sep_by (lit ", ") (dumps w :: map dumps l) ++ 93 :: rest) as X. intros X Hskip IH.
    destruct (comma_skipped X) as [-> Hsp]. cbn [eat Z.eqb Pos.eqb]. by rewrite Hsp, Hskip, IH.
Qed.

Definition dump_member (p : ustr * json) : ustr := dump_str p.1 ++ lit ": " ++ dumps p.2.

Lemma members_read_back kvs fuel acc rest : kvs <> [] -> Forall (fun p => plain p.2 = true -> reads_back p.2) kvs ->
  forallb (fun p => is_text p.1 && plain p.2) kvs = true -> NoDup ((acc ++ kvs).*1) ->
  (length (sep_by (lit ", ") (map dump_member kvs)) + 1 < fuel)%nat ->
  parse_members fuel acc (sep_by (lit ", ") (map dump_member kvs) ++ 125 :: rest) = Some (acc ++ kvs, rest).
Proof.
  intros Hne HF. revert fuel acc Hne. induction HF as [|[k v] kvs Hv HF IH]; intros fuel acc Hne Hp Hnd Hf; [done|].
  cbn [forallb fst snd] in *. rewrite !andb_true_iff in Hp. destruct Hp as [[Hk Hpv] Hp]. destruct fuel as [|fuel]; [lia|].
  assert (k ∉ acc.*1) as Hfresh.
  { rewrite fmap_app, NoDup_app in Hnd. destruct Hnd as (_ & Hd & _). intros Hin. apply (Hd k Hin). cbn. set_solver. }
  assert (forall tail n, (length (dump_member (k, v)) + n < S fuel)%nat -> (1 <= n)%nat ->
    parse_members (S fuel) acc (dump_member (k, v) ++ tail) =
    match eat 125 (skip_ws tail), eat 44 (skip_ws tail) with
    | Some r3, _ => Some (acc ++ [(k, v)], r3)
    | None, Some r3 => parse_members fuel (acc ++ [(k, v)]) (skip_ws r3)
    | None, None => None
    end) as Hstep.
  { intros tail n Hn H1. unfold dump_member, dump_str in Hn |- *. cbn [fst snd] in *. rewrite !length_app in Hn. cbn [length] in Hn. rewrite !length_app in Hn. cbn [length] in Hn.
    cbn [parse_members app eat]. rewrite Z.eqb_refl. rewrite <-!app_assoc. cbn [app]. rewrite scan_dumped by (done || lia).
    cbn [reverse rev_append app]. pose proof (skip_ws_dumps v tail Hpv) as Hskip. specialize (Hv Hpv fuel tail ltac:(lia)).
    destruct (colon_skipped (dumps v ++ tail)) as [-> Hsp]. cbn [eat Z.eqb Pos.eqb]. rewrite Hsp, Hskip.
    rewrite Hv, dict_set_fresh by done. reflexivity. }
  destruct kvs as [|[k2 v2] kvs]; cbn [map] in *.
  - cbn [sep_by flat_map] in *. rewrite app_nil_r in *. rewrite (Hstep _ 1%nat) by lia. reflexivity.
  - rewrite sep_by_cons in *. rewrite !length_app in Hf. change (length (lit ", ")) with 2%nat in Hf. rewrite <-!app_assoc. rewrite (Hstep _ 1%nat) by lia.
    assert (skip_ws (sep_by (lit ", ") (dump_member (k2, v2) :: map dump_member kvs) ++ 125 :: rest) =
            sep_by (lit ", ") (dump_member (k2, v2) :: map dump_member kvs) ++ 125 :: rest) as Hskip by reflexivity.
    specialize (IH fuel (acc ++ [(k, v)]) ltac:(done) Hp ltac:(by rewrite <-app_assoc) ltac:(lia)). revert Hskip IH.
    generalize (sep_by (lit ", ") (dump_member (k2, v2) :: map dump_member kvs) ++ 125 :: rest) as X. intros X Hskip IH.
    destruct (comma_skipped X) as [-> Hsp]. cbn [eat Z.eqb Pos.eqb]. rewrite Hsp, Hskip, IH. by rewrite <-app_assoc.
Qed.

Lemma parse_dumps v : plain v = true -> reads_back v.
Proof.
  induction v as [|b| | |s|l IH|kvs IH] using json_nested_ind; intros Hp fuel rest Hf; try done; destruct fuel as [|fuel]; try lia.
  - done.
  - by destruct b.
  - cbn [dumps] in *. unfold dump_str in *. cbn [length] in Hf. rewrite length_app in Hf. cbn [length] in Hf.
    cbn [app parse_value]. rewrite Z.eqb_refl, <-app_assoc. cbn [app]. rewrite scan_dumped by (done || lia). done.
  - destruct l as [|v l]; [done|]. cbn [dumps length] in Hf. rewrite length_app in Hf. cbn [length] in Hf.
    cbn [dumps app parse_value]. cbn [Z.eqb Pos.eqb]. rewrite <-app_assoc. cbn [app].
    assert (forall X, skip_ws (sep_by (lit ", ") (map dumps (v :: l)) ++ X) = sep_by (lit ", ") (map dumps (v :: l)) ++ X /\
              eat 93 (sep_by (lit ", ") (map dumps (v :: l)) ++ X) = None) as Hs.
    { intros X. cbn [map sep_by plain forallb] in *. apply andb_true_iff in Hp as [Hpv _]. rewrite <-app_assoc.
      rewrite skip_ws_dumps by done. split; [done|]. apply eat_dumps; auto. }
    destruct (Hs (93 :: rest)) as [-> ->]. rewrite elems_read_back; [done|done|done|done|]. lia.
  - destruct kvs as [|p kvs]; [done|]. cbn [plain] in Hp. apply andb_true_iff in Hp as [Hnd Hp]. apply bool_decide_eq_true in Hnd.
    cbn [dumps length] in Hf. rewrite length_app in Hf. cbn [length] in Hf.
    change (dumps (JObj (p :: kvs))) with (123 :: sep_by (lit ", ") (map dump_member (p :: kvs)) ++ [125]).
    cbn [app parse_value]. cbn [Z.eqb Pos.eqb]. rewrite <-app_assoc. cbn [app].
    assert (forall X, skip_ws (sep_by (lit ", ") (map dump_member (p :: kvs)) ++ X) = sep_by (lit ", ") (map dump_member (p :: kvs)) ++ X /\
              eat 125 (sep_by (lit ", ") (map dump_member (p :: kvs)) ++ X) = None) as Hs by done.
    destruct (Hs (125 :: rest)) as [-> ->]. rewrite members_read_back; try done. unfold dump_member. lia.
Qed.

(** Reading a written value gives it back. *)
Lemma loads_dumps v : plain v = true -> loads (dumps v) = Some v.
Proof.
  intros Hp. unfold loads.
  assert (eat 65279 (dumps v) = None) as ->. { by destruct v as [|[]| | | | |]. }
  pose proof (skip_ws_dumps v [] Hp) as Hs. rewrite !app_nil_r in Hs. rewrite Hs.
  pose proof (parse_dumps v Hp (2 * S (length (dumps v)))%nat []) as Hr. rewrite app_nil_r in Hr. by rewrite Hr by lia.
Qed.
