(* ===== verification/Realtime.v ===== *)
(** * Realtime fan-out ([infra/pubsub.py], [chat/manager.py], [ChatService._fanout_dm])

    Each instance keeps the open WebSockets of each user and one Redis
    subscription.  A message is sent to the instance's own sockets directly and
    published once in an envelope naming its origin, which the origin's own
    listener skips.  The cluster is a step relation over instances and the
    pending messages of their subscriptions. *)

From stdpp Require Import pretty.
From S2P Require Import Prelude Ids Common Redis Db Notifications Json.

(** ** Envelopes *)

Definition CHAT_DM_FANOUT_CHANNEL : ustr := lit "puppytalk:channel:chat:dm".
Definition NOTIF_SSE_FANOUT_CHANNEL : ustr := lit "puppytalk:channel:notif:sse".

Definition user_envelope (origin : ustr) (target_user_ids : list Z) (payload : ustr) : ustr :=
  dumps (JObj [(lit "origin", JStr origin); (lit "target_user_ids", JArr ((fun u => JStr (uuid_str u)) <$> target_user_ids));
               (lit "payload", JStr payload)]).

(** [str(u) for u in v]; [None] where Python raises, or where the text of the
    element cannot be that of a UUID (a literal, a float, a container). *)
Definition element_text (v : json) : option ustr :=
  match v with JStr s => Some s | JInt z => Some (lit (pretty z)) | _ => None end.
Definition iterated_texts (v : json) : option (list ustr) :=
  match v with
  | JArr l => mapM element_text l
  | JStr s => Some ((fun c => [c]) <$> s)
  | JObj kvs => Some kvs.*1
  | _ => None
  end.
Definition uuid_or_none `{UnicodeDB} (s : ustr) : option Z := match UUID_of_str s with inr n => Some n | inl _ => None end.

(** (targets, payload, origin) *)
Definition parse_user_envelope `{UnicodeDB} (raw : ustr) : option (list Z * ustr * option ustr) :=
  match loads raw with
  | Some (JObj data) =>
      ids ← dict_get (lit "target_user_ids") data;
      texts ← iterated_texts ids;
      uids ← mapM uuid_or_none texts;
      match dict_get (lit "payload") data with
      | Some (JStr payload) =>
          Some (uids, payload, match dict_get (lit "origin") data with Some (JStr o) => Some o | _ => None end)
      | _ => None
      end
  | _ => None
  end.

(** ** One instance *)

(** Sockets by user, the SSE queues, and what the instance did to sockets: the
    texts sent (socket, text) and the closes (socket, code), in order. *)
Record node := {
  n_id : ustr; n_by_user : gmap Z (gset Z); n_sse : fanout;
  n_sent : list (Z * ustr); n_closed : list (Z * Z);
}.
#[export] Instance node_eta : Eta node := fun n =>
  Build_node (n_id n) (n_by_user n) (n_sse n) (n_sent n) (n_closed n).

Definition sockets_of (user : Z) (n : node) : gset Z := default ∅ (n_by_user n !! user).

(** [bucket.add] below the limit; at the limit an empty bucket is not left. *)
Definition ws_connect (max_connections user ws : Z) (n : node) : bool * node :=
  let bucket := sockets_of user n in
  if max_connections <=? Z.of_nat (base.size bucket) then
    (false, if decide (bucket = ∅) then n <| n_by_user := delete user (n_by_user n) |> else n)
  else (true, n <| n_by_user := <[user := bucket ∪ {[ws]}]> (n_by_user n) |>).

Definition ws_disconnect (user ws : Z) (n : node) : node :=
  let bucket := sockets_of user n in
  if decide (bucket = ∅) then n
  else
    let bucket' := bucket ∖ {[ws]} in
    n <| n_by_user := if decide (bucket' = ∅) then delete user (n_by_user n) else <[user := bucket']> (n_by_user n) |>.

(** [_drop]: unregistered, then closed with 1013. *)
Definition ws_drop (user ws : Z) (n : node) : node :=
  let n := ws_disconnect user ws n in n <| n_closed := n_closed n ++ [(ws, 1013)] |>.

(** [_send_one]: [up ws] tells whether the send completes in time; any failure
    drops the socket. *)
Definition send_one (up : Z -> bool) (user : Z) (message : ustr) (n : node) (ws : Z) : node :=
  if up ws then n <| n_sent := n_sent n ++ [(ws, message)] |> else ws_drop user ws n.

Definition send_personal_message (up : Z -> bool) (user : Z) (message : ustr) (n : node) : node :=
  fold_left (send_one up user message) (elements (sockets_of user n)) n.

(** A message of the subscription; [None] is a field that is not a string. *)
Record psmsg := { m_type : ustr; m_channel : option ustr; m_data : option ustr }.

(** The handlers main registers: chat to the sockets, notifications to the
    SSE queues. *)
Definition handler (channel : ustr) (up : Z -> bool) : option (Z -> ustr -> node -> node) :=
  if decide (channel = CHAT_DM_FANOUT_CHANNEL) then Some (send_personal_message up)
  else if decide (channel = NOTIF_SSE_FANOUT_CHANNEL) then
    Some (fun user payload n => n <| n_sse := deliver user payload (n_sse n) |>)
  else None.

Definition dispatch_message `{UnicodeDB} (up : Z -> bool) (msg : psmsg) (n : node) : node :=
  if negb (bool_decide (m_type msg = lit "message")) then n
  else
    match m_channel msg ≫= fun c => handler c up, m_data msg with
    | Some h, Some (c :: raw) =>
        match parse_user_envelope (c :: raw) with
        | None => n
        | Some (targets, payload, origin) =>
            if decide (origin = Some (n_id n)) then n
            else fold_left (fun n u => h u payload n) targets n
        end
    | _, _ => n
    end.

(** ** The cluster *)

(** The instances and, for those whose listener is connected, the messages
    their subscription has not handed over yet.  [c_wires] records the direct
    messages fanned out so far: the text, the peer and the sender. *)
Record cluster := { c_nodes : gmap ustr node; c_links : gmap ustr (list psmsg); c_wires : list (ustr * (Z * Z)) }.
#[export] Instance cluster_eta : Eta cluster := fun c => Build_cluster (c_nodes c) (c_links c) (c_wires c).

(** Redis hands a published message to every connected subscriber. *)
Definition redis_publish (ft : fault) (channel raw : ustr) (links : gmap ustr (list psmsg)) : bool * gmap ustr (list psmsg) :=
  let handed := (fun l => l ++ [{| m_type := lit "message"; m_channel := Some channel; m_data := Some raw |}]) <$> links in
  match ft with
  | NoFault => (true, handed)
  | LostRequest => (false, links)
  | LostReply => (false, handed)
  end.

Definition publish_user_envelope (present : bool) (ft : fault) (origin channel : ustr) (target_user_ids : list Z) (payload : ustr)
    (links : gmap ustr (list psmsg)) : bool * gmap ustr (list psmsg) :=
  if negb present || bool_decide (payload = []) || bool_decide (target_user_ids = []) then (false, links)
  else redis_publish ft channel (user_envelope origin target_user_ids payload) links.

(** [_fanout_dm] at instance [i]. *)
Definition fanout_dm (up : Z -> bool) (present : bool) (ft : fault) (i : ustr) (peer sender : Z) (wire : ustr) (c : cluster) : cluster :=
  match c_nodes c !! i with
  | None => c
  | Some n =>
      {| c_nodes := <[i := send_personal_message up sender wire (send_personal_message up peer wire n)]> (c_nodes c);
         c_links := (publish_user_envelope present ft i CHAT_DM_FANOUT_CHANNEL [peer; sender] wire (c_links c)).2;
         c_wires := c_wires c ++ [(wire, (peer, sender))] |}
  end.

(** The realtime half of [NotificationService.publish_after_commit]. *)
Definition fanout_notification (present : bool) (ft : fault) (i : ustr) (recipient : Z) (payload : ustr) (c : cluster) : cluster :=
  match c_nodes c !! i with
  | None => c
  | Some n =>
      c <| c_nodes := <[i := n <| n_sse := deliver recipient payload (n_sse n) |>]> (c_nodes c) |>
        <| c_links := (publish_user_envelope present ft i NOTIF_SSE_FANOUT_CHANNEL [recipient] payload (c_links c)).2 |>
  end.

(** The listener of [i] handles its next message. *)
Definition receive `{UnicodeDB} (up : Z -> bool) (i : ustr) (c : cluster) : cluster :=
  match c_nodes c !! i, c_links c !! i with
  | Some n, Some (msg :: l) =>
      c <| c_nodes := <[i := dispatch_message up msg n]> (c_nodes c) |> <| c_links := <[i := l]> (c_links c) |>
  | _, _ => c
  end.

Definition with_node (i : ustr) (f : node -> node) (c : cluster) : cluster :=
  match c_nodes c !! i with Some n => c <| c_nodes := <[i := f n]> (c_nodes c) |> | None => c end.

Section Cluster.
(** A socket belongs to one instance and one user. *)
Context `{UnicodeDB} (home : Z -> ustr * Z) (max_connections : Z).

Inductive cluster_step : cluster -> cluster -> Prop :=
  | step_connect i user ws c : home ws = (i, user) ->
      cluster_step c (with_node i (fun n => (ws_connect max_connections user ws n).2) c)
  | step_disconnect i user ws c : cluster_step c (with_node i (ws_disconnect user ws) c)
  | step_fanout up present ft i peer sender wire c :
      peer <> sender -> uuid_ok peer -> uuid_ok sender -> is_text wire = true -> is_text i = true -> wire ∉ (c_wires c).*1 ->
      cluster_step c (fanout_dm up present ft i peer sender wire c)
  | step_notify present ft i recipient payload c : cluster_step c (fanout_notification present ft i recipient payload c)
  | step_receive up i c : cluster_step c (receive up i c)
  | step_listener_lost i c : cluster_step c (c <| c_links := delete i (c_links c) |>)
  | step_listener_up i c : c_links c !! i = None -> is_Some (c_nodes c !! i) -> cluster_step c (c <| c_links := <[i := []]> (c_links c) |>).

Definition fresh_node (i : ustr) : node := {| n_id := i; n_by_user := ∅; n_sse := ∅; n_sent := []; n_closed := [] |}.

Inductive cluster_reachable : cluster -> Prop :=
  | cr_start ids : cluster_reachable
      {| c_nodes := list_to_map ((fun i => (i, fresh_node i)) <$> ids); c_links := ∅; c_wires := [] |}
  | cr_step c c' : cluster_reachable c -> cluster_step c c' -> cluster_reachable c'.
End Cluster.

(** ** Lemmas: envelopes *)

Section Envelopes.
Context `{UnicodeDB}.

Lemma uuid_str_text n : is_text (uuid_str n) = true.
Proof.
  unfold is_text. apply forallb_forall. intros c Hc%list_elem_of_In%uuid_str_chars. unfold between in *. lia.
Qed.

Lemma envelope_plain origin targets payload : is_text origin = true -> is_text payload = true ->
  plain (JObj [(lit "origin", JStr origin); (lit "target_user_ids", JArr ((fun u => JStr (uuid_str u)) <$> targets));
               (lit "payload", JStr payload)]) = true.
Proof.
  intros Ho Hp. cbn [plain forallb fst snd fmap list_fmap]. rewrite Ho, Hp.
  rewrite (proj2 (forallb_forall plain _)); [by vm_compute|]. intros v Hv%list_elem_of_In.
  apply list_elem_of_fmap in Hv as (u & -> & _). apply uuid_str_text.
Qed.

Lemma parse_envelope origin targets payload :
  Forall uuid_ok targets -> is_text origin = true -> is_text payload = true ->
  parse_user_envelope (user_envelope origin targets payload) = Some (targets, payload, Some origin).
Proof.
  intros Ht Ho Hp. unfold parse_user_envelope, user_envelope. rewrite loads_dumps by (by apply envelope_plain).
  set (data := [_; _; _]).
  assert (dict_get (lit "target_user_ids") data = Some (JArr ((fun u => JStr (uuid_str u)) <$> targets))) as -> by reflexivity.
  assert (dict_get (lit "payload") data = Some (JStr payload)) as -> by reflexivity.
  assert (dict_get (lit "origin") data = Some (JStr origin)) as -> by reflexivity. clear data.
  assert (iterated_texts (JArr ((fun u => JStr (uuid_str u)) <$> targets)) = Some (uuid_str <$> targets)) as Htexts.
  { unfold iterated_texts. apply mapM_Some, Forall2_fmap. clear. induction targets; by constructor. }
  assert (mapM uuid_or_none (uuid_str <$> targets) = Some targets) as Hids.
  { apply mapM_Some, Forall2_fmap_l. clear -Ht. induction Ht as [|u l Hu _ IH]; constructor; [|done].
    change (uuid_or_none (uuid_str u) = Some u). unfold uuid_or_none. by rewrite uuid_str_codec. }
  unfold mbind at 1, option_bind at 1. rewrite Htexts. unfold mbind at 1, option_bind at 1. by rewrite Hids.
Qed.
End Envelopes.

(** ** Lemmas: one instance *)

Definition registered (n : node) (user ws : Z) : Prop := ws ∈ sockets_of user n.

Lemma sockets_of_insert user b u n : sockets_of u (n <| n_by_user := <[user := b]> (n_by_user n) |>) = if decide (u = user) then b else sockets_of u n.
Proof.
  unfold sockets_of. cbn [n_by_user over]. destruct (decide (u = user)) as [->|].
  - by rewrite lookup_insert_eq.
  - by rewrite lookup_insert_ne.
Qed.
Lemma sockets_of_delete user u n : sockets_of u (n <| n_by_user := delete user (n_by_user n) |>) = if decide (u = user) then ∅ else sockets_of u n.
Proof.
  unfold sockets_of. cbn [n_by_user over]. destruct (decide (u = user)) as [->|].
  - by rewrite lookup_delete_eq.
  - by rewrite lookup_delete_ne.
Qed.

Lemma ws_disconnect_sockets user ws u n :
  sockets_of u (ws_disconnect user ws n) = if decide (u = user) then sockets_of u n ∖ {[ws]} else sockets_of u n.
Proof.
  unfold ws_disconnect. destruct (decide (sockets_of user n = ∅)) as [E|E].
  - destruct (decide (u = user)) as [->|]; [|done]. rewrite E. set_solver.
  - destruct (decide (sockets_of user n ∖ {[ws]} = ∅)) as [E2|E2].
    + rewrite sockets_of_delete. destruct (decide (u = user)) as [->|]; [by rewrite E2|done].
    + rewrite sockets_of_insert. by destruct (decide (u = user)) as [->|].
Qed.

Lemma ws_connect_sockets max user ws u n :
  sockets_of u (ws_connect max user ws n).2 =
  if decide (u = user) then (if (ws_connect max user ws n).1 then sockets_of u n ∪ {[ws]} else sockets_of u n) else sockets_of u n.
Proof.
  unfold ws_connect. destruct (max <=? _); cbn [fst snd].
  - destruct (decide (sockets_of user n = ∅)) as [E|E]; [|by destruct (decide (u = user))].
    rewrite sockets_of_delete. by destruct (decide (u = user)) as [->|].
  - rewrite sockets_of_insert. by destruct (decide (u = user)) as [->|].
Qed.

(** What a message to a user does at an instance: each socket whose send
    completes gets it once, the others are unregistered and closed with 1013. *)
Lemma send_all_spec up user message (l : list Z) n :
  fold_left (send_one up user message) l n =
  let n' := fold_left (fun n ws => ws_disconnect user ws n) (List.filter (fun ws => negb (up ws)) l) n in
  n' <| n_sent := n_sent n ++ ((fun ws => (ws, message)) <$> List.filter up l) |>
     <| n_closed := n_closed n ++ ((fun ws => (ws, 1013)) <$> List.filter (fun ws => negb (up ws)) l) |>.
Proof.
  revert n. induction l as [|ws l IH]; intros n; cbn [fold_left List.filter].
  { cbn. rewrite !app_nil_r. by destruct n. }
  rewrite IH. clear IH. cbn zeta. unfold send_one. destruct (up ws); cbn [negb fmap list_fmap fold_left].
  - cbn [n_sent n_closed over]. rewrite <-app_assoc. cbn [app].
    set (k := List.filter (fun ws => negb (up ws)) l). clearbody k.
    assert (forall n s, fold_left (fun n ws => ws_disconnect user ws n) k (n <| n_sent := s |>) =
      (fold_left (fun n ws => ws_disconnect user ws n) k n) <| n_sent := s |>) as ->; [|done].
    clear. induction k as [|w k IH]; intros n s; cbn [fold_left]; [done|]. rewrite <-IH. f_equal.
    unfold ws_disconnect. change (sockets_of user (n <| n_sent := s |>)) with (sockets_of user n).
    by destruct (decide _).
  - unfold ws_drop. cbn [n_sent n_closed over]. rewrite <-app_assoc. cbn [app].
    set (k := List.filter (fun ws => negb (up ws)) l). clearbody k.
    assert (forall n s, fold_left (fun n ws => ws_disconnect user ws n) k (n <| n_closed := s |>) =
      (fold_left (fun n ws => ws_disconnect user ws n) k n) <| n_closed := s |>) as ->.
    { clear. induction k as [|w k IH]; intros n s; cbn [fold_left]; [done|]. rewrite <-IH. f_equal.
      unfold ws_disconnect. change (sockets_of user (n <| n_closed := s |>)) with (sockets_of user n). by destruct (decide _). }
    assert (n_sent (ws_disconnect user ws n) = n_sent n /\ n_closed (ws_disconnect user ws n) = n_closed n) as [-> ->]; [|done].
    unfold ws_disconnect. by destruct (decide _).
Qed.

Lemma disconnect_all_sockets user l u n :
  sockets_of u (fold_left (fun n ws => ws_disconnect user ws n) l n) = if decide (u = user) then sockets_of u n ∖ list_to_set l else sockets_of u n.
Proof.
  revert n. induction l as [|ws l IH]; intros n; cbn [fold_left list_to_set].
  - destruct (decide (u = user)); set_solver.
  - rewrite IH, ws_disconnect_sockets. destruct (decide (u = user)); set_solver.
Qed.

Lemma disconnect_all_rest user l n :
  let n' := fold_left (fun n ws => ws_disconnect user ws n) l n in n_id n' = n_id n /\ n_sse n' = n_sse n.
Proof.
  revert n. induction l as [|ws l IH]; intros n; cbn [fold_left]; [done|]. cbn zeta in *. destruct (IH (ws_disconnect user ws n)) as [-> ->].
  unfold ws_disconnect. by destruct (decide _).
Qed.

Lemma send_personal_sent up user message n :
  let n' := send_personal_message up user message n in
  n_id n' = n_id n /\ n_sse n' = n_sse n /\
  n_sent n' = n_sent n ++ ((fun ws => (ws, message)) <$> List.filter up (elements (sockets_of user n))) /\
  n_closed n' = n_closed n ++ ((fun ws => (ws, 1013)) <$> List.filter (fun ws => negb (up ws)) (elements (sockets_of user n))) /\
  (forall u ws, ws ∈ sockets_of u n' <-> ws ∈ sockets_of u n /\ (u = user -> up ws = true)).
Proof.
  cbn zeta. unfold send_personal_message. rewrite send_all_spec. cbn zeta.
  destruct (disconnect_all_rest user (List.filter (fun ws => negb (up ws)) (elements (sockets_of user n))) n) as [H1 H2].
  split; [exact H1|split; [exact H2|split; [done|split; [done|]]]]. intros u ws.
  match goal with |- ws ∈ sockets_of u ?x <-> _ => change (sockets_of u x) with
    (sockets_of u (fold_left (fun n ws => ws_disconnect user ws n) (List.filter (fun ws => negb (up ws)) (elements (sockets_of user n))) n)) end.
  rewrite disconnect_all_sockets. destruct (decide (u = user)) as [->|Hne]; [|naive_solver].
  rewrite elem_of_difference, elem_of_list_to_set, list_elem_of_In, filter_In, <-list_elem_of_In, elem_of_elements.
  destruct (up ws) eqn:E; cbn; rewrite ?E; naive_solver.
Qed.

(** ** The cluster invariant *)

Definition chat_envelope (origin : ustr) (peer sender : Z) (wire : ustr) : psmsg :=
  {| m_type := lit "message"; m_channel := Some CHAT_DM_FANOUT_CHANNEL; m_data := Some (user_envelope origin [peer; sender] wire) |}.

(** A pending message: a direct message with its origin and text, or a notification. *)
Inductive pending (wires : list (ustr * (Z * Z))) : psmsg -> option (ustr * ustr) -> Prop :=
  | pending_chat o p s w : p <> s -> uuid_ok p -> uuid_ok s -> is_text o = true -> is_text w = true -> (w, (p, s)) ∈ wires ->
      pending wires (chat_envelope o p s w) (Some (o, w))
  | pending_notif raw : pending wires {| m_type := lit "message"; m_channel := Some NOTIF_SSE_FANOUT_CHANNEL; m_data := Some raw |} None.

Section Invariant.
Context `{UnicodeDB} (home : Z -> ustr * Z) (max_connections : Z).

Definition node_ok (j : ustr) (n : node) (wires : list (ustr * (Z * Z))) : Prop :=
  n_id n = j /\ (forall u ws, ws ∈ sockets_of u n -> home ws = (j, u)) /\ NoDup (n_sent n) /\
  (forall ws w, (ws, w) ∈ n_sent n -> exists p s, (w, (p, s)) ∈ wires /\ (home ws = (j, p) \/ home ws = (j, s))).

Definition link_ok (j : ustr) (n : node) (wires : list (ustr * (Z * Z))) (l : list psmsg) : Prop :=
  exists ps, Forall2 (pending wires) l ps /\ NoDup (omap id ps).*2 /\
    forall o w ws, Some (o, w) ∈ ps -> o <> j -> (ws, w) ∉ n_sent n.

Definition cluster_ok (c : cluster) : Prop :=
  NoDup (c_wires c).*1 /\
  (forall j n, c_nodes c !! j = Some n -> node_ok j n (c_wires c)) /\
  (forall j l, c_links c !! j = Some l -> exists n, c_nodes c !! j = Some n /\ link_ok j n (c_wires c) l).

Lemma node_ok_mono j n wires w : node_ok j n wires -> node_ok j n (wires ++ [w]).
Proof. intros (H1 & H2 & H3 & H4). split_and!; try done. intros ws x (p & s & Hin & Hh)%H4. exists p, s. set_solver. Qed.

Lemma node_ok_sockets j n n' wires : node_ok j n wires -> n_id n' = n_id n -> n_sent n' = n_sent n ->
  (forall u ws, ws ∈ sockets_of u n' -> ws ∈ sockets_of u n \/ home ws = (j, u)) -> node_ok j n' wires.
Proof.
  intros (H1 & H2 & H3 & H4) Hi Hs Hsub. split_and!; [by rewrite Hi| |by rewrite Hs|by rewrite Hs].
  intros u ws [?|?]%Hsub; auto.
Qed.

(** One user's sockets get a text they have not had. *)
Lemma node_ok_send up j n wires p w q : node_ok j n wires -> (exists r, (w, (p, r)) ∈ wires \/ (w, (r, p)) ∈ wires) ->
  (forall ws, (ws, w) ∈ n_sent n -> home ws = (j, q)) -> q <> p ->
  let n' := send_personal_message up p w n in
  node_ok j n' wires /\ (forall ws x, (ws, x) ∈ n_sent n' -> (ws, x) ∈ n_sent n \/ (x = w /\ home ws = (j, p))).
Proof.
  intros (H1 & H2 & H3 & H4) Hw Hold Hqp. destruct (send_personal_sent up p w n) as (Hi & _ & Hs & _ & Hk). cbn zeta in *.
  assert (forall ws x, (ws, x) ∈ (fun ws => (ws, w)) <$> List.filter up (elements (sockets_of p n)) -> x = w /\ home ws = (j, p)) as Hnew.
  { intros ws x (y & [= -> ->] & Hy)%list_elem_of_fmap. split; [done|]. apply H2.
    apply list_elem_of_In, filter_In in Hy as [Hy%list_elem_of_In _]. by apply elem_of_elements. }
  split; [split_and!|].
  - by rewrite Hi.
  - intros u ws [Hin _]%Hk. by apply H2.
  - rewrite Hs. apply NoDup_app. split_and!; [done| |].
    + intros [ws x] Hin [-> Hh]%Hnew. specialize (Hold ws Hin). congruence.
    + apply NoDup_fmap_2; [by intros ?? [=]|]. apply NoDup_ListNoDup, List.NoDup_filter, NoDup_ListNoDup, NoDup_elements.
  - intros ws x. rewrite Hs. intros [Hin|Hin]%elem_of_app; [by apply H4|]. apply Hnew in Hin as [-> Hh].
    destruct Hw as (r & [Hr|Hr]); [exists p, r|exists r, p]; auto.
  - intros ws x. rewrite Hs. intros [Hin|Hin]%elem_of_app; [by left|right]. by apply Hnew.
Qed.

Lemma node_ok_pair up j n wires p s w : node_ok j n wires -> p <> s -> (w, (p, s)) ∈ wires -> (forall ws, (ws, w) ∉ n_sent n) ->
  let n' := send_personal_message up s w (send_personal_message up p w n) in
  node_ok j n' wires /\ (forall ws x, (ws, x) ∈ n_sent n' -> (ws, x) ∈ n_sent n \/ x = w).
Proof.
  intros Hn Hps Hin Hnone. cbn zeta.
  destruct (node_ok_send up j n wires p w s Hn) as [Hn1 Hs1]; [eauto|by intros ws ?%Hnone|congruence|]. cbn zeta in *.
  destruct (node_ok_send up j (send_personal_message up p w n) wires s w p Hn1) as [Hn2 Hs2]; [eauto| |done|].
  - intros ws [Hx|[_ Hx]]%Hs1; [by apply Hnone in Hx|done].
  - split; [done|]. intros ws x [Hx|[-> _]]%Hs2; [|by right]. apply Hs1 in Hx. naive_solver.
Qed.

Lemma dispatch_chat up o p s w n : uuid_ok p -> uuid_ok s -> is_text o = true -> is_text w = true ->
  dispatch_message up (chat_envelope o p s w) n =
  if decide (o = n_id n) then n else send_personal_message up s w (send_personal_message up p w n).
Proof.
  intros Hp Hs Ho Hw. unfold dispatch_message. cbn [chat_envelope m_type m_channel m_data].
  rewrite bool_decide_eq_true_2 by done. cbn [negb].
  change (Some CHAT_DM_FANOUT_CHANNEL ≫= fun c => handler c up) with (Some (send_personal_message up)).
  pose proof (parse_envelope o [p; s] w (Forall_cons_2 _ _ _ Hp (Forall_cons_2 _ _ _ Hs (Forall_nil_2 _))) Ho Hw) as He.
  destruct (user_envelope o [p; s] w) as [|c raw] eqn:E; [done|]. rewrite He.
  destruct (decide (o = n_id n)) as [->|Hne]; [by rewrite decide_True|]. rewrite decide_False by congruence. done.
Qed.

Lemma dispatch_notif up raw n : exists sse,
  dispatch_message up {| m_type := lit "message"; m_channel := Some NOTIF_SSE_FANOUT_CHANNEL; m_data := Some raw |} n = n <| n_sse := sse |>.
Proof.
  assert (forall (f : Z -> ustr -> fanout -> fanout) l (pl : ustr) n, exists sse,
    fold_left (fun n u => n <| n_sse := f u pl (n_sse n) |>) l n = n <| n_sse := sse |>) as Hf.
  { intros f l pl. induction l as [|u l IH]; intros m; cbn [fold_left]; [by exists (n_sse m); destruct m|].
    destruct (IH (m <| n_sse := f u pl (n_sse m) |>)) as [sse ->]. by exists sse. }
  assert (exists sse, n = n <| n_sse := sse |>) as Hn by (exists (n_sse n); by destruct n).
  unfold dispatch_message. cbn [m_type m_channel m_data]. rewrite bool_decide_eq_true_2 by done. cbn [negb].
  change (Some NOTIF_SSE_FANOUT_CHANNEL ≫= fun c => handler c up) with
    (Some (fun user payload n => n <| n_sse := deliver user payload (n_sse n) |>)).
  destruct raw as [|c raw]; [done|]. destruct (parse_user_envelope (c :: raw)) as [[[ts pl] o]|]; [|done].
  destruct (decide _); [done|]. apply Hf.
Qed.

Lemma pending_wire wires l ps o w : Forall2 (pending wires) l ps -> Some (o, w) ∈ ps -> w ∈ wires.*1.
Proof.
  induction 1 as [|m q l ps Hp _ IH]; [set_solver|]. intros [<-|]%elem_of_cons; [|auto].
  inversion Hp; subst. apply list_elem_of_fmap. eexists. by split; [|done].
Qed.

Lemma link_ok_node j n n' wires l : (forall ws x, (ws, x) ∈ n_sent n' -> (ws, x) ∈ n_sent n \/ x ∉ wires.*1) ->
  link_ok j n wires l -> link_ok j n' wires l.
Proof.
  intros Hsub (ps & HF & Hnd & Hno). exists ps. split; [done|split; [done|]]. intros o w ws Hin Ho [Hx|Hx]%Hsub; [by eapply Hno|].
  by eapply Hx, pending_wire.
Qed.

Lemma pending_mono wires x m q : pending wires m q -> pending (wires ++ [x]) m q.
Proof. destruct 1; constructor; try done. set_solver. Qed.

Lemma link_ok_mono j n wires x l : link_ok j n wires l -> link_ok j n (wires ++ [x]) l.
Proof.
  intros (ps & HF & Hr). exists ps. split; [|done]. eapply Forall2_impl; [exact HF|]. intros m q. apply pending_mono.
Qed.

(** A new direct message at the end of a subscription. *)
Lemma link_ok_snoc j n wires l o p s w : link_ok j n wires l -> p <> s -> uuid_ok p -> uuid_ok s -> is_text o = true -> is_text w = true ->
  w ∉ wires.*1 -> (o <> j -> forall ws, (ws, w) ∉ n_sent n) -> link_ok j n (wires ++ [(w, (p, s))]) (l ++ [chat_envelope o p s w]).
Proof.
  intros (ps & HF & Hnd & Hno) ????? Hfresh Hsent. exists (ps ++ [Some (o, w)]). split_and!.
  - apply Forall2_app; [eapply Forall2_impl; [exact HF|]; intros; by apply pending_mono|]. constructor; [|constructor].
    constructor; try done. set_solver.
  - rewrite omap_app, fmap_app. apply NoDup_app. split_and!; [done| |by apply NoDup_singleton].
    intros x (q & -> & Hq)%list_elem_of_fmap Hx. cbn in Hx. apply list_elem_of_singleton in Hx.
    apply list_elem_of_omap in Hq as ([y|] & Hy & Hyq); [|done]. cbn in Hyq. injection Hyq as ->. destruct q as [o' w']. cbn in *. subst.
    by eapply Hfresh, pending_wire.
  - intros o' w' ws [Hin|Hin]%elem_of_app Ho; [by eapply Hno|]. apply list_elem_of_singleton in Hin. injection Hin as -> ->. by apply Hsent.
Qed.

(** Replacing one instance whose sent texts only grow by texts not yet fanned out. *)
Lemma cluster_ok_node i n n' c : cluster_ok c -> c_nodes c !! i = Some n -> node_ok i n' (c_wires c) ->
  (forall ws x, (ws, x) ∈ n_sent n' -> (ws, x) ∈ n_sent n) -> cluster_ok (c <| c_nodes := <[i := n']> (c_nodes c) |>).
Proof.
  intros (Hw & Hn & Hl) Hi Hok Hsub. split; [done|]. cbn [c_nodes c_links c_wires over]. split.
  - intros j m. destruct (decide (j = i)) as [->|Hne]; [rewrite lookup_insert_eq; by intros [= <-]|].
    rewrite lookup_insert_ne by done. apply Hn.
  - intros j l Hj. destruct (Hl j l Hj) as (m & Hm & Hlk). destruct (decide (j = i)) as [->|Hne].
    + exists n'. rewrite lookup_insert_eq. split; [done|]. simplify_eq. eapply link_ok_node; [|exact Hlk]. intros ws x Hx. left. by apply Hsub.
    + exists m. by rewrite lookup_insert_ne.
Qed.

Lemma cluster_ok_with_node i f c : cluster_ok c ->
  (forall n, c_nodes c !! i = Some n -> n_id (f n) = n_id n /\ n_sent (f n) = n_sent n /\
     forall u ws, ws ∈ sockets_of u (f n) -> ws ∈ sockets_of u n \/ home ws = (i, u)) ->
  cluster_ok (with_node i f c).
Proof.
  intros Hok Hf. unfold with_node. destruct (c_nodes c !! i) as [n|] eqn:E; [|done]. destruct (Hf n eq_refl) as (Hi & Hs & Hk).
  eapply cluster_ok_node; try done.
  - eapply node_ok_sockets; try done. destruct Hok as (_ & Hn & _). by apply Hn.
  - by rewrite Hs.
Qed.

Lemma publish_links present ft o ch ts pl links j l :
  (publish_user_envelope present ft o ch ts pl links).2 !! j = Some l ->
  exists l0, links !! j = Some l0 /\
    (l = l0 \/ l = l0 ++ [{| m_type := lit "message"; m_channel := Some ch; m_data := Some (user_envelope o ts pl) |}]).
Proof.
  unfold publish_user_envelope, redis_publish. destruct (_ || _); [eauto|].
  destruct ft; cbn [snd]; [|eauto|]; rewrite lookup_fmap; intros (l0 & Hl & ->)%fmap_Some; eauto.
Qed.

Lemma cluster_ok_fanout up present ft i p s w c : cluster_ok c -> p <> s -> uuid_ok p -> uuid_ok s -> is_text w = true -> is_text i = true ->
  w ∉ (c_wires c).*1 -> cluster_ok (fanout_dm up present ft i p s w c).
Proof.
  intros (Hw & Hn & Hl) Hps Hp Hs Htw Hti Hfresh. unfold fanout_dm. destruct (c_nodes c !! i) as [n|] eqn:E; [|done].
  assert (forall j m ws, c_nodes c !! j = Some m -> (ws, w) ∉ n_sent m) as Hnone.
  { intros j m ws Hj Hin. destruct (Hn j m Hj) as (_ & _ & _ & H4). destruct (H4 ws w Hin) as (p' & s' & Hin' & _).
    apply Hfresh, list_elem_of_fmap. by exists (w, (p', s')). }
  destruct (node_ok_pair up i n (c_wires c ++ [(w, (p, s))]) p s w) as [Hnew Hsent];
    [by apply node_ok_mono, Hn|done|set_solver|by intros ws; eapply Hnone|]. cbn zeta in *.
  split; cbn [c_nodes c_links c_wires]; [|split].
  - rewrite fmap_app. apply NoDup_app. split_and!; [done|set_solver|apply NoDup_singleton].
  - intros j m. destruct (decide (j = i)) as [->|Hne]; [rewrite lookup_insert_eq; by intros [= <-]|].
    rewrite lookup_insert_ne by done. intros Hj. by apply node_ok_mono, Hn.
  - intros j l Hj. apply publish_links in Hj as (l0 & Hl0 & Hlc). destruct (Hl j l0 Hl0) as (m & Hm & Hlk).
    set (m' := if decide (j = i) then send_personal_message up s w (send_personal_message up p w n) else m).
    exists m'. assert (forall ws x, (ws, x) ∈ n_sent m' -> (ws, x) ∈ n_sent m \/ x ∉ (c_wires c).*1) as Hm'.
    { intros ws x. unfold m'. destruct (decide (j = i)) as [->|]; [|by left]. simplify_eq. intros [?| ->]%Hsent; [by left|by right]. }
    split.
    { unfold m'. destruct (decide (j = i)) as [->|Hne]; [by rewrite lookup_insert_eq|by rewrite lookup_insert_ne]. }
    pose proof (link_ok_node j m m' (c_wires c) l0 Hm' Hlk) as Hlk'. destruct Hlc as [->| ->]; [by apply link_ok_mono|].
    apply link_ok_snoc; try done. intros Hij ws. unfold m'. rewrite decide_False by done. by eapply Hnone.
Qed.

Lemma cluster_ok_receive up i c : cluster_ok c -> cluster_ok (receive up i c).
Proof.
  intros Hok. unfold receive. destruct (c_nodes c !! i) as [n|] eqn:E, (c_links c !! i) as [[|msg l]|] eqn:El; try done.
  destruct Hok as (Hw & Hn & Hl). destruct (Hl i _ El) as (n0 & E0 & ps & HF & Hnd & Hno). simplify_eq.
  apply Forall2_cons_inv_l in HF as (q & ps' & Hq & HF & ->).
  assert (exists n', dispatch_message up msg n = n' /\ node_ok i n' (c_wires c) /\
    forall ws x, (ws, x) ∈ n_sent n' -> (ws, x) ∈ n_sent n \/ exists o, q = Some (o, x)) as (n' & -> & Hok' & Hsent).
  { eexists. split; [reflexivity|]. destruct Hq as [o p s w Hps Hp Hs Ho Hwt Hin|raw].
    - rewrite dispatch_chat by done. destruct (Hn i n E) as (Hid & _). destruct (decide (o = n_id n)) as [Heq|Hne].
      + split; [by apply Hn|]. by left.
      + destruct (node_ok_pair up i n (c_wires c) p s w) as [H1 H2]; [by apply Hn|done|done| |].
        * intros ws. apply (Hno o w); [set_solver|congruence].
        * split; [done|]. intros ws x [?| ->]%H2; [by left|right; eauto].
    - destruct (dispatch_notif up raw n) as [sse ->]. split; [|by left].
      eapply (node_ok_sockets i n); [by apply Hn|done|done|]. by left. }
  split; [done|]. cbn [c_nodes c_links c_wires over]. split.
  - intros j m. destruct (decide (j = i)) as [->|Hne]; [rewrite lookup_insert_eq; by intros [= <-]|].
    rewrite lookup_insert_ne by done. apply Hn.
  - intros j k. destruct (decide (j = i)) as [->|Hne].
    + rewrite !lookup_insert_eq. intros [= <-]. exists n'. split; [done|]. exists ps'. split; [done|]. split.
      * destruct q; cbn in Hnd; [by apply NoDup_cons in Hnd as [_ ?]|done].
      * intros o w ws Hin Ho [Hx|(o' & ->)]%Hsent; [by apply (Hno o w ws); [set_solver| |]|].
        cbn in Hnd. apply NoDup_cons in Hnd as [Hnin _]. apply Hnin, list_elem_of_fmap. exists (o, w). split; [done|].
        apply list_elem_of_omap. by exists (Some (o, w)).
    + rewrite !lookup_insert_ne by done. apply Hl.
Qed.

Lemma cluster_ok_step c c' : cluster_ok c -> cluster_step home max_connections c c' -> cluster_ok c'.
Proof.
  intros Hok Hs. destruct Hs as [i user ws c Hh|i user ws c|up present ft i p s w c|present ft i r pl c|up i c|i c|i c Hnl Hi].
  - apply cluster_ok_with_node; [done|]. intros n Hn.
    assert (n_id (ws_connect max_connections user ws n).2 = n_id n /\ n_sent (ws_connect max_connections user ws n).2 = n_sent n) as [-> ->].
    { unfold ws_connect. destruct (_ <=? _); cbn [snd]; [by destruct (decide _)|done]. }
    split; [done|split; [done|]]. intros u ws'. rewrite ws_connect_sockets. destruct (decide (u = user)) as [->|]; [|by left].
    destruct (ws_connect _ _ _ _).1; [|by left]. intros [?|E]%elem_of_union; [by left|right]. by apply elem_of_singleton in E as ->.
  - apply cluster_ok_with_node; [done|]. intros n Hn.
    assert (n_id (ws_disconnect user ws n) = n_id n /\ n_sent (ws_disconnect user ws n) = n_sent n) as [-> ->].
    { unfold ws_disconnect. by destruct (decide _). }
    split; [done|split; [done|]]. intros u ws'. rewrite ws_disconnect_sockets. destruct (decide (u = user)); set_solver.
  - by apply cluster_ok_fanout.
  - unfold fanout_notification. destruct (c_nodes c !! i) as [n|] eqn:E; [|done].
    destruct (cluster_ok_node i n (n <| n_sse := deliver r pl (n_sse n) |>) c Hok E) as (Hw & Hn & Hl); [|done|].
    { destruct Hok as (_ & Hn & _). eapply (node_ok_sockets i n); [by apply Hn|done|done|]. by left. }
    split; [exact Hw|split; [exact Hn|]]. cbn [c_nodes c_links c_wires over] in *. intros j l Hj.
    apply publish_links in Hj as (l0 & Hl0 & Hlc). destruct (Hl j l0 Hl0) as (m & Hm & Hlk). exists m. split; [done|].
    destruct Hlc as [->| ->]; [done|]. destruct Hlk as (ps & HF & Hnd & Hno). exists (ps ++ [None]). split_and!.
    + apply Forall2_app; [done|]. repeat constructor.
    + rewrite omap_app. cbn. by rewrite app_nil_r.
    + intros o w ws. rewrite elem_of_app, list_elem_of_singleton. intros [?|?]; [by apply Hno|done].
  - by apply cluster_ok_receive.
  - destruct Hok as (Hw & Hn & Hl). split; [done|split; [done|]]. cbn [c_nodes c_links c_wires over]. intros j l [_ Hj]%lookup_delete_Some. by apply Hl.
  - destruct Hok as (Hw & Hn & Hl). split; [done|split; [done|]]. cbn [c_nodes c_links c_wires over]. intros j l.
    destruct (decide (j = i)) as [->|Hne]; [|rewrite lookup_insert_ne by done; apply Hl]. rewrite lookup_insert_eq. intros [= <-].
    destruct Hi as [n Hi]. exists n. split; [done|]. exists []. split; [constructor|]. split; [constructor|]. set_solver.
Qed.

Lemma cluster_reachable_ok c : cluster_reachable home max_connections c -> cluster_ok c.
Proof.
  induction 1 as [ids|c c' _ IH Hs]; [|by eapply cluster_ok_step]. split; [constructor|]. split; [|done].
  cbn [c_nodes c_wires]. intros j n Hj%elem_of_list_to_map_2. apply list_elem_of_fmap in Hj as (i & [= -> ->] & _).
  split_and!; [done| |constructor|]; cbn.
  - intros u ws. unfold sockets_of. cbn. rewrite lookup_empty. set_solver.
  - set_solver.
Qed.

(** C8. Realtime delivery is at most once and private: in every state the
    cluster can reach, with listeners dropping and reconnecting, publishes
    failing or losing only their reply, sockets coming and going and sends
    timing out, no socket has been sent the same direct message twice, neither
    by one instance nor by two, and it belongs to the message's sender or
    recipient. *)
Theorem dm_at_most_once_and_private c j n k m ws w :
  cluster_reachable home max_connections c -> c_nodes c !! j = Some n -> c_nodes c !! k = Some m ->
  NoDup (n_sent n) /\ (forall v, (ws, w) ∈ n_sent n -> (ws, v) ∈ n_sent m -> j = k) /\
  ((ws, w) ∈ n_sent n -> exists peer sender, (w, (peer, sender)) ∈ c_wires c /\ (home ws = (j, peer) \/ home ws = (j, sender))).
Proof.
  intros (_ & Hn & _)%cluster_reachable_ok Hj Hk. destruct (Hn j n Hj) as (_ & _ & Hnd & Hs), (Hn k m Hk) as (_ & _ & _ & Hs').
  split; [done|]. split; [|by apply Hs]. intros v H1 H2. destruct (Hs ws w H1) as (p & s & _ & Hh), (Hs' ws v H2) as (p' & s' & _ & Hh').
  destruct Hh as [Hh|Hh], Hh' as [Hh'|Hh']; congruence.
Qed.
End Invariant.

(** ** Delivery *)

(** A socket of [user]: served, or closed so that the client reconnects. *)
Definition served (up : Z -> bool) (user ws : Z) (wire : ustr) (n : node) : Prop :=
  if up ws then (ws, wire) ∈ n_sent n /\ ws ∈ sockets_of user n
  else (ws, 1013) ∈ n_closed n /\ ws ∉ sockets_of user n.

Lemma send_serves up user wire n ws : ws ∈ sockets_of user n -> served up user ws wire (send_personal_message up user wire n).
Proof.
  intros Hin. destruct (send_personal_sent up user wire n) as (_ & _ & Hs & Hc & Hk). cbn zeta in *. unfold served.
  assert (ws ∈ elements (sockets_of user n)) as Hel by (by apply elem_of_elements).
  destruct (up ws) eqn:E; rewrite Hk.
  - split; [|done]. rewrite Hs. apply elem_of_app. right. apply list_elem_of_fmap. exists ws. split; [done|].
    by apply list_elem_of_In, filter_In; rewrite <-list_elem_of_In.
  - split; [|naive_solver congruence]. rewrite Hc. apply elem_of_app. right. apply list_elem_of_fmap. exists ws. split; [done|].
    apply list_elem_of_In, filter_In. by rewrite <-list_elem_of_In, E.
Qed.

Lemma send_keeps_served up user other wire x n ws : user <> other -> served up user ws wire n ->
  served up user ws wire (send_personal_message up other x n).
Proof.
  intros Hne. destruct (send_personal_sent up other x n) as (_ & _ & Hs & Hc & Hk). cbn zeta in *. unfold served.
  destruct (up ws); rewrite Hk, ?Hs, ?Hc, ?elem_of_app; naive_solver.
Qed.

Lemma pair_serves up p s wire n u ws : p <> s -> u = p \/ u = s -> ws ∈ sockets_of u n ->
  served up u ws wire (send_personal_message up s wire (send_personal_message up p wire n)).
Proof.
  intros Hps [->| ->] Hin.
  - apply send_keeps_served; [done|]. by apply send_serves.
  - apply send_serves. destruct (send_personal_sent up p wire n) as (_ & _ & _ & _ & Hk). cbn zeta in *. apply Hk. naive_solver.
Qed.

(** Realtime delivery reaches everyone it can: after a fan-out, every open
    socket of the sender and of the recipient at that instance, whatever the
    state of Redis, has the message or has been closed with 1013 and
    unregistered; if the publish arrives, so does every such socket at another
    instance once its listener handles the message, and the publishing
    instance's own copy changes nothing. *)
Theorem dm_reaches_open_sockets `{UnicodeDB} up up' present ft i peer sender wire c n :
  peer <> sender -> uuid_ok peer -> uuid_ok sender -> is_text wire = true -> is_text i = true -> wire <> [] ->
  c_nodes c !! i = Some n -> n_id n = i ->
  let c1 := fanout_dm up present ft i peer sender wire c in
  (forall u ws, u = peer \/ u = sender -> ws ∈ sockets_of u n ->
     exists n1, c_nodes c1 !! i = Some n1 /\ served up u ws wire n1) /\
  (present = true -> ft <> LostRequest ->
     (forall j m u ws, j <> i -> c_nodes c !! j = Some m -> n_id m = j -> c_links c !! j = Some [] ->
        u = peer \/ u = sender -> ws ∈ sockets_of u m ->
        exists m1, c_nodes (receive up' j c1) !! j = Some m1 /\ served up' u ws wire m1) /\
     (c_links c !! i = Some [] -> c_nodes (receive up' i c1) = c_nodes c1)).
Proof.
  intros Hps Hp Hs Hw Hi Hne Hn Hid. cbn zeta. unfold fanout_dm. rewrite Hn. split.
  - intros u ws Hu Hin. cbn [c_nodes]. eexists. rewrite lookup_insert_eq. split; [reflexivity|]. by apply pair_serves.
  - intros -> Hft. unfold publish_user_envelope. cbn [negb orb]. rewrite (bool_decide_eq_false_2 (wire = [])) by done. cbn [orb bool_decide decide].
    rewrite bool_decide_eq_false_2 by done.
    assert (forall links, (redis_publish ft CHAT_DM_FANOUT_CHANNEL (user_envelope i [peer; sender] wire) links).2 =
      (fun l => l ++ [chat_envelope i peer sender wire]) <$> links) as Hpub by (intros; by destruct ft).
    rewrite Hpub. split.
    + intros j m u ws Hj Hm Hmid Hl Hu Hin. unfold receive. cbn [c_nodes c_links]. rewrite lookup_insert_ne, Hm, lookup_fmap, Hl by done.
      cbn [fmap option_fmap option_map app]. cbn [c_nodes over]. eexists. rewrite lookup_insert_eq. split; [reflexivity|].
      rewrite dispatch_chat by done. rewrite decide_False by congruence. by apply pair_serves.
    + intros Hl. unfold receive. cbn [c_nodes c_links]. rewrite lookup_insert_eq, lookup_fmap, Hl. cbn [fmap option_fmap option_map app c_nodes over].
      rewrite dispatch_chat, insert_insert_eq by done. f_equal. rewrite decide_True; [done|].
      destruct (send_personal_sent up sender wire (send_personal_message up peer wire n)) as (-> & _).
      by destruct (send_personal_sent up peer wire n) as (-> & _).
Qed.

(** ** Connection limit *)

Definition conns_ok (max_connections : Z) (n : node) : Prop :=
  forall u b, n_by_user n !! u = Some b -> b <> ∅ /\ Z.of_nat (base.size b) <= max_connections.

Lemma conns_ok_disconnect mx user ws n : conns_ok mx n -> conns_ok mx (ws_disconnect user ws n).
Proof.
  intros Hok. unfold ws_disconnect. destruct (decide (sockets_of user n = ∅)) as [|Hne]; [done|].
  intros u b. cbn [n_by_user over]. destruct (decide (sockets_of user n ∖ {[ws]} = ∅)) as [E|E].
  - intros [_ Hb]%lookup_delete_Some. by apply Hok in Hb.
  - intros [[<- <-]|[_ Hb]]%lookup_insert_Some; [|by apply Hok in Hb]. split; [done|].
    unfold sockets_of in *. destruct (n_by_user n !! user) as [b|] eqn:Eb; [|done]. cbn in *. destruct (Hok user b Eb) as [_ Hs].
    assert (base.size (b ∖ {[ws]}) <= base.size b)%nat by (apply subseteq_size; set_solver). lia.
Qed.

Lemma conns_ok_by_user mx n n' : n_by_user n' = n_by_user n -> conns_ok mx n -> conns_ok mx n'.
Proof. unfold conns_ok. by intros ->. Qed.

Lemma conns_ok_send mx up user message n : conns_ok mx n -> conns_ok mx (send_personal_message up user message n).
Proof.
  intros Hok. unfold send_personal_message. revert Hok. generalize (elements (sockets_of user n)) as l. intros l. revert n.
  induction l as [|ws l IH]; intros n Hok; cbn [fold_left]; [done|]. apply IH. unfold send_one. destruct (up ws).
  - by eapply conns_ok_by_user.
  - unfold ws_drop. eapply conns_ok_by_user; [reflexivity|]. by apply conns_ok_disconnect.
Qed.

Lemma conns_ok_dispatch `{UnicodeDB} mx up msg n : conns_ok mx n -> conns_ok mx (dispatch_message up msg n).
Proof.
  intros Hok. unfold dispatch_message. destruct (negb _); [done|].
  destruct (m_channel msg) as [ch|]; cbn [mbind option_bind]; [|done]. unfold handler, mbind, option_bind.
  destruct (decide (ch = CHAT_DM_FANOUT_CHANNEL)); [|destruct (decide (ch = NOTIF_SSE_FANOUT_CHANNEL)); [|done]];
    (destruct (m_data msg) as [[|c raw]|]; [done| |done]); (destruct (parse_user_envelope (c :: raw)) as [[[ts pl] o]|]; [|done]);
    (destruct (decide _) as [_|_]; [done|]); revert n Hok; induction ts as [|t ts IH]; intros n Hok; cbn [fold_left]; try done; apply IH;
    [by apply conns_ok_send|by eapply conns_ok_by_user].
Qed.

(** The connection limit: at every instance of every reachable cluster no
    user has more registered sockets than the configured limit and no empty
    entry is kept; a connection is accepted exactly when the user is below the
    limit, and a refused one changes no user's sockets. *)
Theorem connections_bounded `{UnicodeDB} home mx c j n user ws :
  cluster_reachable home mx c -> c_nodes c !! j = Some n -> 0 <= mx ->
  conns_ok mx n /\
  ((ws_connect mx user ws n).1 = true <-> Z.of_nat (base.size (sockets_of user n)) < mx) /\
  ((ws_connect mx user ws n).1 = false -> forall u, sockets_of u (ws_connect mx user ws n).2 = sockets_of u n).
Proof.
  intros Hr Hn Hmx. split; [|split].
  - revert j n Hn. induction Hr as [ids|c c' _ IH Hs]; intros j n.
    { cbn [c_nodes]. intros Hj%elem_of_list_to_map_2. apply list_elem_of_fmap in Hj as (i & [= -> ->] & _). intros u b. cbn [fresh_node n_by_user]. by rewrite lookup_empty. }
    assert (forall i f, (forall m, conns_ok mx m -> conns_ok mx (f m)) -> c_nodes (with_node i f c) !! j = Some n -> conns_ok mx n) as Hwith.
    { intros i f Hf. unfold with_node. destruct (c_nodes c !! i) as [m|] eqn:E; [|by apply IH]. cbn [c_nodes over].
      intros [[<- <-]|[_ Hj]]%lookup_insert_Some; [apply Hf; by eapply IH|by eapply IH]. }
    destruct Hs as [i u s c Hh|i u s c|up present ft i p s w c|present ft i r pl c|up i c|i c|i c Hnl Hi]; try by apply IH.
    + apply Hwith. intros m Hm. unfold ws_connect. destruct (Z.leb_spec mx (Z.of_nat (base.size (sockets_of u m)))) as [|Hlt]; cbn [snd].
      * destruct (decide _); [|done]. intros v b; cbn [n_by_user over]; intros [_ Hb]%lookup_delete_Some. by apply Hm in Hb.
      * intros v b; cbn [n_by_user over]; intros [[<- <-]|[_ Hb]]%lookup_insert_Some; [|by apply Hm in Hb]. split; [set_solver|].
        rewrite size_union_alt, Nat2Z.inj_add.
        assert (base.size ({[s]} ∖ sockets_of u m) <= 1)%nat; [|lia]. rewrite <-(size_singleton (C := gset Z) s). apply subseteq_size. set_solver.
    + apply Hwith. intros m. apply conns_ok_disconnect.
    + unfold fanout_dm. destruct (c_nodes c !! i) as [m|] eqn:E; [|by apply IH]. cbn [c_nodes].
      intros [[<- <-]|[_ Hj]]%lookup_insert_Some; [do 2 apply conns_ok_send; by eapply IH|by eapply IH].
    + unfold fanout_notification. destruct (c_nodes c !! i) as [m|] eqn:E; [|by apply IH]. cbn [c_nodes over].
      intros [[<- <-]|[_ Hj]]%lookup_insert_Some; [apply (conns_ok_by_user mx m); [done|by eapply IH]|by eapply IH].
    + unfold receive. destruct (c_nodes c !! i) as [m|] eqn:E, (c_links c !! i) as [[|msg l]|]; try by apply IH. cbn [c_nodes over].
      intros [[<- <-]|[_ Hj]]%lookup_insert_Some; [apply conns_ok_dispatch; by eapply IH|by eapply IH].
  - unfold ws_connect. destruct (Z.leb_spec mx (Z.of_nat (base.size (sockets_of user n)))); cbn; [split; [done|lia]|done].
  - intros Hf u. rewrite ws_connect_sockets, Hf. by destruct (decide _).
Qed.

(** Two instances: user 7 on the first, user 8 on both. *)
Definition demo_home (ws : Z) : ustr * Z := if ws =? 1 then (lit "a", 7) else if ws =? 2 then (lit "a", 8) else (lit "b", 8).
Definition demo_up : Z -> bool := fun ws => negb (ws =? 2).
Definition demo_wire : ustr := lit "hello".
Definition demo_cluster0 : cluster :=
  {| c_nodes := list_to_map ((fun i => (i, fresh_node i)) <$> [lit "a"; lit "b"]); c_links := ∅; c_wires := [] |}.
Definition demo_connect (ws : Z) (c : cluster) : cluster :=
  with_node (demo_home ws).1 (fun n => (ws_connect 5 (demo_home ws).2 ws n).2) c.
Definition demo_open : cluster :=
  let c := demo_connect 3 (demo_connect 2 (demo_connect 1 demo_cluster0)) in c <| c_links := <[lit "b" := []]> (c_links c) |>.
Definition demo_sent : cluster := @receive ascii_db demo_up (lit "b") (fanout_dm demo_up true LostReply (lit "a") 8 7 demo_wire demo_open).

Lemma demo_open_reachable : @cluster_reachable ascii_db demo_home 5 demo_open.
Proof.
  unfold demo_open. eapply cr_step; [|apply step_listener_up; [vm_compute; reflexivity|vm_compute; by eexists]].
  eapply cr_step; [|by apply step_connect]. eapply cr_step; [|by apply step_connect]. eapply cr_step; [|by apply step_connect].
  apply (cr_start _ _ [lit "a"; lit "b"]).
Qed.
Lemma demo_sent_reachable : @cluster_reachable ascii_db demo_home 5 demo_sent.
Proof.
  unfold demo_sent. eapply cr_step; [|apply step_receive]. eapply cr_step; [apply demo_open_reachable|].
  apply step_fanout; try done; try (unfold uuid_ok; lia). set_solver.
Qed.

Lemma dm_at_most_once_and_private_witness :
  exists n m, c_nodes demo_sent !! lit "a" = Some n /\ c_nodes demo_sent !! lit "b" = Some m /\
    n_sent n = [(1, demo_wire)] /\ n_closed n = [(2, 1013)] /\ n_sent m = [(3, demo_wire)] /\ NoDup (n_sent m).
Proof.
  destruct (c_nodes demo_sent !! lit "a") as [n|] eqn:En; [|vm_compute in En; discriminate].
  destruct (c_nodes demo_sent !! lit "b") as [m|] eqn:Em; [|vm_compute in Em; discriminate].
  exists n, m. split; [reflexivity|split; [reflexivity|]].
  pose proof (@dm_at_most_once_and_private ascii_db demo_home 5 demo_sent _ _ _ _ 3 demo_wire demo_sent_reachable Em En) as [H _].
  split_and!; [vm_compute in En; injection En as <-; reflexivity..|vm_compute in Em; injection Em as <-; reflexivity|exact H].
Defined.

Lemma dm_reaches_open_sockets_witness :
  exists n1, c_nodes (fanout_dm demo_up false NoFault (lit "a") 8 7 demo_wire demo_open) !! lit "a" = Some n1 /\ served demo_up 7 1 demo_wire n1.
Proof.
  destruct (c_nodes demo_open !! lit "a") as [n|] eqn:En; [|vm_compute in En; discriminate].
  apply (@dm_reaches_open_sockets ascii_db demo_up demo_up false NoFault (lit "a") 8 7 demo_wire demo_open n) with (u := 7);
    try done; try (unfold uuid_ok; lia); try (by right).
  - vm_compute in En. injection En as <-. reflexivity.
  - vm_compute in En. injection En as <-. by apply (bool_decide_unpack _); vm_compute.
Defined.

Lemma connections_bounded_witness :
  exists n, c_nodes demo_open !! lit "a" = Some n /\ conns_ok 5 n /\ (ws_connect 1 8 9 n).1 = false.
Proof.
  destruct (c_nodes demo_open !! lit "a") as [n|] eqn:En; [|vm_compute in En; discriminate].
  exists n. split; [reflexivity|]. split; [|vm_compute in En; injection En as <-; reflexivity].
  apply (@connections_bounded ascii_db demo_home 5 demo_open (lit "a") n 8 9 demo_open_reachable En). lia.
Defined.
