(* ===== verification/Listener.v ===== *)
(** * The subscription listener ([infra/pubsub.py])

    One connection of the fan-out listener with its watchdog, and the loop that
    reconnects with growing delays.  Times are milliseconds of the monotonic
    clock; what Redis does is the list of poll results. *)

From S2P Require Import Prelude Ids Common Redis Db Notifications Json Realtime.

Definition RECONNECT_BACKOFF_INITIAL : Z := 500.
Definition RECONNECT_BACKOFF_MAX : Z := 30000.
Definition HEALTHY_UPTIME : Z := 5000.
Definition WATCHDOG_IDLE : Z := 10000.
Definition WATCHDOG_PONG : Z := 5000.

(** One call to [get_message]: when it returned, what it gave ([inl] is an
    exception, [None] a timeout), and whether a PING sent then could be written. *)
Record poll := { p_time : Z; p_got : exn + option psmsg; p_ping_ok : bool }.

Record watch := { connected_at : Z; healthy_signaled : bool; last_rx : Z; pinged_at : option Z }.

Inductive listen_end := Stopped | ConnectionLost (e : exn) | WatchdogFired.

(** How the connection ended, when, whether it was reported healthy, and the
    instance with the messages handled. *)
Record listen_result := { lr_end : listen_end; lr_time : Z; lr_last_rx : Z; lr_healthy : bool; lr_node : node }.

Section Listen.
Context `{UnicodeDB} (up : Z -> bool).

(** The polling loop; the list ends when the stop event is set. *)
Fixpoint listen_loop (now0 : Z) (w : watch) (polls : list poll) (n : node) : listen_result :=
  match polls with
  | [] => {| lr_end := Stopped; lr_time := now0; lr_last_rx := last_rx w; lr_healthy := healthy_signaled w; lr_node := n |}
  | p :: ps =>
      let now := p_time p in
      match p_got p with
      | inl e => {| lr_end := ConnectionLost e; lr_time := now; lr_last_rx := last_rx w; lr_healthy := healthy_signaled w; lr_node := n |}
      | inr msg =>
          let healthy := healthy_signaled w || (HEALTHY_UPTIME <=? now - connected_at w) in
          let w := {| connected_at := connected_at w; healthy_signaled := healthy; last_rx := last_rx w; pinged_at := pinged_at w |} in
          match msg with
          | Some m =>
              listen_loop now {| connected_at := connected_at w; healthy_signaled := healthy; last_rx := now; pinged_at := None |} ps
                (dispatch_message up m n)
          | None =>
              match pinged_at w with
              | None =>
                  if WATCHDOG_IDLE <? now - last_rx w then
                    if p_ping_ok p then
                      listen_loop now {| connected_at := connected_at w; healthy_signaled := healthy; last_rx := last_rx w; pinged_at := Some now |} ps n
                    else {| lr_end := ConnectionLost RedisError; lr_time := now; lr_last_rx := last_rx w; lr_healthy := healthy; lr_node := n |}
                  else listen_loop now w ps n
              | Some t =>
                  if WATCHDOG_PONG <? now - t then
                    {| lr_end := WatchdogFired; lr_time := now; lr_last_rx := last_rx w; lr_healthy := healthy; lr_node := n |}
                  else listen_loop now w ps n
              end
          end
      end
  end.

(** One connection: [None] when the connection or the subscription fails. *)
Record attempt := { a_connected : option Z; a_polls : list poll }.

Definition listen_once (a : attempt) (n : node) : listen_result :=
  match a_connected a with
  | None => {| lr_end := ConnectionLost RedisError; lr_time := 0; lr_last_rx := 0; lr_healthy := false; lr_node := n |}
  | Some t => listen_loop t {| connected_at := t; healthy_signaled := false; last_rx := t; pinged_at := None |} (a_polls a) n
  end.

(** The reconnection loop: the delays it waits, and the instance at the end.
    The list ends when the stop event is set. *)
Fixpoint run_user_fanout_listener (backoff : Z) (attempts : list attempt) (n : node) : list Z * node :=
  match attempts with
  | [] => ([], n)
  | a :: rest =>
      let r := listen_once a n in
      let backoff := if lr_healthy r then RECONNECT_BACKOFF_INITIAL else backoff in
      match lr_end r with
      | Stopped => ([], lr_node r)
      | _ =>
          let '(waits, n') := run_user_fanout_listener (Z.min (backoff * 2) RECONNECT_BACKOFF_MAX) rest (lr_node r) in
          (backoff :: waits, n')
      end
  end.
End Listen.

(** ** Properties *)

(** The subscription is silent: polls time out, PINGs vanish. *)
Definition silent (p : poll) : Prop := p_got p = inr None /\ p_ping_ok p = true.

(** Each poll returns at most [P] after the one before. *)
Fixpoint paced (P t : Z) (polls : list poll) : Prop :=
  match polls with [] => True | p :: ps => t <= p_time p <= t + P /\ paced P (p_time p) ps end.

(** The latest moment a silent connection is still kept. *)
Definition deadline (P : Z) (w : watch) : Z :=
  match pinged_at w with
  | None => last_rx w + WATCHDOG_IDLE + WATCHDOG_PONG + 2 * P
  | Some t => t + WATCHDOG_PONG + P
  end.

Section ListenerProofs.
Context `{UnicodeDB} (up : Z -> bool).

Lemma silence_detected P t w polls n : 0 <= P -> paced P t polls -> Forall silent polls ->
  match pinged_at w with None => t <= last_rx w + WATCHDOG_IDLE | Some p => t <= p + WATCHDOG_PONG end ->
  Exists (fun p => deadline P w < p_time p) polls ->
  lr_end (listen_loop up t w polls n) = WatchdogFired /\ lr_time (listen_loop up t w polls n) <= deadline P w.
Proof.
  intros HP. revert t w. induction polls as [|p ps IH]; intros t w Hpc HF Ht Hex; [by apply Exists_nil in Hex|].
  destruct Hpc as [Hp Hps].
  apply Forall_cons in HF as [[Hg Hk] HF]. cbn [listen_loop]. rewrite Hg. cbn [pinged_at last_rx connected_at].
  destruct (pinged_at w) as [q|] eqn:Eq.
  - destruct (Z.ltb_spec WATCHDOG_PONG (p_time p - q)).
    + cbn. split; [done|]. unfold deadline. rewrite Eq. lia.
    + unfold deadline in *. rewrite Eq in *. apply Exists_cons in Hex as [|Hex]; [lia|]. by apply IH; cbn; rewrite ?Eq; [done|done|lia|].
  - destruct (Z.ltb_spec WATCHDOG_IDLE (p_time p - last_rx w)) as [Hi|Hi].
    + rewrite Hk. set (w' := {| connected_at := connected_at w; healthy_signaled := _; last_rx := last_rx w; pinged_at := Some (p_time p) |}).
      assert (deadline P w' <= deadline P w) as Hd by (unfold deadline; rewrite Eq; cbn; lia).
      destruct (IH (p_time p) w') as [H1 H2]; [done|done|cbn; unfold WATCHDOG_PONG; lia| |split; [done|lia]].
      apply Exists_cons in Hex as [Hx|Hex].
      * exfalso. unfold deadline, WATCHDOG_IDLE, WATCHDOG_PONG in *. rewrite Eq in Hx. cbn in Hx, Hd. lia.
      * eapply Exists_impl; [exact Hex|]. cbv beta. intros q Hq. lia.
    + unfold deadline in *. rewrite Eq in *. apply Exists_cons in Hex as [|Hex]; [unfold WATCHDOG_IDLE, WATCHDOG_PONG in *; lia|].
      by apply IH; cbn; rewrite ?Eq; [done|done|lia|].
Qed.

Lemma watchdog_needs_silence t w polls n : (forall p, pinged_at w = Some p -> last_rx w + WATCHDOG_IDLE < p) ->
  lr_end (listen_loop up t w polls n) = WatchdogFired ->
  lr_last_rx (listen_loop up t w polls n) + WATCHDOG_IDLE + WATCHDOG_PONG < lr_time (listen_loop up t w polls n).
Proof.
  revert t w n. induction polls as [|p ps IH]; intros t w n Hw; cbn [listen_loop]; [done|].
  destruct (p_got p) as [e|[m|]]; [done| |]; cbn [pinged_at last_rx connected_at].
  - by apply IH.
  - destruct (pinged_at w) as [q|] eqn:Eq.
    + destruct (Z.ltb_spec WATCHDOG_PONG (p_time p - q)).
      * intros _. cbn. specialize (Hw q eq_refl). lia.
      * by apply IH.
    + destruct (Z.ltb_spec WATCHDOG_IDLE (p_time p - last_rx w)).
      * destruct (p_ping_ok p); [|done]. apply IH. cbn. intros q [= <-]. lia.
      * by apply IH.
Qed.

(** C33. The watchdog: on a connection that has gone silent without an error
    (whatever happened before), with polls returning at least every [P]
    milliseconds, the listener gives the connection up at most 15 s plus two
    polls after the last message, so that reconnection starts; and it gives up
    only then: whenever the watchdog fires, nothing at all had arrived for more
    than 15 s, so a connection that answers its PINGs is never dropped. *)
Theorem watchdog_detects_exactly_silence P t0 t heard quiet n :
  0 <= P -> paced P t quiet -> Forall silent quiet ->
  (let w := {| connected_at := t0; healthy_signaled := heard; last_rx := t; pinged_at := None |} in
   Exists (fun p => t + WATCHDOG_IDLE + WATCHDOG_PONG + 2 * P < p_time p) quiet ->
   lr_end (listen_loop up t w quiet n) = WatchdogFired /\
   lr_time (listen_loop up t w quiet n) <= t + WATCHDOG_IDLE + WATCHDOG_PONG + 2 * P) /\
  (forall a m, lr_end (listen_once up a m) = WatchdogFired ->
     lr_last_rx (listen_once up a m) + WATCHDOG_IDLE + WATCHDOG_PONG < lr_time (listen_once up a m)).
Proof.
  intros HP Hp Hs. split.
  - intros w Hex. apply (silence_detected P t w quiet n); try done. cbn. unfold WATCHDOG_IDLE. lia.
  - intros a m. unfold listen_once. destruct (a_connected a) as [c|]; [|done]. by apply watchdog_needs_silence.
Qed.

(** Delays after each lost connection, from the healthy flags alone. *)
Fixpoint expected_waits (k : nat) (healthy : list bool) : list Z :=
  match healthy with
  | [] => []
  | h :: hs => let k := if h then O else k in Z.min (RECONNECT_BACKOFF_INITIAL * 2 ^ Z.of_nat k) RECONNECT_BACKOFF_MAX :: expected_waits (S k) hs
  end.

(** The healthy flags of the connections in turn, while none is stopped. *)
Fixpoint healthy_flags (attempts : list attempt) (n : node) : list bool :=
  match attempts with
  | [] => []
  | a :: rest =>
      let r := listen_once up a n in
      match lr_end r with Stopped => [] | _ => lr_healthy r :: healthy_flags rest (lr_node r) end
  end.

Lemma waits_from k attempts n :
  (run_user_fanout_listener up (Z.min (RECONNECT_BACKOFF_INITIAL * 2 ^ Z.of_nat k) RECONNECT_BACKOFF_MAX) attempts n).1 =
  expected_waits k (healthy_flags attempts n).
Proof.
  revert k n. induction attempts as [|a rest IH]; intros k n; cbn [run_user_fanout_listener healthy_flags]; [done|].
  assert (forall j, Z.min (Z.min (RECONNECT_BACKOFF_INITIAL * 2 ^ Z.of_nat j) RECONNECT_BACKOFF_MAX * 2) RECONNECT_BACKOFF_MAX =
    Z.min (RECONNECT_BACKOFF_INITIAL * 2 ^ Z.of_nat (S j)) RECONNECT_BACKOFF_MAX) as Hstep.
  { intros j. rewrite Nat2Z.inj_succ, Z.pow_succ_r by lia. unfold RECONNECT_BACKOFF_INITIAL, RECONNECT_BACKOFF_MAX. lia. }
  assert (forall j, (let '(waits, n') := run_user_fanout_listener up
        (Z.min (Z.min (RECONNECT_BACKOFF_INITIAL * 2 ^ Z.of_nat j) RECONNECT_BACKOFF_MAX * 2) RECONNECT_BACKOFF_MAX) rest (lr_node (listen_once up a n)) in
      (Z.min (RECONNECT_BACKOFF_INITIAL * 2 ^ Z.of_nat j) RECONNECT_BACKOFF_MAX :: waits, n')).1 =
    Z.min (RECONNECT_BACKOFF_INITIAL * 2 ^ Z.of_nat j) RECONNECT_BACKOFF_MAX :: expected_waits (S j) (healthy_flags rest (lr_node (listen_once up a n)))) as Hrest.
  { intros j. rewrite Hstep, <-IH. by destruct (run_user_fanout_listener _ _ _ _). }
  destruct (lr_end (listen_once up a n)); [done| |]; cbn [expected_waits]; (destruct (lr_healthy (listen_once up a n)); [apply (Hrest O)|apply Hrest]).
Qed.
End ListenerProofs.

(** Reconnection: the delay before each new connection is 0.5 s doubled
    once for every connection lost since the last one that stayed up 5 s, capped
    at 30 s; so it always lies between 0.5 s and 30 s, and a subscription that
    flaps within seconds does not fall back to the shortest delay. *)
Theorem reconnect_backoff `{UnicodeDB} up attempts n :
  (run_user_fanout_listener up RECONNECT_BACKOFF_INITIAL attempts n).1 = expected_waits 0 (healthy_flags up attempts n) /\
  Forall (fun d => RECONNECT_BACKOFF_INITIAL <= d <= RECONNECT_BACKOFF_MAX) (run_user_fanout_listener up RECONNECT_BACKOFF_INITIAL attempts n).1 /\
  (forall a m, lr_healthy (listen_once up a m) = true ->
     exists t p, a_connected a = Some t /\ p ∈ a_polls a /\ t + HEALTHY_UPTIME <= p_time p).
Proof.
  assert ((run_user_fanout_listener up RECONNECT_BACKOFF_INITIAL attempts n).1 = expected_waits 0 (healthy_flags up attempts n)) as Hw.
  { apply (waits_from up 0). }
  split_and!; [done| |].
  - rewrite Hw. generalize (healthy_flags up attempts n) as hs. generalize O as k. clear. intros k hs. revert k.
    induction hs as [|h hs IH]; intros k; cbn [expected_waits]; constructor; [|apply IH].
    pose proof (Z.pow_pos_nonneg 2 (Z.of_nat (if h then O else k))). unfold RECONNECT_BACKOFF_INITIAL, RECONNECT_BACKOFF_MAX. lia.
  - intros a m. unfold listen_once. destruct (a_connected a) as [t|]; [|done]. intros Hh. exists t.
    assert (forall ps w t0 m, lr_healthy (listen_loop up t0 w ps m) = true -> healthy_signaled w = true \/
      exists p, p ∈ ps /\ connected_at w + HEALTHY_UPTIME <= p_time p) as Hgen.
    { clear. induction ps as [|p ps IH]; intros w t0 m; cbn [listen_loop]; [by left|].
      assert (forall b, b = healthy_signaled w || (HEALTHY_UPTIME <=? p_time p - connected_at w) ->
        b = true \/ (exists p', p' ∈ ps /\ connected_at w + HEALTHY_UPTIME <= p_time p') ->
        healthy_signaled w = true \/ exists p', p' ∈ p :: ps /\ connected_at w + HEALTHY_UPTIME <= p_time p') as Hb.
      { intros b -> [[?|Hle%Z.leb_le]%orb_true_iff|(p' & Hin & Hp')]; [by left|right|right]; [exists p|exists p']; (split; [set_solver|lia]). }
      destruct (p_got p) as [e|[msg|]]; [by left|intros Hl%IH; by eapply Hb|]. cbn [pinged_at last_rx connected_at].
      destruct (pinged_at w); [destruct (_ <? _)|destruct (_ <? _); [destruct (p_ping_ok p)|]]; try (intros Hl%IH; by eapply Hb);
        cbn [lr_healthy]; intros Hl; eapply Hb; [done|by left|done|by left]. }
    destruct (Hgen _ _ _ _ Hh) as [|(p & Hin & Hp)]; [done|]. by exists p.
Qed.

(** Witness data: a node, and a subscription that delivers nothing. *)
Definition quiet_polls (k : nat) : list poll := (fun i => {| p_time := 1000 * Z.of_nat i; p_got := inr None; p_ping_ok := true |}) <$> seq 1 k.

Lemma watchdog_detects_exactly_silence_witness :
  let w := {| connected_at := 0; healthy_signaled := false; last_rx := 0; pinged_at := None |} in
  lr_end (@listen_loop ascii_db demo_up 0 w (quiet_polls 20) (fresh_node (lit "a"))) = WatchdogFired /\
  lr_time (@listen_loop ascii_db demo_up 0 w (quiet_polls 20) (fresh_node (lit "a"))) = 17000.
Proof.
  split; [|vm_compute; reflexivity].
  apply (@watchdog_detects_exactly_silence ascii_db demo_up 1000 0 0 false (quiet_polls 20) (fresh_node (lit "a"))); [lia| | |].
  - cbn. lia.
  - unfold quiet_polls. apply Forall_fmap, Forall_forall. by intros i _.
  - apply Exists_exists. exists {| p_time := 18000; p_got := inr None; p_ping_ok := true |}.
    split; [|vm_compute; reflexivity]. apply list_elem_of_fmap. exists 18%nat. split; [reflexivity|]. apply elem_of_seq. lia.
Defined.
