(* ===== verification/ChatSocket.v ===== *)
(** * The direct-message WebSocket ([chat/router.py], [ChatService.send_dm_from_ws])

    The whole handler of [/ws/chat]: authentication, the connection limit, and
    the receive loop with its rate limit, validation, sending with the socket's
    room cache and the error frames.  Composes [Auth], [RateLimit], [Chat] and
    [Realtime].  Meanwhile other tasks deliver to the socket, and the manager may
    drop it; the socket behaves as Starlette documents: after a close, or a send
    that found the connection gone, [receive_text] and [close] raise RuntimeError,
    and [receive_text] raises KeyError for a binary frame.  The frames of the
    handshake are taken to go through. *)

From S2P Require Import Prelude Ids Common Redis RateLimit Db World Notifications Users Auth Chat Json Realtime.

(** What the handler touches: database and Redis, the memory of the rate limit,
    its clock and metric, and the instances with their sockets. *)
Record sock_env := {
  e_world : world; e_memory : mem_store; e_clock : Z; e_rejections : list ustr; e_cluster : cluster;
}.
#[export] Instance sock_env_eta : Eta sock_env := fun e =>
  Build_sock_env (e_world e) (e_memory e) (e_clock e) (e_rejections e) (e_cluster e).

Definition on_world {A} (m : M world A) : M sock_env A := fun e =>
  let '(r, w) := m (e_world e) in (r, e <| e_world := w |>).

(** The rate limiter on the process's Redis connection. *)
Definition on_limits {A} (m : M rl_state A) : M sock_env A := fun e =>
  let '(r, s) := m {| rl_redis := w_redis (e_world e); rl_memory := e_memory e; rl_clock := e_clock e; rl_rejections := e_rejections e |} in
  (r, e <| e_world := e_world e <| w_redis := rl_redis s |> |> <| e_memory := rl_memory s |> <| e_clock := rl_clock s |>
        <| e_rejections := rl_rejections s |>).

Definition e_db (e : sock_env) : db := w_db (e_world e).

(** ** Frames *)

(** [ChatMessageSend] after the JSON is read: the discriminator, the peer's
    public id and the text. *)
Record send_fields := { sf_type : ustr; sf_peer : py_value; sf_content : ustr }.

Definition chat_message_send `{UnicodeDB} (f : send_fields) : option (Z * ustr) :=
  if bool_decide (sf_type f = lit "chat.send") then
    match parse_public_id_value (sf_peer f), chat_content (sf_content f) with
    | inr peer, Some text => Some (peer, text)
    | _, _ => None
    end
  else None.

(** A message another task of the instance sends to all sockets of a user. *)
Record delivery := { dl_user : Z; dl_message : ustr; dl_up : Z -> bool }.

(** One received text with what the environment supplies while it is handled:
    the time, fresh ids, the fate of each socket and of the publish, whether what
    the handler itself sends on the socket finds the connection, and what other
    tasks deliver before the next receive. *)
Record frame := {
  f_raw : ustr; f_now : Z; f_msg_id : Z; f_room_id : Z; f_up : Z -> bool; f_publish : fault;
  f_sent : bool; f_after : list delivery;
}.

(** What happens while the loop waits for the client; the end of the events is
    the client's disconnect. *)
Inductive ws_event := TextFrame (fr : frame) | BinaryFrame | Delivered (d : delivery).

(** How the handler ends: the client left, the server closed, or an exception of
    the socket went through, which the loop does not handle. *)
Inductive ws_raised := KeyError | RuntimeError.
Inductive ws_ending := ClientLeft | Closed (code : Z) | Escaped (e : ws_raised).

Inductive ws_reply := RateLimited (retry_after : Z) | ValidationError | PeerNotFound | DomainError (code : ApiCode) | InternalError.

Definition ROOM_CACHE_MAX : Z := 64.
Definition REJECT_CLOSE_THRESHOLD : Z := 30.

(** [while len(room_cache) > room_cache_max: pop the oldest] *)
Fixpoint evict_rooms (cache : list (Z * Z)) : list (Z * Z) :=
  match cache with
  | [] => []
  | _ :: cache' => if ROOM_CACHE_MAX <? py_len cache then evict_rooms cache' else cache
  end.

Section Socket.
Context `{UnicodeDB}.
(** Pydantic reads the JSON of a frame and writes the JSON of a stored message;
    PyJWT decodes tokens, the auth snapshot has its own JSON. *)
Context (read_fields : ustr -> option send_fields) (broadcast : Z -> ChatMessage -> ustr).
Context (jwt_decode : ustr -> option claims) (snapshot_dump : ustr -> CurrentUser -> ustr)
  (snapshot_load : ustr -> option (option ustr * option CurrentUser)).
Context (present : bool) (rate_window rate_max max_connections : Z) (i : ustr).

Definition parse_incoming_message (raw : ustr) : option (Z * ustr) := read_fields raw ≫= chat_message_send.

(** The room cache afterwards; the cache is written after the commit. *)
Definition send_dm_from_ws (sender peer : Z) (text : ustr) (fr : frame) (cache : list (Z * Z)) : M sock_env (list (Z * Z)) :=
  let cached := dict_get peer cache in
  '(room, msg) ← on_world (on_db (send_dm_tx (f_now fr) (f_msg_id fr) (f_room_id fr) sender peer text cached));
  let cache := match cached with None => dict_set peer room cache | Some _ => cache end in
  modify (fun e => e <| e_cluster := fanout_dm (f_up fr) present (f_publish fr) i peer sender (broadcast (f_msg_id fr) msg) (e_cluster e) |>) ;;
  mret cache.

Definition send_error_reply (x : exn) : ws_reply :=
  match x with
  | UserNotFoundException => PeerNotFound
  | _ => match project_class x with
         | Some (st, code) => if 500 <=? st then InternalError else DomainError code
         | None => InternalError
         end
  end.

(** The gate, the cache, the error frame if any, the close code if any. *)
Definition handle_frame (user : Z) (g : gate) (cache : list (Z * Z)) (fr : frame)
  : M sock_env (gate * list (Z * Z) * option ws_reply * option Z) :=
  '(allowed, retry_after, should_close, g) ← on_limits (gate_check g present rate_window rate_max);
  if negb allowed then
    if should_close : bool then mret (g, cache, None, Some WS_CLOSE_RATE_LIMIT)
    else mret (g, cache, Some (RateLimited retry_after), None)
  else
    match parse_incoming_message (f_raw fr) with
    | None => mret (g, cache, Some ValidationError, None)
    | Some (peer, text) =>
        try_except (cache' ← send_dm_from_ws user peer text fr cache; mret (g, evict_rooms cache', None, None))
          (fun x => mret (g, cache, Some (send_error_reply x), None))
    end.

Definition other_delivery (d : delivery) : M sock_env unit :=
  modify (fun e => e <| e_cluster := with_node i (send_personal_message (dl_up d) (dl_user d) (dl_message d)) (e_cluster e) |>).

(** [_drop] closed the socket. *)
Definition dropped (ws : Z) (e : sock_env) : bool :=
  match c_nodes (e_cluster e) !! i with Some n => bool_decide (ws ∈ (n_closed n).*1) | None => false end.

(** [_safe_send_text]: nothing is raised; did the frame go out, and does the
    socket still count as connected? *)
Definition safe_send_text (reply : option ws_reply) (connected sent : bool) : list ws_reply * bool :=
  match reply with
  | None => ([], true)
  | Some r => if connected then if sent then ([r], true) else ([], false) else ([], true)
  end.

(** The receive loop: the error frames that went out and how it ended.  [live]:
    no send of the handler found the connection gone; [calling]: [receive_text] is
    being called, which looks at the socket's state, not yet waiting. *)
Fixpoint ws_loop (user ws : Z) (g : gate) (cache : list (Z * Z)) (live calling : bool) (events : list ws_event)
    : M sock_env (list ws_reply * ws_ending) :=
  e ← get;
  if calling && negb (live && negb (dropped ws e)) then mret ([], Escaped RuntimeError)
  else
    match events with
    | [] => mret ([], ClientLeft)
    | BinaryFrame :: _ => mret ([], Escaped KeyError)
    | Delivered d :: rest => other_delivery d ;; ws_loop user ws g cache live false rest
    | TextFrame fr :: rest =>
        '(g, cache, reply, close) ← handle_frame user g cache fr;
        e ← get;
        let connected := live && negb (dropped ws e) in
        match close with
        | Some code => mret ([], if connected then if f_sent fr then Closed code else ClientLeft else Escaped RuntimeError)
        | None =>
            let '(out, live') := safe_send_text reply connected (f_sent fr) in
            for_each (f_after fr) other_delivery ;;
            '(replies, ending) ← ws_loop user ws g cache (live && live') true rest;
            mret (out ++ replies, ending)
        end
    end.

Definition authenticate (token : ustr) : M world Z :=
  if bool_decide (strip token = []) then raise UnauthorizedException
  else cu ← resolve_access_token_user jwt_decode snapshot_dump snapshot_load present (strip token); mret (cu_id cu).

Definition register_socket (user ws : Z) : M sock_env bool := fun e =>
  match c_nodes (e_cluster e) !! i with
  | None => (inr false, e)
  | Some n =>
      let '(ok, n') := ws_connect max_connections user ws n in
      (inr ok, e <| e_cluster := e_cluster e <| c_nodes := <[i := n']> (c_nodes (e_cluster e)) |> |>)
  end.

Definition gate_key (user : Z) : ustr := lit "chat:ws:" ++ uuid_str user.

Definition chat_dm_websocket (ws : Z) (token : ustr) (events : list ws_event) : M sock_env (list ws_reply * ws_ending) := fun e =>
  match on_world (authenticate token) e with
  | (inl x, e1) => (inr ([], Closed match project_class x with Some (st, _) => ws_close_code st | None => 1011 end), e1)
  | (inr user, e1) =>
      (ok ← register_socket user ws;
       if negb ok then mret ([], Closed WS_CLOSE_CONNECTION_LIMIT)
       else try_finally (ws_loop user ws (new_gate (gate_key user) REJECT_CLOSE_THRESHOLD) [] true true events)
              (modify (fun e => e <| e_cluster := with_node i (ws_disconnect user ws) (e_cluster e) |>))) e1
  end.
End Socket.

(** ** The room cache *)

(** Each entry names the pair's room, or a room that went with one of its users. *)
Definition cache_ok (user : Z) (cache : list (Z * Z)) (d : db) : Prop :=
  forall peer r, (peer, r) ∈ cache ->
    (exists room, chat_rooms d !! r = Some room /\ room_of user peer room) \/
    (chat_rooms d !! r = None /\ (users d !! peer = None \/ users d !! user = None)).

(** What other requests do to the chat tables meanwhile; room ids are never reused. *)
Inductive chat_step (known : list Z) : db -> db -> Prop :=
  | cs_resolve now new_room a b d : new_room ∉ known -> chat_step known d (resolve_direct_room now new_room a b d).2
  | cs_send now m new_room a b text cached d : new_room ∉ known -> cached_ok a b cached d ->
      chat_step known d (send_dm_tx now m new_room a b text cached d).2
  | cs_read room user d : chat_step known d (mark_room_read room user d).2
  | cs_purge ids d : chat_step known d (purge_users_by_ids ids d).2.

Lemma cache_cached_ok user peer cache d : cache_ok user cache d -> cached_ok user peer (dict_get peer cache) d.
Proof.
  intros Hc r room Hr%dict_get_In Hl. destruct (Hc peer r Hr) as [(room' & Hl' & Hro)|[Hn _]]; [|congruence]. by simplify_eq.
Qed.

(** The tables a chat operation leaves: rooms keep their pair, users stay. *)
Definition rooms_grow (known : list Z) (d d' : db) : Prop :=
  users d' = users d /\
  (forall r room, chat_rooms d !! r = Some room -> exists room', chat_rooms d' !! r = Some room' /\
     user1_id room' = user1_id room /\ user2_id room' = user2_id room) /\
  (forall r, r ∈ known -> chat_rooms d !! r = None -> chat_rooms d' !! r = None).

Lemma rooms_grow_refl known d : rooms_grow known d d.
Proof. split; [done|]. split; [|done]. intros r room Hr. by exists room. Qed.

Lemma cache_ok_grow user cache d d' : rooms_grow cache.*2 d d' -> cache_ok user cache d -> cache_ok user cache d'.
Proof.
  intros (Hu & Hr & Hn) Hc peer r Hin. destruct (Hc peer r Hin) as [(room & Hl & Hro)|[Hl Hg]].
  - left. destruct (Hr r room Hl) as (room' & Hl' & E1 & E2). exists room'. split; [done|]. unfold room_of in *. by rewrite E1, E2.
  - right. rewrite Hu. split; [|done]. apply Hn; [|done]. apply list_elem_of_fmap. by exists (peer, r).
Qed.

Lemma upsert_room_grows known now new_room a b d : a <> b -> chat_ok d -> new_room ∉ known ->
  rooms_grow known d (upsert_room now new_room a b d).2.
Proof.
  intros Hne Hok Hk. pose proof (upsert_room_spec now new_room a b d Hne Hok) as Hs.
  destruct (upsert_room now new_room a b d) as [[e|r] d']; cbn [snd]; [destruct Hs as [-> _]; apply rooms_grow_refl|].
  destruct Hs as (room & Hro & Hrooms & Hu & _ & _ & _ & Hold). split; [done|]. rewrite Hrooms. split.
  - intros r' room' Hr'. destruct (decide (r' = r)) as [->|Hn]; [|rewrite lookup_insert_ne by done; by exists room'].
    rewrite lookup_insert_eq. exists room. split; [done|]. rewrite Hr' in Hold. unfold room_of in *. split; congruence.
  - intros r' Hr' Hn. destruct (decide (r' = r)) as [->|Hne']; [|by rewrite lookup_insert_ne]. rewrite Hn in Hold. destruct Hold as [-> _]. done.
Qed.

Lemma resolve_grows known now new_room a b d : chat_ok d -> new_room ∉ known ->
  rooms_grow known d (resolve_direct_room now new_room a b d).2.
Proof.
  intros Hok Hk. rewrite resolve_direct_room_spec. destruct (dm_allowed a b d) eqn:E; try apply rooms_grow_refl.
  apply dm_allowed_ne in E. pose proof (upsert_room_grows known now new_room a b d E Hok Hk) as Hg. unfold begin_tx.
  destruct (upsert_room now new_room a b d) as [[e|r] d']; cbn [snd] in *; [apply rooms_grow_refl|done].
Qed.

Lemma send_grows known now m new_room a b text cached d : chat_ok d -> cached_ok a b cached d -> new_room ∉ known ->
  rooms_grow known d (send_dm_tx now m new_room a b text cached d).2.
Proof.
  intros Hok Hc Hk. pose proof (send_dm_spec now m new_room a b text cached d Hok Hc) as Hs.
  destruct (send_dm_tx now m new_room a b text cached d) as [[e|[r msg]] d']; cbn [snd]; [subst; apply rooms_grow_refl|].
  destruct Hs as (Ha & _ & d1 & room & _ & _ & _ & _ & _ & _ & -> & Hnone & Hsome).
  assert (rooms_grow known d d1) as Hg; [|exact Hg]. destruct cached as [c|].
  - destruct (Hsome c eq_refl) as [-> _]. apply rooms_grow_refl.
  - rewrite (Hnone eq_refl). apply upsert_room_grows; [by eapply dm_allowed_ne|done|done].
Qed.

Lemma cache_ok_purge user cache ids d : cache_ok user cache d -> cache_ok user cache (purge_users_by_ids ids d).2.
Proof.
  intros Hc. unfold purge_users_by_ids. destruct ids as [|k ids]; [done|]. cbn [snd]. intros peer r Hin.
  cbn [cascade_users chat_rooms users]. destruct (Hc peer r Hin) as [(room & Hl & Hro)|[Hl Hg]].
  - destruct (decide (user1_id room ∉ k :: ids /\ user2_id room ∉ k :: ids)) as [Hk|Hk].
    + left. exists room. split; [|done]. by apply map_lookup_filter_Some.
    + right. split; [apply map_lookup_filter_None; right; intros x Hx; by simplify_eq|].
      assert (peer ∈ k :: ids \/ user ∈ k :: ids) as Hgone.
      { unfold room_of, normalize_dm_user_ids in Hro. destruct (user <? peer); injection Hro as E1 E2; rewrite E1, E2 in Hk;
          destruct (decide (peer ∈ k :: ids)), (decide (user ∈ k :: ids)); tauto. }
      destruct Hgone; [left|right]; apply map_lookup_filter_None; right; intros x _ Hx; by apply Hx.
  - right. split; [apply map_lookup_filter_None; by left|]. destruct Hg; [left|right]; apply map_lookup_filter_None; by left.
Qed.

Lemma cache_ok_step user cache d d' : chat_ok d -> cache_ok user cache d -> chat_step cache.*2 d d' ->
  chat_ok d' /\ cache_ok user cache d'.
Proof.
  intros Hok Hc Hs. destruct Hs as [now nr a b d Hk|now m nr a b text cached d Hk Hcd|room u d|ids d].
  - split; [|eapply cache_ok_grow; [by apply resolve_grows|done]].
    by apply (chat_store_keeps d now 0 nr a b [] None 0 []).
  - split; [|eapply cache_ok_grow; [by apply send_grows|done]]. by apply (chat_store_keeps d now m nr a b text cached 0 []).
  - split; [by apply (chat_store_keeps d 0 0 0 u u [] None room [])|]. rewrite mark_room_read_spec.
    destruct (chat_rooms d !! room) as [x|]; [|done]. by destruct (is_member u x).
  - split; [by apply chat_ok_purge|by apply cache_ok_purge].
Qed.

Lemma evict_rooms_sub cache x : x ∈ evict_rooms cache -> x ∈ cache.
Proof. induction cache as [|y cache IH]; cbn [evict_rooms]; [done|]. destruct (_ <? _); [|done]. intros ?%IH. set_solver. Qed.

Lemma evict_rooms_bound cache : py_len (evict_rooms cache) <= ROOM_CACHE_MAX.
Proof.
  induction cache as [|y cache IH]; cbn [evict_rooms]; [done|]. destruct (Z.ltb_spec ROOM_CACHE_MAX (py_len (y :: cache))); [done|lia].
Qed.

(** ** One frame *)

Lemma gate_check_total g present w m s : exists r s', gate_check g present w m s = (inr r, s').
Proof.
  unfold gate_check. unfold mbind at 1, M_bind at 1. unfold get. destruct (_ <? _); [by eexists _, _|].
  unfold mbind at 1, M_bind at 1. unfold check_fixed_window. unfold mbind at 1, M_bind at 1.
  assert (forall s, exists b t s', memory_check (g_key g) w m s = (inr (b, t), s')) as Hmem.
  { intros s0. unfold memory_check. destruct (check_memory_fixed_window _ _ _ _ _ _) as [[b t] d]. by eexists _, _, _. }
  assert (exists b t s', (if present then try_except (with_redis (check_redis_fixed_window (g_key g) w m)) (fun _ => memory_check (g_key g) w m)
    else memory_check (g_key g) w m) s = (inr (b, t), s')) as (b & t & s' & E).
  { destruct present; [|apply Hmem]. unfold try_except. destruct (with_redis _ s) as [[x|[b t]] s1]; [apply Hmem|by eexists _, _, _]. }
  replace (if present then _ else _) with (if present then try_except (with_redis (check_redis_fixed_window (g_key g) w m)) (fun _ => memory_check (g_key g) w m)
    else memory_check (g_key g) w m : M rl_state (bool * Z)) by (by destruct present).
  rewrite E. unfold when, count_rejection, modify. cbn [fst]. destruct b; cbn [negb]; by eexists _, _.
Qed.

Lemma on_limits_frame {A} (m : M rl_state A) e : e_db (on_limits m e).2 = e_db e /\ e_cluster (on_limits m e).2 = e_cluster e.
Proof. unfold on_limits. by destruct (m _). Qed.

(** A send as the checks decide it. *)
Lemma send_dm_refused now m nr a b text cached d :
  match dm_allowed a b d with
  | DmSelf => send_dm_tx now m nr a b text cached d = (inl SelfDmException, d)
  | DmNoPeer => send_dm_tx now m nr a b text cached d = (inl UserNotFoundException, d)
  | DmBlocked => send_dm_tx now m nr a b text cached d = (inl ForbiddenException, d)
  | DmAllowed => True
  end.
Proof.
  unfold send_dm_tx, begin_tx. unfold mbind, M_bind. pose proof (assert_can_dm_spec a b d) as Ha.
  destruct (dm_allowed a b d); try done; by rewrite Ha.
Qed.

(** An allowed send succeeds: a cached room of the pair cannot be stale while
    both users are there. *)
Lemma send_dm_succeeds now m nr a b text cache d : chat_ok d -> cache_ok a cache d -> dm_allowed a b d = DmAllowed ->
  is_Some (users d !! a) -> chat_messages d !! m = None -> chat_rooms d !! nr = None ->
  exists r msg d', send_dm_tx now m nr a b text (dict_get b cache) d = (inr (r, msg), d').
Proof.
  intros Hok Hc Ha [u Hu] Hm Hnr. pose proof (dm_allowed_ne a b d Ha) as Hne. unfold send_dm_tx, begin_tx.
  assert (is_Some (users d !! b)) as [v Hv].
  { unfold dm_allowed in Ha. destruct (decide _); [done|]. destruct (users d !! b); [by eexists|done]. }
  unfold mbind at 1, M_bind at 1. rewrite assert_can_dm_spec, Ha. unfold mbind at 1, M_bind at 1.
  destruct (dict_get b cache) as [r|] eqn:Er.
  - apply dict_get_In in Er. destruct (Hc b r Er) as [(room & Hr & _)|[_ [|]]]; [|congruence..].
    cbn [mret M_ret]. unfold mbind at 1, M_bind at 1. rewrite insert_message_spec, Hm. cbn [room_id sender_id].
    rewrite Hr, Hu. rewrite !bool_decide_eq_true_2 by (by eexists). by eexists _, _, _.
  - pose proof (upsert_room_spec now nr a b d Hne Hok) as Hs. destruct (upsert_room now nr a b d) as [[e|r] d1].
    { destruct Hs as (_ & _ & [[]|[|]]); congruence. }
    destruct Hs as (room & _ & Hrooms & Husers & Hmsgs & _). unfold mbind at 1, M_bind at 1. rewrite insert_message_spec, Hmsgs, Hm.
    rewrite Hrooms, lookup_insert_eq, Husers, Hu. rewrite !bool_decide_eq_true_2 by (by eexists). by eexists _, _, _.
Qed.

(** The only room a send can add has the id drawn for it. *)
Lemma send_new_rooms now m nr a b text cached d : chat_ok d -> cached_ok a b cached d ->
  forall x, chat_rooms d !! x = None -> is_Some (chat_rooms (send_dm_tx now m nr a b text cached d).2 !! x) -> x = nr.
Proof.
  intros Hok Hc x Hx Hsome. pose proof (send_dm_spec now m nr a b text cached d Hok Hc) as Hs.
  destruct (send_dm_tx now m nr a b text cached d) as [[e|[r msg]] d']; cbn [snd] in *.
  { subst. destruct Hsome. congruence. }
  destruct Hs as (Ha & _ & d1 & room & _ & _ & _ & _ & _ & _ & -> & Hnone & Hcached). cbn [chat_rooms over] in Hsome.
  destruct cached as [c|]; [destruct (Hcached c eq_refl) as [-> _]; destruct Hsome; congruence|]. rewrite (Hnone eq_refl) in Hsome.
  pose proof (upsert_room_spec now nr a b d (dm_allowed_ne _ _ _ Ha) Hok) as Hu.
  destruct (upsert_room now nr a b d) as [[e|r'] d2]; cbn [snd] in *; [destruct Hu as [-> _]; destruct Hsome; congruence|].
  destruct Hu as (rm & _ & Hrooms & _ & _ & _ & _ & Hold). rewrite Hrooms in Hsome. destruct (decide (x = r')) as [->|Hne].
  - rewrite Hx in Hold. by destruct Hold.
  - rewrite lookup_insert_ne in Hsome by done. destruct Hsome. congruence.
Qed.

(** Token resolution reads the database and writes only to Redis. *)
Lemma keeps_on_redis {A : Type} d (m : M redis A) : keeps (fun w => w_db w = d) (on_redis m).
Proof. intros w <-. by destruct (on_redis_db m w) as [-> _]. Qed.

Lemma resolve_keeps_db `{UnicodeDB} jd sd sl present token d :
  keeps (fun w => w_db w = d) (resolve_access_token_user jd sd sl present token).
Proof.
  unfold resolve_access_token_user, ensure_jti_not_blacklisted, get_auth_cache, resolve_from_db, set_auth_cache_best_effort,
    set_user_status_cache_best_effort, best_effort, when.
  assert (keeps (fun w => w_db w = d) get) as Hget by (by intros w).
  repeat first [exact Hget | apply keeps_raise | apply keeps_ret | apply keeps_on_redis | apply keeps_bind | apply keeps_try | progress intros | progress case_match | done].
Qed.

Lemma ws_disconnect_closed user ws n : n_closed (ws_disconnect user ws n) = n_closed n.
Proof. unfold ws_disconnect. by destruct (decide _). Qed.
Lemma ws_connect_closed max user ws n : n_closed (ws_connect max user ws n).2 = n_closed n.
Proof. unfold ws_connect. destruct (max <=? _); [|done]. by destruct (decide _). Qed.

Section SocketProofs.
Context `{UnicodeDB}.
Context (read_fields : ustr -> option send_fields) (broadcast : Z -> ChatMessage -> ustr).
Context (present : bool) (rate_window rate_max : Z) (i : ustr).

Abbreviation frame_of := (handle_frame read_fields broadcast present rate_window rate_max i).

Lemma handle_frame_spec user g cache fr e :
  exists allowed retry close g' e1,
    on_limits (gate_check g present rate_window rate_max) e = (inr (allowed, retry, close, g'), e1) /\
    e_db e1 = e_db e /\ e_cluster e1 = e_cluster e /\
    frame_of user g cache fr e =
    if negb allowed then
      (inr (g', cache, if close : bool then None else Some (RateLimited retry), if close then Some WS_CLOSE_RATE_LIMIT else None), e1)
    else match parse_incoming_message read_fields (f_raw fr) with
         | None => (inr (g', cache, Some ValidationError, None), e1)
         | Some (peer, text) =>
             match send_dm_tx (f_now fr) (f_msg_id fr) (f_room_id fr) user peer text (dict_get peer cache) (e_db e) with
             | (inl x, d') => (inr (g', cache, Some (send_error_reply x), None), e1 <| e_world := e_world e1 <| w_db := d' |> |>)
             | (inr (room, msg), d') =>
                 (inr (g', evict_rooms (match dict_get peer cache with None => dict_set peer room cache | Some _ => cache end), None, None),
                  e1 <| e_world := e_world e1 <| w_db := d' |> |>
                     <| e_cluster := fanout_dm (f_up fr) present (f_publish fr) i peer user (broadcast (f_msg_id fr) msg) (e_cluster e1) |>)
             end
         end.
Proof.
  pose proof (on_limits_frame (gate_check g present rate_window rate_max) e) as [Hd Hc].
  assert (exists r e1, on_limits (gate_check g present rate_window rate_max) e = (inr r, e1)) as ([[[al rt] cl] g'] & e1 & El).
  { unfold on_limits. destruct (gate_check_total g present rate_window rate_max
      {| rl_redis := w_redis (e_world e); rl_memory := e_memory e; rl_clock := e_clock e; rl_rejections := e_rejections e |}) as (r & s' & ->). by eexists _, _. }
  rewrite El in Hd, Hc. cbn [snd] in *. exists al, rt, cl, g', e1. split; [done|]. split; [done|]. split; [done|].
  unfold handle_frame. unfold mbind at 1, M_bind at 1. rewrite El. destruct al; cbn [negb]; [|by destruct cl].
  destruct (parse_incoming_message read_fields (f_raw fr)) as [[peer text]|]; [|done].
  unfold try_except. unfold mbind at 1, M_bind at 1. unfold send_dm_from_ws. unfold mbind at 1, M_bind at 1. unfold on_world, on_db.
  change (w_db (e_world e1)) with (e_db e1). rewrite Hd. destruct (send_dm_tx _ _ _ _ _ _ _ (e_db e)) as [[x|[room msg]] d']; done.
Qed.

(** One frame of the chat socket, on every branch.  Over the limit: an error
    frame, or the close 4002, and nothing stored or sent; an invalid text: a
    validation error and nothing else; to oneself, to an absent or inactive peer
    or across a block: the matching error frame, nothing stored or sent;
    otherwise the message is stored unread in the pair's room (cached or not),
    is fanned out to both users as its broadcast text, and no error is sent. *)
Theorem chat_frame_outcomes user g cache fr e :
  chat_ok (e_db e) -> cache_ok user cache (e_db e) ->
  exists allowed retry close g' e1,
    on_limits (gate_check g present rate_window rate_max) e = (inr (allowed, retry, close, g'), e1) /\
    e_db e1 = e_db e /\ e_cluster e1 = e_cluster e /\
    let refused reply code := exists e', frame_of user g cache fr e = (inr (g', cache, reply, code), e') /\
                                e_db e' = e_db e /\ e_cluster e' = e_cluster e in
    if negb allowed then if close : bool then refused None (Some WS_CLOSE_RATE_LIMIT) else refused (Some (RateLimited retry)) None
    else match parse_incoming_message read_fields (f_raw fr) with
         | None => refused (Some ValidationError) None
         | Some (peer, text) =>
             match dm_allowed user peer (e_db e) with
             | DmSelf => refused (Some (DomainError DM_SAME_USER)) None
             | DmNoPeer => refused (Some PeerNotFound) None
             | DmBlocked => refused (Some (DomainError FORBIDDEN)) None
             | DmAllowed =>
                 is_Some (users (e_db e) !! user) -> chat_messages (e_db e) !! f_msg_id fr = None -> chat_rooms (e_db e) !! f_room_id fr = None ->
                 exists r room cache' e',
                   let msg := {| room_id := r; sender_id := user; msg_content := text; is_read := false; msg_created_at := f_now fr |} in
                   frame_of user g cache fr e = (inr (g', cache', None, None), e') /\
                   chat_rooms (e_db e') !! r = Some room /\ room_of user peer room /\
                   chat_messages (e_db e') = <[f_msg_id fr := msg]> (chat_messages (e_db e)) /\
                   e_cluster e' = fanout_dm (f_up fr) present (f_publish fr) i peer user (broadcast (f_msg_id fr) msg) (e_cluster e)
             end
         end.
Proof.
  intros Hok Hc. destruct (handle_frame_spec user g cache fr e) as (al & rt & cl & g' & e1 & El & Hd & Hcl & E).
  exists al, rt, cl, g', e1. split; [done|]. split; [done|]. split; [done|]. cbn zeta. rewrite E. clear E El.
  destruct al; cbn [negb]; [|destruct cl; by exists e1].
  destruct (parse_incoming_message read_fields (f_raw fr)) as [[peer text]|]; [|by exists e1].
  pose proof (send_dm_refused (f_now fr) (f_msg_id fr) (f_room_id fr) user peer text (dict_get peer cache) (e_db e)) as Hr.
  destruct (dm_allowed user peer (e_db e)) eqn:Ea; [rewrite Hr; eexists; (split; [reflexivity|]); split; [done|exact Hcl]..|].
  intros Hu Hm Hnr. destruct (send_dm_succeeds (f_now fr) (f_msg_id fr) (f_room_id fr) user peer text cache (e_db e) Hok Hc Ea Hu Hm Hnr)
    as (r & msg & d' & Es).
  pose proof (send_dm_spec (f_now fr) (f_msg_id fr) (f_room_id fr) user peer text (dict_get peer cache) (e_db e) Hok
    (cache_cached_ok user peer cache _ Hc)) as Hs.
  rewrite Es in *. destruct Hs as (_ & -> & d1 & room & _ & Hroom & Hro & _ & Hmsg & _ & -> & _).
  eexists r, room, _, _. cbn zeta. split; [reflexivity|]. unfold e_db. cbn [e_world e_cluster over w_db chat_rooms chat_messages].
  rewrite Hcl. done.
Qed.

(** What a frame leaves of the session's invariant. *)
Definition session_after (user : Z) (cache : list (Z * Z)) (fr : frame) (e : sock_env) (cache' : list (Z * Z)) (code : option Z) (e' : sock_env) : Prop :=
  chat_ok (e_db e') /\ cache_ok user cache' (e_db e') /\ py_len cache' <= ROOM_CACHE_MAX /\
  (code = None \/ code = Some WS_CLOSE_RATE_LIMIT) /\ rooms_grow cache.*2 (e_db e) (e_db e') /\
  (e_cluster e' = e_cluster e \/ exists p w, e_cluster e' = fanout_dm (f_up fr) present (f_publish fr) i p user w (e_cluster e)) /\
  (forall x, x ∈ cache'.*2 -> x ∈ cache.*2 \/ is_Some (chat_rooms (e_db e') !! x)) /\
  (forall x, chat_rooms (e_db e) !! x = None -> is_Some (chat_rooms (e_db e') !! x) -> x = f_room_id fr).

Lemma session_unchanged user cache fr e e' code : chat_ok (e_db e) -> cache_ok user cache (e_db e) -> py_len cache <= ROOM_CACHE_MAX ->
  (code = None \/ code = Some WS_CLOSE_RATE_LIMIT) -> e_db e' = e_db e -> e_cluster e' = e_cluster e ->
  session_after user cache fr e cache code e'.
Proof.
  intros ???? Hd Hc. unfold session_after. rewrite Hd, Hc. split_and!; try done; auto using rooms_grow_refl.
  intros x Hx [? Hy]. congruence.
Qed.

Lemma cache_ok_frame user g cache fr e : chat_ok (e_db e) -> cache_ok user cache (e_db e) -> f_room_id fr ∉ cache.*2 ->
  py_len cache <= ROOM_CACHE_MAX ->
  exists g' cache' reply code e', frame_of user g cache fr e = (inr (g', cache', reply, code), e') /\
    session_after user cache fr e cache' code e'.
Proof.
  intros Hok Hc Hfr Hlen. destruct (handle_frame_spec user g cache fr e) as (al & rt & cl & g' & e1 & El & Hd & Hcl & E).
  rewrite E. clear E El.
  assert (forall reply code, (code = None \/ code = Some WS_CLOSE_RATE_LIMIT) -> exists g2 cache' reply' code' e',
    (inr (g', cache, reply, code), e1) = (inr (g2, cache', reply', code'), e') :> (exn + (gate * list (Z * Z) * option ws_reply * option Z)) * sock_env /\
    session_after user cache fr e cache' code' e') as Hsame.
  { intros reply code Hcode. exists g', cache, reply, code, e1. split; [done|]. by apply session_unchanged. }
  destruct al; cbn [negb]; [|apply Hsame; destruct cl; auto].
  destruct (parse_incoming_message read_fields (f_raw fr)) as [[peer text]|]; [|apply Hsame; auto].
  pose proof (cache_cached_ok user peer cache _ Hc) as Hcd.
  pose proof (send_dm_spec (f_now fr) (f_msg_id fr) (f_room_id fr) user peer text (dict_get peer cache) (e_db e) Hok Hcd) as Hs.
  pose proof (send_grows cache.*2 (f_now fr) (f_msg_id fr) (f_room_id fr) user peer text (dict_get peer cache) (e_db e) Hok Hcd Hfr) as Hg.
  pose proof (send_new_rooms (f_now fr) (f_msg_id fr) (f_room_id fr) user peer text (dict_get peer cache) (e_db e) Hok Hcd) as Hnew.
  destruct (chat_store_keeps (e_db e) (f_now fr) (f_msg_id fr) (f_room_id fr) user peer text (dict_get peer cache) 0 [] Hok Hcd) as (_ & Hok' & _).
  destruct (send_dm_tx (f_now fr) _ _ user peer text _ (e_db e)) as [[x|[room msg]] d']; cbn [snd] in *.
  { subst d'. assert (e1 <| e_world := e_world e1 <| w_db := e_db e |> |> = e1) as -> by (rewrite <-Hd; by destruct e1 as [[] ? ? ? ?]).
    apply Hsame. auto. }
  destruct Hs as (_ & _ & d1 & rm & _ & Hroom & Hro & _ & _ & _ & Hd' & _).
  assert (chat_rooms d' !! room = Some rm) as Hrd by (by subst d').
  assert (cache_ok user cache d') as Hc' by (by eapply cache_ok_grow).
  eexists _, _, _, _, _. split; [reflexivity|]. unfold session_after, e_db. cbn [e_world e_cluster over w_db]. rewrite Hcl.
  set (cache1 := match dict_get peer cache with None => dict_set peer room cache | Some _ => cache end).
  assert (forall p r, (p, r) ∈ cache1 -> (p, r) ∈ cache \/ (p = peer /\ r = room)) as Hin.
  { intros p r. unfold cache1. destruct (dict_get peer cache) as [c|] eqn:Eg; [by left|]. rewrite dict_set_fresh; [set_solver|].
    intros ([p' r'] & -> & Hin)%list_elem_of_fmap. by eapply (dict_get_None_notin _ _ _ Eg). }
  split_and!; [done| |apply evict_rooms_bound|by left|done|right; by eexists _, _| |done].
  - intros p r [Hp|[-> ->]]%evict_rooms_sub%Hin; [by apply Hc'|]. left. by exists rm.
  - intros x ([p r] & -> & [Hp|[-> ->]]%evict_rooms_sub%Hin)%list_elem_of_fmap; [left|right].
    + apply list_elem_of_fmap. by exists (p, r).
    + by eexists.
Qed.

(** The socket's room cache is sound and bounded: every cached id names the
    room of its pair or a room deleted with one of its two users.  Handling a
    frame keeps this and at most 64 entries; so does anything other requests do
    in between (rooms opened, messages sent, read marks, the purge of users), and
    whenever the checks then allow the peer, the cached room still exists and is
    the pair's, so no message can be stored in another room or fail on a stale one. *)
Theorem room_cache_sound user g cache fr e d' :
  chat_ok (e_db e) -> cache_ok user cache (e_db e) -> py_len cache <= ROOM_CACHE_MAX -> f_room_id fr ∉ cache.*2 ->
  (exists g' cache' reply code e', frame_of user g cache fr e = (inr (g', cache', reply, code), e') /\
     chat_ok (e_db e') /\ cache_ok user cache' (e_db e') /\ py_len cache' <= ROOM_CACHE_MAX) /\
  (rtc (chat_step cache.*2) (e_db e) d' ->
     chat_ok d' /\ cache_ok user cache d' /\
     forall peer r, dict_get peer cache = Some r -> is_Some (users d' !! user) -> dm_allowed user peer d' = DmAllowed ->
       exists room, chat_rooms d' !! r = Some room /\ room_of user peer room).
Proof.
  intros Hok Hc Hlen Hfr. split.
  - destruct (cache_ok_frame user g cache fr e Hok Hc Hfr Hlen) as (g' & cache' & reply & code & e' & E & H1 & H2 & H3 & _).
    by exists g', cache', reply, code, e'.
  - intros Hs. assert (chat_ok d' /\ cache_ok user cache d') as [Hok' Hc'].
    { revert Hok Hc. induction Hs as [d|d1 d2 d3 H12 _ IH]; intros Hok Hc; [done|]. destruct (cache_ok_step user cache d1 d2 Hok Hc H12). auto. }
    split; [done|split; [done|]]. intros peer r Hr%dict_get_In [u Hu] Ha. destruct (Hc' peer r Hr) as [|[_ [Hg|Hg]]]; [done| |congruence].
    unfold dm_allowed in Ha. rewrite Hg in Ha. by destruct (decide _).
Qed.

(** What deliveries do to one socket: it stays where it is registered or is
    dropped, and then, with 1013, only if a send to it failed. *)
Definition calm (ws : Z) (failed : bool) (c c' : cluster) : Prop :=
  forall n', c_nodes c' !! i = Some n' -> exists n, c_nodes c !! i = Some n /\
    (forall u, ws ∈ sockets_of u n' -> ws ∈ sockets_of u n) /\
    (forall k, (ws, k) ∈ n_closed n' -> (ws, k) ∈ n_closed n \/ (k = 1013 /\ failed = true)).

Lemma calm_refl ws c : calm ws false c c.
Proof. intros n Hn. exists n. auto. Qed.
Lemma calm_trans ws a b c1 c2 c3 : calm ws a c1 c2 -> calm ws b c2 c3 -> calm ws (a || b) c1 c3.
Proof.
  intros H12 H23 n3 Hn3. destruct (H23 n3 Hn3) as (n2 & Hn2 & S2 & C2), (H12 n2 Hn2) as (n1 & Hn1 & S1 & C1).
  exists n1. split; [done|]. split; [auto|]. intros k [Hk|[-> ->]]%C2; [|right; by rewrite orb_true_r].
  destruct (C1 k Hk) as [|[-> ->]]; auto.
Qed.

Lemma send_personal_calm ws up user m n :
  (forall u, ws ∈ sockets_of u (send_personal_message up user m n) -> ws ∈ sockets_of u n) /\
  (forall k, (ws, k) ∈ n_closed (send_personal_message up user m n) -> (ws, k) ∈ n_closed n \/ (k = 1013 /\ up ws = false)).
Proof.
  destruct (send_personal_sent up user m n) as (_ & _ & _ & -> & Hs). split; [by intros u [Hu _]%Hs|].
  intros k [Hk|(x & [= -> ->] & Hx)%list_elem_of_fmap]%elem_of_app; [by left|right]. split; [done|].
  apply list_elem_of_In, filter_In in Hx as [_ Hx]. by apply negb_true_iff.
Qed.

Lemma delivery_calm ws d e : calm ws (negb (dl_up d ws)) (e_cluster e) (e_cluster (other_delivery i d e).2).
Proof.
  intros n'. unfold other_delivery, modify, with_node. cbn [snd e_cluster over].
  destruct (c_nodes (e_cluster e) !! i) as [n|] eqn:En; [|by rewrite En]. cbn [c_nodes over]. rewrite lookup_insert_eq. intros [= <-].
  exists n. split; [done|]. destruct (send_personal_calm ws (dl_up d) (dl_user d) (dl_message d) n) as [H1 H2]. split; [done|].
  intros k [Hk|[-> ->]]%H2; auto.
Qed.

Lemma fanout_calm ws up ft p s w c : calm ws (negb (up ws)) c (fanout_dm up present ft i p s w c).
Proof.
  intros n'. unfold fanout_dm. destruct (c_nodes c !! i) as [n|] eqn:E; [|by rewrite E]. cbn [c_nodes]. rewrite lookup_insert_eq. intros [= <-].
  exists n. split; [done|]. destruct (send_personal_calm ws up p w n) as [H1 H2].
  destruct (send_personal_calm ws up s w (send_personal_message up p w n)) as [H3 H4]. split; [auto|].
  intros k [[Hk|[-> ->]]%H2|[-> ->]]%H4; auto.
Qed.

Lemma deliveries_calm ws l e : exists e', for_each l (other_delivery i) e = (inr tt, e') /\ e_db e' = e_db e /\
  calm ws (existsb (fun d => negb (dl_up d ws)) l) (e_cluster e) (e_cluster e').
Proof.
  revert e. induction l as [|d l IH]; intros e; [exists e; split; [done|]; split; [done|apply calm_refl]|].
  cbn [for_each existsb]. unfold mbind, M_bind. pose proof (delivery_calm ws d e) as Hd.
  destruct (IH (other_delivery i d e).2) as (e' & E & Hdb & Hc). unfold other_delivery at 1, modify. exists e'. split; [exact E|].
  split; [done|]. by eapply calm_trans.
Qed.

Lemma calm_dropped ws f e e' : calm ws f (e_cluster e) (e_cluster e') -> dropped i ws e' = true -> dropped i ws e = true \/ f = true.
Proof.
  intros Hc. unfold dropped. destruct (c_nodes (e_cluster e') !! i) as [n'|] eqn:E; [|done]. intros Hd%bool_decide_eq_true.
  destruct (Hc n' E) as (n & -> & _ & Hk). apply list_elem_of_fmap in Hd as ([x k] & Hxk & Hx). cbn in Hxk. subst x.
  destruct (Hk k Hx) as [Hin|[_ ->]]; [left|by right].
  apply bool_decide_eq_true, list_elem_of_fmap. by exists (ws, k).
Qed.

(** The texts of a session, and the events in which a send to the socket fails. *)
Definition texts (events : list ws_event) : list frame := omap (fun ev => match ev with TextFrame fr => Some fr | _ => None end) events.
Definition send_failed (ws : Z) (ev : ws_event) : bool :=
  match ev with
  | TextFrame fr => negb (f_up fr ws) || negb (f_sent fr) || existsb (fun d => negb (dl_up d ws)) (f_after fr)
  | Delivered d => negb (dl_up d ws)
  | BinaryFrame => false
  end.

(** How a session may end, given whether a send to the socket failed. *)
Definition ending_ok (failed : bool) (events : list ws_event) (ending : ws_ending) : Prop :=
  match ending with
  | ClientLeft => True
  | Closed k => k = WS_CLOSE_RATE_LIMIT
  | Escaped KeyError => BinaryFrame ∈ events
  | Escaped RuntimeError => failed = true
  end.

Lemma ending_ok_weaken f f' evs ev ending : (f = true -> f' = true) -> ending_ok f evs ending -> ending_ok f' (ev :: evs) ending.
Proof. destruct ending as [|k|[]]; cbn [ending_ok]; [done|done| |auto]. intros _ H1. by apply list_elem_of_further. Qed.

Lemma safe_send_text_spec reply connected sent : let '(out, live) := safe_send_text reply connected sent in
  (length out <= 1)%nat /\ (live = false -> sent = false).
Proof. unfold safe_send_text. destruct reply, connected, sent; cbn; split; (done || lia). Qed.

Lemma ws_loop_spec user ws g cache live calling events e : chat_ok (e_db e) -> cache_ok user cache (e_db e) -> py_len cache <= ROOM_CACHE_MAX ->
  NoDup (f_room_id <$> texts events) -> (forall fr, fr ∈ texts events -> f_room_id fr ∉ cache.*2 /\ chat_rooms (e_db e) !! f_room_id fr = None) ->
  exists replies ending e', ws_loop read_fields broadcast present rate_window rate_max i user ws g cache live calling events e = (inr (replies, ending), e') /\
    chat_ok (e_db e') /\ (length replies <= length (texts events))%nat /\
    calm ws (existsb (send_failed ws) events) (e_cluster e) (e_cluster e') /\
    ending_ok (negb live || dropped i ws e || existsb (send_failed ws) events) events ending.
Proof.
  revert g cache live calling e. induction events as [|ev rest IH]; intros g cache live calling e Hok Hc Hlen Hnd Hfresh; cbn [ws_loop].
  all: unfold mbind at 1, M_bind at 1; unfold get at 1; destruct (calling && _) eqn:Ecall.
  1, 3: eexists [], _, e; split; [reflexivity|]; split_and!; [done|cbn; lia|..].
  1, 3: intros n Hn; exists n; auto.
  1, 2: apply andb_true_iff in Ecall as [_ Ecall]; cbn [ending_ok]; rewrite negb_andb, negb_involutive in Ecall; by rewrite Ecall.
  { eexists [], _, e. split; [reflexivity|]. split_and!; [done|cbn; lia|apply calm_refl|exact I]. }
  destruct ev as [fr| |d].
  - (* a text *)
    cbn [texts omap list_omap] in Hnd, Hfresh. fold (texts rest) in Hnd, Hfresh. rewrite fmap_cons in Hnd. apply NoDup_cons in Hnd as [Hnin Hnd].
    destruct (Hfresh fr) as [Hfr Hroom]; [set_solver|].
    destruct (cache_ok_frame user g cache fr e Hok Hc Hfr Hlen) as (g' & cache' & reply & code & e1 & E & Hok1 & Hc1 & Hlen1 & Hcode & Hgrow & Hcl & Hids & Hnew).
    assert (calm ws (negb (f_up fr ws)) (e_cluster e) (e_cluster e1)) as Hcalm1.
    { destruct Hcl as [->|(p & w & ->)]; [|apply fanout_calm]. intros n Hn. exists n. auto. }
    pose proof (calm_dropped ws _ _ _ Hcalm1) as Hd1.
    unfold mbind at 1, M_bind at 1. rewrite E. unfold mbind at 1, M_bind at 1. unfold get at 1. cbn [existsb send_failed].
    destruct code as [code|].
    { eexists [], _, e1. split; [reflexivity|]. split_and!; [done|cbn; lia| |].
      - intros n' Hn'. destruct (Hcalm1 n' Hn') as (n & Hn & H1 & H2). exists n. split_and!; [done..|]. intros k [|[-> ->]]%H2; auto.
      - destruct Hcode as [|[= ->]]; [done|]. destruct live; cbn [andb negb orb]; [|done]. destruct (dropped i ws e1); cbn [negb].
        + cbn [ending_ok]. destruct (Hd1 eq_refl) as [->| ->]; [done|]. by rewrite !orb_true_r.
        + by destruct (f_sent fr). }
    pose proof (safe_send_text_spec reply (live && negb (dropped i ws e1)) (f_sent fr)) as Hsent.
    destruct (safe_send_text reply _ (f_sent fr)) as [out live']. destruct Hsent as [Hout Hlive].
    destruct (deliveries_calm ws (f_after fr) e1) as (e2 & E2 & Hdb2 & Hcalm2). unfold mbind at 1, M_bind at 1. rewrite E2.
    pose proof (calm_dropped ws _ _ _ Hcalm2) as Hd2.
    assert (forall fr', fr' ∈ texts rest -> f_room_id fr' ∉ cache'.*2 /\ chat_rooms (e_db e2) !! f_room_id fr' = None) as Hrest.
    { intros fr' Hin. rewrite Hdb2. assert (f_room_id fr' <> f_room_id fr) as Hne.
      { intros Eq. apply Hnin. rewrite <-Eq. apply list_elem_of_fmap. by exists fr'. }
      destruct (Hfresh fr') as [Hf Hx]; [set_solver|].
      assert (chat_rooms (e_db e1) !! f_room_id fr' = None) as Hx1 by (apply eq_None_not_Some; intros Hs; by apply Hne, Hnew).
      split; [|done]. intros [Hc'|[? Hr]]%Hids; [done|congruence]. }
    destruct (IH g' cache' (live && live') true e2) as (replies & ending & e3 & E3 & H1 & H2 & H3 & H4); try (by rewrite ?Hdb2); [done|].
    unfold mbind at 1, M_bind at 1. rewrite E3. eexists _, _, e3. split; [reflexivity|]. split_and!; [done| | |].
    + cbn [texts omap list_omap length]. fold (texts rest). rewrite length_app. lia.
    + pose proof (calm_trans _ _ _ _ _ _ Hcalm1 (calm_trans _ _ _ _ _ _ Hcalm2 H3)) as Hcalm.
      intros n' Hn'. destruct (Hcalm n' Hn') as (n & Hn & K1 & K2). exists n. split_and!; [done..|]. intros k [Hk|[-> Hk]]%K2; [by left|right].
      split; [done|]. repeat rewrite orb_true_iff in Hk. repeat rewrite orb_true_iff. tauto.
    + eapply ending_ok_weaken; [|exact H4]. repeat rewrite orb_true_iff. intros [[Hl|Hd]|Hf]; [|destruct (Hd2 Hd) as [Hd'| ->]; [destruct (Hd1 Hd')|]; tauto|tauto].
      destruct live; [|tauto]. cbn [andb] in Hl. apply negb_true_iff in Hl. rewrite (Hlive Hl). tauto.
  - eexists [], _, e. split; [reflexivity|]. split_and!; [done|cbn; lia| |cbn [ending_ok]; by apply list_elem_of_here].
    intros n Hn. exists n. auto.
  - pose proof (delivery_calm ws d e) as Hcalm. pose proof (calm_dropped ws _ _ _ Hcalm) as Hd.
    unfold mbind at 1, M_bind at 1. unfold other_delivery at 1, modify at 1. set (e1 := (other_delivery i d e).2) in *.
    destruct (IH g cache live false e1) as (replies & ending & e2 & E2 & H1 & H2 & H3 & H4); try done.
    eexists _, _, e2. split; [exact E2|]. split_and!; [done|done|by eapply calm_trans|].
    eapply ending_ok_weaken; [|exact H4]. cbn [existsb send_failed]. repeat rewrite orb_true_iff. intros [[Hl|Hd']|Hf]; [tauto|destruct (Hd Hd'); tauto|tauto].
Qed.

Context (jwt_decode : ustr -> option claims) (snapshot_dump : ustr -> CurrentUser -> ustr)
  (snapshot_load : ustr -> option (option ustr * option CurrentUser)).
Context (max_connections : Z).

(** C22. A chat session from the handshake to the end, for any token, any texts,
    binary frames and deliveries of other tasks in between.  However it ends,
    the socket is unregistered on its instance and the chat store well formed; there
    are at most as many error frames as texts; the handler closes only with 1008,
    1011, 4001 or 4002 and the manager, when it drops the socket, only with 1013.
    An exception leaves the handler only in two cases: KeyError after a binary
    frame, RuntimeError after a send to this very socket failed. *)
Theorem chat_session_safe ws token events e :
  chat_ok (e_db e) -> NoDup (f_room_id <$> texts events) -> (forall fr, fr ∈ texts events -> chat_rooms (e_db e) !! f_room_id fr = None) ->
  (forall n, c_nodes (e_cluster e) !! i = Some n -> (forall u, ws ∉ sockets_of u n) /\ ws ∉ (n_closed n).*1) ->
  exists replies ending e',
    chat_dm_websocket read_fields broadcast jwt_decode snapshot_dump snapshot_load present rate_window rate_max max_connections i ws token events e =
      (inr (replies, ending), e') /\
    chat_ok (e_db e') /\
    (forall n, c_nodes (e_cluster e') !! i = Some n -> (forall u, ws ∉ sockets_of u n) /\ (forall k, (ws, k) ∈ n_closed n -> k = 1013)) /\
    (length replies <= length (texts events))%nat /\
    match ending with
    | ClientLeft => True
    | Closed k => k ∈ [1008; 1011; 4001; 4002]
    | Escaped KeyError => BinaryFrame ∈ events
    | Escaped RuntimeError => existsb (send_failed ws) events = true
    end.
Proof.
  intros Hok Hnd Hfresh Hws. unfold chat_dm_websocket, on_world.
  assert (w_db (authenticate jwt_decode snapshot_dump snapshot_load present token (e_world e)).2 = e_db e) as Hdb.
  { unfold authenticate. case_bool_decide; [done|]. unfold mbind, M_bind.
    pose proof (resolve_keeps_db jwt_decode snapshot_dump snapshot_load present (strip token) (e_db e) (e_world e) eq_refl) as Hk.
    by destruct (resolve_access_token_user _ _ _ _ _ _) as [[x|cu] w]. }
  assert (forall n, c_nodes (e_cluster e) !! i = Some n -> (forall u, ws ∉ sockets_of u n) /\ (forall k, (ws, k) ∈ n_closed n -> k = 1013)) as Hws0.
  { intros n Hn. destruct (Hws n Hn) as [H1 H2]. split; [done|]. intros k Hk. destruct H2. apply list_elem_of_fmap. by exists (ws, k). }
  destruct (authenticate _ _ _ _ token (e_world e)) as [[x|user] w]; cbn [snd] in Hdb.
  { eexists _, _, _. split; [reflexivity|]. unfold e_db at 1. cbn [e_world over]. rewrite Hdb. split_and!; [done|exact Hws0|cbn; lia|].
    destruct (project_class x) as [[st code]|]; [|set_solver]. unfold ws_close_code, WS_CLOSE_RATE_LIMIT.
    destruct (500 <=? st); [set_solver|]. destruct (st =? 429); set_solver. }
  set (e1 := e <| e_world := w |>). assert (e_db e1 = e_db e) as Hd1 by done. assert (e_cluster e1 = e_cluster e) as Hc1 by done.
  unfold mbind, M_bind, register_socket. rewrite Hc1. destruct (c_nodes (e_cluster e) !! i) as [n|] eqn:En.
  2:{ eexists _, _, e1. split; [reflexivity|]. rewrite Hd1. split_and!; [done| |cbn; lia|unfold WS_CLOSE_CONNECTION_LIMIT; set_solver].
      intros m. rewrite Hc1, En. done. }
  pose proof (fun u => ws_connect_sockets max_connections user ws u n) as Hsk. pose proof (ws_connect_closed max_connections user ws n) as Hcl.
  destruct (Hws n eq_refl) as [Hreg Hcl0]. destruct (Hws0 n eq_refl) as [_ Hcl1].
  destruct (ws_connect max_connections user ws n) as [ok n'] eqn:Ec. cbn [fst snd] in Hsk, Hcl. destruct ok; cbn [negb].
  2:{ eexists _, _, _. split; [reflexivity|]. unfold e_db. cbn [e_world over e_cluster c_nodes]. fold (e_db e1). rewrite Hd1.
      split_and!; [done| |cbn; lia|unfold WS_CLOSE_CONNECTION_LIMIT; set_solver].
      intros m. rewrite lookup_insert_eq. intros [= <-]. rewrite Hcl. split; [|done]. intros u. rewrite Hsk. by destruct (decide (u = user)). }
  set (e2 := e1 <| e_cluster := e_cluster e <| c_nodes := <[i := n']> (c_nodes (e_cluster e)) |> |>).
  assert (e_db e2 = e_db e) as Hd2 by done.
  assert (c_nodes (e_cluster e2) !! i = Some n') as Hn2 by (cbn [e2 e_cluster over c_nodes]; apply lookup_insert_eq).
  destruct (ws_loop_spec user ws (new_gate (gate_key user) REJECT_CLOSE_THRESHOLD) [] true true events e2) as (replies & ending & e3 & E3 & H1 & H2 & H3 & H4); try done.
  - by rewrite Hd2.
  - intros ?? Hx. by apply not_elem_of_nil in Hx.
  - intros fr Hin. split; [apply not_elem_of_nil|]. rewrite Hd2. by apply Hfresh.
  - unfold try_finally. rewrite E3. eexists _, _, _. split; [reflexivity|]. split_and!; [exact H1| |done|].
    + intros m. cbn [modify snd e_cluster over]. unfold with_node. destruct (c_nodes (e_cluster e3) !! i) as [m0|] eqn:Em; [|congruence].
      cbn [c_nodes over]. rewrite lookup_insert_eq. intros [= <-]. destruct (H3 m0 Em) as (n2 & Hn2' & Hs & Hk). rewrite Hn2 in Hn2'. injection Hn2' as <-.
      split.
      * intros u. rewrite ws_disconnect_sockets. destruct (decide (u = user)) as [->|Hne]; [set_solver|]. intros Hin%Hs. rewrite Hsk in Hin.
        rewrite decide_False in Hin by done. by apply Hreg in Hin.
      * intros k. rewrite ws_disconnect_closed. intros [Hin|[-> _]]%Hk; [|done]. rewrite Hcl in Hin. by apply Hcl1.
    + assert (dropped i ws e2 = false) as Hdr by (unfold dropped; rewrite Hn2, Hcl; by apply bool_decide_eq_false_2).
      rewrite Hdr in H4. destruct ending as [|k|[]]; cbn [ending_ok negb orb] in H4; [done| |done|done].
      rewrite H4. unfold WS_CLOSE_RATE_LIMIT. set_solver.
Qed.
End SocketProofs.

(** ** Witnesses: user 7 writes to user 8 from instance [a], without Redis. *)

Definition demo_read (raw : ustr) : option send_fields := Some {| sf_type := lit "chat.send"; sf_peer := VUuid 8; sf_content := raw |}.
Definition demo_broadcast (_ : Z) (m : ChatMessage) : ustr := lit "msg " ++ msg_content m.
Definition demo_frame (m : Z) : frame :=
  {| f_raw := lit " hello "; f_now := 9; f_msg_id := m; f_room_id := 100 + m; f_up := fun _ => true; f_publish := NoFault;
     f_sent := true; f_after := [] |}.
Definition demo_env : sock_env :=
  {| e_world := empty_world <| w_db := demo_chat |>; e_memory := []; e_clock := 0; e_rejections := []; e_cluster := demo_cluster0 |}.
Definition demo_claims : claims := {| cl_sub := Some (uuid_str 7); cl_type := Some (lit "access"); cl_jti := None; cl_exp := None |}.

Lemma chat_frame_outcomes_witness :
  exists g' cache' e', @handle_frame ascii_db demo_read demo_broadcast false 60 60 (lit "a") 7 (new_gate (gate_key 7) 30) [(8, 40)] (demo_frame 54) demo_env =
    (inr (g', cache', None, None), e') /\
    chat_messages (e_db e') !! 54 = Some {| room_id := 40; sender_id := 7; msg_content := lit "hello"; is_read := false; msg_created_at := 9 |}.
Proof.
  assert (cache_ok 7 [(8, 40)] demo_chat) as Hc.
  { intros p r [= -> ->]%list_elem_of_singleton. left. eexists. split; reflexivity. }
  destruct (@chat_frame_outcomes ascii_db demo_read demo_broadcast false 60 60 (lit "a") 7 (new_gate (gate_key 7) 30) [(8, 40)] (demo_frame 54) demo_env
    demo_chat_ok Hc) as (al & rt & cl & g' & e1 & El & _ & _ & H).
  assert (al = true) as -> by (apply (f_equal fst) in El; vm_compute in El; congruence).
  cbn [negb] in H. destruct (parse_incoming_message demo_read (f_raw (demo_frame 54))) as [[peer text]|] eqn:Ep; [|vm_compute in Ep; discriminate].
  assert (peer = 8 /\ text = lit "hello") as [-> ->] by (vm_compute in Ep; by simplify_eq).
  destruct (dm_allowed 7 8 (e_db demo_env)) eqn:Ea; try (vm_compute in Ea; discriminate).
  destruct H as (r & room & cache' & e' & E & Hr & Hro & Hm & _); [by eexists|reflexivity|reflexivity|].
  exists g', cache', e'. split; [exact E|].
  pose proof (f_equal (fun x => chat_messages (e_db x.2) !! 54) E) as E2. cbn [snd] in E2. rewrite <-E2. vm_compute. reflexivity.
Defined.

Lemma room_cache_sound_witness :
  exists g' cache' reply code e', @handle_frame ascii_db demo_read demo_broadcast false 60 60 (lit "a") 7 (new_gate (gate_key 7) 30) [(8, 40)] (demo_frame 54) demo_env =
    (inr (g', cache', reply, code), e') /\ chat_ok (e_db e') /\ cache_ok 7 cache' (e_db e') /\ py_len cache' <= ROOM_CACHE_MAX.
Proof.
  apply (@room_cache_sound ascii_db demo_read demo_broadcast false 60 60 (lit "a") 7 (new_gate (gate_key 7) 30) [(8, 40)] (demo_frame 54) demo_env demo_chat
    demo_chat_ok); [|vm_compute; discriminate|vm_compute; set_solver].
  intros p r [= -> ->]%list_elem_of_singleton. left. eexists. split; reflexivity.
Defined.

Abbreviation demo_session := (@chat_dm_websocket ascii_db demo_read demo_broadcast (fun _ => Some demo_claims) (fun _ _ => []) (fun _ => None) false 60 1 5 (lit "a") 1
      (lit "token")).
Definition lost_delivery : delivery := {| dl_user := 7; dl_message := lit "m"; dl_up := fun _ => false |}.

(** One message is stored, the second is over the limit, then a delivery to the
    socket fails while the loop waits; the client leaves. *)
Lemma chat_session_safe_witness :
  exists replies ending e', demo_session [TextFrame (demo_frame 54); TextFrame (demo_frame 55); Delivered lost_delivery] demo_env = (inr (replies, ending), e') /\
    chat_ok (e_db e') /\ replies = [RateLimited 60] /\ ending = ClientLeft.
Proof.
  destruct (@chat_session_safe ascii_db demo_read demo_broadcast false 60 1 (lit "a") (fun _ => Some demo_claims) (fun _ _ => []) (fun _ => None) 5 1
      (lit "token") [TextFrame (demo_frame 54); TextFrame (demo_frame 55); Delivered lost_delivery] demo_env demo_chat_ok) as (replies & ending & e' & E & Hok & _).
  - apply (bool_decide_unpack _). vm_compute. exact I.
  - intros fr Hin. cbn [texts omap list_omap] in Hin. rewrite !elem_of_cons, elem_of_nil in Hin. destruct Hin as [->|[->|[]]]; reflexivity.
  - intros n Hn. change (Some (fresh_node (lit "a")) = Some n) in Hn. injection Hn as <-.
    unfold sockets_of. cbn [fresh_node n_by_user n_closed]. split; [intros u; rewrite lookup_empty|]; set_solver.
  - exists replies, ending, e'. split; [exact E|]. split; [exact Hok|]. apply (f_equal fst) in E. vm_compute in E. by simplify_eq.
Defined.

(** The two exceptions do leave the handler: a binary frame; and a delivery that
    drops the socket (closed with 1013, unregistered) while a text is handled,
    after which the next receive raises. *)
Lemma binary_frame_escapes : (demo_session [TextFrame (demo_frame 54); BinaryFrame] demo_env).1 = inr ([], Escaped KeyError).
Proof. vm_compute. reflexivity. Qed.

Lemma dropped_socket_escapes :
  let '(r, e') := demo_session [TextFrame (Build_frame (lit "hi") 9 54 154 (fun _ => true) NoFault true [lost_delivery])] demo_env in
  r = inr ([], Escaped RuntimeError) /\ n_closed <$> c_nodes (e_cluster e') !! lit "a" = Some [(1, 1013)].
Proof. vm_compute. split; reflexivity. Qed.
