(* ===== verification/Cache.v ===== *)
(** * The JSON cache ([infra/cache.py])

    Read-through caching of an expensive query: a hit is returned, on a miss one
    worker computes under a lock and stores, the others poll for the value, and
    every trouble with Redis falls back to the query.  The type adapter's JSON
    is a library.  The abstract specification is a cell with a time to live. *)

From S2P Require Import Prelude Common Redis Db World.

Definition LOCK_TTL_SECONDS : Z := 5.

(** Sleeps of 0.1 s while the time waited is below 2 s. *)
Definition WAIT_POLLS : nat := 20.

Section Cache.
Context {T : Type} (dump_json : T -> ustr) (validate_json : ustr -> option T).

Definition decode (raw : option ustr) : option T :=
  match raw with Some (c :: text) => validate_json (c :: text) | _ => None end.

(** [None]: the read failed. *)
Definition read_cache (key : ustr) : M world (option (option T)) :=
  try_except (raw ← on_redis (redis_get key); mret (Some (decode raw))) (fun _ => mret None).

(** [asleep k] is what the rest of the world does during a sleep with [k] polls to go. *)
Fixpoint wait_for_value (polls : nat) (asleep : nat -> world -> world) (key : ustr) (loader : M world T) : M world T :=
  match polls with
  | O => loader
  | S k =>
      modify (asleep k) ;;
      decoded ← read_cache key;
      match decoded with
      | None => loader
      | Some (Some v) => mret v
      | Some None => wait_for_value k asleep key loader
      end
  end.

Definition get_or_compute_json (present : bool) (key lock_key : ustr) (ttl_seconds : Z) (token : ustr)
    (asleep : nat -> world -> world) (loader : M world T) : M world T :=
  if negb present then loader
  else
    decoded ← read_cache key;
    match decoded with
    | None => loader
    | Some (Some v) => mret v
    | Some None =>
        lock ← try_except (o ← on_redis (try_acquire_lock lock_key LOCK_TTL_SECONDS token); mret (Some o)) (fun _ => mret None);
        match lock with
        | None => loader
        | Some None => wait_for_value WAIT_POLLS asleep key loader
        | Some (Some lock_value) =>
            try_finally
              (result ← loader;
               try_except (on_redis (redis_set key (dump_json result) false (Some ttl_seconds)) ;; mret tt) (fun _ => mret tt) ;;
               mret result)
              (on_redis (release_lock lock_key lock_value))
        end
    end.
End Cache.

(** ** The specification: a cell with a time to live *)

Section Cell.
Context {T : Type} (query : db -> T) (ttl : Z).

(** The value with the database it was computed from and when. *)
Record cell := { ce_value : T; ce_db : db; ce_at : Z }.
Record cell_state := { cs_db : db; cs_now : Z; cs_cell : option cell }.
Record answer := { an_value : T; an_db : db; an_at : Z; an_now : Z }.

Definition cell_live (s : cell_state) : option cell :=
  c ← cs_cell s; if cs_now s <? ce_at c + ttl then Some c else None.

Definition cell_request (s : cell_state) : answer * cell_state :=
  let c := default {| ce_value := query (cs_db s); ce_db := cs_db s; ce_at := cs_now s |} (cell_live s) in
  ({| an_value := ce_value c; an_db := ce_db c; an_at := ce_at c; an_now := cs_now s |},
   {| cs_db := cs_db s; cs_now := cs_now s; cs_cell := Some c |}).

Inductive cache_event := AskFor (token : ustr) | Pass (dt : Z) | Change (f : db -> db).

Definition cell_event (ev : cache_event) (s : cell_state) : list answer * cell_state :=
  match ev with
  | AskFor _ => let '(a, s') := cell_request s in ([a], s')
  | Pass dt => ([], {| cs_db := cs_db s; cs_now := cs_now s + Z.max 0 dt; cs_cell := cs_cell s |})
  | Change f => ([], {| cs_db := f (cs_db s); cs_now := cs_now s; cs_cell := cs_cell s |})
  end.

Fixpoint cell_run (evs : list cache_event) (s : cell_state) : list answer * cell_state :=
  match evs with
  | [] => ([], s)
  | ev :: evs' => let '(o, s1) := cell_event ev s in let '(os, s2) := cell_run evs' s1 in (o ++ os, s2)
  end.
End Cell.

(** The implementation over the same events, the query reading the database. *)
Section CacheRun.
Context {T : Type} (dump_json : T -> ustr) (validate_json : ustr -> option T) (query : db -> T).
Context (key lock_key : ustr) (ttl : Z) (asleep : nat -> world -> world).

Definition load : M world T := gets (fun w => query (w_db w)).

Definition impl_event (ev : cache_event) (w : world) : list (exn + T) * world :=
  match ev with
  | AskFor token => let '(r, w') := get_or_compute_json dump_json validate_json true key lock_key ttl token asleep load w in ([r], w')
  | Pass dt => ([], later (Z.max 0 dt) w)
  | Change f => ([], w <| w_db := f (w_db w) |>)
  end.

Fixpoint impl_run (evs : list cache_event) (w : world) : list (exn + T) * world :=
  match evs with
  | [] => ([], w)
  | ev :: evs' => let '(o, w1) := impl_event ev w in let '(os, w2) := impl_run evs' w1 in (o ++ os, w2)
  end.
End CacheRun.

(** ** Refinement *)

Section Refinement.
Context {T : Type} (dump_json : T -> ustr) (validate_json : ustr -> option T) (query : db -> T).
Context (key lock_key : ustr) (ttl : Z) (asleep : nat -> world -> world).
(** A value survives its JSON, which is not empty; the keys differ. *)
Context (json_roundtrip : forall v, validate_json (dump_json v) = Some v) (json_nonempty : forall v, dump_json v <> []).
Context (keys_differ : key <> lock_key) (ttl_pos : 0 < ttl).

Definition cell_entry (c : cell) : rentry := {| r_val := RStr (dump_json (ce_value c)); r_exp := Some (ce_at c + ttl) |}.

Definition cell_rel (w : world) (s : cell_state) : Prop := exists v d l,
  w = redis_at v d (cs_now s) l /\ w_db v = cs_db s /\ d !! lock_key = None /\ d !! key = cell_entry <$> cs_cell s.

Lemma read_cell v d now l o : d !! key = cell_entry <$> o ->
  read_cache validate_json key (redis_at v d now l) =
  (inr (Some (c ← o; if now <? ce_at c + ttl then Some (ce_value c) else None)), redis_at v d now l).
Proof.
  intros Hd. unfold read_cache, try_except, redis_get. unfold mbind at 1, M_bind at 1. rewrite on_redis_at. unfold c_get, live. rewrite Hd.
  destruct o as [c|]; cbn [fmap option_fmap option_map mbind option_bind]; [|done]. unfold expired. cbn [cell_entry r_exp r_val].
  destruct (Z.leb_spec (ce_at c + ttl) now), (Z.ltb_spec now (ce_at c + ttl)); try lia; cbn [fst snd]; [done|].
  cbn [mret M_ret]. unfold decode. destruct (dump_json (ce_value c)) as [|x t] eqn:E; [by apply json_nonempty in E|].
  by rewrite <-E, json_roundtrip.
Qed.

Lemma request_refines token w s : cell_rel w s ->
  let '(r, w') := get_or_compute_json dump_json validate_json true key lock_key ttl token asleep (load query) w in
  let '(a, s') := cell_request query ttl s in r = inr (an_value a) /\ cell_rel w' s'.
Proof.
  intros (v & d & l & -> & Hdb & Hlock & Hkey). unfold get_or_compute_json. cbn [negb]. unfold mbind at 1, M_bind at 1.
  rewrite (read_cell v d (cs_now s) l _ Hkey). unfold cell_request, cell_live.
  destruct (cs_cell s ≫= _) as [x|] eqn:Ex.
  - destruct (cs_cell s) as [c|] eqn:Ec; cbn [mbind option_bind] in *; [|done].
    destruct (Z.ltb_spec (cs_now s) (ce_at c + ttl)); [|done]. injection Ex as <-. cbn [default an_value].
    split; [done|]. exists v, d, l. cbn [cs_now cs_db cs_cell]. rewrite ?Ec. done.
  - assert ((c ← cs_cell s; if cs_now s <? ce_at c + ttl then Some c else None) = None) as ->.
    { destruct (cs_cell s) as [c|]; cbn [mbind option_bind] in *; [|done]. by destruct (_ <? _). }
    cbn [default an_value]. unfold mbind at 1, M_bind at 1. unfold try_except at 1. unfold mbind at 1, M_bind at 1.
    rewrite acquire_at by (done || (unfold live; by rewrite Hlock)).
    set (d1 := <[lock_key := {| r_val := RStr token; r_exp := Some (cs_now s + LOCK_TTL_SECONDS) |}]> d).
    cbn [mret M_ret]. unfold try_finally. unfold mbind at 1, M_bind at 1. unfold load at 1, gets at 1. cbn [w_db redis_at over]. rewrite Hdb.
    unfold mbind at 1, M_bind at 1. unfold try_except at 1. unfold mbind at 1, M_bind at 1. unfold redis_set at 1. rewrite on_redis_at. unfold c_set.
    destruct (Z.leb_spec ttl 0); [lia|]. cbn [andb fst snd mret M_ret].
    set (d2 := <[key := _]> d1).
    assert (d2 !! lock_key = Some {| r_val := RStr token; r_exp := Some (cs_now s + LOCK_TTL_SECONDS) |}) as Hl2.
    { unfold d2, d1. rewrite lookup_insert_ne by done. apply lookup_insert_eq. }
    destruct (release_with lock_key token _ v d2 (cs_now s) l Hl2) as (l' & ->); [unfold LOCK_TTL_SECONDS; lia|].
    split; [done|]. exists v, (delete lock_key d2), l'. cbn [cs_now cs_db cs_cell fmap option_fmap option_map]. split_and!; [done|done|apply lookup_delete_eq|].
    rewrite lookup_delete_ne by done. unfold d2. by rewrite lookup_insert_eq.
Qed.

(** A cell holds what the query gave at the time it notes. *)
Definition cell_state_ok (s : cell_state) : Prop := forall c, cs_cell s = Some c -> ce_value c = query (ce_db c) /\ ce_at c <= cs_now s.

Definition answer_ok (a : answer) : Prop := an_value a = query (an_db a) /\ an_at a <= an_now a < an_at a + ttl.

Lemma cell_event_ok ev s : cell_state_ok s ->
  Forall answer_ok (cell_event query ttl ev s).1 /\ cell_state_ok (cell_event query ttl ev s).2.
Proof.
  intros Hs. destruct ev as [t|dt|f]; cbn [cell_event].
  - unfold cell_request, cell_live. destruct (cs_cell s) as [c|] eqn:Ec; cbn [mbind option_bind];
      [destruct (Z.ltb_spec (cs_now s) (ce_at c + ttl)); [destruct (Hs c Ec)|]|]; cbn [default fst snd];
      (split; [constructor; [|constructor]; split; cbn; [done|lia]|intros c' [= <-]; cbn; split; [done|lia]]).
  - split; [constructor|]. cbn. intros c Hc. destruct (Hs c Hc). split; [done|cbn; lia].
  - split; [constructor|]. cbn. intros c Hc. by apply Hs.
Qed.

Lemma cell_run_ok evs s : cell_state_ok s -> Forall answer_ok (cell_run query ttl evs s).1.
Proof.
  revert s. induction evs as [|ev evs IH]; intros s Hs; cbn [cell_run]; [constructor|].
  destruct (cell_event_ok ev s Hs) as [H1 H2]. destruct (cell_event query ttl ev s) as [o s1]. cbn [fst snd] in *.
  specialize (IH s1 H2). destruct (cell_run query ttl evs s1) as [os s2]. cbn [fst] in *. by apply Forall_app.
Qed.

Lemma run_refines evs w s : cell_rel w s ->
  (impl_run dump_json validate_json query key lock_key ttl asleep evs w).1 = inr ∘ an_value <$> (cell_run query ttl evs s).1.
Proof.
  revert w s. induction evs as [|ev evs IH]; intros w s Hr; cbn [impl_run cell_run]; [done|].
  assert ((impl_event dump_json validate_json query key lock_key ttl asleep ev w).1 = inr ∘ an_value <$> (cell_event query ttl ev s).1 /\
    cell_rel (impl_event dump_json validate_json query key lock_key ttl asleep ev w).2 (cell_event query ttl ev s).2) as [H1 H2].
  { destruct ev as [t|dt|f]; cbn [impl_event cell_event].
    - pose proof (request_refines t w s Hr) as Hq. destruct (get_or_compute_json _ _ _ _ _ _ _ _ _ w) as [r w'], (cell_request query ttl s) as [a s'].
      destruct Hq as [-> Hq]. done.
    - destruct Hr as (v & d & l & -> & Hdb & Hl & Hk). split; [done|]. exists v, d, l. done.
    - destruct Hr as (v & d & l & -> & Hdb & Hl & Hk). split; [done|]. exists (v <| w_db := f (w_db v) |>), d, l. cbn. rewrite Hdb. done. }
  destruct (impl_event _ _ _ _ _ _ _ ev w) as [o w1], (cell_event query ttl ev s) as [o' s1]. cbn [fst snd] in *. specialize (IH w1 s1 H2).
  destruct (impl_run _ _ _ _ _ _ _ evs w1) as [os w2], (cell_run query ttl evs s1) as [os' s2]. cbn [fst] in *. by rewrite H1, IH, fmap_app.
Qed.
End Refinement.

(** C17. The cache refines a cell with a time to live: over any sequence of
    requests, passing time and database changes, with Redis reachable, the
    answers are exactly those of the cell, and each is what the query gave on
    the database of a moment less than the time to live ago. *)
Theorem cache_refines_ttl_cell {T : Type} (dump_json : T -> ustr) validate_json query key lock_key ttl asleep evs d now :
  (forall v, validate_json (dump_json v) = Some v) -> (forall v, dump_json v <> []) -> key <> lock_key -> 0 < ttl ->
  let w := redis_at (empty_world <| w_db := d |>) ∅ now [] in
  let answers := (cell_run query ttl evs {| cs_db := d; cs_now := now; cs_cell := None |}).1 in
  (impl_run dump_json validate_json query key lock_key ttl asleep evs w).1 = inr ∘ an_value <$> answers /\
  Forall (fun a => an_value a = query (an_db a) /\ an_at a <= an_now a < an_at a + ttl) answers.
Proof.
  intros Hj Hn Hk Ht. cbn zeta. split.
  - apply run_refines; try done. eexists _, _, _. split; [reflexivity|]. done.
  - by apply cell_run_ok.
Qed.

Lemma cache_refines_ttl_cell_witness :
  let dump z := [z + 1] in let load_ s := match s with [c] => Some (c - 1) | _ => None end in
  (impl_run dump load_ (fun d => Z.of_nat (base.size (chat_rooms d))) (lit "k") (lit "k:lock") 10 (fun _ w => w)
     [AskFor (lit "t"); Change (fun d => d <| chat_rooms := <[1 := {| user1_id := 1; user2_id := 2; room_created_at := 0; room_updated_at := 0 |}]> (chat_rooms d) |>);
      AskFor (lit "t"); Pass 10; AskFor (lit "t")] (redis_at (empty_world <| w_db := empty_db |>) ∅ 100 [])).1 = [inr 0; inr 0; inr 1].
Proof.
  cbn zeta. etransitivity; [apply (cache_refines_ttl_cell (fun z => [z + 1]) (fun s => match s with [c] => Some (c - 1) | _ => None end)
    (fun d => Z.of_nat (base.size (chat_rooms d))) (lit "k") (lit "k:lock") 10 (fun _ w => w))|vm_compute; reflexivity].
  - intros v. f_equal. lia.
  - done.
  - discriminate.
  - lia.
Defined.

(** ** Every Redis behaviour *)

Section FailOpen.
Context {T : Type} (dump_json : T -> ustr) (validate_json : ustr -> option T) (query : db -> T).
Context (key lock_key : ustr) (ttl : Z) (asleep : nat -> world -> world).

Lemma only_redis_w_db w w' : only_redis w w' -> w_db w' = w_db w.
Proof. by intros [r ->]. Qed.

(** The answer is the query's on the database at hand, or a decoded cache text. *)
Definition answered (w' : world) (v : T) : Prop := v = query (w_db w') \/ exists text, validate_json text = Some v.

Lemma read_cache_total w : exists r w1, read_cache validate_json key w = (inr r, w1) /\ only_redis w w1 /\
  forall v, r = Some (Some v) -> exists text, validate_json text = Some v.
Proof.
  unfold read_cache, try_except. unfold mbind, M_bind. pose proof (on_redis_only (redis_get key) w) as Ho.
  destruct (on_redis (redis_get key) w) as [[e|raw] w1]; cbn [snd] in Ho; eexists _, w1; (split; [reflexivity|]); (split; [done|]); [done|].
  intros v [= Hd]. unfold decode in Hd. destruct raw as [[|c t]|]; [done|by exists (c :: t)|done].
Qed.

Lemma wait_total k w : exists v w', wait_for_value validate_json k asleep key (load query) w = (inr v, w') /\ answered w' v.
Proof.
  revert w. induction k as [|k IH]; intros w; cbn [wait_for_value]; [eexists _, w; split; [reflexivity|by left]|].
  unfold mbind at 1, M_bind at 1. unfold modify. unfold mbind at 1, M_bind at 1.
  destruct (read_cache_total (asleep k w)) as (r & w1 & -> & _ & Hr). destruct r as [[v|]|].
  - eexists v, w1. split; [done|right]. by apply Hr.
  - apply IH.
  - eexists _, w1. split; [reflexivity|by left].
Qed.

Lemma get_or_compute_total present token w :
  exists v w', get_or_compute_json dump_json validate_json present key lock_key ttl token asleep (load query) w = (inr v, w') /\ answered w' v.
Proof.
  unfold get_or_compute_json. destruct present; cbn [negb]; [|eexists _, w; split; [reflexivity|by left]].
  unfold mbind at 1, M_bind at 1. destruct (read_cache_total w) as (r & w1 & -> & _ & Hr). destruct r as [[v|]|].
  - eexists v, w1. split; [done|right]. by apply Hr.
  - unfold mbind at 1, M_bind at 1. unfold try_except at 1. unfold mbind at 1, M_bind at 1.
    destruct (on_redis (try_acquire_lock lock_key LOCK_TTL_SECONDS token) w1) as [[e|[lv|]] w2]; cbn [mret M_ret].
    + eexists _, w2. split; [reflexivity|by left].
    + unfold try_finally. unfold mbind at 1, M_bind at 1. unfold load, gets. unfold mbind at 1, M_bind at 1. unfold try_except.
      unfold mbind at 1, M_bind at 1. set (v := query (w_db w2)).
      pose proof (on_redis_only (redis_set key (dump_json v) false (Some ttl)) w2) as Hs.
      assert (exists w3, match (on_redis (redis_set key (dump_json v) false (Some ttl)) w2) with (inr _, s') => (inr tt, s') | (inl e, s') => (inr tt, s') end =
        (inr tt, w3) :> (exn + unit) * world /\ only_redis w2 w3) as (w3 & E3 & H3).
      { destruct (on_redis _ w2) as [[e|b] w3]; by exists w3. }
      assert (forall w4, exists w5, on_redis (release_lock lock_key lv) w4 = (inr tt, w5) /\ only_redis w4 w5) as Hrel.
      { intros w4. pose proof (on_redis_only (release_lock lock_key lv) w4) as H5. unfold on_redis in *.
        pose proof (release_lock_total lock_key lv (w_redis w4)) as Ht. destruct (release_lock lock_key lv (w_redis w4)) as [x r5]. cbn in *. subst. by eexists. }
      destruct (on_redis (redis_set key (dump_json v) false (Some ttl)) w2) as [[e|b] w3']; cbn [mret M_ret snd] in *;
        (destruct (Hrel w3') as (w5 & -> & H5)); exists v, w5; (split; [done|left]);
        unfold v; by rewrite (only_redis_w_db _ _ H5), (only_redis_w_db _ _ Hs).
    + apply wait_total.
  - eexists _, w1. split; [reflexivity|by left].
Qed.

(** The cache fails open: whatever Redis does (absent, unreachable, losing
    requests or replies, flushed, holding a foreign lock or garbage) and whatever
    others do during the waits, a request is answered; the answer is what the
    query gives on the database then, or a cached text that the schema accepts.
    Without a Redis client it is the query's answer and nothing is touched. *)
Theorem cache_fails_open present token w :
  (exists v w', get_or_compute_json dump_json validate_json present key lock_key ttl token asleep (load query) w = (inr v, w') /\ answered w' v) /\
  get_or_compute_json dump_json validate_json false key lock_key ttl token asleep (load query) w = (inr (query (w_db w)), w).
Proof. split; [apply get_or_compute_total|done]. Qed.

(** ** One computation for many readers *)

(** The world after the sleeps with [j] down to [k] polls to go. *)
Fixpoint slept (n : nat) (k : nat) (w : world) : world :=
  match n with O => w | S n' => slept n' (k - 1) (asleep (k - 1) w) end.

(** What a poll finds in a reachable Redis. *)
Definition cached (w : world) : option T := decode validate_json (cached_text key w).

Lemma read_cache_quiet w : redis_up w -> (forall w0, cached_text key w = w0 -> live (r_now (w_redis w)) (r_data (w_redis w)) key = RStr <$> w0) ->
  read_cache validate_json key w = (inr (Some (cached w)), w).
Proof.
  intros Hq Hs. unfold read_cache, try_except, redis_get. unfold mbind, M_bind. rewrite on_redis_quiet by done. unfold c_get.
  rewrite (Hs _ eq_refl). unfold cached. destruct (cached_text key w); cbn [fmap option_fmap option_map fst snd]; by rewrite with_data_same.
Qed.

Definition readable (w : world) : Prop :=
  redis_up w /\ forall w0, cached_text key w = w0 -> live (r_now (w_redis w)) (r_data (w_redis w)) key = RStr <$> w0.

Lemma wait_finds loader k n w v : (1 <= n <= k)%nat -> (forall m, (m <= n)%nat -> readable (slept m k w)) ->
  (forall m, (1 <= m < n)%nat -> cached (slept m k w) = None) -> cached (slept n k w) = Some v ->
  wait_for_value validate_json k asleep key loader w = (inr v, slept n k w).
Proof.
  revert n w. induction k as [|k IH]; intros n w Hn Hg Hno Hv; [lia|]. destruct n as [|n]; [lia|].
  cbn [wait_for_value]. unfold mbind at 1, M_bind at 1. unfold modify. unfold mbind at 1, M_bind at 1.
  assert (slept 1 (S k) w = asleep k w) as H1 by (cbn; by rewrite Nat.sub_0_r).
  destruct (Hg 1%nat) as [Hq Hs]; [lia|]. rewrite H1 in Hq, Hs. rewrite (read_cache_quiet _ Hq Hs).
  assert (forall m, slept (S m) (S k) w = slept m k (asleep k w)) as Hsl by (intros m; cbn; by rewrite Nat.sub_0_r).
  rewrite Hsl in Hv |- *. destruct n as [|n].
  - cbn [slept] in *. by rewrite Hv.
  - specialize (Hno 1%nat ltac:(lia)) as Hno1. rewrite H1 in Hno1. rewrite Hno1. apply IH; [lia| | |done].
    + intros m Hm. rewrite <-Hsl. apply Hg. lia.
    + intros m Hm. rewrite <-Hsl. apply Hno. lia.
Qed.

Lemma wait_gives_up loader k w : (forall m, (m <= k)%nat -> readable (slept m k w)) ->
  (forall m, (1 <= m <= k)%nat -> cached (slept m k w) = None) ->
  wait_for_value validate_json k asleep key loader w = loader (slept k k w).
Proof.
  revert w. induction k as [|k IH]; intros w Hg Hno; [done|].
  cbn [wait_for_value]. unfold mbind at 1, M_bind at 1. unfold modify. unfold mbind at 1, M_bind at 1.
  assert (forall m, slept (S m) (S k) w = slept m k (asleep k w)) as Hsl by (intros m; cbn; by rewrite Nat.sub_0_r).
  destruct (Hg 1%nat) as [Hq Hs]; [lia|]. rewrite Hsl in Hq, Hs. cbn [slept] in Hq, Hs. rewrite (read_cache_quiet _ Hq Hs).
  pose proof (Hno 1%nat ltac:(lia)) as Hno1. rewrite Hsl in Hno1. cbn [slept] in Hno1. rewrite Hno1. rewrite IH; [by rewrite Hsl| |].
  - intros m Hm. rewrite <-Hsl. apply Hg. lia.
  - intros m Hm. rewrite <-Hsl. apply Hno. lia.
Qed.

(** Many readers, one computation: a reader that misses while another holds
    the lock returns the value the holder stores, as of the first of its twenty
    polls that finds it, without running the query at all; only when no value
    appears within the two seconds does it run the query itself. *)
Theorem cache_waiters_share loader token w :
  readable w -> cached w = None -> is_Some (live (r_now (w_redis w)) (r_data (w_redis w)) lock_key) ->
  (forall m, (m <= WAIT_POLLS)%nat -> readable (slept m WAIT_POLLS w)) ->
  (forall n v, (1 <= n <= WAIT_POLLS)%nat -> (forall m, (1 <= m < n)%nat -> cached (slept m WAIT_POLLS w) = None) ->
     cached (slept n WAIT_POLLS w) = Some v ->
     get_or_compute_json dump_json validate_json true key lock_key ttl token asleep loader w = (inr v, slept n WAIT_POLLS w)) /\
  ((forall m, (1 <= m <= WAIT_POLLS)%nat -> cached (slept m WAIT_POLLS w) = None) ->
     get_or_compute_json dump_json validate_json true key lock_key ttl token asleep loader w = loader (slept WAIT_POLLS WAIT_POLLS w)).
Proof.
  intros [Hq Hs] Hmiss Hlock Hg.
  assert (get_or_compute_json dump_json validate_json true key lock_key ttl token asleep loader w =
    wait_for_value validate_json WAIT_POLLS asleep key loader w) as ->.
  { unfold get_or_compute_json. cbn [negb]. unfold mbind at 1, M_bind at 1. rewrite (read_cache_quiet w Hq Hs), Hmiss.
    unfold mbind at 1, M_bind at 1. unfold try_except at 1. unfold mbind at 1, M_bind at 1. unfold try_acquire_lock. rewrite on_redis_bind.
    unfold mbind at 1, M_bind at 1. unfold redis_set. rewrite on_redis_quiet by done. unfold c_set. change (LOCK_TTL_SECONDS <=? 0) with false. cbn iota.
    rewrite bool_decide_eq_true_2 by done. cbn [andb fst snd]. rewrite with_data_same by done.
    unfold on_redis at 1. cbn [mret M_ret]. assert (w <| w_redis := w_redis w |> = w) as -> by (by destruct w). done. }
  split.
  - intros n v Hn Hno Hv. apply wait_finds; try done. intros m Hm. apply Hg. lia.
  - intros Hno. by apply wait_gives_up.
Qed.
End FailOpen.

(** A holder that stores the number 7 while the reader sleeps for the third time. *)
Definition demo_waiting : world :=
  redis_at empty_world {[lit "k:lock" := {| r_val := RStr (lit "other"); r_exp := Some 105 |}]} 100 [].
Definition demo_asleep (k : nat) (w : world) : world :=
  if (k =? 17)%nat then with_data (<[lit "k" := {| r_val := RStr [7]; r_exp := Some 400 |}]> (r_data (w_redis w))) w else w.

Lemma cache_waiters_share_witness :
  get_or_compute_json (fun z => [z]) head true (lit "k") (lit "k:lock") 300 (lit "t") demo_asleep (raise DatabaseError) demo_waiting =
    (inr 7, slept demo_asleep 3 WAIT_POLLS demo_waiting).
Proof.
  apply (cache_waiters_share (fun z => [z]) head (lit "k") (lit "k:lock") 300 demo_asleep (raise DatabaseError) (lit "t") demo_waiting).
  - split; [reflexivity|]. intros w0 <-. vm_compute. reflexivity.
  - vm_compute. reflexivity.
  - vm_compute. by eexists.
  - intros m Hm. unfold WAIT_POLLS in *. do 21 (destruct m as [|m]; [split; [vm_compute; reflexivity|intros w0 <-; vm_compute; reflexivity]|]). lia.
  - unfold WAIT_POLLS. lia.
  - intros m Hm. destruct m as [|[|[|m]]]; [lia|vm_compute; reflexivity..|lia].
  - vm_compute. reflexivity.
Defined.
