(* ===== verification/Trending.v ===== *)
(** * Trending posts and hashtags ([trending_post_service.py], [hashtag_service.py])

    The ranking queries, the three-tier pool of posts shared through the cache,
    the viewer's block filter laid over it, and the hashtag list with its
    all-time fallback.  Scores are exact rationals; the database's collation of
    names is a parameter. *)

From Stdlib Require Import QArith Qcanon.
From stdpp Require Import pretty.
From S2P Require Import Prelude Ids Common Redis Db World Media Search Posts Cache.
Open Scope Z_scope.

(** ** Ranking ([PostsRepository.get_trending_posts]) *)

Definition HOUR : Z := 3600.

Definition qc_ltb (x y : Qc) : bool := if Qclt_le_dec x y then true else false.
Definition qc_desc (x y : Qc) : bool := qc_ltb y x.
#[export] Instance qc_desc_strict : StrictTotal qc_desc.
Proof.
  unfold qc_desc, qc_ltb. split.
  - intros x. destruct (Qclt_le_dec x x) as [H|H]; [|done]. by apply Qclt_not_eq in H.
  - intros x y z. destruct (Qclt_le_dec y x), (Qclt_le_dec z y); try done. intros _ _.
    destruct (Qclt_le_dec z x) as [|H]; [done|]. exfalso. apply (Qclt_not_le z x); [|done]. by eapply Qclt_trans.
  - intros x y. destruct (Qclt_le_dec y x), (Qclt_le_dec x y); try done. intros _ _. by apply Qcle_antisym.
Qed.

(** (2 likes + 0.1 views + comments) / (age in hours + 2) *)
Definition trending_score (now : Z) (p : Post) : Qc :=
  Q2Qc ((inject_Z (20 * like_count p + view_count p + 10 * comment_count p) / 10) /
        (inject_Z (now - created_at p + 2 * HOUR) / inject_Z HOUR)).

Definition in_window (now : Z) (window_hours : option Z) (p : Post) : bool :=
  match window_hours with Some h => now - h * HOUR <=? created_at p | None => true end.

Definition trending_rows (now : Z) (window_hours category viewer : option Z) (d : db) : list (Z * Post) :=
  select_where (fun (_ : Z) p => post_visible viewer d p && in_window now window_hours p &&
    match category with Some c => bool_decide (category_id p = Some c) | None => true end) d.

Definition decay_key (now : Z) (r : Z * Post) : Qc * Z := (trending_score now r.2, r.1).
Definition like_key (r : Z * Post) : Z * (Z * Z) := (like_count r.2, (comment_count r.2, r.1)).

Definition get_trending_posts_rows (now : Z) (window_hours category viewer : option Z) (limit : Z) (use_time_decay : bool) (d : db) : list (Z * Post) :=
  let l := trending_rows now window_hours category viewer d in
  take (Z.to_nat limit)
    (if use_time_decay then order_by (decay_key now) (lex_ltb qc_desc zdesc) l
     else order_by like_key (lex_ltb zdesc (lex_ltb zdesc zdesc)) l).

(** ** The pool *)

Definition WINDOW_HOURS : Z := 24.
Definition MIN_POSTS_FOR_TIME_DECAY : Z := 3.
Definition FALLBACK_WINDOW_HOURS : Z := 24 * 7.
Definition POOL_SIZE : Z := 30.
Definition TRENDING_CACHE_TTL_SECONDS : Z := 300.

Record TrendingCacheItem := {
  tr_id : Z; tr_title : ustr; tr_category : option Z; tr_comments : Z; tr_likes : Z; tr_views : Z; tr_author : option Z;
}.
Definition cache_item (r : Z * Post) : TrendingCacheItem :=
  {| tr_id := r.1; tr_title := title r.2; tr_category := category_id r.2; tr_comments := comment_count r.2;
     tr_likes := like_count r.2; tr_views := view_count r.2; tr_author := user_id r.2 |}.

Definition compute_pool (now : Z) (category : option Z) (d : db) : list TrendingCacheItem :=
  let rows1 := get_trending_posts_rows now (Some WINDOW_HOURS) category None POOL_SIZE true d in
  let rows2 := if py_len rows1 <? MIN_POSTS_FOR_TIME_DECAY
               then get_trending_posts_rows now (Some FALLBACK_WINDOW_HOURS) category None POOL_SIZE false d else rows1 in
  let rows3 := if py_len rows2 =? 0 then get_trending_posts_rows now None category None POOL_SIZE false d else rows2 in
  cache_item <$> rows3.

(** [f"cache:trending_posts:{category_id if category_id else 'all'}"] *)
Definition trending_cache_key (category : option Z) : ustr :=
  lit "cache:trending_posts:" ++ match category with Some c => if c =? 0 then lit "all" else lit (pretty c) | None => lit "all" end.

Definition get_blocked_author_ids (blocker : Z) (d : db) : gset Z :=
  list_to_set (omap (fun p : (Z * Z) * Z => if decide (p.1.1 = blocker) then Some p.1.2 else None) (map_to_list (user_blocks d))).

Section Trending.
(** The adapter's JSON of a pool. *)
Context (dump_pool : list TrendingCacheItem -> ustr) (validate_pool : ustr -> option (list TrendingCacheItem)).

Definition get_trending_posts (present : bool) (now : Z) (token : ustr) (asleep : nat -> world -> world)
    (limit : Z) (category viewer : option Z) : M world (list TrendingCacheItem) :=
  let cache_key := trending_cache_key category in
  pool ← get_or_compute_json dump_pool validate_pool present cache_key (cache_key ++ lit ":lock") TRENDING_CACHE_TTL_SECONDS token asleep
           (load (compute_pool now category));
  w ← get;
  mret (py_take limit
    (match viewer, pool with
     | Some u, _ :: _ =>
         let blocked := get_blocked_author_ids u (w_db w) in
         List.filter (fun it => match tr_author it with Some a => negb (bool_decide (a ∈ blocked)) | None => true end) pool
     | _, _ => pool
     end)).
End Trending.

(** ** Hashtags *)

Definition MIN_HASHTAGS_FOR_WINDOW : Z := 3.
Definition TRENDING_HASHTAGS_TTL_SECONDS : Z := 600.
Definition ALL_TIME_TTL_SECONDS : Z := 3600.
Definition CACHE_TRENDING_HASHTAGS_KEY : ustr := lit "cache:trending_hashtags".
Definition ALL_TIME_CACHE_KEY : ustr := lit "cache:trending_hashtags:all_time".

(** The collation of the hashtag names. *)
Class Collation := { name_ltb : ustr -> ustr -> bool; name_ltb_strict : StrictTotal name_ltb }.
#[export] Existing Instance name_ltb_strict.

(** Uses of a hashtag by posts that are neither deleted nor blinded. *)
Definition hashtag_count (now : Z) (window_hours : option Z) (d : db) (h : Z) : Z :=
  py_len (List.filter (fun l : Z * Z => bool_decide (l.2 = h) &&
    match posts d !! l.1 with
    | Some p => bool_decide (deleted_at p = None) && negb (is_blinded p) && in_window now window_hours p
    | None => false
    end) (elements (post_hashtags d))).

(** The inner joins keep hashtags with at least one use. *)
Definition hashtag_rows (now : Z) (window_hours : option Z) (d : db) : list (ustr * Z) :=
  omap (fun p : Z * ustr => let n := hashtag_count now window_hours d p.1 in if 0 <? n then Some (p.2, n) else None) (map_to_list (hashtags d)).

Section Hashtags.
Context `{Collation}.
Context (dump_tags : list (ustr * Z) -> ustr) (validate_tags : ustr -> option (list (ustr * Z))).

Definition rank_key (r : ustr * Z) : Z * ustr := (r.2, r.1).
Definition get_trending_hashtags_rows (now : Z) (window_hours : option Z) (limit : Z) (d : db) : list (ustr * Z) :=
  take (Z.to_nat limit) (order_by rank_key (lex_ltb zdesc name_ltb) (hashtag_rows now window_hours d)).

Definition get_trending_hashtags (present : bool) (now : Z) (token token2 : ustr) (asleep : nat -> world -> world) (limit : Z)
  : M world (list (ustr * Z)) :=
  windowed ← get_or_compute_json dump_tags validate_tags present CACHE_TRENDING_HASHTAGS_KEY (CACHE_TRENDING_HASHTAGS_KEY ++ lit ":lock")
               TRENDING_HASHTAGS_TTL_SECONDS token asleep (load (get_trending_hashtags_rows now (Some WINDOW_HOURS) limit));
  if MIN_HASHTAGS_FOR_WINDOW <=? py_len windowed then mret windowed
  else get_or_compute_json dump_tags validate_tags present ALL_TIME_CACHE_KEY (ALL_TIME_CACHE_KEY ++ lit ":lock")
         ALL_TIME_TTL_SECONDS token2 asleep (load (get_trending_hashtags_rows now None limit)).
End Hashtags.

(** ** Properties *)

Definition in_category (category : option Z) (p : Post) : Prop := match category with Some c => category_id p = Some c | None => True end.

Lemma trending_rows_elem now window category viewer d i p :
  (i, p) ∈ trending_rows now window category viewer d <->
  posts d !! i = Some p /\ post_visible viewer d p = true /\ in_window now window p = true /\ in_category category p.
Proof.
  unfold trending_rows. rewrite select_where_elem. cbn [rows posts_table]. rewrite !andb_true_iff. unfold in_category.
  destruct category; [rewrite bool_decide_eq_true|]; tauto.
Qed.

Lemma trending_page_props now window category viewer limit decay d :
  let l := get_trending_posts_rows now window category viewer limit decay d in
  (forall i p, (i, p) ∈ l -> (i, p) ∈ trending_rows now window category viewer d) /\ NoDup l.*1 /\ py_len l <= Z.max 0 limit /\
  (0 < limit -> l = [] <-> trending_rows now window category viewer d = []).
Proof.
  unfold get_trending_posts_rows. set (rs := trending_rows now window category viewer d). cbn zeta.
  set (o := if decay then _ else _). assert (o ≡ₚ rs) as Hp by (unfold o; destruct decay; apply order_by_perm).
  assert (NoDup rs.*1) as Hnd by apply select_where_nodup. split_and!.
  - intros i p (k & Hk & _)%elem_of_take. apply list_elem_of_lookup_2 in Hk. by rewrite Hp in Hk.
  - eapply sublist_NoDup; [|apply fmap_sublist, sublist_take]. by rewrite Hp.
  - unfold py_len. rewrite length_take. lia.
  - intros Hl. split.
    + intros E. apply (f_equal length) in E. rewrite length_take in E. cbn in E. assert (length o = O) as Ho by lia.
      apply nil_length_inv in Ho. rewrite Ho in Hp. by apply Permutation_nil_l in Hp.
    + intros ->. apply Permutation_nil_r in Hp as ->. apply take_nil.
Qed.

Lemma py_len_nil {A : Type} (l : list A) : py_len l = 0 -> l = [].
Proof. destruct l; [done|]. unfold py_len. cbn. lia. Qed.

Lemma cache_item_ids (l : list (Z * Post)) : tr_id <$> (cache_item <$> l) = l.*1.
Proof. rewrite <-list_fmap_compose. by apply list_fmap_ext. Qed.

(** Which tier the pool comes from, and that it is not empty for nothing. *)
Lemma pool_tier now category d : exists window decay,
  let l := get_trending_posts_rows now window category None POOL_SIZE decay d in
  compute_pool now category d = cache_item <$> l /\ (l = [] -> window = None) /\
  (MIN_POSTS_FOR_TIME_DECAY <= py_len (trending_rows now (Some WINDOW_HOURS) category None d) -> window = Some WINDOW_HOURS /\ decay = true).
Proof.
  unfold compute_pool. set (l1 := get_trending_posts_rows now (Some WINDOW_HOURS) category None POOL_SIZE true d).
  assert (py_len l1 = Z.min POOL_SIZE (py_len (trending_rows now (Some WINDOW_HOURS) category None d))) as Hlen.
  { unfold l1, get_trending_posts_rows, py_len. rewrite length_take, (Permutation_length (order_by_perm _ _ _)). unfold POOL_SIZE. lia. }
  destruct (Z.ltb_spec (py_len l1) MIN_POSTS_FOR_TIME_DECAY) as [Hs|Hs].
  - set (l2 := get_trending_posts_rows now (Some FALLBACK_WINDOW_HOURS) category None POOL_SIZE false d).
    destruct (Z.eqb_spec (py_len l2) 0) as [E|E].
    + exists None, false. cbn zeta. split; [done|]. split; [done|]. unfold POOL_SIZE, MIN_POSTS_FOR_TIME_DECAY in *. lia.
    + exists (Some FALLBACK_WINDOW_HOURS), false. cbn zeta. split; [done|]. fold l2. split; [intros ->; done|].
      unfold POOL_SIZE, MIN_POSTS_FOR_TIME_DECAY in *. lia.
  - destruct (Z.eqb_spec (py_len l1) 0) as [E|E]; [unfold MIN_POSTS_FOR_TIME_DECAY in *; lia|].
    exists (Some WINDOW_HOURS), true. cbn zeta. split; [done|]. fold l1. split; [intros ->; done|done].
Qed.

(** The trending pool: at most thirty distinct posts, each live, not
    blinded and of the requested category, with its current title and counters;
    it is empty only if the category has no visible post at all; and as soon as
    three visible posts are younger than a day, exactly those are ranked, by
    (2 likes + 0.1 views + comments) / (age in hours + 2), ties by newest id. *)
Theorem trending_pool_correct now category d :
  let pool := compute_pool now category d in
  NoDup (tr_id <$> pool) /\ py_len pool <= POOL_SIZE /\
  (forall it, it ∈ pool -> exists p, posts d !! tr_id it = Some p /\ it = cache_item (tr_id it, p) /\ post_visible None d p = true /\ in_category category p) /\
  (pool = [] <-> forall i p, posts d !! i = Some p -> post_visible None d p = true -> ~ in_category category p) /\
  (MIN_POSTS_FOR_TIME_DECAY <= py_len (trending_rows now (Some WINDOW_HOURS) category None d) ->
     exists ranked, pool = cache_item <$> take (Z.to_nat POOL_SIZE) ranked /\ ranked ≡ₚ trending_rows now (Some WINDOW_HOURS) category None d /\
       StronglySorted (fun a b => lex_ltb qc_desc zdesc (decay_key now a) (decay_key now b) = true) ranked).
Proof.
  cbn zeta. destruct (pool_tier now category d) as (window & decay & Hpool & Hempty & Htier). cbn zeta in *. rewrite Hpool.
  destruct (trending_page_props now window category None POOL_SIZE decay d) as (Hin & Hnd & Hlen & Hnil). cbn zeta in *.
  set (l := get_trending_posts_rows now window category None POOL_SIZE decay d) in *. split_and!.
  - by rewrite cache_item_ids.
  - unfold py_len, POOL_SIZE in *. rewrite length_fmap. lia.
  - intros it ([i p] & -> & Hip)%list_elem_of_fmap. apply Hin, trending_rows_elem in Hip as (Hp & Hv & _ & Hc). by exists p.
  - split.
    + intros E%fmap_nil_inv. assert (trending_rows now window category None d = []) as Hrs by (by apply Hnil).
      rewrite (Hempty E) in Hrs. intros i p Hp Hv Hc. apply (not_elem_of_nil (i, p)). rewrite <-Hrs. by apply trending_rows_elem.
    + intros Hno. assert (l = []) as ->; [|done]. apply Hnil; [done|]. apply elem_of_nil_inv. intros [i p] (Hp & Hv & _ & Hc)%trending_rows_elem. by eapply Hno.
  - intros [-> ->]%Htier. eexists. split; [reflexivity|]. split; [apply order_by_perm|].
    apply (order_by_strict (decay_key now) (lex_ltb qc_desc zdesc)), (NoDup_fmap_1 snd). rewrite <-list_fmap_compose.
    refine (select_where_nodup _ d).
Qed.

Lemma blocked_author_elem blocker a d : a ∈ get_blocked_author_ids blocker d <-> has_block blocker a d = true.
Proof.
  unfold get_blocked_author_ids, has_block. rewrite elem_of_list_to_set, list_elem_of_omap, bool_decide_eq_true. split.
  - intros ([[b c] t] & Hin%elem_of_map_to_list & E). cbn in E. destruct (decide (b = blocker)) as [->|]; [|done]. injection E as ->. by eexists.
  - intros [t Ht]. exists ((blocker, a), t). split; [by apply elem_of_map_to_list|]. cbn. by rewrite decide_True.
Qed.

(** Trending for a viewer: whatever Redis does, the request is answered with
    at most [limit] posts, none by an author the viewer blocks at that moment,
    although the pool is shared by all viewers through the cache. *)
Theorem trending_hides_blocked dump_pool validate_pool present now token asleep limit category viewer w :
  0 <= limit ->
  exists l w', get_trending_posts dump_pool validate_pool present now token asleep limit category viewer w = (inr l, w') /\
    py_len l <= limit /\
    forall u it a, viewer = Some u -> it ∈ l -> tr_author it = Some a -> has_block u a (w_db w') = false.
Proof.
  intros Hl. unfold get_trending_posts. cbn zeta. unfold mbind at 1, M_bind at 1.
  destruct (get_or_compute_total dump_pool validate_pool (compute_pool now category) (trending_cache_key category)
    (trending_cache_key category ++ lit ":lock") TRENDING_CACHE_TTL_SECONDS asleep present token w) as (pool & w1 & -> & _).
  unfold mbind, M_bind, get. eexists _, w1. split; [reflexivity|]. rewrite py_take_nonneg by done. split.
  - unfold py_len. rewrite length_take. lia.
  - intros u it a -> Hin Ha. apply elem_of_take in Hin as (k & Hk & _). apply list_elem_of_lookup_2 in Hk.
    destruct pool as [|x pool]; [by apply not_elem_of_nil in Hk|]. apply list_elem_of_In, filter_In in Hk as [_ Hk]. rewrite Ha in Hk.
    apply negb_true_iff, bool_decide_eq_false in Hk. rewrite blocked_author_elem in Hk. by destruct (has_block u a (w_db w1)).
Qed.

(** ** Hashtags *)

(** The hashtag ranking counts, for each name, exactly the live unblinded
    posts of the window that carry it, lists every used name at most once, most
    used first and ties in name order, and is empty only if no such post carries
    any hashtag. *)
Theorem trending_hashtags_exact `{Collation} now window limit d :
  (forall h1 h2 n, hashtags d !! h1 = Some n -> hashtags d !! h2 = Some n -> h1 = h2) -> 1 <= limit ->
  let l := get_trending_hashtags_rows now window limit d in
  py_len l <= limit /\ NoDup l.*1 /\ StronglySorted (fun a b => lex_ltb zdesc name_ltb (rank_key a) (rank_key b) = true) l /\
  (forall name n, (name, n) ∈ l -> exists h, hashtags d !! h = Some name /\ n = hashtag_count now window d h /\ 0 < n) /\
  (l = [] <-> forall h name, hashtags d !! h = Some name -> hashtag_count now window d h <= 0).
Proof.
  intros Huq Hl. cbn zeta. unfold get_trending_hashtags_rows. set (rs := hashtag_rows now window d).
  assert (forall name n, (name, n) ∈ rs <-> exists h, hashtags d !! h = Some name /\ n = hashtag_count now window d h /\ 0 < n) as Hrs.
  { intros name n. unfold rs, hashtag_rows. rewrite list_elem_of_omap. split.
    - intros ([h nm] & Hin%elem_of_map_to_list & E). cbn in E. destruct (Z.ltb_spec 0 (hashtag_count now window d h)); [|done].
      injection E as -> <-. by exists h.
    - intros (h & Hh & -> & Hn). exists (h, name). split; [by apply elem_of_map_to_list|]. cbn. by rewrite (proj2 (Z.ltb_lt _ _) Hn). }
  assert (NoDup rs.*1) as Hnd.
  { unfold rs, hashtag_rows. pose proof (NoDup_map_to_list (hashtags d)) as Hm.
    assert (forall x, x ∈ map_to_list (hashtags d) -> hashtags d !! x.1 = Some x.2) as Hx by (intros [h n]; apply elem_of_map_to_list).
    induction (map_to_list (hashtags d)) as [|[h n] m IH]; [constructor|]. apply NoDup_cons in Hm as [Hh Hm]. cbn [omap list_omap fst snd].
    assert (NoDup (omap (fun p : Z * ustr => if 0 <? hashtag_count now window d p.1 then Some (p.2, hashtag_count now window d p.1) else None) m).*1) as IH'.
    { apply IH; [done|]. intros x Hin. apply Hx. set_solver. }
    destruct (0 <? _); [|exact IH']. rewrite fmap_cons. apply NoDup_cons. split; [|exact IH'].
    intros ([n' c] & E & ([h' n2] & Hin & E2)%list_elem_of_omap)%list_elem_of_fmap. cbn in E, E2. destruct (0 <? _); [|done]. injection E2 as -> _. subst n'.
    assert (h = h') as -> by (eapply (Huq h h' n); [by apply (Hx (h, n)); set_solver|by apply (Hx (h', n)); set_solver]). done. }
  set (o := order_by rank_key (lex_ltb zdesc name_ltb) rs). assert (o ≡ₚ rs) as Hp by apply order_by_perm.
  assert (StronglySorted (fun a b => lex_ltb zdesc name_ltb (rank_key a) (rank_key b) = true) o) as Hsort.
  { apply (order_by_strict rank_key (lex_ltb zdesc name_ltb)), (NoDup_fmap_1 snd). rewrite <-list_fmap_compose. refine Hnd. }
  split_and!.
  - unfold py_len. rewrite length_take. lia.
  - eapply sublist_NoDup; [|apply fmap_sublist, sublist_take]. by rewrite Hp.
  - clear -Hsort. generalize (Z.to_nat limit) as k. induction Hsort as [|x o Ho IH Hx]; intros [|k]; cbn; try constructor; [apply IH|].
    rewrite Forall_forall in *. intros y (j & Hj & _)%elem_of_take. apply Hx. by eapply list_elem_of_lookup_2.
  - intros name n (k & Hk & _)%elem_of_take. apply list_elem_of_lookup_2 in Hk. rewrite Hp in Hk. by apply Hrs.
  - split.
    + intros E h name Hh. destruct (Z.lt_ge_cases 0 (hashtag_count now window d h)) as [Hn|]; [|done]. exfalso.
      assert (o = []) as Ho. { destruct o as [|x o']; [done|]. destruct (Z.to_nat limit) eqn:El; [lia|]. done. }
      rewrite Ho in Hp. apply Permutation_nil_l in Hp. apply (not_elem_of_nil (name, hashtag_count now window d h)). rewrite Hp. apply Hrs. eauto.
    + intros Hno. assert (rs = []) as Hr. { apply elem_of_nil_inv. intros [name n] (h & Hh & -> & Hn)%Hrs. specialize (Hno h name Hh). lia. }
      rewrite Hr in Hp. apply Permutation_nil_r in Hp. fold o. rewrite Hp. apply take_nil.
Qed.

(** ** Witnesses *)

Definition trending_post (author likes at_ : Z) : Post :=
  {| user_id := Some author; title := lit "t"; content := []; category_id := Some 1; view_count := 0; like_count := likes; comment_count := 0;
     report_count := 0; is_blinded := false; created_at := at_; updated_at := at_; deleted_at := None; version := 1 |}.
Definition demo_trending : world := empty_world <| w_db := empty_db
  <| posts := list_to_map [(11, trending_post 7 1 0); (12, trending_post 8 5 0); (13, trending_post 7 3 0)] |> <| user_blocks := {[(9, 8) := 0]} |>
  <| hashtags := {[1 := lit "dog"]} |> <| post_hashtags := {[(11, 1)]} |> |>.

Lemma trending_hides_blocked_witness :
  exists l w', get_trending_posts (fun _ => []) (fun _ => None) false 100 (lit "t") (fun _ w => w) 10 None (Some 9) demo_trending = (inr l, w') /\
    tr_id <$> l = [13; 11] /\ forall it a, it ∈ l -> tr_author it = Some a -> has_block 9 a (w_db w') = false.
Proof.
  destruct (trending_hides_blocked (fun _ => []) (fun _ => None) false 100 (lit "t") (fun _ w => w) 10 None (Some 9) demo_trending) as (l & w' & E & _ & Hb); [lia|].
  exists l, w'. split; [exact E|]. split; [|intros it a; by apply Hb].
  apply (f_equal fst) in E. vm_compute in E. injection E as <-. reflexivity.
Defined.

Definition byte_collation : Collation := {| name_ltb := codepoints_ltb; name_ltb_strict := codepoints_strict |}.

Lemma trending_hashtags_exact_witness :
  @get_trending_hashtags_rows byte_collation 100 (Some 24) 10 (w_db demo_trending) = [(lit "dog", 1)] /\
  NoDup (@get_trending_hashtags_rows byte_collation 100 (Some 24) 10 (w_db demo_trending)).*1.
Proof.
  split; [vm_compute; reflexivity|].
  apply (@trending_hashtags_exact byte_collation 100 (Some 24) 10 (w_db demo_trending)); [|lia].
  intros h1 h2 n. cbn [demo_trending w_db hashtags over]. intros H1 H2. apply lookup_singleton_Some in H1 as [<- _], H2 as [<- _]. done.
Defined.
