(* ===== verification/Jobs.v ===== *)
(** * Periodic jobs ([core/cleanup.py], [main._cleanup_jobs])

    The runner that executes the maintenance jobs one after the other, each
    under its own distributed lock, and the jobs the application registers. *)

From S2P Require Import Prelude Ids Common Redis Db World Media Posts Notifications Users.

Definition DEFAULT_JOB_LOCK_TTL_SECONDS : Z := 600.
Definition job_lock_key (name : ustr) : ustr := lit "lock:job:" ++ name.

(** The body's count ([None] stands for an exhausted loop bound, which the
    components' theorems exclude). *)
Record PeriodicJob := { job_name : ustr; job_run : M world (option Z); lock_ttl_seconds : Z; lock_key : option ustr }.

(** [job.lock_key or job_lock_key(job.name)] *)
Definition key_of_job (j : PeriodicJob) : ustr :=
  match lock_key j with Some (c :: k) => c :: k | _ => job_lock_key (job_name j) end.

(** What the log says of a job. *)
Inductive job_outcome := JobSkipped | JobDone (count : option Z) | JobFailed (e : exn).

Definition run_job (present : bool) (token : ustr) (j : PeriodicJob) : M world job_outcome :=
  '(acquired, held) ← on_redis (try_acquire_job_lock present (key_of_job j) (lock_ttl_seconds j) token);
  if negb acquired then mret JobSkipped
  else
    try_finally
      (try_except (n ← job_run j; mret (JobDone n)) (fun e => mret (JobFailed e)))
      (match held with Some t => if present then on_redis (release_lock (key_of_job j) t) else mret tt | None => mret tt end).

(** Tokens are drawn per job. *)
Fixpoint run_jobs_once (present : bool) (jobs : list (PeriodicJob * ustr)) : M world (list job_outcome) :=
  match jobs with
  | [] => mret []
  | (j, token) :: rest => o ← run_job present token j; os ← run_jobs_once present rest; mret (o :: os)
  end.

(** [run_periodic]: a round, then the interval, until the stop event; [pass k]
    is what happens during the wait after round [k]. *)
Fixpoint run_periodic (present : bool) (rounds : list (list (PeriodicJob * ustr))) (pass : world -> world) : M world (list (list job_outcome)) :=
  match rounds with
  | [] => mret []
  | r :: rest => o ← run_jobs_once present r; modify pass ;; os ← run_periodic present rest pass; mret (o :: os)
  end.

(** ** The registered jobs *)

Section Registered.
Context (now signup_ttl grace batch_size : Z) (pick : list Z -> list Z).

Definition cleanup_jobs : list PeriodicJob := [
  {| job_name := lit "signup_image_cleanup";
     job_run := r ← cleanup_expired_signup_images now signup_ttl batch_size; mret (fst <$> r);
     lock_ttl_seconds := DEFAULT_JOB_LOCK_TTL_SECONDS; lock_key := None |};
  {| job_name := lit "orphan_post_image_cleanup"; job_run := sweep_unused_images now grace batch_size;
     lock_ttl_seconds := DEFAULT_JOB_LOCK_TTL_SECONDS; lock_key := Some JOB_LOCK_SWEEP_UNUSED |};
  {| job_name := lit "withdrawn_user_purge"; job_run := on_db (purge_withdrawn_users pick now 30);
     lock_ttl_seconds := 1800; lock_key := None |};
  {| job_name := lit "notification_purge"; job_run := on_db (purge_old_notifications pick now 30 2000);
     lock_ttl_seconds := 1800; lock_key := None |}
].
End Registered.

(** ** Specification: each job once, unless its lock is held *)

Definition outcome_of (r : exn + option Z) : job_outcome := match r with inr n => JobDone n | inl e => JobFailed e end.

Fixpoint jobs_spec (held : ustr -> bool) (jobs : list PeriodicJob) (v : world) : list job_outcome * world :=
  match jobs with
  | [] => ([], v)
  | j :: rest =>
      let '(o, v1) := if held (key_of_job j) then (JobSkipped, v) else let '(r, v1) := job_run j v in (outcome_of r, v1) in
      let '(os, v2) := jobs_spec held rest v1 in (o :: os, v2)
  end.

(** The same key space as far as any reader can tell. *)
Definition same_live (now : Z) (d d' : gmap ustr rentry) : Prop := forall k, live now d' k = live now d k.

Lemma run_job_at token j v d now l : redis_blind (job_run j) -> 0 < lock_ttl_seconds j ->
  exists d' l', run_job true token j (redis_at v d now l) =
    (let '(o, v1) := if bool_decide (is_Some (live now d (key_of_job j))) then (JobSkipped, v) else let '(r, v1) := job_run j v in (outcome_of r, v1) in
     (inr o, redis_at v1 d' now l')) /\ same_live now d d'.
Proof.
  intros Hb Ht. unfold run_job. unfold mbind at 1, M_bind at 1. unfold try_acquire_job_lock.
  assert (forall w, on_redis (try_except (o ← try_acquire_lock (key_of_job j) (lock_ttl_seconds j) token; mret (bool_decide (is_Some o), o)) (fun _ => mret (true, None))) w =
    match on_redis (try_acquire_lock (key_of_job j) (lock_ttl_seconds j) token) w with
    | (inr o, w') => (inr (bool_decide (is_Some o), o), w') | (inl e, w') => (inr (true, None), w') end) as Hacq.
  { intros w. unfold on_redis, try_except. unfold mbind, M_bind. by destruct (try_acquire_lock _ _ _ (w_redis w)) as [[e|o] r]. }
  rewrite Hacq. clear Hacq. destruct (live now d (key_of_job j)) as [x|] eqn:El.
  - rewrite acquire_held by (done || by rewrite El; eexists). rewrite (bool_decide_eq_true_2 (is_Some (Some x))) by (by eexists).
    rewrite bool_decide_eq_false_2 by (by intros []). cbn [negb]. exists d, l. done.
  - rewrite acquire_at by done. rewrite (bool_decide_eq_false_2 (is_Some None)) by (by intros []).
    rewrite bool_decide_eq_true_2 by (by eexists). cbn [negb]. set (d1 := <[_ := _]> d).
    unfold try_finally, try_except. unfold mbind, M_bind. rewrite (blind_with _ v d1 now l Hb).
    destruct (job_run j v) as [r v1]. cbn [fst snd].
    destruct (release_with (key_of_job j) token (now + lock_ttl_seconds j) v1 d1 now l) as (l' & Hrel); [apply lookup_insert_eq|lia|].
    exists (delete (key_of_job j) d1), l'. split.
    + destruct r as [e|n]; cbn [mret M_ret outcome_of]; by rewrite Hrel.
    + intros k. unfold d1. rewrite delete_insert_eq. unfold live in *. destruct (decide (k = key_of_job j)) as [->|Hne].
      * by rewrite lookup_delete_eq, El.
      * by rewrite lookup_delete_ne.
Qed.

(** ** The registered jobs never look at Redis *)

Lemma blind_gets {A : Type} (f : world -> A) : (forall w r, f (w <| w_redis := r |>) = f w) -> redis_blind (gets f).
Proof. intros Hf w r. unfold gets. by rewrite Hf. Qed.
Lemma blind_try_except {A : Type} (m : M world A) h :
  redis_blind m -> (forall e, redis_blind (h e)) -> redis_blind (try_except m h).
Proof.
  intros Hm Hh w r. unfold try_except. rewrite Hm. destruct (m w) as [[e|a] w']; cbn [fst snd]; [apply Hh|done].
Qed.
Lemma blind_s3_call {A : Type} (f : bucket -> (exn + A) * bucket) : redis_blind (s3_call f).
Proof.
  intros w r. unfold s3_call. cbn [w_s3_sched w_s3 over]. destruct (w_s3_sched w) as [|t ts]; cbn [s3_fault s3_uploads].
  - by destruct (f _).
  - destruct (s3_fault t); [by destruct (f _)|done|by destruct (f _)].
Qed.
#[export] Hint Resolve blind_gets blind_try_except blind_s3_call : blind.

Lemma blind_delete_objects `{UnicodeDB} rows : redis_blind (delete_objects rows).
Proof.
  induction rows as [|[i img] rows IH]; cbn [delete_objects]; [auto with blind|].
  apply blind_bind.
  - apply blind_try_except; [|auto with blind]. apply blind_bind; [|auto with blind].
    unfold storage_delete, with_key. destruct (s3_object_key _); auto with blind.
  - intros ok. apply blind_bind; [done|]. intros []. auto with blind.
Qed.

Lemma blind_cleanup `{UnicodeDB} pred batch_size : redis_blind (cleanup pred batch_size).
Proof.
  assert (forall last, redis_blind (cleanup_batch pred batch_size last)) as Hb.
  { intros last. apply blind_tx, blind_bind; [auto with blind|]. intros d. cbv zeta.
    destruct (cleanup_page _ _ _ _) as [|p rows]; [auto with blind|].
    apply blind_bind; [apply blind_delete_objects|]. intros [ids failed]. auto with blind. }
  assert (forall fuel last total failed, redis_blind (keyset_cleanup fuel pred batch_size last total failed)) as Hl.
  { intros fuel. induction fuel as [|fuel IH]; intros last0 total failed; cbn [keyset_cleanup]; [auto with blind|].
    apply blind_bind; [done|]. intros [[rows n] fl]. cbv zeta. destruct (last rows) as [[i img]|]; [|auto with blind].
    destruct (_ <? _); auto with blind. }
  intros w r. unfold cleanup. unfold mbind, M_bind, get. cbn [w_db over]. apply Hl.
Qed.

Lemma cleanup_jobs_blind `{UnicodeDB} now signup_ttl grace batch_size pick j :
  In j (cleanup_jobs now signup_ttl grace batch_size pick) -> redis_blind (job_run j) /\ 0 < lock_ttl_seconds j.
Proof.
  pose proof blind_cleanup as Hc. intros [<-|[<-|[<-|[<-|[]]]]]; (split; [cbn [job_run]|done]); [| |auto with blind|auto with blind].
  - apply blind_bind; [apply Hc|auto with blind].
  - apply blind_bind; [apply Hc|]. intros a. apply blind_bind; [apply Hc|auto with blind].
Qed.

(** ** Theorems *)

Definition held_at (now : Z) (d : gmap ustr rentry) (k : ustr) : bool := bool_decide (is_Some (live now d k)).

(** The release in the [finally] never raises, so neither does a job. *)
Lemma run_job_total present token j w : exists o, (run_job present token j w).1 = inr o.
Proof.
  unfold run_job. unfold mbind at 1, M_bind at 1.
  assert (exists a r, on_redis (try_acquire_job_lock present (key_of_job j) (lock_ttl_seconds j) token) w = (inr a, r)) as (a & w1 & ->).
  { unfold try_acquire_job_lock. destruct present; [|by do 2 eexists]. unfold on_redis, try_except. unfold mbind, M_bind.
    destruct (try_acquire_lock _ _ _ (w_redis w)) as [[e|o] r]; by do 2 eexists. }
  destruct a as [acquired held]. destruct acquired; cbn [negb]; [|by eexists].
  unfold try_finally, try_except. unfold mbind, M_bind. destruct (job_run j w1) as [[e|n] w2]; cbn [mret M_ret].
  all: destruct held as [t|]; [|by eexists]; destruct present; [|by eexists].
  all: unfold on_redis; pose proof (release_lock_total (key_of_job j) t (w_redis w2)) as Hr.
  all: destruct (release_lock _ _ _) as [[e'|[]] r]; [by cbn in Hr|by eexists].
Qed.
Lemma run_job_absent token j w : run_job false token j w = (let '(r, v1) := job_run j w in (inr (outcome_of r), v1)).
Proof.
  unfold run_job, try_acquire_job_lock. unfold mbind at 1, M_bind at 1. unfold on_redis. unfold mret at 1, M_ret at 1. cbn [negb].
  unfold try_finally, try_except. unfold mbind, M_bind. replace (w <| w_redis := w_redis w |>) with w by (by destruct w).
  by destruct (job_run j w) as [[e|n] w2].
Qed.

Lemma jobs_spec_ext held held' jobs : (forall k, held k = held' k) -> forall v, jobs_spec held jobs v = jobs_spec held' jobs v.
Proof.
  intros He. induction jobs as [|j jobs IH]; intros v; cbn [jobs_spec]; [done|]. rewrite He.
  destruct (if held' _ then _ else _) as [o v1]. by rewrite IH.
Qed.

Lemma run_jobs_once_at (jobs : list (PeriodicJob * ustr)) (v : world) (d : gmap ustr rentry) (now : Z) (l : list script) :
  Forall (fun p => redis_blind (job_run p.1) /\ 0 < lock_ttl_seconds p.1) jobs ->
  exists d' l',
    run_jobs_once true jobs (redis_at v d now l) =
      (let '(os, v') := jobs_spec (held_at now d) (fst <$> jobs) v in (inr os, redis_at v' d' now l')) /\
    same_live now d d'.
Proof.
  intros HF. revert v d l. induction HF as [|[j token] jobs [Hb Ht] _ IH]; intros v d l.
  - by exists d, l.
  - cbn [run_jobs_once fmap list_fmap fst jobs_spec]. unfold mbind, M_bind.
    destruct (run_job_at token j v d now l Hb Ht) as (d1 & l1 & -> & Hs1). unfold held_at at 1. cbn [fst].
    destruct (if bool_decide _ then _ else _) as [o v1].
    destruct (IH v1 d1 l1) as (d2 & l2 & -> & Hs2).
    rewrite (jobs_spec_ext (held_at now d1) (held_at now d)) by (intros k; unfold held_at; by rewrite Hs1).
    destruct (jobs_spec _ _ v1) as [os v2]. exists d2, l2. split; [done|]. intros k. by rewrite Hs2, Hs1.
Qed.

(** Whatever Redis does, a round reports every job and raises nothing. *)
Lemma run_jobs_once_total present (jobs : list (PeriodicJob * ustr)) w :
  exists os w', run_jobs_once present jobs w = (inr os, w') /\ length os = length jobs.
Proof.
  revert w. induction jobs as [|[j token] jobs IH]; intros w; [by exists [], w|]. cbn [run_jobs_once]. unfold mbind, M_bind.
  pose proof (run_job_total present token j w) as [o Ho]. destruct (run_job present token j w) as [r w1]. cbn [fst] in Ho. subst r.
  destruct (IH w1) as (os & w2 & -> & Hl). exists (o :: os), w2. split; [done|]. cbn [length]. by rewrite Hl.
Qed.

(** C24. A round of jobs that do not look at Redis themselves and have positive
    lock times, on a reachable Redis whose clock stands still for the round,
    does what the lock-free specification says: each job whose key nobody else
    holds runs exactly once and in order, whatever the other jobs did (a failing
    job is reported and stops nobody), each job whose key is held is skipped,
    and afterwards every key reads as before: the round's own locks are
    released, after a failure too.  On any other Redis (absent, failing, losing
    replies, moving on) and with any jobs, the round still raises nothing and
    reports each job. *)
Theorem periodic_round_refines_spec (jobs : list (PeriodicJob * ustr)) (v : world) (d : gmap ustr rentry) (now : Z) (l : list script) :
  Forall (fun p => redis_blind (job_run p.1) /\ 0 < lock_ttl_seconds p.1) jobs ->
  (exists d' l',
    run_jobs_once true jobs (redis_at v d now l) =
      (let '(os, v') := jobs_spec (held_at now d) (fst <$> jobs) v in (inr os, redis_at v' d' now l')) /\
    same_live now d d') /\
  forall present any_jobs w, exists os w', run_jobs_once present any_jobs w = (inr os, w') /\ length os = length any_jobs.
Proof. intros HF. split; [by apply run_jobs_once_at|apply run_jobs_once_total]. Qed.

(** So do the registered jobs, with any token for each. *)
Corollary registered_round `{UnicodeDB} now signup_ttl grace batch_size pick (tokens : list ustr) v d t l :
  exists d' l', let jobs := zip (cleanup_jobs now signup_ttl grace batch_size pick) tokens in
    run_jobs_once true jobs (redis_at v d t l) =
      (let '(os, v') := jobs_spec (held_at t d) (fst <$> jobs) v in (inr os, redis_at v' d' t l')) /\
    same_live t d d'.
Proof.
  cbv zeta. apply run_jobs_once_at, Forall_forall. intros [j k] Hin%elem_of_zip_l.
  by apply (cleanup_jobs_blind now signup_ttl grace batch_size pick), list_elem_of_In.
Qed.

(** Three jobs: the first fails half way, the second's key is held elsewhere,
    the third works. *)
Definition demo_jobs : list (PeriodicJob * ustr) :=
  [({| job_name := lit "a"; job_run := raise DatabaseError; lock_ttl_seconds := 600; lock_key := None |}, lit "t1");
   ({| job_name := lit "b"; job_run := mret (Some 1); lock_ttl_seconds := 600; lock_key := Some (lit "busy") |}, lit "t2");
   ({| job_name := lit "c"; job_run := mret (Some 3); lock_ttl_seconds := 600; lock_key := None |}, lit "t3")].
Definition demo_keys : gmap ustr rentry := {[ lit "busy" := {| r_val := RStr (lit "x"); r_exp := None |} ]}.

Lemma periodic_round_refines_spec_witness : exists d' l',
  run_jobs_once true demo_jobs (redis_at empty_world demo_keys 5 []) =
    (inr [JobFailed DatabaseError; JobSkipped; JobDone (Some 3)], redis_at empty_world d' 5 l') /\
  live 5 d' (lit "lock:job:a") = None.
Proof.
  destruct (periodic_round_refines_spec demo_jobs empty_world demo_keys 5 []) as [(d' & l' & E & Hs) _].
  - repeat constructor; auto with blind.
  - exists d', l'. split; [exact E|]. rewrite Hs. by vm_compute.
Defined.

(** Whatever Redis and the jobs do, a round attempts every job and raises
    nothing; without Redis it runs all of them, in order. *)
Theorem periodic_round_never_raises (present : bool) (jobs : list (PeriodicJob * ustr)) (w : world) :
  (exists os, (run_jobs_once present jobs w).1 = inr os /\ length os = length jobs) /\
  run_jobs_once false jobs w = (let '(os, v') := jobs_spec (fun _ => false) (fst <$> jobs) w in (inr os, v')).
Proof.
  split; [destruct (run_jobs_once_total present jobs w) as (os & w' & -> & Hl); by exists os|].
  revert w. induction jobs as [|[j token] jobs IH]; intros w; [done|]. cbn [run_jobs_once fmap list_fmap fst jobs_spec].
  unfold mbind, M_bind. rewrite run_job_absent. destruct (job_run j w) as [r w1]. fold (fmap (M := list) (fst (A := PeriodicJob) (B := ustr))).
  rewrite IH. by destruct (jobs_spec _ _ w1) as [os w2].
Qed.
