(* ===== verification/Delivery.v ===== *)
(** * Delivering a notification ([notifications/schema.py], [notifications/service.py], [worker/jobs])

    Once the row is committed, the event goes to the open streams of the
    recipient, to the other instances, and, when a topic is configured, to the
    job queue or to an inline task that publishes it to SNS.  The worker
    rebuilds the message from the row and retries with a growing delay.  The
    queue is a library: here it is the list of the jobs it holds. *)

From Stdlib Require Import QArith.
From S2P Require Import Prelude Ids Common Redis Db Notifications Json Realtime.
Local Open Scope Z_scope.

(** ** Payloads *)

Definition kind_value (k : NotificationKind) : ustr :=
  match k with
  | COMMENT_ON_POST => lit "COMMENT_ON_POST"
  | LIKE_POST => lit "LIKE_POST"
  | LIKE_COMMENT => lit "LIKE_COMMENT"
  end.

(** The Korean summaries, as code points; every kind has one. *)
Definition SNS_SUMMARY (k : NotificationKind) : ustr :=
  match k with
  | COMMENT_ON_POST =>
     [54924; 50896; 45784; 51032; 32; 44172; 49884; 44544; 50640; 32; 45843; 44544; 51060; 32; 45804;
     47160; 49845; 45768; 45796; 46]
  | LIKE_POST =>
     [54924; 50896; 45784; 51032; 32; 44172; 49884; 44544; 50640; 32; 51339; 50500; 50836; 44032; 32;
     45580; 47160; 49845; 45768; 45796; 46]
  | LIKE_COMMENT =>
     [54924; 50896; 45784; 51032; 32; 45843; 44544; 50640; 32; 51339; 50500; 50836; 44032; 32; 45580;
     47160; 49845; 45768; 45796; 46]
  end.

Definition optional_id (o : option Z) : json := match o with None => JNull | Some i => JStr (uuid_to_base62 i) end.

Definition realtime_fields (ev : NotificationEvent) : list (ustr * json) :=
  [(lit "notificationId", JStr (uuid_to_base62 (ev_notification_id ev)));
   (lit "kind", JStr (kind_value (ev_kind ev)));
   (lit "actorId", optional_id (ev_actor ev));
   (lit "postId", optional_id (ev_post ev));
   (lit "commentId", optional_id (ev_comment ev))].
Definition build_realtime_payload (ev : NotificationEvent) : json := JObj (realtime_fields ev).
Definition build_sns_payload (ev : NotificationEvent) : json :=
  JObj (realtime_fields ev ++
        [(lit "recipientUserId", JStr (uuid_to_base62 (ev_recipient ev))); (lit "message", JStr (SNS_SUMMARY (ev_kind ev)))]).

Definition sns_message (ev : NotificationEvent) : ustr := dumps (build_sns_payload ev).

(** ** The worker's job *)

Record sns_job := { jb_notification_id : ustr; jb_user_id : ustr; jb_idempotency_key : ustr }.
Record delivery_settings := { SNS_TOPIC_ARN : ustr; WORKER_IDEMPOTENCY_TTL_SECONDS : Z; ARQ_RETRY_BASE_SECONDS : Z }.

(** [NotificationDeliverySkip], by its reason. *)
Inductive skip := TopicNotConfigured | NotificationNotFound.
Inductive job_result := SnsDelivered (notification_id : Z) | SkippedIdempotent | Skipped (reason : skip).

Section Worker.
Context `{UnicodeDB} (cfg : delivery_settings).

Definition load_notification (nid uid : Z) (d : db) : skip + Notification :=
  match notifications d !! nid with
  | Some row => if decide (n_user_id row = uid) then inr row else inl NotificationNotFound
  | None => inl NotificationNotFound
  end.

(** The event the worker rebuilds. *)
Definition event_of_row (uid nid : Z) (row : Notification) : NotificationEvent :=
  {| ev_recipient := uid; ev_notification_id := nid; ev_kind := kind row; ev_actor := actor_id row;
     ev_post := n_post_id row; ev_comment := n_comment_id row |}.

Definition parse_id (s : ustr) : M dstate Z :=
  match parse_public_id_value (VStr s) with inr n => mret n | inl _ => raise PyValueError end.

(** A skip is a value, every other failure an exception; [None] is a database
    that cannot be reached. *)
Definition deliver_notification_sns_async (present : bool) (database : option db) (j : sns_job) : M dstate (skip + job_result) :=
  if decide (SNS_TOPIC_ARN cfg = []) then mret (inl TopicNotConfigured)
  else
    nid ← parse_id (jb_notification_id j);
    uid ← parse_id (jb_user_id j);
    match load_notification nid uid <$> database with
    | None => raise DatabaseError
    | Some (inl s) => mret (inl s)
    | Some (inr row) =>
        delivered ← deliver_once present (jb_idempotency_key j) (sns_message (event_of_row uid nid row)) (WORKER_IDEMPOTENCY_TTL_SECONDS cfg);
        mret (inr (if delivered : bool then SnsDelivered nid else SkippedIdempotent))
    end.

(** [jitter] is what [random.uniform(1.0, 1.5)] drew. *)
Definition retry_delay (job_try : Z) (jitter : Q) : Q := inject_Z (ARQ_RETRY_BASE_SECONDS cfg * 2 ^ (job_try - 1)) * jitter.

Inductive verdict := Finished (r : job_result) | Retry (defer : Q).

Definition deliver_notification_sns (present : bool) (database : option db) (j : sns_job) (job_try : Z) (jitter : Q) : dstate -> verdict * dstate := fun s =>
  match deliver_notification_sns_async present database j s with
  | (inr (inr r), s') => (Finished r, s')
  | (inr (inl reason), s') => (Finished (Skipped reason), s')
  | (inl _, s') => (Retry (retry_delay job_try jitter), s')
  end.

(** ** The request side *)

(** [_publish_sns_task]: failures are logged. *)
Definition publish_sns_task (present : bool) (ev : NotificationEvent) : M dstate unit :=
  try_except
    (deliver_once present (sns_idempotency_key (ev_notification_id ev)) (sns_message ev) (WORKER_IDEMPOTENCY_TTL_SECONDS cfg) ;; mret tt)
    (fun _ => mret tt).

(** The cluster, the jobs the queue holds and the inline tasks not yet run. *)
Record hub := { h_cluster : cluster; h_queue : list sns_job; h_tasks : list NotificationEvent }.

Definition job_of (ev : NotificationEvent) : sns_job :=
  {| jb_notification_id := uuid_to_base62 (ev_notification_id ev); jb_user_id := uuid_to_base62 (ev_recipient ev);
     jb_idempotency_key := sns_idempotency_key (ev_notification_id ev) |}.

Definition schedule_sns_publish (ev : NotificationEvent) (h : hub) : hub :=
  {| h_cluster := h_cluster h; h_queue := h_queue h; h_tasks := h_tasks h ++ [ev] |}.

(** [queue]: is there a queue handle, and what happens to the enqueue. *)
Definition dispatch_sns_publish (queue : option fault) (ev : NotificationEvent) (h : hub) : hub :=
  if decide (SNS_TOPIC_ARN cfg = []) then h
  else
    let queued := {| h_cluster := h_cluster h; h_queue := h_queue h ++ [job_of ev]; h_tasks := h_tasks h |} in
    match queue with
    | None => schedule_sns_publish ev h
    | Some NoFault => queued
    | Some LostRequest => schedule_sns_publish ev h
    | Some LostReply => schedule_sns_publish ev queued
    end.

(** The two halves of the [gather] touch different state. *)
Definition publish_after_commit (present : bool) (ft : fault) (queue : option fault) (i : ustr) (ev : NotificationEvent) (h : hub) : hub :=
  let payload_json := dumps (build_realtime_payload ev) in
  dispatch_sns_publish queue ev
    {| h_cluster := fanout_notification present ft i (ev_recipient ev) payload_json (h_cluster h);
       h_queue := h_queue h; h_tasks := h_tasks h |}.
End Worker.

(** ** Reading a message back

    What a subscriber of the topic does with it: a specification, not code of
    the program. *)

Definition kind_of_value (s : ustr) : option NotificationKind :=
  if decide (s = kind_value COMMENT_ON_POST) then Some COMMENT_ON_POST
  else if decide (s = kind_value LIKE_POST) then Some LIKE_POST
  else if decide (s = kind_value LIKE_COMMENT) then Some LIKE_COMMENT else None.

Section Subscriber.
Context `{UnicodeDB}.

Definition read_id (v : json) : option Z :=
  match v with JStr s => match parse_public_id_value (VStr s) with inr n => Some n | inl _ => None end | _ => None end.
Definition read_optional_id (v : json) : option (option Z) :=
  match v with JNull => Some None | _ => Some <$> read_id v end.

Definition read_event (raw : ustr) : option (NotificationEvent * ustr) :=
  match loads raw with
  | Some (JObj fields) =>
      nid ← dict_get (lit "notificationId") fields ≫= read_id;
      k ← dict_get (lit "kind") fields ≫= (fun v => match v with JStr s => kind_of_value s | _ => None end);
      actor ← dict_get (lit "actorId") fields ≫= read_optional_id;
      post ← dict_get (lit "postId") fields ≫= read_optional_id;
      comment ← dict_get (lit "commentId") fields ≫= read_optional_id;
      recipient ← dict_get (lit "recipientUserId") fields ≫= read_id;
      text ← dict_get (lit "message") fields ≫= (fun v => match v with JStr s => Some s | _ => None end);
      Some ({| ev_recipient := recipient; ev_notification_id := nid; ev_kind := k; ev_actor := actor;
               ev_post := post; ev_comment := comment |}, text)
  | _ => None
  end.

Definition event_ok (ev : NotificationEvent) : Prop :=
  uuid_ok (ev_recipient ev) /\ uuid_ok (ev_notification_id ev) /\
  (forall i, ev_actor ev = Some i \/ ev_post ev = Some i \/ ev_comment ev = Some i -> uuid_ok i).

Lemma read_id_base62 n : uuid_ok n -> read_id (JStr (uuid_to_base62 n)) = Some n.
Proof.
  intros Hn. unfold read_id, parse_public_id_value. destruct (uuid_to_base62_strip n Hn) as [-> Hb].
  rewrite decide_False by done. by rewrite base62_not_uuid, base62_codec.
Qed.
Lemma read_optional_id_base62 o : (forall i, o = Some i -> uuid_ok i) -> read_optional_id (optional_id o) = Some o.
Proof. destruct o as [i|]; intros Ho; [|done]. cbn [optional_id read_optional_id]. by rewrite read_id_base62 by auto. Qed.
Lemma kind_value_codec k : kind_of_value (kind_value k) = Some k.
Proof. by destruct k. Qed.

Lemma base62_text n : 0 <= n -> is_text (uuid_to_base62 n) = true.
Proof.
  intros Hn. apply forallb_forall. intros c Hc%list_elem_of_In.
  pose proof (proj1 (Forall_forall _ _) (uuid_to_base62_chars n Hn) c Hc) as Hb. cbn in Hb.
  assert (Forall (fun c => (0 <=? c) = true) BASE62) as HB by (vm_compute; repeat constructor).
  exact (proj1 (Forall_forall _ _) HB c Hb).
Qed.
Lemma optional_id_plain o : (forall i, o = Some i -> uuid_ok i) -> plain (optional_id o) = true.
Proof. destruct o as [i|]; intros Ho; [|done]. apply base62_text. by destruct (Ho i eq_refl). Qed.

Lemma sns_payload_plain ev : event_ok ev -> plain (build_sns_payload ev) = true.
Proof.
  intros (Hr & Hn & Ho). unfold build_sns_payload, realtime_fields. cbn [app plain forallb fst snd].
  rewrite !optional_id_plain by eauto 6. rewrite !base62_text by (by destruct Hr, Hn).
  destruct (ev_kind ev); by vm_compute.
Qed.

(** A published message carries the whole event: reading the JSON of the
    topic's message back and parsing its public ids gives exactly the event it
    was built from and its summary, for every kind and any absent fields. *)
Theorem sns_message_roundtrip ev : event_ok ev -> read_event (sns_message ev) = Some (ev, SNS_SUMMARY (ev_kind ev)).
Proof.
  intros Hev. unfold read_event, sns_message. rewrite loads_dumps by (by apply sns_payload_plain).
  destruct Hev as (Hr & Hn & Ho). unfold build_sns_payload. cbn [realtime_fields app].
  set (fields := _ :: _).
  assert (dict_get (lit "notificationId") fields = Some (JStr (uuid_to_base62 (ev_notification_id ev)))) as -> by reflexivity.
  assert (dict_get (lit "kind") fields = Some (JStr (kind_value (ev_kind ev)))) as -> by reflexivity.
  assert (dict_get (lit "actorId") fields = Some (optional_id (ev_actor ev))) as -> by reflexivity.
  assert (dict_get (lit "postId") fields = Some (optional_id (ev_post ev))) as -> by reflexivity.
  assert (dict_get (lit "commentId") fields = Some (optional_id (ev_comment ev))) as -> by reflexivity.
  assert (dict_get (lit "recipientUserId") fields = Some (JStr (uuid_to_base62 (ev_recipient ev)))) as -> by reflexivity.
  assert (dict_get (lit "message") fields = Some (JStr (SNS_SUMMARY (ev_kind ev)))) as -> by reflexivity. clear fields.
  unfold mbind, option_bind. rewrite !read_optional_id_base62, !read_id_base62, kind_value_codec by eauto 6. by destruct ev.
Qed.
End Subscriber.

(** ** Lemmas: one delivery against a reachable Redis *)

Definition ds_at (d : gmap ustr rentry) (now : Z) (l : list script) (published : list ustr) (faults : list fault) : dstate :=
  {| ds_redis := {| r_data := d; r_now := now; r_loaded := l; r_sched := [] |}; ds_published := published; ds_sns := faults |}.

Lemma d_redis_at {A : Type} (c : cmd A) d now l pub fs :
  d_redis (command c) (ds_at d now l pub fs) = ((c now d).1, ds_at (c now d).2 now l pub fs).
Proof. unfold d_redis, command, ds_at. cbn. rewrite Z.add_0_r. by destruct (c now d). Qed.

Definition delivered_entry (t : Z) : rentry := {| r_val := RStr (lit "1"); r_exp := Some t |}.

(** Not marked: what the topic does decides. *)
Lemma deliver_once_unmarked k msg ttl d now l pub fs : live now d (DELIVERED_KEY_PREFIX ++ k) = None -> 0 < ttl ->
  deliver_once true k msg ttl (ds_at d now l pub fs) =
    match fs with
    | [] => (inr true, ds_at (<[DELIVERED_KEY_PREFIX ++ k := delivered_entry (now + ttl)]> d) now l (msg :: pub) [])
    | NoFault :: fs => (inr true, ds_at (<[DELIVERED_KEY_PREFIX ++ k := delivered_entry (now + ttl)]> d) now l (msg :: pub) fs)
    | LostRequest :: fs => (inl StorageError, ds_at d now l pub fs)
    | LostReply :: fs => (inl StorageError, ds_at d now l (msg :: pub) fs)
    end.
Proof.
  intros Hl Ht. unfold deliver_once, try_except, redis_get, redis_set. unfold mbind, M_bind. rewrite d_redis_at.
  unfold c_get. rewrite Hl. cbn [fst snd mret M_ret]. unfold publish_sns. cbn [ds_at ds_sns].
  assert (forall pub fs', d_redis (command (c_set (DELIVERED_KEY_PREFIX ++ k) (lit "1") false (Some ttl))) (ds_at d now l pub fs') =
     (inr true, ds_at (<[DELIVERED_KEY_PREFIX ++ k := delivered_entry (now + ttl)]> d) now l pub fs')) as Hset.
  { intros pub' fs'. rewrite d_redis_at. unfold c_set. destruct (Z.leb_spec ttl 0); [lia|]. done. }
  assert (forall fs', ds_at d now l pub fs <| ds_sns := fs' |> = ds_at d now l pub fs') as Hst by done.
  assert (forall fs', ds_at d now l pub fs' <| ds_published := msg :: ds_published (ds_at d now l pub fs') |> = ds_at d now l (msg :: pub) fs') as Hpub by done.
  destruct fs as [|[] fs]; rewrite Hst, ?Hpub, ?Hset; done.
Qed.

Lemma deliver_once_marked k msg ttl d now l pub fs : live now d (DELIVERED_KEY_PREFIX ++ k) = Some (RStr (lit "1")) ->
  deliver_once true k msg ttl (ds_at d now l pub fs) = (inr false, ds_at d now l pub fs).
Proof.
  intros Hl. unfold deliver_once, try_except, redis_get. unfold mbind, M_bind. rewrite d_redis_at. unfold c_get. by rewrite Hl.
Qed.

(** On any connection: a read leaves the key space alone and finds no absent key. *)
Lemma redis_get_effect k r res r' : redis_get k r = (res, r') ->
  r_data r' = r_data r /\ (r_data r !! k = None -> res = inr None \/ exists e, res = inl e).
Proof.
  unfold redis_get, command. destruct (next_tick r) as [t ts]. unfold c_get.
  destruct (t_fault t), (live (r_now r + t_delay t) (r_data r) k) as [[v|v|v]|] eqn:El; intros [= <- <-]; (split; [done|]); intros Hk;
    try (by right; eexists); try (by left); unfold live in El; by rewrite Hk in El.
Qed.

(** One delivery whatever Redis does: at most one copy; with nothing stored
    under the key, the topic alone decides. *)
Lemma deliver_once_any k msg ttl s :
  exists n, (n <= 1)%nat /\ ds_published (deliver_once true k msg ttl s).2 = replicate n msg ++ ds_published s.
Proof.
  unfold deliver_once, try_except, d_redis. unfold mbind, M_bind.
  destruct (redis_get (DELIVERED_KEY_PREFIX ++ k) (ds_redis s)) as [[e|[[|c v]|]] r'].
  3: by (exists 0%nat; split; [lia|]).
  all: unfold publish_sns; cbn; destruct (ds_sns s) as [|[] fs]; cbn;
    try (destruct (redis_set _ _ _ _ _) as [[?|?] y]; cbn); (exists 1%nat; by split; [lia|]) || (exists 0%nat; by split; [lia|]).
Qed.

Lemma deliver_once_unseen k msg ttl s : r_data (ds_redis s) !! (DELIVERED_KEY_PREFIX ++ k) = None ->
  let s' := (deliver_once true k msg ttl s).2 in
  match ds_sns s with
  | [] | NoFault :: _ => ds_published s' = msg :: ds_published s
  | f :: fs => ds_sns s' = fs /\ r_data (ds_redis s') !! (DELIVERED_KEY_PREFIX ++ k) = None /\
               ds_published s' = replicate (match f with LostReply => 1 | _ => 0 end) msg ++ ds_published s
  end.
Proof.
  intros Hk. unfold deliver_once, try_except, d_redis. unfold mbind, M_bind.
  destruct (redis_get (DELIVERED_KEY_PREFIX ++ k) (ds_redis s)) as [res r'] eqn:E. apply redis_get_effect in E as [Hd Hres].
  destruct (Hres Hk) as [-> |[e ->]]; cbn; unfold publish_sns; cbn; destruct (ds_sns s) as [|[] fs]; cbn; rewrite ?Hd; try done;
    by destruct (redis_set _ _ _ _ _) as [[?|?] y].
Qed.

Lemma live_entry k t d now : now < t -> live now (<[k := delivered_entry t]> d) k = Some (RStr (lit "1")).
Proof. intros Ht. unfold live. rewrite lookup_insert_eq. unfold expired. cbn [r_exp delivered_entry]. by rewrite (proj2 (Z.leb_gt _ _) Ht). Qed.

(** ** Both paths deliver the same message *)

Section Attempts.
Context `{UnicodeDB} (cfg : delivery_settings) (d : db) (ev : NotificationEvent).

(** The row [record] wrote for the event, whatever was marked read since. *)
Definition has_row : Prop := exists row, notifications d !! ev_notification_id ev = Some row /\
  event_of_row (n_user_id row) (ev_notification_id ev) row = ev.

Lemma worker_delivers_event present j : SNS_TOPIC_ARN cfg <> [] -> event_ok ev -> has_row -> j = job_of ev ->
  forall s, deliver_notification_sns_async cfg present (Some d) j s =
    (delivered ← deliver_once present (sns_idempotency_key (ev_notification_id ev)) (sns_message ev) (WORKER_IDEMPOTENCY_TTL_SECONDS cfg);
     mret (inr (if delivered : bool then SnsDelivered (ev_notification_id ev) else SkippedIdempotent))) s.
Proof.
  intros Ht (Hr & Hn & _) (row & Hrow & Hev) -> s. unfold deliver_notification_sns_async. rewrite decide_False by done.
  assert (forall n, uuid_ok n -> parse_id (uuid_to_base62 n) = mret n) as Hp.
  { intros n Hok. pose proof (read_id_base62 n Hok) as E. unfold read_id in E. unfold parse_id.
    destruct (parse_public_id_value _); by simplify_eq. }
  cbn [job_of jb_notification_id jb_user_id jb_idempotency_key]. rewrite !Hp by done. unfold mbind at 1 2, M_bind at 1 2.
  unfold mret at 1 2, M_ret at 1 2. cbn [fmap option_fmap option_map]. unfold load_notification. rewrite Hrow.
  assert (n_user_id row = ev_recipient ev) as Hu by (by rewrite <-Hev). rewrite decide_True by done.
  by rewrite <-Hu, Hev.
Qed.
End Attempts.

(** [record] writes such a row, and marking notifications read keeps it. *)
Lemma record_has_row now nid recipient k actor post comment d0 ev d :
  record now nid recipient k actor post comment d0 = (inr ev, d) -> has_row d ev.
Proof.
  unfold record, insert_notification, insert_row. unfold mbind, M_bind. cbn [rows notifications_table].
  destruct (notifications d0 !! nid) eqn:E; [done|]. destruct (_ && _); [|done]. cbn [mret M_ret]. intros [= <- <-].
  eexists. cbn [ev_notification_id]. split; [apply lookup_insert_eq|done].
Qed.
Lemma mark_read_has_row now user ids d ev : has_row d ev -> has_row (mark_read now user ids d).2 ev.
Proof.
  intros (row & Hrow & <-). unfold mark_read, has_row. cbn [snd]. unfold update_where.
  cbn [rows set_rows notifications_table notifications over ev_notification_id event_of_row] in *. rewrite map_lookup_imap, Hrow.
  cbn [mbind option_bind]. eexists. split; [reflexivity|]. by destruct (unread_of _ _ _ _).
Qed.

(** ** Specification: what the topic sees of a series of attempts

    [faults] is what the topic does to each publish; past its end it works. *)

Fixpoint succeeds (attempts : nat) (faults : list fault) : bool :=
  match attempts, faults with
  | O, _ => false
  | S _, [] | S _, NoFault :: _ => true
  | S n, _ :: fs => succeeds n fs
  end.

(** Copies published: one for the attempt that succeeds, one for each earlier
    attempt whose answer was lost. *)
Fixpoint copies (attempts : nat) (faults : list fault) : nat :=
  match attempts, faults with
  | O, _ => 0
  | S _, [] | S _, NoFault :: _ => 1
  | S n, LostRequest :: fs => copies n fs
  | S n, LostReply :: fs => S (copies n fs)
  end.

Lemma replicate_snoc {A : Type} n (x : A) l : replicate n x ++ x :: l = replicate (S n) x ++ l.
Proof. induction n as [|n IH]; [done|]. cbn [replicate app]. f_equal. exact IH. Qed.

Inductive path := Inline | ByWorker (job_try : Z) (jitter : Q).

Section Once.
Context `{UnicodeDB} (cfg : delivery_settings) (d : db) (ev : NotificationEvent).
Context (Htopic : SNS_TOPIC_ARN cfg <> []) (Hev : event_ok ev) (Hrow : has_row d ev) (Httl : 0 < WORKER_IDEMPOTENCY_TTL_SECONDS cfg).

Definition delivery_attempt (s : dstate) (p : path) : dstate :=
  match p with
  | Inline => (publish_sns_task cfg true ev s).2
  | ByWorker job_try jitter => (deliver_notification_sns cfg true (Some d) (job_of ev) job_try jitter s).2
  end.

Definition delivered_key : ustr := DELIVERED_KEY_PREFIX ++ sns_idempotency_key (ev_notification_id ev).

(** Both paths leave the state [deliver_once] leaves. *)
Lemma delivery_attempt_once s p :
  delivery_attempt s p = (deliver_once true (sns_idempotency_key (ev_notification_id ev)) (sns_message ev) (WORKER_IDEMPOTENCY_TTL_SECONDS cfg) s).2.
Proof using Htopic Hev Hrow.
  destruct p as [|job_try jitter]; cbn [delivery_attempt].
  - unfold publish_sns_task, try_except. unfold mbind, M_bind. by destruct (deliver_once _ _ _ _ s) as [[e|b] s'].
  - unfold deliver_notification_sns. rewrite (worker_delivers_event cfg d ev) by done. unfold mbind, M_bind.
    by destruct (deliver_once _ _ _ _ s) as [[e|b] s'].
Qed.

Lemma attempts_marked ps keys now l pub fs : live now keys delivered_key = Some (RStr (lit "1")) ->
  fold_left delivery_attempt ps (ds_at keys now l pub fs) = ds_at keys now l pub fs.
Proof using Htopic Hev Hrow.
  intros Hl. induction ps as [|p ps IH]; [done|]. cbn [fold_left]. rewrite delivery_attempt_once, deliver_once_marked by done. apply IH.
Qed.

Lemma attempts_exact ps keys now l pub fs : live now keys delivered_key = None ->
  let s' := fold_left delivery_attempt ps (ds_at keys now l pub fs) in
  ds_published s' = replicate (copies (length ps) fs) (sns_message ev) ++ pub /\
  live now (r_data (ds_redis s')) delivered_key = (if succeeds (length ps) fs then Some (RStr (lit "1")) else None).
Proof using Htopic Hev Hrow Httl.
  intros Hl. revert pub fs. induction ps as [|p ps IH]; intros pub fs; [done|]. cbn [fold_left length].
  rewrite delivery_attempt_once, deliver_once_unmarked by done.
  destruct fs as [|[] fs]; cbn [snd copies succeeds].
  1, 2: rewrite attempts_marked by (apply live_entry; lia); split; [done|]; apply live_entry; lia.
  - apply IH.
  - destruct (IH (sns_message ev :: pub) fs) as [-> ->]. split; [|done]. apply replicate_snoc.
Qed.

(** Whatever Redis does, no copy is lost once the topic works, and none is made
    without an attempt. *)
Lemma attempts_any ps s :
  exists n, (n <= length ps)%nat /\ ds_published (fold_left delivery_attempt ps s) = replicate n (sns_message ev) ++ ds_published s.
Proof using Htopic Hev Hrow.
  revert s. induction ps as [|p ps IH]; intros s; [by exists 0%nat|]. cbn [fold_left length]. rewrite delivery_attempt_once.
  destruct (deliver_once_any (sns_idempotency_key (ev_notification_id ev)) (sns_message ev) (WORKER_IDEMPOTENCY_TTL_SECONDS cfg) s) as (m & Hm & E).
  destruct (IH (deliver_once true (sns_idempotency_key (ev_notification_id ev)) (sns_message ev) (WORKER_IDEMPOTENCY_TTL_SECONDS cfg) s).2) as (n & Hn & ->).
  exists (n + m)%nat. split; [lia|]. by rewrite E, replicate_add, <-app_assoc.
Qed.

Lemma attempts_at_least_once ps s : r_data (ds_redis s) !! delivered_key = None -> succeeds (length ps) (ds_sns s) = true ->
  exists n, (1 <= n <= length ps)%nat /\ ds_published (fold_left delivery_attempt ps s) = replicate n (sns_message ev) ++ ds_published s.
Proof using Htopic Hev Hrow.
  revert s. induction ps as [|p ps IH]; intros s Hk Hs; [done|]. cbn [fold_left length succeeds] in *. rewrite delivery_attempt_once.
  pose proof (deliver_once_unseen (sns_idempotency_key (ev_notification_id ev)) (sns_message ev) (WORKER_IDEMPOTENCY_TTL_SECONDS cfg) s Hk) as H1.
  cbv zeta in H1. set (s1 := (deliver_once _ _ _ _ s).2) in *. destruct (attempts_any ps s1) as (n & Hn & E).
  destruct (ds_sns s) as [|[] fs].
  1, 2: exists (S n); split; [lia|]; by rewrite E, H1, replicate_snoc.
  all: destruct H1 as (Hf & Hk1 & Hp); destruct (IH s1 Hk1) as (m & Hm & Em); [by rewrite Hf|]; rewrite Em, Hp.
  - exists m. split; [lia|done].
  - exists (S m). split; [lia|]. cbn [replicate app]. by rewrite replicate_snoc.
Qed.
End Once.

(** ** Theorems *)

Section Theorems.
Context `{UnicodeDB} (cfg : delivery_settings).

(** The worker's tries of one job: a jitter per try, at most as many as the
    queue allows. *)
Fixpoint worker_runs (d : db) (ev : NotificationEvent) (job_try : Z) (jitters : list Q) (s : dstate) : list Q * option job_result * dstate :=
  match jitters with
  | [] => ([], None, s)
  | u :: us =>
      match deliver_notification_sns cfg true (Some d) (job_of ev) job_try u s with
      | (Finished r, s') => ([], Some r, s')
      | (Retry q, s') => let '(qs, r, s'') := worker_runs d ev (job_try + 1) us s' in (q :: qs, r, s'')
      end
  end.

(** Who is in charge of a notification's offline copy: with a topic
    configured, announcing an event always leaves a job in the queue or an
    inline task, and both only when the answer to the enqueue was lost; without
    a topic, neither.  The local streams of the recipient get the event in
    every case. *)
Theorem announcement_always_assigned present ft queue i ev h n :
  c_nodes (h_cluster h) !! i = Some n ->
  let h' := publish_after_commit cfg present ft queue i ev h in
  (n_sse <$> c_nodes (h_cluster h') !! i) = Some (deliver (ev_recipient ev) (dumps (build_realtime_payload ev)) (n_sse n)) /\
  (h_queue h', h_tasks h') =
    if decide (SNS_TOPIC_ARN cfg = []) then (h_queue h, h_tasks h)
    else (h_queue h ++ match queue with Some NoFault | Some LostReply => [job_of ev] | _ => [] end,
          h_tasks h ++ match queue with Some NoFault => [] | _ => [ev] end).
Proof.
  intros Hn. unfold publish_after_commit, dispatch_sns_publish, fanout_notification. rewrite Hn. cbn zeta.
  split.
  - destruct (decide _); [|destruct queue as [[]|]]; cbn [h_cluster schedule_sns_publish c_nodes over]; by rewrite lookup_insert_eq.
  - destruct (decide _); [done|]. by destruct queue as [[]|]; cbn [h_queue h_tasks schedule_sns_publish]; rewrite ?app_nil_r.
Qed.

(** C23. However often the offline copy of a recorded notification is attempted,
    one attempt after the other, and through which path (the queued job with its
    retries, the inline task, or both after a lost enqueue answer): on a
    reachable Redis without a mark yet whose clock stands still, so that the mark lives, the topic
    receives the same message from both, exactly once plus one
    copy for each attempt before the first success whose answer was lost; the
    mark is set exactly when an attempt succeeded.  Whatever Redis does instead
    (unreachable, slow, forgetting the mark), each attempt adds at most one copy,
    and if nothing was marked before and the topic takes the message within the
    attempts, it gets it at least once. *)
Theorem sns_attempts_converge now nid recipient k actor post comment d0 ev d read_at_ reader ids ps keys l pub fs :
  record now nid recipient k actor post comment d0 = (inr ev, d) -> event_ok ev ->
  SNS_TOPIC_ARN cfg <> [] -> 0 < WORKER_IDEMPOTENCY_TTL_SECONDS cfg -> live now keys (delivered_key ev) = None ->
  let d' := (mark_read read_at_ reader ids d).2 in
  let s' := fold_left (delivery_attempt cfg d' ev) ps (ds_at keys now l pub fs) in
  ds_published s' = replicate (copies (length ps) fs) (sns_message ev) ++ pub /\
  live now (r_data (ds_redis s')) (delivered_key ev) = (if succeeds (length ps) fs then Some (RStr (lit "1")) else None) /\
  forall s, exists n, (n <= length ps)%nat /\
    ds_published (fold_left (delivery_attempt cfg d' ev) ps s) = replicate n (sns_message ev) ++ ds_published s /\
    (r_data (ds_redis s) !! delivered_key ev = None -> succeeds (length ps) (ds_sns s) = true -> (1 <= n)%nat).
Proof.
  intros Hrec Hev Ht Httl Hl d' s'. assert (has_row d' ev) as Hrow by (apply mark_read_has_row; by eapply record_has_row).
  destruct (attempts_exact cfg d' ev Ht Hev Hrow Httl ps keys now l pub fs Hl) as [Hp Hm]. split; [exact Hp|]. split; [exact Hm|].
  intros s. destruct (attempts_any cfg d' ev Ht Hev Hrow ps s) as (n & Hn & E). exists n. split; [done|]. split; [exact E|].
  intros Hk Hs. destruct (attempts_at_least_once cfg d' ev Ht Hev Hrow ps s Hk Hs) as (m & [Hm1 _] & Em). rewrite E in Em.
  apply app_inv_tail in Em. apply (f_equal length) in Em. rewrite !length_replicate in Em. lia.
Qed.

Lemma retry_delay_bounds job_try u : 1 <= job_try -> 0 <= ARQ_RETRY_BASE_SECONDS cfg -> (1 <= u <= 3 # 2)%Q ->
  (inject_Z (ARQ_RETRY_BASE_SECONDS cfg * 2 ^ (job_try - 1)) <= retry_delay cfg job_try u <=
   inject_Z (ARQ_RETRY_BASE_SECONDS cfg * 2 ^ (job_try - 1)) * (3 # 2))%Q.
Proof.
  intros Hj Hb [H1 H2]. unfold retry_delay. set (b := ARQ_RETRY_BASE_SECONDS cfg * _).
  assert (0 <= inject_Z b)%Q as Hq. { change 0%Q with (inject_Z 0). rewrite <-Zle_Qle. unfold b. pose proof (Z.pow_pos_nonneg 2 (job_try - 1)). nia. }
  split.
  - rewrite <-(Qmult_1_r (inject_Z b)) at 1. rewrite !(Qmult_comm (inject_Z b)). by apply Qmult_le_compat_r.
  - rewrite !(Qmult_comm (inject_Z b)). by apply Qmult_le_compat_r.
Qed.

(** Retries end in a delivery as soon as the topic recovers: the worker's
    job of a recorded notification, on a reachable Redis, is delivered exactly
    when some publish among its allowed tries succeeds, it then publishes
    nothing more, and the wait before try k + 1 lies between base * 2^(k-1) and
    one and a half times that. *)
Theorem worker_retries_deliver d ev jitters keys now l pub fs :
  event_ok ev -> has_row d ev -> SNS_TOPIC_ARN cfg <> [] -> 0 < WORKER_IDEMPOTENCY_TTL_SECONDS cfg ->
  0 <= ARQ_RETRY_BASE_SECONDS cfg -> Forall (fun u => 1 <= u <= 3 # 2)%Q jitters -> live now keys (delivered_key ev) = None ->
  let '(delays, r, s') := worker_runs d ev 1 jitters (ds_at keys now l pub fs) in
  r = (if succeeds (length jitters) fs then Some (SnsDelivered (ev_notification_id ev)) else None) /\
  ds_published s' = replicate (copies (length jitters) fs) (sns_message ev) ++ pub /\
  (forall k q, delays !! k = Some q ->
     (inject_Z (ARQ_RETRY_BASE_SECONDS cfg * 2 ^ Z.of_nat k) <= q <= inject_Z (ARQ_RETRY_BASE_SECONDS cfg * 2 ^ Z.of_nat k) * (3 # 2))%Q).
Proof.
  intros Hev Hrow Ht Httl Hb HF Hl.
  assert (forall job_try pub fs, 1 <= job_try ->
    let '(delays, r, s') := worker_runs d ev job_try jitters (ds_at keys now l pub fs) in
    r = (if succeeds (length jitters) fs then Some (SnsDelivered (ev_notification_id ev)) else None) /\
    ds_published s' = replicate (copies (length jitters) fs) (sns_message ev) ++ pub /\
    (forall k q, delays !! k = Some q ->
       (inject_Z (ARQ_RETRY_BASE_SECONDS cfg * 2 ^ (job_try - 1 + Z.of_nat k)) <= q <=
        inject_Z (ARQ_RETRY_BASE_SECONDS cfg * 2 ^ (job_try - 1 + Z.of_nat k)) * (3 # 2))%Q)) as Hgen.
  { clear pub fs. induction HF as [|u us Hu _ IH]; intros job_try pub fs Hj; [done|]. cbn [worker_runs length].
    unfold deliver_notification_sns. rewrite (worker_delivers_event cfg d ev) by done. unfold mbind, M_bind.
    rewrite deliver_once_unmarked by done.
    destruct fs as [|[] fs]; cbn [succeeds copies mret M_ret]; [done|done| |].
    1: specialize (IH (job_try + 1) pub fs ltac:(lia)).
    2: specialize (IH (job_try + 1) (sns_message ev :: pub) fs ltac:(lia)).
    all: destruct (worker_runs _ _ _ _ _) as [[delays r] s']; destruct IH as (-> & Hp & Hd); split; [done|]; split.
    1: done.
    2: rewrite Hp; apply replicate_snoc.
    all: intros [|k] q Hk; cbn in Hk; [injection Hk as <-; rewrite Z.add_0_r; by apply retry_delay_bounds|].
    all: replace (job_try - 1 + Z.of_nat (S k)) with (job_try + 1 - 1 + Z.of_nat k) by lia; by apply Hd. }
  specialize (Hgen 1 pub fs ltac:(lia)). by destruct (worker_runs _ _ _ _ _) as [[delays r] s'].
Qed.
End Theorems.

(** ** Witnesses *)

Definition demo_delivery : delivery_settings :=
  {| SNS_TOPIC_ARN := lit "arn:aws:sns:topic"; WORKER_IDEMPOTENCY_TTL_SECONDS := 86400; ARQ_RETRY_BASE_SECONDS := 60 |}.
Definition demo_event : NotificationEvent :=
  {| ev_recipient := 7; ev_notification_id := 5; ev_kind := LIKE_POST; ev_actor := None; ev_post := None; ev_comment := None |}.
Definition demo_row : db := empty_db <| notifications := {[5 := demo_notification 0]} |>.

Lemma demo_event_ok : event_ok demo_event.
Proof. split_and!; [by split; vm_compute..|]. by intros i [|[|]]. Qed.

Lemma sns_message_roundtrip_witness : @read_event ascii_db (sns_message demo_event) = Some (demo_event, SNS_SUMMARY LIKE_POST).
Proof. apply (@sns_message_roundtrip ascii_db demo_event). apply demo_event_ok. Defined.

Lemma announcement_always_assigned_witness :
  let h := {| h_cluster := demo_cluster0; h_queue := []; h_tasks := [] |} in
  (h_queue (publish_after_commit demo_delivery true NoFault (Some LostReply) (lit "a") demo_event h),
   h_tasks (publish_after_commit demo_delivery true NoFault (Some LostReply) (lit "a") demo_event h)) = ([job_of demo_event], [demo_event]).
Proof.
  cbv zeta. destruct (announcement_always_assigned demo_delivery true NoFault (Some LostReply) (lit "a") demo_event
    {| h_cluster := demo_cluster0; h_queue := []; h_tasks := [] |} (fresh_node (lit "a"))) as [_ E]; [by vm_compute|exact E].
Defined.

Definition demo_reader : User :=
  {| user_version := 1; email := lit "a@b.c"; password := lit "h"; nickname := lit "n";
     user_profile_image_id := None; role := lit "USER"; status := ACTIVE;
     user_created_at := 0; user_updated_at := 0; user_deleted_at := None |}.

(** Recorded, then attempted by the worker (answer lost), inline (refused) and
    by the worker again, twice. *)
Lemma sns_attempts_converge_witness : exists d,
  record 100 5 7 LIKE_POST None None None (empty_db <| users := {[7 := demo_reader]} |>) = (inr demo_event, d) /\
  ds_published (fold_left (@delivery_attempt ascii_db demo_delivery (mark_read 200 7 [] d).2 demo_event)
    [ByWorker 1 1; Inline; ByWorker 2 1; ByWorker 3 1] (ds_at ∅ 100 [] [] [LostReply; LostRequest])) = [sns_message demo_event; sns_message demo_event].
Proof.
  destruct (record 100 5 7 LIKE_POST None None None (empty_db <| users := {[7 := demo_reader]} |>)) as [r d] eqn:E.
  assert (r = inr demo_event) as Hr by (apply (f_equal fst) in E; by vm_compute in E). rewrite Hr in E |- *. exists d. split; [done|].
  destruct (@sns_attempts_converge ascii_db demo_delivery 100 5 7 LIKE_POST None None None _ demo_event d 200 7 []
    [ByWorker 1 1; Inline; ByWorker 2 1; ByWorker 3 1] ∅ [] [] [LostReply; LostRequest] E) as [Hp _];
    [apply demo_event_ok|done|done|done|exact Hp].
Defined.

Lemma worker_retries_deliver_witness :
  (@worker_runs ascii_db demo_delivery demo_row demo_event 1 [1; 5 # 4; 1; 1]%Q (ds_at ∅ 100 [] [] [LostRequest; LostReply])).1.2 =
    Some (SnsDelivered 5).
Proof.
  pose proof (@worker_retries_deliver ascii_db demo_delivery demo_row demo_event [1; 5 # 4; 1; 1]%Q ∅ 100 [] [] [LostRequest; LostReply]
    demo_event_ok) as Hw.
  specialize (Hw ltac:(exists (demo_notification 0); by vm_compute)). specialize (Hw ltac:(done) ltac:(done) ltac:(done)).
  specialize (Hw ltac:(repeat constructor; by vm_compute) ltac:(done)).
  destruct (worker_runs _ _ _ _ _ _) as [[delays r] s']. by destruct Hw as [-> _].
Defined.
