(* ===== verification/Permissions.v ===== *)
(** * Author checks ([api/dependencies/permissions.py]) and the handlers behind them

    Editing and deleting a post or a comment is reserved to its author.  The
    check runs first, on a read session that may be served by a replica; the
    service then works on the writer. *)

From S2P Require Import Prelude Ids Common Redis Db World Media Search Posts Comments.

Definition require_post_author (post_id user : Z) (replica : db) : exn + Z :=
  match get_post_author_id post_id replica with
  | None => inl PostNotFoundException
  | Some author => if decide (author = user) then inr post_id else inl ForbiddenException
  end.

Record CommentAuthorContext := { ctx_post_id : Z; ctx_user_id : Z; ctx_comment_id : Z }.

Definition require_comment_author_of (include_deleted_comment : bool) (post_id comment_id user : Z) (replica : db) : exn + CommentAuthorContext :=
  match load_comment_author_permission_row post_id comment_id include_deleted_comment replica with
  | None => inl PostNotFoundException
  | Some row =>
      if decide (pr_comment_id row = None) then inl CommentNotFoundException
      else if decide (pr_comment_post_id row <> Some post_id) then inl InvalidPostIdFormatException
      else if decide (pr_comment_author_id row <> Some user) then inl ForbiddenException
      else inr {| ctx_post_id := post_id; ctx_user_id := user; ctx_comment_id := comment_id |}
  end.
Definition require_comment_author := require_comment_author_of false.
Definition require_comment_author_for_delete := require_comment_author_of true.

(** A dependency that raises ends the request before the handler. *)
Definition depends {A B : Type} (guard : exn + A) (handler : A -> M world B) : M world B :=
  match guard with inl e => raise e | inr a => handler a end.

Section Handlers.
Context `{UnicodeDB} (replica : db) (user : Z).

Definition update_comment_handler (now post_id comment_id : Z) (text : ustr) : M world unit :=
  depends (require_comment_author post_id comment_id user replica)
    (fun ctx => on_db (update_comment now (ctx_post_id ctx) (ctx_comment_id ctx) text)).
Definition delete_comment_handler (now post_id comment_id : Z) : M world unit :=
  depends (require_comment_author_for_delete post_id comment_id user replica)
    (fun ctx => on_db (delete_comment now (ctx_post_id ctx) (ctx_comment_id ctx))).
Definition update_post_handler (now post_id : Z) (data : PostUpdateRequest) : M world unit :=
  depends (require_post_author post_id user replica) (fun _ => update_post now post_id data).
Definition delete_post_handler (now post_id : Z) : M world unit :=
  depends (require_post_author post_id user replica) (fun _ => on_db (delete_post now post_id)).
End Handlers.

(** ** What the services behind the checks leave alone *)

(** Every comment (post) but [k] is as it was. *)
Definition comments_but (k : Z) (d0 d : db) : Prop := forall j, j <> k -> comments d !! j = comments d0 !! j.
Definition posts_but (k : Z) (d0 d : db) : Prop := forall j, j <> k -> posts d !! j = posts d0 !! j.
(** An edit of post [k] leaves the comments; its deletion those of other posts. *)
Definition post_edited (k : Z) (d0 d : db) : Prop := posts_but k d0 d /\ comments d = comments d0.
Definition post_deleted (k : Z) (d0 d : db) : Prop :=
  posts_but k d0 d /\ forall j c, comments d0 !! j = Some c -> c_post_id c <> k -> comments d !! j = Some c.
(** The posts but for what a change of their comments moves: the counter and
    the time stamp. *)
Definition counts_aside (d : db) : gmap Z Post := (fun p => p <| comment_count := 0 |> <| updated_at := 0 |>) <$> posts d.

Lemma comment_update_frame {A : Type} pk (c : Comment -> bool) f (ret : Z -> Comment -> option A) d0 :
  keeps (comments_but pk d0) (update_one_returning (fun k r => bool_decide (k = pk) && c r) f ret).
Proof.
  intros d Hd. rewrite update_one_returning_pk. cbn [rows comments_table]. destruct (comments d !! pk) as [r|]; [|done].
  destruct (c r); [|done]. intros j Hj. cbn [snd set_rows comments_table comments over]. rewrite lookup_insert_ne by done. by apply Hd.
Qed.
(** An update of one post keeps what writing its new row keeps. *)
Lemma post_update_keeps {A : Type} (I : db -> Prop) pk (c : Post -> bool) f (ret : Z -> Post -> option A) :
  (forall d r, I d -> posts d !! pk = Some r -> I (d <| posts := <[pk := f r]> (posts d) |>)) ->
  keeps I (update_one_returning (fun k r => bool_decide (k = pk) && c r) f ret).
Proof.
  intros HI d Hd. rewrite update_one_returning_pk. cbn [rows posts_table]. destruct (posts d !! pk) as [r|] eqn:E; [|done].
  destruct (c r); [|done]. by apply HI.
Qed.
Lemma posts_but_insert k p d0 d : posts_but k d0 d -> posts_but k d0 (d <| posts := <[k := p]> (posts d) |>).
Proof. intros Hd j Hj. cbn [posts over]. rewrite lookup_insert_ne by done. by apply Hd. Qed.
Lemma post_edit_frame {A : Type} pk (c : Post -> bool) f (ret : Z -> Post -> option A) d0 :
  keeps (post_edited pk d0) (update_one_returning (fun k r => bool_decide (k = pk) && c r) f ret).
Proof. apply post_update_keeps. intros d r [H1 H2] _. split; [by apply posts_but_insert|done]. Qed.
Lemma post_deletion_frame {A : Type} pk (c : Post -> bool) f (ret : Z -> Post -> option A) d0 :
  keeps (post_deleted pk d0) (update_one_returning (fun k r => bool_decide (k = pk) && c r) f ret).
Proof. apply post_update_keeps. intros d r [H1 H2] _. split; [by apply posts_but_insert|done]. Qed.
(** Updates of a post leave the comments alone. *)
Lemma post_update_comments {A : Type} pk (c : Post -> bool) f (ret : Z -> Post -> option A) k d0 :
  keeps (comments_but k d0) (update_one_returning (fun k r => bool_decide (k = pk) && c r) f ret).
Proof. by apply post_update_keeps. Qed.

Lemma keeps_get {S A : Type} (I : S -> Prop) (k : S -> M S A) : (forall s, keeps I (k s)) -> keeps I (s ← get; k s).
Proof. intros Hk s Hs. unfold get. unfold mbind, M_bind. by apply Hk. Qed.
Lemma keeps_is_some {A : Type} (I : db -> Prop) (m : M db (option A)) : keeps I m -> keeps I (is_some m).
Proof. intros Hm. apply keeps_bind; [done|]. intros o. apply keeps_ret. Qed.
Lemma keeps_on_db {A : Type} (I : db -> Prop) (m : M db A) : keeps I m -> keeps (fun w => I (w_db w)) (on_db m).
Proof. intros Hm w Hw. unfold on_db. specialize (Hm (w_db w) Hw). by destruct (m (w_db w)). Qed.

Create HintDb frame.
#[export] Hint Resolve keeps_ret keeps_raise keeps_bind keeps_begin keeps_is_some keeps_for_each keeps_try
  comment_update_frame post_edit_frame post_deletion_frame post_update_comments : frame.

Lemma update_comment_frame now post_id comment_id text d0 : keeps (comments_but comment_id d0) (update_comment now post_id comment_id text).
Proof. apply keeps_begin, keeps_bind; [apply keeps_is_some, comment_update_frame|]. intros []; auto with frame. Qed.

Lemma delete_comment_frame now post_id comment_id d0 : keeps (comments_but comment_id d0) (delete_comment now post_id comment_id).
Proof.
  apply keeps_begin, keeps_bind; [apply comment_update_frame|]. intros [pid|].
  - apply keeps_bind; [apply keeps_is_some, post_update_comments|auto with frame].
  - apply keeps_get. intros s. destruct (get_comment_meta _ _); [destruct (_ && _)|]; auto with frame.
Qed.

Lemma comment_update_counts {A : Type} pk (c : Comment -> bool) f (ret : Z -> Comment -> option A) m :
  keeps (fun d => counts_aside d = m) (update_one_returning (fun k r => bool_decide (k = pk) && c r) f ret).
Proof.
  intros d Hd. rewrite update_one_returning_pk. cbn [rows comments_table]. destruct (comments d !! pk) as [r|]; [|done]. by destruct (c r).
Qed.
Lemma update_comment_counts now post_id comment_id text m : keeps (fun d => counts_aside d = m) (update_comment now post_id comment_id text).
Proof. apply keeps_begin, keeps_bind; [apply keeps_is_some, comment_update_counts|]. intros []; auto with frame. Qed.

Lemma delete_comment_counts now post_id comment_id m : keeps (fun d => counts_aside d = m) (delete_comment now post_id comment_id).
Proof.
  apply keeps_begin, keeps_bind; [apply comment_update_counts|]. intros [pid|].
  - apply keeps_bind; [|auto with frame]. apply keeps_is_some, post_update_keeps. intros d r <- Hr. unfold counts_aside. cbn [posts over].
    rewrite fmap_insert. apply insert_id. by rewrite lookup_fmap, Hr.
  - apply keeps_get. intros s. destruct (get_comment_meta _ _); [destruct (_ && _)|]; auto with frame.
Qed.

Lemma delete_post_frame now post_id d0 : keeps (post_deleted post_id d0) (delete_post now post_id).
Proof.
  apply keeps_begin, keeps_bind.
  - apply keeps_bind; [apply keeps_is_some, post_deletion_frame|]. intros []; [|auto with frame].
    apply keeps_bind; [|auto with frame]. by intros d Hd.
  - intros []; [|auto with frame]. apply keeps_bind.
    + intros d [H1 H2]. split; [done|]. intros j c Hj Hc. cbn [soft_delete_comments_by_post modify snd comments over set_rows comments_table update_where rows].
      rewrite map_lookup_imap, (H2 j c Hj Hc). cbn [mbind option_bind]. by rewrite bool_decide_eq_false_2.
    + intros _. apply keeps_bind; [by intros d Hd|auto with frame].
Qed.

Lemma upsert_hashtags_rest names d :
  posts (fold_left upsert_hashtag names d) = posts d /\ comments (fold_left upsert_hashtag names d) = comments d.
Proof.
  revert d. induction names as [|n names IH]; intros d; [done|]. cbn [fold_left]. destruct (IH (upsert_hashtag d n)) as [-> ->].
  unfold upsert_hashtag. cbv zeta. by destruct (hashtag_id _ _).
Qed.

Lemma sync_hashtags_frame pk post_id names d0 : keeps (post_edited pk d0) (sync_post_hashtags post_id names).
Proof.
  intros d [Hp Hc]. unfold sync_post_hashtags. destruct names as [|n names]; [done|].
  assert (forall d1, posts d1 = posts d -> comments d1 = comments d -> post_edited pk d0 d1) as Heq.
  { intros d1 E1 E2. split; [intros j Hj; rewrite E1; by apply Hp|by rewrite E2]. }
  destruct (upsert_hashtags_rest (n :: names) (d <| post_hashtags := filter (fun l => l.1 <> post_id) (post_hashtags d) |>)) as [E1 E2].
  destruct (_ || _); cbn [snd]; apply Heq; cbn [posts comments over]; by rewrite ?E1, ?E2.
Qed.

Lemma update_commit_frame now e d0 : keeps (post_edited (ed_post_id e) d0) (update_commit now e).
Proof.
  apply keeps_begin. apply keeps_bind; [destruct (ed_hashtags e); auto with frame; apply sync_hashtags_frame|]. intros _.
  apply keeps_bind; [destruct (ed_remove e); [auto with frame|]; apply keeps_bind; [by intros d Hd|auto with frame]|]. intros _.
  apply keeps_bind; [apply keeps_bind; [apply post_edit_frame|]; intros []; auto with frame|]. intros _.
  apply keeps_for_each. intros [i img] _ d Hd. unfold insert_post_image. destruct (existsb _ _); [done|]. unfold insert_row.
  destruct (rows d !! i); [done|]. by destruct (_ && _).
Qed.

(** A read-only part whose answer the rest depends on. *)
Lemma keeps_read {S A B : Type} (I : S -> Prop) (m : M S A) (k : A -> M S B) :
  (forall s, I s -> match m s with (inr a, s') => I s' /\ keeps I (k a) | (inl _, s') => I s' end) -> keeps I (m ≫= k).
Proof. intros Hm s Hs. unfold mbind, M_bind. specialize (Hm s Hs). destruct (m s) as [[e|a] s']; [done|]. destruct Hm as [H1 H2]. by apply H2. Qed.

Lemma update_begin_reads `{UnicodeDB} now post_id data d :
  (update_begin now post_id data d).2 = d /\ (forall e, (update_begin now post_id data d).1 = inr (Some e) -> ed_post_id e = post_id).
Proof.
  assert (forall ids, (ensure_image_limit ids d).2 = d) as Hlim by (intros [ids|]; cbn; [by destruct (_ <? _)|done]).
  specialize (Hlim (image_ids_of (up_images data))). unfold update_begin. unfold mbind, M_bind.
  destruct (ensure_image_limit _ d) as [[e|[]] d1]; cbn [snd] in Hlim; subst d1; [done|]. unfold get.
  destruct (posts d !! post_id) as [p|]; [|done]. destruct (_ && _); [|done].
  destruct (match up_version data with Some v => _ | None => false end); [done|]. split; [done|]. by intros e [= <-].
Qed.

Lemma update_post_frame `{UnicodeDB} now post_id data d0 : keeps (fun w => post_edited post_id d0 (w_db w)) (update_post now post_id data).
Proof.
  apply keeps_tx; [by intros w e Hw _|]. apply keeps_bind.
  - apply keeps_bind.
    + destruct (up_category data) as [c|]; [|apply keeps_ret]. apply keeps_bind; [|intros []; auto with frame].
      intros w Hw. unfold category_exists. cbv zeta.
      destruct (match w_category_cache w with Some _ => _ | None => false end); [done|]. by destruct (decide _).
    + intros _. destruct (image_ids_of _) as [ids|]; [|apply keeps_ret]. apply keeps_on_db. destruct ids; [apply keeps_ret|].
      apply keeps_get. intros s. destruct (forallb _ _); auto with frame.
  - intros _. apply keeps_read. intros w Hw. unfold try_except, on_db at 1.
    destruct (update_begin_reads now post_id data (w_db w)) as [Hd He].
    destruct (update_begin now post_id data (w_db w)) as [[e|[e|]] d1]; cbn [fst snd] in *; subst d1.
    + by destruct (decide (e = StaleDataError)).
    + split; [done|]. rewrite <-(He e eq_refl). apply keeps_on_db, update_commit_frame.
    + split; [done|]. apply keeps_raise.
Qed.

(** ** Theorems *)

(** The comment check on every input: it passes exactly for the author of
    an existing comment of that live post (for a deletion also a deleted one),
    and its refusals say, in this order, that the post is missing or deleted,
    that the comment is, that it belongs to another post, that it is somebody
    else's. *)
Theorem comment_author_check include_deleted post_id comment_id user replica :
  let found := c ← comments replica !! comment_id; if include_deleted || bool_decide (c_deleted_at c = None) then Some c else None in
  let post_live := match posts replica !! post_id with Some p => bool_decide (deleted_at p = None) | None => false end in
  require_comment_author_of include_deleted post_id comment_id user replica =
    if negb post_live then inl PostNotFoundException
    else match found with
         | None => inl CommentNotFoundException
         | Some c =>
             if negb (c_post_id c =? post_id) then inl InvalidPostIdFormatException
             else if bool_decide (author_id c = Some user)
                  then inr {| ctx_post_id := post_id; ctx_user_id := user; ctx_comment_id := comment_id |}
                  else inl ForbiddenException
         end.
Proof.
  cbv zeta. unfold require_comment_author_of, load_comment_author_permission_row.
  destruct (posts replica !! post_id) as [p|]; [|done]. cbn [mbind option_bind].
  destruct (decide (deleted_at p = None)) as [Hp|Hp]; [|by rewrite bool_decide_eq_false_2].
  rewrite bool_decide_eq_true_2 by done. cbn [negb]. destruct (comments replica !! comment_id) as [c|]; [|done]. cbn [mbind option_bind].
  destruct (include_deleted || _); [|done]. cbn [pr_comment_id pr_comment_post_id pr_comment_author_id].
  rewrite decide_False by done. destruct (Z.eqb_spec (c_post_id c) post_id) as [->|Hne]; cbn [negb].
  - rewrite decide_False by (intros Hc; by apply Hc). destruct (decide (author_id c = Some user)) as [Ha|Ha].
    + rewrite decide_False by (intros Hc; by apply Hc). by rewrite bool_decide_eq_true_2.
    + rewrite decide_True by done. by rewrite bool_decide_eq_false_2.
  - rewrite decide_True by (intros [=]; done). done.
Qed.

(** The checked calls of the API. *)
Inductive api_call :=
  | EditComment (now post_id comment_id : Z) (text : ustr) | DeleteComment (now post_id comment_id : Z)
  | EditPost (now post_id : Z) (data : PostUpdateRequest) | DeletePost (now post_id : Z).

Definition api `{UnicodeDB} (replica : db) (user : Z) (call : api_call) : M world unit :=
  match call with
  | EditComment now p c text => update_comment_handler replica user now p c text
  | DeleteComment now p c => delete_comment_handler replica user now p c
  | EditPost now p data => update_post_handler replica user now p data
  | DeletePost now p => delete_post_handler replica user now p
  end.

(** The refusal of the check in front of a call. *)
Definition refusal {A : Type} (r : exn + A) : option exn := match r with inl e => Some e | inr _ => None end.
Definition check_of (replica : db) (user : Z) (call : api_call) : option exn :=
  match call with
  | EditComment _ p c _ => refusal (require_comment_author p c user replica)
  | DeleteComment _ p c => refusal (require_comment_author_for_delete p c user replica)
  | EditPost _ p _ | DeletePost _ p => refusal (require_post_author p user replica)
  end.

(** A replica may lag behind the writer, but a row's author and post are those
    it was created with. *)
Definition authors_agree (replica d : db) : Prop :=
  (forall k c c', comments replica !! k = Some c -> comments d !! k = Some c' -> author_id c' = author_id c) /\
  (forall k p p', posts replica !! k = Some p -> posts d !! k = Some p' -> user_id p' = user_id p).

(** What a check that passed says. *)
Lemma comment_check_author b post_id comment_id user replica ctx :
  require_comment_author_of b post_id comment_id user replica = inr ctx ->
  ctx_comment_id ctx = comment_id /\ exists c, comments replica !! comment_id = Some c /\ author_id c = Some user.
Proof.
  unfold require_comment_author_of, load_comment_author_permission_row.
  destruct (posts replica !! post_id) as [p|]; [|done]. cbn [mbind option_bind]. destruct (decide _); [|done].
  destruct (comments replica !! comment_id) as [c|]; [|done]. destruct (b || _); [|done].
  cbn [pr_comment_id pr_comment_post_id pr_comment_author_id]. repeat destruct (decide _); try done. intros [= <-].
  split; [done|]. exists c. split; [done|]. by apply dec_stable.
Qed.
Lemma post_check_author post_id user replica i : require_post_author post_id user replica = inr i ->
  exists p, posts replica !! post_id = Some p /\ user_id p = Some user.
Proof.
  unfold require_post_author, get_post_author_id. destruct (posts replica !! post_id) as [p|]; [|done]. cbn [mbind option_bind].
  destruct (deleted_at p); [done|]. destruct (user_id p) as [a|] eqn:E; [|done]. destruct (decide (a = user)) as [->|]; [|done]. eauto.
Qed.

(** The services do to a row they were let through to what their frame says. *)
Lemma checked_comment b p c user replica (m : CommentAuthorContext -> M db unit) (I : db -> Prop) w :
  (forall ctx, ctx_comment_id ctx = c -> keeps I (m ctx)) -> I (w_db w) ->
  I (w_db (depends (require_comment_author_of b p c user replica) (fun ctx => on_db (m ctx)) w).2).
Proof.
  intros Hm Hw. destruct (require_comment_author_of b p c user replica) as [e|ctx] eqn:E; [done|].
  apply comment_check_author in E as [Hctx _]. by apply (keeps_on_db I (m ctx) (Hm ctx Hctx) w).
Qed.
Lemma checked_post p user replica (m : M world unit) (I : db -> Prop) w : keeps (fun x => I (w_db x)) m -> I (w_db w) ->
  I (w_db (depends (require_post_author p user replica) (fun _ => m) w).2).
Proof. intros Hm Hw. destruct (require_post_author p user replica); [done|]. by apply Hm. Qed.

(** C25. Only authors write, with the checks served by a lagging replica.  A call
    to edit or delete a comment changes no comment of anybody else in any
    column, and of the posts nothing but the comment counter and the time stamp
    that goes with it.  A call to edit or delete a post changes no post of
    anybody else in any column; editing leaves every comment as it was, and
    deleting every comment of the other posts.  A refused call changes nothing
    at all. *)
Theorem only_authors_write `{UnicodeDB} replica user call w :
  authors_agree replica (w_db w) ->
  let w' := (api replica user call w).2 in
  match call with
  | EditComment _ _ _ _ | DeleteComment _ _ _ =>
      (forall k r, comments (w_db w) !! k = Some r -> author_id r <> Some user -> comments (w_db w') !! k = Some r) /\
      counts_aside (w_db w') = counts_aside (w_db w)
  | EditPost _ p _ | DeletePost _ p =>
      (forall k r, posts (w_db w) !! k = Some r -> user_id r <> Some user -> posts (w_db w') !! k = Some r) /\
      match call with
      | EditPost _ _ _ => comments (w_db w') = comments (w_db w)
      | _ => forall k c, comments (w_db w) !! k = Some c -> c_post_id c <> p -> comments (w_db w') !! k = Some c
      end
  end /\
  (forall e, check_of replica user call = Some e -> api replica user call w = (inl e, w)).
Proof.
  intros [Hc Hp] w'. subst w'. split.
  2: { intros e. destruct call; cbn [check_of api]; unfold update_comment_handler, delete_comment_handler, update_post_handler, delete_post_handler.
    all: destruct (require_comment_author _ _ _ _) || destruct (require_comment_author_for_delete _ _ _ _) || destruct (require_post_author _ _ _).
    all: by intros [= ->]. }
  assert (forall b p c (m : CommentAuthorContext -> M db unit) k r,
    (forall ctx, ctx_comment_id ctx = c -> keeps (comments_but c (w_db w)) (m ctx)) ->
    comments (w_db w) !! k = Some r -> author_id r <> Some user ->
    comments (w_db (depends (require_comment_author_of b p c user replica) (fun ctx => on_db (m ctx)) w).2) !! k = Some r) as Hcom.
  { intros b p c m k r Hm Hk Hr. pose proof (checked_comment b p c user replica m _ w Hm ltac:(by intros j Hj)) as Hd.
    destruct (require_comment_author_of b p c user replica) as [e|ctx] eqn:E; [done|].
    apply comment_check_author in E as (_ & c0 & Hc0 & Ha). rewrite <-Hk. apply Hd. intros ->. apply Hr. by rewrite <-Ha, (Hc c c0 r). }
  assert (forall p (m : M world unit), posts_but p (w_db w) (w_db (depends (require_post_author p user replica) (fun _ => m) w).2) -> forall k r,
    posts (w_db w) !! k = Some r -> user_id r <> Some user ->
    posts (w_db (depends (require_post_author p user replica) (fun _ => m) w).2) !! k = Some r) as Hpost.
  { intros p m Hd k r Hk Hr. destruct (require_post_author p user replica) as [e|i] eqn:E; [done|].
    apply post_check_author in E as (p0 & Hp0 & Ha). rewrite <-Hk. apply Hd. intros ->. apply Hr. by rewrite <-Ha, (Hp p p0 r). }
  destruct call as [now p c text|now p c|now p data|now p]; cbn [api].
  - split; [intros k r; apply Hcom; intros ctx <-; apply update_comment_frame|].
    apply (checked_comment _ _ _ _ _ _ (fun d => counts_aside d = _)); [intros; apply update_comment_counts|done].
  - split; [intros k r; apply Hcom; intros ctx <-; apply delete_comment_frame|].
    apply (checked_comment _ _ _ _ _ _ (fun d => counts_aside d = _)); [intros; apply delete_comment_counts|done].
  - destruct (checked_post p user replica (update_post now p data) (post_edited p (w_db w)) w) as [H1 H2]; [apply update_post_frame|by split|].
    split; [by apply Hpost|done].
  - destruct (checked_post p user replica (on_db (delete_post now p)) (post_deleted p (w_db w)) w) as [H1 H2];
      [apply keeps_on_db, delete_post_frame|by split|].
    split; [by apply Hpost|done].
Qed.

(** ** Witnesses *)

Definition demo_authored : db := demo_db <| comments := {[ 3 := {| c_post_id := 1; author_id := Some 7; parent_id := None; c_content := lit "hi";
  c_like_count := 0; c_report_count := 0; c_is_blinded := false; c_created_at := 0; c_updated_at := 0; c_deleted_at := None |} ]} |>.

Definition demo_authored_world : world := empty_world <| w_db := demo_authored |>.

Lemma only_authors_write_witness :
  (forall k r, comments (w_db demo_authored_world) !! k = Some r -> author_id r <> Some 8 ->
     comments (w_db (@api ascii_db demo_authored 8 (DeleteComment 5 1 3) demo_authored_world).2) !! k = Some r) /\
  @api ascii_db demo_authored 8 (DeleteComment 5 1 3) demo_authored_world = (inl ForbiddenException, demo_authored_world).
Proof.
  destruct (@only_authors_write ascii_db demo_authored 8 (DeleteComment 5 1 3) demo_authored_world) as [[Hothers _] Hrefused].
  - split; intros k c c' E1 E2; cbn [demo_authored_world w_db over] in E2; rewrite E1 in E2; by injection E2 as ->.
  - split; [exact Hothers|]. apply Hrefused. by vm_compute.
Defined.
