(* ===== verification/Settings.v ===== *)
(** * Configuration ([core/config.py])

    Settings come from the environment: lists from comma-separated text, names
    normalised, some numbers raised to a floor; a production process refuses to
    start on an unsafe configuration.  The environment reader and the type
    coercion are pydantic's. *)

From Stdlib Require Import QArith.
From S2P Require Import Prelude Ids Common Idempotency Delivery.
Local Open Scope Z_scope.

(** ** Comma-separated lists *)

Fixpoint split_on (c : Z) (acc : ustr) (s : ustr) : list ustr :=
  match s with
  | [] => [reverse acc]
  | x :: s' => if x =? c then reverse acc :: split_on c [] s' else split_on c (x :: acc) s'
  end.

(** A raw value is text, or already a list (the default). *)
Inductive csv_value := CsvText (v : ustr) | CsvList (l : list ustr).

Definition parse_csv (v : csv_value) : list ustr :=
  match v with
  | CsvText t => List.filter (fun s => negb (bool_decide (s = []))) (map strip (split_on 44 [] t))
  | CsvList l => l
  end.

(** ** Loading *)

Definition MIN_FLOORS : list (ustr * Z) :=
  [(lit "DB_INIT_MAX_ATTEMPTS", 1); (lit "MEDIA_CLEANUP_BATCH_SIZE", 1); (lit "RESERVED_IMAGE_GRACE_SECONDS", 5);
   (lit "ARQ_JOB_TIMEOUT", 120); (lit "ARQ_MAX_TRIES", 1); (lit "ARQ_RETRY_BASE_SECONDS", 1);
   (lit "WORKER_IDEMPOTENCY_TTL_SECONDS", 300); (lit "IDEMPOTENCY_POST_CREATE_TTL_SECONDS", 60);
   (lit "IDEMPOTENCY_POST_CREATE_LOCK_TTL_SECONDS", 5); (lit "VIEW_BUFFER_FLUSH_INTERVAL_SECONDS", 60);
   (lit "VIEW_FLUSH_LOCK_SECONDS", 30)].

(** Integer settings by name; the other settings a check or a service reads. *)
Record Settings := {
  s_ints : gmap ustr Z; ENVIRONMENT : ustr;
  CORS_ORIGINS : list ustr; TRUSTED_PROXY_IPS : list ustr; TRUSTED_HOSTS : list ustr;
  JWT_SECRET_KEY : ustr; COOKIE_SECURE : bool; DB_PASSWORD : ustr; TRUST_X_FORWARDED_FOR : bool;
  S3_BUCKET_NAME : ustr; AWS_ACCESS_KEY_ID : ustr; AWS_SECRET_ACCESS_KEY : ustr;
  TOPIC_ARN : ustr; REDIS_SOCKET_TIMEOUT : Q; REDIS_SOCKET_CONNECT_TIMEOUT : Q;
}.

Definition setting (name : ustr) (ints : gmap ustr Z) : Z := default 0 (ints !! name).

(** [_clamp_minimums]: the fields in turn. *)
Definition clamp_one (ints : gmap ustr Z) (p : ustr * Z) : gmap ustr Z :=
  if setting p.1 ints <? p.2 then <[p.1 := p.2]> ints else ints.
Definition clamp_minimums (ints : gmap ustr Z) : gmap ustr Z := fold_left clamp_one MIN_FLOORS ints.

Section Load.
Context `{UnicodeDB}.

Definition normalize_environment (v : ustr) : ustr :=
  match lower (strip v) with [] => lit "development" | s => s end.

(** [None] is pydantic's ValidationError. *)
Definition positive_timeout (v : Q) : option Q := if Qle_bool v 0 then None else Some v.

(** [csv]: the raw values of the three lists. *)
Definition load_settings (cors proxies hosts : csv_value) (raw : Settings) : option Settings :=
  t1 ← positive_timeout (REDIS_SOCKET_TIMEOUT raw);
  t2 ← positive_timeout (REDIS_SOCKET_CONNECT_TIMEOUT raw);
  Some {| s_ints := clamp_minimums (s_ints raw); ENVIRONMENT := normalize_environment (ENVIRONMENT raw);
          CORS_ORIGINS := parse_csv cors; TRUSTED_PROXY_IPS := parse_csv proxies; TRUSTED_HOSTS := parse_csv hosts;
          JWT_SECRET_KEY := JWT_SECRET_KEY raw; COOKIE_SECURE := COOKIE_SECURE raw; DB_PASSWORD := DB_PASSWORD raw;
          TRUST_X_FORWARDED_FOR := TRUST_X_FORWARDED_FOR raw; S3_BUCKET_NAME := S3_BUCKET_NAME raw;
          AWS_ACCESS_KEY_ID := AWS_ACCESS_KEY_ID raw; AWS_SECRET_ACCESS_KEY := AWS_SECRET_ACCESS_KEY raw;
          TOPIC_ARN := strip (TOPIC_ARN raw); REDIS_SOCKET_TIMEOUT := t1; REDIS_SOCKET_CONNECT_TIMEOUT := t2 |}.
End Load.

(** ** The production check *)

Inductive config_error :=
  | WeakJwtSecret | InsecureCookie | WildcardHosts | EmptyDbPassword | LocalCorsOrigin | MissingS3 | UntrustedProxy | LegacyCelery (names : list ustr).

Definition JWT_INSECURE_DEFAULTS : list ustr := [[]; lit "change-me-in-production"].
Definition MIN_JWT_SECRET_LEN : Z := 32.

Definition blank (s : ustr) : bool := bool_decide (strip s = []).
Definition is_production (s : Settings) : bool := bool_decide (ENVIRONMENT s ∈ [lit "production"; lit "prod"]).

(** [sorted] of the variable names, by code points. *)
Fixpoint code_ltb (a b : ustr) : bool :=
  match a, b with
  | _, [] => false
  | [], _ :: _ => true
  | x :: a', y :: b' => (x <? y) || ((x =? y) && code_ltb a' b')
  end.
Fixpoint insert_name (n : ustr) (l : list ustr) : list ustr :=
  match l with [] => [n] | m :: l' => if code_ltb m n then m :: insert_name n l' else n :: l end.
Definition sort_names (l : list ustr) : list ustr := foldr insert_name [] l.

(** The errors in the order they are appended; [environ] are the names in
    [os.environ]. *)
Definition production_errors (s : Settings) (environ : list ustr) : list config_error :=
  let secret := strip (JWT_SECRET_KEY s) in
  let legacy := sort_names (List.filter (startswith (lit "CELERY_")) environ) in
  let when_ (b : bool) e := if b then [e] else [] in
  when_ (bool_decide (secret ∈ JWT_INSECURE_DEFAULTS) || (py_len secret <? MIN_JWT_SECRET_LEN)) WeakJwtSecret ++
  when_ (negb (COOKIE_SECURE s)) InsecureCookie ++
  when_ (bool_decide (TRUSTED_HOSTS s = []) || bool_decide (lit "*" ∈ TRUSTED_HOSTS s)) WildcardHosts ++
  when_ (blank (DB_PASSWORD s)) EmptyDbPassword ++
  when_ (existsb (fun o => is_infix (lit "localhost") o || is_infix (lit "127.0.0.1") o) (CORS_ORIGINS s)) LocalCorsOrigin ++
  when_ (negb (negb (blank (S3_BUCKET_NAME s)) && negb (blank (AWS_ACCESS_KEY_ID s)) && negb (blank (AWS_SECRET_ACCESS_KEY s)))) MissingS3 ++
  when_ (negb (TRUST_X_FORWARDED_FOR s) || bool_decide (TRUSTED_PROXY_IPS s = [])) UntrustedProxy ++
  when_ (negb (bool_decide (legacy = []))) (LegacyCelery legacy).

(** [inl]: the ValueError that stops the start-up, with its list. *)
Definition validate_settings_for_environment (s : Settings) (environ : list ustr) : list config_error + unit :=
  if negb (is_production s) then inr tt
  else match production_errors s environ with [] => inr tt | es => inl es end.

(** ** What the services get *)

Definition idempotency_settings (s : Settings) : idemp_settings :=
  {| IDEMPOTENCY_POST_CREATE_TTL_SECONDS := setting (lit "IDEMPOTENCY_POST_CREATE_TTL_SECONDS") (s_ints s);
     IDEMPOTENCY_POST_CREATE_LOCK_TTL_SECONDS := setting (lit "IDEMPOTENCY_POST_CREATE_LOCK_TTL_SECONDS") (s_ints s) |}.
Definition delivery_settings_of (s : Settings) : delivery_settings :=
  {| SNS_TOPIC_ARN := TOPIC_ARN s; WORKER_IDEMPOTENCY_TTL_SECONDS := setting (lit "WORKER_IDEMPOTENCY_TTL_SECONDS") (s_ints s);
     ARQ_RETRY_BASE_SECONDS := setting (lit "ARQ_RETRY_BASE_SECONDS") (s_ints s) |}.

(** ** Lemmas: lists as text *)

Lemma drop_while_idem {A : Type} (p : A -> bool) l : drop_while p (drop_while p l) = drop_while p l.
Proof. induction l as [|x l IH]; cbn; [done|]. destruct (p x) eqn:E; [done|]. cbn. by rewrite E. Qed.
Lemma drop_while_suffix {A : Type} (p : A -> bool) l : exists pre, l = pre ++ drop_while p l.
Proof. induction l as [|x l [pre IH]]; cbn; [by exists []|]. destruct (p x); [exists (x :: pre); by rewrite IH at 1|by exists []]. Qed.

Lemma strip_idem s : strip (strip s) = strip s.
Proof.
  unfold strip, strip_by, lstrip_by, rstrip_by. set (t := drop_while is_space s). set (u := reverse (drop_while is_space (reverse t))).
  assert (drop_while is_space u = u) as ->.
  { destruct (drop_while_suffix is_space (reverse t)) as [pre Hpre]. apply (f_equal reverse) in Hpre.
    rewrite reverse_involutive, reverse_app in Hpre. fold u in Hpre.
    pose proof (drop_while_idem is_space s) as Hi. fold t in Hi. rewrite Hpre in Hi. destruct u as [|x u]; [done|].
    cbn in Hi |- *. destruct (is_space x); [|done]. exfalso. apply (f_equal length) in Hi.
    pose proof (drop_while_length is_space (u ++ reverse pre)). cbn in Hi. lia. }
  unfold u. by rewrite reverse_involutive, drop_while_idem.
Qed.

(** An item that survives: not blank, trimmed, without a comma. *)
Definition tidy (s : ustr) : Prop := s <> [] /\ 44 ∉ s /\ strip s = s.

Definition join_csv (items : list ustr) : ustr :=
  match items with [] => [] | x :: l => x ++ flat_map (fun y => 44 :: y) l end.

Lemma split_on_item c acc s rest : c ∉ s -> split_on c acc (s ++ c :: rest) = (reverse acc ++ s) :: split_on c [] rest.
Proof.
  revert acc. induction s as [|x s IH]; intros acc Hs; cbn [app split_on].
  - by rewrite Z.eqb_refl, app_nil_r.
  - apply not_elem_of_cons in Hs as [Hx Hs]. rewrite (proj2 (Z.eqb_neq x c)) by done. rewrite IH by done.
    by rewrite reverse_cons, <-app_assoc.
Qed.
Lemma split_on_last c acc s : c ∉ s -> split_on c acc s = [reverse acc ++ s].
Proof.
  revert acc. induction s as [|x s IH]; intros acc Hs; cbn [split_on]; [by rewrite app_nil_r|].
  apply not_elem_of_cons in Hs as [Hx Hs]. rewrite (proj2 (Z.eqb_neq x c)) by done. rewrite IH by done. by rewrite reverse_cons, <-app_assoc.
Qed.
Lemma split_join items : items <> [] -> Forall tidy items -> split_on 44 [] (join_csv items) = items.
Proof.
  intros Hne HF. destruct HF as [|x items (_ & Hx & _) HF]; [done|]. cbn [join_csv]. clear Hne.
  revert x Hx. induction HF as [|y items (_ & Hy & _) HF IH]; intros x Hx; cbn [flat_map].
  - rewrite app_nil_r. by apply split_on_last.
  - cbn [app]. rewrite split_on_item by done. cbn [reverse rev_append app]. f_equal. by apply IH.
Qed.

Lemma split_on_no_comma c acc s item : c ∉ acc -> item ∈ split_on c acc s -> c ∉ item.
Proof.
  revert acc. induction s as [|x s IH]; intros acc Hacc; cbn [split_on].
  - intros ->%list_elem_of_singleton. by rewrite elem_of_reverse.
  - destruct (Z.eqb_spec x c) as [->|Hx].
    + intros [->|Hin]%elem_of_cons; [by rewrite elem_of_reverse|]. by apply (IH []) in Hin; [|apply not_elem_of_nil].
    + apply IH. rewrite not_elem_of_cons. by split.
Qed.

Lemma parse_csv_tidy t : Forall tidy (parse_csv (CsvText t)).
Proof.
  apply Forall_forall. intros s Hs. apply list_elem_of_In, filter_In in Hs as [Hs Hne]. apply in_map_iff in Hs as (i & <- & Hi).
  split_and!.
  - intros E. by rewrite bool_decide_eq_true_2 in Hne.
  - intros Hc%strip_by_elem_of. apply list_elem_of_In in Hi. by eapply (split_on_no_comma 44 [] t i); [apply not_elem_of_nil|done|].
  - apply strip_idem.
Qed.

Lemma parse_csv_join items : Forall tidy items -> parse_csv (CsvText (join_csv items)) = items.
Proof.
  intros HF. destruct items as [|x items]; [done|]. unfold parse_csv. rewrite split_join by done.
  induction HF as [|y l (Hy & _ & Hs) _ IH]; [done|]. cbn [map List.filter]. rewrite Hs, bool_decide_eq_false_2 by done. cbn [negb]. by f_equal.
Qed.

(** ** Theorems *)

(** List settings round-trip: every list of trimmed, non-empty items
    without commas is read back from its comma-separated text, and whatever text
    was given, what is read is such a list, so reading it again changes
    nothing. *)
Theorem csv_roundtrip (items : list ustr) (t : ustr) :
  Forall tidy items ->
  parse_csv (CsvText (join_csv items)) = items /\
  Forall tidy (parse_csv (CsvText t)) /\ parse_csv (CsvText (join_csv (parse_csv (CsvText t)))) = parse_csv (CsvText t).
Proof. intros HF. split_and!; [by apply parse_csv_join|apply parse_csv_tidy|apply parse_csv_join, parse_csv_tidy]. Qed.

Lemma clamp_one_other ints p name : name <> p.1 -> clamp_one ints p !! name = ints !! name.
Proof. intros Hne. unfold clamp_one. destruct (_ <? _); [by rewrite lookup_insert_ne|done]. Qed.
Lemma clamp_one_same ints name floor : setting name (clamp_one ints (name, floor)) = Z.max floor (setting name ints).
Proof.
  unfold clamp_one. cbn [fst snd]. destruct (Z.ltb_spec (setting name ints) floor); [|lia].
  unfold setting at 1. rewrite lookup_insert_eq. cbn. lia.
Qed.

Lemma clamp_other l ints name : name ∉ l.*1 -> fold_left clamp_one l ints !! name = ints !! name.
Proof.
  revert ints. induction l as [|p l IH]; intros ints Hn; [done|]. cbn [fold_left]. rewrite fmap_cons in Hn.
  apply not_elem_of_cons in Hn as [H1 H2]. rewrite IH by done. by apply clamp_one_other.
Qed.
Lemma clamp_in l ints name floor : NoDup l.*1 -> (name, floor) ∈ l ->
  setting name (fold_left clamp_one l ints) = Z.max floor (setting name ints).
Proof.
  revert ints. induction l as [|p l IH]; intros ints Hnd Hin; [by apply not_elem_of_nil in Hin|]. cbn [fold_left].
  rewrite fmap_cons in Hnd. apply NoDup_cons in Hnd as [H1 H2]. apply elem_of_cons in Hin as [<-|Hin].
  - unfold setting at 1. rewrite clamp_other by done. apply clamp_one_same.
  - rewrite IH by done. f_equal. unfold setting. rewrite clamp_one_other; [done|]. intros ->. apply H1.
    apply list_elem_of_fmap. by exists (p.1, floor).
Qed.

Lemma floors_nodup : NoDup MIN_FLOORS.*1.
Proof. apply (bool_decide_unpack _). by vm_compute. Qed.

(** What a started process may rely on: a configuration that loads has
    positive Redis timeouts, every floored number at its floor or above and
    otherwise as given, the other numbers untouched; in particular the lock and
    result lifetimes of post creation, the delivery mark's lifetime and the
    retry base are positive, as the theorems on them require. *)
Theorem loaded_settings_bounded `{UnicodeDB} cors proxies hosts raw s :
  load_settings cors proxies hosts raw = Some s ->
  (0 < REDIS_SOCKET_TIMEOUT s /\ 0 < REDIS_SOCKET_CONNECT_TIMEOUT s)%Q /\
  (forall name floor, (name, floor) ∈ MIN_FLOORS -> setting name (s_ints s) = Z.max floor (setting name (s_ints raw))) /\
  (forall name, name ∉ MIN_FLOORS.*1 -> s_ints s !! name = s_ints raw !! name) /\
  0 < IDEMPOTENCY_POST_CREATE_TTL_SECONDS (idempotency_settings s) /\
  0 < IDEMPOTENCY_POST_CREATE_LOCK_TTL_SECONDS (idempotency_settings s) /\
  0 < WORKER_IDEMPOTENCY_TTL_SECONDS (delivery_settings_of s) /\ 0 < ARQ_RETRY_BASE_SECONDS (delivery_settings_of s).
Proof.
  unfold load_settings, positive_timeout. destruct (Qle_bool (REDIS_SOCKET_TIMEOUT raw) 0) eqn:E1; [done|].
  destruct (Qle_bool (REDIS_SOCKET_CONNECT_TIMEOUT raw) 0) eqn:E2; [done|]. cbn [mbind option_bind]. intros [= <-].
  assert (forall q, Qle_bool q 0 = false -> 0 < q)%Q as Hq.
  { intros q Hq. apply Qnot_le_lt. intros Hle%Qle_bool_iff. congruence. }
  assert (forall name floor, (name, floor) ∈ MIN_FLOORS ->
    setting name (clamp_minimums (s_ints raw)) = Z.max floor (setting name (s_ints raw))) as Hin
    by (intros; apply clamp_in; [apply floors_nodup|done]).
  assert (forall name floor, (name, floor) ∈ MIN_FLOORS -> 0 < floor -> 0 < setting name (clamp_minimums (s_ints raw))) as Hpos
    by (intros name floor Hn Hf; rewrite (Hin _ _ Hn); lia).
  cbn [REDIS_SOCKET_TIMEOUT REDIS_SOCKET_CONNECT_TIMEOUT s_ints idempotency_settings delivery_settings_of
       IDEMPOTENCY_POST_CREATE_TTL_SECONDS IDEMPOTENCY_POST_CREATE_LOCK_TTL_SECONDS WORKER_IDEMPOTENCY_TTL_SECONDS ARQ_RETRY_BASE_SECONDS].
  split_and!; [by apply Hq|by apply Hq|done|intros; by apply clamp_other|..].
  - eapply (Hpos _ 60); [|lia]. apply (bool_decide_unpack _). by vm_compute.
  - eapply (Hpos _ 5); [|lia]. apply (bool_decide_unpack _). by vm_compute.
  - eapply (Hpos _ 300); [|lia]. apply (bool_decide_unpack _). by vm_compute.
  - eapply (Hpos _ 1); [|lia]. apply (bool_decide_unpack _). by vm_compute.
Qed.

Lemma sort_names_nil l : sort_names l = [] <-> l = [].
Proof.
  destruct l as [|n l]; [done|]. split; [|done]. cbn [sort_names foldr]. destruct (foldr insert_name [] l) as [|m t]; [done|].
  cbn [insert_name]. by destruct (code_ltb m n).
Qed.
Lemma no_error_cons (b : bool) (e : config_error) l : (if b then [e] else []) ++ l = [] <-> b = false /\ l = [].
Proof. destruct b; [split; [done|intros [??]; done]|]. cbn. tauto. Qed.

Lemma weak_secret_length s : bool_decide (s ∈ JWT_INSECURE_DEFAULTS) || (py_len s <? MIN_JWT_SECRET_LEN) = false <-> MIN_JWT_SECRET_LEN <= py_len s.
Proof.
  rewrite orb_false_iff, bool_decide_eq_false, Z.ltb_ge. split; [tauto|]. intros Hl. split; [|done].
  unfold JWT_INSECURE_DEFAULTS. intros [->|[->|[]%not_elem_of_nil]%elem_of_cons]%elem_of_cons; by vm_compute in Hl.
Qed.

(** What production asks for. *)
Definition production_safe (s : Settings) (environ : list ustr) : Prop :=
  MIN_JWT_SECRET_LEN <= py_len (strip (JWT_SECRET_KEY s)) /\ COOKIE_SECURE s = true /\
  TRUSTED_HOSTS s <> [] /\ lit "*" ∉ TRUSTED_HOSTS s /\ strip (DB_PASSWORD s) <> [] /\
  (forall o, o ∈ CORS_ORIGINS s -> is_infix (lit "localhost") o = false /\ is_infix (lit "127.0.0.1") o = false) /\
  strip (S3_BUCKET_NAME s) <> [] /\ strip (AWS_ACCESS_KEY_ID s) <> [] /\ strip (AWS_SECRET_ACCESS_KEY s) <> [] /\
  TRUST_X_FORWARDED_FOR s = true /\ TRUSTED_PROXY_IPS s <> [] /\
  (forall n, n ∈ environ -> startswith (lit "CELERY_") n = false).

Lemma production_errors_nil s environ : production_errors s environ = [] <-> production_safe s environ.
Proof.
  unfold production_errors. cbv zeta. rewrite <-(app_nil_r (if negb (bool_decide (sort_names _ = [])) then _ else _)).
  rewrite !no_error_cons, weak_secret_length. unfold production_safe, blank.
  rewrite !orb_false_iff, !negb_false_iff, !andb_true_iff, !negb_true_iff, !bool_decide_eq_false, bool_decide_eq_true, sort_names_nil.
  assert (existsb (fun o => is_infix (lit "localhost") o || is_infix (lit "127.0.0.1") o) (CORS_ORIGINS s) = false <->
    (forall o, o ∈ CORS_ORIGINS s -> is_infix (lit "localhost") o = false /\ is_infix (lit "127.0.0.1") o = false)) as ->.
  { rewrite <-not_true_iff_false, existsb_exists. split.
    - intros Hn o Ho. apply orb_false_iff, not_true_iff_false. intros Hb. apply Hn. exists o. by rewrite <-list_elem_of_In.
    - intros Hall (o & Ho & Hb). apply list_elem_of_In, Hall in Ho as [H1 H2]. by rewrite H1, H2 in Hb. }
  assert (List.filter (startswith (lit "CELERY_")) environ = [] <-> (forall n, n ∈ environ -> startswith (lit "CELERY_") n = false)) as ->.
  { clear. induction environ as [|x l IH]; cbn [List.filter]; [split; [by intros _ n ?%not_elem_of_nil|done]|].
    destruct (startswith _ x) eqn:E; [split; [done|]|rewrite IH].
    - intros Hall. specialize (Hall x ltac:(by apply elem_of_cons; left)). congruence.
    - split; [intros Hall n [->|Hn]%elem_of_cons; auto|intros Hall n Hn; apply Hall, elem_of_cons; auto]. }
  tauto.
Qed.

(** The start-up check is exact: outside production it passes; in
    production it passes if and only if the secret is long, the cookie secure,
    the hosts listed without a wildcard, the database password and the storage
    credentials set, no origin local, the proxies trusted and no retired
    variable left; otherwise the start is refused with a non-empty list. *)
Theorem production_start_exact (s : Settings) (environ : list ustr) :
  (validate_settings_for_environment s environ = inr tt <-> (is_production s = true -> production_safe s environ)) /\
  (forall es, validate_settings_for_environment s environ = inl es -> es <> []).
Proof.
  unfold validate_settings_for_environment. pose proof (production_errors_nil s environ) as He.
  destruct (is_production s); cbn [negb].
  - destruct (production_errors s environ) as [|e es].
    + split; [|done]. split; [intros _ _; by apply He|done].
    + split; [|by intros es' [= <-]]. split; [done|]. intros Hs. by apply He in Hs.
  - done.
Qed.

(** ** Witnesses *)

Lemma csv_roundtrip_witness : parse_csv (CsvText (join_csv [lit "a.example"; lit "b"])) = [lit "a.example"; lit "b"].
Proof.
  apply (csv_roundtrip [lit "a.example"; lit "b"] []).
  repeat constructor; try done; apply (bool_decide_unpack _); by vm_compute.
Defined.

Definition demo_raw : Settings :=
  {| s_ints := {[lit "ARQ_RETRY_BASE_SECONDS" := 0]}; ENVIRONMENT := lit " Prod "; CORS_ORIGINS := []; TRUSTED_PROXY_IPS := [];
     TRUSTED_HOSTS := []; JWT_SECRET_KEY := lit "s"; COOKIE_SECURE := true; DB_PASSWORD := lit "p"; TRUST_X_FORWARDED_FOR := true;
     S3_BUCKET_NAME := lit "b"; AWS_ACCESS_KEY_ID := lit "k"; AWS_SECRET_ACCESS_KEY := lit "s"; TOPIC_ARN := []; REDIS_SOCKET_TIMEOUT := 1;
     REDIS_SOCKET_CONNECT_TIMEOUT := 2 |}.

Lemma loaded_settings_bounded_witness : exists s,
  @load_settings ascii_db (CsvText (lit "https://x")) (CsvText []) (CsvList [lit "*"]) demo_raw = Some s /\
  setting (lit "ARQ_RETRY_BASE_SECONDS") (s_ints s) = 1.
Proof.
  destruct (@load_settings ascii_db (CsvText (lit "https://x")) (CsvText []) (CsvList [lit "*"]) demo_raw) as [s|] eqn:E; [|by vm_compute in E].
  exists s. split; [done|]. destruct (@loaded_settings_bounded ascii_db _ _ _ _ _ E) as (_ & Hf & _).
  rewrite (Hf _ 1); [done|]. apply (bool_decide_unpack _). by vm_compute.
Defined.
