(* ===== verification/IpAddr.v ===== *)
(** * Internet addresses and UTF-8 (Python's [ipaddress] and [bytes.decode])

    What [core/middleware/proxy_headers.py] uses of the standard library:
    addresses and networks as text, membership, and the lenient UTF-8 decoder.
    Reading back a printed IPv4 address and the meaning of membership by leading
    bits are proved here and used by [Proxy]. *)

From stdpp Require Import pretty.
From S2P Require Import Prelude Common Json Settings.

(** ** [bytes.decode("utf-8", errors="replace")]

    A maximal ill-formed prefix becomes one U+FFFD.  [pending]: continuation
    bytes still due, the range of the next one, the bits read. *)

Definition REPLACEMENT : Z := 65533.

(** A leading byte: continuation bytes that follow, the range of the first, its bits. *)
Definition utf8_lead (b : Z) : option (nat * Z * Z * Z) :=
  if between 194 223 b then Some (1%nat, 128, 191, b - 192)
  else if b =? 224 then Some (2%nat, 160, 191, 0)
  else if b =? 237 then Some (2%nat, 128, 159, 13)
  else if between 225 239 b then Some (2%nat, 128, 191, b - 224)
  else if b =? 240 then Some (3%nat, 144, 191, 0)
  else if between 241 243 b then Some (3%nat, 128, 191, b - 240)
  else if b =? 244 then Some (3%nat, 128, 143, 4)
  else None.

Definition utf8_first (b : Z) : ustr * option (nat * Z * Z * Z) :=
  if b <? 128 then ([b], None)
  else match utf8_lead b with Some p => ([], Some p) | None => ([REPLACEMENT], None) end.

Fixpoint utf8_go (pending : option (nat * Z * Z * Z)) (s : list Z) : ustr :=
  match s, pending with
  | [], None => []
  | [], Some _ => [REPLACEMENT]
  | b :: s', None => let '(out, p) := utf8_first b in out ++ utf8_go p s'
  | b :: s', Some (due, lo, hi, acc) =>
      if between lo hi b then
        let acc := acc * 64 + (b - 128) in
        match due with
        | S (S k) => utf8_go (Some (S k, 128, 191, acc)) s'
        | _ => acc :: utf8_go None s'
        end
      else let '(out, p) := utf8_first b in REPLACEMENT :: out ++ utf8_go p s'
  end.

Definition utf8_decode (s : list Z) : ustr := utf8_go None s.

(** ** Addresses *)

Inductive ip := IPv4 (n : Z) | IPv6 (n : Z).
#[export] Instance ip_eq_dec : EqDecision ip.
Proof. solve_decision. Defined.

(** [_parse_octet] *)
Definition parse_octet (s : ustr) : option Z :=
  if bool_decide (s = []) || negb (forallb is_digit s) then None
  else if (3 <? length s)%nat then None
  else if negb (bool_decide (s = [48])) && bool_decide (head s = Some 48) then None
  else let n := digits_value s in if 255 <? n then None else Some n.

Definition of_octets (l : list Z) : option Z :=
  match l with
  | [a; b; c; d] => Some (((a * 256 + b) * 256 + c) * 256 + d)
  | _ => None
  end.

Definition ipv4_of_text (s : ustr) : option Z := mapM parse_octet (split_on 46 [] s) ≫= of_octets.

(** [_parse_hextet] *)
Definition parse_hextet (s : ustr) : option Z :=
  if bool_decide (s = []) || (4 <? length s)%nat then None
  else match mapM hex_digit s with Some ds => Some (fold_left (fun n d => n * 16 + d) ds 0) | None => None end.

Definition shift_in (acc : Z) (hs : list Z) : Z := fold_left (fun n h => Z.lor (Z.shiftl n 16) h) hs acc.

(** ['%x' % n] of a 16-bit number; leading zeros do not change what is read. *)
Definition hex16 (n : Z) : ustr :=
  map (fun k => let d := (n / 16 ^ k) mod 16 in if d <? 10 then 48 + d else 87 + d) [3; 2; 1; 0].

(** An IPv4 suffix becomes two groups. *)
Definition expand_ipv4_suffix (parts : list ustr) : option (list ustr) :=
  match last parts with
  | Some l =>
      if bool_decide (46 ∈ l) then
        n ← ipv4_of_text l;
        Some (removelast parts ++ [hex16 (Z.land (Z.shiftr n 16) 65535); hex16 (Z.land n 65535)])
      else Some parts
  | None => None
  end.

(** Positions of empty groups strictly inside: where a [::] is. *)
Definition gaps (parts : list ustr) : list nat :=
  List.filter (fun i => bool_decide (parts !! i = Some [])) (seq 1 (length parts - 2)).

Definition ipv6_groups (parts : list ustr) : option Z :=
  if (9 <? length parts)%nat then None
  else match gaps parts with
       | _ :: _ :: _ => None
       | [k] =>
           let open_ := bool_decide (head parts = Some []) in
           let close_ := bool_decide (last parts = Some []) in
           let hi := if open_ then (k - 1)%nat else k in
           let lo := if close_ then (length parts - k - 2)%nat else (length parts - k - 1)%nat in
           if (open_ && (0 <? hi)%nat) || (close_ && (0 <? lo)%nat) || (8 <? hi + lo + 1)%nat then None
           else
             hs ← mapM parse_hextet (take hi parts);
             ls ← mapM parse_hextet (drop (length parts - lo) parts);
             Some (shift_in (Z.shiftl (shift_in 0 hs) (16 * Z.of_nat (8 - (hi + lo)))) ls)
       | [] =>
           if (length parts =? 8)%nat then hs ← mapM parse_hextet parts; Some (shift_in 0 hs) else None
       end.

(** [_split_scope_id]: the address before [%]. *)
Definition split_scope_id (s : ustr) : option ustr :=
  match split_on 37 [] s with
  | [addr] => Some addr
  | [addr; scope_id] => if bool_decide (scope_id = []) then None else Some addr
  | _ => None
  end.

Definition ipv6_of_text (s : ustr) : option Z :=
  if bool_decide (47 ∈ s) then None
  else
    addr ← split_scope_id s;
    let parts := split_on 58 [] addr in
    if (length parts <? 3)%nat then None else expand_ipv4_suffix parts ≫= ipv6_groups.

(** [ipaddress.ip_address]; [None] is its ValueError. *)
Definition ip_address (s : ustr) : option ip :=
  match ipv4_of_text s with
  | Some n => Some (IPv4 n)
  | None => IPv6 <$> ipv6_of_text s
  end.

(** ** Networks *)

Record network := { net_ip : ip; net_mask : Z }.

Definition all_ones (w : Z) : Z := 2 ^ w - 1.
(** [_ip_int_from_prefix] *)
Definition mask_of (w p : Z) : Z := Z.lxor (all_ones w) (Z.shiftr (all_ones w) p).

(** [_prefix_from_prefix_string] *)
Definition prefix_number (w : Z) (s : ustr) : option Z :=
  if bool_decide (s = []) || negb (forallb is_digit s) then None
  else let p := digits_value s in if p <=? w then Some p else None.

(** [_prefix_from_ip_int]: the length of which this is the netmask. *)
Definition prefix_of_mask (n : Z) : option Z := List.find (fun p => n =? mask_of 32 p) (seqZ 0 33).

(** A dotted netmask, or the complement of one. *)
Definition prefix_from_ip_string (s : ustr) : option Z :=
  n ← ipv4_of_text s;
  match prefix_of_mask n with Some p => Some p | None => prefix_of_mask (Z.lxor n (all_ones 32)) end.

Definition ipv4_prefix (s : ustr) : option Z :=
  match prefix_number 32 s with Some p => Some p | None => prefix_from_ip_string s end.

Definition ipv4_network (addr : ustr) (prefix : option ustr) : option network :=
  n ← ipv4_of_text addr;
  p ← (match prefix with Some s => ipv4_prefix s | None => Some 32 end);
  Some {| net_ip := IPv4 (Z.land n (mask_of 32 p)); net_mask := mask_of 32 p |}.

Definition ipv6_network (addr : ustr) (prefix : option ustr) : option network :=
  n ← ipv6_of_text addr;
  p ← (match prefix with Some s => prefix_number 128 s | None => Some 128 end);
  Some {| net_ip := IPv6 (Z.land n (mask_of 128 p)); net_mask := mask_of 128 p |}.

(** [ipaddress.ip_network(s, strict=False)] *)
Definition ip_network (s : ustr) : option network :=
  let make addr prefix :=
    match ipv4_network addr prefix with Some n => Some n | None => ipv6_network addr prefix end in
  match split_on 47 [] s with
  | [addr] => make addr None
  | [addr; prefix] => make addr (Some prefix)
  | _ => None
  end.

(** [address in network] *)
Definition in_network (a : ip) (net : network) : bool :=
  match a, net_ip net with
  | IPv4 n, IPv4 m | IPv6 n, IPv6 m => Z.land n (net_mask net) =? m
  | _, _ => false
  end.

(** ** Printing IPv4 *)

Definition octet_text (n : Z) : ustr := lit (pretty n).
(** [str(IPv4Address(n))] *)
Definition ipv4_text (n : Z) : ustr :=
  octet_text (Z.shiftr n 24 mod 256) ++ 46 :: octet_text (Z.shiftr n 16 mod 256) ++ 46 ::
  octet_text (Z.shiftr n 8 mod 256) ++ 46 :: octet_text (n mod 256).

(** ** Lemmas: reading back *)

(** Numbers below 256, by enumeration. *)
Definition octet_ok (n : Z) : bool :=
  bool_decide (parse_octet (octet_text n) = Some n) && bool_decide (prefix_number 255 (octet_text n) = Some n) &&
  forallb is_digit (octet_text n).

Lemma octets_ok : forallb octet_ok (seqZ 0 256) = true.
Proof. by vm_compute. Qed.

Lemma octet_read n : 0 <= n < 256 ->
  parse_octet (octet_text n) = Some n /\ forallb is_digit (octet_text n) = true /\
  (forall w, n <= w -> prefix_number w (octet_text n) = Some n).
Proof.
  intros Hn. pose proof octets_ok as H. rewrite forallb_forall in H. specialize (H n).
  assert (List.In n (seqZ 0 256)) as Hin by (apply list_elem_of_In, elem_of_seqZ; lia).
  specialize (H Hin). unfold octet_ok in H. rewrite !andb_true_iff, !bool_decide_eq_true in H.
  destruct H as [[H1 H2] H3]. split_and!; [done|done|]. intros w Hw. unfold prefix_number in *.
  destruct (_ || _); [done|]. cbv zeta in *. destruct (Z.leb_spec (digits_value (octet_text n)) 255); simplify_eq.
  rewrite H2. by rewrite (proj2 (Z.leb_le n w)).
Qed.

Lemma digits_free c s : is_digit c = false -> forallb is_digit s = true -> c ∉ s.
Proof. rewrite forallb_forall. intros Hc Hs Hin%list_elem_of_In. specialize (Hs c Hin). congruence. Qed.

Lemma octet_free c n : is_digit c = false -> 0 <= n < 256 -> c ∉ octet_text n.
Proof. intros Hc Hn. apply digits_free; [done|]. by apply octet_read. Qed.

Lemma octets_value n : 0 <= n < 2 ^ 32 ->
  of_octets [Z.shiftr n 24 mod 256; Z.shiftr n 16 mod 256; Z.shiftr n 8 mod 256; n mod 256] = Some n.
Proof.
  intros Hn. cbn [of_octets]. f_equal. rewrite !Z.shiftr_div_pow2 by lia.
  change (2 ^ 24) with 16777216. change (2 ^ 16) with 65536. change (2 ^ 8) with 256. change (2 ^ 32) with 4294967296 in Hn.
  pose proof (Z.div_mod n 256). pose proof (Z.div_mod (n / 256) 256). pose proof (Z.div_mod (n / 256 / 256) 256).
  rewrite (Z.mod_small (n / 16777216)).
  - rewrite !Z.div_div in * by lia. change (256 * 256) with 65536 in *. change (65536 * 256) with 16777216 in *. lia.
  - split; [apply Z.div_pos; lia|apply Z.div_lt_upper_bound; lia].
Qed.

(** The standard library's text of an IPv4 address denotes it. *)
Lemma ipv4_text_read n : 0 <= n < 2 ^ 32 -> ipv4_of_text (ipv4_text n) = Some n.
Proof.
  intros Hn. unfold ipv4_of_text, ipv4_text.
  assert (forall m, 0 <= m mod 256 < 256) as Hm by (intros; apply Z.mod_pos_bound; lia).
  rewrite !split_on_item by (apply octet_free; done). rewrite split_on_last by (apply octet_free; done).
  cbn [reverse rev_append app]. cbn [mapM]. rewrite !(proj1 (octet_read _ (Hm _))). exact (octets_value n Hn).
Qed.

Lemma ipv4_text_address n : 0 <= n < 2 ^ 32 -> ip_address (ipv4_text n) = Some (IPv4 n).
Proof. intros Hn. unfold ip_address. by rewrite ipv4_text_read. Qed.

Lemma ipv4_text_chars n c : c ∈ ipv4_text n -> is_digit c = true \/ c = 46.
Proof.
  assert (forall m, 0 <= m mod 256 < 256) as Hm by (intros; apply Z.mod_pos_bound; lia).
  assert (forall m, c ∈ octet_text (m mod 256) -> is_digit c = true) as Ho.
  { intros m Hc. destruct (is_digit c) eqn:E; [done|]. by eapply octet_free in Hc. }
  unfold ipv4_text. intros Hc. rewrite !elem_of_app, !elem_of_cons, !elem_of_app, !elem_of_cons in Hc.
  rewrite !elem_of_app, !elem_of_cons in Hc. naive_solver.
Qed.

(** ** Lemmas: membership *)

Lemma mask_bit w p i : 0 <= p <= w -> 0 <= i -> Z.testbit (mask_of w p) i = (w - p <=? i) && (i <? w).
Proof.
  intros Hp Hi. unfold mask_of, all_ones. rewrite Z.lxor_spec, Z.shiftr_spec by done.
  replace (2 ^ w - 1) with (Z.ones w) by (rewrite Z.ones_equiv; lia). rewrite !Z.testbit_ones by lia.
  destruct (Z.leb_spec 0 i), (Z.leb_spec 0 (i + p)), (Z.ltb_spec i w), (Z.ltb_spec (i + p) w), (Z.leb_spec (w - p) i);
    cbn; try done; lia.
Qed.

(** Equal under a netmask is equal leading bits. *)
Lemma mask_equal w p n m : 0 <= p <= w -> 0 <= n < 2 ^ w -> 0 <= m < 2 ^ w ->
  Z.land n (mask_of w p) = Z.land m (mask_of w p) <-> Z.shiftr n (w - p) = Z.shiftr m (w - p).
Proof.
  intros Hp Hn Hm.
  assert (forall x i, 0 <= x < 2 ^ w -> w <= i -> Z.testbit x i = false) as Hhi.
  { intros x i Hx Hi. apply Z.testbit_false; [lia|]. rewrite Z.div_small; [done|].
    split; [lia|]. apply Z.lt_le_trans with (2 ^ w); [lia|]. apply Z.pow_le_mono_r; lia. }
  split; intros E; apply Z.bits_inj'; intros i Hi.
  - rewrite !Z.shiftr_spec by lia. destruct (Z.lt_ge_cases (i + (w - p)) w); [|by rewrite !Hhi by lia].
    apply (f_equal (fun z => Z.testbit z (i + (w - p)))) in E. rewrite !Z.land_spec, mask_bit in E by lia.
    destruct (Z.leb_spec (w - p) (i + (w - p))), (Z.ltb_spec (i + (w - p)) w); try lia. cbn in E.
    by rewrite !andb_true_r in E.
  - rewrite !Z.land_spec, mask_bit by lia. destruct (Z.leb_spec (w - p) i); cbn; [|by rewrite !andb_false_r].
    apply (f_equal (fun z => Z.testbit z (i - (w - p)))) in E. rewrite !Z.shiftr_spec in E by lia.
    replace (i - (w - p) + (w - p)) with i in E by lia. by rewrite E.
Qed.

Definition cidr_text (n p : Z) : ustr := ipv4_text n ++ 47 :: octet_text p.

Lemma cidr_read n p : 0 <= n < 2 ^ 32 -> 0 <= p <= 32 ->
  ip_network (cidr_text n p) = Some {| net_ip := IPv4 (Z.land n (mask_of 32 p)); net_mask := mask_of 32 p |}.
Proof.
  intros Hn Hp. unfold ip_network, cidr_text.
  rewrite split_on_item by (intros [H|H]%ipv4_text_chars; done). rewrite split_on_last by (apply octet_free; [done|lia]).
  cbn [reverse rev_append app]. unfold ipv4_network, ipv4_prefix. rewrite ipv4_text_read by done.
  destruct (octet_read p) as (_ & _ & Hw); [lia|]. rewrite Hw by lia. done.
Qed.

Lemma in_cidr n m p : 0 <= n < 2 ^ 32 -> 0 <= m < 2 ^ 32 -> 0 <= p <= 32 ->
  in_network (IPv4 m) {| net_ip := IPv4 (Z.land n (mask_of 32 p)); net_mask := mask_of 32 p |} = true <->
  Z.shiftr m (32 - p) = Z.shiftr n (32 - p).
Proof. intros. cbn [in_network net_ip net_mask]. rewrite Z.eqb_eq. by apply mask_equal. Qed.

(** ASCII text decodes to itself. *)
Lemma utf8_ascii s : Forall (fun c => 0 <= c < 128) s -> utf8_decode s = s.
Proof.
  unfold utf8_decode. induction 1 as [|c s Hc _ IH]; [done|]. cbn [utf8_go]. unfold utf8_first.
  rewrite (proj2 (Z.ltb_lt c 128)) by lia. cbn [app]. by rewrite IH.
Qed.

(** ** Checked against the standard library *)

Example ip_cases :
  map (fun s => ip_address (lit s))
    ["1.2.3.4"; "01.2.3.4"; "1.2.3"; "1.2.3.256"; "::"; "::1"; "1::"; "1:2:3:4:5:6:7:8"; "1:2:3:4:5:6:7::";
     "::2:3:4:5:6:7:8"; "::ffff:1.2.3.4"; "1::2::3"; ":1::2"; "1:2:3:4:5:6:1.2.3.4"; "fe80::1%eth0"; "fe80::1%";
     "12345::"; ":::"; ""; "1:2:3:4:5:6:7:8:9"; "::1.2.3.4:5"; "1::2:3:4:5:6:7:8"]%string =
  [Some (IPv4 16909060); None; None; None; Some (IPv6 0); Some (IPv6 1); Some (IPv6 5192296858534827628530496329220096);
   Some (IPv6 5192455318486707404433266433261576); Some (IPv6 5192455318486707404433266433261568);
   Some (IPv6 158459951879775902770104041480); Some (IPv6 281470698652420); None; None;
   Some (IPv6 5192455318486707404433266449711876); Some (IPv6 338288524927261089654018896841347694593); None;
   None; None; None; None; None; None].
Proof. by vm_compute. Qed.

Example network_cases :
  map (fun s => (fun n => (net_ip n, net_mask n)) <$> ip_network (lit s))
    ["10.1.2.3/8"; "10.0.0.1"; "10.0.0.0/255.0.0.0"; "10.0.0.0/0.255.255.255"; "1.2.3.4/33"; "1.2.3.4/"; "1.2.3.4/024";
     "fd00::/8"; "fd00::/255.0.0.0"; "1.2.3.4/8/8"; "::/0"; "0.0.0.0/0.0.0.0"; "1.2.3.4/255.0.255.0"; "1.2.3.4/ 8"]%string =
  [Some (IPv4 167772160, 4278190080); Some (IPv4 167772161, 4294967295); Some (IPv4 167772160, 4278190080);
   Some (IPv4 167772160, 4278190080); None; None; Some (IPv4 16909056, 4294967040);
   Some (IPv6 336294682933583715844663186250927177728, 338953138925153547590470800371487866880); None; None;
   Some (IPv6 0, 0); Some (IPv4 0, 0); None; None].
Proof. by vm_compute. Qed.

Example utf8_cases :
  map utf8_decode [[224; 128]; [225; 128]; [240; 144; 128; 97]; [195; 169; 120]; [237; 160; 128]; [241; 128; 128; 225; 128]; [255]] =
  [[65533; 65533]; [65533]; [65533; 97]; [233; 120]; [65533; 65533; 65533]; [65533; 65533]; [65533]].
Proof. by vm_compute. Qed.
