(* ===== verification/Proxy.v ===== *)
(** * Trusted proxies ([core/middleware/proxy_headers.py], [api/dependencies/client.py])

    Which address a request is taken to come from: the peer of the connection,
    or the first entry of [X-Forwarded-For] when the peer is a configured proxy.
    The rate limiter, the access log and view tracking read the result. *)

From stdpp Require Import pretty.
From S2P Require Import Prelude Common Redis RateLimit Json Settings IpAddr.

(** ** Operations *)

Definition parse_trusted_networks (allowed : list ustr) : list network :=
  omap (fun item => let item := strip item in if bool_decide (item = []) then None else ip_network item) allowed.

Definition is_trusted_proxy (direct_client_ip : ustr) (networks : list network) (allow_all : bool) : bool :=
  if allow_all then true
  else match ip_address direct_client_ip with
       | Some client => existsb (in_network client) networks
       | None => false
       end.

(** [bytes.lower] *)
Definition bytes_lower (s : list Z) : list Z := map (fun b => if between 65 90 b then b + 32 else b) s.

Abbreviation headers := (list (list Z * list Z)).

(** The loop over the headers up to its [break]: the text of the first
    non-empty [X-Forwarded-For]. *)
Fixpoint first_forwarded (hs : headers) : option ustr :=
  match hs with
  | [] => None
  | (raw_name, raw_val) :: hs' =>
      if bool_decide (bytes_lower raw_name = lit "x-forwarded-for") && negb (bool_decide (raw_val = []))
      then Some (strip (utf8_decode raw_val))
      else first_forwarded hs'
  end.

(** [forwarded.split(",")[0].strip()] *)
Definition first_item (s : ustr) : ustr := strip (default [] (head (split_on 44 [] s))).

Definition set_client (ip : ustr) (sc : asgi_scope) : asgi_scope :=
  {| sc_type := sc_type sc; sc_path := sc_path sc; sc_method := sc_method sc; sc_client := Some ip |}.

(** The middleware's fields, computed once from the settings. *)
Record proxy_headers := { trusted_networks : list network; px_allow_all : bool }.
Definition new_proxy_headers (s : Settings) : proxy_headers :=
  {| trusted_networks := parse_trusted_networks (TRUSTED_PROXY_IPS s);
     px_allow_all := bool_decide (TRUSTED_PROXY_IPS s = []) |}.

Definition peer_trusted (m : proxy_headers) (sc : asgi_scope) : bool :=
  is_trusted_proxy (default [] (sc_client sc)) (trusted_networks m) (px_allow_all m).

(** The scope the rest of the application sees. *)
Definition proxy_call (s : Settings) (m : proxy_headers) (sc : asgi_scope) (hs : headers) : asgi_scope :=
  match sc_type sc with
  | ScopeOther => sc
  | ScopeHttp =>
      if TRUST_X_FORWARDED_FOR s && peer_trusted m sc then
        match first_forwarded hs with
        | Some forwarded => if bool_decide (forwarded = []) then sc else set_client (first_item forwarded) sc
        | None => sc
        end
      else sc
  end.

(** [get_client_identifier(request)] *)
Definition get_client_identifier (sc : asgi_scope) : ustr := strip (client_ip_from_scope sc (lit "0.0.0.0")).

(** ** Lemmas *)

Lemma trusted_networks_elem allowed net :
  net ∈ parse_trusted_networks allowed <->
  exists item, item ∈ allowed /\ strip item <> [] /\ ip_network (strip item) = Some net.
Proof.
  unfold parse_trusted_networks. rewrite list_elem_of_omap. cbv zeta. split.
  - intros (item & Hin & E). destruct (bool_decide_reflect (strip item = [])); [done|]. eauto.
  - intros (item & Hin & Hne & E). exists item. split; [done|]. by rewrite bool_decide_eq_false_2.
Qed.

Lemma is_trusted_spec direct nets :
  is_trusted_proxy direct nets false = true <->
  exists a net, ip_address direct = Some a /\ net ∈ nets /\ in_network a net = true.
Proof.
  unfold is_trusted_proxy. destruct (ip_address direct) as [a|]; [|naive_solver]. rewrite existsb_exists. split.
  - intros (net & Hin & E). exists a, net. by rewrite list_elem_of_In.
  - intros (a' & net & E & Hin & Hn). simplify_eq. exists net. by rewrite <-list_elem_of_In.
Qed.

Lemma untrusted_unchanged s m sc hs : TRUST_X_FORWARDED_FOR s && peer_trusted m sc = false -> proxy_call s m sc hs = sc.
Proof. intros E. unfold proxy_call. rewrite E. by destruct (sc_type sc). Qed.

Lemma proxy_call_shape s m sc hs : proxy_call s m sc hs = sc \/ exists ip, proxy_call s m sc hs = set_client ip sc.
Proof.
  unfold proxy_call. destruct (sc_type sc); [|by left]. destruct (_ && _); [|by left].
  destruct (first_forwarded hs) as [f|]; [|by left]. destruct (bool_decide (f = [])); eauto.
Qed.

Lemma digit_not_space c : is_digit c = true \/ c = 46 \/ c = 47 -> is_space c = false.
Proof.
  unfold is_digit, is_space, between. intros Hc. rewrite !orb_false_iff, !andb_false_iff, !Z.leb_gt, !Z.eqb_neq.
  rewrite andb_true_iff, !Z.leb_le in Hc. lia.
Qed.

Lemma strip_plain s : (forall c, c ∈ s -> is_digit c = true \/ c = 46 \/ c = 47) -> strip s = s.
Proof. intros H. apply strip_by_none, Forall_forall. intros c Hc. by apply digit_not_space, H. Qed.

Lemma ipv4_text_strip n : strip (ipv4_text n) = ipv4_text n.
Proof. apply strip_plain. intros c Hc%ipv4_text_chars. naive_solver. Qed.

Lemma ipv4_text_nonempty n : ipv4_text n <> [].
Proof. unfold ipv4_text. intros E. apply (f_equal length) in E. rewrite !length_app in E. cbn in E. lia. Qed.

Lemma cidr_text_strip n p : 0 <= p < 256 -> strip (cidr_text n p) = cidr_text n p /\ cidr_text n p <> [].
Proof.
  intros Hp. split.
  - apply strip_plain. intros c [H|[->|H]%elem_of_cons]%elem_of_app; [apply ipv4_text_chars in H; naive_solver|auto|].
    destruct (octet_read p Hp) as (_ & Hd & _). rewrite forallb_forall in Hd. left. apply Hd. by apply list_elem_of_In.
  - unfold cidr_text. pose proof (ipv4_text_nonempty n). by destruct (ipv4_text n).
Qed.

(** The first entry of a forwarded chain that starts with an IPv4 address. *)
Definition chain (first : Z) (rest : option ustr) : ustr :=
  ipv4_text first ++ match rest with Some r => 44 :: r | None => [] end.

Lemma ipv4_text_ascii n : 0 <= n -> Forall (fun c => 0 <= c < 128) (ipv4_text n).
Proof.
  intros Hn. apply Forall_forall. intros c [H| ->]%ipv4_text_chars; [|lia].
  unfold is_digit, between in H. lia.
Qed.

Lemma drop_while_head {A : Type} (p : A -> bool) x l : p x = false -> drop_while p (x :: l) = x :: l.
Proof. intros E. cbn. by rewrite E. Qed.

Lemma strip_prefix x s r : is_space x = false -> exists q, strip ((x :: s) ++ 44 :: r) = (x :: s) ++ 44 :: q.
Proof.
  intros Hx. unfold strip, strip_by, lstrip_by, rstrip_by. cbn [app]. rewrite drop_while_head by done.
  change (x :: s ++ 44 :: r) with ((x :: s) ++ 44 :: r). rewrite reverse_app, reverse_cons.
  assert (exists q, drop_while is_space (reverse r ++ [44]) = q ++ [44]) as [q Hq].
  { generalize (reverse r). intros l. induction l as [|y l [q IH]]; [by exists []|]. cbn [app drop_while].
    destruct (is_space y); [by exists q|]. by exists (y :: l). }
  assert (forall l k, drop_while is_space ((l ++ [44]) ++ k) = drop_while is_space (l ++ [44]) ++ k) as Happ.
  { intros l k. induction l as [|y l IH]; [done|]. cbn [app drop_while]. destruct (is_space y); [exact IH|done]. }
  rewrite Happ, Hq. exists (reverse q). by rewrite !reverse_app, reverse_involutive.
Qed.

(** A chain beginning with an address: that address is what the application sees. *)
Lemma first_item_chain n rest : 0 <= n -> Forall (fun c => 0 <= c < 128) (default [] rest) ->
  exists f, first_forwarded [(lit "X-Forwarded-For", chain n rest)] = Some f /\ f <> [] /\ first_item f = ipv4_text n.
Proof.
  intros Hn Hr. unfold first_forwarded, chain. rewrite bool_decide_eq_true_2 by (by vm_compute).
  assert (44 ∉ ipv4_text n) as Hc by (intros [H|H]%ipv4_text_chars; done).
  assert (Forall (fun c => is_digit c = true \/ c = 46 \/ c = 47) (ipv4_text n)) as Hp
    by (apply Forall_forall; intros c Hin%ipv4_text_chars; naive_solver).
  rewrite bool_decide_eq_false_2 by (pose proof (ipv4_text_nonempty n); by destruct (ipv4_text n)). cbn [andb negb].
  eexists. split; [reflexivity|]. rewrite utf8_ascii.
  2:{ apply Forall_app. split; [by apply ipv4_text_ascii|]. destruct rest; [constructor; [lia|done]|constructor]. }
  pose proof (ipv4_text_strip n) as Hst. pose proof (ipv4_text_nonempty n) as Hne.
  destruct (ipv4_text n) as [|x t] eqn:E; [done|]. apply Forall_cons in Hp as [Hx _].
  unfold first_item. destruct rest as [r|].
  - destruct (strip_prefix x t r (digit_not_space x Hx)) as [q ->]. split; [done|].
    rewrite split_on_item by done. exact Hst.
  - rewrite app_nil_r, Hst. split; [done|]. rewrite split_on_last by done. exact Hst.
Qed.

(** A request whose key has no window is allowed and opens one. *)
Lemma check_fresh_allowed key w m fo s : 1 <= w -> 1 <= m -> quiet (r_sched (rl_redis s)) ->
  r_data (rl_redis s) !! window_key key = None ->
  exists s' e, check_fixed_window true key w m fo s = (inr (true, 0), s') /\ quiet (r_sched (rl_redis s')) /\
    r_data (rl_redis s') = <[window_key key := e]> (r_data (rl_redis s)).
Proof.
  intros Hw Hm Hq Hd. unfold check_fixed_window, try_except, with_redis, check_redis_fixed_window. fold (window_key key).
  destruct (eval_script_cached_quiet FIXED_WINDOW (lua_fixed_window (window_key key) w) (rl_redis s) Hq)
    as (now & r1 & E & Hd1 & _ & _ & Hq1 & _).
  assert (lua_fixed_window (window_key key) w now (r_data (rl_redis s)) =
    (inr (1, w), <[window_key key := {| r_val := RInt 1; r_exp := Some (now + w) |}]> (r_data (rl_redis s)))) as Hl.
  { unfold lua_fixed_window, live. rewrite Hd. destruct (Z.leb_spec w 0); [lia|done]. }
  rewrite Hl in E, Hd1. cbn [fst snd] in E, Hd1.
  unfold mbind, M_bind. rewrite E. rewrite (proj2 (Z.ltb_ge m 1)) by lia. cbn [mret M_ret fst negb when].
  eexists _, _. split; [reflexivity|]. cbn [rl_redis]. split; [done|exact Hd1].
Qed.

(** ** Theorems *)

(** C27. The forwarded address is believed only from a configured proxy: if the
    address a request is attributed to is not its peer's, the request is HTTP,
    forwarding is switched on, and either no proxy list is configured or the
    peer's text is an address inside a network that an entry of the list denotes;
    a process that passed the production check has a list.  From any other peer
    no header can change what the rate limiter does. *)
Theorem forwarded_needs_trusted_peer (s : Settings) (environ : list ustr) (sc : asgi_scope) (hs : headers) :
  let m := new_proxy_headers s in
  (sc_client (proxy_call s m sc hs) <> sc_client sc ->
     sc_type sc = ScopeHttp /\ TRUST_X_FORWARDED_FOR s = true /\
     (TRUSTED_PROXY_IPS s = [] \/
      exists a item net, ip_address (default [] (sc_client sc)) = Some a /\ item ∈ TRUSTED_PROXY_IPS s /\
        ip_network (strip item) = Some net /\ in_network a net = true)) /\
  (is_production s = true -> validate_settings_for_environment s environ = inr tt -> TRUSTED_PROXY_IPS s <> []) /\
  (peer_trusted m sc = false -> forall rl present,
     rate_limit_call rl present (proxy_call s m sc hs) = rate_limit_call rl present sc) /\
  sc_path (proxy_call s m sc hs) = sc_path sc /\ sc_method (proxy_call s m sc hs) = sc_method sc.
Proof.
  intros m. split_and!.
  - unfold proxy_call. destruct (sc_type sc); [|done].
    destruct (TRUST_X_FORWARDED_FOR s) eqn:Et; [|done]. destruct (peer_trusted m sc) eqn:Ep; [|done]. intros _.
    split; [done|]. split; [done|]. unfold peer_trusted, m in Ep. cbn [px_allow_all trusted_networks new_proxy_headers] in Ep.
    destruct (bool_decide_reflect (TRUSTED_PROXY_IPS s = [])); [by left|]. right.
    apply is_trusted_spec in Ep as (a & net & Ha & Hn & Hin). apply trusted_networks_elem in Hn as (item & Hi & _ & E).
    by exists a, item, net.
  - intros Hp. unfold validate_settings_for_environment. rewrite Hp. cbn [negb].
    destruct (production_errors s environ) eqn:E; [|done]. intros _. apply production_errors_nil in E. apply E.
  - intros Hu rl present. rewrite untrusted_unchanged; [done|]. by rewrite Hu, andb_false_r.
  - by destruct (proxy_call_shape s m sc hs) as [->|[ip ->]].
  - by destruct (proxy_call_shape s m sc hs) as [->|[ip ->]].
Qed.

(** CIDR ranges mean what they say: with the proxy list written as
    [address/length] entries, a peer is trusted exactly when its address agrees
    with an entry on that entry's leading bits; and a request a trusted peer
    forwards for a client address is limited under that address, whatever the
    rest of the chain. *)
Theorem trusted_by_leading_bits (s : Settings) (nets : list (Z * Z)) (peer client : Z) (rest : option ustr) (sc : asgi_scope) :
  TRUSTED_PROXY_IPS s = map (fun q => cidr_text q.1 q.2) nets -> nets <> [] ->
  Forall (fun q => 0 <= q.1 < 2 ^ 32 /\ 0 <= q.2 <= 32) nets -> 0 <= peer < 2 ^ 32 -> 0 <= client < 2 ^ 32 ->
  Forall (fun c => 0 <= c < 128) (default [] rest) ->
  sc_type sc = ScopeHttp -> sc_client sc = Some (ipv4_text peer) -> TRUST_X_FORWARDED_FOR s = true ->
  let m := new_proxy_headers s in
  (peer_trusted m sc = true <-> exists n p, (n, p) ∈ nets /\ Z.shiftr peer (32 - p) = Z.shiftr n (32 - p)) /\
  (peer_trusted m sc = true -> forall dflt,
     client_ip_from_scope (proxy_call s m sc [(lit "X-Forwarded-For", chain client rest)]) dflt = ipv4_text client).
Proof.
  intros Hl Hne HF Hp Hc Hr Ht Hs Hx m. rewrite Forall_forall in HF. split.
  - unfold peer_trusted, m. cbn [px_allow_all trusted_networks new_proxy_headers]. rewrite Hs.
    change (default [] (Some (ipv4_text peer))) with (ipv4_text peer).
    rewrite bool_decide_eq_false_2 by (rewrite Hl; by destruct nets). rewrite is_trusted_spec, ipv4_text_address by done. split.
    + intros (a & net & [= <-] & (item & Hi & _ & E)%trusted_networks_elem & Hin). rewrite Hl in Hi.
      apply list_elem_of_In, in_map_iff in Hi as ([n p] & <- & Hq%list_elem_of_In). cbn [fst snd] in *.
      destruct (HF _ Hq) as [Hn Hpp]. cbn [fst snd] in *. rewrite (proj1 (cidr_text_strip n p ltac:(lia))), cidr_read in E by done. simplify_eq.
      exists n, p. split; [done|]. by apply in_cidr in Hin.
    + intros (n & p & Hq & E). destruct (HF _ Hq) as [Hn Hpp]. cbn [fst snd] in *.
      exists (IPv4 peer). eexists. split; [done|]. split; [|by apply in_cidr; eauto].
      apply trusted_networks_elem. exists (cidr_text n p). destruct (cidr_text_strip n p) as [-> Hne']; [lia|].
      split; [|split; [done|by apply cidr_read]]. rewrite Hl. apply list_elem_of_In, in_map_iff.
      exists (n, p). split; [done|]. by apply list_elem_of_In.
  - intros Htr dflt. unfold proxy_call. rewrite Ht, Hx, Htr. cbn [andb].
    destruct (first_item_chain client rest) as (f & -> & Hf & Hi); [lia|done|]. rewrite bool_decide_eq_false_2 by done.
    unfold client_ip_from_scope. cbn [sc_client set_client]. rewrite Hi, decide_False by apply ipv4_text_nonempty. done.
Qed.

(** A proxy that appends to the header it receives (nginx's
    [$proxy_add_x_forwarded_for], a load balancer's default) hands over the
    client's own text first. *)
Definition appended (claimed client : Z) : ustr := chain claimed (Some (32 :: ipv4_text client)).

Fixpoint forged_requests (s : Settings) (rl : rl_settings) (sc : asgi_scope) (client : Z) (claims : list Z) : M rl_state (list outcome) :=
  match claims with
  | [] => mret []
  | c :: claims' =>
      o ← rate_limit_call rl true
            (proxy_call s (new_proxy_headers s) sc [(lit "X-Forwarded-For", appended c client)]);
      os ← forged_requests s rl sc client claims';
      mret (o :: os)
  end.

Lemma window_key_inj a b : window_key a = window_key b -> a = b.
Proof. unfold window_key. intros E. by do 2 apply (app_inv_head _) in E. Qed.

(** Behind a trusted proxy that appends, the limit does not bind: a
    client that claims a new address with each request is forwarded every time,
    however small the limit, on a reachable Redis. *)
Theorem forged_chain_is_unlimited (s : Settings) (rl : rl_settings) (sc : asgi_scope) (client : Z) (claims : list Z) p st :
  TRUST_X_FORWARDED_FOR s = true -> sc_type sc = ScopeHttp -> peer_trusted (new_proxy_headers s) sc = true ->
  resolve_policy rl (sc_path sc) = Some p -> 1 <= (limits p).1 -> 1 <= (limits p).2 ->
  NoDup (ipv4_text <$> claims) -> Forall (fun c => 0 <= c < 2 ^ 32) claims -> 0 <= client < 2 ^ 32 ->
  quiet (r_sched (rl_redis st)) ->
  (forall c, c ∈ claims -> r_data (rl_redis st) !! window_key (key_prefix p ++ lit ":" ++ ipv4_text c) = None) ->
  exists st', forged_requests s rl sc client claims st = (inr (replicate (length claims) Forward), st').
Proof.
  intros Hx Ht Htr Hp Hw Hm Hnd HF Hcl. revert st. induction claims as [|c claims IH]; intros st Hq Hfree; [by exists st|].
  apply Forall_cons in HF as [Hc HF]. rewrite fmap_cons in Hnd. apply NoDup_cons in Hnd as [Hnin Hnd].
  cbn [forged_requests length replicate].
  destruct (first_item_chain c (Some (32 :: ipv4_text client))) as (f & Ef & Hf & Hi);
    [lia|cbn [default]; constructor; [lia|by apply ipv4_text_ascii; lia]|].
  assert (proxy_call s (new_proxy_headers s) sc [(lit "X-Forwarded-For", appended c client)] = set_client (ipv4_text c) sc) as ->.
  { unfold proxy_call. rewrite Ht, Hx, Htr. cbn [andb]. unfold appended. rewrite Ef, bool_decide_eq_false_2 by done. by rewrite Hi. }
  assert (exists st1, rate_limit_call rl true (set_client (ipv4_text c) sc) st = (inr Forward, st1) /\
    quiet (r_sched (rl_redis st1)) /\
    forall d, d ∈ claims -> r_data (rl_redis st1) !! window_key (key_prefix p ++ lit ":" ++ ipv4_text d) = None)
    as (st1 & E1 & Hq1 & Hf1).
  { unfold rate_limit_call, client_ip_from_scope. cbn [sc_type sc_method sc_path sc_client set_client]. rewrite Ht.
    destruct (_ || _). { exists st. split; [done|]. split; [done|]. intros d Hd. apply Hfree. by apply list_elem_of_further. }
    rewrite Hp, decide_False by apply ipv4_text_nonempty. destruct (limits p) as [w mx]. cbn [fst snd] in *.
    destruct (check_fresh_allowed (key_prefix p ++ lit ":" ++ ipv4_text c) w mx (policy_fail_open p) st Hw Hm Hq)
      as (s' & e & E & Hq' & Hd'); [apply Hfree, list_elem_of_here|].
    unfold mbind, M_bind. rewrite E. exists s'. split; [done|]. split; [done|]. intros d Hd. rewrite Hd'.
    rewrite lookup_insert_ne; [apply Hfree; by apply list_elem_of_further|].
    intros K%window_key_inj. do 2 apply (app_inv_head _) in K. destruct Hnin. rewrite K. by apply list_elem_of_fmap_2. }
  destruct (IH Hnd HF st1 Hq1 Hf1) as [st' E2]. exists st'. unfold mbind at 1, M_bind at 1. rewrite E1.
  unfold mbind at 1, M_bind at 1. by rewrite E2.
Qed.

(** ** Witnesses *)

Definition proxied_settings (proxies : list ustr) : Settings :=
  {| s_ints := ∅; ENVIRONMENT := lit "development"; CORS_ORIGINS := []; TRUSTED_PROXY_IPS := proxies; TRUSTED_HOSTS := [];
     JWT_SECRET_KEY := []; COOKIE_SECURE := false; DB_PASSWORD := []; TRUST_X_FORWARDED_FOR := true;
     S3_BUCKET_NAME := []; AWS_ACCESS_KEY_ID := []; AWS_SECRET_ACCESS_KEY := []; TOPIC_ARN := [];
     REDIS_SOCKET_TIMEOUT := QArith_base.Qmake 1 1; REDIS_SOCKET_CONNECT_TIMEOUT := QArith_base.Qmake 1 1 |}.

Definition from_peer (peer : Z) : asgi_scope :=
  {| sc_type := ScopeHttp; sc_path := lit "/v1/posts"; sc_method := lit "GET"; sc_client := Some (ipv4_text peer) |}.

(** 10.0.0.5 forwards for 198.51.100.7. *)
Lemma forwarded_needs_trusted_peer_witness :
  exists a net, ip_address (ipv4_text 167772165) = Some a /\ ip_network (lit "10.0.0.0/8") = Some net /\ in_network a net = true.
Proof.
  destruct (forwarded_needs_trusted_peer (proxied_settings [lit "10.0.0.0/8"]) [] (from_peer 167772165)
    [(lit "x-forwarded-for", lit "198.51.100.7, 10.0.0.9")]) as (H & _).
  destruct H as (_ & _ & [H|(a & item & net & Ha & Hi & Hn & Hin)]).
  - vm_compute. discriminate.
  - discriminate.
  - exists a, net. apply list_elem_of_singleton in Hi. rewrite Hi in Hn. split; [exact Ha|]. split; [exact Hn|exact Hin].
Defined.

Lemma trusted_by_leading_bits_witness :
  peer_trusted (new_proxy_headers (proxied_settings [cidr_text 167772160 8])) (from_peer 167772165) = true /\
  client_ip_from_scope (proxy_call (proxied_settings [cidr_text 167772160 8]) (new_proxy_headers (proxied_settings [cidr_text 167772160 8]))
    (from_peer 167772165) [(lit "X-Forwarded-For", chain 3325256711 None)]) [] = ipv4_text 3325256711.
Proof.
  destruct (trusted_by_leading_bits (proxied_settings [cidr_text 167772160 8]) [(167772160, 8)] 167772165 3325256711 None
    (from_peer 167772165)) as [H1 H2].
  - reflexivity.
  - discriminate.
  - repeat constructor; cbn; lia.
  - lia.
  - lia.
  - constructor.
  - reflexivity.
  - reflexivity.
  - reflexivity.
  - assert (peer_trusted (new_proxy_headers (proxied_settings [cidr_text 167772160 8])) (from_peer 167772165) = true) as Ht.
    { apply H1. exists 167772160, 8. split; [apply list_elem_of_here|reflexivity]. }
    split; [exact Ht|]. apply H2. exact Ht.
Defined.

Lemma forged_chain_is_unlimited_witness :
  exists st', forged_requests (proxied_settings [cidr_text 167772160 8]) demo_settings (from_peer 167772165) 3325256711 [1; 2; 3] demo_rl
    = (inr [Forward; Forward; Forward], st').
Proof.
  apply (forged_chain_is_unlimited (proxied_settings [cidr_text 167772160 8]) demo_settings (from_peer 167772165) 3325256711 [1; 2; 3]
    {| matches := fun _ => true; key_prefix := lit "global"; policy_code := RATE_LIMIT_EXCEEDED; policy_fail_open := true; limits := (60, 100) |}).
  - reflexivity.
  - reflexivity.
  - vm_compute. reflexivity.
  - reflexivity.
  - cbn. lia.
  - cbn. lia.
  - apply (bool_decide_unpack _). vm_compute. exact I.
  - repeat constructor; lia.
  - lia.
  - constructor.
  - intros c _. reflexivity.
Defined.
