(* ===== verification/Responses.v ===== *)
(** * Response bodies ([common/responses.py], [core/exception_handlers.py],
    [common/schemas.py], [core/openapi_camel.py], author display in
    [domain/users/schema.py], [domain/posts/schemas/post_schema.py])

    What a client reads: the envelope of every answer, the error surface with its
    texts (a refinement of [Common.handle_exception]), the names of fields, and
    how an author is shown. *)

From stdpp Require Import pretty.
From S2P Require Import Prelude Ids Common Redis Db World Json IpAddr Media Users Auth.

(** Source text outside ASCII, from its UTF-8 bytes. *)
Definition text (s : string) : ustr := utf8_decode (lit s).

(** ** Codes *)

(** [ApiCode.__members__]; every value equals its name. *)
Definition API_CODES : list ustr := map lit
  ["OK"; "SIGNUP_SUCCESS"; "LOGIN_SUCCESS"; "LOGOUT_SUCCESS"; "AUTH_SUCCESS"; "EMAIL_ALREADY_EXISTS";
   "NICKNAME_ALREADY_EXISTS"; "INVALID_CREDENTIALS"; "UNAUTHORIZED"; "TOKEN_EXPIRED"; "USER_NOT_FOUND"; "USER_WITHDRAWN";
   "DOG_UPDATED"; "INTERNAL_SERVER_ERROR"; "POST_NOT_FOUND"; "POST_FILE_LIMIT_EXCEEDED"; "POST_HASHTAG_LIMIT_EXCEEDED";
   "LIKE_NOT_FOUND"; "ALREADY_LIKED"; "CONFLICT"; "FORBIDDEN"; "COMMENT_NOT_FOUND"; "INVALID_POSTID_FORMAT"; "DM_SAME_USER";
   "INVALID_REQUEST"; "INVALID_REQUEST_BODY"; "INVALID_PASSWORD_FORMAT"; "MISSING_REQUIRED_FIELD"; "INVALID_FILE_FORMAT";
   "INVALID_FILE_TYPE"; "IMAGE_NOT_FOUND"; "INVALID_IMAGE_FILE"; "SIGNUP_IMAGE_TOKEN_INVALID";
   "SIGNUP_IMAGE_TOKEN_ALREADY_USED"; "NOT_FOUND"; "METHOD_NOT_ALLOWED"; "UNPROCESSABLE_ENTITY"; "RATE_LIMIT_EXCEEDED";
   "LOGIN_RATE_LIMIT_EXCEEDED"; "CONSTRAINT_ERROR"; "DB_ERROR"; "HTTP_ERROR"; "ALREADY_REPORTED"]%string.

Definition code_value (c : ApiCode) : ustr :=
  lit match c with
  | POST_NOT_FOUND => "POST_NOT_FOUND" | CONFLICT => "CONFLICT" | USER_NOT_FOUND => "USER_NOT_FOUND"
  | USER_WITHDRAWN => "USER_WITHDRAWN" | EMAIL_ALREADY_EXISTS => "EMAIL_ALREADY_EXISTS"
  | NICKNAME_ALREADY_EXISTS => "NICKNAME_ALREADY_EXISTS" | MISSING_REQUIRED_FIELD => "MISSING_REQUIRED_FIELD"
  | SIGNUP_IMAGE_TOKEN_INVALID => "SIGNUP_IMAGE_TOKEN_INVALID" | INVALID_CREDENTIALS => "INVALID_CREDENTIALS"
  | UNAUTHORIZED => "UNAUTHORIZED" | FORBIDDEN => "FORBIDDEN" | DM_SAME_USER => "DM_SAME_USER"
  | COMMENT_NOT_FOUND => "COMMENT_NOT_FOUND" | INVALID_POSTID_FORMAT => "INVALID_POSTID_FORMAT"
  | IMAGE_NOT_FOUND => "IMAGE_NOT_FOUND" | INVALID_IMAGE_FILE => "INVALID_IMAGE_FILE"
  | INVALID_FILE_TYPE => "INVALID_FILE_TYPE" | INTERNAL_SERVER_ERROR => "INTERNAL_SERVER_ERROR"
  | INVALID_REQUEST => "INVALID_REQUEST" | RATE_LIMIT_EXCEEDED => "RATE_LIMIT_EXCEEDED"
  | LOGIN_RATE_LIMIT_EXCEEDED => "LOGIN_RATE_LIMIT_EXCEEDED" | NOT_FOUND => "NOT_FOUND"
  | CONSTRAINT_ERROR => "CONSTRAINT_ERROR" | DB_ERROR => "DB_ERROR"
  end%string.

(** ** Envelopes *)

(** [request.state.request_id], when set to text. *)
Definition get_request_id (rid : option ustr) : ustr := default [] rid.

Definition error_body (code message : ustr) (data : json) (request_id : ustr) : json :=
  JObj [(lit "code", JStr code); (lit "message", JStr message); (lit "data", data); (lit "requestId", JStr request_id)].

(** [(data, Retry-After header)] *)
Definition retry_after_fields (seconds : Z) : json * ustr :=
  (JObj [(lit "retry_after_seconds", JInt seconds)], lit (pretty seconds)).

Record http_response := { rs_status : Z; rs_headers : list (ustr * ustr); rs_body : json }.

Section Camel.
(** The title case of a code point outside ASCII. *)
Context `{UnicodeDB} (u_title : Z -> ustr).

(** [str.capitalize] *)
Definition title_cp (c : Z) : ustr := if c <? 128 then (if between 97 122 c then [c - 32] else [c]) else u_title c.
Definition capitalize (s : ustr) : ustr := match s with [] => [] | c :: s' => title_cp c ++ lower s' end.

Definition split_underscore (s : ustr) : list ustr := Settings.split_on 95 [] s.

Definition to_camel (name : ustr) : ustr :=
  match split_underscore name with
  | [] => []
  | p :: ps => lower p ++ flat_map capitalize ps
  end.

(** [api_response(...)] dumped by alias. *)
Definition api_response (code : ustr) (data : json) (message : option ustr) (rid : option ustr) : json :=
  JObj [(to_camel (lit "code"), JStr code); (to_camel (lit "data"), data);
        (to_camel (lit "message"), match message with Some m => JStr m | None => JNull end);
        (to_camel (lit "request_id"), JStr (get_request_id rid))].

(** ** OpenAPI *)

Definition camel_key (name : ustr) : ustr := if bool_decide (95 ∈ name) then to_camel name else name.

Definition camel_item (v : json) : json := match v with JStr s => JStr (camel_key s) | v => v end.

(** A dict comprehension: a later equal key replaces the value. *)
Definition from_items {V} (l : list (ustr * V)) : list (ustr * V) := fold_left (fun d p => dict_set p.1 p.2 d) l [].

Fixpoint convert_schema_object (obj : json) : json :=
  match obj with
  | JArr l => JArr (map convert_schema_object l)
  | JObj kvs =>
      if bool_decide (lit "$ref" ∈ kvs.*1) then obj
      else JObj (map (fun p =>
             (p.1, if bool_decide (p.1 = lit "required") then
                     match p.2 with JArr l => JArr (map camel_item l) | _ => convert_schema_object p.2 end
                   else if bool_decide (p.1 = lit "properties") then
                     match p.2 with
                     | JObj ps => JObj (from_items (map (fun q => (camel_key q.1, convert_schema_object q.2)) ps))
                     | _ => convert_schema_object p.2
                     end
                   else convert_schema_object p.2)) kvs)
  | v => v
  end.

(** [d.get(k)] of a JSON object. *)
Definition json_get (k : ustr) (v : json) : option json := match v with JObj kvs => dict_get k kvs | _ => None end.

Definition openapi_schema_to_camel (schema : list (ustr * json)) : list (ustr * json) :=
  match dict_get (lit "components") schema with
  | Some (JObj components) =>
      match dict_get (lit "schemas") components with
      | Some (JObj ((_ :: _) as schemas)) =>
          dict_set (lit "components")
            (JObj (dict_set (lit "schemas") (JObj (map (fun p => (p.1, convert_schema_object p.2)) schemas)) components)) schema
      | _ => schema
      end
  | _ => schema
  end.
End Camel.

(** ** The error surface *)

(** What reaches the handlers: a project exception with its message, data and
    headers; the framework's request-validation and HTTP errors; the driver's. *)
Inductive raised :=
  | RProject (cls : exn) (message : option ustr) (data : json) (headers : list (ustr * ustr))
  | RValidation (errors : list (option ustr))   (** the [msg] of each error *)
  | RHttp (status : Z) (detail : option ustr) (headers : list (ustr * ustr))
  | RIntegrity (sqlstate constraint : option ustr)
  | RDatabase
  | ROther.

Definition default_message (cls : exn) : option ustr :=
  match cls with
  | ConcurrentUpdateException => Some (text "데이터가 다른 요청에 의해 변경되어 완료할 수 없습니다.")
  | UserWithdrawnException => Some (text "탈퇴한 유저입니다.")
  | InvalidCredentialsException => Some (text "이메일 또는 비밀번호가 일치하지 않습니다")
  | SelfDmException => Some (text "자기 자신과는 채팅할 수 없습니다.")
  | _ => None
  end.

(** [message or self.default_message] *)
Definition project_message (cls : exn) (message : option ustr) : option ustr :=
  match message with Some (c :: m) => Some (c :: m) | _ => default_message cls end.

(** [TooManyRequestsException(retry_after_seconds=n)] *)
Definition too_many_requests (seconds : Z) : raised :=
  let '(data, header) := retry_after_fields seconds in
  RProject TooManyRequestsException None data [(lit "Retry-After", header)].

Definition VALUE_ERROR : ustr := lit "Value error, ".
Definition removeprefix (p s : ustr) : ustr := if startswith p s then drop (length p) s else s.

Fixpoint pick_validation_error (first_msg : ustr) (errors : list (option ustr)) : ustr * ustr :=
  match errors with
  | [] => (lit "INVALID_REQUEST_BODY", first_msg)
  | None :: errors' => pick_validation_error first_msg errors'
  | Some msg :: errors' =>
      let first_msg := if bool_decide (first_msg = []) then msg else first_msg in
      let name := removeprefix VALUE_ERROR msg in
      if bool_decide (name ∈ API_CODES) then (name, msg) else pick_validation_error first_msg errors'
  end.

Definition HTTP_STATUS_TO_CODE : list (Z * ustr) :=
  [(400, lit "INVALID_REQUEST"); (401, lit "UNAUTHORIZED"); (403, lit "FORBIDDEN"); (404, lit "NOT_FOUND");
   (405, lit "METHOD_NOT_ALLOWED"); (409, lit "CONFLICT"); (422, lit "UNPROCESSABLE_ENTITY");
   (429, lit "RATE_LIMIT_EXCEEDED"); (500, lit "INTERNAL_SERVER_ERROR")].

Definition MASKED_500_MESSAGE : ustr := lit "Internal Server Error".

Section Handlers.
Context `{UnicodeDB} (rid : option ustr).

Definition error_payload (code message : ustr) (data : json) : json := error_body code message data (get_request_id rid).

Definition masked_500_response (code : ustr) (status_code : Z) : http_response :=
  {| rs_status := status_code; rs_headers := []; rs_body := error_payload code MASKED_500_MESSAGE JNull |}.

Definition plain_response (status_code : Z) (code : ustr) : http_response :=
  {| rs_status := status_code; rs_headers := []; rs_body := error_payload code [] JNull |}.

(** [register_exception_handlers]: the handler of each class. *)
Definition handle_raised (r : raised) : http_response :=
  match r with
  | RValidation errors =>
      let '(code, message) := pick_validation_error [] errors in
      {| rs_status := 400; rs_headers := []; rs_body := error_payload code message JNull |}
  | RHttp status_code detail headers =>
      {| rs_status := status_code; rs_headers := headers;
         rs_body := error_payload (default (lit "HTTP_ERROR") (dict_get status_code HTTP_STATUS_TO_CODE)) (default [] detail) JNull |}
  | RIntegrity sqlstate constraint =>
      let constraint := lower (default [] constraint) in
      if bool_decide (sqlstate = Some (lit "23505")) then plain_response 409 (code_value (unique_constraint_code constraint))
      else if bool_decide (sqlstate = Some (lit "23503")) then plain_response 409 (code_value CONSTRAINT_ERROR)
      else plain_response 400 (code_value INVALID_REQUEST)
  | RDatabase => masked_500_response (code_value DB_ERROR) 500
  | RProject cls message data headers =>
      match project_class cls with
      | Some (status_code, code) =>
          if 500 <=? status_code then masked_500_response (code_value code) status_code
          else {| rs_status := status_code; rs_headers := headers;
                  rs_body := error_payload (code_value code) (default [] (project_message cls message)) data |}
      | None => masked_500_response (code_value INTERNAL_SERVER_ERROR) 500
      end
  | ROther => masked_500_response (code_value INTERNAL_SERVER_ERROR) 500
  end.

(** The exception of the services' monad that a raised value is; the framework's
    own two have none. *)
Definition exn_of (r : raised) : option exn :=
  match r with
  | RProject cls _ _ _ => match project_class cls with Some _ => Some cls | None => None end
  | RIntegrity sqlstate constraint =>
      Some (if bool_decide (sqlstate = Some (lit "23505")) then UniqueViolation (lower (default [] constraint))
            else if bool_decide (sqlstate = Some (lit "23503")) then ForeignKeyViolation else CheckViolation)
  | RDatabase => Some DatabaseError
  | ROther => Some PyValueError
  | RValidation _ | RHttp _ _ _ => None
  end.
End Handlers.

(** ** Authors *)

Record RepresentativeDogInfo := { rd_name : ustr; rd_breed : ustr; rd_gender : ustr; rd_birth_date : Z }.

Record AuthorInfo := {
  ai_id : Z; ai_nickname : ustr; ai_profile_image_id : option Z; ai_profile_image_url : option ustr;
  ai_representative_dog : option RepresentativeDogInfo;
}.

Definition ANONYMOUS : ustr := text "알수없음".

Section Author.
Context (cfg : storage_settings).

(** [User.profile_image_url]; [None] outside is [build_url]'s ValueError. *)
Definition profile_image_url (u : User) (d : db) : option (option ustr) :=
  match user_profile_image_id u ≫= (fun i => images d !! i) with
  | Some img => Some <$> build_url cfg (file_key img)
  | None => Some None
  end.

(** The [User.representative_dog] relationship. *)
Definition representative_dog (k : Z) (d : db) : option RepresentativeDogInfo :=
  (fun p : Z * DogProfile => {| rd_name := dog_name p.2; rd_breed := breed p.2; rd_gender := gender p.2; rd_birth_date := birth_date p.2 |}) <$>
  head (select_where (fun (_ : Z) (g : DogProfile) => bool_decide (owner_id g = k) && is_representative g) d).

(** [AuthorInfo.model_validate(user)] through [anonymize_inactive]. *)
Definition author_info (k : Z) (u : User) (d : db) : option AuthorInfo :=
  if negb (is_active_value (status_str (status u))) then
    Some {| ai_id := k; ai_nickname := ANONYMOUS; ai_profile_image_id := None; ai_profile_image_url := None; ai_representative_dog := None |}
  else
    url ← profile_image_url u d;
    Some {| ai_id := k; ai_nickname := nickname u; ai_profile_image_id := user_profile_image_id u; ai_profile_image_url := url;
            ai_representative_dog := representative_dog k d |}.

(** [Post.user] or [Comment.author] with [author_display_loads], then the schema;
    a row whose author was purged has none. *)
Definition author_of (user : option Z) (d : db) : option (option AuthorInfo) :=
  match user ≫= (fun k => (fun u => (k, u)) <$> users d !! k) with
  | Some (k, u) => Some <$> author_info k u d
  | None => Some None
  end.
End Author.

(** [PostResponse.is_edited] *)
Definition is_edited (p : Post) : bool := 1 <? version p.

(** ** Lemmas *)

Lemma json_get_body code message data rid k :
  json_get k (error_body code message data rid) =
  if decide (k = lit "code") then Some (JStr code) else if decide (k = lit "message") then Some (JStr message)
  else if decide (k = lit "data") then Some data else if decide (k = lit "requestId") then Some (JStr rid) else None.
Proof. reflexivity. Qed.

Lemma code_value_known c : code_value c ∈ API_CODES.
Proof. apply (bool_decide_unpack _). by destruct c; vm_compute. Qed.

Lemma handle_project `{UnicodeDB} rid cls message data headers st code : project_class cls = Some (st, code) ->
  handle_raised rid (RProject cls message data headers) =
  if 500 <=? st then masked_500_response rid (code_value code) st
  else {| rs_status := st; rs_headers := headers;
          rs_body := error_payload rid (code_value code) (default [] (project_message cls message)) data |}.
Proof. intros E. cbn [handle_raised]. by rewrite E. Qed.

(** The picked pair comes from one error: the first that names a code. *)
Lemma pick_validation_spec (errors : list (option ustr)) (first : ustr) :
  (exists pre msg post, errors = pre ++ Some msg :: post /\ removeprefix VALUE_ERROR msg ∈ API_CODES /\
     (forall m, Some m ∈ pre -> removeprefix VALUE_ERROR m ∉ API_CODES) /\
     pick_validation_error first errors = (removeprefix VALUE_ERROR msg, msg)) \/
  ((forall m, Some m ∈ errors -> removeprefix VALUE_ERROR m ∉ API_CODES) /\
   exists msg, pick_validation_error first errors = (lit "INVALID_REQUEST_BODY", msg) /\ (msg = first \/ Some msg ∈ errors)).
Proof.
  revert first. induction errors as [|[msg|] errors IH]; intros first; cbn [pick_validation_error].
  - right. split; [set_solver|]. exists first. auto.
  - cbv zeta. case_bool_decide as Hin.
    + left. exists [], msg, errors. split_and!; try done. set_solver.
    + set (first' := if bool_decide (first = []) then msg else first).
      assert (first' = msg \/ first' = first) as Hf by (unfold first'; case_bool_decide; auto).
      destruct (IH first') as [(pre & m & post & -> & Hm & Hpre & E)|(Hall & m & E & Hm)].
      * left. exists (Some msg :: pre), m, post. split_and!; try done. intros x [[= ->]|Hx]%elem_of_cons; auto.
      * right. split; [intros x [[= ->]|Hx]%elem_of_cons; auto|]. exists m. split; [done|].
        rewrite elem_of_cons. destruct Hm as [->|]; [destruct Hf as [-> | ->]; auto|auto].
  - destruct (IH first) as [(pre & m & post & -> & Hm & Hpre & E)|(Hall & m & E & Hm)].
    + left. exists (None :: pre), m, post. split_and!; try done. intros x [?|Hx]%elem_of_cons; [done|auto].
    + right. split; [intros x [?|Hx]%elem_of_cons; [done|auto]|]. exists m. split; [done|]. rewrite elem_of_cons. tauto.
Qed.

(** A suspended or withdrawn row, whatever it holds. *)
Definition anonymous (k : Z) : AuthorInfo :=
  {| ai_id := k; ai_nickname := ANONYMOUS; ai_profile_image_id := None; ai_profile_image_url := None; ai_representative_dog := None |}.

Lemma inactive_author cfg k u d : status u <> ACTIVE -> author_info cfg k u d = Some (anonymous k).
Proof. intros Hs. unfold author_info, is_active_value. rewrite bool_decide_eq_false_2; [done|]. by destruct (status u). Qed.

Lemma active_author cfg k u d : status u = ACTIVE ->
  author_info cfg k u d = (url ← profile_image_url cfg u d;
    Some {| ai_id := k; ai_nickname := nickname u; ai_profile_image_id := user_profile_image_id u; ai_profile_image_url := url;
            ai_representative_dog := representative_dog k d |}).
Proof. intros Hs. unfold author_info, is_active_value. by rewrite Hs. Qed.

Lemma author_of_row cfg k u d : users d !! k = Some u -> author_of cfg (Some k) d = Some <$> author_info cfg k u d.
Proof. intros E. unfold author_of. cbn [mbind option_bind]. by rewrite E. Qed.

Lemma withdrawn_row now k d d' : delete_user now k d = (inr tt, d') -> exists u', users d' !! k = Some u' /\ status u' = WITHDRAWN /\ user_deleted_at u' <> None.
Proof.
  intros E. unfold delete_user, begin_tx, delete_user_row, get, update_live_user in E. unfold mbind, M_bind in E.
  destruct (get_user_by_id k d) as [u|] eqn:Eg; [|done]. cbv beta iota zeta in E. rewrite Eg in E.
  pose proof Eg as Eg'. unfold get_user_by_id in Eg'. destruct (users d !! k) as [u0|] eqn:Eu; [|done].
  cbn [mbind option_bind] in Eg'. destruct (decide (user_deleted_at u0 = None)) as [Hd|]; [|done]. injection Eg' as ->.
  rewrite ?Eu, ?decide_True in E by done. match type of E with context [unique_error k ?u' d] => set (u1 := u') in E; destruct (unique_error k u1 d) end; [done|].
  injection E as <-. exists u1. split; [apply lookup_insert_eq|]. by split.
Qed.

(** What becomes of one entry of a schema object. *)
Definition convert_field `{UnicodeDB} (u_title : Z -> ustr) (k : ustr) (v : json) : json :=
  if bool_decide (k = lit "required") then
    match v with JArr l => JArr (map (camel_item u_title) l) | _ => convert_schema_object u_title v end
  else if bool_decide (k = lit "properties") then
    match v with
    | JObj ps => JObj (from_items (map (fun q => (camel_key u_title q.1, convert_schema_object u_title q.2)) ps))
    | _ => convert_schema_object u_title v
    end
  else convert_schema_object u_title v.

Lemma dict_get_map_values {V W} (g : ustr -> V -> W) l k :
  dict_get k (map (fun p => (p.1, g p.1 p.2)) l) = g k <$> dict_get k l.
Proof.
  induction l as [|[k' v] l IH]; [done|]. cbn [map dict_get fst snd]. by destruct (decide (k = k')) as [->|].
Qed.
Lemma map_values_keys {V W} (g : ustr -> V -> W) l : (map (fun p => (p.1, g p.1 p.2)) l).*1 = l.*1.
Proof. induction l as [|p l IH]; [done|]. cbn [map fmap list_fmap fst]. by f_equal. Qed.

Lemma dict_set_keys {V} (k a : ustr) (b : V) d : k = a \/ k ∈ d.*1 -> k ∈ (dict_set a b d).*1.
Proof.
  intros Hk. induction d as [|[a' b'] d IH]; cbn [dict_set].
  - destruct Hk as [->|Hk]; [apply list_elem_of_here|by apply elem_of_nil in Hk].
  - cbn [fmap list_fmap fst] in Hk. rewrite elem_of_cons in Hk. destruct (decide (a = a')) as [->|]; cbn [fmap list_fmap fst]; rewrite elem_of_cons; tauto.
Qed.

Lemma from_items_keys {V} (k : ustr) (l : list (ustr * V)) : k ∈ l.*1 -> k ∈ (from_items l).*1.
Proof.
  unfold from_items. intros Hk. assert (k ∈ ([] : list (ustr * V)).*1 \/ k ∈ l.*1) as H by auto. clear Hk. revert H.
  generalize ([] : list (ustr * V)). induction l as [|[a b] l IH]; intros d Hk; cbn [fold_left].
  - destruct Hk as [|Hk]; [done|by apply elem_of_nil in Hk].
  - apply IH. cbn [fmap list_fmap fst snd] in *. rewrite elem_of_cons in Hk.
    destruct Hk as [Hk|[Hk|Hk]]; [left; apply dict_set_keys; tauto|left; apply dict_set_keys; tauto|by right].
Qed.

(** ** Theorems *)

(** C16. The error surface refines the handlers' contract: every project, driver or
    unforeseen exception is answered with the status and code
    [Common.handle_exception] gives it; when that is a 5xx the answer is the
    masked body alone, the same for any message, data and headers the exception
    carried; an HTTP error of the framework, which the application never raises,
    keeps its status, detail and headers, unmasked at any status; every answer,
    validation and framework errors included, has exactly the keys of a successful one, a declared code and the request's id; and a
    validation answer takes code and message from one and the same error, the
    first that names a code. *)
Theorem error_surface_refines `{UnicodeDB} (u_title : Z -> ustr) (rid : option ustr) (r : raised) :
  let resp := handle_raised rid r in
  (forall e, exn_of r = Some e ->
     rs_status resp = er_status (handle_exception e) /\
     json_get (lit "code") (rs_body resp) = Some (JStr (code_value (er_code (handle_exception e)))) /\
     (er_masked (handle_exception e) = true ->
        resp = masked_500_response rid (code_value (er_code (handle_exception e))) (er_status (handle_exception e)))) /\
  (forall st detail hs, r = RHttp st detail hs ->
     rs_status resp = st /\ rs_headers resp = hs /\ json_get (lit "message") (rs_body resp) = Some (JStr (default [] detail))) /\
  (exists code message data, rs_body resp = error_body code message data (get_request_id rid) /\ code ∈ API_CODES) /\
  (forall code message data code' data' message', exists kvs kvs',
     error_body code message data (get_request_id rid) = JObj kvs /\ api_response u_title code' data' message' rid = JObj kvs' /\
     kvs.*1 = [lit "code"; lit "message"; lit "data"; lit "requestId"] /\ kvs.*1 ≡ₚ kvs'.*1) /\
  (forall errors, r = RValidation errors ->
     (exists pre msg post, errors = pre ++ Some msg :: post /\
        (forall m, Some m ∈ pre -> removeprefix VALUE_ERROR m ∉ API_CODES) /\
        rs_body resp = error_body (removeprefix VALUE_ERROR msg) msg JNull (get_request_id rid)) \/
     (forall m, Some m ∈ errors -> removeprefix VALUE_ERROR m ∉ API_CODES) /\
     exists msg, rs_body resp = error_body (lit "INVALID_REQUEST_BODY") msg JNull (get_request_id rid)).
Proof.
  intros resp. split_and!.
  - intros e He. unfold resp. destruct r as [cls m data hs|es|st dt hs|ss c| |]; cbn [exn_of] in He; try discriminate.
    + destruct (project_class cls) as [[st code]|] eqn:Ep; [|done]. injection He as <-.
      rewrite (handle_project rid cls m data hs st code Ep). unfold handle_exception. rewrite Ep. cbn [er_status er_code er_masked].
      destruct (500 <=? st); split_and!; done.
    + injection He as <-. cbn [handle_raised]. cbv zeta. repeat case_bool_decide; split_and!; done.
    + injection He as <-. done.
    + injection He as <-. done.
  - intros st detail hs ->. by split_and!.
  - unfold resp. destruct r as [cls m data hs|es|st dt hs|ss c| |]; cbn [handle_raised].
    + destruct (project_class cls) as [[st code]|]; [destruct (500 <=? st)|]; eexists _, _, _; (split; [reflexivity|apply code_value_known]).
    + destruct (pick_validation_spec es []) as [(pre & msg & post & _ & Hm & _ & ->)|(_ & msg & -> & _)]; eexists _, _, _; (split; [reflexivity|]); [done|in_lit].
    + eexists _, _, _. split; [reflexivity|]. unfold HTTP_STATUS_TO_CODE. cbn [dict_get].
      repeat (destruct (decide _); [in_lit|]). in_lit.
    + cbv zeta. repeat case_bool_decide; eexists _, _, _; (split; [reflexivity|apply code_value_known]).
    + eexists _, _, _. split; [reflexivity|apply code_value_known].
    + eexists _, _, _. split; [reflexivity|apply code_value_known].
  - intros. eexists _, _. split; [reflexivity|]. split; [reflexivity|]. split; [reflexivity|]. cbn [fmap list_fmap fst].
    change (to_camel u_title (lit "code")) with (lit "code"). change (to_camel u_title (lit "data")) with (lit "data").
    change (to_camel u_title (lit "message")) with (lit "message"). change (to_camel u_title (lit "request_id")) with (lit "requestId").
    apply perm_skip, perm_swap.
  - intros es ->. unfold resp. cbn [handle_raised].
    destruct (pick_validation_spec es []) as [(pre & msg & post & -> & _ & Hpre & ->)|(Hall & msg & -> & _)].
    + left. by exists pre, msg, post.
    + right. split; [done|]. by exists msg.
Qed.

(** Nobody sees who a suspended or withdrawn author was: what is shown of
    such an account depends on its identifier only; so it is from the moment an
    account is withdrawn, and, on a reachable Redis, suspended, in every post and
    comment of that author; and reactivating a suspended account shows it again
    exactly as before. *)
Theorem inactive_author_hidden `{UnicodeDB} (cfg : storage_settings) (now k : Z) :
  (forall u u' d d', status u <> ACTIVE -> status u' <> ACTIVE -> author_info cfg k u d = author_info cfg k u' d') /\
  (forall d d', delete_user now k d = (inr tt, d') -> author_of cfg (Some k) d' = Some (Some (anonymous k))) /\
  (forall u w, redis_up w -> users_unique (w_db w) -> users (w_db w) !! k = Some u -> user_deleted_at u = None -> status u = ACTIVE ->
     exists w1, suspend_user true now k w = (inr tt, w1) /\ author_of cfg (Some k) (w_db w1) = Some (Some (anonymous k)) /\
       forall later_now, exists w2, activate_user true later_now k w1 = (inr tt, w2) /\
         author_of cfg (Some k) (w_db w2) = author_of cfg (Some k) (w_db w)).
Proof.
  split_and!.
  - intros u u' d d' Hu Hu'. by rewrite !inactive_author.
  - intros d d' E. apply withdrawn_row in E as (u' & Hu & Hs & _). by rewrite (author_of_row cfg k u' d' Hu), inactive_author by congruence.
  - intros u w Hq Huq Hu Hd Hs. unfold suspend_user, activate_user.
    destruct (set_user_status_quiet now k SUSPENDED true u w Hq Huq Hu Hd) as (w1 & E & Hq1 & Hdb & _); [congruence|].
    assert (users (w_db w1) !! k = Some (with_status now SUSPENDED u)) as Hu1 by (rewrite Hdb; apply lookup_insert_eq).
    exists w1. split; [done|]. split; [by rewrite (author_of_row _ _ _ _ Hu1), inactive_author|]. intros ln.
    assert (users_unique (w_db w1)) as Huq1.
    { rewrite Hdb. apply users_unique_insert; [|done]. apply unique_error_none. intros k' v Hv Hk.
      cbn. split; intros Heq; apply Hk; eapply (Huq k' k v u Hv Hu); auto. }
    destruct (set_user_status_quiet ln k ACTIVE false _ w1 Hq1 Huq1 Hu1) as (w2 & E2 & _ & Hdb2 & _); [done|done|].
    exists w2. split; [done|].
    assert (users (w_db w2) !! k = Some (with_status ln ACTIVE (with_status now SUSPENDED u))) as Hu2 by (rewrite Hdb2; apply lookup_insert_eq).
    rewrite (author_of_row _ _ _ _ Hu2), (author_of_row _ _ _ _ Hu), !active_author by done.
    by rewrite Hdb2, Hdb.
Qed.

(** A schema object that is valid stays so: names listed as required are
    properties before the conversion and after it. *)
Theorem openapi_required_preserved `{UnicodeDB} (u_title : Z -> ustr) (kvs : list (ustr * json)) (names : list json) (ps : list (ustr * json)) :
  lit "$ref" ∉ kvs.*1 -> NoDup kvs.*1 ->
  dict_get (lit "required") kvs = Some (JArr names) -> dict_get (lit "properties") kvs = Some (JObj ps) ->
  (forall n, JStr n ∈ names -> n ∈ ps.*1) ->
  exists kvs' names' ps', convert_schema_object u_title (JObj kvs) = JObj kvs' /\ kvs'.*1 = kvs.*1 /\
    dict_get (lit "required") kvs' = Some (JArr names') /\ dict_get (lit "properties") kvs' = Some (JObj ps') /\
    length names' = length names /\ (forall n, JStr n ∈ names' -> n ∈ ps'.*1).
Proof.
  intros Href Hnd Hr Hp Hin. cbn [convert_schema_object]. rewrite bool_decide_eq_false_2 by done.
  change (map _ kvs) with (map (fun p => (p.1, convert_field u_title p.1 p.2)) kvs).
  eexists _, (map (camel_item u_title) names), (from_items (map (fun q => (camel_key u_title q.1, convert_schema_object u_title q.2)) ps)).
  split; [reflexivity|]. split; [apply map_values_keys|]. rewrite !dict_get_map_values, Hr, Hp. split; [reflexivity|]. split; [reflexivity|].
  split; [apply length_map|]. intros n Hn. apply list_elem_of_In, in_map_iff in Hn as (v & Hv & Hn%list_elem_of_In).
  destruct v as [| | | |m| |]; try discriminate. cbn [camel_item] in Hv. injection Hv as <-. specialize (Hin m Hn).
  apply list_elem_of_fmap in Hin as ([m' v] & -> & Hin). cbn [fst].
  apply from_items_keys, list_elem_of_fmap. exists (camel_key u_title m', convert_schema_object u_title v).
  split; [done|]. apply list_elem_of_In, in_map_iff. exists (m', v). split; [done|by apply list_elem_of_In].
Qed.

(** ** Witnesses *)

Lemma error_surface_refines_witness :
  rs_status (handle_raised (H := ascii_db) (Some (lit "01J")) (too_many_requests 3)) = 429 /\
  handle_raised (H := ascii_db) (Some (lit "01J")) (RProject InternalServerErrorException (Some (lit "secret")) (JInt 1) [])
    = masked_500_response (Some (lit "01J")) (lit "INTERNAL_SERVER_ERROR") 500.
Proof.
  destruct (error_surface_refines (H := ascii_db) (fun c => [c]) (Some (lit "01J")) (too_many_requests 3)) as (H1 & _).
  destruct (error_surface_refines (H := ascii_db) (fun c => [c]) (Some (lit "01J"))
    (RProject InternalServerErrorException (Some (lit "secret")) (JInt 1) [])) as (H2 & _).
  split.
  - apply (H1 TooManyRequestsException). reflexivity.
  - apply (H2 InternalServerErrorException); reflexivity.
Defined.

Lemma inactive_author_hidden_witness :
  exists w1, suspend_user true 5 7 demo_auth_world = (inr tt, w1) /\
    author_of demo_cfg (Some 7) (w_db w1) = Some (Some (anonymous 7)).
Proof.
  destruct (inactive_author_hidden (H := ascii_db) demo_cfg 5 7) as (_ & _ & H).
  destruct (H demo_user demo_auth_world) as (w1 & E & Ha & _).
  - reflexivity.
  - exact demo_auth_unique.
  - vm_compute. reflexivity.
  - reflexivity.
  - reflexivity.
  - exists w1. split; [exact E|exact Ha].
Defined.

Definition demo_schema : list (ustr * json) :=
  [(lit "required", JArr [JStr (lit "has_more"); JStr (lit "items")]);
   (lit "properties", JObj [(lit "has_more", JNull); (lit "items", JNull)])].

Lemma openapi_required_preserved_witness :
  exists kvs', convert_schema_object (H := ascii_db) (fun c => [c]) (JObj demo_schema) = JObj kvs' /\
    dict_get (lit "required") kvs' = Some (JArr [JStr (lit "hasMore"); JStr (lit "items")]).
Proof.
  destruct (openapi_required_preserved (H := ascii_db) (fun c => [c]) demo_schema [JStr (lit "has_more"); JStr (lit "items")]
    [(lit "has_more", JNull); (lit "items", JNull)]) as (kvs' & names' & ps' & E & _).
  - in_lit.
  - apply (bool_decide_unpack _). vm_compute. exact I.
  - reflexivity.
  - reflexivity.
  - intros n Hn. rewrite !elem_of_cons in Hn. cbn [fmap list_fmap fst]. rewrite !elem_of_cons.
    destruct Hn as [[= ->]|[[= ->]|Hn]]; [by left|by right; left|by apply elem_of_nil in Hn].
  - exists kvs'. split; [exact E|]. vm_compute in E. injection E as <-. reflexivity.
Defined.
