(* ===== verification/Middleware.v ===== *)
(** * The HTTP middleware stack ([main.py], [core/middleware])

    Around every request: the request identifier, the forwarded client address,
    metrics, access log and security headers, the host check's exception for
    probes, the rate limiter's answer.  An ASGI application is what it does to
    the process and the messages it sends, in order, until it returns or raises.
    CORS, GZip, the host check itself, Starlette's adapter for [@app.middleware]
    and the router are parameters. *)

From stdpp Require Import pretty.
From S2P Require Import Prelude Ids Common Redis RateLimit Db Json Settings IpAddr Proxy Responses.

(** ** Requests, messages, the process *)

(** The scope, its headers, [scope["state"]["request_id"]]. *)
Record request := { rq_scope : asgi_scope; rq_headers : headers; rq_id : option ustr }.

Inductive asgi_msg :=
  | MStart (status_code : Z) (hs : list (ustr * ustr))
  | MBody (body : ustr).

(** What was sent, and the exception that ended it. *)
Record run := { ru_msgs : list asgi_msg; ru_end : option exn }.

Inductive log_level := LWarning | LError | LException.
Record access_entry := {
  ae_level : log_level; ae_event : ustr; ae_method : ustr; ae_path : ustr; ae_status : Z; ae_duration : Z; ae_client_ip : ustr;
}.

(** The metrics are Prometheus counters by label; times are microseconds. *)
Record srv := {
  sv_rl : rl_state; sv_ctx : ustr; sv_clock : Z; sv_in_progress : gmap ustr Z;
  sv_requests_total : list (ustr * ustr * Z); sv_durations : list (ustr * ustr * Z); sv_access : list access_entry;
}.
#[export] Instance srv_eta : Eta srv := fun s =>
  Build_srv (sv_rl s) (sv_ctx s) (sv_clock s) (sv_in_progress s) (sv_requests_total s) (sv_durations s) (sv_access s).

Abbreviation asgi := (request -> srv -> run * srv).

Definition sends (msgs : list asgi_msg) : run := {| ru_msgs := msgs; ru_end := None |}.

(** ** Request identifiers ([request_id.py]) *)

(** [send_wrapper] on one message. *)
Definition stamp (request_id : ustr) (m : asgi_msg) : asgi_msg :=
  match m with
  | MStart st hs => MStart st (hs ++ [(lit "x-request-id", request_id)])
  | m => m
  end.

Definition with_id (request_id : ustr) (r : request) : request :=
  {| rq_scope := rq_scope r; rq_headers := rq_headers r; rq_id := Some request_id |}.

(** [request_id] is the ULID drawn; the context variable is put back in [finally]. *)
Definition request_id_call (request_id : ustr) (app : asgi) : asgi := fun r s =>
  match sc_type (rq_scope r) with
  | ScopeOther => app r s
  | ScopeHttp =>
      let '(ru, s') := app (with_id request_id r) (s <| sv_ctx := request_id |>) in
      ({| ru_msgs := map (stamp request_id) (ru_msgs ru); ru_end := ru_end ru |}, s' <| sv_ctx := sv_ctx s |>)
  end.

(** ** Forwarded addresses, the limiter ([proxy_headers.py], [rate_limit.py]) *)

Definition proxy_headers_call (st : Settings) (m : proxy_headers) (app : asgi) : asgi := fun r s =>
  app {| rq_scope := proxy_call st m (rq_scope r) (rq_headers r); rq_headers := rq_headers r; rq_id := rq_id r |} s.

Definition send_429 (r : request) (code : ApiCode) (retry_after_seconds : Z) : run :=
  let '(data, retry_after_value) := retry_after_fields retry_after_seconds in
  sends [MStart 429 [(lit "content-type", lit "application/json"); (lit "retry-after", retry_after_value)];
         MBody (dumps (error_body (code_value code) [] data (get_request_id (rq_id r))))].

Definition rate_limit_layer (rl : rl_settings) (present : bool) (app : asgi) : asgi := fun r s =>
  let '(o, l) := rate_limit_call rl present (rq_scope r) (sv_rl s) in
  let s' := s <| sv_rl := l |> in
  match o with
  | inr Forward => app r s'
  | inr (Send429 code retry) => (send_429 r code retry, s')
  | inl e => ({| ru_msgs := []; ru_end := Some e |}, s')
  end.

(** ** The host check ([trusted_host.py]) *)

Definition is_probe (path : ustr) : bool := bool_decide (path ∈ INFRA_PROBE_PATHS).

(** [host_check]: [TrustedHostMiddleware.__call__] around the application. *)
Definition probe_aware_host (host_check : asgi -> asgi) (app : asgi) : asgi := fun r s =>
  match sc_type (rq_scope r) with
  | ScopeHttp => if is_probe (sc_path (rq_scope r)) then app r s else host_check app r s
  | ScopeOther => host_check app r s
  end.

(** ** Metrics and the access log ([metrics.py], [access_log.py]) *)

Definition UNMATCHED : ustr := lit "__unmatched__".
(** [route.path] of the matched route, when there is one and it is not empty. *)
Definition route_template_label (route : option ustr) : ustr :=
  match route with Some ((_ :: _) as p) => p | _ => UNMATCHED end.

Definition gauge (method : ustr) (s : srv) : Z := default 0 (sv_in_progress s !! method).
Definition add_gauge (method : ustr) (n : Z) (s : srv) : srv :=
  s <| sv_in_progress := <[method := gauge method s + n]> (sv_in_progress s) |>.

Definition access_fields (level : log_level) (event : ustr) (r : request) (status duration : Z) : access_entry :=
  {| ae_level := level; ae_event := event; ae_method := sc_method (rq_scope r); ae_path := sc_path (rq_scope r);
     ae_status := status; ae_duration := duration; ae_client_ip := client_ip_from_scope (rq_scope r) (lit "unknown") |}.

(** The entries [log_access] writes. *)
Definition log_access (slow_ms : Z) (r : request) (status duration : Z) : list access_entry :=
  let is_slow := slow_ms * 1000 <=? duration in
  if (status <? 400) && negb is_slow then []
  else
    (if 500 <=? status then [access_fields LError (lit "access") r status duration]
     else if 400 <=? status then [access_fields LWarning (lit "access") r status duration] else []) ++
    (if is_slow then [access_fields LWarning (lit "slow request") r status duration] else []).

Definition log_unhandled_exception (r : request) (duration : Z) : access_entry :=
  access_fields LException (lit "unhandled exception") r 500 duration.

(** ** Security headers ([security_headers.py])

    [response.headers[name] = value] is Starlette's; its laws are the interface. *)

Class HeaderOps (H : Type) := {
  set_header : ustr -> ustr -> H -> H;
  get_header : ustr -> H -> option ustr;
  get_set_header : forall k v h, get_header k (set_header k v h) = Some v;
  get_set_other : forall k k' v h, k <> k' -> get_header k (set_header k' v h) = get_header k h;
}.

Record header_settings := {
  HSTS_ENABLED : bool; HSTS_MAX_AGE : Z; REFERRER_POLICY : ustr; PERMISSIONS_POLICY : ustr; CONTENT_SECURITY_POLICY : ustr;
  DEBUG : bool; SLOW_REQUEST_MS : Z; hs_api_prefix : ustr;
}.

Section Headers.
Context {H : Type} `{HeaderOps H} (cfg : header_settings).

Definition docs_prefix : ustr := rstrip_slash (hs_api_prefix cfg).
Definition is_docs_path (path : ustr) : bool :=
  bool_decide (path ∈ [docs_prefix ++ lit "/openapi.json"; docs_prefix ++ lit "/redoc"]) ||
  startswith (docs_prefix ++ lit "/docs") path.

Definition HSTS_VALUE : ustr := lit "max-age=" ++ lit (pretty (HSTS_MAX_AGE cfg)) ++ lit "; includeSubDomains".

Definition apply_security_headers (path : ustr) (h : H) : H :=
  let h := set_header (lit "X-Frame-Options") (lit "DENY") h in
  let h := set_header (lit "X-Content-Type-Options") (lit "nosniff") h in
  let h := set_header (lit "Referrer-Policy") (REFERRER_POLICY cfg) h in
  let h := set_header (lit "Permissions-Policy") (PERMISSIONS_POLICY cfg) h in
  let h := if HSTS_ENABLED cfg then set_header (lit "Strict-Transport-Security") HSTS_VALUE h else h in
  if negb (bool_decide (CONTENT_SECURITY_POLICY cfg = [])) && negb (is_docs_path path)
  then set_header (lit "Content-Security-Policy") (CONTENT_SECURITY_POLICY cfg) h else h.

(** ** Observability ([observability.py]) *)

Record response := { re_status : Z; re_headers : H; re_body : list ustr }.

(** What [call_next] leaves: the route the router put in the scope, the response
    or the exception. *)
Record call_result := { ca_route : option ustr; ca_outcome : exn + response }.

(** Up to [call_next]: whether metrics are recorded. *)
Definition observe_enter (r : request) (s : srv) : srv :=
  if is_probe (sc_path (rq_scope r)) then s else add_gauge (sc_method (rq_scope r)) 1 s.

(** The [finally] block. *)
Definition observe_leave (r : request) (route : option ustr) (status start : Z) (s : srv) : srv :=
  if is_probe (sc_path (rq_scope r)) then s
  else
    let method := sc_method (rq_scope r) in
    let path := route_template_label route in
    add_gauge method (-1) s <| sv_requests_total := (method, path, status) :: sv_requests_total s |>
                            <| sv_durations := (method, path, sv_clock s - start) :: sv_durations s |>.

(** [fmt2]: the text of a duration in milliseconds with two decimals. *)
Definition observability_middleware (fmt2 : Z -> ustr) (r : request) (call_next : request -> srv -> call_result * srv) (s : srv)
  : (exn + response) * srv :=
  let start := sv_clock s in
  let '(res, s1) := call_next r (observe_enter r s) in
  match ca_outcome res with
  | inl e =>
      let s2 := s1 <| sv_access := log_unhandled_exception r (sv_clock s1 - start) :: sv_access s1 |> in
      (inl e, observe_leave r (ca_route res) 500 start s2)
  | inr resp =>
      let s2 := observe_leave r (ca_route res) (re_status resp) start s1 in
      let duration := sv_clock s2 - start in
      let h := apply_security_headers (sc_path (rq_scope r)) (re_headers resp) in
      let h := if DEBUG cfg then set_header (lit "X-Process-Time") (fmt2 duration) h else h in
      (inr {| re_status := re_status resp; re_headers := h; re_body := re_body resp |},
       s2 <| sv_access := reverse (log_access (SLOW_REQUEST_MS cfg) r (re_status resp) duration) ++ sv_access s2 |>)
  end.

(** ** The stack ([main.py]) *)

(** Third-party layers: CORS, GZip, the host check, the adapter that makes a
    dispatch function a layer, and the routes. *)
Record framework := {
  fw_cors : asgi -> asgi; fw_gzip : asgi -> asgi; fw_host : asgi -> asgi;
  fw_http : (request -> (request -> srv -> call_result * srv) -> srv -> (exn + response) * srv) -> asgi -> asgi;
  fw_router : asgi;
}.

Definition app_stack (fmt2 : Z -> ustr) (st : Settings) (rl : rl_settings) (present : bool) (fw : framework) (request_id : ustr) : asgi :=
  let app := rate_limit_layer rl present (fw_router fw) in
  let app := fw_cors fw app in
  let app := if bool_decide (TRUSTED_HOSTS st = [lit "*"]) then app else probe_aware_host (fw_host fw) app in
  let app := fw_http fw (observability_middleware fmt2) app in
  let app := fw_gzip fw app in
  let app := proxy_headers_call st (new_proxy_headers st) app in
  request_id_call request_id app.
End Headers.

(** ** Requests in flight as a transition system

    Any number of requests interleave at the points where the middleware awaits. *)

Record obs_state := {
  os_srv : srv;
  os_running : list (Z * (request * Z));           (** token, the request, its start *)
  os_done : list (request * option ustr * Z);      (** the request, its route, the status *)
}.

Inductive obs_step : obs_state -> obs_state -> Prop :=
  | ObsEnter r k s :
      k ∉ (os_running s).*1 ->
      obs_step s {| os_srv := observe_enter r (os_srv s); os_running := (k, (r, sv_clock (os_srv s))) :: os_running s; os_done := os_done s |}
  | ObsLeave k r start route status s pre post :
      os_running s = pre ++ (k, (r, start)) :: post ->
      obs_step s {| os_srv := observe_leave r route status start (os_srv s); os_running := pre ++ post;
                    os_done := (r, route, status) :: os_done s |}
  | ObsOther s v :
      sv_in_progress v = sv_in_progress (os_srv s) -> sv_requests_total v = sv_requests_total (os_srv s) ->
      sv_durations v = sv_durations (os_srv s) ->
      obs_step s {| os_srv := v; os_running := os_running s; os_done := os_done s |}.

Inductive obs_reachable : obs_state -> Prop :=
  | ObsInit v : sv_in_progress v = ∅ -> sv_requests_total v = [] -> sv_durations v = [] ->
      obs_reachable {| os_srv := v; os_running := []; os_done := [] |}
  | ObsStep s s' : obs_reachable s -> obs_step s s' -> obs_reachable s'.

Definition counted (r : request) : bool := negb (is_probe (sc_path (rq_scope r))).
Definition of_method (m : ustr) (r : request) : bool := counted r && bool_decide (sc_method (rq_scope r) = m).

Fixpoint in_flight (m : ustr) (l : list (Z * (request * Z))) : Z :=
  match l with [] => 0 | p :: l' => (if of_method m p.2.1 then 1 else 0) + in_flight m l' end.

(** The label set of a finished request. *)
Definition label_of (f : request * option ustr * Z) : ustr * ustr * Z :=
  (sc_method (rq_scope f.1.1), route_template_label f.1.2, f.2).

(** ** Lemmas *)

Lemma gauge_add m m' n s : gauge m (add_gauge m' n s) = gauge m s + (if decide (m = m') then n else 0).
Proof.
  unfold gauge, add_gauge. cbn [sv_in_progress over]. destruct (decide (m = m')) as [->|Hne].
  - by rewrite lookup_insert_eq.
  - rewrite lookup_insert_ne by done. lia.
Qed.

Lemma gauge_enter m r s : gauge m (observe_enter r s) = gauge m s + (if of_method m r then 1 else 0).
Proof.
  unfold observe_enter, of_method, counted. destruct (is_probe _); cbn [negb andb]; [lia|]. rewrite gauge_add.
  destruct (decide (m = sc_method (rq_scope r))) as [->|Hne]; [by rewrite bool_decide_eq_true_2|].
  by rewrite bool_decide_eq_false_2.
Qed.

Lemma gauge_leave m r route status start s :
  gauge m (observe_leave r route status start s) = gauge m s - (if of_method m r then 1 else 0).
Proof.
  unfold observe_leave, of_method, counted. destruct (is_probe _); cbn [negb andb]; [lia|].
  change (gauge m (add_gauge (sc_method (rq_scope r)) (-1) s) = gauge m s - (if bool_decide (sc_method (rq_scope r) = m) then 1 else 0)).
  rewrite gauge_add. destruct (decide (m = sc_method (rq_scope r))) as [->|Hne]; [rewrite bool_decide_eq_true_2 by done; lia|].
  rewrite bool_decide_eq_false_2 by done. lia.
Qed.

Lemma requests_leave r route status start s :
  sv_requests_total (observe_leave r route status start s) =
  (if counted r then [label_of (r, route, status)] else []) ++ sv_requests_total s /\
  length (sv_durations (observe_leave r route status start s)) =
  ((if counted r then 1 else 0) + length (sv_durations s))%nat.
Proof. unfold observe_leave, counted. by destruct (is_probe _). Qed.

Lemma requests_enter r s :
  sv_requests_total (observe_enter r s) = sv_requests_total s /\ sv_durations (observe_enter r s) = sv_durations s /\
  sv_clock (observe_enter r s) = sv_clock s /\ sv_access (observe_enter r s) = sv_access s.
Proof. unfold observe_enter. by destruct (is_probe _). Qed.

Lemma in_flight_app m l l' : in_flight m (l ++ l') = in_flight m l + in_flight m l'.
Proof. induction l as [|p l IH]; [done|]. cbn [app in_flight]. lia. Qed.

Lemma stamp_starts rid msgs st hs : MStart st hs ∈ map (stamp rid) msgs -> exists hs', hs = hs' ++ [(lit "x-request-id", rid)].
Proof. intros ([|] & E & _)%list_elem_of_In%in_map_iff; cbn [stamp] in E; [|done]. injection E as -> <-. eauto. Qed.

Lemma log_access_empty slow r status duration :
  log_access slow r status duration = [] <-> status < 400 /\ duration < slow * 1000.
Proof.
  unfold log_access. destruct (Z.ltb_spec status 400), (Z.leb_spec (slow * 1000) duration), (Z.leb_spec 500 status), (Z.leb_spec 400 status);
    cbn [andb negb app]; split; intros; try done; lia.
Qed.

Lemma log_access_entry slow r status duration e : e ∈ log_access slow r status duration ->
  ae_status e = status /\ ae_path e = sc_path (rq_scope r) /\ ae_client_ip e = client_ip_from_scope (rq_scope r) (lit "unknown") /\
  (ae_level e = LError <-> ae_event e = lit "access" /\ 500 <= status).
Proof.
  unfold log_access. destruct ((status <? 400) && _); [by intros ?%elem_of_nil|].
  destruct (slow * 1000 <=? duration); destruct (Z.leb_spec 500 status), (Z.leb_spec 400 status); cbn [app];
    rewrite ?elem_of_cons, ?elem_of_nil; intros He; destruct_or?; subst; try done; split_and!; try done; split; try done; cbn; intros; lia || by destruct_and?.
Qed.

Section HeaderLemmas.
Context {H : Type} `{HeaderOps H} (cfg : header_settings).

Definition PROTECTION : list ustr := map lit
  ["X-Frame-Options"; "X-Content-Type-Options"; "Referrer-Policy"; "Permissions-Policy"; "Strict-Transport-Security"; "Content-Security-Policy"]%string.

Ltac other_name := apply (bool_decide_unpack _); vm_compute; exact I.

Lemma protected_headers (fmt2 : Z -> ustr) path duration (h : H) :
  let h' := apply_security_headers cfg path h in
  let h'' := if DEBUG cfg then set_header (lit "X-Process-Time") (fmt2 duration) h' else h' in
  get_header (lit "X-Frame-Options") h'' = Some (lit "DENY") /\
  get_header (lit "X-Content-Type-Options") h'' = Some (lit "nosniff") /\
  get_header (lit "Referrer-Policy") h'' = Some (REFERRER_POLICY cfg) /\
  get_header (lit "Permissions-Policy") h'' = Some (PERMISSIONS_POLICY cfg) /\
  get_header (lit "Strict-Transport-Security") h'' =
    (if HSTS_ENABLED cfg then Some (HSTS_VALUE cfg) else get_header (lit "Strict-Transport-Security") h) /\
  get_header (lit "Content-Security-Policy") h'' =
    (if negb (bool_decide (CONTENT_SECURITY_POLICY cfg = [])) && negb (is_docs_path cfg path)
     then Some (CONTENT_SECURITY_POLICY cfg) else get_header (lit "Content-Security-Policy") h) /\
  (DEBUG cfg = false -> forall k, k ∉ PROTECTION -> get_header k h'' = get_header k h).
Proof.
  cbv zeta. unfold apply_security_headers.
  destruct (DEBUG cfg), (HSTS_ENABLED cfg), (negb (bool_decide (CONTENT_SECURITY_POLICY cfg = [])) && negb (is_docs_path cfg path));
    split_and!; try (repeat (rewrite get_set_header || rewrite get_set_other by other_name); done); intros Hdbg k Hk; try discriminate Hdbg;
    (rewrite !get_set_other by (intros ->; apply Hk; in_lit)); done.
Qed.
End HeaderLemmas.

(** ** Theorems *)

(** C29. In-flight and request metrics are exact: in every interleaving of
    requests, the gauge of a method is the number of its requests in flight
    (probes apart), and the counter and the histogram hold exactly one entry per
    finished request, labelled with its route's template.  One call of the
    middleware is such an entry and exit whatever the application does: an
    exception passes through unchanged, counted as 500, and a response keeps its
    status and body. *)
Theorem request_metrics_exact {H : Type} `{HeaderOps H} (cfg : header_settings) (fmt2 : Z -> ustr) :
  (forall s, obs_reachable s ->
     (forall m, gauge m (os_srv s) = in_flight m (os_running s)) /\
     sv_requests_total (os_srv s) = label_of <$> List.filter (fun f => counted f.1.1) (os_done s) /\
     length (sv_durations (os_srv s)) = length (sv_requests_total (os_srv s))) /\
  (forall r call_next s,
     let '(res, s1) := call_next r (observe_enter r s) in
     let '(out, s') := observability_middleware cfg fmt2 r call_next s in
     (forall m, gauge m s' = gauge m s1 - (if of_method m r then 1 else 0)) /\
     match ca_outcome res, out with
     | inl e, inl e' => e' = e /\ sv_requests_total s' = (if counted r then [label_of (r, ca_route res, 500)] else []) ++ sv_requests_total s1
     | inr resp, inr resp' => re_status resp' = re_status resp /\ re_body resp' = re_body resp /\
         sv_requests_total s' = (if counted r then [label_of (r, ca_route res, re_status resp)] else []) ++ sv_requests_total s1
     | _, _ => False
     end).
Proof.
  split.
  - induction 1 as [v Hg Ht Hd|s s' _ (IHg & IHt & IHd) Hstep].
    { split_and!; cbn [os_srv os_running os_done]; [|by rewrite Ht|by rewrite Hd, Ht]. intros m. unfold gauge. by rewrite Hg, lookup_empty. }
    destruct Hstep as [r k s Hk|k r start route status s pre post Hr|s v Hg Ht Hd]; cbn [os_srv os_running os_done].
    + destruct (requests_enter r (os_srv s)) as (-> & -> & _). split_and!; [|done|done].
      intros m. rewrite gauge_enter, IHg. cbn [in_flight fst snd]. lia.
    + destruct (requests_leave r route status start (os_srv s)) as [-> ->]. split_and!.
      * intros m. rewrite gauge_leave, IHg, Hr, !in_flight_app. cbn [in_flight fst snd]. lia.
      * rewrite IHt. cbn [List.filter fst]. by destruct (counted r).
      * rewrite length_app, IHd. by destruct (counted r).
    + rewrite Ht, Hd. split_and!; [|done|done]. intros m. unfold gauge. rewrite Hg. apply IHg.
  - intros r call_next s. unfold observability_middleware. destruct (call_next r (observe_enter r s)) as [res s1].
    destruct (ca_outcome res) as [e|resp].
    + split; [intros m; by rewrite gauge_leave|]. split; [done|]. by rewrite (proj1 (requests_leave _ _ _ _ _)).
    + split; [intros m; apply gauge_leave|]. split_and!; [done|done|]. apply requests_leave.
Qed.

(** Every answer can be traced: whatever the framework's layers and the
    routes do, each response that leaves the stack ends its headers with
    [X-Request-ID], the identifier drawn for this request, and the context
    variable is what it was before; and the limiter's refusal, which no route
    sees, says the same identifier in its body, with the waiting time in body and
    header. *)
Theorem answers_carry_request_id {H : Type} `{HeaderOps H} (cfg : header_settings) (fmt2 : Z -> ustr) (st : Settings)
    (rl : rl_settings) (present : bool) (fw : framework (H := H)) (rid : ustr) (r : request) (s : srv) :
  sc_type (rq_scope r) = ScopeHttp ->
  let '(ru, s') := app_stack cfg fmt2 st rl present fw rid r s in
  (forall status hs, MStart status hs ∈ ru_msgs ru -> exists hs', hs = hs' ++ [(lit "x-request-id", rid)]) /\
  sv_ctx s' = sv_ctx s /\
  (forall app code retry l,
     rate_limit_call rl present (proxy_call st (new_proxy_headers st) (rq_scope r) (rq_headers r)) (sv_rl s) = (inr (Send429 code retry), l) ->
     request_id_call rid (proxy_headers_call st (new_proxy_headers st) (rate_limit_layer rl present app)) r s =
     (sends [MStart 429 [(lit "content-type", lit "application/json"); (lit "retry-after", lit (pretty retry)); (lit "x-request-id", rid)];
             MBody (dumps (error_body (code_value code) [] (JObj [(lit "retry_after_seconds", JInt retry)]) rid))],
      s <| sv_rl := l |>)).
Proof.
  intros Ht. unfold app_stack, request_id_call. rewrite Ht.
  destruct (proxy_headers_call _ _ _ _ _) as [ru s']. cbn [ru_msgs]. split_and!.
  - intros status hs. apply stamp_starts.
  - done.
  - intros app code retry l E. unfold proxy_headers_call, rate_limit_layer. cbn [rq_scope rq_headers with_id sv_rl over].
    rewrite E. cbn [rq_id with_id]. by destruct s.
Qed.

(** What every returned response carries: the fixed protection headers, HSTS
    when enabled, the content policy exactly when one is configured and the page
    is not API documentation, the timing header in debug mode, and every other
    header as the application set it (names compared as the header store does).
    Fast successes leave no access entry; anything from 400 on and anything slow
    leaves one with the status and the client's address, errors from 500. *)
Theorem returned_responses_protected {H : Type} `{HeaderOps H} (cfg : header_settings) (fmt2 : Z -> ustr) (r : request) call_next (s : srv) resp s' :
  observability_middleware cfg fmt2 r call_next s = (inr resp, s') ->
  let path := sc_path (rq_scope r) in
  exists inner s1 route, call_next r (observe_enter r s) = ({| ca_route := route; ca_outcome := inr inner |}, s1) /\
    get_header (lit "X-Frame-Options") (re_headers resp) = Some (lit "DENY") /\
    get_header (lit "X-Content-Type-Options") (re_headers resp) = Some (lit "nosniff") /\
    get_header (lit "Referrer-Policy") (re_headers resp) = Some (REFERRER_POLICY cfg) /\
    get_header (lit "Permissions-Policy") (re_headers resp) = Some (PERMISSIONS_POLICY cfg) /\
    get_header (lit "Strict-Transport-Security") (re_headers resp) =
      (if HSTS_ENABLED cfg then Some (HSTS_VALUE cfg) else get_header (lit "Strict-Transport-Security") (re_headers inner)) /\
    get_header (lit "Content-Security-Policy") (re_headers resp) =
      (if negb (bool_decide (CONTENT_SECURITY_POLICY cfg = [])) && negb (is_docs_path cfg path)
       then Some (CONTENT_SECURITY_POLICY cfg) else get_header (lit "Content-Security-Policy") (re_headers inner)) /\
    (DEBUG cfg = false -> forall k, k ∉ map lit ["X-Frame-Options"; "X-Content-Type-Options"; "Referrer-Policy"; "Permissions-Policy";
        "Strict-Transport-Security"; "Content-Security-Policy"]%string -> get_header k (re_headers resp) = get_header k (re_headers inner)) /\
    (let duration := sv_clock s' - sv_clock s in
     exists entries, sv_access s' = entries ++ sv_access s1 /\
       (entries = [] <-> re_status resp < 400 /\ duration < SLOW_REQUEST_MS cfg * 1000) /\
       (forall e, e ∈ entries -> ae_status e = re_status resp /\ ae_path e = path /\
          ae_client_ip e = client_ip_from_scope (rq_scope r) (lit "unknown") /\
          (ae_level e = LError <-> ae_event e = lit "access" /\ 500 <= re_status resp))).
Proof.
  intros E path. unfold observability_middleware in E. destruct (call_next r (observe_enter r s)) as [[route [e|inner]] s1]; [done|].
  cbn [ca_outcome ca_route] in E. injection E as <- <-. exists inner, s1, route. split; [done|]. cbn [re_headers re_status].
  destruct (protected_headers cfg fmt2 path (sv_clock (observe_leave r route (re_status inner) (sv_clock s) s1) - sv_clock s) (re_headers inner))
    as (H1 & H2 & H3 & H4 & H5 & H6 & H7).
  split_and!; try done. cbv zeta. eexists. split; [|split].
  - cbn [sv_access over]. f_equal. unfold observe_leave. by destruct (is_probe _).
  - cbn [sv_clock over]. rewrite <-log_access_empty. split; intros E; [by apply (f_equal reverse) in E; rewrite reverse_involutive in E|by rewrite E].
  - intros en Hen. rewrite elem_of_reverse in Hen. destruct (log_access_entry _ _ _ _ _ Hen) as (A & B & C & D). by split_and!.
Qed.

(** A response made outside the stack has no identifier: when the application
    raises before it answers and the server's error layer, which encloses the
    stack, answers for it with the handler's response, the header is missing. *)
Theorem unhandled_error_without_id `{UnicodeDB} {HT : Type} `{HeaderOps HT} (cfg : header_settings) (fmt2 : Z -> ustr) (st : Settings)
    (rl : rl_settings) (present : bool) (fw : framework (H := HT)) (outer : asgi -> asgi) (render : json -> ustr) (rid : ustr) (r : request) (s : srv) e s1 :
  (forall app r s ru s', app r s = (ru, s') -> ru_msgs ru = [] -> ru_end ru <> None ->
     let resp := handle_raised (Some rid) ROther in
     outer app r s = (sends [MStart (rs_status resp) (rs_headers resp); MBody (render (rs_body resp))], s')) ->
  sc_type (rq_scope r) = ScopeHttp ->
  app_stack cfg fmt2 st rl present fw rid r s = ({| ru_msgs := []; ru_end := Some e |}, s1) ->
  outer (app_stack cfg fmt2 st rl present fw rid) r s =
    (sends [MStart 500 []; MBody (render (error_body (lit "INTERNAL_SERVER_ERROR") MASKED_500_MESSAGE JNull rid))], s1).
Proof. intros Hout Ht E. by rewrite (Hout _ _ _ _ _ E). Qed.

(** ** Witnesses *)

(** A header store: the last value of each name. *)
#[export] Program Instance assoc_headers : HeaderOps (list (ustr * ustr)) :=
  {| set_header := dict_set; get_header := dict_get |}.
Next Obligation. intros. by rewrite dict_get_set, decide_True. Qed.
Next Obligation. intros. by rewrite dict_get_set, decide_False. Qed.

Definition demo_headers : header_settings :=
  {| HSTS_ENABLED := true; HSTS_MAX_AGE := 31536000; REFERRER_POLICY := lit "no-referrer"; PERMISSIONS_POLICY := lit "camera=()";
     CONTENT_SECURITY_POLICY := lit "default-src 'self'"; DEBUG := false; SLOW_REQUEST_MS := 1000; hs_api_prefix := lit "/v1/" |}.

Definition demo_http (path : ustr) : request :=
  {| rq_scope := demo_scope path; rq_headers := []; rq_id := None |}.
Definition demo_srv : srv :=
  {| sv_rl := demo_rl; sv_ctx := []; sv_clock := 5; sv_in_progress := ∅; sv_requests_total := []; sv_durations := []; sv_access := [] |}.

(** A framework that answers everything itself. *)
Definition demo_framework : framework (H := list (ustr * ustr)) :=
  {| fw_cors := fun a => a; fw_gzip := fun a => a; fw_host := fun a => a; fw_http := fun _ a => a;
     fw_router := fun _ s => (sends [MStart 200 []; MBody (lit "{}")], s) |}.
Definition demo_broken : framework (H := list (ustr * ustr)) :=
  {| fw_cors := fun a => a; fw_gzip := fun a => a; fw_host := fun a => a; fw_http := fun _ a => a;
     fw_router := fun _ s => ({| ru_msgs := []; ru_end := Some PyValueError |}, s) |}.

Lemma request_metrics_exact_witness :
  gauge (lit "POST") (observe_enter (demo_http (lit "/v1/posts")) demo_srv) = 1.
Proof.
  destruct (request_metrics_exact (H := list (ustr * ustr)) demo_headers (fun _ => [])) as [H _].
  destruct (H {| os_srv := observe_enter (demo_http (lit "/v1/posts")) demo_srv; os_running := [(1, (demo_http (lit "/v1/posts"), 5))]; os_done := [] |}) as [Hg _].
  - apply (ObsStep {| os_srv := demo_srv; os_running := []; os_done := [] |}).
    + constructor; reflexivity.
    + apply (ObsEnter (demo_http (lit "/v1/posts")) 1 {| os_srv := demo_srv; os_running := []; os_done := [] |}). apply not_elem_of_nil.
  - exact (Hg (lit "POST")).
Defined.

Lemma answers_carry_request_id_witness :
  exists hs, MStart 200 hs ∈ ru_msgs (app_stack demo_headers (fun _ => []) (proxied_settings []) demo_settings true demo_framework (lit "01J")
    (demo_http (lit "/v1/posts")) demo_srv).1 /\ exists hs', hs = hs' ++ [(lit "x-request-id", lit "01J")].
Proof.
  pose proof (answers_carry_request_id demo_headers (fun _ => []) (proxied_settings []) demo_settings true demo_framework (lit "01J")
    (demo_http (lit "/v1/posts")) demo_srv eq_refl) as H.
  destruct (app_stack demo_headers (fun _ => []) (proxied_settings []) demo_settings true demo_framework (lit "01J")
    (demo_http (lit "/v1/posts")) demo_srv) as [ru s'] eqn:E.
  exists [(lit "x-request-id", lit "01J")]. assert (MStart 200 [(lit "x-request-id", lit "01J")] ∈ ru_msgs ru) as Hin.
  { vm_compute in E. injection E as <- _. apply list_elem_of_here. }
  split; [exact Hin|]. destruct H as [H _]. exact (H _ _ Hin).
Defined.

Lemma returned_responses_protected_witness : exists resp s',
  observability_middleware demo_headers (fun _ => []) (demo_http (lit "/v1/docs"))
    (fun _ s => ({| ca_route := None; ca_outcome := inr {| re_status := 404; re_headers := []; re_body := [] |} |}, s)) demo_srv = (inr resp, s') /\
  get_header (lit "X-Frame-Options") (re_headers resp) = Some (lit "DENY") /\
  get_header (lit "Content-Security-Policy") (re_headers resp) = None.
Proof.
  destruct (observability_middleware demo_headers (fun _ => []) (demo_http (lit "/v1/docs"))
    (fun _ s => ({| ca_route := None; ca_outcome := inr {| re_status := 404; re_headers := []; re_body := [] |} |}, s)) demo_srv)
    as [[e|resp] s'] eqn:E; [discriminate E|].
  exists resp, s'. destruct (returned_responses_protected _ _ _ _ _ _ _ E) as (inner & s1 & route & Ec & H1 & _ & _ & _ & _ & H6 & _).
  injection Ec as _ <- _. split; [reflexivity|]. split; [exact H1|]. etransitivity; [exact H6|]. vm_compute. reflexivity.
Defined.

(** An error layer that answers for an application that raised before it did. *)
Definition demo_outer (app : asgi) : asgi := fun r s =>
  let '(ru, s') := app r s in
  match ru_msgs ru, ru_end ru with
  | [], Some _ => let resp := handle_raised (H := ascii_db) (Some (lit "01J")) ROther in
                  (sends [MStart (rs_status resp) (rs_headers resp); MBody (dumps (rs_body resp))], s')
  | _, _ => (ru, s')
  end.

Lemma unhandled_error_without_id_witness :
  exists (outer : asgi -> asgi) s1, outer (app_stack demo_headers (fun _ => []) (proxied_settings []) demo_settings true demo_broken (lit "01J")) (demo_http (lit "/v1/posts")) demo_srv
    = (sends [MStart 500 []; MBody (dumps (error_body (lit "INTERNAL_SERVER_ERROR") MASKED_500_MESSAGE JNull (lit "01J")))], s1).
Proof.
  destruct (app_stack demo_headers (fun _ => []) (proxied_settings []) demo_settings true demo_broken (lit "01J") (demo_http (lit "/v1/posts")) demo_srv) as [ru s1] eqn:E.
  assert (ru = {| ru_msgs := []; ru_end := Some PyValueError |}) as -> by (vm_compute in E; injection E as <- _; reflexivity).
  exists demo_outer, s1.
  refine (unhandled_error_without_id (H := ascii_db) demo_headers (fun _ => []) (proxied_settings []) demo_settings true demo_broken demo_outer dumps (lit "01J")
    (demo_http (lit "/v1/posts")) demo_srv PyValueError s1 _ eq_refl E).
  intros app r s ru s' Ea Hm He. unfold demo_outer. rewrite Ea, Hm. destruct (ru_end ru) as [e|]; [reflexivity|destruct (He eq_refl)].
Defined.
