(* ===== verification/Stream.v ===== *)
(** * The notification stream ([domain/notifications/service.py], [router.py])

    One generator per open stream, over the fan-out table of [Notifications]:
    capacity check, registration, frames with heartbeats, release however it
    ends.  Openings, resumptions, disconnections and deliveries interleave. *)

From S2P Require Import Prelude Ids Common Redis Db World Notifications.

(** ** The generator *)

(** [yield]ed values. *)
Inductive sse_frame := Data (payload : ustr) | Ping.
Definition frame_text (f : sse_frame) : ustr :=
  match f with Data p => lit "data: " ++ p ++ [10; 10] | Ping => lit ": ping" ++ [10; 10] end.

(** Not yet iterated, waiting on its queue, finished. *)
Inductive phase := NotStarted | Waiting | Finished.
#[export] Instance phase_eq_dec : EqDecision phase.
Proof. solve_decision. Defined.

(** [st_accepted] is what was put in the stream's queue so far. *)
Record stream := { st_user : Z; st_phase : phase; st_sent : list sse_frame; st_accepted : list ustr }.

Definition move (p : phase) (st : stream) : stream :=
  {| st_user := st_user st; st_phase := p; st_sent := st_sent st; st_accepted := st_accepted st |}.
Definition emit (f : sse_frame) (st : stream) : stream :=
  {| st_user := st_user st; st_phase := st_phase st; st_sent := st_sent st ++ [f]; st_accepted := st_accepted st |}.
Definition accept (payload : ustr) (st : stream) : stream :=
  {| st_user := st_user st; st_phase := st_phase st; st_sent := st_sent st; st_accepted := st_accepted st ++ [payload] |}.

Definition queue_of (user tok : Z) (m : fanout) : option queue := List.find (fun q => q_id q =? tok) (bucket_of user m).

Section Stream.
Context (MAX_CONNECTIONS : Z).

(** [ensure_sse_capacity]: the 429, registering nothing. *)
Definition ensure_sse_capacity (user : Z) (m : fanout) : exn + unit :=
  if has_capacity MAX_CONNECTIONS user m then inr tt else inl TooManyRequestsException.

(** The first step of [sse_subscribe]: register, or return at once.  [tok] is the
    queue object of this generator. *)
Definition gen_start (tok : Z) (st : stream) (m : fanout) : stream * fanout :=
  match register MAX_CONNECTIONS (st_user st) tok m with
  | (Some _, m') => (move Waiting st, m')
  | (None, m') => (move Finished st, m')
  end.

(** One turn of the loop: a payload when there is one, a ping after the
    heartbeat interval without any. *)
Definition gen_next (tok : Z) (st : stream) (m : fanout) : stream * fanout :=
  match queue_of (st_user st) tok m with
  | Some {| q_items := payload :: _ |} => (emit (Data payload) st, consume (st_user st) tok m)
  | _ => (emit Ping st, m)
  end.

(** [aclose()] or cancellation: [finally] runs if the body was entered. *)
Definition gen_close (tok : Z) (st : stream) (m : fanout) : stream * fanout :=
  match st_phase st with
  | Waiting => (move Finished st, unregister (st_user st) tok m)
  | NotStarted | Finished => (move Finished st, m)
  end.

(** ** Streams of a process *)

Record sse_sys := { sy_fanout : fanout; sy_streams : gmap Z stream }.

Inductive sse_event :=
  | Open (tok user : Z)          (** [GET /notifications/stream] *)
  | Resume (tok : Z)             (** the server iterates the generator *)
  | Close (tok : Z)              (** the client leaves, at any point *)
  | Deliver (user : Z) (payload : ustr).

(** A delivery reaches the queues that are not full. *)
Definition accepts (user : Z) (payload : ustr) (m : fanout) (tok : Z) (st : stream) : stream :=
  if bool_decide (st_user st = user /\ st_phase st = Waiting) then
    match queue_of user tok m with
    | Some q => if (QUEUE_MAX_SIZE <=? length (q_items q))%nat then st else accept payload st
    | None => st
    end
  else st.

Definition sse_run (e : sse_event) (s : sse_sys) : sse_sys :=
  let on tok (f : Z -> stream -> fanout -> stream * fanout) :=
    match sy_streams s !! tok with
    | Some st => let '(st', m') := f tok st (sy_fanout s) in {| sy_fanout := m'; sy_streams := <[tok := st']> (sy_streams s) |}
    | None => s
    end in
  match e with
  | Open tok user =>
      match sy_streams s !! tok, ensure_sse_capacity user (sy_fanout s) with
      | None, inr _ => {| sy_fanout := sy_fanout s;
          sy_streams := <[tok := {| st_user := user; st_phase := NotStarted; st_sent := []; st_accepted := [] |}]> (sy_streams s) |}
      | _, _ => s
      end
  | Resume tok => on tok (fun tok st m =>
      match st_phase st with NotStarted => gen_start tok st m | Waiting => gen_next tok st m | Finished => (st, m) end)
  | Close tok => on tok gen_close
  | Deliver user payload =>
      {| sy_fanout := deliver user payload (sy_fanout s);
         sy_streams := map_imap (fun tok st => Some (accepts user payload (sy_fanout s) tok st)) (sy_streams s) |}
  end.

Definition sse_start : sse_sys := {| sy_fanout := ∅; sy_streams := ∅ |}.
Definition sse_after (es : list sse_event) : sse_sys := fold_left (fun s e => sse_run e s) es sse_start.

Definition payloads (fs : list sse_frame) : list ustr := omap (fun f => match f with Data p => Some p | Ping => None end) fs.

(** ** Buckets after an operation *)

Lemma bucket_register_ok user tok m : py_len (bucket_of user m) < MAX_CONNECTIONS ->
  register MAX_CONNECTIONS user tok m =
    (Some {| q_id := tok; q_items := [] |}, <[user := bucket_of user m ++ [{| q_id := tok; q_items := [] |}]]> m).
Proof. intros H. unfold register. by rewrite (proj2 (Z.leb_gt _ _)). Qed.

Lemma bucket_register_full user tok m u : MAX_CONNECTIONS <= py_len (bucket_of user m) ->
  (register MAX_CONNECTIONS user tok m).1 = None /\ bucket_of u (register MAX_CONNECTIONS user tok m).2 = bucket_of u m.
Proof.
  intros H. unfold register. rewrite (proj2 (Z.leb_le _ _)) by done. split; [done|]. cbn [snd].
  destruct (bucket_of user m) eqn:E; [|done]. unfold bucket_of in *. destruct (decide (u = user)) as [->|Hne].
  - by rewrite lookup_delete_eq, E.
  - by rewrite lookup_delete_ne.
Qed.
End Stream.

Lemma bucket_insert u user (b : list queue) m : bucket_of u (<[user := b]> m) = if decide (u = user) then b else bucket_of u m.
Proof. unfold bucket_of. destruct (decide (u = user)) as [->|Hne]; [by rewrite lookup_insert_eq|by rewrite lookup_insert_ne]. Qed.

Lemma bucket_unregister u user tok m : bucket_of u (unregister user tok m) =
  if decide (u = user) then List.filter (fun q => negb (q_id q =? tok)) (bucket_of user m) else bucket_of u m.
Proof.
  unfold unregister. destruct (bucket_of user m) as [|q b] eqn:E.
  - destruct (decide (u = user)) as [->|]; [by rewrite E|done].
  - destruct (List.filter _ (q :: b)) as [|q' b'] eqn:Ef.
    + unfold bucket_of. destruct (decide (u = user)) as [->|Hne]; [by rewrite lookup_delete_eq|by rewrite lookup_delete_ne].
    + rewrite bucket_insert. by destruct (decide (u = user)).
Qed.

Lemma bucket_fmap u user (f : queue -> queue) m :
  bucket_of u (match m !! user with Some b => <[user := f <$> b]> m | None => m end) =
  if decide (u = user) then f <$> bucket_of user m else bucket_of u m.
Proof.
  destruct (m !! user) as [b|] eqn:E.
  - rewrite bucket_insert. destruct (decide (u = user)) as [->|]; [|done]. unfold bucket_of. by rewrite E.
  - destruct (decide (u = user)) as [->|]; [|done]. unfold bucket_of. by rewrite E.
Qed.

Lemma find_queue (b : list queue) tok q : NoDup (q_id <$> b) -> q ∈ b -> q_id q = tok -> List.find (fun q => q_id q =? tok) b = Some q.
Proof.
  intros Hnd Hin <-. induction b as [|p b IH]; [by apply elem_of_nil in Hin|]. cbn [List.find]. apply NoDup_cons in Hnd as [Hp Hnd].
  apply elem_of_cons in Hin as [->|Hin]; [by rewrite Z.eqb_refl|].
  rewrite (proj2 (Z.eqb_neq (q_id p) (q_id q))); [by apply IH|]. intros E. apply Hp. rewrite E. by apply list_elem_of_fmap_2.
Qed.

Lemma find_queue_some (b : list queue) tok q : List.find (fun q => q_id q =? tok) b = Some q -> q ∈ b /\ q_id q = tok.
Proof. intros [H1 H2]%List.find_some. split; [by apply list_elem_of_In|by apply Z.eqb_eq]. Qed.

Lemma payloads_app fs gs : payloads (fs ++ gs) = payloads fs ++ payloads gs.
Proof. unfold payloads. by rewrite omap_app. Qed.

(** ** The invariant *)

Definition running (user tok : Z) (s : sse_sys) : Prop :=
  exists st, sy_streams s !! tok = Some st /\ st_user st = user /\ st_phase st = Waiting.

(** Queues are those of the waiting streams, each holding what its stream has
    accepted and not sent; the others have sent a prefix of what they accepted. *)
Definition queues_match (s : sse_sys) : Prop :=
  forall u, NoDup (q_id <$> bucket_of u (sy_fanout s)) /\
    (forall q, q ∈ bucket_of u (sy_fanout s) -> exists st, sy_streams s !! q_id q = Some st /\ st_user st = u /\
       st_phase st = Waiting /\ payloads (st_sent st) ++ q_items q = st_accepted st) /\
    (forall tok, running u tok s -> exists q, q ∈ bucket_of u (sy_fanout s) /\ q_id q = tok).

Definition stream_ok (st : stream) : Prop :=
  payloads (st_sent st) `prefix_of` st_accepted st /\ (st_phase st = NotStarted -> st_sent st = [] /\ st_accepted st = []).

Lemma stream_ok_finished st : stream_ok st -> stream_ok (move Finished st).
Proof. intros [H _]. split; [exact H|]. cbn. discriminate. Qed.

Definition sse_inv (MAX : Z) (s : sse_sys) : Prop :=
  sse_ok MAX (sy_fanout s) /\ queues_match s /\ map_Forall (fun _ st => stream_ok st) (sy_streams s).

Lemma queue_of_waiting MAX s tok st : sse_inv MAX s -> sy_streams s !! tok = Some st -> st_phase st = Waiting ->
  exists q, queue_of (st_user st) tok (sy_fanout s) = Some q /\ q ∈ bucket_of (st_user st) (sy_fanout s) /\ q_id q = tok /\
    payloads (st_sent st) ++ q_items q = st_accepted st.
Proof.
  intros (_ & Hm & _) Hst Hw. destruct (Hm (st_user st)) as (Hnd & Hq & Hr). destruct (Hr tok) as (q & Hin & Hid); [by exists st|].
  exists q. split; [by apply find_queue|]. split; [done|]. split; [done|]. destruct (Hq q Hin) as (st' & Hst' & _ & _ & E).
  rewrite Hid in Hst'. by simplify_eq.
Qed.

(** A stream that is and stays out of the waiting ones may change. *)
Lemma inv_aside MAX m sts tok st' : sse_inv MAX {| sy_fanout := m; sy_streams := sts |} ->
  (forall st, sts !! tok = Some st -> st_phase st <> Waiting) -> st_phase st' <> Waiting -> stream_ok st' ->
  sse_inv MAX {| sy_fanout := m; sy_streams := <[tok := st']> sts |}.
Proof.
  intros (Hok & Hm & Hp) Hn Hn' Hs. split_and!; [done| |by apply map_Forall_insert_2]. intros u. destruct (Hm u) as (Hnd & Hq & Hr).
  cbn [sy_fanout sy_streams] in *. split_and!; [done| |].
  - intros q Hin. destruct (Hq q Hin) as (st0 & Hst0 & Hu & Hw & H). exists st0. split; [|done]. cbn [sy_streams]. rewrite lookup_insert_ne; [done|].
    intros ->. by apply (Hn st0).
  - intros t (st0 & Hst0 & Hu & Hw). cbn [sy_streams] in Hst0. apply lookup_insert_Some in Hst0 as [[_ ->]|[_ Hst0]]; [done|]. apply Hr. by exists st0.
Qed.

Lemma inv_fanout MAX m m' sts : (forall u, bucket_of u m' = bucket_of u m) -> sse_ok MAX m' ->
  sse_inv MAX {| sy_fanout := m; sy_streams := sts |} -> sse_inv MAX {| sy_fanout := m'; sy_streams := sts |}.
Proof.
  intros Hb Hok (_ & Hm & Hp). split_and!; [done| |done]. intros u. destruct (Hm u) as (Hnd & Hq & Hr). cbn [sy_fanout sy_streams] in *.
  rewrite Hb. split_and!; [done|done|]. exact Hr.
Qed.

Lemma inv_open MAX s tok user : sse_inv MAX s -> sse_inv MAX (sse_run MAX (Open tok user) s).
Proof.
  intros Hinv. cbn [sse_run]. destruct (sy_streams s !! tok) eqn:E; [done|]. destruct (ensure_sse_capacity MAX user (sy_fanout s)); [done|].
  destruct s as [m sts]. cbn [sy_fanout sy_streams] in *. apply inv_aside; [done|congruence|done|]. split; [done|done].
Qed.

(** A new queue for a stream that starts. *)
Lemma inv_registered MAX m sts tok st : sse_inv MAX {| sy_fanout := m; sy_streams := sts |} -> sts !! tok = Some st -> st_phase st = NotStarted ->
  let m' := <[st_user st := bucket_of (st_user st) m ++ [{| q_id := tok; q_items := [] |}]]> m in
  sse_ok MAX m' -> sse_inv MAX {| sy_fanout := m'; sy_streams := <[tok := move Waiting st]> sts |}.
Proof.
  intros (Hok & Hm & Hp) Hst Hph m' Hok'. destruct (Hp tok st Hst) as [_ Hnew]. destruct (Hnew Hph) as [Hsent Hacc].
  assert (forall u q, q ∈ bucket_of u m -> q_id q <> tok) as Hfresh.
  { intros u q Hin E. destruct (Hm u) as (_ & Hq & _). destruct (Hq q Hin) as (st0 & Hst0 & _ & Hw & _). cbn [sy_streams] in Hst0.
    rewrite E in Hst0. simplify_eq. congruence. }
  split_and!; [done| |apply map_Forall_insert_2; [|done]; split; [by cbn; rewrite Hsent, Hacc|done]].
  intros u. destruct (Hm u) as (Hnd & Hq & Hr). cbn [sy_fanout sy_streams] in *. unfold m'. rewrite bucket_insert. split_and!.
  - destruct (decide (u = st_user st)) as [->|]; [|done]. rewrite fmap_app. apply NoDup_app. split; [done|]. split; [|apply NoDup_singleton].
    intros x (q & -> & Hin)%list_elem_of_fmap Hx%list_elem_of_singleton. by apply (Hfresh _ q Hin).
  - intros q Hin. assert (q ∈ bucket_of u m \/ u = st_user st /\ q = {| q_id := tok; q_items := [] |}) as [Hin'|[-> ->]].
    { destruct (decide (u = st_user st)) as [->|]; [|by left]. apply elem_of_app in Hin as [|Hin%list_elem_of_singleton]; auto. }
    + destruct (Hq q Hin') as (st0 & Hst0 & H). exists st0. split; [|done]. rewrite lookup_insert_ne; [done|]. intros E. by apply (Hfresh u q).
    + exists (move Waiting st). cbn [q_id q_items]. rewrite lookup_insert_eq. split_and!; try done. cbn [st_sent st_accepted move]. by rewrite Hsent, Hacc.
  - intros t (st0 & Hst0 & Hu & Hw). cbn [sy_streams] in Hst0. apply lookup_insert_Some in Hst0 as [[<- <-]|[_ Hst0]].
    + cbn [st_user move] in Hu. rewrite decide_True by done. eexists. split; [apply elem_of_app; right; apply list_elem_of_here|done].
    + destruct (Hr t) as (q & Hin & Hid); [by exists st0|]. exists q. split; [|done].
      destruct (decide (u = st_user st)) as [->|]; [apply elem_of_app; by left|done].
Qed.

Lemma inv_start MAX m sts tok st : sse_inv MAX {| sy_fanout := m; sy_streams := sts |} -> sts !! tok = Some st -> st_phase st = NotStarted ->
  let '(st', m') := gen_start MAX tok st m in sse_inv MAX {| sy_fanout := m'; sy_streams := <[tok := st']> sts |}.
Proof.
  intros Hinv Hst Hph. pose proof Hinv as (Hok & Hm & Hp). unfold gen_start.
  assert (sse_ok MAX (register MAX (st_user st) tok m).2) as Hok'.
  { eapply sse_step_ok; [done|]. apply sse_register. intros u b q Hb Hin E. destruct (Hm u) as (_ & Hq & _).
    destruct (Hq q) as (st0 & Hst0 & _ & Hw & _); [cbn [sy_fanout]; unfold bucket_of; by rewrite Hb|]. cbn [sy_streams] in Hst0. rewrite E in Hst0. simplify_eq. congruence. }
  destruct (Z.lt_ge_cases (py_len (bucket_of (st_user st) m)) MAX) as [Hlt|Hge].
  - rewrite bucket_register_ok in * by done. by apply inv_registered.
  - destruct (register MAX (st_user st) tok m) as [o m'] eqn:E.
    destruct (bucket_register_full MAX (st_user st) tok m 0 Hge) as [Ho _]. rewrite E in Ho. cbn [fst] in Ho. subst o.
    apply (inv_fanout MAX m); [|done|].
    + intros u. pose proof (bucket_register_full MAX (st_user st) tok m u Hge) as [_ H]. by rewrite E in H.
    + apply inv_aside; [done|congruence|done|]. by apply stream_ok_finished, (Hp tok).
Qed.

(** A waiting stream and its queue change together; the others keep theirs. *)
Lemma inv_update MAX m m' sts tok st st' (f : queue -> queue) :
  sse_inv MAX {| sy_fanout := m; sy_streams := sts |} -> sts !! tok = Some st -> sse_ok MAX m' ->
  st_user st' = st_user st -> st_phase st' = Waiting -> stream_ok st' -> (forall q, q_id (f q) = q_id q) -> (forall q, q_id q <> tok -> f q = q) ->
  (forall u, bucket_of u m' = if decide (u = st_user st) then f <$> bucket_of (st_user st) m else bucket_of u m) ->
  (forall q, q ∈ bucket_of (st_user st) m -> q_id q = tok -> payloads (st_sent st') ++ q_items (f q) = st_accepted st') ->
  st_phase st = Waiting ->
  sse_inv MAX {| sy_fanout := m'; sy_streams := <[tok := st']> sts |}.
Proof.
  intros (Hok & Hm & Hp) Hst Hok' Hu' Hw' Hs' Hid Hother Hb Hacc Hw. split_and!; [done| |by apply map_Forall_insert_2].
  intros u. destruct (Hm u) as (Hnd & Hq & Hr). cbn [sy_fanout sy_streams] in *. rewrite Hb. split_and!.
  - destruct (decide (u = st_user st)) as [->|]; [|done]. rewrite <-list_fmap_compose. erewrite list_fmap_ext; [exact Hnd|]. intros i q _. apply Hid.
  - assert (forall q, q ∈ bucket_of u m -> q_id q <> tok -> exists st0, <[tok:=st']> sts !! q_id q = Some st0 /\ st_user st0 = u /\
      st_phase st0 = Waiting /\ payloads (st_sent st0) ++ q_items q = st_accepted st0) as Hkeep.
    { intros q Hin Hne. destruct (Hq q Hin) as (st0 & Hst0 & H). exists st0. rewrite lookup_insert_ne by congruence. by split. }
    destruct (decide (u = st_user st)) as [->|Hne].
    + intros q (p & -> & Hin)%list_elem_of_fmap. rewrite Hid. destruct (decide (q_id p = tok)) as [E|E]; [|rewrite Hother by done; by apply Hkeep].
      exists st'. rewrite E, lookup_insert_eq. split_and!; auto.
    + intros q Hin. apply Hkeep; [done|]. intros E. destruct (Hq q Hin) as (st0 & Hst0 & Hu0 & _). rewrite E in Hst0. simplify_eq.
  - intros t (st0 & Hst0 & Hu0 & Hw0). cbn [sy_streams] in Hst0.
    assert (running u t {| sy_fanout := m; sy_streams := sts |}) as Hrun.
    { apply lookup_insert_Some in Hst0 as [[<- <-]|[_ Hst0]]; [|by exists st0]. exists st. split_and!; [done|congruence|done]. }
    destruct (Hr t Hrun) as (q & Hin & E). destruct (decide (u = st_user st)) as [->|]; [|by exists q].
    exists (f q). rewrite Hid. split; [by apply list_elem_of_fmap_2|done].
Qed.

Lemma inv_next MAX m sts tok st : sse_inv MAX {| sy_fanout := m; sy_streams := sts |} -> sts !! tok = Some st -> st_phase st = Waiting ->
  let '(st', m') := gen_next tok st m in sse_inv MAX {| sy_fanout := m'; sy_streams := <[tok := st']> sts |}.
Proof.
  intros Hinv Hst Hw. destruct (queue_of_waiting MAX _ tok st Hinv Hst Hw) as (q & Eq & Hin & Hid & Hacc). cbn [sy_fanout] in *.
  pose proof Hinv as (Hok & Hm & Hp). destruct (Hm (st_user st)) as (Hnd & _). cbn [sy_fanout] in Hnd.
  assert (forall p, p ∈ bucket_of (st_user st) m -> q_id p = tok -> p = q) as Hone.
  { intros p Hp' E. assert (queue_of (st_user st) tok m = Some p) by (by apply find_queue). congruence. }
  unfold gen_next. rewrite Eq. destruct q as [i [|payload items]]; cbn [q_id q_items] in *.
  - eapply (inv_update MAX m m sts tok st _ id); try done.
    + destruct (Hp tok st Hst) as [Hpre _]. split; [|cbn; congruence]. cbn [st_sent st_accepted emit]. by rewrite payloads_app, app_nil_r.
    + intros u. destruct (decide (u = st_user st)) as [->|]; [by rewrite list_fmap_id|done].
    + intros p Hp' E. rewrite (Hone p Hp' E). cbn [st_sent st_accepted emit id q_items]. by rewrite payloads_app, app_nil_r.
  - eapply (inv_update MAX m _ sts tok st _ (fun q => if q_id q =? tok then {| q_id := tok; q_items := drop 1 (q_items q) |} else q)); try done.
    + eapply sse_step_ok; [done|]. apply sse_consume.
    + destruct (Hp tok st Hst) as [Hpre _]. split; [|cbn; congruence]. cbn [st_sent st_accepted emit]. rewrite payloads_app, <-Hacc.
      cbn [payloads omap list_omap app]. exists items. by rewrite <-app_assoc.
    + intros p. by destruct (Z.eqb_spec (q_id p) tok).
    + intros p Hne. by rewrite (proj2 (Z.eqb_neq _ _)).
    + intros u. apply bucket_fmap.
    + intros p Hp' E. rewrite (Hone p Hp' E). cbn [st_sent st_accepted emit q_id q_items]. rewrite Hid, Z.eqb_refl. cbn [q_items drop].
      rewrite payloads_app, <-Hacc, <-app_assoc. done.
Qed.

Lemma inv_close MAX m sts tok st : sse_inv MAX {| sy_fanout := m; sy_streams := sts |} -> sts !! tok = Some st ->
  let '(st', m') := gen_close tok st m in sse_inv MAX {| sy_fanout := m'; sy_streams := <[tok := st']> sts |}.
Proof.
  intros Hinv Hst. pose proof Hinv as (Hok & Hm & Hp). unfold gen_close.
  assert (stream_ok (move Finished st)) as Hs by (by apply stream_ok_finished, (Hp tok)).
  destruct (st_phase st) eqn:Hw; [apply inv_aside; [done|congruence|done|done]| |apply inv_aside; [done|congruence|done|done]].
  split_and!; [eapply sse_step_ok; [done|]; apply sse_unregister| |by apply map_Forall_insert_2].
  intros u. destruct (Hm u) as (Hnd & Hq & Hr). cbn [sy_fanout sy_streams] in *. rewrite bucket_unregister.
  assert (forall q, q ∈ (if decide (u = st_user st) then List.filter (fun q => negb (q_id q =? tok)) (bucket_of (st_user st) m) else bucket_of u m) <->
    q ∈ bucket_of u m /\ q_id q <> tok) as Hin.
  { intros q. destruct (decide (u = st_user st)) as [->|Hne].
    - by rewrite list_elem_of_In, filter_In, <-list_elem_of_In, negb_true_iff, Z.eqb_neq.
    - split; [|by intros []]. intros H. split; [done|]. intros E. destruct (Hq q H) as (st0 & Hst0 & Hu0 & _). rewrite E in Hst0. simplify_eq. }
  split_and!.
  - destruct (decide (u = st_user st)) as [->|]; [|done]. eapply sublist_NoDup; [exact Hnd|]. apply fmap_sublist.
    clear. induction (bucket_of (st_user st) m) as [|x l IH]; cbn; [constructor|]. destruct (negb _); by constructor.
  - intros q [H Hne]%Hin. destruct (Hq q H) as (st0 & Hst0 & Hrest). exists st0. rewrite lookup_insert_ne by congruence. by split.
  - intros t (st0 & Hst0 & Hu0 & Hw0). cbn [sy_streams] in Hst0. apply lookup_insert_Some in Hst0 as [[_ <-]|[Hne Hst0]]; [done|].
    destruct (Hr t) as (q & H & E); [by exists st0|]. exists q. split; [|done]. apply Hin. split; [done|congruence].
Qed.

(** What a delivery does to a stream and to its queue. *)
Lemma accepts_queue user payload m tok st q : queue_of user tok m = Some q -> st_user st = user -> st_phase st = Waiting ->
  payloads (st_sent st) ++ q_items q = st_accepted st ->
  payloads (st_sent (accepts user payload m tok st)) ++ q_items (put_nowait payload q) = st_accepted (accepts user payload m tok st).
Proof.
  intros Eq Hu Hw E. unfold accepts, put_nowait. rewrite bool_decide_eq_true_2 by done. rewrite Eq.
  destruct (_ <=? _)%nat; [done|]. cbn [st_sent st_accepted accept q_items]. by rewrite app_assoc, E.
Qed.

Lemma accepts_keeps user payload m tok st : let st' := accepts user payload m tok st in
  st_user st' = st_user st /\ st_phase st' = st_phase st /\ (stream_ok st -> stream_ok st') /\ (st_user st <> user -> st' = st).
Proof.
  unfold accepts. case_bool_decide as Hc; [|done]. destruct (queue_of user tok m) as [q|]; [|done].
  destruct (_ <=? _)%nat; [done|]. split_and!; try done; [|intros Hne; by destruct Hc].
  intros [H1 H2]. split; [|cbn; intros E; destruct Hc; congruence]. cbn [st_sent st_accepted accept]. etransitivity; [exact H1|by exists [payload]].
Qed.

Lemma put_nowait_id payload q : q_id (put_nowait payload q) = q_id q.
Proof. unfold put_nowait. by destruct (_ <=? _)%nat. Qed.

Lemma inv_deliver MAX s user payload : sse_inv MAX s -> sse_inv MAX (sse_run MAX (Deliver user payload) s).
Proof.
  intros Hinv. pose proof Hinv as (Hok & Hm & Hp). cbn [sse_run].
  assert (forall t, map_imap (fun tok st => Some (accepts user payload (sy_fanout s) tok st)) (sy_streams s) !! t =
    accepts user payload (sy_fanout s) t <$> sy_streams s !! t) as Hl.
  { intros t. rewrite map_lookup_imap. by destruct (sy_streams s !! t). }
  split_and!; cbn [sy_fanout sy_streams]; [eapply sse_step_ok; [done|]; apply sse_deliver| |].
  - intros u. destruct (Hm u) as (Hnd & Hq & Hr). unfold deliver. cbn [sy_fanout sy_streams]. rewrite !bucket_fmap. split_and!.
    + destruct (decide (u = user)) as [->|]; [|done]. rewrite <-list_fmap_compose. erewrite list_fmap_ext; [exact Hnd|]. intros i q _. apply put_nowait_id.
    + assert (forall q, q ∈ bucket_of u (sy_fanout s) -> exists st, map_imap (fun tok st => Some (accepts user payload (sy_fanout s) tok st)) (sy_streams s) !! q_id q
        = Some (accepts user payload (sy_fanout s) (q_id q) st) /\ st_user st = u /\ st_phase st = Waiting /\ payloads (st_sent st) ++ q_items q = st_accepted st) as Hq'.
      { intros q Hin. destruct (Hq q Hin) as (st & Hst & H). exists st. split; [|done]. by rewrite Hl, Hst. }
      destruct (decide (u = user)) as [->|Hne].
      * intros q (p & -> & Hin)%list_elem_of_fmap. destruct (Hq' p Hin) as (st & Hst & Hu & Hw & E). rewrite put_nowait_id. eexists. split; [exact Hst|].
        destruct (accepts_keeps user payload (sy_fanout s) (q_id p) st) as (-> & -> & _). split_and!; [done|done|].
        apply accepts_queue; try done. by apply find_queue.
      * intros q Hin. destruct (Hq' q Hin) as (st & Hst & Hu & Hw & E). exists st. split; [|done]. rewrite Hst. f_equal.
        apply accepts_keeps. congruence.
    + intros t (st & Hst & Hu & Hw). cbn [sy_streams] in Hst. rewrite Hl in Hst. apply fmap_Some in Hst as (st0 & Hst0 & ->).
      destruct (accepts_keeps user payload (sy_fanout s) t st0) as (Hu' & Hw' & _).
      destruct (Hr t) as (q & Hin & E); [exists st0; split_and!; congruence|]. destruct (decide (u = user)) as [->|]; [|by exists q].
      exists (put_nowait payload q). rewrite put_nowait_id. split; [by apply list_elem_of_fmap_2|done].
  - intros t st Hst. rewrite Hl in Hst. apply fmap_Some in Hst as (st0 & Hst0 & ->). apply accepts_keeps. by apply (Hp t).
Qed.

Lemma inv_run MAX e s : sse_inv MAX s -> sse_inv MAX (sse_run MAX e s).
Proof.
  intros Hinv. destruct e as [tok user|tok|tok|user payload]; [by apply inv_open| | |by apply inv_deliver].
  - cbn [sse_run]. destruct (sy_streams s !! tok) as [st|] eqn:Hst; [|done]. destruct s as [m sts]. cbn [sy_fanout sy_streams] in *.
    destruct (st_phase st) eqn:Hw.
    + pose proof (inv_start MAX m sts tok st Hinv Hst Hw) as H. by destruct (gen_start MAX tok st m).
    + pose proof (inv_next MAX m sts tok st Hinv Hst Hw) as H. by destruct (gen_next tok st m).
    + rewrite insert_id; done.
  - cbn [sse_run]. destruct (sy_streams s !! tok) as [st|] eqn:Hst; [|done]. destruct s as [m sts]. cbn [sy_fanout sy_streams] in *.
    pose proof (inv_close MAX m sts tok st Hinv Hst) as H. by destruct (gen_close tok st m).
Qed.

Lemma inv_after MAX es : sse_inv MAX (sse_after MAX es).
Proof.
  unfold sse_after. assert (sse_inv MAX sse_start) as H.
  { split_and!; [intros u b H; cbn [sy_fanout sse_start] in H; by rewrite lookup_empty in H| |apply map_Forall_empty]. intros u. split_and!; [constructor| |].
    - intros q Hin. by apply elem_of_nil in Hin.
    - intros t (st & Hst & _). cbn [sy_streams sse_start] in Hst. by rewrite lookup_empty in Hst. }
  revert H. generalize sse_start. induction es as [|e es IH]; intros s Hs; [done|]. cbn [fold_left]. by apply IH, inv_run.
Qed.

(** ** Theorems *)

Definition open_streams (user : Z) (s : sse_sys) : list (Z * stream) :=
  List.filter (fun p => bool_decide (st_user p.2 = user /\ st_phase p.2 = Waiting)) (map_to_list (sy_streams s)).

(** C19. A stream holds a slot exactly while it runs: after any sequence of
    openings, iterations, disconnections and deliveries, the queues of a user are
    those of the user's running streams, one each, and never more than the limit;
    so a user without a running stream has no entry at all and is let in, however
    the earlier streams ended, and whether or not they had started. *)
Theorem sse_slots_follow_streams (MAX : Z) (es : list sse_event) (user : Z) :
  let s := sse_after MAX es in
  q_id <$> bucket_of user (sy_fanout s) ≡ₚ (open_streams user s).*1 /\
  (0 <= MAX -> py_len (open_streams user s) <= MAX) /\
  (open_streams user s = [] -> sy_fanout s !! user = None) /\
  (open_streams user s = [] -> 0 < MAX -> ensure_sse_capacity MAX user (sy_fanout s) = inr tt).
Proof.
  intros s. destruct (inv_after MAX es) as (Hok & Hm & _). fold s in Hok, Hm. destruct (Hm user) as (Hnd & Hq & Hr).
  assert (q_id <$> bucket_of user (sy_fanout s) ≡ₚ (open_streams user s).*1) as HP.
  { apply list.NoDup_Permutation; [exact Hnd| |].
    - unfold open_streams. apply (sublist_NoDup _ (map_to_list (sy_streams s)).*1); [apply NoDup_fst_map_to_list|]. apply fmap_sublist.
      induction (map_to_list (sy_streams s)) as [|x l IH]; cbn; [constructor|]. destruct (bool_decide _); by constructor.
    - intros t. unfold open_streams. rewrite !list_elem_of_fmap. split.
      + intros (q & -> & Hin). destruct (Hq q Hin) as (st & Hst & Hu & Hw & _). exists (q_id q, st). split; [done|].
        apply list_elem_of_In, filter_In. split; [by apply list_elem_of_In, elem_of_map_to_list|]. by apply bool_decide_eq_true.
      + intros ([t' st] & -> & [Hin Hb]%list_elem_of_In%filter_In). apply bool_decide_eq_true in Hb as [Hu Hw].
        apply list_elem_of_In, elem_of_map_to_list in Hin. destruct (Hr t') as (q & Hqin & E); [by exists st|]. exists q. by rewrite E. }
  assert (open_streams user s = [] -> bucket_of user (sy_fanout s) = []) as Hnil.
  { intros E. rewrite E in HP. by apply Permutation_nil_r, fmap_nil_inv in HP. }
  split_and!.
  - exact HP.
  - intros H0. apply Permutation_length in HP. rewrite !length_fmap in HP. unfold py_len. rewrite <-HP. unfold bucket_of.
    destruct (sy_fanout s !! user) as [b|] eqn:E; [|done]. destruct (Hok user b E) as (_ & Hb & _). done.
  - intros E%Hnil. unfold bucket_of in E. destruct (sy_fanout s !! user) as [b|] eqn:Eb; [|done].
    cbn [default from_option id] in E. subst b. by destruct (Hok user [] Eb) as (? & _).
  - intros E%Hnil HM. unfold ensure_sse_capacity, has_capacity. rewrite E. by rewrite (proj2 (Z.ltb_lt _ _)).
Qed.

Fixpoint resume_n (MAX : Z) (n : nat) (tok : Z) (s : sse_sys) : sse_sys :=
  match n with O => s | S n' => resume_n MAX n' tok (sse_run MAX (Resume tok) s) end.

Lemma resume_waiting MAX s tok st q : sse_inv MAX s -> sy_streams s !! tok = Some st -> st_phase st = Waiting ->
  queue_of (st_user st) tok (sy_fanout s) = Some q ->
  sy_streams (sse_run MAX (Resume tok) s) !! tok =
    Some (emit (match q_items q with p :: _ => Data p | [] => Ping end) st).
Proof.
  intros Hinv Hst Hw Eq. cbn [sse_run]. rewrite Hst, Hw. unfold gen_next. rewrite Eq.
  destruct q as [i [|p l]]; cbn [sy_streams q_items]; apply lookup_insert_eq.
Qed.

Lemma resume_drains MAX n s tok st : sse_inv MAX s -> sy_streams s !! tok = Some st -> st_phase st = Waiting ->
  (forall q, queue_of (st_user st) tok (sy_fanout s) = Some q -> length (q_items q) = n) ->
  exists st', sy_streams (resume_n MAX n tok s) !! tok = Some st' /\ st_phase st' = Waiting /\ st_accepted st' = st_accepted st /\
    payloads (st_sent st') = st_accepted st /\ length (st_sent st') = (length (st_sent st) + n)%nat.
Proof.
  revert s st. induction n as [|n IH]; intros s st Hinv Hst Hw Hlen; destruct (queue_of_waiting MAX s tok st Hinv Hst Hw) as (q & Eq & _ & _ & E);
    specialize (Hlen q Eq); cbn [resume_n].
  - exists st. destruct q as [i [|]]; [|done]. cbn [q_items] in E. rewrite app_nil_r in E. by split_and!.
  - pose proof (resume_waiting MAX s tok st q Hinv Hst Hw Eq) as Hst1. destruct q as [i [|p l]]; [done|]. cbn [q_items] in *.
    destruct (IH (sse_run MAX (Resume tok) s) (emit (Data p) st)) as (st' & H1 & H2 & H3 & H4 & H5); [by apply inv_run|done|done| |].
    + intros q1 Eq1. destruct (queue_of_waiting MAX _ tok _ (inv_run MAX (Resume tok) s Hinv) Hst1 Hw) as (q2 & Eq2 & _ & _ & E2).
      cbn [st_user emit] in Eq2, Eq1. rewrite Eq1 in Eq2. injection Eq2 as <-. cbn [st_sent st_accepted emit] in E2. rewrite <-E, payloads_app, <-app_assoc in E2.
      apply app_inv_head in E2. cbn in E2. injection E2 as E2. rewrite E2. cbn in Hlen. lia.
    + exists st'. split_and!; try done. rewrite H5. cbn [st_sent emit]. rewrite length_app. cbn. lia.
Qed.

(** C20. What a stream sends, in every history: the payloads its queue took, in
    their order, each once, heartbeats between them; a running stream has sent all
    but what its queue still holds, and that many more iterations send the rest,
    one frame each; a finished one has sent a prefix.  A payload for a user is
    taken by every running stream of the user whose queue is not full, and by no
    stream of anybody else. *)
Theorem sse_stream_in_order (MAX : Z) (es : list sse_event) (tok : Z) (st : stream) :
  let s := sse_after MAX es in
  sy_streams s !! tok = Some st ->
  payloads (st_sent st) `prefix_of` st_accepted st /\
  (st_phase st = Waiting ->
     exists q, queue_of (st_user st) tok (sy_fanout s) = Some q /\ st_accepted st = payloads (st_sent st) ++ q_items q /\
       (length (q_items q) <= QUEUE_MAX_SIZE)%nat /\
       (exists st', sy_streams (resume_n MAX (length (q_items q)) tok s) !! tok = Some st' /\ payloads (st_sent st') = st_accepted st /\
          length (st_sent st') = (length (st_sent st) + length (q_items q))%nat) /\
       (forall payload, exists st', sy_streams (sse_run MAX (Deliver (st_user st) payload) s) !! tok = Some st' /\ st_sent st' = st_sent st /\
          st_accepted st' = st_accepted st ++ (if (length (q_items q) <? QUEUE_MAX_SIZE)%nat then [payload] else []))) /\
  (forall user payload, user <> st_user st -> sy_streams (sse_run MAX (Deliver user payload) s) !! tok = Some st).
Proof.
  intros s Hst. pose proof (inv_after MAX es) as Hinv. fold s in Hinv. pose proof Hinv as (Hok & Hm & Hp). split_and!.
  - by apply (Hp tok).
  - intros Hw. destruct (queue_of_waiting MAX s tok st Hinv Hst Hw) as (q & Eq & Hin & Hid & E). exists q. split_and!; [done|done| | |].
    + unfold bucket_of in Hin. destruct (sy_fanout s !! st_user st) as [b|] eqn:Eb; [|by apply elem_of_nil in Hin].
      destruct (Hok _ b Eb) as (_ & _ & _ & HF). rewrite Forall_forall in HF. by apply HF.
    + destruct (resume_drains MAX (length (q_items q)) s tok st) as (st' & H1 & _ & _ & H2 & H3); try done; [|by exists st'].
      intros q' Eq'. congruence.
    + intros payload. cbn [sse_run sy_streams]. rewrite map_lookup_imap, Hst. cbn [mbind option_bind]. eexists. split; [reflexivity|].
      unfold accepts. rewrite bool_decide_eq_true_2 by done. rewrite Eq.
      destruct (Nat.leb_spec QUEUE_MAX_SIZE (length (q_items q))), (Nat.ltb_spec (length (q_items q)) QUEUE_MAX_SIZE); try lia; [|done].
      split; [done|by rewrite app_nil_r].
  - intros user payload Hne. cbn [sse_run sy_streams]. rewrite map_lookup_imap, Hst. cbn [mbind option_bind]. f_equal.
    apply accepts_keeps. congruence.
Qed.

(** The window between check and registration: two requests that both found the
    last slot free do not exceed the limit; the later one ends its stream at once,
    after the 200. *)
Theorem capacity_race_ends_stream :
  let s := sse_after 1 [Open 1 7; Open 2 7; Resume 1; Resume 2] in
  (st_phase <$> sy_streams s !! 1) = Some Waiting /\ (st_phase <$> sy_streams s !! 2) = Some Finished /\
  (st_sent <$> sy_streams s !! 2) = Some [] /\ length (bucket_of 7 (sy_fanout s)) = 1%nat.
Proof. by vm_compute. Qed.

(** ** Witnesses *)

Lemma sse_slots_follow_streams_witness :
  ensure_sse_capacity 1 7 (sy_fanout (sse_after 1 [Open 1 7; Resume 1; Deliver 7 (lit "x"); Close 1])) = inr tt.
Proof.
  destruct (sse_slots_follow_streams 1 [Open 1 7; Resume 1; Deliver 7 (lit "x"); Close 1] 7) as (_ & _ & _ & H).
  apply H; [vm_compute; reflexivity|lia].
Defined.

Lemma sse_stream_in_order_witness :
  exists st', sy_streams (resume_n 5 1 1 (sse_after 5 [Open 1 7; Resume 1; Deliver 7 (lit "a")])) !! 1 = Some st' /\
    payloads (st_sent st') = [lit "a"].
Proof.
  destruct (sy_streams (sse_after 5 [Open 1 7; Resume 1; Deliver 7 (lit "a")]) !! 1) as [st|] eqn:E; [|vm_compute in E; discriminate E].
  destruct (sse_stream_in_order 5 [Open 1 7; Resume 1; Deliver 7 (lit "a")] 1 st E) as (_ & H & _).
  assert (st = {| st_user := 7; st_phase := Waiting; st_sent := []; st_accepted := [lit "a"] |}) as -> by (vm_compute in E; injection E as <-; reflexivity).
  destruct (H eq_refl) as (q & Eq & Ha & _ & (st' & H1 & H2 & _) & _). exists st'. split; [|exact H2].
  assert (length (q_items q) = 1%nat) as Hl by (cbn [st_sent st_accepted payloads omap list_omap app] in Ha; rewrite <-Ha; reflexivity).
  rewrite Hl in H1. exact H1.
Defined.
