(* ===== verification/Lifespan.v ===== *)
(** * Start-up, health and shutdown ([main.py], [db/connection.py],
    [infra/redis.py], [infra/queue.py], [worker/settings.py])

    Bounded probes of the database, the order in which a process comes up and
    what may be missing when it serves, the readiness answer, and the shutdown
    sequence.  Times are milliseconds; what the driver, the pools and the
    background tasks do are arguments. *)

From S2P Require Import Prelude Ids Common Redis Db World Posts Views Json Settings Responses Jobs.

(** ** Probes ([db/connection.py]) *)

(** A probe left alone ends after [tk_end], well or not; once cancelled it ends
    after [tk_cancel1], and after [tk_cancel2] when cancelled again. *)
Record task := { tk_end : option (Z * bool); tk_cancel1 : option Z; tk_cancel2 : option Z }.

(** [leaked]: still running when the caller gives up. *)
Inductive probe := Answered | Failed | TimedOut (leaked : bool).

Definition ends_within (timeout : Z) (d : option Z) : option Z :=
  match d with Some t => if t <=? timeout then Some t else None | None => None end.

(** [_bounded]: the outcome and the time it took. *)
Definition bounded (timeout : Z) (k : task) : probe * Z :=
  let cancel :=
    match ends_within timeout (tk_cancel1 k) with
    | Some t => (TimedOut false, timeout + t)
    | None =>
        match ends_within timeout (tk_cancel2 k) with
        | Some t => (TimedOut false, timeout + timeout + t)
        | None => (TimedOut true, timeout + timeout + timeout)
        end
    end in
  match tk_end k with
  | Some (t, ok) => if t <=? timeout then ((if ok : bool then Answered else Failed), t) else cancel
  | None => cancel
  end.

(** [_try_connect]: writer, then reader. *)
Definition try_connect (timeout : Z) (writer reader : task) : bool * Z :=
  match bounded timeout writer with
  | (Answered, t) =>
      match bounded timeout reader with
      | (Answered, t') => (true, t + t')
      | (_, t') => (false, t + t')
      end
  | (_, t) => (false, t)
  end.

Definition check_database (timeout : Z) (writer reader : task) : bool := (try_connect timeout writer reader).1.

(** The attempts from number [i] on: the answer, the time, the attempts made. *)
Fixpoint init_attempts (n : nat) (timeout delay : Z) (probes : nat -> task * task) (i : nat) : bool * Z * nat :=
  match n with
  | O => (false, 0, O)
  | S n' =>
      let '(ok, t) := try_connect timeout (probes i).1 (probes i).2 in
      if ok : bool then (true, t, 1%nat)
      else
        let pause := match n' with O => 0 | _ => delay end in
        let '(r, t', k) := init_attempts n' timeout delay probes (S i) in
        (r, t + pause + t', S k)
  end.

Definition init_database (max_attempts timeout retry_delay : Z) (probes : nat -> task * task) : bool * Z * nat :=
  init_attempts (Z.to_nat max_attempts) timeout (Z.max 0 retry_delay) probes 0.

(** ** Health endpoints ([main.py]) *)

Definition ok_down (b : bool) : json := JStr (if b then lit "ok" else lit "down").

(** [redis]: no client, or what [ping] gave. *)
Definition readyz (timeout : Z) (writer reader : task) (redis : option (exn + bool)) : Z * json :=
  let db_ok := check_database timeout writer reader in
  let redis_ok := match redis with Some (inr b) => b | _ => false end in
  (if db_ok then 200 else 503,
   JObj [(lit "status", JStr (if db_ok then lit "ready" else lit "not_ready")); (lit "db", ok_down db_ok); (lit "redis", ok_down redis_ok)]).

Definition livez : Z * json := (200, JObj [(lit "status", JStr (lit "alive"))]).

Definition health `{UnicodeDB} (u_title : Z -> ustr) (timeout : Z) (writer reader : task) (rid : option ustr) : Z * json :=
  let ok := check_database timeout writer reader in
  (if ok then 200 else 503,
   api_response u_title (if ok then lit "OK" else lit "DB_ERROR")
     (JObj [(lit "status", JStr (if ok then lit "ok" else lit "degraded"))]) None rid).

(** [/] and the API's own root, [prefix] without its trailing slashes. *)
Definition alb_health_check : Z * json := (200, JObj [(lit "status", JStr (lit "ok")); (lit "message", JStr (lit "PuppyTalk API is running!"))]).
Definition root `{UnicodeDB} (u_title : Z -> ustr) (prefix : ustr) (rid : option ustr) : Z * json :=
  (200, api_response u_title (lit "OK")
     (JObj [(lit "message", JStr (lit "PuppyTalk API is running!")); (lit "version", JStr (lit "1.0.0")); (lit "docs", JStr (prefix ++ lit "/docs"))]) None rid).

(** [_custom_openapi], over the framework's document and the cached one. *)
Definition custom_openapi `{UnicodeDB} (u_title : Z -> ustr) (get_openapi : list (ustr * json)) (cached : option (list (ustr * json)))
  : list (ustr * json) * option (list (ustr * json)) :=
  let schema := match cached with Some schema => schema | None => openapi_schema_to_camel u_title get_openapi end in
  (schema, Some schema).

(** ** Start-up *)

(** What the environment does while the process comes up. *)
Record boot_env := {
  be_environ : list ustr; be_probes : nat -> task * task;
  be_redis_ping : bool;        (** the client was made and answered *)
  be_pool : bool;              (** [create_pool] and its command timeout succeeded *)
}.
Record boot_settings := {
  bs_settings : Settings; DB_INIT_MAX_ATTEMPTS : Z; DB_PING_TIMEOUT : Z; DB_INIT_RETRY_DELAY : Z; REDIS_URL : ustr;
  WORKER_ENABLED : bool; SIGNUP_IMAGE_CLEANUP_INTERVAL : Z; VIEW_BUFFER_FLUSH_INTERVAL : Z;
  REDIS_SOCKET_TIMEOUT : Z; REDIS_SOCKET_CONNECT_TIMEOUT : Z; ARQ_REDIS_DB : Z;
}.

(** The options every Redis client shares; timeouts in milliseconds. *)
Record redis_kwargs := { decode_responses : bool; socket_timeout : Z; socket_connect_timeout : Z }.

(** The queue client's settings, over what [RedisSettings.from_dsn] read of the URL. *)
Record arq_settings := {
  aq_dsn : ustr; aq_database : Z; aq_conn_timeout : Z; aq_conn_retries : Z; aq_conn_retry_delay : Z; aq_max_connections : Z;
}.

(** What a serving process has: the Redis client, the queue, its background tasks. *)
Record serving := { up_redis : bool; up_queue : bool; up_cleanup : option Z; up_flush : bool; up_listener : bool }.

Inductive boot := BadSettings (errors : list config_error) | NoDatabase | Serving (p : serving).

Section Boot.
Context (cfg : boot_settings) (env : boot_env).

(** [init_redis]: whether [app.state.redis] holds a client afterwards. *)
Definition init_redis : bool := if bool_decide (REDIS_URL cfg = []) then false else be_redis_ping env.

Definition redis_connection_kwargs (timeout : option Z) : redis_kwargs :=
  {| decode_responses := true; socket_timeout := default (REDIS_SOCKET_TIMEOUT cfg) timeout;
     socket_connect_timeout := REDIS_SOCKET_CONNECT_TIMEOUT cfg |}.

(** [math.ceil] of milliseconds, in whole seconds. *)
Definition ceil_seconds (ms : Z) : Z := - (- ms / 1000).

(** [None] without a URL; arq's timeout is a whole number of seconds. *)
Definition arq_redis_settings : option arq_settings :=
  if bool_decide (REDIS_URL cfg = []) then None
  else Some {| aq_dsn := REDIS_URL cfg; aq_database := ARQ_REDIS_DB cfg;
               aq_conn_timeout := ceil_seconds (socket_connect_timeout (redis_connection_kwargs None));
               aq_conn_retries := 1; aq_conn_retry_delay := 0; aq_max_connections := 16 |}.

(** [init_queue]: whether a queue handle is left. *)
Definition init_queue : bool :=
  if negb (WORKER_ENABLED cfg) then false
  else match arq_redis_settings with None => false | Some _ => be_pool env end.

(** [lifespan] up to its [yield]; the jobs run once before the first request. *)
Definition lifespan_start (jobs : list (PeriodicJob * ustr)) (w : world) : boot * world :=
  match validate_settings_for_environment (bs_settings cfg) (be_environ env) with
  | inl errors => (BadSettings errors, w)
  | inr _ =>
      if negb (init_database (DB_INIT_MAX_ATTEMPTS cfg) (DB_PING_TIMEOUT cfg) (DB_INIT_RETRY_DELAY cfg) (be_probes env)).1.1
      then (NoDatabase, w)
      else
        let redis := init_redis in
        let queue := init_queue in
        let '(_, w') := run_jobs_once redis jobs w in
        (Serving {| up_redis := redis; up_queue := queue;
                    up_cleanup := if 0 <? SIGNUP_IMAGE_CLEANUP_INTERVAL cfg then Some (Z.max 60 (SIGNUP_IMAGE_CLEANUP_INTERVAL cfg)) else None;
                    up_flush := redis && (0 <? VIEW_BUFFER_FLUSH_INTERVAL cfg);
                    up_listener := negb (bool_decide (REDIS_URL cfg = [])) |}, w')
  end.

(** The worker's [on_startup]: refuse without a Redis of its own, or without a
    database. *)
Definition worker_startup : exn + unit :=
  match arq_redis_settings with
  | None => inl PyValueError
  | Some _ =>
      if (init_database (DB_INIT_MAX_ATTEMPTS cfg) (DB_PING_TIMEOUT cfg) (DB_INIT_RETRY_DELAY cfg) (be_probes env)).1.1
      then inr tt else inl PyValueError
  end.
End Boot.

(** [_view_buffer_flush_loop]: a flush per elapsed interval until the stop
    event; [m] is one flush, [pass] the wait after it. *)
Fixpoint view_buffer_flush_loop (flushes : list (M world unit)) (pass : world -> world) : M world unit :=
  match flushes with
  | [] => mret tt
  | m :: rest => try_except m (fun _ => mret tt) ;; modify pass ;; view_buffer_flush_loop rest pass
  end.

(** ** Shutdown *)





(** ** Pools and closing

    Library calls end normally or with an exception; the handles are what the
    process keeps. *)

Inductive close_call := QueueAclose | QueueDisconnect | RedisAclose | RedisDisconnect | WriterDispose | ReaderDispose.
#[export] Instance close_call_eq : EqDecision close_call.
Proof. solve_decision. Defined.

(** The handles and the calls made, latest last. *)
Record handles := { hn_queue : option bool; hn_redis : option bool; hn_calls : list close_call }.
#[export] Instance handles_eta : Eta handles := fun h => Build_handles (hn_queue h) (hn_redis h) (hn_calls h).

Section Closing.
(** How each call ends. *)
Context (ends : close_call -> exn + unit).

Definition close_with (c : close_call) : M handles unit := fun h => (ends c, h <| hn_calls := hn_calls h ++ [c] |>).

(** [close_queue]: [Some pool] is a handle, [pool] whether it has a connection pool. *)
Definition close_queue : M handles unit := fun h =>
  match hn_queue h with
  | None => (inr tt, h)
  | Some pool =>
      (try_finally
        (try_except (close_with QueueAclose ;; if pool : bool then close_with QueueDisconnect else mret tt) (fun _ => mret tt))
        (modify (fun h => h <| hn_queue := None |>))) h
  end.

(** [close_redis] *)
Definition close_redis : M handles unit := fun h =>
  match hn_redis h with
  | None => (inr tt, h)
  | Some pool =>
      (close_with RedisAclose ;; (if pool : bool then close_with RedisDisconnect else mret tt) ;; modify (fun h => h <| hn_redis := None |>)) h
  end.

(** [close_database], also the worker's [on_shutdown] *)
Definition close_database : M handles unit := close_with WriterDispose ;; close_with ReaderDispose.
Definition worker_shutdown : M handles unit := close_database.

(** The last three awaits of [lifespan]. *)
Definition close_all : M handles unit := close_queue ;; close_redis ;; close_database.
End Closing.

(** *** The whole shutdown *)






(** A connection pool: the command timeout its new connections get, and that of
    those it holds. *)
Record conn_pool := { pl_timeout : option Z; pl_connections : list (option Z) }.

(** [_apply_command_timeout]: set the option, drop the connections made before. *)
Definition apply_command_timeout (cfg : boot_settings) (p : conn_pool) : conn_pool :=
  {| pl_timeout := Some (socket_timeout (redis_connection_kwargs cfg None)); pl_connections := [] |}.
Definition pool_connect (p : conn_pool) : conn_pool := {| pl_timeout := pl_timeout p; pl_connections := pl_timeout p :: pl_connections p |}.

(** ** A flush that is cancelled *)

(** Where the [CancelledError] surfaces: at the renaming whose command was
    applied, at the read, inside the transaction. *)
Inductive cancel_point := AtRename | AtRead | InTransaction.

(** [CancelledError] is no [Exception]: the handler that gives the drained counts
    back is skipped, [finally] still releases the lock, the transaction is
    undone. *)
Definition flush_cancelled `{UnicodeDB} (c : cancel_point) (lock_seconds : Z) (token ulid : ustr) : M world unit :=
  let drain := drain_key ulid in
  lock_value ← on_redis (try_acquire_lock VIEW_FLUSH_LOCK_KEY lock_seconds token);
  match lock_value with
  | None => mret tt
  | Some v =>
      try_finally
        (_ ← on_redis (rename_if_exists VIEW_BUFFER_KEY drain);
         match c with
         | AtRename => mret tt
         | AtRead | InTransaction => _ ← on_redis (redis_hgetall drain); mret tt
         end)
        (on_redis (release_lock VIEW_FLUSH_LOCK_KEY v))
  end.

(** ** Lemmas *)

Definition task_ok (k : task) : Prop :=
  (forall t ok, tk_end k = Some (t, ok) -> 0 <= t) /\ (forall t, tk_cancel1 k = Some t -> 0 <= t) /\ (forall t, tk_cancel2 k = Some t -> 0 <= t).

(** The probe answers well in time. *)
Definition answers (timeout : Z) (k : task) : Prop := exists t, tk_end k = Some (t, true) /\ t <= timeout.

Lemma bounded_spec timeout k : 0 <= timeout -> task_ok k ->
  0 <= (bounded timeout k).2 <= 3 * timeout /\ ((bounded timeout k).1 = Answered <-> answers timeout k) /\
  ((bounded timeout k).1 = TimedOut true -> ends_within timeout (tk_cancel1 k) = None /\ ends_within timeout (tk_cancel2 k) = None).
Proof.
  intros HT (H0 & H1 & H2). unfold bounded, answers, ends_within.
  destruct (tk_end k) as [[t ok]|] eqn:E0; [destruct (Z.leb_spec t timeout)|].
  - specialize (H0 t ok eq_refl). destruct ok; cbn [fst snd]; (split; [lia|]); split; try done.
    + split; [intros _; by exists t|done].
    + split; [done|]. by intros (t' & [= ] & _).
  - assert (~ exists t', Some (t, ok) = Some (t', true) /\ t' <= timeout) as Hn by (intros (t' & [= <- _] & ?); lia).
    destruct (tk_cancel1 k) as [a|] eqn:E1; [destruct (Z.leb_spec a timeout)|];
      destruct (tk_cancel2 k) as [b|] eqn:E2; try destruct (Z.leb_spec b timeout); cbn [fst snd];
      try specialize (H1 _ eq_refl); try specialize (H2 _ eq_refl); (split; [lia|]); split; done.
  - assert (~ exists t', (None : option (Z * bool)) = Some (t', true) /\ t' <= timeout) as Hn by (by intros (t' & ? & ?)).
    destruct (tk_cancel1 k) as [a|] eqn:E1; [destruct (Z.leb_spec a timeout)|];
      destruct (tk_cancel2 k) as [b|] eqn:E2; try destruct (Z.leb_spec b timeout); cbn [fst snd];
      try specialize (H1 _ eq_refl); try specialize (H2 _ eq_refl); (split; [lia|]); split; done.
Qed.

Lemma try_connect_spec timeout w r : 0 <= timeout -> task_ok w -> task_ok r ->
  0 <= (try_connect timeout w r).2 <= 6 * timeout /\
  ((try_connect timeout w r).1 = true <-> answers timeout w /\ answers timeout r).
Proof.
  intros HT Hw Hr. destruct (bounded_spec timeout w HT Hw) as (Bw & Aw & _), (bounded_spec timeout r HT Hr) as (Br & Ar & _).
  unfold try_connect. rewrite <-Aw, <-Ar. destruct (bounded timeout w) as [pw tw], (bounded timeout r) as [pr tr]. cbn [fst snd] in *.
  destruct pw, pr; cbn [fst snd]; (split; [lia|]); naive_solver.
Qed.

Lemma init_attempts_spec n timeout delay probes i : 0 <= timeout -> 0 <= delay -> (forall j, task_ok (probes j).1 /\ task_ok (probes j).2) ->
  let '(ok, t, k) := init_attempts n timeout delay probes i in
  0 <= t <= Z.of_nat n * (6 * timeout) + Z.of_nat (n - 1) * delay /\ (k <= n)%nat /\
  (ok = true <-> exists j, (i <= j < i + n)%nat /\ answers timeout (probes j).1 /\ answers timeout (probes j).2) /\
  (ok = true -> answers timeout (probes (i + k - 1)%nat).1 /\ answers timeout (probes (i + k - 1)%nat).2 /\
     forall j, (i <= j < i + k - 1)%nat -> ~ (answers timeout (probes j).1 /\ answers timeout (probes j).2)).
Proof.
  intros HT Hd Hp. revert i. induction n as [|n IH]; intros i; cbn [init_attempts].
  { split_and!; [lia|lia|lia| |done]. split; [done|]. intros (j & Hj & _). lia. }
  destruct (try_connect_spec timeout (probes i).1 (probes i).2 HT) as [Ht Ho]; [apply Hp|apply Hp|].
  destruct (try_connect timeout (probes i).1 (probes i).2) as [[] t]; cbn [fst snd] in *.
  - split_and!; [lia|nia|lia| |].
    + split; [|done]. intros _. exists i. split; [lia|]. by apply Ho.
    + intros _. replace (i + 1 - 1)%nat with i by lia. split_and!; [by apply Ho|by apply Ho|]. intros j Hj. lia.
  - specialize (IH (S i)). destruct (init_attempts n timeout delay probes (S i)) as [[ok t'] k].
    destruct IH as (Hb & Hk & Hok & Hfirst). assert (~ (answers timeout (probes i).1 /\ answers timeout (probes i).2)) as Hno by (intros H%Ho; done).
    assert (0 <= (match n with O => 0 | _ => delay end) /\ (match n with O => 0 | _ => delay end) + Z.of_nat (n - 1) * delay <= Z.of_nat (S n - 1) * delay) as Hpause
      by (destruct n; cbn; nia).
    split_and!; [lia|nia|lia| |].
    + rewrite Hok. split; intros (j & Hj & H); exists j.
      * split; [lia|done].
      * split; [|done]. destruct (decide (j = i)) as [->|]; [by destruct Hno|lia].
    + intros Hok1. destruct (Hfirst Hok1) as (F1 & F2 & F3). replace (i + S k - 1)%nat with (S i + k - 1)%nat by lia.
      split_and!; [done|done|]. intros j Hj. destruct (decide (j = i)) as [->|]; [done|]. apply F3. lia.
Qed.






(** ** Theorems *)

(** Probes cannot hang: with a driver that may ignore a cancellation, a
    database check ends within six timeouts and is positive exactly when writer
    and reader both answered in time; the readiness answer is 200 exactly then,
    whatever Redis does, and says how each is; and start-up makes at most the
    configured attempts, stops at the first good one, and takes at most six
    timeouts each and the pauses between. *)
Theorem database_probes_bounded (timeout max_attempts retry_delay : Z) (probes : nat -> task * task) :
  0 <= timeout -> 0 <= max_attempts -> (forall j, task_ok (probes j).1 /\ task_ok (probes j).2) ->
  let good j := answers timeout (probes j).1 /\ answers timeout (probes j).2 in
  (forall j redis, 0 <= (try_connect timeout (probes j).1 (probes j).2).2 <= 6 * timeout /\
     (check_database timeout (probes j).1 (probes j).2 = true <-> good j) /\
     let '(status, body) := readyz timeout (probes j).1 (probes j).2 redis in
     (status = 200 <-> good j) /\ (status = 503 <-> ~ good j) /\
     json_get (lit "redis") body = Some (ok_down (bool_decide (redis = Some (inr true))))) /\
  (let '(ok, t, k) := init_database max_attempts timeout retry_delay probes in
   0 <= t <= max_attempts * (6 * timeout) + (max_attempts - 1) * Z.max 0 retry_delay \/ max_attempts = 0 /\ t = 0) /\
  (let '(ok, t, k) := init_database max_attempts timeout retry_delay probes in
   Z.of_nat k <= max_attempts /\ (ok = true <-> exists j, Z.of_nat j < max_attempts /\ good j) /\
   (ok = true -> good (k - 1)%nat /\ forall j, (j < k - 1)%nat -> ~ good j)).
Proof.
  intros HT HM Hp good. assert (forall j, 0 <= (try_connect timeout (probes j).1 (probes j).2).2 <= 6 * timeout /\
     (check_database timeout (probes j).1 (probes j).2 = true <-> good j)) as Hc.
  { intros j. apply try_connect_spec; [done|apply Hp|apply Hp]. }
  split_and!.
  - intros j redis. destruct (Hc j) as [H1 H2]. split; [done|]. split; [done|]. unfold readyz.
    destruct (check_database timeout (probes j).1 (probes j).2); (split_and!; [naive_solver|naive_solver|]);
      cbn [json_get]; destruct redis as [[e|[]]|]; reflexivity.
  - unfold init_database. pose proof (init_attempts_spec (Z.to_nat max_attempts) timeout (Z.max 0 retry_delay) probes 0 HT ltac:(lia) Hp) as H.
    destruct (init_attempts _ _ _ _ _) as [[ok t] k]. destruct H as (H1 & _). destruct (decide (max_attempts = 0)) as [->|Hne]; [right; split; [done|cbn in H1; lia]|].
    left. replace (Z.of_nat (Z.to_nat max_attempts)) with max_attempts in H1 by lia.
    replace (Z.of_nat (Z.to_nat max_attempts - 1)) with (max_attempts - 1) in H1 by lia. done.
  - unfold init_database. pose proof (init_attempts_spec (Z.to_nat max_attempts) timeout (Z.max 0 retry_delay) probes 0 HT ltac:(lia) Hp) as H.
    destruct (init_attempts _ _ _ _ _) as [[ok t] k]. destruct H as (_ & H2 & H3 & H4). split_and!; [lia| |].
    + rewrite H3. split; intros (j & Hj & H); exists j; (split; [lia|done]).
    + intros Hok. destruct (H4 Hok) as (A & B & C). cbn [Nat.add] in *. split; [done|]. intros j Hj. apply C. lia.
Qed.

(** What a process needs to serve: a safe configuration in production and a
    database that answered one of the attempts, nothing else.  Redis and the
    queue may be down: then it serves without them, the maintenance jobs have
    still run once (they never raise), the listener that reconnects by itself is
    started exactly when a URL is configured, and only the view flush waits for a
    client.  The worker, which must not fall back to a default Redis, starts
    exactly with a URL and a database. *)
Theorem process_start_exact (cfg : boot_settings) (env : boot_env) (jobs : list (PeriodicJob * ustr)) (w : world) :
  0 <= DB_PING_TIMEOUT cfg -> (forall j, task_ok (be_probes env j).1 /\ task_ok (be_probes env j).2) ->
  let database := exists j, Z.of_nat j < DB_INIT_MAX_ATTEMPTS cfg /\
    answers (DB_PING_TIMEOUT cfg) (be_probes env j).1 /\ answers (DB_PING_TIMEOUT cfg) (be_probes env j).2 in
  let safe := is_production (bs_settings cfg) = true -> production_safe (bs_settings cfg) (be_environ env) in
  match lifespan_start cfg env jobs w with
  | (BadSettings errors, w') => ~ safe /\ errors <> [] /\ w' = w
  | (NoDatabase, w') => safe /\ ~ database /\ w' = w
  | (Serving p, w') =>
      safe /\ database /\
      up_redis p = (negb (bool_decide (REDIS_URL cfg = [])) && be_redis_ping env) /\
      up_queue p = (WORKER_ENABLED cfg && negb (bool_decide (REDIS_URL cfg = [])) && be_pool env) /\
      up_listener p = negb (bool_decide (REDIS_URL cfg = [])) /\
      (up_flush p = true -> up_redis p = true) /\
      (forall i, up_cleanup p = Some i -> 60 <= i) /\
      exists outcomes, run_jobs_once (up_redis p) jobs w = (inr outcomes, w') /\ length outcomes = length jobs
  end /\
  (worker_startup cfg env = inr tt <-> REDIS_URL cfg <> [] /\ database).
Proof.
  intros HT Hp database safe.
  assert ((init_database (DB_INIT_MAX_ATTEMPTS cfg) (DB_PING_TIMEOUT cfg) (DB_INIT_RETRY_DELAY cfg) (be_probes env)).1.1 = true <-> database) as Hdb.
  { unfold init_database.
    pose proof (init_attempts_spec (Z.to_nat (DB_INIT_MAX_ATTEMPTS cfg)) _ (Z.max 0 (DB_INIT_RETRY_DELAY cfg)) (be_probes env) 0 HT ltac:(lia) Hp) as H.
    destruct (init_attempts _ _ _ _ _) as [[ok t] k]. destruct H as (_ & _ & H & _). cbn [fst]. rewrite H. unfold database.
    split; intros (j & Hj & Ha); exists j; (split; [lia|done]). }
  assert (match validate_settings_for_environment (bs_settings cfg) (be_environ env) with
    | inl errors => ~ safe /\ errors <> [] | inr _ => safe end) as Hs.
  { unfold validate_settings_for_environment, safe. destruct (is_production (bs_settings cfg)); cbn [negb]; [|done].
    pose proof (production_errors_nil (bs_settings cfg) (be_environ env)) as Hn.
    destruct (production_errors (bs_settings cfg) (be_environ env)); [intros _; by apply Hn|]. split; [|done]. intros H.
    assert (production_safe (bs_settings cfg) (be_environ env)) as H'%Hn by auto. done. }
  split.
  - unfold lifespan_start. destruct (validate_settings_for_environment _ _) as [errors|u]; [by destruct Hs|].
    destruct (init_database _ _ _ _).1.1 eqn:Ed; cbn [negb]; [|split_and!; [done|intros H%Hdb; done|done]].
    destruct (run_jobs_once_total (init_redis cfg env) jobs w) as (os & w' & E & Hl). rewrite E. cbn [up_redis up_queue up_listener up_flush up_cleanup].
    split_and!; [done|by apply Hdb| | |done| | |by exists os].
    + unfold init_redis. by destruct (bool_decide _).
    + unfold init_queue, arq_redis_settings. by destruct (WORKER_ENABLED cfg), (bool_decide _).
    + by intros [H _]%andb_true_iff.
    + intros i. destruct (0 <? _); [|done]. intros [= <-]. lia.
  - unfold worker_startup, arq_redis_settings. destruct (bool_decide_reflect (REDIS_URL cfg = [])) as [Eu|Eu]; [naive_solver|].
    rewrite <-Hdb. destruct (init_database _ _ _ _).1.1; naive_solver.
Qed.

(** The queue client keeps out of the application's key space and gives a
    connection at least the configured time, less than a second more, and no
    second try; every client made by these options has finite timeouts when the
    settings do. *)
Theorem queue_client_settings (cfg : boot_settings) (rs : arq_settings) :
  arq_redis_settings cfg = Some rs ->
  REDIS_URL cfg <> [] /\ aq_dsn rs = REDIS_URL cfg /\ aq_database rs = ARQ_REDIS_DB cfg /\
  REDIS_SOCKET_CONNECT_TIMEOUT cfg <= aq_conn_timeout rs * 1000 < REDIS_SOCKET_CONNECT_TIMEOUT cfg + 1000 /\
  aq_conn_retries rs = 1 /\ aq_conn_retry_delay rs = 0.
Proof.
  unfold arq_redis_settings. case_bool_decide as Hu; [done|]. intros [= <-]. cbn [aq_dsn aq_database aq_conn_timeout aq_conn_retries aq_conn_retry_delay].
  unfold ceil_seconds, redis_connection_kwargs. cbn [socket_connect_timeout].
  split_and!; try done; Z.to_euclidean_division_equations; lia.
Qed.

Ltac run_closing := cbv [close_all close_database close_redis close_queue close_with try_finally try_except modify mbind M_bind mret M_ret]; cbn.

(** What [close_all] calls, by how the calls end. *)
Definition call_ok (ends : close_call -> exn + unit) (c : close_call) : bool := if ends c then false else true.
Definition aclose_then (ends : close_call -> exn + unit) (aclose disconnect : close_call) (handle : option bool) : list close_call :=
  match handle with
  | None => []
  | Some pool => aclose :: if call_ok ends aclose && pool then [disconnect] else []
  end.

Lemma close_queue_calls ends h :
  close_queue ends h = (inr tt, h <| hn_queue := None |> <| hn_calls := hn_calls h ++ aclose_then ends QueueAclose QueueDisconnect (hn_queue h) |>).
Proof.
  destruct h as [[[]|] r cs]; run_closing; unfold call_ok; try destruct (ends QueueAclose) as [?|[]]; cbn;
    try destruct (ends QueueDisconnect) as [?|[]]; cbn; by rewrite <-?app_assoc, ?app_nil_r.
Qed.

(** When Redis closes, both engines are disposed of, the writer's first. *)
Theorem close_all_disposes ends h : ends RedisAclose = inr tt -> ends RedisDisconnect = inr tt -> ends WriterDispose = inr tt ->
  exists before, let '(res, h') := close_all ends h in
    res = ends ReaderDispose /\ hn_queue h' = None /\ hn_redis h' = None /\ hn_calls h' = hn_calls h ++ before ++ [WriterDispose; ReaderDispose].
Proof.
  intros H1 H2 H3. pose proof (close_queue_calls ends h) as E. set (calls := aclose_then _ _ _ _) in E. unfold close_all. cbv [mbind M_bind]. rewrite E. clear E.
  destruct h as [q [[]|] cs]; run_closing; rewrite ?H1; cbn; rewrite ?H2; cbn; rewrite ?H3; cbn; rewrite <-?app_assoc; cbn.
  - by exists (calls ++ [RedisAclose; RedisDisconnect]); rewrite <-!app_assoc.
  - by exists (calls ++ [RedisAclose]); rewrite <-!app_assoc.
  - by exists calls.
Qed.

(** A Redis client that fails to close keeps the engines from being disposed of:
    unlike the queue's, its errors are not caught. *)
Theorem redis_close_failure_skips_database ends h pool e : hn_redis h = Some pool -> ends RedisAclose = inl e ->
  exists calls, close_all ends h = (inl e, h <| hn_queue := None |> <| hn_calls := hn_calls h ++ calls ++ [RedisAclose] |>).
Proof.
  intros Hr He. pose proof (close_queue_calls ends h) as E. set (calls := aclose_then _ _ _ _) in E. exists calls. unfold close_all. cbv [mbind M_bind]. rewrite E. clear E.
  destruct h as [q r cs]. cbn in Hr. subst r. run_closing. rewrite He. cbn. by rewrite <-app_assoc.
Qed.

(** The document is rewritten once: later requests get the first one's, whatever
    the framework would build by then. *)
Lemma custom_openapi_once `{UnicodeDB} (u_title : Z -> ustr) now later :
  let '(schema, cached) := custom_openapi u_title now None in
  schema = openapi_schema_to_camel u_title now /\ custom_openapi u_title later cached = (schema, cached).
Proof. done. Qed.

(** Every connection of the queue's pool answers or fails within the timeout. *)
Lemma command_timeout_applies cfg p n :
  Forall (fun t => t = Some (REDIS_SOCKET_TIMEOUT cfg)) (pl_connections (Nat.iter n pool_connect (apply_command_timeout cfg p))).
Proof.
  assert (forall m, pl_timeout (Nat.iter m pool_connect (apply_command_timeout cfg p)) = Some (REDIS_SOCKET_TIMEOUT cfg)) as Ht by (by induction m).
  induction n as [|n IH]; cbn; [constructor|]. constructor; [apply Ht|done].
Qed.









(** A flush cancelled at shutdown loses the round: once the buffer was renamed,
    the cancellation skips the handler that gives the counts back; the lock is
    released, nothing was committed, and a later flush, which renames the new
    buffer, brings none of the views back. *)
Theorem cancelled_flush_loses_views :
  let next w := (flush_view_counts_to_db (H := ascii_db) true 60 600 (lit "tok2") (lit "u2") Committed w) in
  forall c, let w := (flush_cancelled (H := ascii_db) c 60 (lit "tok") (lit "u1") demo_views).2 in
  total_views demo_views 1 = 3 /\ total_views w 1 = 0 /\ (next w).1 = inr tt /\ total_views (next w).2 1 = 0.
Proof. intros next []; vm_compute; split_and!; reflexivity. Qed.

(** ** Witnesses *)

Definition quick : task := {| tk_end := Some (5, true); tk_cancel1 := None; tk_cancel2 := None |}.
Definition stuck : task := {| tk_end := None; tk_cancel1 := None; tk_cancel2 := Some 1 |}.
(** The second attempt succeeds. *)
Definition demo_probes (j : nat) : task * task := match j with O => (stuck, quick) | _ => (quick, quick) end.

Lemma quick_ok : task_ok quick.
Proof. split_and!; cbn; intros; simplify_eq; lia. Qed.
Lemma stuck_ok : task_ok stuck.
Proof. split_and!; cbn; intros; simplify_eq; lia. Qed.
Lemma demo_probes_ok j : task_ok (demo_probes j).1 /\ task_ok (demo_probes j).2.
Proof. destruct j; split; apply quick_ok || apply stuck_ok. Qed.

Lemma database_probes_bounded_witness :
  init_database 3 1000 2000 demo_probes = (true, 4011, 2%nat) /\ (readyz 1000 quick quick None).1 = 200.
Proof.
  destruct (database_probes_bounded 1000 3 2000 demo_probes) as (H & _).
  - lia.
  - lia.
  - exact demo_probes_ok.
  - split; [vm_compute; reflexivity|]. destruct (H 1%nat None) as (_ & _ & H1 & _). apply H1. split; (exists 5; split; [reflexivity|lia]).
Defined.

Definition demo_boot : boot_settings :=
  {| bs_settings := demo_raw; DB_INIT_MAX_ATTEMPTS := 3; DB_PING_TIMEOUT := 1000; DB_INIT_RETRY_DELAY := 2000; REDIS_URL := lit "redis://r";
     WORKER_ENABLED := true; SIGNUP_IMAGE_CLEANUP_INTERVAL := 3600; VIEW_BUFFER_FLUSH_INTERVAL := 300;
     REDIS_SOCKET_TIMEOUT := 1000; REDIS_SOCKET_CONNECT_TIMEOUT := 2500; ARQ_REDIS_DB := 1 |}.
Definition demo_boot_env : boot_env :=
  {| be_environ := []; be_probes := demo_probes; be_redis_ping := false; be_pool := false |}.

Lemma queue_client_settings_witness : exists rs, arq_redis_settings demo_boot = Some rs /\ aq_conn_timeout rs = 3 /\ aq_database rs = 1.
Proof.
  eexists. split; [reflexivity|].
  destruct (queue_client_settings demo_boot _ eq_refl) as (_ & _ & E & _). split; [reflexivity|exact E].
Defined.

(** Redis is configured and down: the process serves without it. *)
Lemma process_start_exact_witness : exists p w', lifespan_start demo_boot demo_boot_env [] empty_world = (Serving p, w') /\
  up_redis p = false /\ up_listener p = true.
Proof.
  destruct (process_start_exact demo_boot demo_boot_env [] empty_world) as [H _].
  - cbn. lia.
  - exact demo_probes_ok.
  - destruct (lifespan_start demo_boot demo_boot_env [] empty_world) as [[errors| |p] w'] eqn:E; [vm_compute in E; discriminate E|vm_compute in E; discriminate E|].
    exists p, w'. split; [reflexivity|]. destruct H as (_ & _ & Hr & _ & Hl & _). split; [exact Hr|exact Hl].
Defined.


