(* ===== verification/Routes.v ===== *)
(** * Account routes ([domain/auth/router.py], [domain/users/router.py],
    [domain/admin/router.py], [domain/media/router.py])

    The HTTP routes of accounts, administration and media: what runs before the
    handler (token, role, per-user limit), the services it calls and in which
    order, the answer's status, code and cookie.  A dependency that raises ends
    the request before the handler.  Path and body values are those pydantic
    has already converted. *)

From S2P Require Import Prelude Ids Common Redis RateLimit Db World Media Posts Comments Dogs Moderation Users Auth ChatSocket Permissions.
From S2P Require Responses.

(** ** Requests and answers *)

(** The [Authorization] header and the cookies. *)
Record http_request := { hr_authorization : option ustr; hr_cookies : list (ustr * ustr) }.

Inductive cookie :=
  | SetCookie (key value : ustr) (httponly secure : bool) (path samesite : ustr) (max_age : Z)
  | DeleteCookie (key path : ustr).

Record answer (A : Type) := { an_status : Z; an_code : ustr; an_data : A; an_cookie : option cookie }.
Arguments an_status {A}. Arguments an_code {A}. Arguments an_data {A}. Arguments an_cookie {A}.

Definition reply {A : Type} (status_code : Z) (code : string) (data : A) : answer A :=
  {| an_status := status_code; an_code := lit code; an_data := data; an_cookie := None |}.
Definition ok {A : Type} (data : A) : answer A := reply 200 "OK" data.
Definition with_cookie {A : Type} (c : cookie) (a : answer A) : answer A :=
  {| an_status := an_status a; an_code := an_code a; an_data := an_data a; an_cookie := Some c |}.

(** What the routes read of the configuration; [rt_present]: the application has
    a Redis client. *)
Record route_settings := {
  rt_present : bool; REFRESH_TOKEN_EXPIRE_DAYS : Z; REFRESH_TOKEN_COOKIE_NAME : ustr; COOKIE_SECURE : bool;
  MEDIA_PRESIGN_RATE_LIMIT_WINDOW : Z; MEDIA_PRESIGN_RATE_LIMIT_MAX : Z; SIGNUP_IMAGE_TOKEN_TTL : Z;
  rt_storage : storage_settings;
}.

(** [UserProfileResponse.model_validate(user)]. *)
Record UserProfileResponse := {
  up_id : Z; up_user : User; up_profile_image_url : option ustr; up_dogs : list (Z * DogProfile);
  up_representative_dog : option Responses.RepresentativeDogInfo;
}.

Definition user_dogs (k : Z) (d : db) : list (Z * DogProfile) :=
  order_by fst Z.ltb (select_where (fun (_ : Z) (g : DogProfile) => bool_decide (owner_id g = k)) d).

(** [None]: [build_url] refuses the stored key. *)
Definition profile_response (cfg : storage_settings) (k : Z) (u : User) (d : db) : option UserProfileResponse :=
  url ← Responses.profile_image_url cfg u d;
  Some {| up_id := k; up_user := u; up_profile_image_url := url; up_dogs := user_dogs k d;
          up_representative_dog := Responses.representative_dog k d |}.

(** The live row with its dogs, or the given error. *)
Definition load_profile (cfg : storage_settings) (missing : exn) (k : Z) : M db UserProfileResponse :=
  d ← get;
  match get_user_by_id k d with
  | None => raise missing
  | Some u => match profile_response cfg k u d with Some r => mret r | None => raise PyValueError end
  end.

Definition get_user_profile (cfg : storage_settings) (k : Z) : M db UserProfileResponse :=
  begin_tx (load_profile cfg UnauthorizedException k).
(** The services' answers are built inside their transactions. *)
Definition update_user_profile_response (cfg : storage_settings) (now k : Z) (fresh : nat -> Z) (data : UpdateUserRequest)
  : M db UserProfileResponse :=
  begin_tx (_ ← update_user_profile now k fresh data; load_profile cfg InternalServerErrorException k).
Definition set_representative_dog_response (cfg : storage_settings) (now owner dog_id : Z) : M db UserProfileResponse :=
  begin_tx (set_representative_dog now owner dog_id ;; load_profile cfg InternalServerErrorException owner).

(** ** Accounts *)

Section Accounts.
Context `{UnicodeDB}.
Context (jwt_decode : ustr -> option claims) (refresh_token_digest : ustr -> ustr).
Context (checkpw : ustr -> ustr -> bool) (hashpw : ustr -> ustr) (pepper : ustr).
Context (snapshot_dump : ustr -> CurrentUser -> ustr) (snapshot_load : ustr -> option (option ustr * option CurrentUser)).
Context (cfg : route_settings).

(** [Depends(get_current_user)] and [Depends(get_current_admin)] of a request. *)
Definition current_user (rq : http_request) : M world CurrentUser :=
  get_current_user jwt_decode snapshot_dump snapshot_load (rt_present cfg) (hr_authorization rq).
Definition current_admin (rq : http_request) : M world CurrentUser :=
  get_current_admin jwt_decode snapshot_dump snapshot_load (rt_present cfg) (hr_authorization rq).

Definition refresh_ttl_seconds : Z := REFRESH_TOKEN_EXPIRE_DAYS cfg * 86400.

(** The cookie of [login] and [refresh]. *)
Definition refresh_cookie (token : ustr) : cookie :=
  SetCookie (REFRESH_TOKEN_COOKIE_NAME cfg) token true (COOKIE_SECURE cfg) (lit "/") (lit "lax") refresh_ttl_seconds.

Definition signup_route (now new_id : Z) (data : SignUpRequest) : M world (answer unit) :=
  signup hashpw pepper (rt_present cfg) now new_id data ;;
  mret (reply 201 "SIGNUP_SUCCESS" tt).

(** The data are the user and the access token. *)
Definition login_route (mail plain new_refresh new_access : ustr) : M world (answer ((Z * User) * ustr)) :=
  '(user, access_token, refresh_token) ←
    login refresh_token_digest checkpw pepper (rt_present cfg) refresh_ttl_seconds mail plain new_refresh new_access;
  mret (with_cookie (refresh_cookie refresh_token) (reply 200 "LOGIN_SUCCESS" (user, access_token))).

(** The token is taken from the header again, [auth[7:].strip()]; an empty one has
    an empty payload. *)
Definition logout_route (now_us : Z) (rq : http_request) : M world (answer unit) :=
  cu ← current_user rq;
  let auth := default [] (hr_authorization rq) in
  let access_token := if startswith (lit "Bearer ") auth then strip (drop 7 auth) else [] in
  access_payload ←
    (match access_token with
     | [] => mret {| cl_sub := None; cl_exp := None; cl_jti := None; cl_type := None |}
     | _ => match verify_access_token jwt_decode access_token with inl e => raise e | inr c => mret c end
     end);
  logout (rt_present cfg) (cu_id cu) now_us access_payload ;;
  mret (with_cookie (DeleteCookie (REFRESH_TOKEN_COOKIE_NAME cfg) (lit "/")) (reply 200 "LOGOUT_SUCCESS" tt)).

(** A missing cookie and an empty one are refused alike by the service. *)
Definition refresh_route (rq : http_request) (new_refresh new_access : ustr) : M world (answer ustr) :=
  let refresh_token := default [] (dict_get (REFRESH_TOKEN_COOKIE_NAME cfg) (hr_cookies rq)) in
  '(access_token, new_refresh) ←
    refresh_tokens jwt_decode refresh_token_digest (rt_present cfg) refresh_ttl_seconds refresh_token new_refresh new_access;
  mret (with_cookie (refresh_cookie new_refresh) (reply 200 "AUTH_SUCCESS" access_token)).

(** [/users] *)
Definition get_me (rq : http_request) : M world (answer UserProfileResponse) :=
  user ← current_user rq;
  data ← on_db (get_user_profile (rt_storage cfg) (cu_id user));
  mret (ok data).

Definition update_me (now : Z) (fresh : nat -> Z) (rq : http_request) (user_data : UpdateUserRequest) : M world (answer UserProfileResponse) :=
  user ← current_user rq;
  data ← on_db (update_user_profile_response (rt_storage cfg) now (cu_id user) fresh user_data);
  invalidate_user_status_cache (rt_present cfg) (cu_id user) ;;
  mret (ok data).

Definition update_password_route (rq : http_request) (current new_password : ustr) : M world (answer unit) :=
  user ← current_user rq;
  on_db (update_password checkpw hashpw pepper (cu_id user) current new_password) ;;
  revoke_refresh_for_user (rt_present cfg) (cu_id user) ;;
  mret (ok tt).

Definition delete_me (now : Z) (rq : http_request) : M world (answer unit) :=
  user ← current_user rq;
  revoke_refresh_for_user (rt_present cfg) (cu_id user) ;;
  on_db (delete_user now (cu_id user)) ;;
  invalidate_user_status_cache (rt_present cfg) (cu_id user) ;;
  mret (ok tt).

(** [CursorPage(items, has_more)] *)
Definition get_my_blocks (sz : Z) (cursor : option Z) (rq : http_request) : M world (answer (list (Z * ustr) * bool)) :=
  user ← current_user rq;
  w ← get;
  mret (ok (get_blocked_list (cu_id user) sz cursor (w_db w))).

Definition toggle_block_route (now target : Z) (rq : http_request) : M world (answer bool) :=
  user ← current_user rq;
  is_blocked ← on_db (toggle_block_user now (cu_id user) target);
  mret (ok is_blocked).

(** [/users/me/dogs/representative] *)
Definition set_representative_dog_route (now dog_id : Z) (rq : http_request) : M world (answer UserProfileResponse) :=
  user ← current_user rq;
  data ← on_db (set_representative_dog_response (rt_storage cfg) now (cu_id user) dog_id);
  mret (reply 200 "DOG_UPDATED" data).

(** ** Administration: every route depends on [get_current_admin] *)

Inductive admin_call :=
  | SweepUnusedMedia
  | GetReportedPosts (page sz : Z)
  | BlindTarget (ty : TargetType) (target : Z)
  | UnblindTarget (ty : TargetType) (target : Z)
  | ResetTargetReports (ty : TargetType) (target : Z)
  | SuspendUser (user : Z)
  | ActivateUser (user : Z)
  | DeletePostAdmin (post_id : Z)
  | DeleteCommentAdmin (post_id comment_id : Z).

Inductive admin_data :=
  | SweepStarted
  | ReportedPage (items : list ReportedPostItem) (has_more : bool) (total : Z)
  | Blinded | Unblinded | ReportsReset | Suspended | Activated | Deleted.

(** What runs after the answer was sent ([BackgroundTasks]). *)
Inductive background_task := SweepDetached.

Definition admin_handler (now : Z) (call : admin_call) : M world (answer admin_data * list background_task) :=
  let only (m : M world unit) (data : admin_data) := m ;; mret (ok data, []) in
  match call with
  | SweepUnusedMedia => mret (reply 202 "OK" SweepStarted, [SweepDetached])
  | GetReportedPosts page sz =>
      w ← get;
      let '(items, total) := get_reported_posts page sz (w_db w) in
      mret (ok (ReportedPage items (from_page_has_more page sz total) total), [])
  | BlindTarget ty target => only (on_db (admin_blind now ty target)) Blinded
  | UnblindTarget ty target => only (on_db (admin_unblind now ty target)) Unblinded
  | ResetTargetReports ty target => only (on_db (admin_reset_reports now ty target)) ReportsReset
  | SuspendUser user => only (suspend_user (rt_present cfg) now user) Suspended
  | ActivateUser user => only (activate_user (rt_present cfg) now user) Activated
  | DeletePostAdmin post_id => only (on_db (admin_delete_post now post_id)) Deleted
  | DeleteCommentAdmin post_id comment_id => only (on_db (admin_delete_comment now post_id comment_id)) Deleted
  end.

Definition admin_route (now : Z) (rq : http_request) (call : admin_call) : M world (answer admin_data * list background_task) :=
  _ ← current_admin rq;
  admin_handler now call.
End Accounts.

(** ** Media *)

Section MediaRoutes.
Context `{UnicodeDB} (etag_of : list Z -> ustr).
Context (jwt_decode : ustr -> option claims).
Context (snapshot_dump : ustr -> CurrentUser -> ustr) (snapshot_load : ustr -> option (option ustr * option CurrentUser)).
Context (cfg : route_settings).

Abbreviation user_of := (current_user jwt_decode snapshot_dump snapshot_load cfg).

(** [media_presign:{user.id}] *)
Definition presign_key (user : Z) : ustr := lit "media_presign:" ++ uuid_str user.

(** After the token: the limit per user (memory when Redis fails), then the key
    of the upload. *)
Definition presign_for (user upload_id : Z) (filename content_type : ustr) : M sock_env (answer ustr) :=
  '(allowed, _) ←
    on_limits (check_fixed_window (rt_present cfg) (presign_key user)
                 (MEDIA_PRESIGN_RATE_LIMIT_WINDOW cfg) (MEDIA_PRESIGN_RATE_LIMIT_MAX cfg) false);
  if negb allowed then raise TooManyRequestsException
  else match issue_presigned_upload (rt_storage cfg) upload_id filename content_type with
       | inl e => raise e
       | inr key => mret (ok key)
       end.
Definition presign_image_upload (rq : http_request) (upload_id : Z) (filename content_type : ustr) : M sock_env (answer ustr) :=
  user ← on_world (user_of rq);
  presign_for (cu_id user) upload_id filename content_type.

(** Before sign-up there is no user; the middleware limits by address. *)
Definition presign_signup_image_upload (upload_id : Z) (filename content_type : ustr) : M world (answer ustr) :=
  match issue_presigned_upload (rt_storage cfg) upload_id filename content_type with
  | inl e => raise e
  | inr key => mret (ok key)
  end.

(** The image's id and address. *)
Definition upload_data (r : Z * Image) : Z * ustr := (r.1, file_url r.2).

Definition confirm_image_upload (now new_id : Z) (ulid : ustr) (rq : http_request) (file_key purpose : ustr) (sz : option Z)
  : M world (answer (Z * ustr)) :=
  user ← user_of rq;
  r ← confirm_presigned_upload etag_of (rt_storage cfg) now new_id ulid file_key purpose sz (cu_id user);
  mret (reply 201 "OK" (upload_data r)).

Definition confirm_signup_image_upload (now new_id : Z) (ulid token file_key : ustr) (sz : option Z) : M world (answer (Z * ustr * ustr)) :=
  '(r, signup_token) ← confirm_presigned_signup_upload etag_of (rt_storage cfg) (rt_present cfg) (SIGNUP_IMAGE_TOKEN_TTL cfg) token now new_id ulid file_key sz;
  mret (reply 201 "OK" (upload_data r, signup_token)).

Definition delete_image_route (now image_id : Z) (rq : http_request) : M world (answer unit) :=
  user ← user_of rq;
  delete_image now image_id (cu_id user) ;;
  mret (ok tt).
End MediaRoutes.

(** ** Lemmas: what the dependencies touch *)

(** The exceptions a computation can raise. *)
Definition raises {A : Type} (P : exn -> Prop) (m : M world A) : Prop := forall w e, (m w).1 = inl e -> P e.

Lemma raises_ret {A : Type} P (a : A) : raises P (mret a).
Proof. done. Qed.
Lemma raises_raise {A : Type} (P : exn -> Prop) e : P e -> raises P (raise (A := A) e).
Proof. by intros HP w e' [= <-]. Qed.
Lemma raises_bind {A B : Type} P (m : M world A) (k : A -> M world B) : raises P m -> (forall a, raises P (k a)) -> raises P (m ≫= k).
Proof.
  intros Hm Hk w e. unfold mbind, M_bind. specialize (Hm w). destruct (m w) as [[e'|a] w']; cbn in *; [|apply Hk]. intros [= <-]. auto.
Qed.
Lemma raises_get {A : Type} P (k : world -> M world A) : (forall w, raises P (k w)) -> raises P (w ← get; k w).
Proof. intros Hk w e. apply Hk. Qed.
Lemma raises_caught {A : Type} P (m : M world A) h : (forall e, raises P (h e)) -> raises P (try_except m h).
Proof. intros Hh w e. unfold try_except. destruct (m w) as [[e'|a] w']; cbn; [apply Hh|done]. Qed.
Lemma raises_best_effort P (m : M world unit) : raises P (best_effort m).
Proof. apply raises_caught. intros e. apply raises_ret. Qed.

(** Everything but Redis stays as in [w0]. *)
Abbreviation leaves_redis w0 := (keeps (only_redis w0)).

Lemma leaves_on_redis {A : Type} w0 (m : M redis A) : leaves_redis w0 (on_redis m).
Proof. intros w Hw. eapply only_redis_trans; [exact Hw|apply on_redis_only]. Qed.
Lemma keeps_best_effort I (m : M world unit) : keeps I m -> keeps I (best_effort m).
Proof. intros Hm. apply keeps_try; [done|]. intros e. apply keeps_ret. Qed.

Create HintDb account.
#[export] Hint Resolve keeps_ret keeps_raise keeps_bind keeps_get keeps_try keeps_best_effort
  raises_ret raises_bind raises_get raises_caught raises_best_effort : account.

Lemma only_redis_db w w' : only_redis w w' -> w_db w' = w_db w.
Proof. by intros [r ->]. Qed.

(** A Redis that answers keeps answering. *)
Lemma up_command {A : Type} (c : cmd A) : keeps redis_up (on_redis (command c)).
Proof. intros w Hw. rewrite on_redis_quiet by done. done. Qed.
Lemma up_on_db {A : Type} (m : M db A) : keeps redis_up (on_db m).
Proof. intros w Hw. unfold on_db. by destruct (m (w_db w)). Qed.

Section Dependencies.
Context `{UnicodeDB}.
Context (jwt_decode : ustr -> option claims).
Context (snapshot_dump : ustr -> CurrentUser -> ustr) (snapshot_load : ustr -> option (option ustr * option CurrentUser)).

Definition refused (e : exn) : Prop := e = UnauthorizedException \/ e = ForbiddenException.

(** Whatever Redis does, the token check ends in a user, 401 or 403. *)
Lemma resolve_raises present token : raises refused (resolve_access_token_user jwt_decode snapshot_dump snapshot_load present token).
Proof.
  assert (forall A, raises refused (raise (A := A) UnauthorizedException)) as H1 by (intros; apply raises_raise; by left).
  assert (forall A, raises refused (raise (A := A) ForbiddenException)) as H2 by (intros; apply raises_raise; by right).
  assert (forall k, raises refused (resolve_from_db snapshot_dump present k)) as Hdb.
  { intros k. apply raises_get. intros w. destruct (get_user_by_id k (w_db w)) as [u|]; [|done].
    apply raises_bind; [destruct present; [apply raises_bind; intros; apply raises_best_effort|apply raises_ret]|].
    intros _. destruct (is_active_value _); auto with account. }
  unfold resolve_access_token_user. destruct (verify_access_token jwt_decode token) as [e|c]; [done|].
  apply raises_bind.
  - destruct (cl_jti c) as [jti|]; [|auto with account]. case_bool_decide; [auto with account|]. unfold ensure_jti_not_blacklisted.
    destruct present; cbn [negb]; [|auto with account]. apply raises_bind; [auto with account|]. intros []; auto with account.
  - intros _. destruct (cl_sub c) as [sub|]; [|done]. destruct (jwt_sub_to_uuid sub) as [e|k]; [done|].
    apply raises_bind; [destruct present; unfold get_auth_cache; auto with account|].
    intros [[[s|] cu]|]; auto. destruct (negb _); [done|]. destruct cu; auto with account.
Qed.

(** It acts on the world through single Redis commands only. *)
Lemma resolve_keeps (I : world -> Prop) present token : (forall A (c : cmd A), keeps I (on_redis (command c))) ->
  keeps I (resolve_access_token_user jwt_decode snapshot_dump snapshot_load present token).
Proof.
  intros Hc.
  assert (forall k, keeps I (on_redis (redis_get k))) as Hget by (intros; apply Hc).
  assert (forall k v t, keeps I (on_redis (redis_set k v false t))) as Hset by (intros; apply Hc).
  assert (forall k, keeps I (resolve_from_db snapshot_dump present k)) as Hdb.
  { intros k. apply keeps_get. intros w. destruct (get_user_by_id k (w_db w)) as [u|]; [|auto with account].
    apply keeps_bind; [|intros _; destruct (is_active_value _); auto with account].
    unfold when, set_auth_cache_best_effort, set_user_status_cache_best_effort. destruct present; auto 10 with account. }
  unfold resolve_access_token_user. destruct (verify_access_token jwt_decode token) as [e|c]; [auto with account|].
  apply keeps_bind.
  - destruct (cl_jti c) as [jti|]; [|auto with account]. case_bool_decide; [auto with account|]. unfold ensure_jti_not_blacklisted.
    destruct present; cbn [negb]; [|auto with account]. apply keeps_bind; [auto with account|]. intros []; auto with account.
  - intros _. destruct (cl_sub c) as [sub|]; [|auto with account]. destruct (jwt_sub_to_uuid sub) as [e|k]; [auto with account|].
    apply keeps_bind; [destruct present; unfold get_auth_cache; auto 10 with account|].
    intros [[[s|] cu]|]; auto. destruct (negb _); [auto with account|]. destruct cu; auto with account.
Qed.

Lemma current_user_raises present auth : raises refused (get_current_user jwt_decode snapshot_dump snapshot_load present auth).
Proof. unfold get_current_user. destruct (bearer_token auth); [apply resolve_raises|]. apply raises_raise. by left. Qed.
Lemma current_user_keeps (I : world -> Prop) present auth : (forall A (c : cmd A), keeps I (on_redis (command c))) ->
  keeps I (get_current_user jwt_decode snapshot_dump snapshot_load present auth).
Proof. intros Hc. unfold get_current_user. destruct (bearer_token auth); [by apply resolve_keeps|auto with account]. Qed.
Lemma current_user_leaves present auth w0 : leaves_redis w0 (get_current_user jwt_decode snapshot_dump snapshot_load present auth).
Proof. apply current_user_keeps. intros. apply leaves_on_redis. Qed.
Lemma current_user_up present auth : keeps redis_up (get_current_user jwt_decode snapshot_dump snapshot_load present auth).
Proof. apply current_user_keeps. intros. apply up_command. Qed.

End Dependencies.

(** ** Lemmas: a session on a reachable Redis *)

(** The cached status of an active user: absent, or right. *)
Definition status_fresh (k : Z) (w : world) : Prop :=
  cached_text (user_status_cache_key k) w = None \/ cached_text (user_status_cache_key k) w = Some (lit "ACTIVE").

(** [dg] is the digest stored for the user until [e]. *)
Definition session (k : Z) (dg : ustr) (e : Z) (w : world) : Prop :=
  redis_up w /\ r_data (w_redis w) !! user_refresh_key k = Some {| r_val := RStr dg; r_exp := Some e |} /\
  r_now (w_redis w) < e /\ status_fresh k w.

Lemma cached_later k dt w : 0 <= dt -> cached_text k (later dt w) = None \/ cached_text k (later dt w) = cached_text k w.
Proof.
  intros Hdt. unfold cached_text, live. cbn [later w_redis over r_data r_now]. destruct (r_data (w_redis w) !! k) as [[v [e|]]|]; auto.
  unfold expired. cbn [r_exp r_val]. destruct (Z.leb_spec e (r_now (w_redis w) + dt)) as [|Hlt]; [auto|].
  rewrite (proj2 (Z.leb_gt e (r_now (w_redis w)))) by lia. auto.
Qed.

Lemma status_fresh_later k dt w : 0 <= dt -> status_fresh k w -> status_fresh k (later dt w).
Proof. intros Hdt Hs. unfold status_fresh. destruct (cached_later (user_status_cache_key k) dt w Hdt) as [->| ->]; auto. Qed.

Lemma session_later k dg e dt w : 0 <= dt -> r_now (w_redis w) + dt < e -> session k dg e w -> session k dg e (later dt w).
Proof. intros H0 Hdt (H1 & H2 & H3 & H4). split_and!; try done. by apply status_fresh_later. Qed.

Lemma session_live k dg e w : session k dg e w -> live (r_now (w_redis w)) (r_data (w_redis w)) (user_refresh_key k) = Some (RStr dg).
Proof. intros (_ & H2 & H3 & _). unfold live. rewrite H2. unfold expired. cbn [r_exp r_val]. by rewrite (proj2 (Z.leb_gt _ _)). Qed.

Lemma status_stored k v t w : 0 < t ->
  cached_text k (with_data (<[k := {| r_val := RStr v; r_exp := Some (r_now (w_redis w) + t) |}]> (r_data (w_redis w))) w) = Some v.
Proof.
  intros Ht. unfold cached_text, live. cbn [with_data w_redis over r_data r_now]. rewrite lookup_insert_eq. unfold expired. cbn [r_exp r_val].
  by rewrite (proj2 (Z.leb_gt _ _)) by lia.
Qed.

Section Sessions.
Context `{UnicodeDB}.
Context (jwt_decode : ustr -> option claims) (refresh_token_digest : ustr -> ustr).
Context (checkpw : ustr -> ustr -> bool) (pepper : ustr).
Context (snapshot_dump : ustr -> CurrentUser -> ustr) (snapshot_load : ustr -> option (option ustr * option CurrentUser)).
Context (cfg : route_settings).

Lemma ensure_active k u dg e w : session k dg e w -> get_user_by_id k (w_db w) = Some u -> status u = ACTIVE ->
  exists w', ensure_user_may_refresh k w = (inr tt, w') /\ session k dg e w' /\ w_db w' = w_db w /\ r_now (w_redis w') = r_now (w_redis w).
Proof.
  intros Hs Hu Ha. pose proof Hs as (Hq & Hd & Hn & Hf). unfold ensure_user_may_refresh. unfold mbind at 1, M_bind at 1.
  rewrite cache_get_quiet by done. destruct Hf as [Ec|Ec]; rewrite Ec; [|by exists w].
  unfold mbind at 1, M_bind at 1, get. rewrite Hu. unfold mbind at 1, M_bind at 1. rewrite best_effort_set_quiet, Ha by done. eexists. split; [reflexivity|].
  split; [|done]. split; [done|]. split; [|split; [done|]].
  - cbn [with_data w_redis over r_data]. by rewrite lookup_insert_ne by (apply not_eq_sym, user_keys_distinct).
  - right. by apply status_stored.
Qed.

(** The exchange replaces exactly the digest presented. *)
Lemma rotate_session k dg e incoming fresh ttl w : session k dg e w -> 0 < ttl ->
  exists w', on_redis (try_refresh_rotation_redis (user_refresh_key k) incoming fresh ttl) w = (inr (bool_decide (dg = incoming)), w') /\
    w_db w' = w_db w /\ r_now (w_redis w') = r_now (w_redis w) /\
    (dg = incoming -> session k fresh (r_now (w_redis w) + ttl) w') /\ (dg <> incoming -> w' = w).
Proof.
  intros Hs Ht. pose proof (session_live k dg e w Hs) as Hl. pose proof Hs as (Hq & Hd & Hn & Hf).
  unfold try_refresh_rotation_redis. rewrite (proj2 (Z.leb_gt ttl 0)) by done.
  set (c := lua_refresh_rotate_cas (user_refresh_key k) incoming fresh ttl).
  assert (forall h, on_redis (try_except (rc ← command c; mret (rc =? 1)) h) w =
    match (c (r_now (w_redis w)) (r_data (w_redis w))).1 with
    | inr rc => (inr (rc =? 1), with_data (c (r_now (w_redis w)) (r_data (w_redis w))).2 w)
    | inl _ => on_redis (try_except (rc ← command c; mret (rc =? 1)) h) w
    end) as ->.
  { intros h. destruct (c _ _).1 as [x|rc] eqn:Ec; [done|]. pose proof (on_redis_quiet c w Hq) as E. unfold on_redis, try_except in *.
    unfold mbind, M_bind. destruct (command c (w_redis w)) as [[x|rc'] r']; apply pair_equal_spec in E as [E1 E2]; rewrite Ec in E1; [done|].
    injection E1 as ->. cbn [mret M_ret]. by rewrite <-E2. }
  unfold c, lua_refresh_rotate_cas. rewrite Hl. case_bool_decide as Hi.
  - subst incoming. rewrite decide_False by (intros Hx; by apply Hx). rewrite (proj2 (Z.leb_gt ttl 0)) by done. cbn [fst snd].
    eexists. split; [reflexivity|]. split_and!; [done..| |done]. intros _. split_and!; [done| |cbn; lia|].
    + cbn [with_data w_redis over r_data]. by rewrite lookup_insert_eq.
    + unfold status_fresh, cached_text, live in *. cbn [with_data w_redis over r_data r_now] in *.
      by rewrite lookup_insert_ne by apply user_keys_distinct.
  - rewrite decide_True by done. cbn [fst snd]. eexists. split; [reflexivity|]. split_and!; [done..|].
    intros _. by apply with_data_same.
Qed.

(** [POST /refresh] while a session lives: the digest decides. *)
Lemma refresh_session k u dg e tok c new_refresh new_access ttl w :
  session k dg e w -> get_user_by_id k (w_db w) = Some u -> status u = ACTIVE -> token_of jwt_decode (lit "refresh") tok c k -> tok <> [] -> 0 < ttl ->
  exists w', refresh_tokens jwt_decode refresh_token_digest true ttl tok new_refresh new_access w =
      (if bool_decide (dg = refresh_token_digest tok) then inr (new_access, new_refresh) else inl UnauthorizedException, w') /\
    w_db w' = w_db w /\ r_now (w_redis w') = r_now (w_redis w) /\
    session k (if bool_decide (dg = refresh_token_digest tok) then refresh_token_digest new_refresh else dg)
      (if bool_decide (dg = refresh_token_digest tok) then r_now (w_redis w) + ttl else e) w'.
Proof.
  intros Hs Hu Ha (Hv & s & Hsub & Hk) Hne Ht. unfold refresh_tokens. destruct tok as [|x tok]; [done|].
  unfold verify_refresh_token. rewrite Hv, Hsub. destruct s as [|y s]; [done|]. rewrite Hk. cbn [negb].
  destruct (ensure_active k u dg e w Hs Hu Ha) as (w1 & E1 & Hs1 & Hdb1 & Hn1). unfold mbind at 1, M_bind at 1. rewrite E1.
  destruct (rotate_session k dg e (refresh_token_digest (x :: tok)) (refresh_token_digest new_refresh) ttl w1 Hs1 Ht) as (w2 & E2 & Hdb2 & Hn2 & Hyes & Hno).
  unfold mbind at 1, M_bind at 1. rewrite E2, <-Hn1, <-Hdb1. case_bool_decide as Hd.
  - exists w2. split_and!; try done. by apply Hyes.
  - exists w1. rewrite (Hno Hd). split_and!; done.
Qed.

(** The refresh entry stays away until somebody logs in. *)
Lemma logout_quiet user now_us c w : redis_up w ->
  exists w', logout true user now_us c w = (inr tt, w') /\ w_db w' = w_db w /\ redis_up w' /\ r_data (w_redis w') !! user_refresh_key user = None.
Proof.
  intros Hq. unfold logout. cbn [negb].
  assert (exists w1, (match cl_jti c with
    | Some jti => when ((0 <? remaining_ttl_seconds_from_access_payload now_us c) && negb (bool_decide (strip jti = [])))
        (on_redis (redis_set (access_jti_blacklist_redis_key (strip jti)) (lit "logout") false (Some (remaining_ttl_seconds_from_access_payload now_us c))) ;; mret tt)
    | None => mret tt end : M world unit) w = (inr tt, w1) /\ w_db w1 = w_db w /\ redis_up w1) as (w1 & E & Hdb & Hq1).
  { destruct (cl_jti c) as [jti|]; [|by exists w]. destruct (Z.ltb_spec 0 (remaining_ttl_seconds_from_access_payload now_us c)) as [Ht|]; [|by exists w].
    destruct (negb _); [|by exists w]. cbn [andb when]. unfold mbind, M_bind, redis_set. rewrite on_redis_quiet by done.
    unfold c_set. rewrite (proj2 (Z.leb_gt _ 0)) by done. cbn [andb fst snd mret M_ret]. by eexists. }
  unfold mbind at 1, M_bind at 1. rewrite E. unfold redis_delete. rewrite on_redis_quiet by done. eexists. split; [reflexivity|].
  split_and!; [done..|]. cbn [with_data w_redis over r_data c_delete foldr snd]. apply lookup_delete_eq.
Qed.

(** A request that was let in carries a valid access token. *)
Lemma current_user_verified present auth w cu w' :
  get_current_user jwt_decode snapshot_dump snapshot_load present auth w = (inr cu, w') ->
  exists h c, auth = Some h /\ startswith (lit "Bearer ") h = true /\ strip (drop 7 h) <> [] /\ verify_access_token jwt_decode (strip (drop 7 h)) = inr c.
Proof.
  unfold get_current_user, bearer_token. destruct auth as [h|]; [|done]. destruct (startswith _ h) eqn:Eh; [|done].
  case_bool_decide as Hne; [done|]. unfold resolve_access_token_user. destruct (verify_access_token jwt_decode (strip (drop 7 h))) as [x|c] eqn:Ev; [done|]. eauto 10.
Qed.
End Sessions.

Section LoginQuiet.
Context `{UnicodeDB}.
Context (jwt_decode : ustr -> option claims) (refresh_token_digest : ustr -> ustr).
Context (checkpw : ustr -> ustr -> bool) (hashpw : ustr -> ustr) (pepper : ustr).
Context (snapshot_dump : ustr -> CurrentUser -> ustr) (snapshot_load : ustr -> option (option ustr * option CurrentUser)).
Context (cfg : route_settings).

Lemma login_session k u ttl mail plain new_refresh new_access w :
  redis_up w -> users_unique (w_db w) -> users (w_db w) !! k = Some u -> user_deleted_at u = None -> status u = ACTIVE ->
  lower mail = email u -> verify_password_with_legacy_fallback checkpw pepper plain (password u) = true -> 0 < ttl ->
  exists w', login refresh_token_digest checkpw pepper true ttl mail plain new_refresh new_access w = (inr ((k, u), new_access, new_refresh), w') /\
    w_db w' = w_db w /\ r_now (w_redis w') = r_now (w_redis w) /\
    session k (refresh_token_digest new_refresh) (r_now (w_redis w) + ttl) w'.
Proof.
  intros Hq Huq Hu Hd Ha Hm Hp Ht. unfold login. unfold mbind at 1, M_bind at 1. unfold tx, on_db at 1. unfold mbind at 1, M_bind at 1.
  rewrite (get_user_by_email_found mail k u (w_db w)) by done. rewrite Ha, Hp. change (is_active_value (status_str ACTIVE)) with true. cbn [negb mret M_ret].
  rewrite (proj2 (Z.ltb_lt 0 ttl)) by done. cbn [andb when]. unfold mbind at 1, M_bind at 1. unfold mbind at 1, M_bind at 1.
  cbn [fst]. unfold redis_set at 1. set (w0 := w <| w_db := _ |>). rewrite (on_redis_quiet _ w0) by done.
  unfold c_set at 1. rewrite (proj2 (Z.leb_gt ttl 0)) by done. cbn [andb fst]. unfold set_user_status_cache_best_effort.
  rewrite best_effort_set_quiet by done. eexists. split; [reflexivity|]. split_and!; [done..|].
  unfold c_set. rewrite (proj2 (Z.leb_gt ttl 0)) by done. split_and!; [done| |cbn; lia|].
  - cbn [with_data w_redis over r_data snd]. rewrite lookup_insert_ne by (apply not_eq_sym, user_keys_distinct). apply lookup_insert_eq.
  - right. by apply status_stored.
Qed.

(** The request that carries a refresh token. *)
Definition carrying (token : ustr) : http_request :=
  {| hr_authorization := None; hr_cookies := [(REFRESH_TOKEN_COOKIE_NAME cfg, token)] |}.

Lemma carrying_token token : dict_get (REFRESH_TOKEN_COOKIE_NAME cfg) (hr_cookies (carrying token)) = Some token.
Proof. unfold carrying. cbn [hr_cookies dict_get]. by rewrite decide_True. Qed.

(** [POST /refresh] with the cookie. *)
Lemma refresh_carrying token new_refresh new_access w : rt_present cfg = true ->
  refresh_route jwt_decode refresh_token_digest cfg (carrying token) new_refresh new_access w =
  match refresh_tokens jwt_decode refresh_token_digest true (refresh_ttl_seconds cfg) token new_refresh new_access w with
  | (inr (a, r), w') => (inr (with_cookie (refresh_cookie cfg r) (reply 200 "AUTH_SUCCESS" a)), w')
  | (inl e, w') => (inl e, w')
  end.
Proof.
  intros Hp. unfold refresh_route. rewrite carrying_token, Hp. cbn [from_option]. unfold id, mbind, M_bind.
  by destruct (refresh_tokens _ _ _ _ _ _ _ _) as [[e|[a r]] w'].
Qed.

(** ** Theorems *)

(** C13. The life of a session on a reachable Redis.  An active account that logs
    in with its password gets the refresh token in an http-only, same-site cookie
    whose age is the stored digest's; sent back within that time, the cookie is
    exchanged for the next one, just such a cookie, and however much later the old
    one is refused - also when the next has expired meanwhile; and once a request
    of the user has logged out, which deletes the cookie, no refresh token of the
    user is exchanged until somebody logs in.  Nothing of it writes the database. *)
Theorem session_lifecycle (k : Z) (u : User) (mail plain r1 r2 ac1 ac2 : ustr) (c1 c2 : claims) (dt : Z) (w : world) :
  rt_present cfg = true -> redis_up w -> users_unique (w_db w) -> users (w_db w) !! k = Some u -> user_deleted_at u = None ->
  status u = ACTIVE -> lower mail = email u -> verify_password_with_legacy_fallback checkpw pepper plain (password u) = true ->
  token_of jwt_decode (lit "refresh") r1 c1 k -> token_of jwt_decode (lit "refresh") r2 c2 k -> r1 <> [] -> r2 <> [] ->
  refresh_token_digest r1 <> refresh_token_digest r2 -> 0 <= dt < refresh_ttl_seconds cfg ->
  exists a1 w1 a2 w2,
    login_route refresh_token_digest checkpw pepper cfg mail plain r1 ac1 w = (inr a1, w1) /\ an_data a1 = ((k, u), ac1) /\
    an_cookie a1 = Some (SetCookie (REFRESH_TOKEN_COOKIE_NAME cfg) r1 true (COOKIE_SECURE cfg) (lit "/") (lit "lax") (refresh_ttl_seconds cfg)) /\
    refresh_route jwt_decode refresh_token_digest cfg (carrying r1) r2 ac2 (later dt w1) = (inr a2, w2) /\ an_data a2 = ac2 /\
    an_cookie a2 = Some (SetCookie (REFRESH_TOKEN_COOKIE_NAME cfg) r2 true (COOKIE_SECURE cfg) (lit "/") (lit "lax") (refresh_ttl_seconds cfg)) /\ w_db w2 = w_db w /\
    (forall dt' r3 ac3, 0 <= dt' ->
       (refresh_route jwt_decode refresh_token_digest cfg (carrying r1) r3 ac3 (later dt' w2)).1 = inl UnauthorizedException) /\
    (forall dt' now_us rq cu w2', current_user jwt_decode snapshot_dump snapshot_load cfg rq (later dt' w2) = (inr cu, w2') -> cu_id cu = k ->
       exists a3 w3, logout_route jwt_decode snapshot_dump snapshot_load cfg now_us rq (later dt' w2) = (inr a3, w3) /\ w_db w3 = w_db w /\
         an_cookie a3 = Some (DeleteCookie (REFRESH_TOKEN_COOKIE_NAME cfg) (lit "/")) /\
         forall dt'' token c r3 ac3, token_of jwt_decode (lit "refresh") token c k -> token <> [] ->
           (refresh_route jwt_decode refresh_token_digest cfg (carrying token) r3 ac3 (later dt'' w3)).1 = inl UnauthorizedException).
Proof.
  intros Hp Hq Huq Hu Hd Ha Hm Hpw Ht1 Ht2 Hn1 Hn2 Hdg Hdt. assert (0 < refresh_ttl_seconds cfg) as Httl by lia.
  assert (forall v, w_db v = w_db w -> get_user_by_id k (w_db v) = Some u) as Hrow.
  { intros v ->. unfold get_user_by_id. rewrite Hu. cbn [mbind option_bind]. by rewrite decide_True. }
  destruct (login_session k u (refresh_ttl_seconds cfg) mail plain r1 ac1 w) as (w1 & E1 & Hdb1 & Hnow1 & Hs1); [done..|].
  assert (session k (refresh_token_digest r1) (r_now (w_redis w) + refresh_ttl_seconds cfg) (later dt w1)) as Hs1'.
  { apply session_later; [lia| |done]. rewrite Hnow1. lia. }
  destruct (refresh_session jwt_decode refresh_token_digest k u _ _ r1 c1 r2 ac2 (refresh_ttl_seconds cfg) _ Hs1' (Hrow (later dt w1) Hdb1) Ha Ht1 Hn1 Httl)
    as (w2 & E2 & Hdb2 & Hnow2 & Hs2). rewrite bool_decide_eq_true_2 in E2, Hs2 by done.
  eexists _, w1, _, w2. split_and!.
  - unfold login_route. rewrite Hp. unfold mbind, M_bind. rewrite E1. reflexivity.
  - done.
  - done.
  - rewrite refresh_carrying, E2 by done. reflexivity.
  - done.
  - done.
  - rewrite Hdb2. exact Hdb1.
  - intros dt' r3 ac3 Hdt'. rewrite refresh_carrying by done. destruct (Z.le_gt_cases (refresh_ttl_seconds cfg) dt') as [Hgone|Hlive].
    { destruct Hs2 as (Hq2 & Hk2 & _). assert ((refresh_tokens jwt_decode refresh_token_digest true (refresh_ttl_seconds cfg) r1 r3 ac3 (later dt' w2)).1
        = inl UnauthorizedException) as Er.
      { eapply refresh_digest_gone; [exact Hq2| |exact Ht1|exact Hn1]. unfold live. cbn [later w_redis over r_data r_now] in *. rewrite Hk2.
        unfold expired. cbn [r_exp]. by rewrite (proj2 (Z.leb_le _ _)) by (rewrite Hnow2; cbn [later w_redis over r_now]; lia). }
      destruct (refresh_tokens jwt_decode refresh_token_digest true (refresh_ttl_seconds cfg) r1 r3 ac3 (later dt' w2)) as [[e|[]] w3]; [|done].
      cbn [fst] in *. by injection Er as ->. }
    assert (session k (refresh_token_digest r2) (r_now (w_redis (later dt w1)) + refresh_ttl_seconds cfg) (later dt' w2)) as Hs2'.
    { apply session_later; [lia| |done]. rewrite Hnow2. lia. }
    destruct (refresh_session jwt_decode refresh_token_digest k u _ _ r1 c1 r3 ac3 (refresh_ttl_seconds cfg) _ Hs2'
                (Hrow (later dt' w2) (eq_trans Hdb2 Hdb1)) Ha Ht1 Hn1 Httl) as (w3 & E3 & _).
    rewrite bool_decide_eq_false_2 in E3 by done. by rewrite E3.
  - intros dt' now_us rq cu w2' Ecu Hk. unfold logout_route. unfold mbind at 1, M_bind at 1. rewrite Ecu.
    destruct (current_user_verified _ _ _ _ _ _ _ _ Ecu) as (h & c & Eh & Hb & Hne & Hv). rewrite Eh. cbn [from_option]. unfold id. rewrite Hb.
    assert (redis_up w2') as Hq2.
    { pose proof (current_user_up jwt_decode snapshot_dump snapshot_load (rt_present cfg) (hr_authorization rq) (later dt' w2)) as Hup.
      unfold current_user in Ecu. rewrite Ecu in Hup. apply Hup. by destruct Hs2. }
    assert (w_db w2' = w_db w) as Hdb2'.
    { pose proof (current_user_leaves jwt_decode snapshot_dump snapshot_load (rt_present cfg) (hr_authorization rq) (later dt' w2) (later dt' w2) (only_redis_refl _)) as Hl.
      unfold current_user in Ecu. rewrite Ecu in Hl. cbn [snd] in Hl. rewrite (only_redis_db _ _ Hl). exact (eq_trans Hdb2 Hdb1). }
    destruct (strip (drop 7 h)) as [|x t] eqn:Et; [done|]. rewrite Hv, Hp, Hk. unfold mbind at 1, M_bind at 1. cbn [mret M_ret].
    destruct (logout_quiet k now_us c w2' Hq2) as (w3 & E3 & Hdb3 & Hq3 & Hkey). unfold mbind at 1, M_bind at 1. rewrite E3.
    eexists _, w3. split_and!; [reflexivity| |done|].
    + by rewrite Hdb3.
    + intros dt'' token c' r3 ac3 Htok Hnt. rewrite refresh_carrying by done.
      pose proof (refresh_without_digest jwt_decode refresh_token_digest k (later dt'' w3) (refresh_ttl_seconds cfg) token c' r3 ac3 Hq3 Hkey Htok Hnt) as Er.
      destruct (refresh_tokens jwt_decode refresh_token_digest true (refresh_ttl_seconds cfg) token r3 ac3 (later dt'' w3)) as [[e|[]] w4]; [|done].
      cbn [fst] in *. by injection Er as ->.
Qed.
End LoginQuiet.

Section AccountTheorems.
Context `{UnicodeDB}.
Context (jwt_decode : ustr -> option claims) (refresh_token_digest : ustr -> ustr).
Context (checkpw : ustr -> ustr -> bool) (hashpw : ustr -> ustr) (pepper : ustr).
Context (snapshot_dump : ustr -> CurrentUser -> ustr) (snapshot_load : ustr -> option (option ustr * option CurrentUser)).
Context (cfg : route_settings).

Abbreviation resolve := (resolve_access_token_user jwt_decode snapshot_dump snapshot_load true).

(** [invalidate_user_status_cache] never raises; on a reachable Redis both cached
    keys are gone and nothing else is. *)
Lemma invalidate_runs present k w : exists w', invalidate_user_status_cache present k w = (inr tt, w') /\ only_redis w w' /\
  (present = true -> redis_up w -> redis_up w' /\ r_now (w_redis w') = r_now (w_redis w) /\
     r_data (w_redis w') !! user_auth_cache_key k = None /\
     forall j, r_data (w_redis w) !! j = None -> r_data (w_redis w') !! j = None).
Proof.
  unfold invalidate_user_status_cache. destruct present; [|exists w; split; [done|]; split; [apply only_redis_refl|done]].
  unfold best_effort, try_except. pose proof (on_redis_only (redis_delete [user_status_cache_key k; user_auth_cache_key k]) w) as Ho.
  pose proof (on_redis_quiet (c_delete [user_status_cache_key k; user_auth_cache_key k]) w) as Hqt. unfold redis_delete in *.
  destruct (on_redis _ w) as [[e|[]] w1]; cbn [fst snd] in *; (eexists; split; [reflexivity|]; split; [exact Ho|]); intros _ Hq; specialize (Hqt Hq); [done|].
  apply (f_equal snd) in Hqt. cbn [snd c_delete foldr] in Hqt. subst w1. cbn [with_data w_redis over r_data r_now]. split_and!; try done.
  - rewrite lookup_delete_ne by discriminate. apply lookup_delete_eq.
  - intros j Hj. destruct (decide (j = user_status_cache_key k)) as [->|]; [apply lookup_delete_eq|]. rewrite lookup_delete_ne by done.
    destruct (decide (j = user_auth_cache_key k)) as [->|]; [apply lookup_delete_eq|]. by rewrite lookup_delete_ne.
Qed.

(** Revoking: only Redis changes, and when it returns on a reachable Redis the
    digest is gone. *)
Lemma revoke_runs present k w : only_redis w (revoke_refresh_for_user present k w).2 /\
  (present = true -> redis_up w -> exists w', revoke_refresh_for_user present k w = (inr tt, w') /\ redis_up w' /\
     r_data (w_redis w') !! user_refresh_key k = None).
Proof.
  unfold revoke_refresh_for_user, when. split; [destruct present; [apply on_redis_only|apply only_redis_refl]|].
  intros -> Hq. unfold redis_delete. rewrite on_redis_quiet by done. eexists. split; [reflexivity|]. split; [done|].
  cbn [with_data w_redis over r_data c_delete foldr snd]. apply lookup_delete_eq.
Qed.

(** What the guard in front of a handler leaves. *)
Lemma guard_leaves rq w : only_redis w (current_user jwt_decode snapshot_dump snapshot_load cfg rq w).2 /\
  (redis_up w -> redis_up (current_user jwt_decode snapshot_dump snapshot_load cfg rq w).2).
Proof. split; [apply current_user_leaves, only_redis_refl|]. apply current_user_up. Qed.

(** C14. Administration is reserved to administrators, whatever Redis does: an
    administrative request whose token does not resolve to a user with the
    role ADMIN ends in 401 or 403 before the handler runs, schedules nothing and
    leaves every table and every stored object as they were; otherwise the answer
    and the effects are the handler's.  Judged on the row (no cached snapshot, a
    reachable Redis, a token not logged out), an active account is let in exactly
    if its role is ADMIN. *)
Theorem admin_routes_guarded (now : Z) (rq : http_request) (call : admin_call) (w : world) :
  match current_admin jwt_decode snapshot_dump snapshot_load cfg rq w with
  | (inl e, w') => admin_route jwt_decode snapshot_dump snapshot_load cfg now rq call w = (inl e, w') /\ refused e /\ only_redis w w'
  | (inr cu, w') => cu_role cu = lit "ADMIN" /\ only_redis w w' /\
      admin_route jwt_decode snapshot_dump snapshot_load cfg now rq call w = admin_handler cfg now call w'
  end /\
  (forall token c k u, rt_present cfg = true -> redis_up w -> bearer_token (hr_authorization rq) = Some token ->
     token_of jwt_decode (lit "access") token c k -> logged_out c w = false ->
     live (r_now (w_redis w)) (r_data (w_redis w)) (user_auth_cache_key k) = None -> get_user_by_id k (w_db w) = Some u -> status u = ACTIVE ->
     (current_admin jwt_decode snapshot_dump snapshot_load cfg rq w).1 = (if bool_decide (role u = lit "ADMIN") then inr (current_user_of k u) else inl ForbiddenException)).
Proof.
  split.
  - unfold admin_route. pose proof (guard_leaves rq w) as [Ho _].
    pose proof (current_user_raises jwt_decode snapshot_dump snapshot_load (rt_present cfg) (hr_authorization rq) w) as Hr.
    unfold current_admin, get_current_admin. unfold current_user in Ho. unfold mbind, M_bind.
    destruct (get_current_user _ _ _ _ _ w) as [[e|cu] w1]; cbn [fst snd] in *.
    + split_and!; [done|by apply Hr|done].
    + destruct (decide (cu_role cu = lit "ADMIN")) as [Ha|Ha]; [done|]. split_and!; [done|by right|done].
  - intros token c k u Hp Hq Hb Ht Hl Hc Hu Ha. unfold current_admin, get_current_admin, get_current_user. rewrite Hp, Hb. unfold mbind, M_bind.
    pose proof (resolve_by_row jwt_decode snapshot_dump snapshot_load token c k w Hq Ht Hc) as E. rewrite Hl, Hu, bool_decide_eq_true_2 in E by done.
    destruct (resolve token w) as [[e|cu] w1]; cbn [fst] in E; [done|]. injection E as ->. cbn [cu_role current_user_of].
    destruct (decide _), (bool_decide_reflect (role u = lit "ADMIN")); done.
Qed.

(** Withdrawing an account is all or nothing: if [DELETE /users/me] fails,
    whatever failed, the database is as before; if it succeeds, the account is
    withdrawn, and on a reachable Redis no access token of the user is accepted
    any more, whatever had been cached, and no refresh token is exchanged, at any
    later time. *)
Theorem withdrawal_ends_access (now : Z) (rq : http_request) (w : world) :
  match delete_me jwt_decode snapshot_dump snapshot_load cfg now rq w with
  | (inl e, w') => w_db w' = w_db w
  | (inr _, w') => exists cu u', (current_user jwt_decode snapshot_dump snapshot_load cfg rq w).1 = inr cu /\
      users (w_db w') !! cu_id cu = Some u' /\ status u' = WITHDRAWN /\ user_deleted_at u' <> None /\
      (rt_present cfg = true -> redis_up w -> forall dt token c,
         (token_of jwt_decode (lit "access") token c (cu_id cu) -> (resolve token (later dt w')).1 = inl UnauthorizedException) /\
         (token_of jwt_decode (lit "refresh") token c (cu_id cu) -> token <> [] -> forall ttl new_refresh new_access,
            (refresh_tokens jwt_decode refresh_token_digest true ttl token new_refresh new_access (later dt w')).1 = inl UnauthorizedException))
  end.
Proof.
  unfold delete_me. pose proof (guard_leaves rq w) as [Ho Hup]. unfold mbind at 1, M_bind at 1.
  destruct (current_user _ _ _ cfg rq w) as [[e|cu] w1]; cbn [fst snd] in *; [by apply only_redis_db|].
  unfold mbind at 1, M_bind at 1. destruct (revoke_runs (rt_present cfg) (cu_id cu) w1) as [Hr Hrev].
  destruct (revoke_refresh_for_user _ _ w1) as [[e|[]] w2] eqn:Er; cbn [snd] in Hr.
  { by rewrite (only_redis_db _ _ Hr), (only_redis_db _ _ Ho). }
  unfold mbind at 1, M_bind at 1. unfold on_db. destruct (delete_user now (cu_id cu) (w_db w2)) as [[e|[]] d'] eqn:Ed.
  { unfold delete_user, begin_tx in Ed. destruct ((get ≫= _) (w_db w2)) as [[e'|a] d'']; [|done]. injection Ed as _ <-.
    cbn [w_db over]. by rewrite (only_redis_db _ _ Hr), (only_redis_db _ _ Ho). }
  apply Responses.withdrawn_row in Ed as (u' & Hu' & Hst & Hdel). unfold mbind at 1, M_bind at 1. set (w3 := w2 <| w_db := d' |>).
  destruct (invalidate_runs (rt_present cfg) (cu_id cu) w3) as (w4 & E4 & Hi & Hquiet). rewrite E4. cbn [mret M_ret].
  exists cu, u'. rewrite (only_redis_db _ _ Hi). split_and!; [done..|]. intros Hp Hq dt token c.
  assert (redis_up w2 /\ r_data (w_redis w2) !! user_refresh_key (cu_id cu) = None) as [Hq2 Hk2].
  { destruct (Hrev Hp (Hup Hq)) as (w2' & [= <-] & ?). done. }
  destruct (Hquiet Hp Hq2) as (Hq4 & _ & Hk4 & Hnone). split.
  - intros Ht. rewrite (resolve_by_row jwt_decode snapshot_dump snapshot_load token c (cu_id cu)) by (try apply live_absent; done). cbn [later w_db over]. rewrite (only_redis_db _ _ Hi).
    unfold get_user_by_id. cbn [w3 w_db over]. rewrite Hu'. cbn [mbind option_bind]. rewrite decide_False by done. by destruct (logged_out _ _).
  - intros Ht Hne ttl nr na. eapply refresh_without_digest; [done| |done|done]. cbn [later w_redis over r_data]. by apply Hnone.
Qed.
(** The answer of a profile change is the row it leaves. *)
Lemma profile_row st now k fresh data d r d' : update_user_profile_response st now k fresh data d = (inr r, d') ->
  get_user_by_id k d' = Some (up_user r) /\ up_id r = k.
Proof.
  unfold update_user_profile_response, begin_tx. unfold mbind, M_bind. destruct (update_user_profile now k fresh data d) as [[e|u0] d1]; [done|].
  unfold load_profile, get. unfold mbind, M_bind. destruct (get_user_by_id k d1) as [u|] eqn:Eu; [|done]. unfold profile_response.
  destruct (Responses.profile_image_url st u d1) as [url|]; [|done]. by intros [= <- <-].
Qed.

(** A changed profile is what the next request sees: on a reachable Redis,
    after a successful [PATCH /users/me] the answer shows the row as stored, and
    every access token of the user not logged out resolves to exactly that row at
    any later time, whatever snapshot had been cached. *)
Theorem profile_change_visible (now : Z) (fresh : nat -> Z) (rq : http_request) (data : UpdateUserRequest) (w w' : world) (a : answer UserProfileResponse) :
  rt_present cfg = true -> redis_up w ->
  update_me jwt_decode snapshot_dump snapshot_load cfg now fresh rq data w = (inr a, w') ->
  exists cu u', (current_user jwt_decode snapshot_dump snapshot_load cfg rq w).1 = inr cu /\
    get_user_by_id (cu_id cu) (w_db w') = Some u' /\ up_id (an_data a) = cu_id cu /\ up_user (an_data a) = u' /\
    forall dt token c, token_of jwt_decode (lit "access") token c (cu_id cu) -> logged_out c (later dt w') = false -> status u' = ACTIVE ->
      (resolve token (later dt w')).1 = inr (current_user_of (cu_id cu) u').
Proof.
  intros Hp Hq. unfold update_me. pose proof (guard_leaves rq w) as [_ Hup]. specialize (Hup Hq). unfold mbind at 1, M_bind at 1.
  destruct (current_user _ _ _ cfg rq w) as [[e|cu] w1]; cbn [fst snd] in *; [done|].
  unfold mbind at 1, M_bind at 1. unfold on_db at 1.
  destruct (update_user_profile_response _ _ _ _ _ (w_db w1)) as [[e|r] d1] eqn:Er; [done|]. apply profile_row in Er as [Hu Hid].
  unfold mbind at 1, M_bind at 1. set (w2 := w1 <| w_db := d1 |>).
  destruct (invalidate_runs (rt_present cfg) (cu_id cu) w2) as (w3 & -> & Hi & Hquiet). destruct (Hquiet Hp Hup) as (Hq3 & _ & Hk3 & _).
  cbn [mret M_ret]. intros E. apply pair_equal_spec in E as [[= <-] <-].
  exists cu, (up_user r). rewrite (only_redis_db _ _ Hi). cbn [an_data ok reply]. split_and!; [done..|].
  intros dt token c Ht Hl Ha. rewrite (resolve_by_row jwt_decode snapshot_dump snapshot_load token c (cu_id cu)) by (try apply live_absent; done).
  cbn [later w_db over] in *. rewrite (only_redis_db _ _ Hi), Hl. cbn [w2 w_db over]. by rewrite Hu, bool_decide_eq_true_2.
Qed.

(** The row [update_password] writes. *)
Lemma password_row k current new_password d d' : update_password checkpw hashpw pepper k current new_password d = (inr tt, d') ->
  exists u, get_user_by_id k d = Some u /\ verify_password_with_legacy_fallback checkpw pepper current (password u) = true /\
    d' = (d <| users := <[k := u <| password := hashpw (password_with_pepper pepper new_password) |>]> (users d) |>).
Proof.
  unfold update_password, begin_tx, get, get_password_hash, update_password_row, update_live_user. unfold mbind, M_bind.
  destruct (get_user_by_id k d) as [u|] eqn:Eg; [|done]. cbn [fmap option_fmap option_map]. destruct (password u) as [|x h] eqn:Ep; [done|].
  destruct (verify_password_with_legacy_fallback checkpw pepper current _) eqn:Ev; [|done]. cbn [negb].
  destruct (verify_password_with_legacy_fallback checkpw pepper new_password _); [done|].
  pose proof Eg as Eg'. unfold get_user_by_id in Eg'. destruct (users d !! k) as [u0|] eqn:Eu; [|done]. cbn [mbind option_bind] in Eg'.
  destruct (decide (user_deleted_at u0 = None)) as [Hd|]; [|done]. injection Eg' as ->.
  destruct (unique_error k _ d); [done|]. intros [= <-]. exists u. rewrite Ep. done.
Qed.

(** Changing the password.  Success: the row holds the new hash, the old
    password was given, and on a reachable Redis no refresh token is exchanged
    until a new login.  Failure: nothing was written, except that a failing Redis
    answers with an error although the password is already the new one. *)
Theorem password_change (rq : http_request) (current new_password : ustr) (w : world) :
  match update_password_route jwt_decode checkpw hashpw pepper snapshot_dump snapshot_load cfg rq current new_password w with
  | (inr _, w') => exists cu u, (current_user jwt_decode snapshot_dump snapshot_load cfg rq w).1 = inr cu /\
      get_user_by_id (cu_id cu) (w_db w) = Some u /\ verify_password_with_legacy_fallback checkpw pepper current (password u) = true /\
      w_db w' = (w_db w <| users := <[cu_id cu := u <| password := hashpw (password_with_pepper pepper new_password) |>]> (users (w_db w)) |>) /\
      (rt_present cfg = true -> redis_up w -> forall dt ttl token c new_refresh new_access,
         token_of jwt_decode (lit "refresh") token c (cu_id cu) -> token <> [] ->
         (refresh_tokens jwt_decode refresh_token_digest true ttl token new_refresh new_access (later dt w')).1 = inl UnauthorizedException)
  | (inl e, w') => w_db w' = w_db w \/ ~ (refused e) /\ exists k u, get_user_by_id k (w_db w) = Some u /\
      w_db w' = (w_db w <| users := <[k := u <| password := hashpw (password_with_pepper pepper new_password) |>]> (users (w_db w)) |>)
  end.
Proof.
  unfold update_password_route. pose proof (guard_leaves rq w) as [Ho Hup]. unfold mbind at 1, M_bind at 1.
  destruct (current_user _ _ _ cfg rq w) as [[e|cu] w1]; cbn [fst snd] in *; [left; by apply only_redis_db|].
  unfold mbind at 1, M_bind at 1. unfold on_db. destruct (update_password _ _ _ _ _ _ (w_db w1)) as [[e|[]] d1] eqn:Ed.
  { left. unfold update_password, begin_tx in Ed. destruct ((get ≫= _) (w_db w1)) as [[e'|a] d'']; [|done]. injection Ed as _ <-.
    cbn [w_db over]. by apply only_redis_db. }
  apply password_row in Ed as (u & Hu & Hv & ->). rewrite (only_redis_db _ _ Ho) in *. unfold mbind at 1, M_bind at 1.
  match goal with |- context [revoke_refresh_for_user _ _ ?v] => set (w2 := v) end.
  destruct (revoke_runs (rt_present cfg) (cu_id cu) w2) as [Hr Hrev].
  destruct (revoke_refresh_for_user _ _ w2) as [[e|[]] w3] eqn:Er; cbn [snd] in Hr.
  - right. split; [|exists (cu_id cu), u; split; [done|]; by rewrite (only_redis_db _ _ Hr)].
    assert (e = RedisError) as ->; [|by intros [|]]. clear -Er. unfold revoke_refresh_for_user, when in Er. destruct (rt_present cfg); [|done].
    unfold on_redis, redis_delete, command in Er. destruct (next_tick (w_redis w2)) as [t ts]. destruct (t_fault t); by simplify_eq/=.
  - cbn [mret M_ret]. exists cu, u. rewrite (only_redis_db _ _ Hr). split_and!; [done..|]. intros Hp Hq dt ttl token c nr na Ht Hne.
    destruct (Hrev Hp) as (w3' & [= <-] & Hq3 & Hk3); [by apply Hup|]. eapply refresh_without_digest; done.
Qed.
End AccountTheorems.

(** ** The limit on presigned uploads *)

Section PresignLimit.
Context `{UnicodeDB} (cfg : route_settings) (user : Z).

(** A request after a pause. *)
Record presign_request := { ps_pause : Z; ps_upload_id : Z; ps_filename : ustr; ps_type : ustr }.

Definition issued (q : presign_request) : exn + answer ustr :=
  match issue_presigned_upload (rt_storage cfg) (ps_upload_id q) (ps_filename q) (ps_type q) with
  | inl e => inl e
  | inr key => inr (ok key)
  end.

Definition after_pause (dt : Z) (e : sock_env) : sock_env := e <| e_world := later dt (e_world e) |>.

Fixpoint presign_session (qs : list presign_request) (e : sock_env) : list (exn + answer ustr) :=
  match qs with
  | [] => []
  | q :: qs =>
      let '(r, e') := presign_for cfg user (ps_upload_id q) (ps_filename q) (ps_type q) (after_pause (ps_pause q) e) in
      r :: presign_session qs e'
  end.

Definition total_pause (qs : list presign_request) : Z := foldr (fun q n => ps_pause q + n) 0 qs.

(** [c] hits in a window that ends at [t]. *)
Definition counting (c t : Z) (e : sock_env) : Prop :=
  redis_up (e_world e) /\ r_now (w_redis (e_world e)) < t /\
  r_data (w_redis (e_world e)) !! window_key (presign_key user) = Some {| r_val := RInt c; r_exp := Some t |}.

(** One request, by what the counter script answers. *)
Lemma presign_step q e n ttl d : rt_present cfg = true -> redis_up (e_world e) ->
  lua_fixed_window (window_key (presign_key user)) (MEDIA_PRESIGN_RATE_LIMIT_WINDOW cfg) (r_now (w_redis (e_world e))) (r_data (w_redis (e_world e))) = (inr (n, ttl), d) ->
  exists e', presign_for cfg user (ps_upload_id q) (ps_filename q) (ps_type q) e =
      (if n <=? MEDIA_PRESIGN_RATE_LIMIT_MAX cfg then issued q else inl TooManyRequestsException, e') /\
    redis_up (e_world e') /\ r_now (w_redis (e_world e')) = r_now (w_redis (e_world e)) /\ r_data (w_redis (e_world e')) = d.
Proof.
  intros Hp Hq El. unfold presign_for, on_limits, check_fixed_window, try_except, with_redis, check_redis_fixed_window. rewrite Hp.
  fold (window_key (presign_key user)).
  set (s := lua_fixed_window (window_key (presign_key user)) (MEDIA_PRESIGN_RATE_LIMIT_WINDOW cfg)) in *.
  destruct (eval_script_cached_healthy FIXED_WINDOW s (w_redis (e_world e)) Hq) as (E1 & E2 & E3 & E4). rewrite El in E1, E2.
  unfold mbind, M_bind. cbn [rl_redis]. destruct (eval_script_cached FIXED_WINDOW s (w_redis (e_world e))) as [r r'].
  cbn [fst snd] in *. subst r. cbn [mret M_ret]. rewrite (Z.leb_antisym _ n). unfold when, count_rejection, modify, issued.
  destruct (MEDIA_PRESIGN_RATE_LIMIT_MAX cfg <? n); cbn [negb fst snd rl_redis rl_memory rl_clock rl_rejections mret M_ret].
  - eexists. split; [reflexivity|]. by split_and!.
  - destruct (issue_presigned_upload _ _ _ _); eexists; (split; [reflexivity|]); by split_and!.
Qed.

Lemma presign_counting qs c t e : rt_present cfg = true -> 1 <= c -> counting c t e -> Forall (fun q => 0 <= ps_pause q) qs ->
  r_now (w_redis (e_world e)) + total_pause qs < t ->
  presign_session qs e = imap (fun i q => if c + Z.of_nat i <? MEDIA_PRESIGN_RATE_LIMIT_MAX cfg then issued q else inl TooManyRequestsException) qs.
Proof.
  revert c e. induction qs as [|q qs IH]; intros c e Hp Hc (Hq & Hn & Hd) Hpos Ht; [done|]. apply Forall_cons in Hpos as [H0 Hpos].
  cbn [presign_session total_pause foldr] in *. fold (total_pause qs) in Ht.
  assert (0 <= total_pause qs) as Hnn by (clear -Hpos; unfold total_pause; induction Hpos; cbn [foldr]; lia).
  destruct (presign_step q (after_pause (ps_pause q) e) (c + 1) (t - (r_now (w_redis (e_world e)) + ps_pause q))
    (<[window_key (presign_key user) := {| r_val := RInt (c + 1); r_exp := Some t |}]> (r_data (w_redis (e_world e))))) as (e' & -> & Hq' & Hn' & Hd').
  { done. } { done. }
  { unfold lua_fixed_window, live, expired. cbn [after_pause e_world later over w_redis r_data r_now]. rewrite Hd. cbn [r_exp r_val].
    rewrite (proj2 (Z.leb_gt _ _)), (proj2 (Z.eqb_neq _ _)) by lia. done. }
  rewrite imap_cons. f_equal.
  - rewrite Z.add_0_r. destruct (Z.leb_spec (c + 1) (MEDIA_PRESIGN_RATE_LIMIT_MAX cfg)), (Z.ltb_spec c (MEDIA_PRESIGN_RATE_LIMIT_MAX cfg)); done || lia.
  - cbn [after_pause e_world later over w_redis r_now] in Hn'. rewrite (IH (c + 1) e'); try done; try lia.
    + apply imap_ext. intros i x _. cbn [compose]. by replace (c + 1 + Z.of_nat i) with (c + Z.of_nat (S i)) by lia.
    + split_and!; [done|lia|]. rewrite Hd'. apply lookup_insert_eq.
Qed.

(** C28. A user gets at most [MEDIA_PRESIGN_RATE_LIMIT_MAX] presigned uploads per
    window: of any requests that follow each other within one window on a
    reachable Redis, the first ones up to the limit are answered by the issue (a
    key, or the refusal of the file), each later one with 429 and nothing is
    issued for it.  Two users do not share a window. *)
Theorem presign_limit_exact (qs : list presign_request) (e : sock_env) :
  rt_present cfg = true -> redis_up (e_world e) -> r_data (w_redis (e_world e)) !! window_key (presign_key user) = None ->
  1 <= MEDIA_PRESIGN_RATE_LIMIT_WINDOW cfg -> Forall (fun q => 0 <= ps_pause q) qs -> total_pause qs < MEDIA_PRESIGN_RATE_LIMIT_WINDOW cfg ->
  presign_session qs e = imap (fun i q => if Z.of_nat i <? MEDIA_PRESIGN_RATE_LIMIT_MAX cfg then issued q else inl TooManyRequestsException) qs /\
  forall other, uuid_ok user -> uuid_ok other -> other <> user -> window_key (presign_key other) <> window_key (presign_key user).
Proof.
  intros Hp Hq Hd Hw Hpos Ht. split.
  - destruct qs as [|q qs]; [done|]. apply Forall_cons in Hpos as [H0 Hpos]. cbn [presign_session total_pause foldr] in *. fold (total_pause qs) in Ht.
    set (t := r_now (w_redis (e_world e)) + ps_pause q + MEDIA_PRESIGN_RATE_LIMIT_WINDOW cfg).
    destruct (presign_step q (after_pause (ps_pause q) e) 1 (MEDIA_PRESIGN_RATE_LIMIT_WINDOW cfg)
      (<[window_key (presign_key user) := {| r_val := RInt 1; r_exp := Some t |}]> (r_data (w_redis (e_world e))))) as (e' & -> & Hq' & Hn' & Hd').
    { done. } { done. }
    { unfold lua_fixed_window, live. cbn [after_pause e_world later over w_redis r_data r_now]. rewrite Hd.
      by rewrite (proj2 (Z.leb_gt _ 0)) by lia. }
    cbn [after_pause e_world later over w_redis r_now] in Hn'. rewrite imap_cons. f_equal.
    + destruct (Z.leb_spec 1 (MEDIA_PRESIGN_RATE_LIMIT_MAX cfg)), (Z.ltb_spec (Z.of_nat 0) (MEDIA_PRESIGN_RATE_LIMIT_MAX cfg)); done || lia.
    + rewrite (presign_counting qs 1 t e'); try done; try lia.
      * apply imap_ext. intros i x _. cbn [compose]. by replace (1 + Z.of_nat i) with (Z.of_nat (S i)) by lia.
      * split_and!; [done|lia|]. rewrite Hd'. apply lookup_insert_eq.
  - intros other Hu Ho Hne Heq. apply Hne. unfold window_key, presign_key in Heq. do 3 apply app_inv_head in Heq. by apply uuid_str_inj in Heq.
Qed.
End PresignLimit.

(** ** Witnesses *)

Definition demo_routes : route_settings :=
  {| rt_present := true; REFRESH_TOKEN_EXPIRE_DAYS := 7; REFRESH_TOKEN_COOKIE_NAME := lit "refresh_token"; COOKIE_SECURE := true;
     MEDIA_PRESIGN_RATE_LIMIT_WINDOW := 60; MEDIA_PRESIGN_RATE_LIMIT_MAX := 1; SIGNUP_IMAGE_TOKEN_TTL := 3600; rt_storage := demo_cfg |}.
Definition route_claims (kind : ustr) : claims :=
  {| cl_sub := Some (uuid_str 7); cl_exp := Some 100; cl_jti := Some (lit "j"); cl_type := Some kind |}.
Definition route_jwt (t : ustr) : option claims :=
  if decide (t = lit "a") then Some (route_claims (lit "access"))
  else if decide (t = lit "r") then Some (route_claims (lit "refresh"))
  else if decide (t = lit "s") then Some (route_claims (lit "refresh")) else None.
Definition no_dump (_ : ustr) (_ : CurrentUser) : ustr := [].
Definition no_load (_ : ustr) : option (option ustr * option CurrentUser) := None.
Definition demo_bearer : http_request := {| hr_authorization := Some (lit "Bearer a"); hr_cookies := [] |}.

Lemma route_token_of kind t : route_jwt t = Some (route_claims kind) -> token_of (H := ascii_db) route_jwt kind t (route_claims kind) 7.
Proof.
  intros Ht. split.
  - unfold verify_token. rewrite Ht. cbn [cl_type route_claims]. by rewrite decide_True.
  - exists (uuid_str 7). split; [done|]. vm_compute. reflexivity.
Qed.

(** Login, a second later a refresh, then the old cookie. *)
Lemma session_lifecycle_witness : exists a1 w1 a2 w2,
  login_route (H := ascii_db) (fun t => t) (fun _ _ => true) [] demo_routes (lit "A@b.c") (lit "p") (lit "r") (lit "x") demo_auth_world = (inr a1, w1) /\
  refresh_route (H := ascii_db) route_jwt (fun t => t) demo_routes (carrying demo_routes (lit "r")) (lit "s") (lit "y") (later 1 w1) = (inr a2, w2) /\
  an_cookie a2 = Some (SetCookie (lit "refresh_token") (lit "s") true true (lit "/") (lit "lax") 604800) /\
  (refresh_route (H := ascii_db) route_jwt (fun t => t) demo_routes (carrying demo_routes (lit "r")) (lit "s") (lit "z") (later 1 w2)).1 = inl UnauthorizedException.
Proof.
  destruct (session_lifecycle (H := ascii_db) route_jwt (fun t => t) (fun _ _ => true) [] no_dump no_load demo_routes 7 demo_user
              (lit "A@b.c") (lit "p") (lit "r") (lit "s") (lit "x") (lit "y") (route_claims (lit "refresh")) (route_claims (lit "refresh")) 1 demo_auth_world)
    as (a1 & w1 & a2 & w2 & E1 & _ & _ & E2 & _ & Hc & _ & Hold & _).
  - reflexivity.
  - reflexivity.
  - exact demo_auth_unique.
  - vm_compute. reflexivity.
  - reflexivity.
  - reflexivity.
  - vm_compute. reflexivity.
  - reflexivity.
  - apply route_token_of. vm_compute. reflexivity.
  - apply route_token_of. vm_compute. reflexivity.
  - discriminate.
  - discriminate.
  - discriminate.
  - vm_compute. split; congruence.
  - exists a1, w1, a2, w2. split; [exact E1|]. split; [exact E2|]. split; [exact Hc|]. apply Hold. vm_compute. discriminate.
Defined.

(** A user who is no administrator asks for a suspension. *)
Lemma admin_routes_guarded_witness : exists w',
  admin_route (H := ascii_db) route_jwt no_dump no_load demo_routes 5 demo_bearer (SuspendUser 7) demo_auth_world = (inl ForbiddenException, w') /\
  only_redis demo_auth_world w'.
Proof.
  destruct (admin_routes_guarded (H := ascii_db) route_jwt no_dump no_load demo_routes 5 demo_bearer (SuspendUser 7) demo_auth_world) as [Hg Hrow].
  assert ((current_admin (H := ascii_db) route_jwt no_dump no_load demo_routes demo_bearer demo_auth_world).1 = inl ForbiddenException) as E.
  { rewrite (Hrow (lit "a") (route_claims (lit "access")) 7 demo_user).
    - vm_compute. reflexivity.
    - reflexivity.
    - reflexivity.
    - vm_compute. reflexivity.
    - apply route_token_of. vm_compute. reflexivity.
    - vm_compute. reflexivity.
    - vm_compute. reflexivity.
    - vm_compute. reflexivity.
    - reflexivity. }
  destruct (current_admin route_jwt no_dump no_load demo_routes demo_bearer demo_auth_world) as [[e|cu] w']; [|discriminate E].
  injection E as ->. exists w'. destruct Hg as (Ha & _ & Ho). split; [exact Ha|exact Ho].
Defined.

Lemma withdrawal_ends_access_witness : exists w',
  (delete_me (H := ascii_db) route_jwt no_dump no_load demo_routes 5 demo_bearer demo_auth_world).2 = w' /\
  (resolve_access_token_user (H := ascii_db) route_jwt no_dump no_load true (lit "a") (later 9 w')).1 = inl UnauthorizedException.
Proof.
  pose proof (withdrawal_ends_access (H := ascii_db) route_jwt (fun t => t) no_dump no_load demo_routes 5 demo_bearer demo_auth_world) as H.
  eexists. split; [reflexivity|].
  assert (match (delete_me (H := ascii_db) route_jwt no_dump no_load demo_routes 5 demo_bearer demo_auth_world).1 with inr _ => true | inl _ => false end = true) as Er
    by (vm_compute; reflexivity).
  assert (match (current_user (H := ascii_db) route_jwt no_dump no_load demo_routes demo_bearer demo_auth_world).1 with inr cu => cu_id cu =? 7 | inl _ => false end = true) as Ek
    by (vm_compute; reflexivity).
  destruct (delete_me route_jwt no_dump no_load demo_routes 5 demo_bearer demo_auth_world) as [[e|a] w']; [discriminate Er|].
  destruct H as (cu & u' & Ecu & _ & _ & _ & Ht). rewrite Ecu in Ek. apply Z.eqb_eq in Ek. rewrite Ek in Ht.
  apply (Ht eq_refl eq_refl 9 (lit "a") (route_claims (lit "access"))). apply route_token_of. vm_compute. reflexivity.
Defined.

Definition demo_rename : UpdateUserRequest :=
  {| uu_nickname := Some (lit "m"); uu_profile_image_id := None; uu_clear_profile_image := false; uu_dogs := None |}.

Lemma profile_change_visible_witness : exists a w',
  update_me (H := ascii_db) route_jwt no_dump no_load demo_routes 5 (fun _ => 0) demo_bearer demo_rename demo_auth_world = (inr a, w') /\
  exists cu u', (current_user (H := ascii_db) route_jwt no_dump no_load demo_routes demo_bearer demo_auth_world).1 = inr cu /\
    get_user_by_id (cu_id cu) (w_db w') = Some u' /\ up_user (an_data a) = u'.
Proof.
  destruct (update_me (H := ascii_db) route_jwt no_dump no_load demo_routes 5 (fun _ => 0) demo_bearer demo_rename demo_auth_world) as [[e|a] w'] eqn:E.
  - exfalso. assert (match (update_me (H := ascii_db) route_jwt no_dump no_load demo_routes 5 (fun _ => 0) demo_bearer demo_rename demo_auth_world).1 with
                    | inr _ => true | inl _ => false end = true) as Hr by (vm_compute; reflexivity).
    rewrite E in Hr. discriminate Hr.
  - exists a, w'. split; [reflexivity|].
    destruct (profile_change_visible (H := ascii_db) route_jwt no_dump no_load demo_routes 5 (fun _ => 0) demo_bearer demo_rename demo_auth_world w' a eq_refl eq_refl E)
      as (cu & u' & H1 & H2 & _ & H4 & _). exists cu, u'. split; [exact H1|]. split; [exact H2|exact H4].
Defined.

(** Redis is away when the refresh token should go: 500, and the new password. *)
Example password_change_partial :
  let away := demo_auth_world <| w_redis := {| r_data := ∅; r_now := 0; r_loaded := []; r_sched := repeat {| t_delay := 0; t_fault := LostRequest; t_flush := false |} 10 |} |> in
  let check (_ h : ustr) := bool_decide (h = lit "h") in
  let r := update_password_route (H := ascii_db) route_jwt (fun p h => bool_decide (p = h)) (fun p => p) [] no_dump no_load demo_routes demo_bearer (lit "h") (lit "new") away in
  r.1 = inl RedisError /\ bool_decide ((password <$> users (w_db r.2) !! 7) = Some (lit "new")) = true.
Proof. vm_compute. split; reflexivity. Qed.

Definition demo_presign (i : Z) : presign_request := {| ps_pause := 1; ps_upload_id := i; ps_filename := lit "dog.png"; ps_type := lit "image/png" |}.

(** A limit of one: the second request is refused. *)
Lemma presign_limit_exact_witness :
  presign_session (H := ascii_db) demo_routes 7 [demo_presign 1; demo_presign 2] demo_env =
    [issued (H := ascii_db) demo_routes (demo_presign 1); inl TooManyRequestsException].
Proof.
  apply (presign_limit_exact (H := ascii_db) demo_routes 7 [demo_presign 1; demo_presign 2] demo_env).
  - reflexivity.
  - reflexivity.
  - vm_compute. reflexivity.
  - vm_compute. congruence.
  - repeat constructor; vm_compute; congruence.
  - vm_compute. reflexivity.
Defined.
