(* ===== verification/ContentRoutes.v ===== *)
(** * Content routes ([domain/likes], [domain/reports], [domain/comments],
    [domain/posts], [domain/chat], [domain/notifications]: [router.py];
    [api/dependencies/query.py], [api/dependencies/client.py])

    The HTTP routes of the content domains: who asks (a user, or a guest when
    the token is missing or bad), which session is read, what is announced after
    the commit, and the answer's code. *)

From S2P Require Import Prelude Ids Common Redis RateLimit Db World Notifications Media Search Posts Comments Likes Views Moderation Dogs Users Auth Chat Json Realtime ChatSocket Cache Trending Delivery Permissions Proxy Routes.

(** ** The process behind a route *)

(** The world, and the hub that announces notifications. *)
Record site := { si_world : world; si_hub : hub }.
#[export] Instance site_eta : Eta site := fun s => Build_site (si_world s) (si_hub s).

Definition at_world {A : Type} (m : M world A) : M site A := fun s =>
  let '(r, w) := m (si_world s) in (r, s <| si_world := w |>).

(** What an announcement meets: the fate of the publish, the queue, the
    instance's name. *)
Record announcer := { an_settings : delivery_settings; an_publish : fault; an_queue : option fault; an_instance : ustr }.

Definition announce (cfg : route_settings) (a : announcer) (ev : option NotificationEvent) : M site unit :=
  match ev with
  | None => mret tt
  | Some ev => modify (fun s => s <| si_hub := publish_after_commit (an_settings a) (rt_present cfg) (an_publish a) (an_queue a) (an_instance a) ev (si_hub s) |>)
  end.

(** ** Query parameters ([query.py], [users/schema.py]) *)

Section Query.
Context `{UnicodeDB}.

(** [strip_empty_to_none] *)
Definition strip_empty_to_none (v : option ustr) : option ustr :=
  match v with
  | Some s => match strip s with [] => None | s' => Some s' end
  | None => None
  end.

(** [parse_availability_query]: email and nickname, at least one. *)
Definition parse_availability_query (mail nick : option ustr) : exn + (option ustr * option ustr) :=
  match optional_nickname (strip_empty_to_none nick) with
  | inl _ => inl InvalidRequestException
  | inr nick' =>
      let mail' := strip_empty_to_none mail in
      if negb (truthy mail' || truthy nick') then inl InvalidRequestException else inr (mail', nick')
  end.

(** [GET /users/availability] *)
Definition check_availability_route (mail nick : option ustr) : M world (answer (option bool * option bool)) :=
  match parse_availability_query mail nick with
  | inl e => raise e
  | inr (mail', nick') => w ← get; mret (ok (check_availability mail' nick' (w_db w)))
  end.

(** The [sort] parameters of the comment lists: unknown values fall back. *)
Definition sort_popular (sort : option ustr) : bool := negb (bool_decide (sort = Some (lit "latest"))).
Definition sort_oldest (sort : option ustr) : bool := bool_decide (sort = Some (lit "oldest")).
End Query.

Section Routes.
Context `{UnicodeDB} `{PgFold}.
Context (jwt_decode : ustr -> option claims).
Context (snapshot_dump : ustr -> CurrentUser -> ustr) (snapshot_load : ustr -> option (option ustr * option CurrentUser)).
Context (cfg : route_settings).

Abbreviation user_of rq := (current_user jwt_decode snapshot_dump snapshot_load cfg rq).

(** [Depends(get_current_user_optional)] *)
Definition optional_user (rq : http_request) : M world (option CurrentUser) :=
  get_current_user_optional jwt_decode snapshot_dump snapshot_load (rt_present cfg) (hr_authorization rq).

(** [current_user.id if current_user else None] *)
Definition viewer_of (cu : option CurrentUser) : option Z := cu_id <$> cu.

(** ** Likes *)

(** [LikeResponseData(is_liked, like_count)] *)
Definition like_answer (count : Z) (inserted : bool) : answer (bool * Z) :=
  reply 200 (if inserted then "OK" else "ALREADY_LIKED")%string (true, count).

Definition like_route (T : LikeTarget) (a : announcer) (now nid : Z) (rq : http_request) (target : Z) : M site (answer (bool * Z)) :=
  user ← at_world (user_of rq);
  '((like_count, inserted), ev) ← at_world (on_db (like (H := T) now nid target (cu_id user)));
  announce cfg a ev ;;
  mret (like_answer like_count inserted).
Definition unlike_route (T : LikeTarget) (now : Z) (rq : http_request) (target : Z) : M world (answer (bool * Z)) :=
  user ← user_of rq;
  like_count ← on_db (unlike (H := T) now target (cu_id user));
  mret (ok (false, like_count)).

Definition like_post_route := like_route POST_TARGET.
Definition unlike_post_route := unlike_route POST_TARGET.
Definition like_comment_route := like_route COMMENT_TARGET.
Definition unlike_comment_route := unlike_route COMMENT_TARGET.

(** ** Reports *)

Definition create_report_route (threshold now rid : Z) (rq : http_request) (data : ReportCreateRequest) : M world (answer bool) :=
  user ← user_of rq;
  result ← on_db (submit_report threshold now rid (cu_id user) data);
  mret (reply 201 "OK" result).

(** ** Comments *)

Definition create_comment_route (a : announcer) (now new_id nid : Z) (rq : http_request) (post_id : Z) (text : ustr) (parent : option Z)
  : M site (answer Z) :=
  user ← at_world (user_of rq);
  '(comment_id, ev) ← at_world (on_db (create_comment now new_id nid post_id (cu_id user) text parent));
  announce cfg a ev ;;
  mret (reply 201 "OK" comment_id).

(** [PaginatedResponse.from_page] *)
Definition get_comments_route (rq : http_request) (post_id page sz : Z) (sort : option ustr) : M world (answer (list RootResponse * bool * Z)) :=
  cu ← optional_user rq;
  '(result, total) ← on_db (get_comments post_id page sz (sort_popular sort) (viewer_of cu));
  mret (ok (result, from_page_has_more page sz total, total)).

Definition get_replies_route (rq : http_request) (post_id comment_id sz : Z) (sort : option ustr) (cursor : option Z)
  : M world (answer (list CommentResponse * bool)) :=
  cu ← optional_user rq;
  page ← on_db (get_replies post_id comment_id sz (sort_oldest sort) cursor (viewer_of cu));
  mret (ok page).

(** ** Posts *)

Definition get_posts_route (rq : http_request) (sz : Z) (q : option ustr) (category cursor : option Z) : M world (answer (list PostResponse * bool)) :=
  cu ← optional_user rq;
  page ← get_posts sz q category (viewer_of cu) cursor;
  mret (ok page).

(** [u:<id>] for a user, [ip:<address>] for a guest. *)
Definition viewer_key_of (cu : option CurrentUser) (client_id : ustr) : ustr :=
  match cu with
  | Some c => lit "u:" ++ uuid_str (cu_id c)
  | None => lit "ip:" ++ client_id
  end.

Definition get_post_route (ttl_seconds now : Z) (rq : http_request) (sc : asgi_scope) (post_id : Z) : M world (answer PostResponse) :=
  cu ← optional_user rq;
  data ← get_post_detail (rt_present cfg) true ttl_seconds now post_id (viewer_of cu) (viewer_key_of cu (get_client_identifier sc));
  mret (ok data).

Definition get_trending_posts_route (dump_pool : list TrendingCacheItem -> ustr) (validate_pool : ustr -> option (list TrendingCacheItem))
  (now : Z) (token : ustr) (asleep : nat -> world -> world) (rq : http_request) (limit : Z) (category : option Z) : M world (answer (list TrendingCacheItem)) :=
  cu ← optional_user rq;
  result ← get_trending_posts dump_pool validate_pool (rt_present cfg) now token asleep limit category (viewer_of cu);
  mret (ok result).

Definition get_trending_hashtags_route `{Collation} (dump_tags : list (ustr * Z) -> ustr) (validate_tags : ustr -> option (list (ustr * Z)))
  (now : Z) (token token2 : ustr) (asleep : nat -> world -> world) : M world (answer (list (ustr * Z))) :=
  result ← get_trending_hashtags dump_tags validate_tags (rt_present cfg) now token token2 asleep 10;
  mret (ok result).

(** ** Direct messages *)

Definition get_or_create_direct_room (now new_id : Z) (rq : http_request) (peer : Z) : M world (answer Z) :=
  user ← user_of rq;
  room_id ← on_db (resolve_direct_room now new_id (cu_id user) peer);
  mret (ok room_id).

Definition list_recent_rooms_route (rq : http_request) (limit : Z) : M world (answer (list ChatRoomListItem)) :=
  user ← user_of rq;
  w ← get;
  mret (ok (list_recent_rooms (cu_id user) limit (w_db w))).

Definition get_room_peer_info_route (rq : http_request) (room : Z) : M world (answer (Z * ChatPeerProfile)) :=
  user ← user_of rq;
  data ← on_db (get_room_peer_info room (cu_id user));
  mret (ok data).

Definition mark_room_read_route (rq : http_request) (room : Z) : M world (answer unit) :=
  user ← user_of rq;
  on_db (mark_room_read room (cu_id user)) ;;
  mret (ok tt).

Inductive direction := Before | After.

(** [_get_messages_db]: catching up reads the primary, scrolling back a replica. *)
Definition get_messages_db (d : direction) (master reader : db) : db := match d with After => master | Before => reader end.

(** A read on a chosen session. *)
Definition reading {A : Type} (d : db) (m : M db A) : M world A := fun w => ((m d).1, w).

Definition list_room_messages_route (reader : db) (rq : http_request) (room limit : Z) (cursor : option Z) (dir : direction)
  : M world (answer (list (Z * ChatMessage) * bool)) :=
  user ← user_of rq;
  w ← get;
  page ← reading (get_messages_db dir (w_db w) reader)
           (list_room_messages room (cu_id user) cursor limit (match dir with After => true | Before => false end));
  mret (ok page).

(** ** Notifications *)

Definition list_notifications_route (rq : http_request) (cursor : option Z) (sz : Z) : M world (answer (list (Z * Notification) * bool)) :=
  user ← user_of rq;
  w ← get;
  mret (ok (list_for_user (cu_id user) cursor sz (w_db w))).

Definition mark_notifications_read (now : Z) (rq : http_request) (ids : list Z) : M world (answer Z) :=
  user ← user_of rq;
  n ← on_db (mark_read now (cu_id user) ids);
  mret (ok n).
End Routes.

(** ** Lemmas *)

(** The database is [d0]. *)
Abbreviation reads d0 := (keeps (fun w => w_db w = d0)).

Lemma reads_redis {A : Type} d0 (m : M redis A) : reads d0 (on_redis m).
Proof. intros w Hw. unfold on_redis. by destruct (m (w_redis w)). Qed.
Lemma reads_gets {A : Type} d0 (f : world -> A) : reads d0 (gets f).
Proof. by intros w Hw. Qed.
Lemma reads_query {A : Type} d0 (m : M db A) : (forall d, (m d).2 = d) -> reads d0 (on_db m).
Proof. intros Hm w Hw. unfold on_db. pose proof (Hm (w_db w)) as E. destruct (m (w_db w)) as [r d]. cbn in *. by subst. Qed.
Lemma reads_tx {A : Type} d0 (m : M world A) : reads d0 m -> reads d0 (tx m).
Proof. intros Hm. apply keeps_tx; [|done]. by intros w e Hw _. Qed.
Lemma reads_reading {A : Type} d0 d (m : M db A) : reads d0 (reading d m).
Proof. by intros w Hw. Qed.

Create HintDb reader.
#[export] Hint Resolve keeps_ret keeps_raise keeps_bind keeps_get keeps_try reads_redis reads_gets reads_query reads_tx reads_reading : reader.

(** Read-only statements. *)
Lemma get_profile_reads st k d : (get_user_profile st k d).2 = d.
Proof.
  unfold get_user_profile, begin_tx, load_profile, get. unfold mbind, M_bind. destruct (get_user_by_id k d); [|done]. by destruct (profile_response _ _ _ _).
Qed.
Lemma get_comments_reads post_id page sz popular viewer d : (get_comments post_id page sz popular viewer d).2 = d.
Proof.
  unfold get_comments, begin_tx, ensure_post_visible, get. unfold mbind, M_bind. destruct (post_is_visible _ _ _); [|done]. cbn [mret M_ret].
  by destruct (page_root_comments _ _ _ _ _ _).
Qed.
Lemma get_replies_reads post_id root sz oldest cursor viewer d : (get_replies post_id root sz oldest cursor viewer d).2 = d.
Proof.
  unfold get_replies, begin_tx, ensure_post_visible, get. unfold mbind, M_bind. destruct (post_is_visible _ _ _); [|done]. cbn [mret M_ret].
  destruct (get_visible_root_meta root d); [|done]. destruct (_ && _); [|done]. by destruct (split_page _ _).
Qed.
Lemma peer_info_reads room user d : (get_room_peer_info room user d).2 = d.
Proof. unfold get_room_peer_info. destruct (chat_rooms d !! room) as [r|]; [|done]. destruct (is_member user r); [|done]. by destruct (peer_rows _ _ _). Qed.
Lemma category_reads d0 c : reads d0 (category_exists c).
Proof.
  intros w Hw. unfold category_exists. cbv zeta. destruct (match w_category_cache w with Some _ => _ | None => false end); [done|]. by destruct (decide _).
Qed.

Lemma cache_reads {T : Type} dump_json validate_json d0 present key lock_key ttl token asleep (loader : M world T) :
  (forall k w, w_db (asleep k w) = w_db w) -> reads d0 loader ->
  reads d0 (get_or_compute_json dump_json validate_json present key lock_key ttl token asleep loader).
Proof.
  intros Hs Hl. assert (reads d0 (read_cache validate_json key)) as Hr.
  { unfold read_cache. auto 10 with reader. }
  assert (forall n, reads d0 (wait_for_value validate_json n asleep key loader)) as Hw.
  { induction n as [|n IH]; cbn [wait_for_value]; [done|]. apply keeps_bind; [intros w <-; by apply Hs|]. intros _.
    apply keeps_bind; [done|]. intros [[v|]|]; auto with reader. }
  unfold get_or_compute_json. destruct present; [|done]. cbn [negb]. apply keeps_bind; [done|]. intros [[v|]|]; [auto with reader| |done].
  apply keeps_bind; [auto 10 with reader|]. intros [[v|]|]; [|apply Hw|done]. apply keeps_finally; [|auto with reader].
  apply keeps_bind; [done|]. intros r. apply keeps_bind; auto 10 with reader.
Qed.

Section Readers.
Context `{UnicodeDB} `{PgFold} `{Collation}.
Context (jwt_decode : ustr -> option claims).
Context (snapshot_dump : ustr -> CurrentUser -> ustr) (snapshot_load : ustr -> option (option ustr * option CurrentUser)).
Context (cfg : route_settings).
Context (dump_pool : list TrendingCacheItem -> ustr) (validate_pool : ustr -> option (list TrendingCacheItem)).
Context (dump_tags : list (ustr * Z) -> ustr) (validate_tags : ustr -> option (list (ustr * Z))).

(** The routes served by [get_slave_db], but the post's detail, which counts a
    view on the writer. *)
Inductive reader_call :=
  | GetAvailability (mail nick : option ustr)
  | GetMe
  | GetBlocks (sz : Z) (cursor : option Z)
  | GetComments (post_id page sz : Z) (sort : option ustr)
  | GetReplies (post_id comment_id sz : Z) (sort : option ustr) (cursor : option Z)
  | GetPosts (sz : Z) (q : option ustr) (category cursor : option Z)
  | GetTrending (now : Z) (token : ustr) (asleep : nat -> world -> world) (limit : Z) (category : option Z)
  | GetTrendingHashtags (now : Z) (token token2 : ustr) (asleep : nat -> world -> world)
  | GetRooms (limit : Z)
  | GetPeerInfo (room : Z)
  | GetMessages (reader : db) (room limit : Z) (cursor : option Z) (dir : direction)
  | GetNotifications (cursor : option Z) (sz : Z).

(** The others of an await may do what they like but to the database read. *)
Definition patient (call : reader_call) : Prop :=
  match call with
  | GetTrending _ _ asleep _ _ | GetTrendingHashtags _ _ _ asleep => forall k w, w_db (asleep k w) = w_db w
  | _ => True
  end.

Definition serve_reader (rq : http_request) (call : reader_call) : M world unit :=
  match call with
  | GetAvailability mail nick => check_availability_route mail nick ;; mret tt
  | GetMe => get_me jwt_decode snapshot_dump snapshot_load cfg rq ;; mret tt
  | GetBlocks sz cursor => get_my_blocks jwt_decode snapshot_dump snapshot_load cfg sz cursor rq ;; mret tt
  | GetComments post_id page sz sort => get_comments_route jwt_decode snapshot_dump snapshot_load cfg rq post_id page sz sort ;; mret tt
  | GetReplies post_id c sz sort cursor => get_replies_route jwt_decode snapshot_dump snapshot_load cfg rq post_id c sz sort cursor ;; mret tt
  | GetPosts sz q category cursor => get_posts_route jwt_decode snapshot_dump snapshot_load cfg rq sz q category cursor ;; mret tt
  | GetTrending now token asleep limit category =>
      get_trending_posts_route jwt_decode snapshot_dump snapshot_load cfg dump_pool validate_pool now token asleep rq limit category ;; mret tt
  | GetTrendingHashtags now token token2 asleep => get_trending_hashtags_route cfg dump_tags validate_tags now token token2 asleep ;; mret tt
  | GetRooms limit => list_recent_rooms_route jwt_decode snapshot_dump snapshot_load cfg rq limit ;; mret tt
  | GetPeerInfo room => get_room_peer_info_route jwt_decode snapshot_dump snapshot_load cfg rq room ;; mret tt
  | GetMessages reader room limit cursor dir => list_room_messages_route jwt_decode snapshot_dump snapshot_load cfg reader rq room limit cursor dir ;; mret tt
  | GetNotifications cursor sz => list_notifications_route jwt_decode snapshot_dump snapshot_load cfg rq cursor sz ;; mret tt
  end.

Lemma user_reads d0 rq : reads d0 (current_user jwt_decode snapshot_dump snapshot_load cfg rq).
Proof. apply current_user_keeps. intros. apply reads_redis. Qed.

(** A missing or bad token makes a guest; the dependency never refuses. *)
Lemma optional_user_cases rq w : exists cu, (optional_user jwt_decode snapshot_dump snapshot_load cfg rq w).1 = inr cu /\
  only_redis w (optional_user jwt_decode snapshot_dump snapshot_load cfg rq w).2 /\
  match cu with
  | Some c => (current_user jwt_decode snapshot_dump snapshot_load cfg rq w).1 = inr c
  | None => exists e, (current_user jwt_decode snapshot_dump snapshot_load cfg rq w).1 = inl e
  end.
Proof.
  unfold optional_user, current_user, get_current_user_optional, get_current_user. destruct (bearer_token (hr_authorization rq)) as [token|].
  2: { exists None. split_and!; [done|apply only_redis_refl|]. by eexists. }
  pose proof (resolve_raises jwt_decode snapshot_dump snapshot_load (rt_present cfg) token w) as Hr.
  pose proof (resolve_keeps jwt_decode snapshot_dump snapshot_load (only_redis w) (rt_present cfg) token (fun A c => leaves_on_redis w (command c)) w (only_redis_refl w)) as Hk.
  unfold try_except. unfold mbind, M_bind. destruct (resolve_access_token_user _ _ _ _ token w) as [[e|c] w']; cbn [fst snd] in *.
  - destruct (Hr e eq_refl) as [-> | ->]; exists None; split_and!; try done; by eexists.
  - exists (Some c). by split_and!.
Qed.

Lemma optional_reads d0 rq : reads d0 (optional_user jwt_decode snapshot_dump snapshot_load cfg rq).
Proof. intros w <-. destruct (optional_user_cases rq w) as (cu & _ & Ho & _). by apply only_redis_db. Qed.

(** ** Theorems *)

(** Routes on the reader session only read: whatever the request, its token,
    the state of Redis and the outcome, none of them changes a row, as the
    read-only session requires. *)
Theorem reader_routes_only_read (rq : http_request) (call : reader_call) (w : world) :
  patient call -> w_db (serve_reader rq call w).2 = w_db w.
Proof.
  intros Hp. revert w. assert (forall d0, reads d0 (serve_reader rq call)) as Hk; [|intros w; by apply (Hk (w_db w))].
  intros d0. pose proof (user_reads d0 rq) as Hu. pose proof (optional_reads d0 rq) as Ho.
  destruct call; cbn [serve_reader patient] in *; (apply keeps_bind; [|auto with reader]).
  - unfold check_availability_route. destruct (parse_availability_query _ _) as [e|[m n]]; auto with reader.
  - apply keeps_bind; [done|]. intros u. apply keeps_bind; [|auto with reader]. apply reads_query. intros d. apply get_profile_reads.
  - apply keeps_bind; [done|]. auto with reader.
  - apply keeps_bind; [done|]. intros u. apply keeps_bind; [|intros []; auto with reader]. apply reads_query. intros d. apply get_comments_reads.
  - apply keeps_bind; [done|]. intros u. apply keeps_bind; [|auto with reader]. apply reads_query. intros d. apply get_replies_reads.
  - apply keeps_bind; [done|]. intros u. apply keeps_bind; [|auto with reader]. unfold get_posts.
    destruct (validate_search_query q) as [e|s]; [auto with reader|]. apply reads_tx, keeps_bind; [|auto with reader].
    unfold validate_refs. apply keeps_bind; [|auto with reader]. destruct category; [|auto with reader].
    apply keeps_bind; [apply category_reads|]. intros []; auto with reader.
  - apply keeps_bind; [done|]. intros u. apply keeps_bind; [|auto with reader]. unfold get_trending_posts. apply keeps_bind; [|auto with reader].
    apply cache_reads; [done|]. apply reads_gets.
  - apply keeps_bind; [|auto with reader]. unfold get_trending_hashtags. apply keeps_bind; [apply cache_reads; [done|apply reads_gets]|].
    intros rows. destruct (_ <=? _); [auto with reader|]. apply cache_reads; [done|apply reads_gets].
  - apply keeps_bind; [done|]. auto with reader.
  - apply keeps_bind; [done|]. intros u. apply keeps_bind; [|auto with reader]. apply reads_query. intros d. apply peer_info_reads.
  - apply keeps_bind; [done|]. auto 10 with reader.
  - apply keeps_bind; [done|]. auto with reader.
Qed.
End Readers.

Section ContentTheorems.
Context `{UnicodeDB} `{PgFold}.
Context (jwt_decode : ustr -> option claims).
Context (snapshot_dump : ustr -> CurrentUser -> ustr) (snapshot_load : ustr -> option (option ustr * option CurrentUser)).
Context (cfg : route_settings).

Lemma at_world_run {A : Type} (m : M world A) s : at_world m s = ((m (si_world s)).1, s <| si_world := (m (si_world s)).2 |>).
Proof. unfold at_world. by destruct (m (si_world s)). Qed.

(** Liking over HTTP, for posts and comments alike, whatever Redis and the
    announcer do: a failed request writes no row and announces nothing; a
    successful one leaves the user's like, answers the stored count, and says OK
    exactly if the like is new and ALREADY_LIKED exactly if it was there; an
    existing like changes no like and announces nothing, so repeating a request
    notifies nobody twice. *)
Theorem like_route_idempotent (T : LikeTarget) (L : LikeTargetLaws T) (a : announcer) (now nid : Z) (rq : http_request) (target : Z) (s : site) :
  match like_route jwt_decode snapshot_dump snapshot_load cfg T a now nid rq target s with
  | (inl e, s') => w_db (si_world s') = w_db (si_world s) /\ si_hub s' = si_hub s
  | (inr ans, s') => exists cu, (current_user jwt_decode snapshot_dump snapshot_load cfg rq (si_world s)).1 = inr cu /\
      let before := view (w_db (si_world s)) in let after := view (w_db (si_world s')) in
      (an_code ans = lit "OK" <-> before !! (target, cu_id cu) = None) /\
      (an_code ans = lit "ALREADY_LIKED" <-> is_Some (before !! (target, cu_id cu))) /\
      is_Some (after !! (target, cu_id cu)) /\ counter (w_db (si_world s')) target = Some (an_data ans).2 /\ (an_data ans).1 = true /\
      (is_Some (before !! (target, cu_id cu)) -> after = before /\ si_hub s' = si_hub s)
  end.
Proof.
  unfold like_route. unfold mbind at 1, M_bind at 1. rewrite at_world_run.
  pose proof (user_reads jwt_decode snapshot_dump snapshot_load cfg (w_db (si_world s)) rq (si_world s) eq_refl) as Hg.
  destruct (current_user _ _ _ cfg rq (si_world s)) as [[e|cu] w1]; cbn [fst snd] in *; [done|].
  unfold mbind at 1, M_bind at 1. rewrite at_world_run. cbn [si_world over]. pose proof (like_spec now nid target (cu_id cu) (w_db w1)) as Hl.
  unfold on_db. destruct (like now nid target (cu_id cu) (w_db w1)) as [[e|[[n ins] ev]] d']; cbn [fst snd] in *.
  { split; [|done]. cbn [si_world over w_db]. by subst d'. }
  destruct Hl as (n0 & Hn0 & Hins & Hv & Hn & Hc & _ & Hev). rewrite Hg in *.
  assert (forall v, (announce cfg a ev v).1 = inr tt /\ si_world (announce cfg a ev v).2 = si_world v /\ (ev = None -> (announce cfg a ev v).2 = v)) as Ha.
  { intros v. unfold announce. by destruct ev. }
  match goal with |- context [announce cfg a ev ≫= _] => unfold mbind at 1, M_bind at 1 end.
  match goal with |- context [announce cfg a ev ?v] => destruct (Ha v) as (Ha1 & Ha2 & Ha3); destruct (announce cfg a ev v) as [r s'] end.
  cbn [fst snd] in *. subst r. cbn [mret M_ret]. exists cu. split; [done|]. cbv zeta. rewrite Ha2. cbn [si_world over w_db an_code an_data like_answer reply fst snd].
  rewrite Hv. destruct ins; symmetry in Hins.
  - apply bool_decide_eq_true in Hins. rewrite Hins, lookup_insert_eq. split_and!; try done.
    all: first [by eexists|by intros [? ?]|split; [discriminate|by intros [? ?]]].
  - apply bool_decide_eq_false in Hins. apply not_eq_None_Some in Hins. split_and!; try done.
    + split; [discriminate|]. intros Hx. rewrite Hx in Hins. by destruct Hins.
    + intros _. split; [done|]. by rewrite (Ha3 (Hev eq_refl)).
Qed.

(** A page that is not cut off is everything after the cursor. *)
Lemma last_page_complete room c limit d page : 1 <= limit ->
  split_page (keyset_fetch msg_key oldest_first c limit (room_messages room d)) limit = (page, false) ->
  forall x, x ∈ room_messages room d -> after_cursor msg_key oldest_first c x = true -> x ∈ page.
Proof.
  intros Hl E x Hx Hc. unfold keyset_fetch in E. rewrite split_page_take in E by done. apply pair_equal_spec in E as [<- Hm].
  apply Z.ltb_ge in Hm. unfold py_len in Hm. rewrite take_ge by lia. rewrite (order_by_perm msg_key oldest_first). apply list_elem_of_In, filter_In.
  split; [by apply list_elem_of_In|done].
Qed.

(** C21. Catching up after a reconnection is complete despite replication lag:
    whatever the replica holds, a member who asks for what follows a known
    message is answered from the primary, and an answer without more pages
    contains every message of the room newer than that one.  Scrolling back is
    answered from the replica alone. *)
Theorem resync_complete_despite_lag (reader : db) (rq : http_request) (room limit : Z) (x : Z * ChatMessage) (cu : CurrentUser) (r : ChatRoom) (w w1 : world) :
  current_user jwt_decode snapshot_dump snapshot_load cfg rq w = (inr cu, w1) -> 1 <= limit ->
  (chat_rooms (w_db w) !! room = Some r -> is_member (cu_id cu) r = true -> x ∈ room_messages room (w_db w) ->
   exists items more, list_room_messages_route jwt_decode snapshot_dump snapshot_load cfg reader rq room limit (Some x.1) After w = (inr (ok (items, more)), w1) /\
     (forall m, m ∈ items -> m ∈ room_messages room (w_db w) /\ newer_than x m = true) /\
     (more = false -> forall m, m ∈ room_messages room (w_db w) -> newer_than x m = true -> m ∈ items)) /\
  (forall cursor, list_room_messages_route jwt_decode snapshot_dump snapshot_load cfg reader rq room limit cursor Before w =
     (match (list_room_messages room (cu_id cu) cursor limit false reader).1 with inr page => inr (ok page) | inl e => inl e end, w1)).
Proof.
  intros Ecu Hl. pose proof (user_reads jwt_decode snapshot_dump snapshot_load cfg (w_db w) rq w eq_refl) as Hg. rewrite Ecu in Hg. cbn [snd] in Hg. split.
  - intros Hr Hm Hx. unfold list_room_messages_route. unfold mbind at 1, M_bind at 1. rewrite Ecu. unfold mbind at 1, M_bind at 1, get.
    unfold mbind, M_bind, reading, get_messages_db. rewrite Hg.
    pose proof (list_room_messages_member room (cu_id cu) r (Some x) limit true (w_db w) Hr Hm) as E. change (cursor_of (Some x)) with (Some x.1) in E.
    rewrite E by (by intros y [= <-]). rewrite bool_decide_eq_false_2 by done. cbn [andb fmap option_fmap option_map].
    destruct (split_page _ limit) as [page more] eqn:Ep. exists (reverse page), more. split; [reflexivity|]. split.
    + intros m Hin. rewrite elem_of_reverse in Hin. unfold keyset_fetch in Ep. rewrite split_page_take in Ep by done. apply pair_equal_spec in Ep as [<- _].
      apply elem_of_take in Hin as (i & Hi & _). apply list_elem_of_lookup_2 in Hi. rewrite order_by_perm in Hi.
      by apply list_elem_of_In, filter_In in Hi as [?%list_elem_of_In ?].
    + intros -> m Hin Hnew. apply elem_of_reverse. by eapply last_page_complete.
  - intros cursor. unfold list_room_messages_route. unfold mbind, M_bind. rewrite Ecu. unfold get, reading, get_messages_db.
    by destruct (list_room_messages room (cu_id cu) cursor limit false reader).1.
Qed.

(** Viewers are told apart: two users, a user and a guest, and two addresses
    have different keys, so nobody uses up another's view. *)
Lemma viewer_keys_separate (c1 c2 : CurrentUser) (a1 a2 : ustr) :
  (uuid_ok (cu_id c1) -> uuid_ok (cu_id c2) -> viewer_key_of (Some c1) a1 = viewer_key_of (Some c2) a2 -> cu_id c1 = cu_id c2) /\
  viewer_key_of (Some c1) a1 <> viewer_key_of None a2 /\
  (viewer_key_of None a1 = viewer_key_of None a2 -> a1 = a2).
Proof.
  unfold viewer_key_of. split_and!; [|discriminate|].
  - intros H1 H2 E%app_inv_head. by apply uuid_str_inj.
  - by intros ?%app_inv_head.
Qed.
End ContentTheorems.

(** ** Witnesses *)

Definition demo_at (d : db) : world := demo_auth_world <| w_db := d |>.
Definition demo_announcer : announcer :=
  {| an_settings := demo_delivery; an_publish := NoFault; an_queue := Some NoFault; an_instance := lit "a" |}.
Definition demo_site : site := {| si_world := demo_at demo_db; si_hub := {| h_cluster := demo_cluster0; h_queue := []; h_tasks := [] |} |}.

(** The ranking is loaded while another request holds the lock. *)
Lemma reader_routes_only_read_witness :
  w_db (serve_reader (H := ascii_db) (H0 := ascii_fold) (H1 := byte_collation) route_jwt no_dump no_load demo_routes (fun _ => []) (fun _ => None) (fun _ => []) (fun _ => None)
          demo_bearer (GetTrending 5 (lit "t") (fun _ w => later 1 w) 10 None) (demo_at demo_db)).2 = demo_db.
Proof.
  apply (reader_routes_only_read (H := ascii_db) (H0 := ascii_fold) (H1 := byte_collation) route_jwt no_dump no_load demo_routes (fun _ => []) (fun _ => None) (fun _ => []) (fun _ => None)
           demo_bearer (GetTrending 5 (lit "t") (fun _ w => later 1 w) 10 None) (demo_at demo_db)).
  intros k w. reflexivity.
Defined.

(** User 7 likes post 3, and again. *)
Definition demo_like (s : site) : (exn + answer (bool * Z)) * site :=
  like_post_route (H := ascii_db) route_jwt no_dump no_load demo_routes demo_announcer 5 100 demo_bearer 3 s.

Example demo_likes :
  (demo_like demo_site).1 = inr (reply 200 "OK" (true, 1)) /\ length (h_queue (si_hub (demo_like demo_site).2)) = 1%nat /\
  (demo_like (demo_like demo_site).2).1 = inr (reply 200 "ALREADY_LIKED" (true, 1)).
Proof. vm_compute. repeat split; reflexivity. Qed.

Lemma like_route_idempotent_witness :
  h_queue (si_hub (demo_like (demo_like demo_site).2).2) = h_queue (si_hub (demo_like demo_site).2).
Proof.
  set (s1 := (demo_like demo_site).2).
  pose proof (like_route_idempotent (H := ascii_db) route_jwt no_dump no_load demo_routes POST_TARGET _ demo_announcer 5 100 demo_bearer 3 s1) as H.
  change (like_route route_jwt no_dump no_load demo_routes POST_TARGET demo_announcer 5 100 demo_bearer 3 s1) with (demo_like s1) in H.
  assert (match (demo_like s1).1 with inr ans => bool_decide (an_code ans = lit "ALREADY_LIKED") | inl _ => false end = true) as E by (vm_compute; reflexivity).
  destruct (demo_like s1) as [[e|ans] s2]; [discriminate E|]. destruct H as (cu & _ & _ & Ha & _ & _ & _ & Hq).
  apply bool_decide_eq_true in E. apply Ha in E. cbn [snd]. rewrite (proj2 (Hq E)). reflexivity.
Defined.

Lemma resync_complete_despite_lag_witness : exists items w1,
  list_room_messages_route (H := ascii_db) route_jwt no_dump no_load demo_routes empty_db demo_bearer 40 10 (Some 50) After (demo_at demo_chat) = (inr (ok (items, false)), w1) /\
  (53, chat_msg 40 7 4) ∈ items.
Proof.
  assert (match (current_user (H := ascii_db) route_jwt no_dump no_load demo_routes demo_bearer (demo_at demo_chat)).1 with inr cu => cu_id cu =? 7 | inl _ => false end = true) as Ek
    by (vm_compute; reflexivity).
  assert (match (list_room_messages_route (H := ascii_db) route_jwt no_dump no_load demo_routes empty_db demo_bearer 40 10 (Some 50) After (demo_at demo_chat)).1 with
          | inr a => negb (an_data a).2 | inl _ => false end = true) as Em by (vm_compute; reflexivity).
  destruct (current_user (H := ascii_db) route_jwt no_dump no_load demo_routes demo_bearer (demo_at demo_chat)) as [[e|cu] w1] eqn:E; [discriminate Ek|].
  apply Z.eqb_eq in Ek. destruct (resync_complete_despite_lag (H := ascii_db) route_jwt no_dump no_load demo_routes empty_db demo_bearer 40 10 (50, chat_msg 40 7 2) cu
    {| user1_id := 7; user2_id := 8; room_created_at := 1; room_updated_at := 1 |} (demo_at demo_chat) w1 E) as [H _]; [lia|].
  destruct H as (items & more & Hr & _ & Hall).
  - reflexivity.
  - rewrite Ek. reflexivity.
  - apply room_messages_elem. split; reflexivity.
  - cbn [fst] in Hr. rewrite Hr in Em. cbn [fst snd an_data ok reply] in Em. apply negb_true_iff in Em. subst more.
    exists items, w1. split; [exact Hr|]. apply (Hall eq_refl).
    + apply room_messages_elem. split; reflexivity.
    + reflexivity.
Defined.
