(* ===== verification/Requests.v ===== *)
(** * Request bodies ([users/schema.py], [auth/schema.py], [posts/schemas],
    [comments/schema.py], [dogs/schema.py], [media/schema.py])

    The rules a body must pass before its handler runs, and what the service
    receives.  Types (strings, identifiers, dates) are pydantic's and already
    converted; a refused body is [PyValueError], which the application answers
    as a validation error.  The theorem follows accepted bodies into the width
    of the columns they are stored in. *)

From S2P Require Import Prelude Ids Common Redis Db World Media Search Posts Comments Dogs Users Auth ChatSocket Permissions Routes.

(** ** Fields *)

(** [Field(min_length=lo, max_length=hi)] *)
Definition length_between (lo hi : Z) (s : ustr) : bool := (lo <=? py_len s) && (py_len s <=? hi).
Definition optional {A : Type} (p : A -> bool) (o : option A) : bool := match o with Some a => p a | None => true end.

(** A body that passes is handed over as it is. *)
Definition accept_body {A : Type} (rules : bool) (a : A) : exn + A := if rules then inr a else inl PyValueError.

Definition ensure_password_format_auth (v : ustr) : exn + ustr := accept_body (validate_password_format_auth v) v.
Definition ensure_password_format_update (v : ustr) : exn + ustr := accept_body (validate_password_format_update v) v.

Definition birth_date_not_future (today v : Z) : exn + Z := accept_body (negb (today <? v)) v.
Definition image_ids_max_five {A : Type} (v : option (list A)) : exn + option (list A) :=
  accept_body (optional (fun l => negb (POST_IMAGES_MAX <? py_len l)) v) v.
Definition POST_HASHTAGS_MAX : Z := 6.
Definition hashtags_max_six (v : option (list ustr)) : exn + option (list ustr) :=
  accept_body (optional (fun l => negb (POST_HASHTAGS_MAX <? py_len l)) v) v.

Definition is_accepted {A : Type} (r : exn + A) : bool := match r with inr _ => true | inl _ => false end.

(** ** Bodies *)

Section Bodies.
Context `{UnicodeDB}.

(** [EmailStr] is the validator library's: the normalised address, if valid. *)
Context (email_str : ustr -> option ustr).

(** pydantic decides whether a field's own bounds see the text before or after
    the annotated validator. *)
Context (bounds_first : bool).

Definition DOG_GENDERS : list ustr := [lit "male"; lit "female"].

Definition post_create_request (raw : PostCreateRequest) : exn + PostCreateRequest :=
  accept_body (length_between 1 26 (cr_title raw) && length_between 1 50000 (cr_content raw) &&
          is_accepted (image_ids_max_five (cr_images raw)) && is_accepted (hashtags_max_six (cr_hashtags raw))) raw.
Definition post_update_request (raw : PostUpdateRequest) : exn + PostUpdateRequest :=
  accept_body (optional (length_between 1 26) (up_title raw) && optional (length_between 1 50000) (up_content raw) &&
          is_accepted (image_ids_max_five (up_images raw)) && is_accepted (hashtags_max_six (up_hashtags raw))) raw.

(** The text of a new and of an edited comment. *)
Definition comment_content (v : ustr) : exn + ustr := accept_body (length_between 1 500 v) v.

Definition dog_profile_upsert_item (today : Z) (raw : DogProfileUpsertItem) : bool :=
  length_between 1 100 (di_name raw) && length_between 1 100 (di_breed raw) && bool_decide (di_gender raw ∈ DOG_GENDERS) &&
  is_accepted (birth_date_not_future today (di_birth_date raw)).

(** [NicknameStr = Field(min_length=1, max_length=10)] of a sign-up. *)
Definition nickname_field (v : ustr) : exn + ustr :=
  match ensure_nickname_format v with
  | inl e => inl e
  | inr n => accept_body (length_between 1 10 (if bounds_first then v else n)) n
  end.

Definition profile_image_requires_token (data : SignUpRequest) : bool :=
  negb (bool_decide (is_Some (su_profile_image_id data)) && negb (truthy (su_signup_token data))).

Definition sign_up_request (raw : SignUpRequest) : exn + SignUpRequest :=
  match email_str (su_email raw), nickname_field (su_nickname raw) with
  | Some mail, inr nick =>
      accept_body (length_between 8 20 (su_password raw) && is_accepted (ensure_password_format_auth (su_password raw)) && profile_image_requires_token raw)
        {| su_email := mail; su_password := su_password raw; su_nickname := nick;
           su_profile_image_id := su_profile_image_id raw; su_signup_token := su_signup_token raw |}
  | _, _ => inl PyValueError
  end.

(** Address and password. *)
Definition login_request (mail plain : ustr) : exn + (ustr * ustr) :=
  match email_str mail with
  | Some m => accept_body (length_between 8 20 plain && is_accepted (ensure_password_format_auth plain)) (m, plain)
  | None => inl PyValueError
  end.

(** [UpdateUserRequest.at_least_one], on the validated fields. *)
Definition update_user_at_least_one (data : UpdateUserRequest) : bool :=
  bool_decide (is_Some (uu_nickname data)) || bool_decide (is_Some (uu_profile_image_id data)) ||
  bool_decide (is_Some (uu_dogs data)) || uu_clear_profile_image data.

Definition update_user_request (today : Z) (raw : UpdateUserRequest) : exn + UpdateUserRequest :=
  match optional_nickname (uu_nickname raw) with
  | inl e => inl e
  | inr nick =>
      let data := {| uu_nickname := nick; uu_profile_image_id := uu_profile_image_id raw;
                     uu_clear_profile_image := uu_clear_profile_image raw; uu_dogs := uu_dogs raw |} in
      accept_body (optional (forallb (dog_profile_upsert_item today)) (uu_dogs raw) && update_user_at_least_one data) data
  end.

(** The current and the new password. *)
Definition update_password_request (current new_password : ustr) : exn + (ustr * ustr) :=
  accept_body (length_between 1 128 current && length_between 8 128 new_password && is_accepted (ensure_password_format_update new_password)) (current, new_password).

Definition presign_upload_request (filename ct : ustr) : exn + (ustr * ustr) := accept_body (length_between 1 200 filename) (filename, ct).

(** [ConfirmUploadRequest.file_key_not_empty] *)
Definition file_key_not_empty (v : ustr) : exn + ustr :=
  let k := lstrip_by is_slash (strip v) in accept_body (negb (bool_decide (k = []))) k.

Definition size_field (sz : option Z) : bool := optional (fun n => (1 <=? n) && (n <=? PRESIGNED_MAX_BYTES)) sz.

(** Key, purpose and size; the sign-up variant has no purpose. *)
Definition confirm_signup_upload_request (fkey : ustr) (sz : option Z) : exn + (ustr * option Z) :=
  match (if length_between 1 255 fkey then file_key_not_empty fkey else inl PyValueError) with
  | inr k => accept_body (size_field sz) (k, sz)
  | inl e => inl e
  end.
Definition confirm_upload_request (fkey purpose : ustr) (sz : option Z) : exn + (ustr * ustr * option Z) :=
  match confirm_signup_upload_request fkey sz with
  | inr (k, sz) => accept_body (bool_decide (purpose ∈ [lit "profile"; lit "post"])) (k, purpose, sz)
  | inl e => inl e
  end.
End Bodies.

(** ** Writes, from the body to the store *)

Section Writes.
Context `{UnicodeDB} (etag_of : list Z -> ustr).
Context (email_str : ustr -> option ustr) (bounds_first : bool).
Context (jwt_decode : ustr -> option claims).
Context (checkpw : ustr -> ustr -> bool) (hashpw : ustr -> ustr) (pepper : ustr).
Context (snapshot_dump : ustr -> CurrentUser -> ustr) (snapshot_load : ustr -> option (option ustr * option CurrentUser)).
Context (cfg : route_settings).

(** The dependencies run first; a refused body then ends the request. *)
Definition with_body {A D : Type} (dependencies : M world unit) (body : exn + D) (handler : D -> M world A) : M world A :=
  match body with
  | inr data => handler data
  | inl e => dependencies ;; raise e
  end.

(** What a request brings besides its body: the clock, the identifiers drawn. *)
Record draws := { dr_now : Z; dr_today : Z; dr_id : Z; dr_ids : nat -> Z; dr_ulid : ustr; dr_token : ustr }.

(** The requests that write text of limited width. *)
Inductive write_call :=
  | SignUpCall (data : SignUpRequest)
  | UpdateMeCall (data : UpdateUserRequest)
  | UpdatePasswordCall (current new_password : ustr)
  | DeleteMeCall
  | CreatePostCall (data : PostCreateRequest)
  | UpdatePostCall (replica : db) (post_id : Z) (data : PostUpdateRequest)
  | ConfirmUploadCall (fkey purpose : ustr) (sz : option Z)
  | ConfirmSignupUploadCall (fkey : ustr) (sz : option Z).

Abbreviation user_of rq := (current_user jwt_decode snapshot_dump snapshot_load cfg rq).

Definition serve_write (dr : draws) (rq : http_request) (call : write_call) : M world unit :=
  let authenticated : M world unit := user_of rq ;; mret tt in
  match call with
  | SignUpCall data =>
      with_body (mret tt) (sign_up_request email_str bounds_first data)
        (fun data => signup_route hashpw pepper cfg (dr_now dr) (dr_id dr) data ;; mret tt)
  | UpdateMeCall data =>
      with_body authenticated (update_user_request (dr_today dr) data)
        (fun data => update_me jwt_decode snapshot_dump snapshot_load cfg (dr_now dr) (dr_ids dr) rq data ;; mret tt)
  | UpdatePasswordCall current new_password =>
      with_body authenticated (update_password_request current new_password)
        (fun '(current, new_password) =>
           update_password_route jwt_decode checkpw hashpw pepper snapshot_dump snapshot_load cfg rq current new_password ;; mret tt)
  | DeleteMeCall => delete_me jwt_decode snapshot_dump snapshot_load cfg (dr_now dr) rq ;; mret tt
  | CreatePostCall data =>
      with_body authenticated (post_create_request data)
        (fun data => user ← user_of rq; create_post (dr_now dr) (dr_id dr) (cu_id user) data ;; mret tt)
  | UpdatePostCall replica post_id data =>
      with_body (user ← user_of rq; depends (require_post_author post_id (cu_id user) replica) (fun _ => mret tt)) (post_update_request data)
        (fun data => user ← user_of rq; update_post_handler replica (cu_id user) (dr_now dr) post_id data)
  | ConfirmUploadCall fkey purpose sz =>
      with_body authenticated (confirm_upload_request fkey purpose sz)
        (fun '(fkey, purpose, sz) =>
           confirm_image_upload etag_of jwt_decode snapshot_dump snapshot_load cfg (dr_now dr) (dr_id dr) (dr_ulid dr) rq fkey purpose sz ;; mret tt)
  | ConfirmSignupUploadCall fkey sz =>
      with_body (mret tt) (confirm_signup_upload_request fkey sz)
        (fun '(fkey, sz) => confirm_signup_image_upload etag_of cfg (dr_now dr) (dr_id dr) (dr_ulid dr) (dr_token dr) fkey sz ;; mret tt)
  end.
End Writes.

(** ** Columns ([*/model.py]) *)

Definition varchar (n : Z) (s : ustr) : Prop := py_len s <= n.

Definition user_fits (u : User) : Prop := varchar 255 (email u) /\ varchar 255 (password u) /\ varchar 255 (nickname u).
Definition dog_fits (g : DogProfile) : Prop := varchar 100 (dog_name g) /\ varchar 100 (breed g) /\ varchar 20 (gender g).
Definition post_fits (p : Post) : Prop := varchar 255 (title p).
Definition image_fits (r : Image) : Prop :=
  varchar 255 (file_key r) /\ varchar 999 (file_url r) /\ match content_type r with Some t => varchar 255 t | None => True end.

(** Every row of a table. *)
Definition all_rows {K R : Type} `{Table K R} (P : R -> Prop) (d : db) : Prop := forall k r, rows d !! k = Some r -> P r.

Record widths_ok (d : db) : Prop := {
  users_fit : all_rows user_fits d;
  dogs_fit : all_rows dog_fits d;
  posts_fit : all_rows post_fits d;
  images_fit : all_rows image_fits d;
  tags_fit : forall h n, hashtags d !! h = Some n -> varchar 50 n;
}.

(** ** Lemmas: statements keep the widths *)

(** A table whose rows must satisfy [P] for the widths to hold. *)
Class FitTable {K R : Type} `{Table K R} (P : R -> Prop) := {
  fit_get : forall d, widths_ok d -> all_rows P d;
  fit_set : forall t d, widths_ok d -> (forall k r, t !! k = Some r -> P r) -> widths_ok (set_rows t d);
}.

#[export] Instance users_fit_table : FitTable user_fits.
Proof. split; [by intros d []|]. by intros t d [? ? ? ? ?] Ht. Qed.
#[export] Instance dogs_fit_table : FitTable dog_fits.
Proof. split; [by intros d []|]. by intros t d [? ? ? ? ?] Ht. Qed.
#[export] Instance posts_fit_table : FitTable post_fits.
Proof. split; [by intros d []|]. by intros t d [? ? ? ? ?] Ht. Qed.
#[export] Instance images_fit_table : FitTable image_fits.
Proof. split; [by intros d []|]. by intros t d [? ? ? ? ?] Ht. Qed.
#[export] Instance post_images_fit_table : FitTable (fun _ : PostImage => True).
Proof. split; [done|]. by intros t d [? ? ? ? ?] Ht. Qed.

Section Fit.
Context {K R : Type} `{FitTable K R P}.

Lemma insert_row_fits k r refs : P r -> keeps widths_ok (insert_row k r refs).
Proof.
  intros Hr d Hd. unfold insert_row. destruct (rows d !! k); [done|]. destruct (refs d); [|done].
  apply fit_set; [done|]. intros k' r' [[_ <-]|[_ Hl]]%lookup_insert_Some; [done|]. by apply (fit_get d Hd k').
Qed.
Lemma update_where_fits c f d : (forall r, P r -> P (f r)) -> widths_ok d -> widths_ok (update_where c f d).
Proof.
  intros Hf Hd. apply fit_set; [done|]. intros k r Hr. rewrite map_lookup_imap in Hr. destruct (rows d !! k) as [r0|] eqn:E; [|done].
  cbn in Hr. injection Hr as <-. pose proof (fit_get d Hd k r0 E). destruct (c k r0); auto.
Qed.
Lemma modify_where_fits c f : (forall r, P r -> P (f r)) -> keeps widths_ok (modify (update_where c f)).
Proof. intros Hf d Hd. by apply update_where_fits. Qed.
Lemma update_one_fits {A : Type} c f (ret : K -> R -> option A) : (forall r, P r -> P (f r)) -> keeps widths_ok (update_one_returning c f ret).
Proof.
  intros Hf d Hd. unfold update_one_returning. pose proof (update_where_fits c f d Hf Hd). by destruct (select_where c d) as [|[? ?] [|]].
Qed.
Lemma delete_rows_fits c : keeps widths_ok (delete_rows c).
Proof. intros d Hd. apply fit_set; [done|]. intros k r [Hr _]%map_lookup_filter_Some. by apply (fit_get d Hd k). Qed.
End Fit.

(** Statements that touch no limited column. *)
Lemma same_columns d d' : users d' = users d -> dogs d' = dogs d -> posts d' = posts d -> images d' = images d -> hashtags d' = hashtags d ->
  widths_ok d -> widths_ok d'.
Proof. intros E1 E2 E3 E4 E5 [H1 H2 H3 H4 H5]. unfold all_rows in *. cbn in *. split; unfold all_rows; cbn; by rewrite ?E1, ?E2, ?E3, ?E4, ?E5. Qed.

Lemma keeps_reads {S A : Type} (I : S -> Prop) (m : M S A) : (forall s, (m s).2 = s) -> keeps I m.
Proof. intros Hm s Hs. by rewrite Hm. Qed.

(** What the first part returns may be used for the rest. *)
Lemma keeps_bind_post {S A B : Type} (I : S -> Prop) (Q : A -> Prop) (m : M S A) (k : A -> M S B) :
  keeps I m -> (forall s a s', m s = (inr a, s') -> Q a) -> (forall a, Q a -> keeps I (k a)) -> keeps I (m ≫= k).
Proof.
  intros Hm HQ Hk s Hs. unfold mbind, M_bind. specialize (Hm s Hs). destruct (m s) as [[e|a] s'] eqn:E; [done|]. apply Hk; [by eapply HQ|done].
Qed.

Create HintDb widths.
#[export] Hint Resolve keeps_ret keeps_raise keeps_bind keeps_get keeps_begin keeps_try keeps_for_each insert_row_fits update_one_fits delete_rows_fits : widths.

Lemma update_live_user_fits k f : (forall u, user_fits u -> user_fits (f u)) -> keeps widths_ok (update_live_user k f).
Proof.
  intros Hf d Hd. unfold update_live_user. destruct (users d !! k) as [u|] eqn:E; [|done]. destruct (decide _); [|done].
  destruct (unique_error _ _ _); [done|]. change (widths_ok (set_rows (<[k := f u]> (users d)) d)). apply (fit_set (P := user_fits)); [done|].
  intros k' r' [[_ <-]|[_ Hl]]%lookup_insert_Some; [apply Hf; by apply (users_fit d Hd k)|by apply (users_fit d Hd k')].
Qed.

Lemma user_create_fits `{UnicodeDB} now new_id mail hashed nick image : varchar 255 (lower mail) -> varchar 255 hashed -> varchar 255 nick ->
  keeps widths_ok (user_create now new_id mail hashed nick image).
Proof.
  intros H1 H2 H3 d Hd. unfold user_create. destruct (unique_error _ _ _); [done|]. revert d Hd.
  apply keeps_bind; [|auto with widths]. by apply (insert_row_fits (P := user_fits)).
Qed.

(** Hashtags arrive normalised. *)
Lemma upsert_hashtags_fit names d : Forall (varchar 50) names -> widths_ok d -> widths_ok (fold_left upsert_hashtag names d).
Proof.
  intros Hn. revert d. induction Hn as [|n names Hn Hns IH]; intros d Hd; [done|]. cbn [fold_left]. apply IH. unfold upsert_hashtag. cbv zeta.
  destruct (hashtag_id _ _); [by apply (same_columns d)|]. destruct Hd as [H1 H2 H3 H4 H5]. split; try done.
  cbn [hashtags over]. intros h m [[_ <-]|[_ Hm]]%lookup_insert_Some; [done|]. by apply (H5 h).
Qed.
Lemma sync_hashtags_fit post_id names : Forall (varchar 50) names -> keeps widths_ok (sync_post_hashtags post_id names).
Proof.
  intros Hn d Hd. unfold sync_post_hashtags. assert (widths_ok (d <| post_hashtags := filter (fun l => l.1 <> post_id) (post_hashtags d) |>)) as Hd'
    by by apply (same_columns d). destruct names as [|n names]; [done|]. pose proof (upsert_hashtags_fit _ _ Hn Hd').
  destruct (_ || _); [|done]. by eapply (same_columns (fold_left upsert_hashtag (n :: names) _)).
Qed.
Lemma normalized_fit `{UnicodeDB} names : Forall (varchar 50) (normalize_hashtags names).
Proof.
  unfold normalize_hashtags. assert (Forall (varchar 50) []) as H0 by constructor. revert H0. generalize (@nil ustr).
  induction names as [|v names IH]; intros out Hout; [done|]. cbn [fold_left]. apply IH. unfold normalize_hashtags_step.
  case_bool_decide; [done|]. apply Forall_app. split; [done|]. constructor; [|done]. unfold varchar, py_len, normalize_hashtag.
  rewrite length_take. lia.
Qed.

Lemma insert_post_image_fits now post_id row : keeps widths_ok (insert_post_image now post_id row).
Proof.
  destruct row as [i m]. intros d Hd. unfold insert_post_image. destruct (existsb _ _); [done|]. revert d Hd. by apply (insert_row_fits (P := fun _ => True)).
Qed.
#[export] Hint Resolve sync_hashtags_fit normalized_fit insert_post_image_fits user_create_fits : widths.

Lemma create_post_row_fits now new_id user ttl cnt rows category tags : varchar 255 ttl -> (forall ts, tags = Some ts -> Forall (varchar 50) ts) ->
  keeps widths_ok (create_post_row now new_id user ttl cnt rows category tags).
Proof.
  intros Ht Htags. unfold create_post_row. apply keeps_bind.
  - unfold ensure_image_limit. destruct (image_ids_of rows); [destruct (_ <? _)|]; auto with widths.
  - intros _. apply keeps_bind; [by apply (insert_row_fits (P := post_fits))|]. intros _. apply keeps_bind; [destruct tags; auto with widths|]. auto 10 with widths.
Qed.

(** Editing a post. *)
Definition edit_fits (e : edit) : Prop :=
  (forall p, post_fits p -> post_fits (ed_apply e p)) /\ (forall ts, ed_hashtags e = Some ts -> Forall (varchar 50) ts).

Lemma update_begin_fits `{UnicodeDB} now post_id data d e d' : optional (length_between 1 26) (up_title data) = true ->
  update_begin now post_id data d = (inr (Some e), d') -> edit_fits e.
Proof.
  intros Ht. unfold update_begin. unfold mbind at 1, M_bind at 1. destruct (ensure_image_limit _ d) as [[x|[]] d1]; [done|].
  unfold mbind, M_bind, get. destruct (posts d1 !! post_id) as [p|]; [|done]. destruct (_ && _); [|done]. destruct (match up_version data with Some _ => _ | None => _ end); [done|].
  intros [= <- <-]. split; cbn [ed_apply ed_hashtags].
  - intros q Hq. unfold post_fits. cbn [title over]. destruct (up_title data) as [t|]; cbn [set_opt].
    + apply andb_true_iff in Ht as [_ Ht%Z.leb_le]. unfold varchar.
      destruct (up_category data), (up_content data); cbn [set_opt title over]; lia.
    + by destruct (up_category data), (up_content data).
  - intros ts Hts. destruct (up_hashtags data); [|done]. injection Hts as <-. apply normalized_fit.
Qed.

Lemma update_commit_fits now e : edit_fits e -> keeps widths_ok (update_commit now e).
Proof.
  intros [Ha Ht]. unfold update_commit. apply keeps_begin, keeps_bind; [destruct (ed_hashtags e); auto with widths|]. intros _.
  apply keeps_bind. { destruct (ed_remove e); [auto with widths|]. apply keeps_bind; [apply (delete_rows_fits (P := fun _ => True))|auto with widths]. }
  intros _. apply keeps_bind; [|auto with widths]. unfold flush_versioned. apply keeps_bind; [|intros []; auto with widths].
  apply (update_one_fits (P := post_fits)). intros p Hp. apply (Ha p Hp).
Qed.

(** Dogs. *)
Definition item_fits (i : DogProfileUpsertItem) : Prop := varchar 100 (di_name i) /\ varchar 100 (di_breed i) /\ varchar 20 (di_gender i).

Lemma item_accepted today i : dog_profile_upsert_item today i = true -> item_fits i.
Proof.
  unfold dog_profile_upsert_item, length_between. rewrite !andb_true_iff. intros [[[[_ Hn%Z.leb_le] [_ Hb%Z.leb_le]] Hg%bool_decide_eq_true] _].
  split_and!; [done|done|]. unfold DOG_GENDERS in Hg. rewrite !elem_of_cons, elem_of_nil in Hg. destruct Hg as [->|[->|[]]]; by vm_compute.
Qed.

Lemma plan_fits items : Forall item_fits items ->
  Forall (fun r => item_fits r.2) (pl_updates (upsert_plan_of items)) /\ Forall item_fits (pl_creates (upsert_plan_of items)).
Proof.
  unfold upsert_plan_of. set (p0 := {| pl_updates := _ |}). assert (Forall (fun r => item_fits r.2) (pl_updates p0) /\ Forall item_fits (pl_creates p0)) as H0 by (by split; constructor).
  revert H0. generalize p0. induction items as [|i items IH]; intros p Hp Hi; [done|]. inversion Hi as [|? ? Hx Hi']; subst.
  cbn [fold_left]. apply IH; [|done]. destruct Hp as [Hu Hc]. unfold plan_step. destruct (di_id i); cbn [pl_updates pl_creates]; split; try done;
    apply Forall_app; (split; [done|by apply Forall_singleton]).
Qed.

Lemma upsert_dogs_fit now owner fresh items : Forall item_fits items -> keeps widths_ok (upsert_dog_profile now owner fresh items).
Proof.
  intros Hi. destruct (plan_fits items Hi) as [Hu Hc]. unfold upsert_dog_profile. apply keeps_get. intros d. cbv zeta.
  destruct (negb _); [auto with widths|]. apply keeps_bind; [apply keeps_reads; intros s; unfold assert_images_attachable, get, mbind, M_bind; destruct (pl_images _); [done|by destruct (forallb _ _)]|].
  intros _. apply keeps_bind.
  { apply keeps_for_each. intros [k r] Hin. apply (modify_where_fits (P := dog_fits)). intros g Hg. rewrite Forall_forall in Hu. exact (Hu _ Hin). }
  intros _. apply keeps_bind.
  { generalize 0%nat. induction Hc as [|r l Hr Hl IH]; intros n; cbn [create_many]; [auto with widths|].
    apply keeps_bind; [|intros _; apply IH]. by apply (insert_row_fits (P := dog_fits)). }
  intros _. apply keeps_bind.
  { destruct (decide _); [auto with widths|]. apply keeps_bind; [apply (delete_rows_fits (P := dog_fits))|auto with widths]. }
  intros _. destruct (chosen_representative _ _) as [r|]; [|auto with widths]. destruct (decide _); [auto with widths|].
  apply keeps_bind; [|auto with widths]. unfold set_representative. apply keeps_bind; [by apply (modify_where_fits (P := dog_fits))|].
  intros _. apply keeps_get. intros s. destruct (_ && _); [auto with widths|]. apply keeps_bind; [by apply (update_one_fits (P := dog_fits))|auto with widths].
Qed.

(** Accounts. *)
Lemma update_user_fits now k f : (forall n, uf_nickname f = Some n -> varchar 255 n) -> keeps widths_ok (update_user now k f).
Proof.
  intros Hn. unfold update_user. destruct (uf_nickname f) as [n|] eqn:En; [|destruct (uf_profile_image_id f); [|destruct (uf_status f); [|auto with widths]]];
    apply update_live_user_fits; intros v (H1 & H2 & H3); split_and!; try done. by apply Hn.
Qed.

Lemma update_user_profile_fits now k fresh data :
  (forall n, uu_nickname data = Some n -> varchar 255 n) ->
  (forall l, uu_dogs data = Some l -> Forall item_fits l) -> keeps widths_ok (update_user_profile now k fresh data).
Proof.
  intros Hn Hd. unfold update_user_profile. apply keeps_begin, keeps_get. intros d. destruct (get_user_by_id k d) as [u|]; [|auto with widths].
  apply keeps_bind; [destruct (uu_nickname data); [unfold when; destruct (_ && _)|]; auto with widths|]. intros _.
  apply keeps_bind.
  { destruct (_ || _); [|auto with widths]. destruct (_ || _); [auto with widths|]. destruct (uu_profile_image_id data) as [[i|]|]; auto with widths.
    apply keeps_bind; [|auto with widths]. apply keeps_reads. intros s. unfold assert_images_attachable, get, mbind, M_bind. by destruct (forallb _ _). }
  intros image. apply keeps_bind; [by apply update_user_fits|]. intros ok. apply keeps_bind; [unfold when; destruct (negb ok); auto with widths|]. intros _.
  apply keeps_bind; [destruct (uu_dogs data); [by apply upsert_dogs_fit, Hd|auto with widths]|]. intros _.
  apply keeps_get. intros d'. destruct (get_user_by_id k d'); auto with widths.
Qed.

Lemma update_password_fits checkpw hashpw pepper k current new_password : (forall p, varchar 255 (hashpw p)) ->
  keeps widths_ok (update_password checkpw hashpw pepper k current new_password).
Proof.
  intros Hh. unfold update_password. apply keeps_begin, keeps_get. intros d. destruct (get_password_hash k d) as [[|c h]|]; auto with widths.
  destruct (negb _); [auto with widths|]. destruct (verify_password_with_legacy_fallback _ _ _ _); [auto with widths|].
  apply keeps_bind; [|intros []; auto with widths]. apply update_live_user_fits. intros u (H1 & _ & H3). split_and!; [exact H1|apply Hh|exact H3].
Qed.

Lemma delete_user_fits now k : keeps widths_ok (delete_user now k).
Proof.
  unfold delete_user. apply keeps_begin, keeps_get. intros d. destruct (get_user_by_id k d); [|auto with widths].
  apply keeps_bind; [|intros []; auto with widths]. intros s Hs. unfold delete_user_row. destruct (get_user_by_id k s) as [row|]; [|done].
  apply update_live_user_fits; [|done]. intros v (_ & H2 & _). split_and!; [apply mask_length|done|apply mask_length].
Qed.

(** ** Lemmas: the routes keep the widths *)

Abbreviation stored := (fun w => widths_ok (w_db w)).

Lemma stored_redis {A : Type} (m : M redis A) : keeps stored (on_redis m).
Proof. intros w Hw. destruct (on_redis_only m w) as [r ->]. done. Qed.
Lemma stored_db {A : Type} (m : M db A) : keeps widths_ok m -> keeps stored (on_db m).
Proof. apply keeps_on_db. Qed.
Lemma stored_s3 {A : Type} (f : bucket -> (exn + A) * bucket) : keeps stored (s3_call f).
Proof. intros w Hw. by rewrite s3_call_db. Qed.
Lemma stored_tx {A : Type} (m : M world A) : keeps stored m -> keeps stored (tx m).
Proof. apply keeps_tx. by intros w e Hw _. Qed.
Lemma stored_gets {A : Type} (f : world -> A) : keeps stored (gets f).
Proof. by intros w Hw. Qed.
#[export] Hint Resolve stored_redis stored_db stored_s3 stored_tx stored_gets delete_user_fits update_password_fits update_user_profile_fits : widths.

Lemma stored_when b m : keeps stored m -> keeps stored (when b m).
Proof. intros Hm. unfold when. destruct b; auto with widths. Qed.
Lemma stored_refs category ids : keeps stored (validate_refs category ids).
Proof.
  unfold validate_refs. apply keeps_bind.
  - destruct category as [c|]; [|auto with widths]. apply keeps_bind; [|intros []; auto with widths]. intros w Hw. unfold category_exists. cbv zeta.
    destruct (match w_category_cache w with Some _ => _ | None => false end); [done|]. by destruct (decide _).
  - intros _. destruct ids as [ids|]; [|auto with widths]. apply stored_db, keeps_reads. intros s.
    unfold assert_images_attachable, get, mbind, M_bind. destruct ids; [done|by destruct (forallb _ _)].
Qed.
#[export] Hint Resolve stored_when stored_refs : widths.

(** Image keys and addresses. *)
Lemma lstrip_length p s : py_len (lstrip_by p s) <= py_len s.
Proof. unfold lstrip_by, py_len. pose proof (drop_while_length p s). lia. Qed.
Lemma drop_media_length fuel k : py_len (drop_media fuel k) <= py_len k.
Proof.
  revert k. induction fuel as [|f IH]; intros k; cbn [drop_media]; [lia|]. destruct (startswith _ _); [|lia].
  etransitivity; [apply IH|]. etransitivity; [apply lstrip_length|]. unfold py_len. rewrite length_drop. lia.
Qed.
Lemma media_key_length key : py_len (strip_redundant_media_prefixes key) <= py_len key.
Proof.
  unfold strip_redundant_media_prefixes. cbv zeta. etransitivity; [apply drop_media_length|]. etransitivity; [apply lstrip_length|].
  unfold strip, py_len. pose proof (strip_by_length is_space key). lia.
Qed.
Lemma py_len_app (a b : ustr) : py_len (a ++ b) = py_len a + py_len b.
Proof. unfold py_len. rewrite length_app. lia. Qed.
Lemma rstrip_length p s : py_len (rstrip_by p s) <= py_len s.
Proof. unfold rstrip_by, py_len. rewrite length_reverse. pose proof (drop_while_length p (reverse s)) as Hd. rewrite length_reverse in Hd. lia. Qed.

(** The configured parts of an image's address. *)
Definition storage_short (c : storage_settings) : Prop :=
  py_len (S3_PUBLIC_BASE_URL c) <= 255 /\ py_len (S3_BUCKET_NAME c) <= 255 /\ py_len (AWS_REGION c) <= 255.

Lemma url_fits c key url : storage_short c -> varchar 100 key -> build_url c key = Some url -> varchar 999 url.
Proof.
  unfold build_url, storage_short, varchar. intros (H1 & H2 & H3) Hk. pose proof (media_key_length key) as Hm. pose proof (rstrip_length is_slash (S3_PUBLIC_BASE_URL c)) as Hr.
  destruct (S3_PUBLIC_BASE_URL c) as [|x base].
  - unfold s3_object_key. destruct (strip_redundant_media_prefixes key) as [|y k]; [done|]. cbn [mbind option_bind]. intros E%(inj Some). rewrite <-E.
    rewrite !py_len_app. change (py_len MEDIA_PREFIX) with 6. change (py_len (lit "https://")) with 8. change (py_len (lit ".s3.")) with 4.
    change (py_len (lit ".amazonaws.com/")) with 15. lia.
  - intros E%(inj Some). rewrite <-E, !py_len_app. change (py_len (lit "/")) with 1. lia.
Qed.

Section WritesKeep.
Context `{UnicodeDB} (etag_of : list Z -> ustr).
Context (email_str : ustr -> option ustr) (bounds_first : bool).
Context (jwt_decode : ustr -> option claims).
Context (checkpw : ustr -> ustr -> bool) (hashpw : ustr -> ustr) (pepper : ustr).
Context (snapshot_dump : ustr -> CurrentUser -> ustr) (snapshot_load : ustr -> option (option ustr * option CurrentUser)).
Context (cfg : route_settings).
(** bcrypt's digests have sixty characters, the validator's addresses at most
    254 bytes; keys carry a ULID. *)
Context (Hhash : forall p, varchar 255 (hashpw p)) (Hmail : forall m m', email_str m = Some m' -> varchar 255 (lower m')).
Context (Hstore : storage_short (rt_storage cfg)).

Lemma image_type_fits ct ct' ext : validate_image_content_type (rt_storage cfg) ct = Some (ct', ext) -> varchar 255 ct' /\ varchar 4 ext.
Proof.
  unfold validate_image_content_type. cbv zeta. destruct (bool_decide _); [|done]. unfold CONTENT_TYPE_EXT.
  destruct (decide _) as [E|]; [|destruct (decide _) as [E|]; [|destruct (decide _) as [E|]; [|done]]]; intros [= <- <-]; (split; [rewrite E|]; by vm_compute).
Qed.

Lemma reserve_fits now new_id ulid fkey purpose sz up : varchar 26 ulid -> varchar 10 purpose ->
  keeps stored (reserve_upload etag_of (rt_storage cfg) now new_id ulid fkey purpose sz up).
Proof.
  intros Hu Hp. unfold reserve_upload. cbv zeta. destruct (is_valid_pending_file_key _); [|auto with widths].
  apply keeps_bind.
  { apply keeps_try; [|intros e; destruct (decide _); auto with widths]. unfold head_pending_object, with_key.
    destruct (is_valid_pending_file_key _); [|auto with widths]. destruct (s3_object_key _); auto with widths. }
  intros meta. destruct (_ || _); [auto with widths|]. destruct (match sz with Some _ => _ | None => _ end); [auto with widths|].
  destruct (validate_image_content_type _ (o_type meta)) as [[ct ext]|] eqn:Ev; [|auto with widths]. destruct (etag_of (o_data meta)); [auto with widths|].
  destruct (build_permanent_file_key _ purpose ct ulid) as [dest|] eqn:Ek; [|auto with widths]. destruct (build_url _ dest) as [url|] eqn:Eu; [|auto with widths].
  apply keeps_bind; [|auto with widths]. apply stored_db, keeps_begin, keeps_bind; [|auto with widths].
  unfold build_permanent_file_key in Ek. destruct (validate_image_content_type _ ct) as [[ct' ext']|] eqn:Ec; [|done]. cbn [mbind option_bind] in Ek. apply (inj Some) in Ek. subst dest.
  apply image_type_fits in Ev as [Hct _]. apply image_type_fits in Ec as [_ Hext].
  assert (varchar 100 (purpose ++ lit "/" ++ ulid ++ lit "." ++ ext')) as Hkey.
  { unfold varchar in *. rewrite !py_len_app. change (py_len (lit "/")) with 1. change (py_len (lit ".")) with 1. lia. }
  apply (insert_row_fits (P := image_fits)). split_and!; [unfold varchar in *; cbn [file_key]; lia|by eapply url_fits|done].
Qed.

Lemma finish_fits {A : Type} r (body : Z -> M world A) : varchar 255 (rs_type r) -> (forall i, keeps stored (body i)) ->
  keeps stored (finish_upload etag_of r body).
Proof.
  intros Ht Hb. unfold finish_upload. apply stored_tx, keeps_bind; [apply stored_db; by intros d Hd|]. intros [img|]; [|auto with widths].
  apply keeps_bind.
  { apply keeps_try; [|intros e; destruct (decide _); auto with widths]. unfold promote_pending_object, with_key.
    destruct (s3_object_key (rs_dest_key r)); [|auto with widths]. destruct (s3_object_key (rs_key r)); auto with widths. }
  intros _. apply keeps_bind; [apply Hb|]. intros a. apply keeps_bind; [|intros [?|]; auto with widths]. apply stored_db.
  apply (update_one_fits (P := image_fits)). intros i (H1 & H2 & _). by split_and!.
Qed.

Lemma reserved_type_fits now new_id ulid fkey purpose sz up w r w' :
  reserve_upload etag_of (rt_storage cfg) now new_id ulid fkey purpose sz up w = (inr r, w') -> varchar 255 (rs_type r).
Proof.
  intros (_ & _ & _ & _ & _ & _ & _ & _ & [ext Hx])%reserve_upload_valid. unfold CONTENT_TYPE_EXT in Hx.
  destruct (decide _) as [->|]; [by vm_compute|]. destruct (decide _) as [->|]; [by vm_compute|]. destruct (decide _) as [->|]; [by vm_compute|done].
Qed.

Lemma confirm_fits now new_id ulid fkey purpose sz user : varchar 26 ulid -> varchar 10 purpose ->
  keeps stored (confirm_presigned_upload etag_of (rt_storage cfg) now new_id ulid fkey purpose sz user).
Proof.
  intros Hu Hp. unfold confirm_presigned_upload. eapply (keeps_bind_post _ (fun r => varchar 255 (rs_type r))); [by apply reserve_fits|by intros; eapply reserved_type_fits|].
  intros r Hr. apply keeps_bind; [|intros [? ?]; auto with widths]. apply finish_fits; auto with widths.
Qed.
Lemma confirm_signup_fits present ttl token now new_id ulid fkey sz : varchar 26 ulid ->
  keeps stored (confirm_presigned_signup_upload etag_of (rt_storage cfg) present ttl token now new_id ulid fkey sz).
Proof.
  intros Hu. unfold confirm_presigned_signup_upload.
  eapply (keeps_bind_post _ (fun r => varchar 255 (rs_type r))); [apply reserve_fits; [done|by vm_compute]|by intros; eapply reserved_type_fits|].
  intros r Hr. apply keeps_bind; [|intros [? ?]; auto with widths]. apply finish_fits; [done|]. intros i. unfold issue_upload_token. destruct present; auto with widths.
Qed.

(** A stripped text ends in no newline: the pattern's [$] is the end. *)
Lemma before_final_newline_strip v : before_final_newline (strip v) = strip v.
Proof.
  unfold before_final_newline. destruct (reverse (strip v)) as [|c t] eqn:E; [done|].
  assert (is_space c = false) as Hc.
  { unfold strip, strip_by, rstrip_by in E. rewrite reverse_involutive in E. revert E. generalize (reverse (lstrip_by is_space v)).
    intros l. induction l as [|x l IH]; cbn [drop_while]; [done|]. destruct (is_space x) eqn:Ex; [exact IH|]. by intros [= -> _]. }
  assert (c <> 10) as Hn by by intros ->. destruct c as [|p|p]; try done. by repeat (destruct p as [p|p|]; try done).
Qed.

(** What a nickname is: one to ten characters of the class. *)
Lemma nickname_exact v n : ensure_nickname_format v = inr n -> n = strip v /\ 1 <= py_len n <= 10 /\ Forall (fun c => nickname_char c = true) n.
Proof.
  unfold ensure_nickname_format. case_bool_decide; [done|]. destruct (validate_nickname_format (strip v)) eqn:E; [|done]. intros [= <-].
  unfold validate_nickname_format in E. cbv zeta in E. rewrite before_final_newline_strip, !andb_true_iff in E.
  destruct E as [[E1%Z.leb_le E2%Z.leb_le] Hc]. split_and!; try done. rewrite forallb_forall in Hc. apply Forall_forall.
  intros c Hin. by apply Hc, list_elem_of_In.
Qed.
Lemma optional_nickname_fits v o n : optional_nickname v = inr o -> o = Some n -> varchar 255 n.
Proof.
  unfold optional_nickname. destruct v as [v|]; [|by intros [= <-]]. case_bool_decide; [by intros [= <-]|].
  destruct (ensure_nickname_format (strip v)) as [e|m] eqn:E; [done|]. intros [= <-] [= ->]. apply nickname_exact in E as (_ & ? & _). unfold varchar. lia.
Qed.

Lemma user_stored rq : keeps stored (current_user jwt_decode snapshot_dump snapshot_load cfg rq).
Proof. apply current_user_keeps. intros. apply stored_redis. Qed.
Lemma invalidate_stored k : keeps stored (invalidate_user_status_cache (rt_present cfg) k).
Proof. unfold invalidate_user_status_cache, best_effort. destruct (rt_present cfg); auto with widths. Qed.

Lemma profile_reads missing k (d : db) : (load_profile (rt_storage cfg) missing k d).2 = d.
Proof. unfold load_profile, get, mbind, M_bind. destruct (get_user_by_id k d); [|done]. by destruct (profile_response _ _ _ _). Qed.

Lemma sign_up_stored now new_id raw data : sign_up_request email_str bounds_first raw = inr data ->
  keeps stored (signup hashpw pepper (rt_present cfg) now new_id data).
Proof.
  unfold sign_up_request. destruct (email_str (su_email raw)) as [mail|] eqn:Em; [|done]. unfold nickname_field.
  destruct (ensure_nickname_format (su_nickname raw)) as [e|n] eqn:En; [done|]. unfold accept_body. destruct (length_between _ _ (if bounds_first then _ else _)); [|done].
  destruct (_ && _); [|done]. intros [= <-]. apply nickname_exact in En as (_ & Hn & _).
  unfold signup. cbn [su_email su_password su_nickname su_profile_image_id su_signup_token]. destruct (_ && _); [auto with widths|].
  cbv zeta. apply stored_tx, keeps_get. intros w. destruct (email_exists _ _); [auto with widths|]. destruct (nickname_exists _ _); [auto with widths|].
  apply keeps_bind.
  { destruct (truthy _); [|auto with widths]. apply keeps_bind; [|intros [i|]; [destruct (_ && _)|]; auto with widths].
    unfold verify_upload_token. destruct (default [] _) as [|c t]; [auto with widths|]. destruct (rt_present cfg); [|auto with widths].
    apply keeps_try; [|auto with widths]. apply keeps_bind; [apply stored_redis|]. intros [i|]; [|auto with widths]. apply keeps_bind; [apply stored_redis|].
    intros _. destruct i; auto with widths. }
  intros image. apply keeps_bind.
  - apply keeps_try; [apply stored_db, user_create_fits; [by eapply Hmail|apply Hhash|unfold varchar; lia]|].
    intros []; auto with widths. destruct (is_infix _ _); [|destruct (is_infix _ _)]; auto with widths.
  - intros created. destruct image as [i|]; [|auto with widths]. apply keeps_bind; [|intros []; auto with widths]. apply stored_db. unfold claim_image_ownership.
    apply keeps_bind; [by apply (update_one_fits (P := image_fits))|auto with widths].
Qed.

Lemma update_me_stored now fresh today rq raw data : update_user_request today raw = inr data ->
  keeps stored (update_me jwt_decode snapshot_dump snapshot_load cfg now fresh rq data).
Proof.
  unfold update_user_request. destruct (optional_nickname (uu_nickname raw)) as [e|nick] eqn:En; [done|]. unfold accept_body.
  destruct (optional (forallb _) (uu_dogs raw)) eqn:Ed; [|done]. cbn [andb]. destruct (update_user_at_least_one _); [|done]. intros [= <-].
  unfold update_me. apply keeps_bind; [apply user_stored|]. intros user. apply keeps_bind; [|intros d; apply keeps_bind; [apply invalidate_stored|auto with widths]].
  apply stored_db. unfold update_user_profile_response. apply keeps_begin, keeps_bind; [|intros _; apply keeps_reads; intros s; apply profile_reads].
  apply update_user_profile_fits; cbn [uu_nickname uu_dogs].
  - intros n Hn. by eapply optional_nickname_fits.
  - intros l Hl. rewrite Hl in Ed. cbn [optional] in Ed. rewrite forallb_forall in Ed. apply Forall_forall. intros i Hi.
    by eapply item_accepted, Ed, list_elem_of_In.
Qed.

Lemma create_post_stored now new_id user raw data : post_create_request raw = inr data -> keeps stored (create_post now new_id user data).
Proof.
  unfold post_create_request, accept_body, length_between. destruct (_ && is_accepted (hashtags_max_six _)) eqn:Ea; [|done]. intros [= <-].
  rewrite !andb_true_iff in Ea. destruct Ea as [[[[_ Ht%Z.leb_le] _] _] _]. unfold create_post. apply stored_tx, keeps_bind; [apply stored_refs|]. intros _.
  apply stored_db, create_post_row_fits; [unfold varchar; lia|]. intros ts Hts. destruct (cr_hashtags raw); [|done]. injection Hts as <-. apply normalized_fit.
Qed.
Lemma update_post_stored now post_id raw data : post_update_request raw = inr data -> keeps stored (update_post now post_id data).
Proof.
  unfold post_update_request, accept_body. destruct (_ && is_accepted (hashtags_max_six _)) eqn:Ea; [|done]. intros [= <-].
  rewrite !andb_true_iff in Ea. destruct Ea as [[[Ht _] _] _]. unfold update_post. apply stored_tx, keeps_bind; [apply stored_refs|]. intros _.
  apply (keeps_bind_post _ (fun o => forall e, o = Some e -> edit_fits e)).
  - apply keeps_try; [|intros e; destruct (decide _); auto with widths]. apply stored_db, keeps_reads. intros s. unfold update_begin.
    unfold mbind at 1, M_bind at 1. assert (forall ids, (ensure_image_limit ids s).2 = s) as Hl by (intros [l|]; [cbn; by destruct (_ <? _)|done]).
    specialize (Hl (image_ids_of (up_images raw))). destruct (ensure_image_limit _ s) as [[e|[]] s1]; cbn [snd] in Hl; [done|]. subst s1.
    unfold mbind, M_bind, get. destruct (posts s !! post_id); [|done]. destruct (_ && _); [|done]. by destruct (match up_version raw with Some _ => _ | None => _ end).
  - intros w o w' E e ->. unfold try_except, on_db in E. destruct (update_begin now post_id raw (w_db w)) as [[x|o] d] eqn:Eb.
    + by destruct (decide _).
    + injection E as -> _. by eapply update_begin_fits.
  - intros [e|] He; [|auto with widths]. apply stored_db, update_commit_fits. by apply He.
Qed.

Lemma with_body_stored {A D : Type} deps (body : exn + D) (handler : D -> M world A) : keeps stored deps ->
  (forall data, body = inr data -> keeps stored (handler data)) -> keeps stored (with_body deps body handler).
Proof. intros Hd Hh. unfold with_body. destruct body as [e|data]; [|by apply Hh]. apply keeps_bind; auto with widths. Qed.

Abbreviation serve := (serve_write etag_of email_str bounds_first jwt_decode checkpw hashpw pepper snapshot_dump snapshot_load cfg).

Lemma serve_stored dr rq call : varchar 26 (dr_ulid dr) -> keeps stored (serve dr rq call).
Proof.
  intros Hu. assert (keeps stored (current_user jwt_decode snapshot_dump snapshot_load cfg rq ;; mret tt)) as Hau
    by (apply keeps_bind; [apply user_stored|auto with widths]).
  assert (forall (A : Type) (m : M world A), keeps stored m -> keeps stored (m ;; mret tt)) as Hlast by (intros A m Hm; apply keeps_bind; auto with widths).
  destruct call; cbn [serve_write]; cbv zeta; try (apply with_body_stored; [auto with widths| |]; try done).
  - apply with_body_stored; [auto with widths|]. intros d Hd. unfold signup_route. apply Hlast, keeps_bind; [by eapply sign_up_stored|auto with widths].
  - apply with_body_stored; [done|]. intros d Hd. by eapply Hlast, update_me_stored.
  - apply with_body_stored; [done|]. intros [cur new] _. apply Hlast. unfold update_password_route. apply keeps_bind; [apply user_stored|]. intros user.
    apply keeps_bind; [auto with widths|]. intros _. unfold revoke_refresh_for_user. auto with widths.
  - apply Hlast. unfold delete_me. apply keeps_bind; [apply user_stored|]. intros user. unfold revoke_refresh_for_user.
    apply keeps_bind; [auto with widths|]. intros _. apply keeps_bind; [auto with widths|]. intros _. apply keeps_bind; [apply invalidate_stored|auto with widths].
  - apply with_body_stored; [done|]. intros d Hd. apply keeps_bind; [apply user_stored|]. intros user. by eapply Hlast, create_post_stored.
  - apply with_body_stored.
    + apply keeps_bind; [apply user_stored|]. intros user. unfold depends. destruct (require_post_author _ _ _); auto with widths.
    + intros d Hd. apply keeps_bind; [apply user_stored|]. intros user. unfold update_post_handler, depends.
      destruct (require_post_author _ _ _); [auto with widths|]. by eapply update_post_stored.
  - apply with_body_stored; [done|]. intros [[k p] n] Hd. apply Hlast. unfold confirm_image_upload. apply keeps_bind; [apply user_stored|]. intros user.
    apply keeps_bind; [|auto with widths]. apply confirm_fits; [done|]. unfold confirm_upload_request in Hd.
    destruct (confirm_signup_upload_request fkey sz) as [e|[k' n']]; [done|]. unfold accept_body in Hd. case_bool_decide as Hp; [|done]. injection Hd as _ <- _.
    rewrite !elem_of_cons, elem_of_nil in Hp. destruct Hp as [->|[->|[]]]; by vm_compute.
  - apply with_body_stored; [auto with widths|]. intros [k n] _. apply Hlast. unfold confirm_signup_image_upload.
    apply keeps_bind; [by apply confirm_signup_fits|]. intros [? ?]. auto with widths.
Qed.

(** C15. No accepted body outgrows its columns: however requests that write text
    follow one another (sign-ups, profile and password changes, withdrawals,
    posts created and edited, uploads confirmed), whatever they contain and
    whatever Redis and the object store do, every name, title, address, hashtag
    and key in the database stays within the width its column declares, so
    PostgreSQL refuses none of these statements for its length. *)
Theorem accepted_writes_fit_columns (requests : list (draws * http_request * write_call)) (w : world) :
  Forall (fun r => varchar 26 (dr_ulid r.1.1)) requests -> widths_ok (w_db w) ->
  widths_ok (w_db (fold_left (fun w r => (serve r.1.1 r.1.2 r.2 w).2) requests w)).
Proof.
  intros Hr. revert w. induction Hr as [|r requests Hu Hr IH]; intros w Hw; [done|]. cbn [fold_left]. apply IH.
  by apply (serve_stored (r.1.1) (r.1.2) (r.2) Hu w).
Qed.

(** A body that breaks a rule reaches no handler: nothing is stored. *)
Lemma refused_body_stores_nothing dr rq raw w e : post_create_request raw = inl e ->
  w_db (serve dr rq (CreatePostCall raw) w).2 = w_db w /\ exists e', (serve dr rq (CreatePostCall raw) w).1 = inl e'.
Proof.
  intros He. cbn [serve_write]. unfold with_body. rewrite He.
  pose proof (current_user_leaves jwt_decode snapshot_dump snapshot_load (rt_present cfg) (hr_authorization rq) w w (only_redis_refl w)) as Hk.
  unfold mbind, M_bind. unfold current_user. destruct (get_current_user _ _ _ _ _ w) as [[x|cu] w']; cbn [fst snd] in *;
    (split; [by apply only_redis_db|by eexists]).
Qed.
End WritesKeep.

(** ** Witnesses *)

Definition demo_draws (i : Z) : draws :=
  {| dr_now := 5; dr_today := 20000; dr_id := i; dr_ids := fun n => i + Z.of_nat n; dr_ulid := lit "01ARZ3NDEKTSV4RRFFQ69G5FAV"; dr_token := lit "t" |}.
Definition demo_email (m : ustr) : option ustr := if length_between 3 254 m && forallb (fun c => c <? 128) m then Some m else None.
Definition demo_signup : SignUpRequest :=
  {| su_email := lit "New@b.c"; su_password := lit "secret-1"; su_nickname := lit " puppy "; su_profile_image_id := None; su_signup_token := None |}.
Definition demo_profile : UpdateUserRequest :=
  {| uu_nickname := Some (lit "bori"); uu_profile_image_id := None; uu_clear_profile_image := false;
     uu_dogs := Some [{| di_id := None; di_name := lit "Rex"; di_breed := lit "corgi"; di_gender := lit "male"; di_birth_date := 19000; di_image := None; di_is_representative := true |}] |}.
Definition demo_tagged : PostCreateRequest :=
  {| cr_title := lit "Walk"; cr_content := lit "today"; cr_images := None; cr_category := None; cr_hashtags := Some [lit "#Dog Walk"] |}.
Definition demo_writes : list (draws * http_request * write_call) :=
  [(demo_draws 60, demo_bearer, SignUpCall demo_signup); (demo_draws 70, demo_bearer, UpdateMeCall demo_profile); (demo_draws 80, demo_bearer, CreatePostCall demo_tagged)].
Definition demo_serve : draws -> http_request -> write_call -> M world unit :=
  serve_write (H := ascii_db) (fun _ => [1]) demo_email true route_jwt (fun p h => bool_decide (p = h)) (fun p => take 60 p) [] no_dump no_load demo_routes.
Definition demo_written : world := fold_left (fun w r => (demo_serve r.1.1 r.1.2 r.2 w).2) demo_writes demo_auth_world.

Example demo_stored :
  (nickname <$> users (w_db demo_written) !! 60, nickname <$> users (w_db demo_written) !! 7, dog_name <$> dogs (w_db demo_written) !! 70,
   title <$> posts (w_db demo_written) !! 80, map_to_list (hashtags (w_db demo_written))) =
  (Some (lit "puppy"), Some (lit "bori"), Some (lit "Rex"), Some (lit "Walk"), [(1, lit "dogwalk")]).
Proof. vm_compute. reflexivity. Qed.

Lemma lower_ascii_length s : py_len (lower (H := ascii_db) s) = py_len s.
Proof.
  unfold py_len, lower. f_equal. induction s as [|c s IH]; [done|]. cbn [flat_map]. rewrite length_app, IH. unfold lower_cp.
  destruct (c <? 128); [by destruct (between _ _ _)|done].
Qed.

Lemma accepted_writes_fit_columns_witness : widths_ok (w_db demo_written).
Proof.
  apply (accepted_writes_fit_columns (H := ascii_db) (fun _ => [1]) demo_email true route_jwt (fun p h => bool_decide (p = h)) (fun p => take 60 p) [] no_dump no_load demo_routes).
  - intros p. unfold varchar, py_len. rewrite length_take. lia.
  - intros m m' Hm. unfold demo_email, length_between in Hm. destruct (_ && forallb _ _) eqn:E; [|discriminate Hm]. injection Hm as <-.
    rewrite !andb_true_iff in E. destruct E as [[_ E%Z.leb_le] _]. unfold varchar. rewrite lower_ascii_length. lia.
  - vm_compute. repeat split; congruence.
  - repeat constructor; vm_compute; congruence.
  - split; try (intros k r Hr; discriminate Hr).
    intros k r Hr. cbn in Hr. apply lookup_singleton_Some in Hr as [_ <-]. vm_compute. repeat split; congruence.
Defined.

(** The rules count characters but forbid none: a title with U+0000, which a
    text column cannot hold, reaches the service. *)
Example nul_title_accepted :
  is_accepted (post_create_request {| cr_title := [65; 0]; cr_content := lit "x"; cr_images := None; cr_category := None; cr_hashtags := None |}) = true.
Proof. reflexivity. Qed.
