(* ===== verification/Migrations.v ===== *)
(** * Schema migrations ([migrations/versions])

    The revision chain as data: each revision's statements on a schema (tables,
    columns, keys, foreign keys, indexes) with the checks PostgreSQL makes, and,
    for the conversion of the entity identifiers from ULID text to [uuid]
    (revision 005), their effect on the rows.  The chain ends in the schema the
    mapped classes declare. *)

From S2P Require Import Prelude Ids Common Redis Db World Search Posts Trending Dogs.

(** ** [puppytalk_ulid_to_uuid] *)

Definition CROCKFORD : ustr := lit "0123456789ABCDEFGHJKMNPQRSTVWXYZ".

Section UlidToUuid.
(** PostgreSQL's [upper] of one character and its reading of a [uuid]. *)
Context (pg_upper : Z -> Z) (uuid_in : ustr -> option Z).

(** [FOR i IN 1..26]: [None] is the exception for a character outside the alphabet. *)
Fixpoint ulid_accumulate (acc : Z) (s : ustr) : option Z :=
  match s with
  | [] => Some acc
  | c :: s' => idx ← index_from 0 CROCKFORD (pg_upper c); ulid_accumulate (acc * 32 + idx) s'
  end.

(** [FOR j IN 1..32]: the digits of [work] put in front of [full_hex]. *)
Fixpoint hex_loop (j : nat) (work : Z) (full_hex : ustr) : ustr :=
  match j with
  | O => full_hex
  | S j' => hex_loop j' (work / 16) (hex_char (work mod 16) :: full_hex)
  end.

(** The function is STRICT: NULL stays NULL and is not handed to it. *)
Definition puppytalk_ulid_to_uuid (s : ustr) : option Z :=
  if negb (py_len s =? 26) then None
  else
    acc ← ulid_accumulate 0 s;
    let full_hex := hex_loop 32 (acc mod 2 ^ 128) [] in
    uuid_in (take 8 full_hex ++ lit "-" ++ take 4 (drop 8 full_hex) ++ lit "-" ++ take 4 (drop 12 full_hex) ++ lit "-" ++
             take 4 (drop 16 full_hex) ++ lit "-" ++ take 12 (drop 20 full_hex)).
End UlidToUuid.

(** ** Schemas *)

Inductive sql_type := TUlid | TUuid | TVarchar (n : Z) | TText | TInteger | TBoolean | TTimestamp | TDate.
#[export] Instance sql_type_eq_dec : EqDecision sql_type.
Proof. solve_decision. Defined.

Inductive delete_action := CASCADE | SET_NULL | RESTRICT.
#[export] Instance delete_action_eq_dec : EqDecision delete_action.
Proof. solve_decision. Defined.

Record column := { co_type : sql_type; co_nullable : bool }.
#[export] Instance column_eq_dec : EqDecision column.
Proof. solve_decision. Defined.

(** [FOREIGN KEY (fk_column) REFERENCES fk_table (fk_target) ON DELETE ...] *)
Record foreign_key := { fk_column : string; fk_table : string; fk_target : string; fk_on_delete : delete_action }.
#[export] Instance foreign_key_eq_dec : EqDecision foreign_key.
Proof. solve_decision. Defined.

(** Constraints by name. *)
Record table_def := {
  tb_columns : gmap string column; tb_primary_key : list string;
  tb_foreign_keys : gmap string foreign_key; tb_uniques : gmap string (list string); tb_checks : gmap string string;
}.
#[export] Instance table_def_eq_dec : EqDecision table_def.
Proof. solve_decision. Defined.
#[export] Instance table_def_eta : Eta table_def := fun t =>
  Build_table_def (tb_columns t) (tb_primary_key t) (tb_foreign_keys t) (tb_uniques t) (tb_checks t).

(** The columns as written (an expression where one is), the predicate of a
    partial index. *)
Record index := { ix_table : string; ix_columns : list string; ix_unique : bool; ix_where : string }.
#[export] Instance index_eq_dec : EqDecision index.
Proof. solve_decision. Defined.

Record schema := { tables : gmap string table_def; indexes : gmap string index }.
#[export] Instance schema_eq_dec : EqDecision schema.
Proof. solve_decision. Defined.
#[export] Instance schema_eta : Eta schema := fun s => Build_schema (tables s) (indexes s).

(** ** Statements *)

Inductive ddl :=
  | CreateTable (t : string) (d : table_def)
  | DropTable (t : string)
  | CreateIndex (if_not_exists : bool) (n : string) (i : index)
  | DropIndex (if_exists : bool) (n t : string)
  | CreateForeignKey (n t : string) (f : foreign_key)
  | DropConstraintIfExists (t n : string)
  | DropForeignKey (n t : string)
  | CreateUnique (n t : string) (cols : list string)
  | DropUnique (n t : string)
  | AlterToUuid (t c : string)
  | AddColumn (t c : string) (k : column)
  | DropColumn (t c : string)
  (** extensions, rows, Alembic's own table: no effect on the schema *)
  | OtherStatement.

(** The referenced column is the target's whole primary key and has the same type. *)
Definition fk_valid (s : schema) (t : string) (tb : table_def) (f : foreign_key) : bool :=
  match (if decide (fk_table f = t) then Some tb else tables s !! fk_table f) with
  | Some ref =>
      match tb_columns tb !! fk_column f, tb_columns ref !! fk_target f with
      | Some c, Some c' => bool_decide (co_type c = co_type c') && bool_decide (tb_primary_key ref = [fk_target f])
      | _, _ => false
      end
  | None => false
  end.

Definition has_columns (tb : table_def) (cols : list string) : bool := forallb (fun c => bool_decide (is_Some (tb_columns tb !! c))) cols.

(** The column of a key written as ["created_at DESC"]. *)
Definition key_column (k : string) : string := match String.index 0 " DESC" k with Some n => String.substring 0 n k | None => k end.

(** A foreign key that has the column at either end. *)
Definition fk_touches (t c : string) (u : string) (f : foreign_key) : bool :=
  (bool_decide (u = t) && bool_decide (fk_column f = c)) || (bool_decide (fk_table f = t) && bool_decide (fk_target f = c)).
Definition referenced_column (s : schema) (t c : string) : bool :=
  existsb (fun p => existsb (fun q => fk_touches t c p.1 q.2) (map_to_list (tb_foreign_keys p.2))) (map_to_list (tables s)).

Definition change_table (t : string) (f : table_def -> option table_def) (s : schema) : option schema :=
  tb ← tables s !! t; tb' ← f tb; Some (s <| tables := <[t := tb']> (tables s) |>).

Definition guard_then {A : Type} (b : bool) (o : option A) : option A := if b then o else None.

(** [None]: PostgreSQL refuses the statement. *)
Definition apply_ddl (op : ddl) (s : schema) : option schema :=
  match op with
  | CreateTable t d =>
      guard_then (bool_decide (tables s !! t = None) && has_columns d (tb_primary_key d) &&
                  forallb (fun q => has_columns d q.2) (map_to_list (tb_uniques d)) &&
                  forallb (fun q => fk_valid s t d q.2) (map_to_list (tb_foreign_keys d)))
        (Some (s <| tables := <[t := d]> (tables s) |>))
  | DropTable t =>
      guard_then (bool_decide (is_Some (tables s !! t)) &&
                  negb (existsb (fun p => negb (bool_decide (p.1 = t)) && existsb (fun q => bool_decide (fk_table q.2 = t)) (map_to_list (tb_foreign_keys p.2)))
                          (map_to_list (tables s))))
        (Some {| tables := delete t (tables s); indexes := filter (fun p => ix_table p.2 <> t) (indexes s) |})
  | CreateIndex if_not_exists n i =>
      match indexes s !! n with
      | Some _ => guard_then if_not_exists (Some s)
      | None => tb ← tables s !! ix_table i;
                guard_then (has_columns tb (key_column <$> ix_columns i)) (Some (s <| indexes := <[n := i]> (indexes s) |>))
      end
  | DropIndex if_exists n t =>
      match indexes s !! n with
      | Some i => guard_then (bool_decide (ix_table i = t)) (Some (s <| indexes := delete n (indexes s) |>))
      | None => guard_then if_exists (Some s)
      end
  | CreateForeignKey n t f =>
      change_table t (fun tb => guard_then (bool_decide (tb_foreign_keys tb !! n = None) && fk_valid s t tb f)
                                  (Some (tb <| tb_foreign_keys := <[n := f]> (tb_foreign_keys tb) |>))) s
  | DropConstraintIfExists t n => change_table t (fun tb => Some (tb <| tb_foreign_keys := delete n (tb_foreign_keys tb) |>)) s
  | DropForeignKey n t =>
      change_table t (fun tb => guard_then (bool_decide (is_Some (tb_foreign_keys tb !! n)))
                                  (Some (tb <| tb_foreign_keys := delete n (tb_foreign_keys tb) |>))) s
  | CreateUnique n t cols =>
      change_table t (fun tb => guard_then (bool_decide (tb_uniques tb !! n = None) && has_columns tb cols)
                                  (Some (tb <| tb_uniques := <[n := cols]> (tb_uniques tb) |>))) s
  | DropUnique n t =>
      change_table t (fun tb => guard_then (bool_decide (is_Some (tb_uniques tb !! n))) (Some (tb <| tb_uniques := delete n (tb_uniques tb) |>))) s
  | AlterToUuid t c =>
      guard_then (negb (referenced_column s t c))
        (change_table t (fun tb => k ← tb_columns tb !! c;
           guard_then (bool_decide (co_type k = TUlid))
             (Some (tb <| tb_columns := <[c := {| co_type := TUuid; co_nullable := co_nullable k |}]> (tb_columns tb) |>))) s)
  | AddColumn t c k =>
      change_table t (fun tb => guard_then (bool_decide (tb_columns tb !! c = None)) (Some (tb <| tb_columns := <[c := k]> (tb_columns tb) |>))) s
  | DropColumn t c =>
      guard_then (negb (referenced_column s t c))
        (change_table t (fun tb => guard_then (bool_decide (is_Some (tb_columns tb !! c))) (Some (tb <| tb_columns := delete c (tb_columns tb) |>))) s)
  | OtherStatement => Some s
  end.

Fixpoint apply_all (ops : list ddl) (s : schema) : option schema :=
  match ops with
  | [] => Some s
  | op :: ops' => s' ← apply_ddl op s; apply_all ops' s'
  end.

(** ** Revision 001 *)

Definition required (n : string) (ty : sql_type) : string * column := (n, {| co_type := ty; co_nullable := false |}).
Definition nullable (n : string) (ty : sql_type) : string * column := (n, {| co_type := ty; co_nullable := true |}).
(** PostgreSQL names an unnamed foreign key after table and column. *)
Definition references (t c u : string) (a : delete_action) : string * foreign_key :=
  ((t +:+ "_" +:+ c +:+ "_fkey")%string, {| fk_column := c; fk_table := u; fk_target := "id"; fk_on_delete := a |}).
Definition table_of (cols : list (string * column)) (pk : list string) (fks : list (string * foreign_key)) (uniques : list (string * list string))
  (checks : list (string * string)) : table_def :=
  {| tb_columns := list_to_map cols; tb_primary_key := pk; tb_foreign_keys := list_to_map fks; tb_uniques := list_to_map uniques; tb_checks := list_to_map checks |}.
Definition plain_index (n t : string) (cols : list string) : ddl := CreateIndex false n {| ix_table := t; ix_columns := cols; ix_unique := false; ix_where := "" |}.
Definition unique_index (n t : string) (cols : list string) : ddl := CreateIndex false n {| ix_table := t; ix_columns := cols; ix_unique := true; ix_where := "" |}.
Definition partial_index (n t : string) (cols : list string) (unique : bool) (p : string) : ddl :=
  CreateIndex false n {| ix_table := t; ix_columns := cols; ix_unique := unique; ix_where := p |}.
(** [postgresql_concurrently=True, if_not_exists=True] *)
Definition concurrent_index (n t : string) (cols : list string) (p : string) : ddl :=
  CreateIndex true n {| ix_table := t; ix_columns := cols; ix_unique := false; ix_where := p |}.

Section Baseline.
Local Open Scope string_scope.

Definition users_001 : table_def := table_of
  [required "id" TUlid; required "version" TInteger; required "email" (TVarchar 255); required "password" (TVarchar 255);
   required "nickname" (TVarchar 255); nullable "profile_image_id" TUlid; required "role" (TVarchar 20); required "status" (TVarchar 20);
   required "created_at" TTimestamp; required "updated_at" TTimestamp; nullable "deleted_at" TTimestamp]
  ["id"] [] [] [].
Definition images_001 : table_def := table_of
  [required "id" TUlid; required "file_key" (TVarchar 255); required "file_url" (TVarchar 999); nullable "content_type" (TVarchar 255);
   nullable "size" TInteger; nullable "uploader_id" TUlid; required "created_at" TTimestamp]
  ["id"] [references "images" "uploader_id" "users" SET_NULL] [] [].
Definition categories_001 : table_def := table_of
  [required "id" TInteger; required "name" (TVarchar 50); nullable "description" TText] ["id"] [] [("uq_categories_name", ["name"])] [].
Definition hashtags_001 : table_def := table_of
  [required "id" TInteger; required "name" (TVarchar 50)] ["id"] [] [("uq_hashtags_name", ["name"])] [].
Definition posts_001 : table_def := table_of
  [required "id" TUlid; nullable "user_id" TUlid; required "title" (TVarchar 255); required "content" TText; nullable "category_id" TInteger;
   required "view_count" TInteger; required "like_count" TInteger; required "comment_count" TInteger; required "report_count" TInteger;
   required "is_blinded" TBoolean; required "created_at" TTimestamp; required "updated_at" TTimestamp; nullable "deleted_at" TTimestamp;
   required "version" TInteger]
  ["id"] [references "posts" "category_id" "categories" SET_NULL; references "posts" "user_id" "users" SET_NULL] [] [].
Definition post_hashtags_001 : table_def := table_of
  [required "post_id" TUlid; required "hashtag_id" TInteger] ["post_id"; "hashtag_id"]
  [references "post_hashtags" "hashtag_id" "hashtags" CASCADE; references "post_hashtags" "post_id" "posts" CASCADE] [] [].
Definition dog_profiles_001 : table_def := table_of
  [required "id" TUlid; required "owner_id" TUlid; required "name" (TVarchar 100); required "breed" (TVarchar 100); required "gender" (TVarchar 20);
   required "birth_date" TDate; nullable "profile_image_id" TUlid; required "is_representative" TBoolean; required "created_at" TTimestamp;
   required "updated_at" TTimestamp]
  ["id"] [references "dog_profiles" "owner_id" "users" CASCADE; references "dog_profiles" "profile_image_id" "images" SET_NULL] [] [].
Definition post_images_001 : table_def := table_of
  [required "id" TUlid; required "post_id" TUlid; required "image_id" TUlid; required "created_at" TTimestamp]
  ["id"] [references "post_images" "image_id" "images" CASCADE; references "post_images" "post_id" "posts" RESTRICT]
  [("uq_post_images_image_id", ["image_id"])] [].
Definition post_likes_001 : table_def := table_of
  [required "post_id" TUlid; required "user_id" TUlid; required "created_at" TTimestamp] ["post_id"; "user_id"]
  [references "post_likes" "post_id" "posts" CASCADE; references "post_likes" "user_id" "users" CASCADE] [] [].
Definition comments_001 : table_def := table_of
  [required "id" TUlid; required "post_id" TUlid; nullable "author_id" TUlid; nullable "parent_id" TUlid; required "content" TText;
   required "like_count" TInteger; required "report_count" TInteger; required "is_blinded" TBoolean; required "created_at" TTimestamp;
   required "updated_at" TTimestamp; nullable "deleted_at" TTimestamp]
  ["id"] [references "comments" "author_id" "users" SET_NULL; references "comments" "parent_id" "comments" CASCADE;
          references "comments" "post_id" "posts" CASCADE] [] [].
Definition comment_likes_001 : table_def := table_of
  [required "comment_id" TUlid; required "user_id" TUlid; required "created_at" TTimestamp] ["comment_id"; "user_id"]
  [references "comment_likes" "comment_id" "comments" CASCADE; references "comment_likes" "user_id" "users" CASCADE] [] [].
Definition user_blocks_001 : table_def := table_of
  [required "blocker_id" TUlid; required "blocked_id" TUlid; required "created_at" TTimestamp] ["blocker_id"; "blocked_id"]
  [references "user_blocks" "blocker_id" "users" CASCADE; references "user_blocks" "blocked_id" "users" CASCADE]
  [("uq_user_blocks_blocker_blocked", ["blocker_id"; "blocked_id"])] [].
Definition reports_001 : table_def := table_of
  [required "id" TUlid; required "reporter_id" TUlid; required "target_type" (TVarchar 50); required "target_id" TUlid; nullable "reason" TText;
   required "created_at" TTimestamp; nullable "deleted_at" TTimestamp]
  ["id"] [references "reports" "reporter_id" "users" CASCADE] [] [].

Definition profile_image_fk : foreign_key := {| fk_column := "profile_image_id"; fk_table := "images"; fk_target := "id"; fk_on_delete := SET_NULL |}.

Definition upgrade_001 : list ddl :=
  [OtherStatement;
   CreateTable "users" users_001; unique_index "ix_users_email" "users" ["email"]; unique_index "ix_users_nickname" "users" ["nickname"];
   CreateTable "images" images_001; plain_index "ix_images_uploader_id" "images" ["uploader_id"];
   CreateForeignKey "fk_users_profile_image" "users" profile_image_fk;
   CreateTable "categories" categories_001; plain_index "ix_categories_name" "categories" ["name"];
   CreateTable "hashtags" hashtags_001; plain_index "ix_hashtags_name" "hashtags" ["name"];
   CreateTable "posts" posts_001; plain_index "ix_posts_user_id" "posts" ["user_id"]; plain_index "ix_posts_category_id" "posts" ["category_id"];
   plain_index "ix_posts_deleted_at_id" "posts" ["deleted_at"; "id"]; plain_index "idx_posts_title_gin" "posts" ["title"];
   plain_index "idx_posts_content_gin" "posts" ["content"];
   CreateTable "post_hashtags" post_hashtags_001;
   CreateTable "dog_profiles" dog_profiles_001; plain_index "ix_dog_profiles_owner_id" "dog_profiles" ["owner_id"];
   plain_index "ix_dog_profiles_profile_image_id" "dog_profiles" ["profile_image_id"];
   CreateTable "post_images" post_images_001; plain_index "ix_post_images_post_id" "post_images" ["post_id"];
   plain_index "ix_post_images_image_id" "post_images" ["image_id"];
   CreateTable "post_likes" post_likes_001;
   CreateTable "comments" comments_001; plain_index "ix_comments_post_id" "comments" ["post_id"];
   plain_index "ix_comments_author_id" "comments" ["author_id"]; plain_index "ix_comments_parent_id" "comments" ["parent_id"];
   CreateTable "comment_likes" comment_likes_001;
   CreateTable "user_blocks" user_blocks_001;
   CreateTable "reports" reports_001; plain_index "ix_reports_reporter_id" "reports" ["reporter_id"];
   OtherStatement; OtherStatement].

Definition downgrade_001 : list ddl :=
  [DropIndex false "ix_reports_reporter_id" "reports"; DropTable "reports"; DropTable "user_blocks"; DropTable "comment_likes";
   DropIndex false "ix_comments_parent_id" "comments"; DropIndex false "ix_comments_author_id" "comments";
   DropIndex false "ix_comments_post_id" "comments"; DropTable "comments"; DropTable "post_likes";
   DropIndex false "ix_post_images_image_id" "post_images"; DropIndex false "ix_post_images_post_id" "post_images"; DropTable "post_images";
   DropIndex false "ix_dog_profiles_profile_image_id" "dog_profiles"; DropIndex false "ix_dog_profiles_owner_id" "dog_profiles"; DropTable "dog_profiles";
   DropTable "post_hashtags"; DropIndex false "idx_posts_content_gin" "posts"; DropIndex false "idx_posts_title_gin" "posts";
   DropIndex false "ix_posts_deleted_at_id" "posts"; DropIndex false "ix_posts_category_id" "posts"; DropIndex false "ix_posts_user_id" "posts";
   DropTable "posts"; DropIndex false "ix_hashtags_name" "hashtags"; DropTable "hashtags"; DropIndex false "ix_categories_name" "categories";
   DropTable "categories"; DropForeignKey "fk_users_profile_image" "users"; DropIndex false "ix_images_uploader_id" "images"; DropTable "images";
   DropIndex false "ix_users_nickname" "users"; DropIndex false "ix_users_email" "users"; DropTable "users"].
End Baseline.

(** ** Later revisions *)

Section Later.
Local Open Scope string_scope.

Definition notifications_004 : table_def := table_of
  [required "id" TUlid; required "user_id" TUlid; required "kind" (TVarchar 64); nullable "actor_id" TUlid; nullable "post_id" TUlid;
   nullable "comment_id" TUlid; nullable "read_at" TTimestamp; required "created_at" TTimestamp]
  ["id"] [references "notifications" "actor_id" "users" SET_NULL; references "notifications" "comment_id" "comments" CASCADE;
          references "notifications" "post_id" "posts" CASCADE; references "notifications" "user_id" "users" CASCADE] [] [].
Definition user_created_index : ddl := plain_index "ix_notifications_user_created" "notifications" ["user_id"; "created_at DESC"].

(** [_FK_TO_DROP] *)
Definition FK_TO_DROP : list (string * string) :=
  [("users", "fk_users_profile_image"); ("images", "images_uploader_id_fkey"); ("posts", "posts_user_id_fkey");
   ("post_hashtags", "post_hashtags_post_id_fkey"); ("dog_profiles", "dog_profiles_owner_id_fkey");
   ("dog_profiles", "dog_profiles_profile_image_id_fkey"); ("post_images", "post_images_post_id_fkey");
   ("post_images", "post_images_image_id_fkey"); ("post_likes", "post_likes_post_id_fkey"); ("post_likes", "post_likes_user_id_fkey");
   ("comments", "comments_post_id_fkey"); ("comments", "comments_author_id_fkey"); ("comments", "comments_parent_id_fkey");
   ("comment_likes", "comment_likes_comment_id_fkey"); ("comment_likes", "comment_likes_user_id_fkey");
   ("user_blocks", "user_blocks_blocker_id_fkey"); ("user_blocks", "user_blocks_blocked_id_fkey"); ("reports", "reports_reporter_id_fkey");
   ("notifications", "notifications_user_id_fkey"); ("notifications", "notifications_actor_id_fkey");
   ("notifications", "notifications_post_id_fkey"); ("notifications", "notifications_comment_id_fkey")].

(** The [ALTER COLUMN ... TYPE uuid] statements, in order. *)
Definition UUID_COLUMNS : list (string * string) :=
  [("users", "id"); ("users", "profile_image_id"); ("images", "id"); ("images", "uploader_id"); ("posts", "id"); ("posts", "user_id");
   ("post_hashtags", "post_id"); ("dog_profiles", "id"); ("dog_profiles", "owner_id"); ("dog_profiles", "profile_image_id");
   ("post_images", "id"); ("post_images", "post_id"); ("post_images", "image_id"); ("post_likes", "post_id"); ("post_likes", "user_id");
   ("comments", "id"); ("comments", "post_id"); ("comments", "author_id"); ("comments", "parent_id"); ("comment_likes", "comment_id");
   ("comment_likes", "user_id"); ("user_blocks", "blocker_id"); ("user_blocks", "blocked_id"); ("reports", "id"); ("reports", "reporter_id");
   ("reports", "target_id"); ("notifications", "id"); ("notifications", "user_id"); ("notifications", "actor_id"); ("notifications", "post_id");
   ("notifications", "comment_id")].

(** Name, table, column, referenced table, action of each recreated key. *)
Definition FK_TO_CREATE : list (string * string * foreign_key) :=
  let fk n t c u a := (n, t, {| fk_column := c; fk_table := u; fk_target := "id"; fk_on_delete := a |}) in
  [fk "fk_users_profile_image" "users" "profile_image_id" "images" SET_NULL;
   fk "images_uploader_id_fkey" "images" "uploader_id" "users" SET_NULL;
   fk "posts_user_id_fkey" "posts" "user_id" "users" SET_NULL;
   fk "post_hashtags_post_id_fkey" "post_hashtags" "post_id" "posts" CASCADE;
   fk "dog_profiles_owner_id_fkey" "dog_profiles" "owner_id" "users" CASCADE;
   fk "dog_profiles_profile_image_id_fkey" "dog_profiles" "profile_image_id" "images" SET_NULL;
   fk "post_images_post_id_fkey" "post_images" "post_id" "posts" RESTRICT;
   fk "post_images_image_id_fkey" "post_images" "image_id" "images" CASCADE;
   fk "post_likes_post_id_fkey" "post_likes" "post_id" "posts" CASCADE;
   fk "post_likes_user_id_fkey" "post_likes" "user_id" "users" CASCADE;
   fk "comments_post_id_fkey" "comments" "post_id" "posts" CASCADE;
   fk "comments_author_id_fkey" "comments" "author_id" "users" SET_NULL;
   fk "comments_parent_id_fkey" "comments" "parent_id" "comments" CASCADE;
   fk "comment_likes_comment_id_fkey" "comment_likes" "comment_id" "comments" CASCADE;
   fk "comment_likes_user_id_fkey" "comment_likes" "user_id" "users" CASCADE;
   fk "user_blocks_blocker_id_fkey" "user_blocks" "blocker_id" "users" CASCADE;
   fk "user_blocks_blocked_id_fkey" "user_blocks" "blocked_id" "users" CASCADE;
   fk "reports_reporter_id_fkey" "reports" "reporter_id" "users" CASCADE;
   fk "notifications_user_id_fkey" "notifications" "user_id" "users" CASCADE;
   fk "notifications_actor_id_fkey" "notifications" "actor_id" "users" SET_NULL;
   fk "notifications_post_id_fkey" "notifications" "post_id" "posts" CASCADE;
   fk "notifications_comment_id_fkey" "notifications" "comment_id" "comments" CASCADE].

Definition upgrade_005 : list ddl :=
  OtherStatement :: ((fun p => DropConstraintIfExists p.1 p.2) <$> FK_TO_DROP) ++ ((fun p => AlterToUuid p.1 p.2) <$> UUID_COLUMNS) ++
  ((fun '(n, t, f) => CreateForeignKey n t f) <$> FK_TO_CREATE) ++ [OtherStatement].

Definition chat_rooms_006 : table_def := table_of
  [required "id" TUuid; required "user1_id" TUuid; required "user2_id" TUuid; required "created_at" TTimestamp; required "updated_at" TTimestamp]
  ["id"] [references "chat_rooms" "user1_id" "users" CASCADE; references "chat_rooms" "user2_id" "users" CASCADE]
  [("uq_chat_rooms_user_pair", ["user1_id"; "user2_id"])] [("ck_chat_rooms_user_order", "user1_id < user2_id")].
Definition chat_messages_006 : table_def := table_of
  [required "id" TUuid; required "room_id" TUuid; required "sender_id" TUuid; required "content" TText; required "is_read" TBoolean;
   required "created_at" TTimestamp]
  ["id"] [references "chat_messages" "room_id" "chat_rooms" CASCADE; references "chat_messages" "sender_id" "users" CASCADE] [] [].
Definition upgrade_006 : list ddl :=
  [CreateTable "chat_rooms" chat_rooms_006; plain_index "ix_chat_rooms_user1_id" "chat_rooms" ["user1_id"];
   plain_index "ix_chat_rooms_user2_id" "chat_rooms" ["user2_id"];
   CreateTable "chat_messages" chat_messages_006; plain_index "ix_chat_messages_sender_id" "chat_messages" ["sender_id"];
   plain_index "ix_chat_messages_room_created" "chat_messages" ["room_id"; "created_at DESC"]].
Definition downgrade_006 : list ddl :=
  [DropIndex false "ix_chat_messages_room_created" "chat_messages"; DropIndex false "ix_chat_messages_sender_id" "chat_messages"; DropTable "chat_messages";
   DropIndex false "ix_chat_rooms_user2_id" "chat_rooms"; DropIndex false "ix_chat_rooms_user1_id" "chat_rooms"; DropTable "chat_rooms"].

(** Storage parameters ([fastupdate]) are not part of the schema here. *)
Definition upgrade_007 : list ddl :=
  [OtherStatement; plain_index "idx_hashtags_name_gin" "hashtags" ["name"];
   DropIndex false "idx_posts_title_gin" "posts"; plain_index "idx_posts_title_gin" "posts" ["title"];
   DropIndex false "idx_posts_content_gin" "posts"; plain_index "idx_posts_content_gin" "posts" ["content"]].
Definition downgrade_007 : list ddl :=
  [DropIndex false "idx_posts_content_gin" "posts"; plain_index "idx_posts_content_gin" "posts" ["content"];
   DropIndex false "idx_posts_title_gin" "posts"; plain_index "idx_posts_title_gin" "posts" ["title"]; DropIndex false "idx_hashtags_name_gin" "hashtags"].

Definition upgrade_010 : list ddl :=
  [DropIndex false "ix_notifications_user_created" "notifications"; plain_index "ix_notifications_user_recent" "notifications" ["user_id"; "id DESC"];
   partial_index "ix_notifications_user_unread" "notifications" ["user_id"] false "read_at IS NULL"].
Definition downgrade_010 : list ddl :=
  [DropIndex false "ix_notifications_user_unread" "notifications"; DropIndex false "ix_notifications_user_recent" "notifications"; user_created_index].

Definition REPLY_VISIBLE : string := "deleted_at IS NULL AND is_blinded IS FALSE".
Definition upgrade_013 : list ddl :=
  [concurrent_index "ix_post_likes_user_id" "post_likes" ["user_id"] ""; concurrent_index "ix_comment_likes_user_id" "comment_likes" ["user_id"] "";
   concurrent_index "idx_comments_parent_visible" "comments" ["parent_id"; "id"] REPLY_VISIBLE].
Definition downgrade_013 : list ddl :=
  [DropIndex false "idx_comments_parent_visible" "comments"; DropIndex false "ix_comment_likes_user_id" "comment_likes";
   DropIndex false "ix_post_likes_user_id" "post_likes"].

Definition ROOT_VISIBLE : string := "parent_id IS NULL AND is_blinded IS FALSE".
Definition upgrade_014 : list ddl :=
  [concurrent_index "idx_comments_post_popular" "comments" ["post_id"; "like_count"; "id"] ROOT_VISIBLE;
   concurrent_index "idx_comments_post_latest" "comments" ["post_id"; "id"] ROOT_VISIBLE].
Definition downgrade_014 : list ddl := [DropIndex false "idx_comments_post_latest" "comments"; DropIndex false "idx_comments_post_popular" "comments"].

Definition upgrade_016 : list ddl :=
  [concurrent_index "idx_images_reclaimable" "images" ["id"] "deleted_at IS NOT NULL"; concurrent_index "ix_users_profile_image_id" "users" ["profile_image_id"] ""].
Definition downgrade_016 : list ddl := [DropIndex true "ix_users_profile_image_id" "users"; DropIndex true "idx_images_reclaimable" "images"].

(** A revision; a downgrade that raises NotImplementedError is [None]. *)
Record revision := { rv_id : string; rv_down : option string; rv_upgrade : list ddl; rv_downgrade : option (list ddl) }.

Definition rev_001 : revision :=
  {| rv_id := "001_initial_baseline"; rv_down := None;
     rv_upgrade := upgrade_001;
     rv_downgrade := Some downgrade_001 |}.
Definition rev_002 : revision :=
  {| rv_id := "002_seed_categories"; rv_down := Some "001_initial_baseline";
     rv_upgrade := [OtherStatement];
     rv_downgrade := Some [OtherStatement] |}.
Definition rev_003_fix : revision :=
  {| rv_id := "003_fix_alembic_version_len"; rv_down := Some "002_seed_categories";
     rv_upgrade := [OtherStatement];
     rv_downgrade := Some [OtherStatement] |}.
Definition rev_003_set : revision :=
  {| rv_id := "003_set_null_posts_comments_user_fk"; rv_down := Some "003_fix_alembic_version_len";
     rv_upgrade := [];
     rv_downgrade := Some [] |}.
Definition rev_004 : revision :=
  {| rv_id := "004_notifications"; rv_down := Some "caabca5fb0ad";
     rv_upgrade := [CreateTable "notifications" notifications_004; user_created_index];
     rv_downgrade := Some [DropIndex false "ix_notifications_user_created" "notifications"; DropTable "notifications"] |}.
Definition rev_005 : revision :=
  {| rv_id := "005_ulid_to_uuid"; rv_down := Some "004_notifications";
     rv_upgrade := upgrade_005;
     rv_downgrade := None |}.
Definition rev_006 : revision :=
  {| rv_id := "006_chat_dm"; rv_down := Some "005_ulid_to_uuid";
     rv_upgrade := upgrade_006;
     rv_downgrade := Some downgrade_006 |}.
Definition rev_007 : revision :=
  {| rv_id := "007_pg_trgm_search"; rv_down := Some "006_chat_dm";
     rv_upgrade := upgrade_007;
     rv_downgrade := Some downgrade_007 |}.
Definition rev_008 : revision :=
  {| rv_id := "008_dog_representative_unique"; rv_down := Some "007_pg_trgm_search";
     rv_upgrade := [OtherStatement; partial_index "uq_dog_profiles_owner_representative" "dog_profiles" ["owner_id"] true "is_representative"];
     rv_downgrade := Some [DropIndex false "uq_dog_profiles_owner_representative" "dog_profiles"] |}.
Definition rev_009 : revision :=
  {| rv_id := "009_chat_unread_partial_index"; rv_down := Some "008_dog_representative_unique";
     rv_upgrade := [partial_index "ix_chat_messages_unread" "chat_messages" ["room_id"] false "is_read IS false"];
     rv_downgrade := Some [DropIndex false "ix_chat_messages_unread" "chat_messages"] |}.
Definition rev_010 : revision :=
  {| rv_id := "010_notification_unread_index"; rv_down := Some "009_chat_unread_partial_index";
     rv_upgrade := upgrade_010;
     rv_downgrade := Some downgrade_010 |}.
Definition rev_011 : revision :=
  {| rv_id := "011_reports_target_index"; rv_down := Some "010_notification_unread_index";
     rv_upgrade := [partial_index "ix_reports_target" "reports" ["target_type"; "target_id"] false "deleted_at IS NULL"];
     rv_downgrade := Some [DropIndex false "ix_reports_target" "reports"] |}.
Definition rev_012 : revision :=
  {| rv_id := "012_drop_redundant_user_block_unique"; rv_down := Some "011_reports_target_index";
     rv_upgrade := [DropUnique "uq_user_blocks_blocker_blocked" "user_blocks"];
     rv_downgrade := Some [CreateUnique "uq_user_blocks_blocker_blocked" "user_blocks" ["blocker_id"; "blocked_id"]] |}.
Definition rev_013 : revision :=
  {| rv_id := "013_like_reply_lookup_indexes"; rv_down := Some "012_drop_redundant_user_block_unique";
     rv_upgrade := upgrade_013;
     rv_downgrade := Some downgrade_013 |}.
Definition rev_014 : revision :=
  {| rv_id := "014_comment_root_sort_indexes"; rv_down := Some "013_like_reply_lookup_indexes";
     rv_upgrade := upgrade_014;
     rv_downgrade := Some downgrade_014 |}.
Definition rev_015 : revision :=
  {| rv_id := "015_image_soft_delete"; rv_down := Some "014_comment_root_sort_indexes";
     rv_upgrade := [AddColumn "images" "deleted_at" {| co_type := TTimestamp; co_nullable := true |}];
     rv_downgrade := Some [DropColumn "images" "deleted_at"] |}.
Definition rev_016 : revision :=
  {| rv_id := "016_image_sweep_indexes"; rv_down := Some "015_image_soft_delete";
     rv_upgrade := upgrade_016;
     rv_downgrade := Some downgrade_016 |}.
Definition rev_feed : revision :=
  {| rv_id := "caabca5fb0ad"; rv_down := Some "003_set_null_posts_comments_user_fk";
     rv_upgrade := [partial_index "idx_posts_feed_latest" "posts" ["created_at DESC"] false "deleted_at IS NULL AND is_blinded IS FALSE"];
     rv_downgrade := Some [DropIndex false "idx_posts_feed_latest" "posts"] |}.

(** The files, as a directory lists them. *)
Definition VERSIONS : list revision :=
  [rev_001; rev_002; rev_003_fix; rev_003_set; rev_004; rev_005; rev_006; rev_007; rev_008;
   rev_009; rev_010; rev_011; rev_012; rev_013; rev_014; rev_015; rev_016; rev_feed].
End Later.

(** The revisions above [down], one after the other; [None] when two revisions
    have the same predecessor. *)
Fixpoint upgrade_path (fuel : nat) (down : option string) (rs : list revision) : option (list revision) :=
  match fuel with
  | O => None
  | S f =>
      match List.filter (fun r => bool_decide (rv_down r = down)) rs with
      | [] => Some []
      | [r] => cons r <$> upgrade_path f (Some (rv_id r)) rs
      | _ => None
      end
  end.

(** [alembic upgrade head], from any schema. *)
Fixpoint upgrade_all (rs : list revision) (s : schema) : option schema :=
  match rs with
  | [] => Some s
  | r :: rs' => s' ← apply_all (rv_upgrade r) s; upgrade_all rs' s'
  end.

Definition empty_schema : schema := {| tables := ∅; indexes := ∅ |}.

Fixpoint through (target : string) (rs : list revision) : option (list revision) :=
  match rs with
  | [] => None
  | r :: rs' => if bool_decide (rv_id r = target) then Some [r] else cons r <$> through target rs'
  end.
Definition REVISION_PATH : option (list revision) := upgrade_path (S (length VERSIONS)) None VERSIONS.
(** [alembic upgrade <target>], from nothing. *)
Definition alembic_upgrade (target : string) : option schema :=
  path ← REVISION_PATH; rs ← through target path; upgrade_all rs empty_schema.

(** ** The declared schema ([*/model.py])

    [mapped_column(index=True)] declares an index [ix_<table>_<column>] (a unique
    one together with [unique=True]); [unique=True] alone a unique constraint,
    which PostgreSQL names [<table>_<column>_key]. *)

Section Declared.
Local Open Scope string_scope.

Definition users_declared : table_def := table_of
  [required "id" TUuid; required "version" TInteger; required "email" (TVarchar 255); required "password" (TVarchar 255);
   required "nickname" (TVarchar 255); nullable "profile_image_id" TUuid; required "role" (TVarchar 20); required "status" (TVarchar 20);
   required "created_at" TTimestamp; required "updated_at" TTimestamp; nullable "deleted_at" TTimestamp]
  ["id"] [references "users" "profile_image_id" "images" SET_NULL] [("users_email_key", ["email"]); ("users_nickname_key", ["nickname"])] [].
Definition user_blocks_declared : table_def := table_of
  [required "blocker_id" TUuid; required "blocked_id" TUuid; required "created_at" TTimestamp] ["blocker_id"; "blocked_id"]
  [references "user_blocks" "blocker_id" "users" CASCADE; references "user_blocks" "blocked_id" "users" CASCADE] [] [].
Definition images_declared : table_def := table_of
  [required "id" TUuid; required "file_key" (TVarchar 255); required "file_url" (TVarchar 999); nullable "content_type" (TVarchar 255);
   nullable "size" TInteger; nullable "uploader_id" TUuid; required "created_at" TTimestamp; nullable "deleted_at" TTimestamp]
  ["id"] [references "images" "uploader_id" "users" SET_NULL] [] [].
Definition categories_declared : table_def := table_of
  [required "id" TInteger; required "name" (TVarchar 50); nullable "description" TText] ["id"] [] [] [].
Definition hashtags_declared : table_def := table_of [required "id" TInteger; required "name" (TVarchar 50)] ["id"] [] [] [].
Definition posts_declared : table_def := table_of
  [required "id" TUuid; nullable "user_id" TUuid; required "title" (TVarchar 255); required "content" TText; nullable "category_id" TInteger;
   required "view_count" TInteger; required "like_count" TInteger; required "comment_count" TInteger; required "report_count" TInteger;
   required "is_blinded" TBoolean; required "created_at" TTimestamp; required "updated_at" TTimestamp; nullable "deleted_at" TTimestamp;
   required "version" TInteger]
  ["id"] [references "posts" "user_id" "users" SET_NULL; references "posts" "category_id" "categories" SET_NULL] [] [].
Definition post_hashtags_declared : table_def := table_of
  [required "post_id" TUuid; required "hashtag_id" TInteger] ["post_id"; "hashtag_id"]
  [references "post_hashtags" "post_id" "posts" CASCADE; references "post_hashtags" "hashtag_id" "hashtags" CASCADE] [] [].
Definition post_images_declared : table_def := table_of
  [required "id" TUuid; required "post_id" TUuid; required "image_id" TUuid; required "created_at" TTimestamp]
  ["id"] [references "post_images" "post_id" "posts" RESTRICT; references "post_images" "image_id" "images" CASCADE]
  [("uq_post_images_image_id", ["image_id"])] [].
Definition post_likes_declared : table_def := table_of
  [required "post_id" TUuid; required "user_id" TUuid; required "created_at" TTimestamp] ["post_id"; "user_id"]
  [references "post_likes" "post_id" "posts" CASCADE; references "post_likes" "user_id" "users" CASCADE] [] [].
Definition comments_declared : table_def := table_of
  [required "id" TUuid; required "post_id" TUuid; nullable "author_id" TUuid; nullable "parent_id" TUuid; required "content" TText;
   required "like_count" TInteger; required "report_count" TInteger; required "is_blinded" TBoolean; required "created_at" TTimestamp;
   required "updated_at" TTimestamp; nullable "deleted_at" TTimestamp]
  ["id"] [references "comments" "post_id" "posts" CASCADE; references "comments" "author_id" "users" SET_NULL;
          references "comments" "parent_id" "comments" CASCADE] [] [].
Definition comment_likes_declared : table_def := table_of
  [required "comment_id" TUuid; required "user_id" TUuid; required "created_at" TTimestamp] ["comment_id"; "user_id"]
  [references "comment_likes" "comment_id" "comments" CASCADE; references "comment_likes" "user_id" "users" CASCADE] [] [].
Definition dog_profiles_declared : table_def := table_of
  [required "id" TUuid; required "owner_id" TUuid; required "name" (TVarchar 100); required "breed" (TVarchar 100); required "gender" (TVarchar 20);
   required "birth_date" TDate; nullable "profile_image_id" TUuid; required "is_representative" TBoolean; required "created_at" TTimestamp;
   required "updated_at" TTimestamp]
  ["id"] [references "dog_profiles" "owner_id" "users" CASCADE; references "dog_profiles" "profile_image_id" "images" SET_NULL] [] [].
Definition reports_declared : table_def := table_of
  [required "id" TUuid; required "reporter_id" TUuid; required "target_type" (TVarchar 50); required "target_id" TUuid; nullable "reason" TText;
   required "created_at" TTimestamp; nullable "deleted_at" TTimestamp]
  ["id"] [references "reports" "reporter_id" "users" CASCADE] [] [].
Definition notifications_declared : table_def := table_of
  [required "id" TUuid; required "user_id" TUuid; required "kind" (TVarchar 64); nullable "actor_id" TUuid; nullable "post_id" TUuid;
   nullable "comment_id" TUuid; nullable "read_at" TTimestamp; required "created_at" TTimestamp]
  ["id"] [references "notifications" "user_id" "users" CASCADE; references "notifications" "actor_id" "users" SET_NULL;
          references "notifications" "post_id" "posts" CASCADE; references "notifications" "comment_id" "comments" CASCADE] [] [].
Definition chat_rooms_declared : table_def := table_of
  [required "id" TUuid; required "user1_id" TUuid; required "user2_id" TUuid; required "created_at" TTimestamp; required "updated_at" TTimestamp]
  ["id"] [references "chat_rooms" "user1_id" "users" CASCADE; references "chat_rooms" "user2_id" "users" CASCADE]
  [("uq_chat_rooms_user_pair", ["user1_id"; "user2_id"])] [("ck_chat_rooms_user_order", "user1_id < user2_id")].
Definition chat_messages_declared : table_def := table_of
  [required "id" TUuid; required "room_id" TUuid; required "sender_id" TUuid; required "content" TText; required "is_read" TBoolean;
   required "created_at" TTimestamp]
  ["id"] [references "chat_messages" "room_id" "chat_rooms" CASCADE; references "chat_messages" "sender_id" "users" CASCADE] [] [].

Definition declared_index (t c : string) : string * index :=
  (("ix_" +:+ t +:+ "_" +:+ c), {| ix_table := t; ix_columns := [c]; ix_unique := false; ix_where := "" |}).
Definition declared (n t : string) (cols : list string) (unique : bool) (p : string) : string * index :=
  (n, {| ix_table := t; ix_columns := cols; ix_unique := unique; ix_where := p |}).

Definition METADATA : schema :=
  {| tables := list_to_map
       [("users", users_declared); ("user_blocks", user_blocks_declared); ("images", images_declared); ("categories", categories_declared);
        ("hashtags", hashtags_declared); ("posts", posts_declared); ("post_hashtags", post_hashtags_declared); ("post_images", post_images_declared);
        ("post_likes", post_likes_declared); ("comments", comments_declared); ("comment_likes", comment_likes_declared);
        ("dog_profiles", dog_profiles_declared); ("reports", reports_declared); ("notifications", notifications_declared);
        ("chat_rooms", chat_rooms_declared); ("chat_messages", chat_messages_declared)];
     indexes := list_to_map
       [declared_index "users" "profile_image_id"; declared_index "images" "uploader_id"; declared "idx_images_reclaimable" "images" ["id"] false "deleted_at IS NOT NULL";
        declared "ix_categories_name" "categories" ["name"] true ""; declared "ix_hashtags_name" "hashtags" ["name"] true "";
        declared "idx_hashtags_name_gin" "hashtags" ["name"] false "";
        declared_index "posts" "user_id"; declared_index "posts" "category_id"; declared "idx_posts_title_gin" "posts" ["title"] false "";
        declared "idx_posts_content_gin" "posts" ["content"] false "";
        declared "idx_posts_feed_latest" "posts" ["created_at DESC"] false "deleted_at IS NULL AND is_blinded IS FALSE";
        declared_index "post_images" "post_id"; declared_index "post_likes" "user_id"; declared_index "comment_likes" "user_id";
        declared_index "comments" "post_id"; declared_index "comments" "author_id"; declared_index "comments" "parent_id";
        declared "idx_comments_parent_visible" "comments" ["parent_id"; "id"] false REPLY_VISIBLE;
        declared "idx_comments_post_popular" "comments" ["post_id"; "like_count"; "id"] false ROOT_VISIBLE;
        declared "idx_comments_post_latest" "comments" ["post_id"; "id"] false ROOT_VISIBLE;
        declared_index "dog_profiles" "owner_id"; declared_index "dog_profiles" "profile_image_id";
        declared "uq_dog_profiles_owner_representative" "dog_profiles" ["owner_id"] true "is_representative";
        declared_index "reports" "reporter_id"; declared "ix_reports_target" "reports" ["target_type"; "target_id"] false "deleted_at IS NULL";
        declared "ix_notifications_user_recent" "notifications" ["user_id"; "id DESC"] false "";
        declared "ix_notifications_user_unread" "notifications" ["user_id"] false "read_at IS NULL";
        declared_index "chat_rooms" "user1_id"; declared_index "chat_rooms" "user2_id"; declared_index "chat_messages" "sender_id";
        declared "ix_chat_messages_room_created" "chat_messages" ["room_id"; "created_at DESC"] false "";
        declared "ix_chat_messages_unread" "chat_messages" ["room_id"] false "is_read IS false"] |}.
End Declared.

(** ** Comparing schemas *)

(** What a table promises its rows: every key with the predicate of the rows it
    covers, whether it is a constraint or a unique index. *)
Definition unique_keys (s : schema) (t : string) (tb : table_def) : list (list string * string) :=
  ((fun q => (q.2, ""%string)) <$> map_to_list (tb_uniques tb)) ++
  ((fun q => (ix_columns q.2, ix_where q.2)) <$> List.filter (fun q => bool_decide (ix_table q.2 = t) && ix_unique q.2) (map_to_list (indexes s))).

Definition same_elements {A : Type} `{EqDecision A} (l l' : list A) : bool :=
  forallb (fun x => bool_decide (x ∈ l')) l && forallb (fun x => bool_decide (x ∈ l)) l'.

(** Columns, keys, foreign keys with their actions, checks; names of constraints
    apart. *)
Definition same_table (s s' : schema) (t : string) (tb tb' : table_def) : bool :=
  bool_decide (tb_columns tb = tb_columns tb') && bool_decide (tb_primary_key tb = tb_primary_key tb') &&
  same_elements (map_to_list (tb_foreign_keys tb)).*2 (map_to_list (tb_foreign_keys tb')).*2 &&
  same_elements (unique_keys s t tb) (unique_keys s' t tb') && bool_decide (tb_checks tb = tb_checks tb').

Definition same_rules (s s' : schema) : bool :=
  forallb (fun p => match tables s' !! p.1 with Some tb' => same_table s s' p.1 p.2 tb' | None => false end) (map_to_list (tables s)) &&
  forallb (fun p => bool_decide (is_Some (tables s !! p.1))) (map_to_list (tables s')).

(** Plain indexes of the first schema missing from the second. *)
Definition lookup_indexes (s : schema) : list (string * index) := List.filter (fun q => negb (ix_unique q.2)) (map_to_list (indexes s)).
Definition undeclared (s s' : schema) : list string :=
  (List.filter (fun q => negb (bool_decide (indexes s' !! q.1 = Some q.2))) (lookup_indexes s)).*1.

(** ** Rows under revision 005 *)

Inductive cell := CNull | CUlid (s : ustr) | CUuid (n : Z) | COther (payload : Z).
#[export] Instance cell_eq_dec : EqDecision cell.
Proof. solve_decision. Defined.

Notation row := (gmap string cell).
Notation table_rows := (gmap string (list row)).
Definition rows_at (t : string) (d : table_rows) : list row := default [] (d !! t).

(** A key's value in a row; a row with NULL in it is not compared. *)
Definition key_of (cols : list string) (r : row) : list (option cell) := (fun c => r !! c) <$> cols.
Definition no_null (cols : list string) (r : row) : bool := forallb (fun c => negb (bool_decide (r !! c = Some CNull))) cols.
Definition key_unique (rs : list row) (cols : list string) : bool := bool_decide (NoDup (key_of cols <$> List.filter (no_null cols) rs)).

(** Primary key and unconditional unique keys of a table. *)
Definition keys_at (s : schema) (t : string) : list (list string) :=
  match tables s !! t with
  | Some tb => tb_primary_key tb :: (List.filter (fun q => bool_decide (q.2 = ""%string)) (unique_keys s t tb)).*1
  | None => []
  end.

(** Every non-null reference is met. *)
Definition reference_met (t : string) (f : foreign_key) (d : table_rows) : bool :=
  forallb (fun r => match r !! fk_column f with
                    | Some CNull | None => true
                    | Some v => bool_decide (Some v ∈ ((fun u => u !! fk_target f) <$> rows_at (fk_table f) d))
                    end) (rows_at t d).

Section Rows.
Context (pg_upper : Z -> Z) (uuid_in : ustr -> option Z).

(** [USING CASE WHEN c IS NULL THEN NULL ELSE puppytalk_ulid_to_uuid(c) END] *)
Definition using_uuid (v : cell) : option cell :=
  match v with
  | CNull => Some CNull
  | CUlid s => CUuid <$> puppytalk_ulid_to_uuid pg_upper uuid_in s
  | _ => None
  end.
Definition alter_row (c : string) (r : row) : option row :=
  match r !! c with Some v => v' ← using_uuid v; Some (<[c := v']> r) | None => Some r end.

(** What the statements of the revision do to the rows: rewriting a column
    rebuilds the table's unique indexes; adding a foreign key checks it. *)
Definition apply_rows (op : ddl) (s : schema) (d : table_rows) : option table_rows :=
  match op with
  | AlterToUuid t c =>
      rs ← mapM (alter_row c) (rows_at t d);
      guard_then (forallb (key_unique rs) (keys_at s t)) (Some (<[t := rs]> d))
  | CreateForeignKey _ t f => guard_then (reference_met t f d) (Some d)
  | _ => Some d
  end.

(** One transaction: [None] leaves schema and rows as they were. *)
Fixpoint run_ddl (ops : list ddl) (s : schema) (d : table_rows) : option (schema * table_rows) :=
  match ops with
  | [] => Some (s, d)
  | op :: ops' => s' ← apply_ddl op s; d' ← apply_rows op s' d; run_ddl ops' s' d'
  end.
End Rows.

(** ** ULID text *)

(** The 26 characters of a 128-bit identifier. *)
Definition ulid_char (d : Z) : Z := nth (Z.to_nat d) CROCKFORD 0.
Fixpoint ulid_chars (k : nat) (n : Z) : ustr :=
  match k with O => [] | S k' => ulid_chars k' (n / 32) ++ [ulid_char (n mod 32)] end.
Definition ulid_text (n : Z) : ustr := ulid_chars 26 n.

Lemma ulid_char_spec d : 0 <= d < 32 -> ulid_char d ∈ CROCKFORD /\ index_from 0 CROCKFORD (ulid_char d) = Some d.
Proof.
  intros Hd.
  assert (Forall (fun k => ulid_char (Z.of_nat k) ∈ CROCKFORD /\ index_from 0 CROCKFORD (ulid_char (Z.of_nat k)) = Some (Z.of_nat k)) (seq 0 32)) as HF.
  { apply (bool_decide_unpack _). vm_compute. exact I. }
  rewrite Forall_forall in HF. specialize (HF (Z.to_nat d)). rewrite Z2Nat.id in HF by lia. apply HF, elem_of_seq. lia.
Qed.

(** The alphabet is in code point order. *)
Lemma ulid_char_lt d e : 0 <= d < 32 -> 0 <= e < 32 -> (ulid_char d <? ulid_char e) = (d <? e).
Proof.
  intros Hd He.
  assert (Forall (fun k => Forall (fun j => (ulid_char (Z.of_nat k) <? ulid_char (Z.of_nat j)) = (Z.of_nat k <? Z.of_nat j)) (seq 0 32)) (seq 0 32)) as HF.
  { apply (bool_decide_unpack _). vm_compute. exact I. }
  rewrite Forall_forall in HF. specialize (HF (Z.to_nat d)). rewrite Forall_forall in HF. specialize (HF ltac:(apply elem_of_seq; lia) (Z.to_nat e)).
  rewrite !Z2Nat.id in HF by lia. apply HF, elem_of_seq. lia.
Qed.

Lemma ulid_chars_length k n : length (ulid_chars k n) = k.
Proof. revert n. induction k as [|k IH]; intros n; cbn; [done|]. rewrite length_app, IH. cbn. lia. Qed.

Lemma codepoints_ltb_snoc a b x y :
  length a = length b -> codepoints_ltb (a ++ [x]) (b ++ [y]) = codepoints_ltb a b || (bool_decide (a = b) && (x <? y)).
Proof.
  revert b. induction a as [|c a IH]; intros [|e b] Hl; try done; cbn in *.
  - rewrite bool_decide_true by done. destruct (x <? y), (x =? y); done.
  - rewrite (IH b) by lia. rewrite andb_orb_distrib_r, orb_assoc. f_equal. rewrite andb_assoc. f_equal.
    destruct (Z.eqb_spec c e) as [->|Hne]; cbn; [apply bool_decide_ext; split; [by intros ->|by intros [= ->]]|].
    symmetry. apply bool_decide_false. congruence.
Qed.

(** Text order is number order. *)
Lemma ulid_chars_order k n m : 0 <= n -> 0 <= m -> n < 32 ^ Z.of_nat k -> m < 32 ^ Z.of_nat k ->
  codepoints_ltb (ulid_chars k n) (ulid_chars k m) = (n <? m) /\ (ulid_chars k n = ulid_chars k m -> n = m).
Proof.
  revert n m. induction k as [|k IH]; intros n m Hn Hm Hn' Hm'; [cbn in *; lia|].
  rewrite Nat2Z.inj_succ, Z.pow_succ_r in Hn', Hm' by lia.
  pose proof (Z.mod_pos_bound n 32) as Bn. pose proof (Z.mod_pos_bound m 32) as Bm. pose proof (Z.div_mod n 32). pose proof (Z.div_mod m 32).
  destruct (IH (n / 32) (m / 32)) as [IHl IHe]; [apply Z.div_pos; lia|apply Z.div_pos; lia|apply Z.div_lt_upper_bound; lia|apply Z.div_lt_upper_bound; lia|].
  cbn [ulid_chars]. split.
  - rewrite codepoints_ltb_snoc by (rewrite !ulid_chars_length; done). rewrite IHl, ulid_char_lt by lia.
    destruct (decide (n / 32 = m / 32)) as [E|Hne].
    + rewrite E, bool_decide_true by done. lia.
    + rewrite bool_decide_false by auto. lia.
  - intros E. apply app_inj_tail in E as [E1 E2]. apply IHe in E1.
    destruct (ulid_char_spec (n mod 32)) as [_ F]; [lia|]. destruct (ulid_char_spec (m mod 32)) as [_ G]; [lia|].
    rewrite E2, G in F. apply (inj Some) in F. lia.
Qed.

Lemma ulid_text_order n m : uuid_ok n -> uuid_ok m -> codepoints_ltb (ulid_text n) (ulid_text m) = (n <? m).
Proof. unfold uuid_ok. intros. apply (ulid_chars_order 26); lia. Qed.

Lemma hex_loop_digits k n tl : hex_loop k n tl = hex_digits k n ++ tl.
Proof. revert n tl. induction k as [|k IH]; intros n tl; cbn; [done|]. by rewrite IH, <-app_assoc. Qed.

Section Conversion.
Context (pg_upper : Z -> Z) (uuid_in : ustr -> option Z).
(** [upper] leaves digits and capital letters alone; [uuid] reads its own text. *)
Hypothesis pg_upper_capitals : forall c, c ∈ CROCKFORD -> pg_upper c = c.
Hypothesis uuid_in_text : forall n, uuid_ok n -> uuid_in (uuid_str n) = Some n.

Lemma ulid_accumulate_chars k n acc tl :
  0 <= n < 32 ^ Z.of_nat k ->
  ulid_accumulate pg_upper acc (ulid_chars k n ++ tl) = ulid_accumulate pg_upper (acc * 32 ^ Z.of_nat k + n) tl.
Proof.
  revert n acc tl. induction k as [|k IH]; intros n acc tl Hn.
  - cbn in Hn. cbn [ulid_chars app]. f_equal. cbn. lia.
  - rewrite Nat2Z.inj_succ, Z.pow_succ_r in Hn |- * by lia.
    pose proof (Z.mod_pos_bound n 32). pose proof (Z.div_mod n 32).
    cbn [ulid_chars]. rewrite <-app_assoc, IH by (split; [apply Z.div_pos; lia|apply Z.div_lt_upper_bound; lia]).
    cbn [app ulid_accumulate]. destruct (ulid_char_spec (n mod 32)) as [Hin E]; [lia|].
    rewrite pg_upper_capitals, E by done. cbn. f_equal. lia.
Qed.

(** The text of an identifier is converted to that identifier. *)
Lemma ulid_to_uuid_text n : uuid_ok n -> puppytalk_ulid_to_uuid pg_upper uuid_in (ulid_text n) = Some n.
Proof.
  intros Hn. unfold puppytalk_ulid_to_uuid, py_len, ulid_text. rewrite ulid_chars_length.
  change (negb (Z.of_nat 26 =? 26)) with false. cbv iota.
  pose proof (ulid_accumulate_chars 26 n 0 []) as E. rewrite app_nil_r in E. rewrite E by (unfold uuid_ok in Hn; lia).
  cbn [ulid_accumulate mbind option_bind]. rewrite Z.mul_0_l, Z.add_0_l, Z.mod_small by exact Hn.
  rewrite hex_loop_digits, app_nil_r, (take_ge (drop 20 _)) by (rewrite length_drop, hex_digits_length; lia). by apply uuid_in_text.
Qed.
End Conversion.

(** ** Rows under the conversion *)

Definition ulid_value (s : ustr) : Z := fold_left (fun acc c => acc * 32 + default 0 (index_from 0 CROCKFORD c)) s 0.
Definition uuid_cell (v : cell) : cell := match v with CUlid s => CUuid (ulid_value s) | _ => v end.
(** What the columns converted so far hold. *)
Definition uuid_cell_at (converted : list (string * string)) (t c : string) (v : cell) : cell :=
  if decide ((t, c) ∈ converted) then uuid_cell v else v.
Definition uuid_row (converted : list (string * string)) (t : string) (r : row) : row := map_imap (fun c v => Some (uuid_cell_at converted t c v)) r.

Definition canonical (v : cell) : Prop := v = CNull \/ exists n, uuid_ok n /\ v = CUlid (ulid_text n).
Definition ids_canonical (d : table_rows) : Prop :=
  forall t c r v, (t, c) ∈ UUID_COLUMNS -> r ∈ rows_at t d -> r !! c = Some v -> canonical v.
Definition keys_hold (s : schema) (d : table_rows) : Prop := forall t cols, cols ∈ keys_at s t -> key_unique (rows_at t d) cols = true.
Definition references_hold (s : schema) (d : table_rows) : Prop :=
  forall t tb n f, tables s !! t = Some tb -> tb_foreign_keys tb !! n = Some f -> reference_met t f d = true.

Lemma ulid_value_chars k n : 0 <= n < 32 ^ Z.of_nat k -> ulid_value (ulid_chars k n) = n.
Proof.
  revert n. induction k as [|k IH]; intros n Hn; [cbn in *; lia|].
  rewrite Nat2Z.inj_succ, Z.pow_succ_r in Hn by lia. pose proof (Z.mod_pos_bound n 32). pose proof (Z.div_mod n 32).
  cbn [ulid_chars]. unfold ulid_value. rewrite fold_left_app. fold (ulid_value (ulid_chars k (n / 32))).
  rewrite IH by (split; [apply Z.div_pos; lia|apply Z.div_lt_upper_bound; lia]).
  cbn [fold_left]. destruct (ulid_char_spec (n mod 32)) as [_ ->]; [lia|]. cbn. lia.
Qed.

Lemma ulid_value_text n : uuid_ok n -> ulid_value (ulid_text n) = n.
Proof. intros Hn. apply ulid_value_chars. unfold uuid_ok in Hn. lia. Qed.

Lemma uuid_cell_inj v v' : canonical v -> canonical v' -> uuid_cell v = uuid_cell v' -> v = v'.
Proof.
  intros [->|(n & Hn & ->)] [->|(m & Hm & ->)]; cbn [uuid_cell]; rewrite ?ulid_value_text by done; try done. by intros [= ->].
Qed.

Lemma uuid_row_lookup l t r c : uuid_row l t r !! c = uuid_cell_at l t c <$> r !! c.
Proof. unfold uuid_row. rewrite map_lookup_imap. by destruct (r !! c). Qed.

Lemma uuid_row_nil d t : rows_at t d = uuid_row [] t <$> rows_at t d.
Proof.
  rewrite <-(list_fmap_id (rows_at t d)) at 1. apply list_fmap_ext. intros _ r _. apply map_eq. intros c. unfold id. rewrite uuid_row_lookup.
  destruct (r !! c); cbn; [|done]. unfold uuid_cell_at. by rewrite decide_False by apply not_elem_of_nil.
Qed.

Lemma uuid_cell_at_null l t c v : uuid_cell_at l t c v = CNull <-> v = CNull.
Proof. unfold uuid_cell_at. destruct (decide _), v; cbn; done. Qed.

Lemma uuid_row_key l t cols r : key_of cols (uuid_row l t r) = zip_with (fun c v => uuid_cell_at l t c <$> v) cols (key_of cols r).
Proof. unfold key_of. induction cols as [|c cols IH]; cbn; [done|]. by rewrite uuid_row_lookup, IH. Qed.

Lemma uuid_row_no_null l t cols r : no_null cols (uuid_row l t r) = no_null cols r.
Proof.
  unfold no_null. induction cols as [|c cols IH]; cbn; [done|]. f_equal; [|done]. f_equal. rewrite uuid_row_lookup.
  apply bool_decide_ext. destruct (r !! c) as [v|]; cbn; [|done].
  split; intros E; apply (inj Some) in E; f_equal; by apply uuid_cell_at_null in E || (apply (uuid_cell_at_null l t c); exact E).
Qed.

(** Two rows with the same key after the conversion had the same key before. *)
Lemma uuid_row_key_inj l t cols r r' :
  (forall c v, (t, c) ∈ l -> r !! c = Some v -> canonical v) -> (forall c v, (t, c) ∈ l -> r' !! c = Some v -> canonical v) ->
  key_of cols (uuid_row l t r) = key_of cols (uuid_row l t r') -> key_of cols r = key_of cols r'.
Proof.
  intros H H'. unfold key_of. induction cols as [|c cols IH]; cbn; [done|]. rewrite !uuid_row_lookup. intros E. injection E as E1 E2.
  f_equal; [|by apply IH]. unfold uuid_cell_at in E1. destruct (decide ((t, c) ∈ l)) as [Hin|]; [|by rewrite !option_fmap_id in E1].
  destruct (r !! c) as [v|] eqn:Ev, (r' !! c) as [v'|] eqn:Ev'; cbn in E1; try done.
  apply (inj Some) in E1. f_equal. eauto using uuid_cell_inj.
Qed.

Lemma NoDup_fmap_finer {A B C : Type} (f : A -> B) (g : A -> C) (l : list A) :
  (forall x y, x ∈ l -> y ∈ l -> f x = f y -> g x = g y) -> NoDup (g <$> l) -> NoDup (f <$> l).
Proof.
  induction l as [|x l IH]; intros Hfg Hg; [constructor|]. cbn in *. apply NoDup_cons in Hg as [Hx Hg]. constructor.
  - intros (y & Ey & Hy)%list_elem_of_fmap. apply Hx, list_elem_of_fmap. exists y. split; [|done]. apply Hfg; [by left|by right|done].
  - apply IH; [|done]. intros y z Hy Hz. apply Hfg; by right.
Qed.

Definition canonical_rows (l : list (string * string)) (t : string) (rs : list row) : Prop :=
  forall c r v, (t, c) ∈ l -> r ∈ rs -> r !! c = Some v -> canonical v.

Lemma uuid_rows_key_unique l t cols rs :
  canonical_rows l t rs -> key_unique rs cols = true -> key_unique (uuid_row l t <$> rs) cols = true.
Proof.
  unfold key_unique. rewrite !bool_decide_eq_true. intros Hc Hn.
  assert (key_of cols <$> List.filter (no_null cols) (uuid_row l t <$> rs) = (fun r => key_of cols (uuid_row l t r)) <$> List.filter (no_null cols) rs) as ->.
  { clear. induction rs as [|r rs IH]; [done|]. rewrite fmap_cons. cbn [List.filter]. rewrite uuid_row_no_null.
    destruct (no_null cols r); [|done]. rewrite !fmap_cons. by f_equal. }
  revert Hn. apply NoDup_fmap_finer. intros x y Hx Hy. rewrite !list_elem_of_In, !filter_In, <-!list_elem_of_In in Hx, Hy.
  apply uuid_row_key_inj; intros c v Hin E; eapply Hc; eauto; tauto.
Qed.

Lemma uuid_row_snoc_other l t c u r : u <> t -> uuid_row (l ++ [(t, c)]) u r = uuid_row l u r.
Proof.
  intros Hu. apply map_eq. intros k. rewrite !uuid_row_lookup. destruct (r !! k); cbn; [|done]. f_equal. unfold uuid_cell_at.
  destruct (decide ((u, k) ∈ l)), (decide ((u, k) ∈ l ++ [(t, c)])) as [Hin|Hn]; try done; [set_solver|].
  apply elem_of_app in Hin as [?|Hin]; [done|]. apply list_elem_of_singleton in Hin. congruence.
Qed.

(** ** Schema changes of revision 005 leave the keys alone *)

Definition keeps_keys (op : ddl) : bool :=
  match op with DropConstraintIfExists _ _ | AlterToUuid _ _ | CreateForeignKey _ _ _ | OtherStatement => true | _ => false end.

Lemma change_table_keys t f s s' u :
  (forall tb tb', f tb = Some tb' -> tb_primary_key tb' = tb_primary_key tb /\ tb_uniques tb' = tb_uniques tb) ->
  change_table t f s = Some s' -> keys_at s' u = keys_at s u.
Proof.
  intros Hf. unfold change_table. intros (tb & Et & (tb' & Ef & [= <-])%bind_Some)%bind_Some. apply Hf in Ef as [Ep Eu].
  unfold keys_at, unique_keys. cbn. destruct (decide (u = t)) as [->|]; [|by rewrite lookup_insert_ne].
  by rewrite lookup_insert_eq, Et, Ep, Eu.
Qed.

Lemma guard_then_Some {A : Type} (b : bool) (o : option A) x : guard_then b o = Some x <-> b = true /\ o = Some x.
Proof. unfold guard_then. destruct b; intuition discriminate. Qed.

Lemma keeps_keys_apply op s s' t : keeps_keys op = true -> apply_ddl op s = Some s' -> keys_at s' t = keys_at s t.
Proof.
  destruct op; try discriminate; intros _; cbn [apply_ddl].
  - apply change_table_keys. intros tb tb'. by intros [_ <-%(inj Some)]%guard_then_Some.
  - apply change_table_keys. intros tb tb'. by intros <-%(inj Some).
  - intros [_ E]%guard_then_Some. revert E. apply change_table_keys. intros tb tb'. by intros (k & _ & [_ <-%(inj Some)]%guard_then_Some)%bind_Some.
  - by intros <-%(inj Some).
Qed.

Lemma keeps_keys_hold op s s' d : keeps_keys op = true -> apply_ddl op s = Some s' -> keys_hold s d -> keys_hold s' d.
Proof. intros Hk E H t cols. rewrite (keeps_keys_apply _ _ _ t Hk E). apply H. Qed.

(** Converting both ends of a reference, or neither, keeps it met. *)
Lemma reference_met_converted l t f d d' :
  (forall u, rows_at u d' = uuid_row l u <$> rows_at u d) -> ((t, fk_column f) ∈ l <-> (fk_table f, fk_target f) ∈ l) ->
  reference_met t f d = true -> reference_met t f d' = true.
Proof.
  intros Hd Hl. unfold reference_met. rewrite !forallb_forall. intros H r' Hr'. apply list_elem_of_In in Hr'. rewrite Hd in Hr'.
  apply list_elem_of_fmap in Hr' as (r & -> & Hr). specialize (H r (proj1 (list_elem_of_In _ _) Hr)). rewrite uuid_row_lookup, Hd.
  destruct (r !! fk_column f) as [v|] eqn:Ev; cbn [fmap option_fmap option_map]; [|done].
  assert (v <> CNull -> bool_decide (Some (uuid_cell_at l t (fk_column f) v) ∈ ((fun u => u !! fk_target f) <$> (uuid_row l (fk_table f) <$> rows_at (fk_table f) d))) = true) as Hin.
  { intros Hv. apply bool_decide_eq_true. assert (bool_decide (Some v ∈ ((fun u => u !! fk_target f) <$> rows_at (fk_table f) d)) = true) as E by (by destruct v).
    apply bool_decide_eq_true, list_elem_of_fmap in E as (u & Eu & Hu). apply list_elem_of_fmap. exists (uuid_row l (fk_table f) u).
    split; [|by apply list_elem_of_fmap_2]. rewrite uuid_row_lookup, <-Eu. cbn. unfold uuid_cell_at.
    destruct (decide ((t, fk_column f) ∈ l)), (decide ((fk_table f, fk_target f) ∈ l)); tauto. }
  destruct (uuid_cell_at l t (fk_column f) v) eqn:E; [done|..]; apply Hin; intros ->; rewrite (proj2 (uuid_cell_at_null l t _ CNull) eq_refl) in E; discriminate.
Qed.

Section Run.
Context (pg_upper : Z -> Z) (uuid_in : ustr -> option Z).
Hypothesis pg_upper_capitals : forall c, c ∈ CROCKFORD -> pg_upper c = c.
Hypothesis uuid_in_text : forall n, uuid_ok n -> uuid_in (uuid_str n) = Some n.

Lemma using_uuid_canonical v : canonical v -> using_uuid pg_upper uuid_in v = Some (uuid_cell v).
Proof.
  intros [->|(n & Hn & ->)]; [done|]. cbn [using_uuid uuid_cell]. rewrite ulid_to_uuid_text, ulid_value_text by done. done.
Qed.

Lemma alter_row_converts l t c r :
  (t, c) ∉ l -> (forall v, r !! c = Some v -> canonical v) -> alter_row pg_upper uuid_in c (uuid_row l t r) = Some (uuid_row (l ++ [(t, c)]) t r).
Proof.
  intros Hn Hv. unfold alter_row. rewrite uuid_row_lookup. destruct (r !! c) as [v|] eqn:E; cbn [fmap option_fmap option_map].
  - unfold uuid_cell_at. rewrite decide_False by done. rewrite using_uuid_canonical by auto. cbn. f_equal. apply map_eq. intros k.
    rewrite uuid_row_lookup. destruct (decide (k = c)) as [->|Hk].
    + rewrite lookup_insert_eq, E. cbn. unfold uuid_cell_at. rewrite decide_True by set_solver. done.
    + rewrite lookup_insert_ne, uuid_row_lookup by done. destruct (r !! k); cbn; [|done]. f_equal. unfold uuid_cell_at.
      apply decide_ext. set_solver.
  - f_equal. apply map_eq. intros k. rewrite !uuid_row_lookup. destruct (r !! k) eqn:Ek; cbn; [|done]. f_equal. unfold uuid_cell_at.
    apply decide_ext. assert (k <> c) by congruence. set_solver.
Qed.

Lemma run_ddl_app ops ops' s d :
  run_ddl pg_upper uuid_in (ops ++ ops') s d = (p ← run_ddl pg_upper uuid_in ops s d; run_ddl pg_upper uuid_in ops' p.1 p.2).
Proof.
  revert s d. induction ops as [|op ops IH]; intros s d; cbn; [done|].
  destruct (apply_ddl op s); cbn; [|done]. destruct (apply_rows _ _ op _ _); cbn; [apply IH|done].
Qed.

(** One column after the other. *)
Lemma run_alters l cols s s' d d0 :
  NoDup (l ++ cols) -> l ++ cols ⊆ UUID_COLUMNS -> ids_canonical d0 -> keys_hold s d0 ->
  (forall t, rows_at t d = uuid_row l t <$> rows_at t d0) ->
  apply_all ((fun p => AlterToUuid p.1 p.2) <$> cols) s = Some s' ->
  exists d', run_ddl pg_upper uuid_in ((fun p => AlterToUuid p.1 p.2) <$> cols) s d = Some (s', d') /\
    forall t, rows_at t d' = uuid_row (l ++ cols) t <$> rows_at t d0.
Proof.
  revert l s d. induction cols as [|[t c] cols IH]; intros l s d Hnd Hsub Hc Hk Hd.
  - intros [= <-]. exists d. rewrite app_nil_r. done.
  - cbn [fmap list_fmap apply_all run_ddl]. intros (s1 & E1 & E2)%bind_Some. rewrite E1. cbn [mbind option_bind fst snd].
    assert ((t, c) ∉ l) as Hn by (intros ?; apply NoDup_app in Hnd as (_ & Hd' & _); eapply Hd'; [done|by left]).
    assert ((t, c) ∈ UUID_COLUMNS) as Hu by (apply Hsub; set_solver).
    assert (canonical_rows (l ++ [(t, c)]) t (rows_at t d0)) as Hcr.
    { intros k r v Hin. apply Hc, Hsub. set_solver. }
    assert (mapM (alter_row pg_upper uuid_in c) (rows_at t d) = Some (uuid_row (l ++ [(t, c)]) t <$> rows_at t d0)) as Em.
    { rewrite Hd. apply mapM_Some, Forall2_fmap, Forall_Forall2_diag, Forall_forall. intros r Hr.
      apply alter_row_converts; [done|]. intros v Ev. by apply (Hc t c r v). }
    pose proof (keeps_keys_hold (AlterToUuid t c) s s1 d0 eq_refl E1 Hk) as Hk1.
    cbn [apply_rows]. rewrite Em. cbn [mbind option_bind].
    replace (forallb _ (keys_at s1 t)) with true.
    2: { symmetry. apply forallb_forall. intros cols' Hin. apply uuid_rows_key_unique; [done|]. apply Hk1. by apply list_elem_of_In. }
    cbn [guard_then mbind option_bind]. rewrite (assoc_L (++) l [(t, c)] cols : l ++ (t, c) :: cols = _) in *. apply IH; try done.
    intros u. unfold rows_at. destruct (decide (u = t)) as [->|Hut]; [by rewrite lookup_insert_eq|].
    rewrite lookup_insert_ne by done. fold (rows_at u d). fold (rows_at u d0). rewrite Hd. apply list_fmap_ext. intros. symmetry. by apply uuid_row_snoc_other.
Qed.

(** The rows are checked but not changed by the rest of the revision. *)
Definition passes (d : table_rows) (op : ddl) : Prop :=
  match op with AlterToUuid _ _ => False | CreateForeignKey _ t f => reference_met t f d = true | _ => True end.
Lemma run_passes ops s s' d : Forall (passes d) ops -> apply_all ops s = Some s' -> run_ddl pg_upper uuid_in ops s d = Some (s', d).
Proof.
  revert s. induction ops as [|op ops IH]; intros s Hp; [by intros [= <-]|]. apply Forall_cons in Hp as [Ho Hp].
  cbn [apply_all run_ddl]. intros (s1 & E1 & E2)%bind_Some. rewrite E1. cbn [mbind option_bind].
  assert (apply_rows pg_upper uuid_in op s1 d = Some d) as -> by (destruct op; cbn in Ho |- *; try done; by rewrite Ho). by apply IH.
Qed.
End Run.

Lemma apply_all_app ops ops' s : apply_all (ops ++ ops') s = (s' ← apply_all ops s; apply_all ops' s').
Proof. revert s. induction ops as [|op ops IH]; intros s; cbn; [done|]. destruct (apply_ddl op s); cbn; [apply IH|done]. Qed.

Lemma apply_all_keys ops s s' t : Forall (fun op => keeps_keys op = true) ops -> apply_all ops s = Some s' -> keys_at s' t = keys_at s t.
Proof.
  revert s. induction ops as [|op ops IH]; intros s Hk; [by intros [= <-]|]. apply Forall_cons in Hk as [Ho Hk]. cbn.
  intros (s1 & E1 & E2)%bind_Some. rewrite (IH s1) by done. by apply keeps_keys_apply with op.
Qed.

Definition converted_reference (t : string) (f : foreign_key) : bool :=
  bool_decide ((t, fk_column f) ∈ UUID_COLUMNS) && bool_decide ((fk_table f, fk_target f) ∈ UUID_COLUMNS).
Definition untouched_reference (t : string) (f : foreign_key) : bool :=
  bool_decide ((t, fk_column f) ∉ UUID_COLUMNS) && bool_decide ((fk_table f, fk_target f) ∉ UUID_COLUMNS).

#[local] Opaque alembic_upgrade upgrade_005 UUID_COLUMNS FK_TO_CREATE.

(** What revision 005 does to the schema it is written for. *)
Definition conversion_checks (s s' : schema) : bool :=
  forallb (fun p => match tables s !! p.1 with Some tb => bool_decide (tb_foreign_keys tb = tb_foreign_keys p.2) | None => false end &&
                    forallb (fun q => converted_reference p.1 q.2 || untouched_reference p.1 q.2) (map_to_list (tb_foreign_keys p.2)) &&
                    forallb (fun q => negb (bool_decide (co_type q.2 = TUlid))) (map_to_list (tb_columns p.2)))
    (map_to_list (tables s')) &&
  forallb (fun '(n, t, f) => converted_reference t f && bool_decide (tables s !! t ≫= (fun tb => tb_foreign_keys tb !! n) = Some f)) FK_TO_CREATE.

Lemma conversion_checked :
  match alembic_upgrade "004_notifications" with
  | Some s => match apply_all upgrade_005 s with
              | Some s' => bool_decide (alembic_upgrade "005_ulid_to_uuid" = Some s') && conversion_checks s s'
              | None => false
              end
  | None => false
  end = true.
Proof. vm_compute. reflexivity. Qed.

Lemma forallb_map {V : Type} (m : gmap string V) (p : string * V -> bool) :
  forallb p (map_to_list m) = true <-> forall k v, m !! k = Some v -> p (k, v) = true.
Proof.
  rewrite forallb_forall. split; intros H.
  - intros k v E. apply H, list_elem_of_In, elem_of_map_to_list, E.
  - intros [k v] Hin. apply H, elem_of_map_to_list, list_elem_of_In, Hin.
Qed.

Lemma conversion_schema s :
  alembic_upgrade "004_notifications" = Some s ->
  exists s', apply_all upgrade_005 s = Some s' /\ alembic_upgrade "005_ulid_to_uuid" = Some s' /\
    (forall t tb', tables s' !! t = Some tb' ->
       (exists tb, tables s !! t = Some tb /\ tb_foreign_keys tb = tb_foreign_keys tb') /\
       (forall n f, tb_foreign_keys tb' !! n = Some f -> (t, fk_column f) ∈ UUID_COLUMNS <-> (fk_table f, fk_target f) ∈ UUID_COLUMNS) /\
       (forall c k, tb_columns tb' !! c = Some k -> co_type k <> TUlid)) /\
    (forall n t f, (n, t, f) ∈ FK_TO_CREATE ->
       ((t, fk_column f) ∈ UUID_COLUMNS /\ (fk_table f, fk_target f) ∈ UUID_COLUMNS) /\
       exists tb, tables s !! t = Some tb /\ tb_foreign_keys tb !! n = Some f).
Proof.
  intros Es. pose proof conversion_checked as H. rewrite Es in H. destruct (apply_all upgrade_005 s) as [s'|]; [|discriminate H].
  apply andb_true_iff in H as [E5%bool_decide_eq_true H]. unfold conversion_checks in H. apply andb_true_iff in H as [HT HF].
  rewrite forallb_map in HT. rewrite forallb_forall in HF. exists s'. split; [reflexivity|]. split; [exact E5|]. split.
  - intros t tb' Et. specialize (HT _ _ Et). cbn [fst snd] in HT. apply andb_true_iff in HT as [[HT Hr]%andb_true_iff Hc].
    rewrite forallb_map in Hr. rewrite forallb_map in Hc. destruct (tables s !! t) as [tb|]; [|discriminate HT]. split; [|split].
    + exists tb. split; [reflexivity|]. by apply bool_decide_eq_true in HT.
    + intros n f Ef. specialize (Hr _ _ Ef). cbn [snd] in Hr. unfold converted_reference, untouched_reference in Hr.
      apply orb_true_iff in Hr as [[?%bool_decide_eq_true ?%bool_decide_eq_true]%andb_true_iff|[?%bool_decide_eq_true ?%bool_decide_eq_true]%andb_true_iff]; tauto.
    + intros c k Ek. specialize (Hc _ _ Ek). apply negb_true_iff, bool_decide_eq_false in Hc. exact Hc.
  - intros n t f Hin. specialize (HF (n, t, f) (proj1 (list_elem_of_In _ _) Hin)). cbn beta iota in HF.
    apply andb_true_iff in HF as [[?%bool_decide_eq_true ?%bool_decide_eq_true]%andb_true_iff (tb & Et & Ef)%bool_decide_eq_true%bind_Some].
    split; [by split|]. exists tb. by split.
Qed.

Lemma UUID_COLUMNS_NoDup : NoDup UUID_COLUMNS.
Proof. apply (bool_decide_unpack _). vm_compute. exact I. Qed.

Lemma upgrade_005_keeps_keys : Forall (fun op => keeps_keys op = true) upgrade_005.
Proof. apply (bool_decide_unpack _). vm_compute. exact I. Qed.

Lemma drops_pass d : Forall (passes d) (OtherStatement :: ((fun p => DropConstraintIfExists p.1 p.2) <$> FK_TO_DROP)).
Proof. constructor; [exact I|]. apply Forall_fmap, Forall_forall. intros p _. exact I. Qed.
Lemma drops_keep_keys : Forall (fun op => keeps_keys op = true) (OtherStatement :: ((fun p => DropConstraintIfExists p.1 p.2) <$> FK_TO_DROP)).
Proof. constructor; [reflexivity|]. apply Forall_fmap, Forall_forall. intros p _. reflexivity. Qed.

(** C30. Run on the schema of revision 004 and on rows whose ids are
    canonical ULID text, whose keys are unique and whose references are met,
    revision 005 succeeds: every converted column holds the identifier its text
    denotes, every other cell is as it was, keys and references hold of the new
    rows, every foreign key is back as it was, and no column is left in ULID
    text. *)
Theorem ulid_migration_preserves_references (pg_upper : Z -> Z) (uuid_in : ustr -> option Z) (s : schema) (d : table_rows) :
  (forall c, c ∈ CROCKFORD -> pg_upper c = c) -> (forall n, uuid_ok n -> uuid_in (uuid_str n) = Some n) ->
  alembic_upgrade "004_notifications" = Some s -> ids_canonical d -> keys_hold s d -> references_hold s d ->
  exists s' d',
    run_ddl pg_upper uuid_in upgrade_005 s d = Some (s', d') /\ alembic_upgrade "005_ulid_to_uuid" = Some s' /\
    (forall t, rows_at t d' = uuid_row UUID_COLUMNS t <$> rows_at t d) /\ keys_hold s' d' /\ references_hold s' d' /\
    (forall t tb', tables s' !! t = Some tb' -> exists tb, tables s !! t = Some tb /\ tb_foreign_keys tb = tb_foreign_keys tb') /\
    (forall t tb c k, tables s' !! t = Some tb -> tb_columns tb !! c = Some k -> co_type k <> TUlid).
Proof.
  intros Hup Huu Es Hc Hk Hr. destruct (conversion_schema s Es) as (s' & E & E5 & Ht & Hf).
  pose proof (fun t => apply_all_keys _ _ _ t upgrade_005_keeps_keys E) as Hkeys.
  Transparent upgrade_005. unfold upgrade_005 in *. Opaque upgrade_005.
  rewrite app_comm_cons, apply_all_app in E. apply bind_Some in E as (s1 & E1 & E). rewrite apply_all_app in E. apply bind_Some in E as (s2 & E2 & E3).
  assert (keys_hold s1 d) as Hk1.
  { intros t cols. rewrite (apply_all_keys _ _ _ t drops_keep_keys E1). apply Hk. }
  destruct (run_alters pg_upper uuid_in Hup Huu [] UUID_COLUMNS s1 s2 d d UUID_COLUMNS_NoDup (reflexivity _) Hc Hk1 (uuid_row_nil d) E2) as (d' & Ed & Hd).
  cbn [app] in Hd. exists s', d'. split_and!.
  - rewrite app_comm_cons, run_ddl_app, (run_passes _ _ _ _ _ _ (drops_pass d) E1). cbn [mbind option_bind fst snd].
    rewrite run_ddl_app, Ed. cbn [mbind option_bind fst snd]. apply run_passes; [|exact E3].
    apply Forall_app. split; [|by repeat constructor]. apply Forall_fmap, Forall_forall. intros [[n t] f] Hin.
    destruct (Hf n t f Hin) as [[? ?] (tb & Et & Ef)]. cbn. eapply reference_met_converted; [exact Hd|tauto|by eapply Hr].
  - exact E5.
  - exact Hd.
  - intros t cols. rewrite Hkeys, Hd. intros Hin. apply uuid_rows_key_unique; [intros c r v; apply Hc|by apply Hk].
  - intros t tb' n f Et Ef. destruct (Ht t tb' Et) as [(tb & Etb & Eq) [Hb _]]. eapply reference_met_converted; [exact Hd|by eapply Hb|].
    eapply Hr; [exact Etb|]. by rewrite Eq.
  - intros t tb' Et. by apply (Ht t tb' Et).
  - intros t tb c k Et. by apply (Ht t tb Et).
Qed.

(** ** A concrete database before revision 005 *)

Definition canonical_b (v : cell) : bool :=
  match v with
  | CNull => true
  | CUlid x => (0 <=? ulid_value x) && (ulid_value x <? 2 ^ 128) && bool_decide (x = ulid_text (ulid_value x))
  | _ => false
  end.
Lemma canonical_b_spec v : canonical_b v = true -> canonical v.
Proof.
  destruct v as [|x| |]; cbn [canonical_b]; try discriminate; intros E; [by left|]. rewrite !andb_true_iff, bool_decide_eq_true in E. right.
  exists (ulid_value x). unfold uuid_ok. split; [lia|]. f_equal. apply E.
Qed.

Definition ids_canonical_b (d : table_rows) : bool :=
  forallb (fun '(t, c) => forallb (fun r => match r !! c with Some v => canonical_b v | None => true end) (rows_at t d)) UUID_COLUMNS.
Lemma ids_canonical_b_spec d : ids_canonical_b d = true -> ids_canonical d.
Proof.
  unfold ids_canonical_b. rewrite forallb_forall. intros H t c r v Hin Hr Ev. specialize (H (t, c) (proj1 (list_elem_of_In _ _) Hin)).
  cbn beta iota in H. rewrite forallb_forall in H. specialize (H r (proj1 (list_elem_of_In _ _) Hr)). rewrite Ev in H. by apply canonical_b_spec.
Qed.

Definition keys_hold_b (s : schema) (d : table_rows) : bool :=
  forallb (fun p => forallb (key_unique (rows_at p.1 d)) (keys_at s p.1)) (map_to_list (tables s)).
Lemma keys_hold_b_spec s d : keys_hold_b s d = true -> keys_hold s d.
Proof.
  unfold keys_hold_b. rewrite forallb_map. intros H t cols Hin. destruct (tables s !! t) as [tb|] eqn:E.
  - specialize (H t tb E). rewrite forallb_forall in H. by apply H, list_elem_of_In.
  - unfold keys_at in Hin. rewrite E in Hin. by apply elem_of_nil in Hin.
Qed.

Definition references_hold_b (s : schema) (d : table_rows) : bool :=
  forallb (fun p => forallb (fun q => reference_met p.1 q.2 d) (map_to_list (tb_foreign_keys p.2))) (map_to_list (tables s)).
Lemma references_hold_b_spec s d : references_hold_b s d = true -> references_hold s d.
Proof.
  unfold references_hold_b. rewrite forallb_map. intros H t tb n f Et Ef. specialize (H t tb Et). cbn in H. rewrite forallb_map in H.
  exact (H n f Ef).
Qed.

(** Two users, one with a picture; a post without author, liked by both; a
    comment and a reply. *)
Definition ulid_rows : table_rows :=
  let u := 2069150229347843328041472000001 in let v := 2069150229347843328041472000002 in
  let id k := CUlid (ulid_text k) in
  list_to_map
    [("users"%string, [list_to_map [("id"%string, id u); ("email"%string, COther 1); ("nickname"%string, COther 1); ("profile_image_id"%string, id 9)];
                       list_to_map [("id"%string, id v); ("email"%string, COther 2); ("nickname"%string, COther 2); ("profile_image_id"%string, CNull)]]);
     ("images"%string, [list_to_map [("id"%string, id 9); ("uploader_id"%string, id u)]]);
     ("posts"%string, [list_to_map [("id"%string, id 20); ("user_id"%string, CNull); ("title"%string, COther 1)]]);
     ("post_likes"%string, [list_to_map [("post_id"%string, id 20); ("user_id"%string, id u)]; list_to_map [("post_id"%string, id 20); ("user_id"%string, id v)]]);
     ("comments"%string, [list_to_map [("id"%string, id 30); ("post_id"%string, id 20); ("author_id"%string, id v); ("parent_id"%string, CNull)];
                          list_to_map [("id"%string, id 31); ("post_id"%string, id 20); ("author_id"%string, id u); ("parent_id"%string, id 30)]])].

Definition ascii_upper (c : Z) : Z := if between 97 122 c then c - 32 else c.
Definition python_uuid (x : ustr) : option Z := match @UUID_of_str ascii_db x with inr n => Some n | inl _ => None end.

Lemma ascii_upper_capitals c : c ∈ CROCKFORD -> ascii_upper c = c.
Proof.
  assert (Forall (fun c => ascii_upper c = c) CROCKFORD) as H by (apply (bool_decide_unpack _); vm_compute; exact I).
  rewrite Forall_forall in H. apply H.
Qed.
Lemma python_uuid_text n : uuid_ok n -> python_uuid (uuid_str n) = Some n.
Proof. intros Hn. unfold python_uuid. by rewrite uuid_str_codec. Qed.

Lemma ulid_rows_checked :
  match alembic_upgrade "004_notifications" with
  | Some s => ids_canonical_b ulid_rows && keys_hold_b s ulid_rows && references_hold_b s ulid_rows
  | None => false
  end = true.
Proof. vm_compute. reflexivity. Qed.

Lemma ulid_migration_preserves_references_witness :
  exists s s' d', run_ddl ascii_upper python_uuid upgrade_005 s ulid_rows = Some (s', d') /\
    rows_at "post_likes" d' =
      [list_to_map [("post_id"%string, CUuid 20); ("user_id"%string, CUuid 2069150229347843328041472000001)];
       list_to_map [("post_id"%string, CUuid 20); ("user_id"%string, CUuid 2069150229347843328041472000002)]].
Proof.
  pose proof ulid_rows_checked as H. destruct (alembic_upgrade "004_notifications") as [s|] eqn:Es; [|discriminate H].
  apply andb_true_iff in H as [[Hc Hk]%andb_true_iff Hr].
  destruct (ulid_migration_preserves_references ascii_upper python_uuid s ulid_rows ascii_upper_capitals python_uuid_text Es
    (ids_canonical_b_spec _ Hc) (keys_hold_b_spec _ _ Hk) (references_hold_b_spec _ _ Hr)) as (s' & d' & Ed & _ & Hd & _).
  exists s, s', d'. split; [exact Ed|]. rewrite Hd. apply (bool_decide_unpack _). vm_compute. exact I.
Defined.

(** A text above [7ZZZ...] wraps around: two of them share one identifier. *)
Example overflowing_ulids_collide :
  puppytalk_ulid_to_uuid ascii_upper python_uuid (lit "80000000000000000000000005") = Some 5 /\
  puppytalk_ulid_to_uuid ascii_upper python_uuid (lit "00000000000000000000000005") = Some 5 /\
  puppytalk_ulid_to_uuid ascii_upper python_uuid (lit "7ZZZZZZZZZZZZZZZZZZZZZZZZZ") = Some (2 ^ 128 - 1) /\
  puppytalk_ulid_to_uuid ascii_upper python_uuid (lit "01ARZ3NDEKTSV4RRFFQ69G5FAV") = puppytalk_ulid_to_uuid ascii_upper python_uuid (lit "01arz3ndektsv4rrffq69g5fav") /\
  puppytalk_ulid_to_uuid ascii_upper python_uuid (lit "0000000000000000000000000U") = None.
Proof. vm_compute. repeat split. Qed.

(** ** The whole chain *)

Lemma same_elements_spec {A : Type} `{EqDecision A} (l l' : list A) : same_elements l l' = true -> forall x, x ∈ l <-> x ∈ l'.
Proof.
  unfold same_elements. rewrite andb_true_iff, !forallb_forall. intros [H H'] x.
  split; intros Hx; eapply bool_decide_eq_true_1; [apply H|apply H']; by apply list_elem_of_In.
Qed.

(** Two schemas hold their rows to the same rules. *)
Definition equivalent_schemas (s s' : schema) : Prop :=
  forall t, match tables s !! t, tables s' !! t with
            | Some tb, Some tb' =>
                tb_columns tb = tb_columns tb' /\ tb_primary_key tb = tb_primary_key tb' /\ tb_checks tb = tb_checks tb' /\
                (forall f, f ∈ (map_to_list (tb_foreign_keys tb)).*2 <-> f ∈ (map_to_list (tb_foreign_keys tb')).*2) /\
                (forall k, k ∈ unique_keys s t tb <-> k ∈ unique_keys s' t tb')
            | None, None => True
            | _, _ => False
            end.

Lemma same_rules_spec s s' : same_rules s s' = true -> equivalent_schemas s s'.
Proof.
  unfold same_rules. rewrite andb_true_iff, !forallb_map. intros [H H'] t. destruct (tables s !! t) as [tb|] eqn:E.
  - specialize (H t tb E). cbn [fst snd] in H. destruct (tables s' !! t) as [tb'|]; [|discriminate H]. unfold same_table in H.
    rewrite !andb_true_iff, !bool_decide_eq_true in H. destruct H as [[[[? ?] Hf] Hu] ?]. split_and!; try assumption; by apply same_elements_spec.
  - destruct (tables s' !! t) as [tb'|] eqn:E'; [|exact I]. specialize (H' t tb' E'). cbn [fst] in H'. rewrite E in H'. by apply bool_decide_eq_true, is_Some_None in H'.
Qed.

(** Indexes of the database no mapped class declares. *)
Definition UNDECLARED : list string := ["ix_categories_name"; "ix_hashtags_name"; "ix_post_images_image_id"; "ix_posts_deleted_at_id"]%string.

Lemma undeclared_spec s s' (l : list string) : forallb (fun n => bool_decide (n ∈ l)) (undeclared s s') = true ->
  forall n i, indexes s !! n = Some i -> ix_unique i = false -> indexes s' !! n = Some i \/ n ∈ l.
Proof.
  rewrite forallb_forall. intros H n i E Hu. destruct (decide (indexes s' !! n = Some i)) as [|Hn]; [by left|]. right.
  eapply bool_decide_eq_true_1, H, list_elem_of_In. unfold undeclared. apply list_elem_of_fmap. exists (n, i). split; [done|].
  unfold lookup_indexes. rewrite !list_elem_of_In, !filter_In, <-!list_elem_of_In, elem_of_map_to_list. cbn. rewrite Hu, bool_decide_false by done. done.
Qed.

Lemma undeclared_nil s s' : undeclared s s' = [] -> forall n i, indexes s !! n = Some i -> ix_unique i = false -> indexes s' !! n = Some i.
Proof.
  intros E n i Hi Hu. destruct (undeclared_spec s s' [] ltac:(by rewrite E) n i Hi Hu) as [?|Hin]; [done|by apply elem_of_nil in Hin].
Qed.

Lemma chain_checked :
  match REVISION_PATH with
  | Some path =>
      same_elements (rv_id <$> path) (rv_id <$> VERSIONS) && bool_decide (NoDup (rv_id <$> path)) && bool_decide (NoDup (rv_id <$> VERSIONS)) &&
      match upgrade_all path empty_schema with
      | Some s => same_rules s METADATA && bool_decide (undeclared METADATA s = []) && forallb (fun n => bool_decide (n ∈ UNDECLARED)) (undeclared s METADATA)
      | None => false
      end
  | None => false
  end = true.
Proof. vm_compute. reflexivity. Qed.

(** C31. The revisions form one line that uses each of them once;
    from an empty database it succeeds and ends in a schema with the rules of
    the mapped classes: same tables, columns, primary keys, foreign keys with
    their actions, unique keys and checks.  Every declared index exists; four
    more exist that no class declares. *)
Theorem migrations_reach_declared_schema :
  exists path s, REVISION_PATH = Some path /\ rv_id <$> path ≡ₚ rv_id <$> VERSIONS /\ upgrade_all path empty_schema = Some s /\
    equivalent_schemas s METADATA /\
    (forall n i, indexes METADATA !! n = Some i -> ix_unique i = false -> indexes s !! n = Some i) /\
    (forall n i, indexes s !! n = Some i -> ix_unique i = false -> indexes METADATA !! n = Some i \/ n ∈ UNDECLARED).
Proof.
  pose proof chain_checked as H. destruct REVISION_PATH as [path|]; [|discriminate H]. apply andb_true_iff in H as [Hp H].
  destruct (upgrade_all path empty_schema) as [s|] eqn:Es; [|discriminate H]. rewrite !andb_true_iff in H, Hp. destruct H as [[Hs Hd] Hu], Hp as [[Hp Hn] Hn'].
  exists path, s. split; [reflexivity|]. split; [|split; [exact Es|split; [exact (same_rules_spec _ _ Hs)|split]]].
  - apply bool_decide_eq_true_1 in Hn, Hn'. apply list.NoDup_Permutation; [exact Hn|exact Hn'|]. exact (same_elements_spec _ _ Hp).
  - apply bool_decide_eq_true_1 in Hd. exact (undeclared_nil _ _ Hd).
  - exact (undeclared_spec _ _ _ Hu).
Qed.

(** Stepping back from each revision in turn. *)
Fixpoint downgrades_checked (rs : list revision) (s : schema) : bool :=
  match rs with
  | [] => true
  | r :: rs' =>
      match apply_all (rv_upgrade r) s with
      | Some s' => match rv_downgrade r with
                   | Some ops => bool_decide (apply_all ops s' = Some s)
                   | None => bool_decide (rv_id r = "005_ulid_to_uuid"%string)
                   end && downgrades_checked rs' s'
      | None => false
      end
  end.

Lemma downgrades_checked_at before r after s s1 s2 :
  downgrades_checked (before ++ r :: after) s = true -> upgrade_all before s = Some s1 -> apply_all (rv_upgrade r) s1 = Some s2 ->
  match rv_downgrade r with Some ops => apply_all ops s2 = Some s1 | None => rv_id r = "005_ulid_to_uuid"%string end.
Proof.
  revert s. induction before as [|b before IH]; intros s; cbn [app downgrades_checked upgrade_all].
  - intros H Es E. apply (inj Some) in Es as ->. rewrite E in H. apply andb_true_iff in H as [H _].
    destruct (rv_downgrade r); by apply bool_decide_eq_true_1 in H.
  - intros H (s0 & E0 & Es)%bind_Some E. rewrite E0 in H. apply andb_true_iff in H as [_ H]. by apply (IH s0).
Qed.

Lemma downgrade_path_checked : match REVISION_PATH with Some path => downgrades_checked path empty_schema | None => false end = true.
Proof. vm_compute. reflexivity. Qed.

(** On the way from an empty database, the downgrade of each revision restores
    exactly the schema the revision found; only the conversion to [uuid] has none. *)
Theorem downgrades_restore before r after s s' :
  REVISION_PATH = Some (before ++ r :: after) -> upgrade_all before empty_schema = Some s -> apply_all (rv_upgrade r) s = Some s' ->
  match rv_downgrade r with Some ops => apply_all ops s' = Some s | None => rv_id r = "005_ulid_to_uuid"%string end.
Proof.
  intros Ep. pose proof downgrade_path_checked as H. rewrite Ep in H. by apply downgrades_checked_at with after.
Qed.

(** ** The repair of revision 008 *)

(** [SELECT d2.id ... WHERE d2.owner_id = owner AND d2.is_representative ORDER BY d2.id LIMIT 1] *)
Definition first_representative (owner : Z) (d : db) : option Z :=
  head (order_by id Z.ltb (fst <$> select_where (fun _ (g : DogProfile) => bool_decide (owner_id g = owner) && is_representative g) d)).

(** [UPDATE dog_profiles SET is_representative = false WHERE is_representative AND id <> (...)] *)
Definition demote_extra_representatives (d : db) : db :=
  update_where (fun k (g : DogProfile) => is_representative g && negb (bool_decide (first_representative (owner_id g) d = Some k)))
    (fun g : DogProfile => g <| is_representative := false |>) d.

Lemma first_representative_spec owner d k :
  first_representative owner d = Some k <->
  (exists g, dogs d !! k = Some g /\ owner_id g = owner /\ is_representative g = true) /\
  (forall k' g', dogs d !! k' = Some g' -> owner_id g' = owner -> is_representative g' = true -> k <= k').
Proof.
  unfold first_representative. set (ids := fst <$> select_where _ d).
  assert (forall j, j ∈ ids <-> exists g, dogs d !! j = Some g /\ owner_id g = owner /\ is_representative g = true) as Hids.
  { intros j. unfold ids. rewrite list_elem_of_fmap. split.
    - intros ([j' g] & -> & Hin). apply select_where_elem in Hin as [Eg Hc]. cbn in *. apply andb_true_iff in Hc as [?%bool_decide_eq_true ?]. by exists g.
    - intros (g & Eg & Ho & Hr). exists (j, g). split; [done|]. apply select_where_elem. rewrite Hr, bool_decide_true by done. done. }
  pose proof (order_by_sorted id Z.ltb ids) as Hs. pose proof (order_by_perm id Z.ltb ids) as Hp.
  destruct (order_by id Z.ltb ids) as [|x l]; cbn [head].
  - split; [done|]. intros [Hk _]. apply Hids in Hk. rewrite <-Hp in Hk. by apply elem_of_nil in Hk.
  - apply StronglySorted_inv in Hs as [_ Hx]. rewrite Forall_forall in Hx. unfold not_after, id in Hx.
    assert (forall j, j ∈ ids -> x <= j) as Hmin.
    { intros j Hj. rewrite <-Hp in Hj. apply elem_of_cons in Hj as [->|Hj]; [lia|]. specialize (Hx j Hj). lia. }
    assert (x ∈ ids) as Hxin by (rewrite <-Hp; by left). split.
    + intros [= ->]. split; [by apply Hids|]. intros k' g' E Ho Hr. apply Hmin, Hids. by exists g'.
    + intros [Hk Hle]. apply Hids in Hk as Hk'. f_equal. apply Hmin in Hk'. apply Hids in Hxin as (g & Eg & Ho & Hr). specialize (Hle _ _ Eg Ho Hr). lia.
Qed.

Lemma first_representative_exists k g d : dogs d !! k = Some g -> is_representative g = true -> is_Some (first_representative (owner_id g) d).
Proof.
  intros E Hr. unfold first_representative. set (sel := select_where _ d).
  assert (k ∈ fst <$> sel) as Hin.
  { apply list_elem_of_fmap. exists (k, g). split; [done|]. apply select_where_elem. rewrite Hr, bool_decide_true by done. done. }
  rewrite <-(order_by_perm id Z.ltb) in Hin. destruct (order_by id Z.ltb (fst <$> sel)); [by apply elem_of_nil in Hin|]. by eexists.
Qed.

Lemma demoted_lookup d k :
  dogs (demote_extra_representatives d) !! k =
  (fun g : DogProfile => if is_representative g && negb (bool_decide (first_representative (owner_id g) d = Some k)) then g <| is_representative := false |> else g) <$> dogs d !! k.
Proof. cbn. rewrite map_lookup_imap. by destruct (dogs d !! k). Qed.

(** The repair changes only the flag, and clears it everywhere but on the
    earliest representative of each owner: the unique index can then be built,
    and no owner is left without a representative. *)
Theorem representatives_repaired d :
  let d' := demote_extra_representatives d in
  (forall k g, dogs d' !! k = Some g /\ is_representative g = true <-> dogs d !! k = Some g /\ first_representative (owner_id g) d = Some k) /\
  (forall k k' g g', dogs d' !! k = Some g -> dogs d' !! k' = Some g' -> is_representative g = true -> is_representative g' = true ->
     owner_id g = owner_id g' -> k = k') /\
  (forall k g, dogs d !! k = Some g -> is_representative g = true ->
     exists k0 g0, dogs d' !! k0 = Some g0 /\ owner_id g0 = owner_id g /\ is_representative g0 = true /\ k0 <= k) /\
  (forall k g, dogs d !! k = Some g -> dogs d' !! k = Some g \/ dogs d' !! k = Some (g <| is_representative := false |>)).
Proof.
  cbv zeta.
  assert (forall k g, dogs (demote_extra_representatives d) !! k = Some g /\ is_representative g = true <->
            dogs d !! k = Some g /\ first_representative (owner_id g) d = Some k) as H.
  { intros k g. rewrite demoted_lookup. split.
    - intros [(g0 & -> & E)%fmap_Some Hr]. destruct (is_representative g0) eqn:E0; cbn [andb] in E; [|subst g; congruence].
      case_bool_decide; cbn in E; subst g; [done|discriminate Hr].
    - intros [E Hf]. rewrite E. cbn. rewrite bool_decide_true, andb_false_r by done. split; [done|].
      apply first_representative_spec in Hf as [(g' & E' & _ & Hr) _]. congruence. }
  split; [exact H|]. split; [|split].
  - intros k k' g g' E E' Hr Hr' Ho. apply (conj E), H in Hr as [_ Hf]. apply (conj E'), H in Hr' as [_ Hf']. congruence.
  - intros k g E Hr. destruct (first_representative_exists k g d E Hr) as [k0 Ef].
    pose proof Ef as Ef'. apply first_representative_spec in Ef' as [(g0 & E0 & Ho & Hr0) Hle].
    destruct (proj2 (H k0 g0)) as [? ?]; [split; [done|by rewrite Ho]|]. exists k0, g0. eauto.
  - intros k g E. rewrite demoted_lookup, E. cbn. destruct (_ && _); auto.
Qed.
