(* ===== verification/GrantAdmin.v ===== *)
(** * Granting and revoking the administrator role ([scripts/grant_admin.py])

    The operator's command: the arguments, the change of the row, the
    invalidation of the cached snapshots after the commit, exit codes.  On a
    reachable Redis the change decides the very next request; a request already
    between its read of the row and its write of the cache can undo that. *)

From S2P Require Import Prelude Ids Common Redis Db World Media Users Auth Routes.

Definition ROLE_ADMIN : ustr := lit "ADMIN".
Definition ROLE_USER : ustr := lit "USER".

Section Script.
Context `{UnicodeDB}.

(** [_open_redis]: false without a configured client; [ping] raises when Redis
    does not answer. *)
Definition open_redis (present : bool) : M world bool :=
  if present then on_redis (command (fun _ s => (inr tt, s))) ;; mret true else mret false.

(** The lines printed by [_list_admins]; rows created at the same moment come in
    table order. *)
Definition list_admins (d : db) : list (ustr * ustr * UserStatus) :=
  (fun p => (email p.2, nickname p.2, status p.2)) <$>
  order_by (fun p : Z * User => user_created_at p.2) Z.ltb
    (select_where (fun _ u => bool_decide (role u = ROLE_ADMIN) && bool_decide (user_deleted_at u = None)) d).

(** The transaction of [_set_role]: the account found. *)
Definition role_row (mail wanted : ustr) : M db (option Z) :=
  o ← get_user_by_email mail;
  match o with
  | None => mret None
  | Some (k, u) =>
      (if decide (role u = wanted) then mret tt
       else update_one_returning (fun i _ => bool_decide (i = k)) (fun u : User => u <| role := wanted |>) (fun i _ => Some i) ;; mret tt) ;;
      mret (Some k)
  end.
(** [_set_role]: the exit code. *)
Definition set_role (present : bool) (mail wanted : ustr) : M world Z :=
  found ← on_db (begin_tx (role_row mail wanted));
  match found with
  | None => mret 1
  | Some k =>
      redis ← open_redis present;
      (if redis : bool then invalidate_user_status_cache true k else mret tt) ;;
      mret 0
  end.

Record arguments := { ar_email : option ustr; ar_revoke : bool; ar_list : bool }.

(** [parser.error] exits with 2. *)
Definition main (present : bool) (a : arguments) : M world Z :=
  if ar_list a then mret 0
  else match ar_email a with
       | None | Some [] => mret 2
       | Some mail => set_role present mail (if ar_revoke a then ROLE_USER else ROLE_ADMIN)
       end.

(** ** What the command does *)

Definition with_role (wanted : ustr) (u : User) : User := u <| role := wanted |>.

Lemma with_role_same u : with_role (role u) u = u.
Proof. by destruct u. Qed.

Lemma same_users d : (d <| users := users d |>) = d.
Proof. by destruct d. Qed.

Lemma role_row_runs mail wanted k u d :
  users_unique d -> users d !! k = Some u -> user_deleted_at u = None -> lower mail = email u ->
  role_row mail wanted d = (inr (Some k), d <| users := <[k := with_role wanted u]> (users d) |>).
Proof.
  intros Huq Hu Hd Hm. unfold role_row. unfold mbind at 1, M_bind at 1. rewrite (get_user_by_email_found mail k u) by done.
  unfold mbind at 1, M_bind at 1. destruct (decide (role u = wanted)) as [<-|Hr].
  - rewrite with_role_same, insert_id, same_users by done. done.
  - unfold mbind at 1, M_bind at 1. rewrite update_one_returning_id. cbn [rows users_table]. by rewrite Hu.
Qed.

(** The command on a live account, whatever Redis does: the row has the role.
    It fails only when Redis is configured and does not answer the ping. *)
Lemma set_role_row present mail wanted k u w :
  users_unique (w_db w) -> users (w_db w) !! k = Some u -> user_deleted_at u = None -> lower mail = email u ->
  exists o w', set_role present mail wanted w = (o, w') /\
    w_db w' = (w_db w <| users := <[k := with_role wanted u]> (users (w_db w)) |>) /\
    (o = inr 0 \/ present = true /\ ~ redis_up w) /\
    (present = true -> redis_up w -> redis_up w' /\ r_data (w_redis w') !! user_auth_cache_key k = None).
Proof.
  intros Huq Hu Hd Hm. unfold set_role. unfold mbind at 1, M_bind at 1. unfold on_db, begin_tx. rewrite (role_row_runs mail wanted k u) by done.
  set (w1 := w <| w_db := _ |>). change (w_db w <| users := _ |>) with (w_db w1). unfold mbind at 1, M_bind at 1. unfold open_redis.
  destruct present; [|eexists _, _; split; [reflexivity|]; split; [done|]; split; [by left|done]].
  unfold mbind at 1, M_bind at 1. pose proof (on_redis_only (command (fun _ s => (inr tt, s))) w1) as Ho.
  pose proof (on_redis_quiet (fun _ s => (inr tt, s)) w1) as Hqt.
  destruct (on_redis _ w1) as [[e|[]] w2]; cbn [fst snd] in *.
  - exists (inl e), w2. split; [done|]. split; [apply only_redis_db, Ho|].
    split; [right; split; [done|]|intros _]; intros Hq; by specialize (Hqt Hq).
  - cbn [mret M_ret]. unfold mbind, M_bind. destruct (invalidate_runs true k w2) as (w3 & E3 & Hi & Hk). rewrite E3. cbn [fst snd mret M_ret].
    exists (inr 0), w3. split; [done|]. split; [by rewrite (only_redis_db _ _ Hi), (only_redis_db _ _ Ho)|]. split; [by left|].
    intros _ Hq. destruct Hk as (Hq3 & _ & Hk & _); [done| |done]. specialize (Hqt Hq). injection Hqt as ->. done.
Qed.

(** No live account has the address: nothing changes, exit code 1. *)
Lemma set_role_unknown present mail wanted w : get_user_by_email mail (w_db w) = (inr None, w_db w) ->
  set_role present mail wanted w = (inr 1, w).
Proof.
  intros E. unfold set_role. unfold mbind at 1, M_bind at 1. unfold on_db, begin_tx, role_row. unfold mbind at 1, M_bind at 1. rewrite E.
  cbn. by destruct w.
Qed.

Section Effect.
Context (jwt_decode : ustr -> option claims).
Context (snapshot_dump : ustr -> CurrentUser -> ustr) (snapshot_load : ustr -> option (option ustr * option CurrentUser)).

(** On a reachable Redis the command succeeds for every live account,
    changes that row's role only, and from then on administration is decided by
    the new role: with a token of the user, at any later time and whatever snapshot
    had been cached before, an active account that is not logged out is let in
    exactly if it was made administrator. *)
Theorem role_change_takes_effect (mail wanted : ustr) (k : Z) (u : User) (w : world) :
  redis_up w -> users_unique (w_db w) -> users (w_db w) !! k = Some u -> user_deleted_at u = None -> lower mail = email u ->
  exists w', set_role true mail wanted w = (inr 0, w') /\
    w_db w' = (w_db w <| users := <[k := with_role wanted u]> (users (w_db w)) |>) /\
    (forall dt auth token c, bearer_token auth = Some token -> token_of jwt_decode (lit "access") token c k ->
       (get_current_admin jwt_decode snapshot_dump snapshot_load true auth (later dt w')).1 =
         if logged_out c (later dt w') then inl UnauthorizedException
         else if bool_decide (status u = ACTIVE) && bool_decide (wanted = ROLE_ADMIN) then inr (current_user_of k (with_role wanted u))
         else inl ForbiddenException).
Proof.
  intros Hq Huq Hu Hd Hm. destruct (set_role_row true mail wanted k u w Huq Hu Hd Hm) as (o & w' & E & Hdb & Ho & Hq').
  destruct (Hq' eq_refl Hq) as [Hqu Hk]. destruct Ho as [->|[_ Ho]]; [|done]. exists w'. split; [done|]. split; [done|].
  intros dt auth token c Hb Ht. unfold get_current_admin, get_current_user. rewrite Hb. unfold mbind, M_bind.
  pose proof (resolve_by_row jwt_decode snapshot_dump snapshot_load token c k (later dt w') Hqu Ht) as R.
  specialize (R ltac:(by apply live_absent)).
  unfold get_user_by_id in R. cbn [later w_db over] in R. rewrite Hdb in R. cbn [users over] in R. rewrite lookup_insert_eq in R.
  cbn [mbind option_bind] in R. rewrite decide_True in R by done. cbn [status with_role over] in R.
  destruct (resolve_access_token_user _ _ _ _ _ _) as [[e|cu] w1]; cbn [fst] in R |- *.
  - destruct (logged_out _ _); [done|]. by destruct (bool_decide (status u = ACTIVE)).
  - destruct (logged_out _ _); [done|]. destruct (bool_decide (status u = ACTIVE)); [|done]. injection R as ->. cbn [cu_role current_user_of role with_role over].
    unfold ROLE_ADMIN. destruct (decide _), (bool_decide_reflect (wanted = lit "ADMIN")); done.
Qed.

(** A request that has read the row before the command commits and writes the
    snapshot after the command has deleted it brings the revoked role back for
    the lifetime of the snapshot: the two statements of [resolve_from_db], with
    the command between them. *)
Theorem racing_request_restores_role (mail : ustr) (k : Z) (u : User) (w : world) :
  redis_up w -> users_unique (w_db w) -> users (w_db w) !! k = Some u -> user_deleted_at u = None -> lower mail = email u ->
  status u = ACTIVE -> role u = ROLE_ADMIN ->
  snapshot_load (snapshot_dump (lit "ACTIVE") (current_user_of k u)) = Some (Some (lit "ACTIVE"), Some (current_user_of k u)) ->
  exists w1 w2, set_role true mail ROLE_USER w = (inr 0, w1) /\
    (set_auth_cache_best_effort snapshot_dump k (lit "ACTIVE") (current_user_of k u) ;; set_user_status_cache_best_effort k (lit "ACTIVE")) w1 = (inr tt, w2) /\
    (forall dt auth token c, 0 <= dt < USER_STATUS_CACHE_TTL_SECONDS -> bearer_token auth = Some token ->
       token_of jwt_decode (lit "access") token c k -> logged_out c (later dt w2) = false ->
       (get_current_admin jwt_decode snapshot_dump snapshot_load true auth (later dt w2)).1 = inr (current_user_of k u)).
Proof.
  intros Hq Huq Hu Hd Hm Hs Hr Hl. destruct (set_role_row true mail ROLE_USER k u w Huq Hu Hd Hm) as (o & w1 & E & Hdb & Ho & Hq').
  destruct (Hq' eq_refl Hq) as [Hq1 _]. destruct Ho as [->|[_ Ho]]; [|done]. exists w1.
  unfold set_auth_cache_best_effort, set_user_status_cache_best_effort. unfold mbind at 1, M_bind at 1. rewrite best_effort_set_quiet by done.
  rewrite best_effort_set_quiet by done. eexists. split; [done|]. split; [reflexivity|]. intros dt auth token c Hdt Hb Ht Hlo.
  unfold get_current_admin, get_current_user. rewrite Hb. unfold resolve_access_token_user, verify_access_token. destruct Ht as (-> & sub & Es & Ek).
  set (w3 := later dt _) in *. assert (redis_up w3) as Hq3 by done.
  assert (live (r_now (w_redis w3)) (r_data (w_redis w3)) (user_auth_cache_key k) = Some (RStr (snapshot_dump (lit "ACTIVE") (current_user_of k u)))) as Hc.
  { unfold live, w3. cbn [later with_data w_redis over r_data r_now]. rewrite lookup_insert_ne by discriminate. rewrite lookup_insert_eq.
    unfold expired. cbn [r_exp r_val]. unfold USER_STATUS_CACHE_TTL_SECONDS in *. destruct (Z.leb_spec (r_now (w_redis w1) + 240) (r_now (w_redis w1) + dt)); [lia|done]. }
  unfold mbind at 1, M_bind at 1. unfold mbind at 1, M_bind at 1. rewrite blacklist_check, Hlo, Es, Ek by done.
  unfold mbind at 1, M_bind at 1. unfold get_auth_cache, try_except, redis_get. unfold mbind at 1, M_bind at 1.
  rewrite on_redis_quiet by done. unfold c_get. rewrite Hc. cbn [fst snd mret M_ret mbind option_bind]. rewrite Hl.
  change (negb (is_active_value (lit "ACTIVE"))) with false. cbv iota beta. cbn [mret M_ret]. unfold ROLE_ADMIN in Hr.
  by rewrite decide_True by exact Hr.
Qed.
End Effect.
End Script.

Lemma role_change_takes_effect_witness :
  exists w', set_role (H := ascii_db) true (email demo_user) ROLE_ADMIN demo_auth_world = (inr 0, w') /\
    (get_current_admin (H := ascii_db) demo_jwt (fun _ _ => []) (fun _ => None) true (Some (lit "Bearer a")) (later 9 w')).1 =
      inr (current_user_of 7 (with_role ROLE_ADMIN demo_user)).
Proof.
  destruct (role_change_takes_effect (H := ascii_db) demo_jwt (fun _ _ => []) (fun _ => None) (email demo_user) ROLE_ADMIN 7 demo_user demo_auth_world)
    as (w' & E & _ & Ha).
  - reflexivity.
  - exact demo_auth_unique.
  - vm_compute. reflexivity.
  - reflexivity.
  - vm_compute. reflexivity.
  - exists w'. split; [exact E|].
    rewrite (Ha 9 (Some (lit "Bearer a")) (lit "a") (demo_claims (lit "access"))).
    + assert (w' = (set_role (H := ascii_db) true (email demo_user) ROLE_ADMIN demo_auth_world).2) as -> by (by rewrite E). vm_compute. reflexivity.
    + vm_compute. reflexivity.
    + apply demo_token_of. vm_compute. reflexivity.
Defined.

Definition demo_snapshot : CurrentUser := current_user_of 7 (with_role ROLE_ADMIN demo_user).
Lemma racing_request_restores_role_witness :
  exists w1 w2, set_role (H := ascii_db) true (email demo_user) ROLE_USER (demo_auth_world <| w_db := empty_db <| users := {[7 := with_role ROLE_ADMIN demo_user]} |> |>) = (inr 0, w1) /\
    (get_current_admin (H := ascii_db) demo_jwt (fun _ _ => [1]) (fun _ => Some (Some (lit "ACTIVE"), Some demo_snapshot)) true (Some (lit "Bearer a")) (later 200 w2)).1 =
      inr demo_snapshot /\ role <$> users (w_db w1) !! 7 = Some ROLE_USER.
Proof.
  destruct (racing_request_restores_role (H := ascii_db) demo_jwt (fun _ _ => [1]) (fun _ => Some (Some (lit "ACTIVE"), Some demo_snapshot))
    (email demo_user) 7 (with_role ROLE_ADMIN demo_user) (demo_auth_world <| w_db := empty_db <| users := {[7 := with_role ROLE_ADMIN demo_user]} |> |>))
    as (w1 & w2 & E & E2 & Ha).
  - reflexivity.
  - intros k1 k2 u1 u2 H1 H2 _. cbn [demo_auth_world w_db users over] in H1, H2. apply lookup_singleton_Some in H1 as [<- _]. by apply lookup_singleton_Some in H2 as [<- _].
  - vm_compute. reflexivity.
  - reflexivity.
  - vm_compute. reflexivity.
  - reflexivity.
  - reflexivity.
  - reflexivity.
  - exists w1, w2. split; [exact E|].
    assert (w1 = (set_role (H := ascii_db) true (email demo_user) ROLE_USER (demo_auth_world <| w_db := empty_db <| users := {[7 := with_role ROLE_ADMIN demo_user]} |> |>)).2) as E1 by (by rewrite E).
    split.
    + apply (Ha 200 (Some (lit "Bearer a")) (lit "a") (demo_claims (lit "access"))).
      * unfold USER_STATUS_CACHE_TTL_SECONDS. lia.
      * vm_compute. reflexivity.
      * apply demo_token_of. vm_compute. reflexivity.
      * subst w1. apply (f_equal snd) in E2. cbn [snd] in E2. rewrite <-E2. vm_compute. reflexivity.
    + subst w1. vm_compute. reflexivity.
Defined.

(** Exit codes: an unknown address, no address. *)
Example exit_codes :
  (main (H := ascii_db) true {| ar_email := Some (lit "nobody"); ar_revoke := false; ar_list := false |} demo_auth_world).1 = inr 1 /\
  (main (H := ascii_db) true {| ar_email := None; ar_revoke := true; ar_list := false |} demo_auth_world).1 = inr 2 /\
  (main (H := ascii_db) false {| ar_email := Some (email demo_user); ar_revoke := false; ar_list := false |} demo_auth_world).1 = inr 0 /\
  list_admins (w_db demo_auth_world) = [].
Proof. vm_compute. repeat split. Qed.
