(* ===== verification/LockSnapshot.v ===== *)
(** * The dependency snapshot ([scripts/uv_lock_snapshot.py])

    The graph of a lock file: resolving an edge to a package, expanding it with
    the extras it asks for, and the work list that collects the packages reached
    from a project's declarations.  Specification: the packages reachable along
    expanded edges, with their direct dependencies. *)

From S2P Require Import Prelude Json.

Record edge := { e_name : ustr; e_version : option ustr; e_extra : list ustr }.
#[export] Instance edge_eq_dec : EqDecision edge.
Proof. solve_decision. Defined.

(** A [[package]] table; uv locks every package but the project's own with a
    version. *)
Record package := {
  pk_name : ustr; pk_version : ustr; pk_editable : bool;   (** [source.editable == "."] *)
  pk_dependencies : list edge; pk_optional : list (ustr * list edge);
}.

(** [_purl] *)
Definition purl (p : package) : ustr := lit "pkg:pypi/" ++ pk_name p ++ lit "@" ++ pk_version p.

(** [target.get("optional-dependencies", {}).get(extra, [])] *)
Definition optional_dependencies (extra : ustr) (p : package) : list edge :=
  default [] (snd <$> List.find (fun q => bool_decide (q.1 = extra)) (pk_optional p)).

Section Lock.
(** The packages other than the project's own. *)
Context (others : list package).

Definition by_name (name : ustr) : list package := List.filter (fun p => bool_decide (pk_name p = name)) others.

(** [None]: [KeyError] or [StopIteration]. *)
Definition resolve (e : edge) : option package :=
  match e_version e with
  | Some v => List.find (fun p => bool_decide (pk_version p = v)) (by_name (e_name e))
  | None => head (by_name (e_name e))
  end.

Definition expand (e : edge) : option (package * list edge) :=
  target ← resolve e;
  Some (target, pk_dependencies target ++ flat_map (fun extra => optional_dependencies extra target) (e_extra e)).

Definition purl_of (e : edge) : option ustr := purl <$> resolve e.

Abbreviation graph := (gmap ustr (gset ustr)).

(** [key in graph and deps <= graph[key]] *)
Definition known (key : ustr) (deps : gset ustr) (g : graph) : bool :=
  match g !! key with Some old => bool_decide (deps ⊆ old) | None => false end.

Inductive outcome := Done (g : graph) | Raised | OutOfFuel.

(** The [while stack] loop; the end of the Python list is the head here. *)
Fixpoint reach_loop (fuel : nat) (stack : list edge) (g : graph) : outcome :=
  match fuel, stack with
  | O, _ => OutOfFuel
  | S _, [] => Done g
  | S f, e :: stack' =>
      match expand e with
      | None => Raised
      | Some (target, outs) =>
          match mapM purl_of outs with
          | None => Raised
          | Some ds =>
              let key := purl target in
              let deps := list_to_set ds in
              if known key deps g then reach_loop f stack' g
              else reach_loop f (reverse outs ++ stack') (<[key := default ∅ (g !! key) ∪ deps]> g)
          end
      end
  end.

(** Every edge of the file. *)
Definition package_edges (p : package) : list edge := pk_dependencies p ++ flat_map snd (pk_optional p).
Definition expansion_size (e : edge) : nat := match expand e with Some (_, outs) => length outs | None => O end.
Definition list_sum (l : list nat) : nat := foldr Nat.add O l.

(** Fuel enough for any file: each turn that is not skipped records a package or a dependency not
    recorded before, of which there are [n * (n + 1)] for [n] packages. *)
Definition fact_space : list (ustr * option ustr) :=
  flat_map (fun p => (purl p, None) :: map (fun q => (purl p, Some (purl q))) others) others.
Definition universe (start : list edge) : list edge := start ++ flat_map package_edges others.
Definition reach_fuel (start : list edge) : nat :=
  S (length start + length fact_space * list_sum (expansion_size <$> universe start)).

Definition reach (start : list edge) : outcome := reach_loop (reach_fuel start) (reverse start) ∅.

(** ** Specification *)

(** The edges followed from [start]. *)
Inductive reached (start : list edge) : edge -> Prop :=
  | reached_start e : e ∈ start -> reached start e
  | reached_out e t outs o : reached start e -> expand e = Some (t, outs) -> o ∈ outs -> reached start o.

Definition is_node (start : list edge) (k : ustr) : Prop := exists e, reached start e /\ purl_of e = Some k.
Definition depends (start : list edge) (k d : ustr) : Prop :=
  exists e t outs o, reached start e /\ expand e = Some (t, outs) /\ purl t = k /\ o ∈ outs /\ purl_of o = Some d.

(** Every edge of the file and of the project names a locked package. *)
Definition closed (start : list edge) : Prop := forall e, e ∈ universe start -> is_Some (resolve e).
(** Distribution names have no [@]. *)
Definition plain_names : Prop := forall p, p ∈ others -> 64 ∉ pk_name p.
(** A package asks the same extras of a dependency wherever it names it. *)
Definition uniform_extras : Prop :=
  forall p o o', p ∈ others -> o ∈ package_edges p -> o' ∈ package_edges p -> resolve o = resolve o' -> e_extra o = e_extra o'.

(** ** Resolution *)

Lemma resolve_in e p : resolve e = Some p -> p ∈ others.
Proof.
  unfold resolve, by_name. intros E. assert (In p (List.filter (fun q => bool_decide (pk_name q = e_name e)) others)) as Hin.
  - destruct (e_version e) as [v|]; [by apply find_some in E as [? _]|]. destruct (List.filter _ others); [done|]. left. by apply (inj Some).
  - apply filter_In in Hin as [Hin _]. by apply list_elem_of_In.
Qed.

Lemma expand_out e t outs o : expand e = Some (t, outs) -> o ∈ outs -> t ∈ others /\ o ∈ package_edges t.
Proof.
  unfold expand. intros (t' & Er & [= <- <-])%bind_Some Ho. split; [by apply resolve_in with e|]. unfold package_edges.
  apply elem_of_app in Ho as [Ho|Ho]; apply elem_of_app; [by left|right].
  apply list_elem_of_In, in_flat_map in Ho as (x & _ & Hx). unfold optional_dependencies in Hx.
  destruct (List.find _ _) as [q|] eqn:Ef; [|done]. apply find_some in Ef as [Hq _]. apply list_elem_of_In, in_flat_map. by exists q.
Qed.

Lemma expand_resolve e t outs : expand e = Some (t, outs) -> resolve e = Some t.
Proof. unfold expand. by intros (t' & -> & [= <- _])%bind_Some. Qed.

Lemma expand_ext e e' : resolve e = resolve e' -> e_extra e = e_extra e' -> expand e = expand e'.
Proof. unfold expand. by intros -> ->. Qed.

(** The package an edge names is the first of its name and version. *)
Lemma resolve_first e p : resolve e = Some p ->
  List.find (fun q => bool_decide (pk_name q = pk_name p) && bool_decide (pk_version q = pk_version p)) others = Some p.
Proof.
  unfold resolve, by_name. induction others as [|q l IH]; cbn [List.filter List.find].
  - by destruct (e_version e).
  - destruct (bool_decide_reflect (pk_name q = e_name e)) as [Hq|Hq].
    + destruct (e_version e) as [v|] eqn:Ev; cbn [List.find head].
      * destruct (bool_decide_reflect (pk_version q = v)) as [Hv|Hv].
        -- intros [= ->]. rewrite !bool_decide_true by done. done.
        -- intros E. specialize (IH E). apply find_some in E as [E Ep]. apply bool_decide_eq_true in Ep. rewrite (bool_decide_false (pk_version q = pk_version p)) by congruence.
           rewrite andb_false_r. exact IH.
      * intros [= ->]. rewrite !bool_decide_true by done. done.
    + intros E. specialize (IH E). assert (pk_name p = e_name e) as Hn.
      { assert (In p (List.filter (fun q => bool_decide (pk_name q = e_name e)) l)) as Hin.
        - destruct (e_version e) as [v|]; [by apply find_some in E as [? _]|]. destruct (List.filter _ l); [done|]. left. by apply (inj Some).
        - apply filter_In in Hin as [_ Hin]. by apply bool_decide_eq_true in Hin. }
      rewrite (bool_decide_false (pk_name q = pk_name p)) by congruence. exact IH.
Qed.

Lemma split_at (c : Z) (a a' b b' : ustr) : c ∉ a -> c ∉ a' -> a ++ c :: b = a' ++ c :: b' -> a = a' /\ b = b'.
Proof.
  revert a'. induction a as [|x a IH]; intros [|y a'] Ha Ha'; cbn; intros E.
  - by injection E as ->.
  - injection E as -> _. destruct Ha'. by left.
  - injection E as -> _. destruct Ha. by left.
  - injection E as -> E. apply IH in E as [-> ->]; [done|by intros ?; apply Ha; right|by intros ?; apply Ha'; right].
Qed.

Lemma purl_determines e e' p p' : plain_names -> resolve e = Some p -> resolve e' = Some p' -> purl p = purl p' -> p = p'.
Proof.
  intros Hn E E' Hp. unfold purl in Hp. apply app_inv_head in Hp. change (lit "@") with [64] in Hp.
  apply split_at in Hp as [Hname Hver]; [|by apply Hn, (resolve_in e)|by apply Hn, (resolve_in e')].
  apply resolve_first in E, E'. rewrite Hname, Hver, E' in E. by apply (inj Some).
Qed.

(** ** The loop *)

Lemma filter_shrinks {A : Type} (P Q : A -> bool) (l : list A) x :
  (forall y, P y = true -> Q y = true) -> x ∈ l -> Q x = true -> P x = false ->
  (length (List.filter P l) < length (List.filter Q l))%nat.
Proof.
  intros HPQ Hx HQ HP. assert (forall k : list A, (length (List.filter P k) <= length (List.filter Q k))%nat) as Hle.
  { induction k as [|y k IH]; cbn; [lia|]. destruct (P y) eqn:Ey; [rewrite (HPQ y Ey); cbn; lia|]. destruct (Q y); cbn; lia. }
  induction Hx as [y l0|y z l0 Hx IH]; cbn.
  - rewrite HQ, HP. cbn. specialize (Hle l0). lia.
  - destruct (P z) eqn:Ez; [rewrite (HPQ z Ez); cbn; specialize (IH HQ HP); lia|]. specialize (IH HQ HP). destruct (Q z); cbn; lia.
Qed.

(** A fact about the graph, in [fact_space]; those it does not record yet. *)
Definition holds (g : graph) (x : ustr * option ustr) : bool :=
  match g !! x.1, x.2 with
  | Some ds, Some d => bool_decide (d ∈ ds)
  | Some _, None => true
  | None, _ => false
  end.
Definition missing (g : graph) : nat := length (List.filter (fun x => negb (holds g x)) fact_space).

Definition record (key : ustr) (deps : gset ustr) (g : graph) : graph := <[key := default ∅ (g !! key) ∪ deps]> g.

Lemma fact_space_elem p x : p ∈ others -> (x = None \/ exists q, q ∈ others /\ x = Some (purl q)) -> (purl p, x) ∈ fact_space.
Proof.
  intros Hp Hx. unfold fact_space. apply list_elem_of_In, in_flat_map. exists p. split; [by apply list_elem_of_In|].
  destruct Hx as [->|(q & Hq & ->)]; [by left|]. right. apply in_map_iff. exists q. split; [done|by apply list_elem_of_In].
Qed.

Lemma record_lookup key deps g k : record key deps g !! k = (if decide (k = key) then Some (default ∅ (g !! key) ∪ deps) else g !! k).
Proof. unfold record. destruct (decide _) as [->|]; [by rewrite lookup_insert_eq|by rewrite lookup_insert_ne]. Qed.

Lemma record_holds key deps g x : holds g x = true -> holds (record key deps g) x = true.
Proof.
  unfold holds. rewrite record_lookup. destruct (decide _) as [->|]; [|done]. destruct (g !! key) as [old|]; [|done].
  destruct x as [k [d|]]; cbn; [|done]. rewrite !bool_decide_eq_true. set_solver.
Qed.

Lemma record_progress p deps g : p ∈ others -> (forall d, d ∈ deps -> exists q, q ∈ others /\ d = purl q) -> known (purl p) deps g = false ->
  (missing (record (purl p) deps g) < missing g)%nat.
Proof.
  intros Hp Hd Hk. assert (exists x, (purl p, x) ∈ fact_space /\ holds g (purl p, x) = false /\ holds (record (purl p) deps g) (purl p, x) = true) as (x & Hx & H0 & H1).
  - unfold known in Hk. destruct (g !! purl p) as [old|] eqn:Eg.
    + apply bool_decide_eq_false in Hk. assert (exists d, d ∈ deps ∖ old) as [d Hin].
      { apply set_choose_L. intros He. apply Hk. intros d Hd'. destruct (decide (d ∈ old)); [done|]. assert (d ∈ deps ∖ old) as Hi by set_solver. rewrite He in Hi. set_solver. }
      apply elem_of_difference in Hin as [Hin Hno]. exists (Some d). split_and!.
      * apply fact_space_elem; [done|]. right. destruct (Hd d Hin) as (q & Hq & ->). by exists q.
      * unfold holds. cbn [fst snd]. rewrite Eg. by apply bool_decide_false.
      * unfold holds. cbn [fst snd]. rewrite record_lookup, decide_True, Eg by done. cbn. apply bool_decide_true. set_solver.
    + exists None. split_and!; [apply fact_space_elem; auto| |].
      * unfold holds. cbn [fst snd]. by rewrite Eg.
      * unfold holds. cbn [fst snd]. by rewrite record_lookup, decide_True.
  - unfold missing. apply filter_shrinks with (purl p, x); [|done|by rewrite H0|by rewrite H1].
    intros y. rewrite !negb_true_iff. destruct (holds g y) eqn:Ey; [|done]. by rewrite (record_holds _ _ _ _ Ey).
Qed.

Lemma list_sum_elem (x : nat) l : x ∈ l -> (x <= list_sum l)%nat.
Proof. induction 1 as [y k|y z k _ IH]; unfold list_sum in *; cbn [foldr] in *; lia. Qed.

Lemma universe_out (start : list edge) e t outs o : expand e = Some (t, outs) -> o ∈ outs -> o ∈ universe start.
Proof.
  intros E Ho. destruct (expand_out _ _ _ _ E Ho) as [Ht Ho']. apply elem_of_app. right. apply list_elem_of_In, in_flat_map.
  exists t. by rewrite <-!list_elem_of_In.
Qed.

Lemma mapM_none {A B : Type} (f : A -> option B) l : mapM f l = None -> exists x, x ∈ l /\ f x = None.
Proof. intros E. apply mapM_None, Exists_exists in E as (x & Hx & Hf). by exists x. Qed.

Lemma mapM_elem {A B : Type} (f : A -> option B) l k y : mapM f l = Some k -> y ∈ k <-> exists x, x ∈ l /\ f x = Some y.
Proof.
  intros E. apply mapM_Some in E. induction E as [|x z l k Hx _ IH].
  - split; [by intros ?%elem_of_nil|]. by intros (x & Hx%elem_of_nil & _).
  - rewrite elem_of_cons, IH. split.
    + intros [->|(x' & Hx' & Hf)]; [exists x; split; [by left|done]|exists x'; split; [by right|done]].
    + intros (x' & Hx' & Hf). apply elem_of_cons in Hx' as [->|Hx']; [left; congruence|right; eauto].
Qed.

(** The loop ends within its fuel; what its turns preserve holds of the result. *)
Lemma reach_loop_rule (start : list edge) (I : list edge -> graph -> Prop) :
  (forall e st g t outs ds, I (e :: st) g -> expand e = Some (t, outs) -> mapM purl_of outs = Some ds ->
     if known (purl t) (list_to_set ds) g then I st g else I (reverse outs ++ st) (record (purl t) (list_to_set ds) g)) ->
  forall fuel st g, I st g -> (forall e, e ∈ st -> e ∈ universe start) ->
    (length st + missing g * list_sum (expansion_size <$> universe start) < fuel)%nat ->
    (exists g', reach_loop fuel st g = Done g' /\ I [] g') \/
    (reach_loop fuel st g = Raised /\ exists e, e ∈ universe start /\ resolve e = None).
Proof.
  intros Hstep. set (B := list_sum _). induction fuel as [|f IH]; intros st g HI Hst Hf; [lia|].
  destruct st as [|e st]; cbn [reach_loop]; [left; by exists g|].
  assert (e ∈ universe start) as He by (apply Hst; by left). destruct (expand e) as [[t outs]|] eqn:Ee.
  2: { right. split; [done|]. exists e. split; [done|]. unfold expand in Ee. by destruct (resolve e). }
  destruct (mapM purl_of outs) as [ds|] eqn:Em.
  2: { right. split; [done|]. apply mapM_none in Em as (o & Ho & Eo). exists o. split; [by eapply universe_out|].
       unfold purl_of in Eo. by destruct (resolve o). }
  specialize (Hstep e st g t outs ds HI Ee Em). pose proof (expand_resolve _ _ _ Ee) as Er. cbn [length] in Hf.
  destruct (known (purl t) (list_to_set ds) g) eqn:Ek.
  - apply IH; [done|intros e' He'; apply Hst; by right|lia].
  - fold (record (purl t) (list_to_set ds) g). apply IH; [done| |].
    + intros e' [He'|He']%elem_of_app; [|apply Hst; by right]. rewrite elem_of_reverse in He'. by eapply universe_out.
    + assert (length outs <= B)%nat as Hb.
      { apply list_sum_elem, list_elem_of_fmap. exists e. split; [|done]. unfold expansion_size. by rewrite Ee. }
      assert (missing (record (purl t) (list_to_set ds) g) < missing g)%nat as Hm.
      { apply record_progress; [by apply resolve_in with e| |done]. intros d Hd. rewrite elem_of_list_to_set, (mapM_elem _ _ _ d Em) in Hd.
        destruct Hd as (o & _ & Eo). unfold purl_of in Eo. apply fmap_Some in Eo as (q & Eq & ->). exists q. split; [by apply resolve_in with o|done]. }
      rewrite length_app, length_reverse. nia.
Qed.

(** ** Soundness *)

Definition sound (start : list edge) (st : list edge) (g : graph) : Prop :=
  (forall e, e ∈ st -> reached start e) /\ (forall k ds, g !! k = Some ds -> is_node start k /\ forall d, d ∈ ds -> depends start k d).

Lemma sound_step start e st g t outs ds : sound start (e :: st) g -> expand e = Some (t, outs) -> mapM purl_of outs = Some ds ->
  if known (purl t) (list_to_set ds) g then sound start st g else sound start (reverse outs ++ st) (record (purl t) (list_to_set ds) g).
Proof.
  intros [Hst Hg] Ee Em. assert (reached start e) as Hr by (apply Hst; by left). destruct (known _ _ _).
  - split; [intros e' He'; apply Hst; by right|done].
  - split.
    + intros o [Ho|Ho]%elem_of_app; [|apply Hst; by right]. rewrite elem_of_reverse in Ho. by eapply reached_out.
    + intros k D. rewrite record_lookup. destruct (decide (k = purl t)) as [->|]; [|by apply Hg]. intros [= <-]. split.
      * exists e. split; [done|]. unfold purl_of. by rewrite (expand_resolve _ _ _ Ee).
      * intros d [Hd|Hd]%elem_of_union.
        -- destruct (g !! purl t) as [old|] eqn:Eg; [|cbn in Hd; set_solver]. by apply (Hg _ _ Eg).
        -- rewrite elem_of_list_to_set, (mapM_elem _ _ _ d Em) in Hd. destruct Hd as (o & Ho & Eo). by exists e, t, outs, o.
Qed.

(** ** Completeness *)

(** The graph records the edge's package with everything it depends on. *)
Definition settled (g : graph) (e : edge) : Prop :=
  exists t outs ds known_deps, expand e = Some (t, outs) /\ mapM purl_of outs = Some ds /\ g !! purl t = Some known_deps /\ forall d, d ∈ ds -> d ∈ known_deps.

Definition complete (start : list edge) (st : list edge) (g : graph) : Prop :=
  exists followed : list edge,
    (forall e, e ∈ start -> e ∈ st \/ settled g e) /\
    (forall e t outs o, e ∈ followed -> expand e = Some (t, outs) -> o ∈ outs -> o ∈ st \/ settled g o) /\
    (forall k ds d, g !! k = Some ds -> d ∈ ds ->
       exists e t outs o, e ∈ followed /\ expand e = Some (t, outs) /\ purl t = k /\ o ∈ outs /\ purl_of o = Some d).

Lemma settled_record key deps g e : settled g e -> settled (record key deps g) e.
Proof.
  intros (t & outs & ds & D & Ee & Em & Eg & Hd). exists t, outs, ds. unfold record. destruct (decide (key = purl t)) as [->|Hne].
  - exists (default ∅ (g !! purl t) ∪ deps). rewrite lookup_insert_eq, Eg. cbn. split_and!; try done. intros d Hin. apply Hd in Hin. set_solver.
  - exists D. by rewrite lookup_insert_ne.
Qed.

Lemma complete_step start e st g t outs ds : complete start (e :: st) g -> expand e = Some (t, outs) -> mapM purl_of outs = Some ds ->
  if known (purl t) (list_to_set ds) g then complete start st g else complete start (reverse outs ++ st) (record (purl t) (list_to_set ds) g).
Proof.
  intros (V & Hs & Hv & Hd) Ee Em. destruct (known _ _ _) eqn:Ek.
  - assert (settled g e) as He.
    { unfold known in Ek. destruct (g !! purl t) as [D|] eqn:Eg; [|done]. apply bool_decide_eq_true in Ek. exists t, outs, ds, D. split_and!; try done.
      intros d Hin. apply Ek. by rewrite elem_of_list_to_set. }
    assert (forall o, o ∈ e :: st \/ settled g o -> o ∈ st \/ settled g o) as Hmv by (intros o [[->|?]%elem_of_cons|?]; auto).
    exists V. split_and!; [intros o Ho; auto|intros e' t' outs' o He' Ee' Ho; eauto|done].
  - set (g' := record _ _ g). assert (settled g' e) as He.
    { exists t, outs, ds, (default ∅ (g !! purl t) ∪ list_to_set ds). unfold g', record. rewrite lookup_insert_eq. split_and!; try done.
      intros d Hin. apply elem_of_union_r. by rewrite elem_of_list_to_set. }
    assert (forall o, o ∈ e :: st \/ settled g o -> o ∈ reverse outs ++ st \/ settled g' o) as Hmv.
    { intros o [[->|?]%elem_of_cons|?]; [by right|left; by apply elem_of_app; right|right; by apply settled_record]. }
    exists (e :: V). split_and!.
    + intros o Ho. auto.
    + intros e' t' outs' o [->|He']%elem_of_cons Ee' Ho; [|by eapply Hmv, Hv]. rewrite Ee in Ee'. injection Ee' as <- <-.
      left. apply elem_of_app. left. by rewrite elem_of_reverse.
    + intros k D d. unfold g'. rewrite record_lookup. destruct (decide (k = purl t)) as [->|].
      * intros [= <-] [Hin|Hin]%elem_of_union.
        -- destruct (g !! purl t) as [old|] eqn:Eg; [|cbn in Hin; set_solver]. destruct (Hd _ _ _ Eg Hin) as (e' & t' & outs' & o & He' & ?).
           exists e', t', outs', o. split; [by right|done].
        -- rewrite elem_of_list_to_set, (mapM_elem _ _ _ d Em) in Hin. destruct Hin as (o & Ho & Eo). exists e, t, outs, o. split; [by left|done].
      * intros Eg Hin. destruct (Hd _ _ _ Eg Hin) as (e' & t' & outs' & o & He' & ?). exists e', t', outs', o. split; [by right|done].
Qed.

(** With an empty stack every reached edge is settled. *)
Lemma complete_settled start g e : plain_names -> uniform_extras -> complete start [] g -> reached start e -> settled g e.
Proof.
  intros Hn Hu (V & Hs & Hv & Hd). induction 1 as [e He|e t outs o Hr (t' & outs' & ds & D & Ee & Em & Eg & Hin) Ee' Ho].
  - by destruct (Hs e He) as [[]%elem_of_nil|?].
  - rewrite Ee in Ee'. injection Ee' as -> ->. destruct (purl_of o) as [d|] eqn:Eo.
    2: { exfalso. assert (is_Some (mapM purl_of outs)) as Hs' by eauto. apply mapM_is_Some in Hs'. rewrite Forall_forall in Hs'. apply Hs' in Ho as [? Ho]. congruence. }
    assert (d ∈ ds) as Hds by (apply (mapM_elem _ _ _ d Em); eauto). destruct (Hd _ _ d Eg (Hin d Hds)) as (e2 & t2 & outs2 & o2 & He2 & Ee2 & Hp & Ho2 & Eo2).
    assert (t2 = t) as -> by (eapply purl_determines; [done|by eapply expand_resolve|by eapply expand_resolve|done]).
    unfold purl_of in Eo, Eo2. apply fmap_Some in Eo as (q & Eq & ->), Eo2 as (q2 & Eq2 & Hq2).
    assert (q2 = q) as -> by (symmetry; by eapply purl_determines). destruct (expand_out _ _ _ _ Ee Ho) as [Ht Hpo], (expand_out _ _ _ _ Ee2 Ho2) as [_ Hpo2].
    destruct (Hv _ _ _ _ He2 Ee2 Ho2) as [[]%elem_of_nil|(t3 & outs3 & ds3 & D3 & E3 & H3)]. exists t3, outs3, ds3, D3. split; [|done].
    rewrite <-E3. apply expand_ext; [congruence|]. apply (Hu t); [done..|congruence].
Qed.

Lemma reach_sound_complete start : closed start ->
  exists g, reach start = Done g /\ sound start [] g /\ complete start [] g.
Proof.
  intros Hc. destruct (reach_loop_rule start (fun st g => sound start st g /\ complete start st g)) with (fuel := reach_fuel start) (st := reverse start) (g := ∅ : graph)
    as [(g & E & Hs & Hco)|(_ & e & He & En)].
  - intros e st g t outs ds [Hs Hco] Ee Em. pose proof (sound_step _ _ _ _ _ _ _ Hs Ee Em) as H1. pose proof (complete_step _ _ _ _ _ _ _ Hco Ee Em) as H2.
    destruct (known _ _ _); by split.
  - split; [split|].
    + intros e He. rewrite elem_of_reverse in He. by apply reached_start.
    + intros k ds E. by rewrite lookup_empty in E.
    + exists []. split_and!.
      * intros e He. left. by rewrite elem_of_reverse.
      * by intros e t outs o ?%elem_of_nil.
      * intros k ds d E. by rewrite lookup_empty in E.
  - intros e He. rewrite elem_of_reverse in He. apply elem_of_app. by left.
  - unfold reach_fuel. rewrite length_reverse. assert (missing ∅ <= length fact_space)%nat by apply List.filter_length_le. nia.
  - by exists g.
  - destruct (Hc e He) as [? ?]. congruence.
Qed.

(** What the graph records, on a file with uniform extras. *)
Lemma graph_exact start g : plain_names -> uniform_extras -> sound start [] g -> complete start [] g ->
  (forall k, is_Some (g !! k) <-> is_node start k) /\ (forall k ds d, g !! k = Some ds -> d ∈ ds <-> depends start k d).
Proof.
  intros Hn Hu [_ Hs] Hco. split.
  - intros k. split.
    + intros [ds E]. by apply (Hs _ _ E).
    + intros (e & Hr & Ep). destruct (complete_settled _ _ _ Hn Hu Hco Hr) as (t & outs & ds & D & Ee & _ & Eg & _).
      unfold purl_of in Ep. rewrite (expand_resolve _ _ _ Ee) in Ep. cbn in Ep. injection Ep as <-. by exists D.
  - intros k ds d E. split; [by apply (Hs _ _ E)|]. intros (e & t & outs & o & Hr & Ee & <- & Ho & Eo).
    destruct (complete_settled _ _ _ Hn Hu Hco Hr) as (t' & outs' & ds' & D & Ee' & Em & Eg & Hin). rewrite Ee in Ee'. injection Ee' as <- <-.
    rewrite E in Eg. injection Eg as <-. apply Hin, (mapM_elem _ _ _ d Em). eauto.
Qed.
End Lock.

(** ** The snapshot ([main]) *)

(** The first editable package and the others. *)
Fixpoint split_root (ps : list package) : option (package * list package) :=
  match ps with
  | [] => None
  | p :: ps' => if pk_editable p then Some (p, ps') else q ← split_root ps'; Some (q.1, p :: q.2)
  end.

Record resolved_package := { rp_url : ustr; rp_direct : bool; rp_runtime : bool; rp_dependencies : list ustr }.

Definition sorted_strings (l : list ustr) : list ustr := order_by id codepoints_ltb l.

Definition resolved (packages : list package) : option (list (ustr * resolved_package)) :=
  '(root, others) ← split_root packages;
  let runtime_direct := pk_dependencies root in
  let dev_direct := flat_map snd (pk_optional root) in
  match reach others runtime_direct, reach others (runtime_direct ++ dev_direct), mapM (purl_of others) (runtime_direct ++ dev_direct) with
  | Done runtime, Done everything, Some direct =>
      Some ((fun p => (p.1, {| rp_url := p.1; rp_direct := bool_decide (p.1 ∈ direct); rp_runtime := bool_decide (is_Some (runtime !! p.1));
                               rp_dependencies := sorted_strings (elements (p.2 : gset ustr)) |})) <$>
            order_by fst codepoints_ltb (map_to_list everything))
  | _, _, _ => None
  end.

Definition resolved_json (r : resolved_package) : json :=
  JObj [(lit "package_url", JStr (rp_url r)); (lit "relationship", JStr (if rp_direct r then lit "direct" else lit "indirect"));
        (lit "scope", JStr (if rp_runtime r then lit "runtime" else lit "development")); (lit "dependencies", JArr (JStr <$> rp_dependencies r))].

Definition LOCK : ustr := lit "uv.lock".

(** The document, for the environment variables of the workflow and the time of
    the run. *)
Definition snapshot (sha ref run_id scanned : ustr) (rs : list (ustr * resolved_package)) : json :=
  JObj [(lit "version", JInt 0); (lit "sha", JStr sha); (lit "ref", JStr ref);
        (lit "job", JObj [(lit "correlator", JStr (lit "uv-lock-snapshot")); (lit "id", JStr run_id)]);
        (lit "detector", JObj [(lit "name", JStr (lit "puppytalk-uv-lock-snapshot")); (lit "version", JStr (lit "1.0.0"));
                               (lit "url", JStr (lit "https://github.com/kyjness/puppytalk-be/blob/main/scripts/uv_lock_snapshot.py"))]);
        (lit "scanned", JStr scanned);
        (lit "manifests", JObj [(LOCK, JObj [(lit "name", JStr LOCK); (lit "file", JObj [(lit "source_location", JStr LOCK)]);
                                             (lit "resolved", JObj ((fun p => (p.1, resolved_json p.2)) <$> rs))])])].

(** ** Properties *)

(** On any file the walk ends within its fuel; it raises only at an edge that
    names no package, and what it records is reachable. *)
Theorem reach_total (others : list package) (start : list edge) :
  (exists g, reach others start = Done g /\ (forall k ds, g !! k = Some ds -> is_node others start k /\ forall d, d ∈ ds -> depends others start k d)) \/
  (reach others start = Raised /\ exists e, e ∈ universe others start /\ resolve others e = None).
Proof.
  destruct (reach_loop_rule others start (sound others start)) with (fuel := reach_fuel others start) (st := reverse start) (g := ∅ : gmap ustr (gset ustr))
    as [(g & E & _ & Hs)|H].
  - intros e st g t outs ds. apply sound_step.
  - split.
    + intros e He. rewrite elem_of_reverse in He. by apply reached_start.
    + intros k ds E. by rewrite lookup_empty in E.
  - intros e He. rewrite elem_of_reverse in He. apply elem_of_app. by left.
  - unfold reach_fuel. rewrite length_reverse. assert (missing others ∅ <= length (fact_space others))%nat by apply List.filter_length_le. nia.
  - left. by exists g.
  - by right.
Qed.

Lemma reached_mono others start start' e : start ⊆ start' -> reached others start e -> reached others start' e.
Proof. intros Hs. induction 1; [by apply reached_start, Hs|by eapply reached_out]. Qed.

Lemma closed_prefix others start start' : closed others (start ++ start') -> closed others start.
Proof. intros Hc e He. apply Hc. unfold universe in *. set_solver. Qed.

(** C39. The snapshot of a lock file whose edges all name a locked package and
    whose packages ask the same extras of a dependency throughout: the script
    succeeds and lists, in the order of their urls, exactly the packages reached
    from the project's dependencies and extras, each with exactly its reachable
    dependencies in order; a package is direct exactly if the project names it,
    and of the runtime exactly if it is reached without the project's extras. *)
Theorem snapshot_exact (packages others : list package) (root : package) :
  let runtime_direct := pk_dependencies root in
  let all_direct := runtime_direct ++ flat_map snd (pk_optional root) in
  split_root packages = Some (root, others) -> closed others all_direct -> plain_names others -> uniform_extras others ->
  exists l, resolved packages = Some l /\ StronglySorted (listed_before fst codepoints_ltb) l /\
    (forall k, k ∈ l.*1 <-> is_node others all_direct k) /\
    (forall k r, (k, r) ∈ l ->
       rp_url r = k /\ (rp_direct r = true <-> exists e, e ∈ all_direct /\ purl_of others e = Some k) /\
       (rp_runtime r = true <-> is_node others runtime_direct k) /\
       StronglySorted (listed_before id codepoints_ltb) (rp_dependencies r) /\
       (forall d, d ∈ rp_dependencies r <-> depends others all_direct k d)).
Proof.
  intros rd ad Er Hc Hn Hu. unfold resolved. rewrite Er. cbn [mbind option_bind]. fold rd. fold ad.
  destruct (reach_sound_complete others rd) as (g1 & E1 & S1 & C1); [by eapply closed_prefix|].
  destruct (reach_sound_complete others ad Hc) as (g & E & S & C). rewrite E1, E.
  destruct (graph_exact _ _ _ Hn Hu S1 C1) as [N1 _]. destruct (graph_exact _ _ _ Hn Hu S C) as [N D].
  destruct (mapM (purl_of others) ad) as [direct|] eqn:Em.
  2: { apply mapM_none in Em as (e & He & Ep). destruct (Hc e) as [p Hp]; [by apply elem_of_app; left|]. unfold purl_of in Ep. by rewrite Hp in Ep. }
  eexists. split; [reflexivity|].
  set (row := fun p : ustr * gset ustr => _). set (os := order_by _ _ _).
  assert (forall k ds, (k, ds) ∈ os <-> g !! k = Some ds) as Hos by (intros k ds; unfold os; by rewrite order_by_perm, elem_of_map_to_list).
  assert (StronglySorted (listed_before fst codepoints_ltb) os) as Hsort by (apply order_by_strict; [apply _|apply NoDup_fst_map_to_list]).
  split_and!.
  - clear -Hsort. induction Hsort as [|x l Hl IH Hx]; cbn; [constructor|]. constructor; [done|]. clear -Hx.
    induction Hx as [|y l Hy _ IH]; cbn; constructor; [exact Hy|exact IH].
  - intros k. rewrite <-N. rewrite <-list_fmap_compose. unfold compose. cbn. rewrite list_elem_of_fmap. split.
    + intros ([k' ds] & -> & Hin). apply Hos in Hin. by exists ds.
    + intros [ds Eg]. exists (k, ds). split; [done|by apply Hos].
  - intros k r. rewrite list_elem_of_fmap. intros ([k' ds] & Ek & Hin). unfold row in Ek. cbn in Ek. injection Ek as -> ->. apply Hos in Hin. cbn. split_and!.
    + done.
    + rewrite bool_decide_eq_true. apply (mapM_elem _ _ _ k' Em).
    + rewrite bool_decide_eq_true. apply N1.
    + apply order_by_strict; [apply _|]. rewrite list_fmap_id. apply NoDup_elements.
    + intros d. unfold sorted_strings. rewrite order_by_perm, elem_of_elements. by apply D.
Qed.

(** ** Concrete files *)

Section Files.
Local Open Scope string_scope.

Definition names (n : string) : edge := {| e_name := lit n; e_version := None; e_extra := [] |}.
Definition with_extra (n x : string) : edge := {| e_name := lit n; e_version := None; e_extra := [lit x] |}.
Definition locked (n : string) (deps : list edge) (optional : list (ustr * list edge)) : package :=
  {| pk_name := lit n; pk_version := lit "1"; pk_editable := false; pk_dependencies := deps; pk_optional := optional |}.
Definition project (deps : list edge) (optional : list (ustr * list edge)) : package :=
  {| pk_name := lit "app"; pk_version := lit "0"; pk_editable := true; pk_dependencies := deps; pk_optional := optional |}.

(** The runtime asks for [web[ws]]; a development tool depends on [web] and on
    itself through [tool2]. *)
Definition demo_root : package := project [with_extra "web" "ws"] [(lit "dev", [names "tool"])].
Definition demo_others : list package :=
  [locked "http" [] []; locked "sockets" [names "http"] []; locked "tool" [names "web"; names "tool2"] []; locked "tool2" [names "tool"] [];
   locked "web" [names "http"] [(lit "ws", [names "sockets"])]; locked "unused" [names "http"] []].
Definition demo_lock : list package := take 3 demo_others ++ demo_root :: drop 3 demo_others.
End Files.

Definition plain_names_b (others : list package) : bool := forallb (fun p => negb (bool_decide (64 ∈ pk_name p))) others.
Definition uniform_extras_b (others : list package) : bool :=
  forallb (fun p => forallb (fun o => forallb (fun o' =>
    match resolve others o, resolve others o' with
    | Some t, Some t' => negb (bool_decide (purl t = purl t')) || bool_decide (e_extra o = e_extra o')
    | _, _ => false
    end) (package_edges p)) (package_edges p)) others.
Definition closed_b (others : list package) (start : list edge) : bool :=
  forallb (fun e => match resolve others e with Some _ => true | None => false end) (universe others start).

Lemma plain_names_b_spec others : plain_names_b others = true -> plain_names others.
Proof. unfold plain_names_b. rewrite forallb_forall. intros H p Hp. apply list_elem_of_In, H, negb_true_iff, bool_decide_eq_false in Hp. exact Hp. Qed.
Lemma closed_b_spec others start : closed_b others start = true -> closed others start.
Proof. unfold closed_b. rewrite forallb_forall. intros H e He. apply list_elem_of_In, H in He. destruct (resolve others e); [eauto|done]. Qed.
Lemma uniform_extras_b_spec others : uniform_extras_b others = true -> uniform_extras others.
Proof.
  unfold uniform_extras_b. rewrite forallb_forall. intros H p o o' Hp Ho Ho' E. apply list_elem_of_In in Hp, Ho, Ho'.
  specialize (H p Hp). rewrite forallb_forall in H. specialize (H o Ho). rewrite forallb_forall in H. specialize (H o' Ho'). rewrite <-E in H.
  destruct (resolve others o) as [t|]; [|done]. rewrite bool_decide_true in H by done. by apply bool_decide_eq_true in H.
Qed.

Lemma snapshot_exact_witness :
  exists l, resolved demo_lock = Some l /\
    (fun p => (rp_direct p.2, rp_runtime p.2, length (rp_dependencies p.2))) <$> l =
      [(false, true, 0%nat); (false, true, 1%nat); (false, false, 1%nat); (true, false, 2%nat); (true, true, 2%nat)] /\
    is_node demo_others (pk_dependencies demo_root ++ flat_map snd (pk_optional demo_root)) (lit "pkg:pypi/sockets@1").
Proof.
  destruct (snapshot_exact demo_lock demo_others demo_root) as (l & E & _ & Hk & _).
  - reflexivity.
  - apply closed_b_spec. vm_compute. reflexivity.
  - apply plain_names_b_spec. vm_compute. reflexivity.
  - apply uniform_extras_b_spec. vm_compute. reflexivity.
  - exists l. split; [exact E|]. assert (l = default [] (resolved demo_lock)) as El by (by rewrite E). split; [subst l; vm_compute; reflexivity|].
    apply Hk. rewrite El. apply (bool_decide_unpack _). vm_compute. exact I.
Defined.

(** Two edges to one package that differ in their extras: [web[ws]] expands to
    [http] and [http[fast]], the same set of urls as [web] alone, so it is skipped
    after [web], and what [http[fast]] needs is missing from the snapshot although
    it is reached. *)
Section Lost.
Local Open Scope string_scope.
Definition lossy_others : list package :=
  [locked "fastlib" [] []; locked "http" [] [(lit "fast", [names "fastlib"])];
   locked "web" [names "http"] [(lit "ws", [with_extra "http" "fast"])]].
Definition lossy_root : package := project [with_extra "web" "ws"; names "web"] [].
End Lost.

Theorem skipped_extras_lost :
  is_node lossy_others (pk_dependencies lossy_root) (lit "pkg:pypi/fastlib@1") /\
  exists l, resolved (lossy_root :: lossy_others) = Some l /\ lit "pkg:pypi/fastlib@1" ∉ l.*1.
Proof.
  split.
  - exists (names "fastlib"). split; [|vm_compute; reflexivity].
    eapply reached_out with (e := with_extra "http" "fast"); [|vm_compute; reflexivity|by left].
    eapply reached_out with (e := with_extra "web" "ws"); [by apply reached_start; left|vm_compute; reflexivity|by right; left].
  - eexists. split; [vm_compute; reflexivity|]. apply (bool_decide_unpack _). vm_compute. exact I.
Qed.
