(* ===== verification/SeedData.v ===== *)
(** * The demo seed: texts ([scripts/seed_demo.py])

    The accounts, dogs, templates and conversations the seed writes, as the script
    lists them. *)

From S2P Require Import Prelude.

Definition DEMO_PASSWORD : ustr := utf8 "PuppyTalk!demo1".

(** Address and nickname. *)
Definition DEMO_USERS : list (ustr * ustr) :=
  [(utf8 "demo@puppytalk.shop", utf8 "몽실이집사");
   (utf8 "demo2@puppytalk.shop", utf8 "초코아빠");
   (utf8 "demo3@puppytalk.shop", utf8 "코코엄마");
   (utf8 "demo4@puppytalk.shop", utf8 "산책왕보리");
   (utf8 "demo5@puppytalk.shop", utf8 "간식창고");
   (utf8 "demo6@puppytalk.shop", utf8 "댕댕이라이프");
   (utf8 "demo7@puppytalk.shop", utf8 "포메사랑");
   (utf8 "demo8@puppytalk.shop", utf8 "말티즈맘")].

(** Name, breed, gender. *)
Definition DEMO_DOGS : list (ustr * ustr * ustr) :=
  [(utf8 "몽실이", utf8 "말티즈", utf8 "female");
   (utf8 "초코", utf8 "푸들", utf8 "male");
   (utf8 "코코", utf8 "포메라니안", utf8 "female");
   (utf8 "보리", utf8 "웰시코기", utf8 "male");
   (utf8 "두부", utf8 "비숑프리제", utf8 "female");
   (utf8 "호두", utf8 "시바견", utf8 "male");
   (utf8 "설탕", utf8 "치와와", utf8 "female");
   (utf8 "바둑이", utf8 "진돗개", utf8 "male");
   (utf8 "루비", utf8 "골든리트리버", utf8 "female");
   (utf8 "감자", utf8 "닥스훈트", utf8 "male")].

(** Category, title, body. *)
Definition POST_TEMPLATES : list (Z * ustr * ustr) :=
  [(1, utf8 "{dog} 오늘 산책 다녀왔어요", utf8 "날씨가 좋아서 {dog}랑 한 시간이나 걸었네요.");
   (1, utf8 "{dog} 잠버릇이 너무 웃겨요", utf8 "배를 훌렁 뒤집고 자는데 볼 때마다 웃음이 나요.");
   (1, utf8 "비 오는 날 산책 어떻게 하세요", utf8 "{dog}는 우비를 싫어해서 현관에서부터 버팁니다.");
   (2, utf8 "{dog} 사료 바꾸는 시기 질문드려요", utf8 "8개월째 같은 사료인데 바꿔야 할까요?");
   (2, utf8 "발톱 깎다가 피가 났어요", utf8 "{dog} 발톱을 깎다 혈관을 건드린 것 같습니다.");
   (2, utf8 "중성화 수술 시기 언제가 좋을까요", utf8 "{dog}가 이제 8개월인데 의견이 갈리네요.");
   (2, utf8 "분리불안 훈련 방법 여쭤봐요", utf8 "출근만 하면 {dog}가 하울링을 한다고 하네요.");
   (3, utf8 "{dog} 미용하고 왔습니다", utf8 "가위컷으로 부탁드렸는데 인형이 됐어요.");
   (3, utf8 "우리 {dog} 생일이에요", utf8 "오늘로 세 살이 됐습니다. 케이크 앞에서 얌전하네요.");
   (3, utf8 "{dog} 처음으로 앉아 성공", utf8 "간식 세 개 만에 앉았습니다. 천재가 아닐까요.");
   (3, utf8 "{dog}랑 카페 다녀왔어요", utf8 "애견동반 카페에 처음 갔는데 잘 어울리더라고요.");
   (4, utf8 "{dog} 다녀온 동물병원 후기", utf8 "야간 진료가 되는 곳이라 급할 때 도움이 됐습니다.");
   (4, utf8 "털 안 날리게 하는 빗 추천", utf8 "슬리커 브러시로 바꾸고 청소 시간이 반으로 줄었어요.");
   (4, utf8 "여름철 산책 시간 정리해봤어요", utf8 "손등을 5초 대보고 뜨거우면 그 시간은 피하세요.");
   (4, utf8 "강아지 치석 관리 이렇게 합니다", utf8 "거즈로 시작했는데 지금은 칫솔도 받아들입니다.");
   (5, utf8 "{dog}가 안 먹는 간식 나눔합니다", utf8 "유통기한 넉넉하고 미개봉이에요.");
   (5, utf8 "안 쓰는 하네스 나눔해요", utf8 "{dog}가 살이 쪄서 못 쓰게 됐습니다. 소형견용이에요.");
   (5, utf8 "배변패드 나눔합니다", utf8 "브랜드가 안 맞아서 그대로 남았어요.")].

Definition POST_TAILS : list ustr :=
  [utf8 "혹시 비슷한 경험 있으신 분 계실까요?";
   utf8 "다들 어떻게 하고 계신지 궁금하네요.";
   utf8 "사진은 댓글에 더 올려볼게요.";
   utf8 "도움이 되셨으면 좋겠습니다.";
   utf8 "질문 있으시면 편하게 남겨주세요.";
   utf8 "다음에 후기 또 올리겠습니다."].

Definition HASHTAGS : list ustr :=
  [utf8 "산책";
   utf8 "강아지간식";
   utf8 "말티즈";
   utf8 "푸들";
   utf8 "포메라니안";
   utf8 "웰시코기";
   utf8 "비숑프리제";
   utf8 "댕스타그램";
   utf8 "강아지미용";
   utf8 "동물병원";
   utf8 "분리불안";
   utf8 "훈련";
   utf8 "나눔";
   utf8 "댕린이";
   utf8 "애견카페"].

Definition COMMENT_TEMPLATES : list ustr :=
  [utf8 "너무 귀여워요! 저도 한 마리 더 키우고 싶어지네요.";
   utf8 "저희 집 아이도 똑같아요. 반가워서 댓글 남깁니다.";
   utf8 "정보 감사합니다. 오늘 바로 해볼게요.";
   utf8 "혹시 어디 제품 쓰시는지 여쭤봐도 될까요?";
   utf8 "사진만 봐도 힐링되네요.";
   utf8 "저도 같은 고민이었는데 도움이 많이 됐어요.";
   utf8 "산책 코스 좋아 보이네요. 어디쯤인가요?";
   utf8 "우와 미용 정말 잘 됐네요!";
   utf8 "이런 글 너무 좋습니다. 자주 올려주세요.";
   utf8 "저는 병원 다녀왔더니 금방 나았어요. 참고하세요.";
   utf8 "댓글 보고 저도 시도해봤는데 성공했습니다.";
   utf8 "완전 천재견인데요?"].

Definition REPLY_TEMPLATES : list ustr :=
  [utf8 "감사합니다! 다음에 더 올려볼게요.";
   utf8 "제품은 쪽지로 알려드릴게요.";
   utf8 "네 맞아요, 그 방법이 제일 편하더라고요.";
   utf8 "한강 근처예요. 저녁에 가시면 시원합니다.";
   utf8 "저도 처음엔 힘들었는데 금방 익숙해지실 거예요."].

(** Speaker, text. *)
Definition DM_SCRIPT : list (nat * ustr) :=
  [(0%nat, utf8 "안녕하세요! 나눔 글 보고 연락드려요.");
   (1%nat, utf8 "안녕하세요~ 아직 남아있습니다!");
   (0%nat, utf8 "혹시 이번 주말에 직거래 가능할까요?");
   (1%nat, utf8 "네 토요일 오후면 괜찮아요.");
   (0%nat, utf8 "그럼 토요일 3시에 뵐게요. 장소는 어디가 편하세요?");
   (1%nat, utf8 "공원 정문 쪽이 주차가 편해요.");
   (0%nat, utf8 "좋아요! 그때 뵙겠습니다.");
   (1%nat, utf8 "혹시 강아지도 데려오시나요?");
   (0%nat, utf8 "네 같이 갈 것 같아요. 산책 겸해서요.");
   (1%nat, utf8 "잘됐네요, 저희 애도 데려갈게요.");
   (0%nat, utf8 "좋습니다! 사이좋게 지냈으면 좋겠네요.");
   (1%nat, utf8 "그럼 토요일에 봬요~")].

Definition IMAGE_PALETTE : list ((Z * Z * Z) * (Z * Z * Z)) :=
  [((255, 214, 165), (255, 173, 173));
   ((189, 224, 254), (162, 210, 255));
   ((202, 255, 191), (155, 246, 255));
   ((255, 198, 255), (224, 187, 228));
   ((253, 255, 182), (255, 214, 165));
   ((205, 180, 219), (189, 224, 254))].
