(* ===== verification/SeedDemo.v ===== *)
(** * The demo seed ([scripts/seed_demo.py])

    Purging the demo accounts and writing demo content: the statements in their
    order, the random generator as an interface with its documented laws, images
    through the object store.  What it leaves keeps the invariants of the
    components whose tables it writes. *)

From S2P Require Import Prelude Ids Common Redis Db World Media Search Posts Notifications Comments Likes Dogs Users Chat SeedData.

(** ** [random.Random] *)

(** A generator: [randint(a, b)], the index [choice] picks in a sequence of the
    given length, the indices of [sample(seq, k)], and [random() < x] (in
    percent). *)
Class Random := {
  rng : Type;
  randint : Z -> Z -> rng -> Z * rng;
  choice_index : nat -> rng -> nat * rng;
  sample_indices : nat -> nat -> rng -> list nat * rng;
  random_below : Z -> rng -> bool * rng;
  randint_range a b g : a <= b -> a <= (randint a b g).1 <= b;
  choice_range n g : (0 < n)%nat -> ((choice_index n g).1 < n)%nat;
  sample_spec n k g : (k <= n)%nat ->
    NoDup (sample_indices n k g).1 /\ length (sample_indices n k g).1 = k /\ Forall (fun i => (i < n)%nat) (sample_indices n k g).1;
}.

Section Seed.
Context `{Random}.
(** The ids and key names drawn in order, the bytes of the placeholder images,
    the hashed demo password. *)
Context (uuid7 : nat -> Z) (ulid : nat -> ustr) (gradient_png : nat -> s3obj) (hashed : ustr) (cfg : storage_settings).

Record seed_state := { sd_world : world; sd_rng : rng; sd_ids : nat; sd_ulids : nat; sd_upload : bool }.
#[local] Instance seed_state_eta : Eta seed_state := fun s => Build_seed_state (sd_world s) (sd_rng s) (sd_ids s) (sd_ulids s) (sd_upload s).

Definition draw {A : Type} (f : rng -> A * rng) : M seed_state A := fun s =>
  let '(a, g) := f (sd_rng s) in (inr a, s <| sd_rng := g |>).
Definition at_db {A : Type} (m : M db A) : M seed_state A := fun s =>
  let '(r, w) := on_db m (sd_world s) in (r, s <| sd_world := w |>).
Definition at_store {A : Type} (m : M world A) : M seed_state A := fun s =>
  let '(r, w) := m (sd_world s) in (r, s <| sd_world := w |>).
Definition new_uuid7 : M seed_state Z := fun s => (inr (uuid7 (sd_ids s)), s <| sd_ids := S (sd_ids s) |>).
Definition new_ulid_str : M seed_state ustr := fun s => (inr (ulid (sd_ulids s)), s <| sd_ulids := S (sd_ulids s) |>).

(** [rng.choice(seq)]; an empty sequence raises. *)
Definition choice {A : Type} (l : list A) : M seed_state A :=
  i ← draw (choice_index (length l));
  match l !! i with Some x => mret x | None => raise PyValueError end.
Definition sample {A : Type} (l : list A) (k : Z) : M seed_state (list A) :=
  picked ← draw (sample_indices (length l) (Z.to_nat k));
  mret (omap (fun i => l !! i) picked).

(** ** Images ([ImageUploader.create]) *)

Definition put_object (key : ustr) (o : s3obj) : M world unit := s3_call (fun b => (inr tt, <[key := o]> b)).

(** [None] once an upload has failed; the row's key is the object's without the
    [media/] prefix. *)
Definition create_image (purpose : string) (palette_index : nat) (uploader : Z) (now : Z) : M seed_state (option Z) :=
  s ← get;
  if negb (sd_upload s) then mret None
  else
    name ← new_ulid_str;
    let body := gradient_png (palette_index mod length IMAGE_PALETTE) in
    let file_key := lit purpose ++ lit "/" ++ name ++ lit ".png" in
    uploaded ← try_except (at_store (put_object (lit "media/" ++ file_key) body) ;; mret true)
                          (fun _ s => (inr false, s <| sd_upload := false |>));
    if negb uploaded then mret None
    else
      match build_url cfg file_key with
      | None => raise PyValueError
      | Some url =>
          i ← new_uuid7;
          at_db (insert_row i {| file_key := file_key; file_url := url; content_type := Some (lit "image/png"); size := Some (py_len (o_data body));
                                 uploader_id := Some uploader; img_created_at := now; img_deleted_at := None |}
                   (fun d => bool_decide (is_Some (users d !! uploader)))) ;;
          mret (Some i)
      end.

(** ** [post_timestamps] *)

Fixpoint draws (n : nat) (f : rng -> Z * rng) : M seed_state (list Z) :=
  match n with
  | O => mret []
  | S n' => x ← draw f; xs ← draws n' f; mret (x :: xs)
  end.

Definition recent_count (count : Z) : Z := Z.max 1 (count * 3 / 10).
Definition post_timestamps (now count : Z) : M seed_state (list Z) :=
  recent ← draws (Z.to_nat (recent_count count)) (randint 10 (23 * 60));
  older ← draws (Z.to_nat (count - recent_count count)) (randint 25 (30 * 24));
  mret (order_by id Z.ltb (((fun m => now - 60 * m) <$> recent) ++ ((fun h => now - 3600 * h) <$> older))).

(** ** [purge_demo_data] *)

Definition emails : list ustr := DEMO_USERS.*1.
Definition demo_user_ids (d : db) : list Z := (select_where (fun _ (u : User) => bool_decide (email u ∈ emails)) d).*1.

(** [DELETE FROM posts WHERE id IN (...)] with the schema's ON DELETE actions:
    comments go with their post and with the comment they answer (two levels,
    [Comments.thread_shape]); likes, hashtag links and notifications go with them;
    [post_images] restricts. *)
Definition comment_falls (ids : list Z) (d : db) (c : Comment) : bool :=
  bool_decide (c_post_id c ∈ ids) ||
  match parent_id c with
  | Some r => match comments d !! r with Some q => bool_decide (c_post_id q ∈ ids) | None => false end
  | None => false
  end.
Definition comment_id_falls (ids : list Z) (d : db) (k : Z) : bool := match comments d !! k with Some c => comment_falls ids d c | None => false end.

Definition notification_falls (ids : list Z) (d : db) (n : Notification) : bool :=
  match n_post_id n with Some k => bool_decide (k ∈ ids) | None => false end ||
  match n_comment_id n with Some k => comment_id_falls ids d k | None => false end.

Definition delete_posts (ids : list Z) : M db unit := fun d =>
  if existsb (fun p => bool_decide (pi_post_id p.2 ∈ ids)) (map_to_list (post_images d)) then (inl ForeignKeyViolation, d)
  else (inr tt,
    d <| posts := filter (fun p : Z * Post => p.1 ∉ ids) (posts d) |>
      <| post_hashtags := filter (fun l => l.1 ∉ ids) (post_hashtags d) |>
      <| post_likes := filter (fun p : (Z * Z) * Z => p.1.1 ∉ ids) (post_likes d) |>
      <| comments := filter (fun p : Z * Comment => comment_falls ids d p.2 = false) (comments d) |>
      <| comment_likes := filter (fun p : (Z * Z) * Z => comment_id_falls ids d p.1.1 = false) (comment_likes d) |>
      <| notifications := filter (fun p : Z * Notification => notification_falls ids d p.2 = false) (notifications d) |>).

(** [DELETE FROM images WHERE id IN (...)]. *)
Definition delete_images (ids : list Z) : M db unit := fun d =>
  (inr tt,
   d <| images := filter (fun p : Z * Image => p.1 ∉ ids) (images d) |>
     <| post_images := filter (fun p : Z * PostImage => pi_image_id p.2 ∉ ids) (post_images d) |>
     <| users := (fun u : User => u <| user_profile_image_id := gone ids (user_profile_image_id u) |>) <$> users d |>
     <| dogs := (fun g : DogProfile => g <| dog_profile_image_id := gone ids (dog_profile_image_id g) |>) <$> dogs d |>).

Definition purge_demo_data : M db unit :=
  d ← get;
  match demo_user_ids d with
  | [] => mret tt
  | user_ids =>
      decrement_post_like_counts_for_users user_ids ;;
      decrement_comment_like_counts_for_users user_ids ;;
      d1 ← get;
      let post_ids := (select_where (fun _ (p : Post) => match user_id p with Some u => bool_decide (u ∈ user_ids) | None => false end) d1).*1 in
      let attached := (fun p => pi_image_id p.2) <$> select_where (fun (_ : Z) (r : PostImage) => bool_decide (pi_post_id r ∈ post_ids)) d1 in
      (if bool_decide (post_ids = []) then mret tt
       else delete_rows (fun (_ : Z) (r : PostImage) => bool_decide (pi_post_id r ∈ post_ids)) ;; delete_posts post_ids) ;;
      d2 ← get;
      let portraits := omap (fun p => user_profile_image_id p.2) (select_where (fun k (_ : User) => bool_decide (k ∈ user_ids)) d2) in
      let dog_portraits := omap (fun p => dog_profile_image_id p.2) (select_where (fun (_ : Z) (g : DogProfile) => bool_decide (owner_id g ∈ user_ids)) d2) in
      purge_users_by_ids user_ids ;;
      match attached ++ portraits ++ dog_portraits with
      | [] => mret tt
      | image_ids => delete_images image_ids
      end
  end.

(** ** Accounts ([create_users]) *)

(** The flushed change of a loaded user row, under its version. *)
Definition set_profile_image (user image : Z) : M db unit := fun d =>
  (inr tt, update_where (fun k (_ : User) => bool_decide (k = user))
             (fun u : User => u <| user_profile_image_id := Some image |> <| user_version := user_version u + 1 |>) d).

Definition insert_user (new_id : Z) (u : User) : M db unit := fun d =>
  match unique_error new_id u d with Some e => (inl e, d) | None => insert_row new_id u (fun _ => true) d end.

Fixpoint create_accounts (now : Z) (index : nat) (specs : list (ustr * ustr)) : M seed_state (list Z) :=
  match specs with
  | [] => mret []
  | (mail, nick) :: specs' =>
      k ← new_uuid7;
      at_db (insert_user k {| user_version := 1; email := mail; password := hashed; nickname := nick; user_profile_image_id := None;
                              role := lit "USER"; status := ACTIVE; user_created_at := now - (90 - Z.of_nat index) * DAY;
                              user_updated_at := now; user_deleted_at := None |}) ;;
      image ← create_image "profile" index k now;
      match image with Some i => at_db (set_profile_image k i) | None => mret tt end ;;
      ks ← create_accounts now (S index) specs';
      mret (k :: ks)
  end.

(** The partial unique index of the representative dog is checked on insertion. *)
Definition insert_dog (k : Z) (g : DogProfile) : M db unit := fun d =>
  if is_representative g && another_representative (owner_id g) k d then (inl (UniqueViolation (lit "uq_dog_profiles_owner_representative")), d)
  else insert_row k g (fun d => bool_decide (is_Some (users d !! owner_id g)) && ref_ok (images d) (dog_profile_image_id g)) d.

Fixpoint create_dogs (now : Z) (users : list Z) (index : nat) (specs : list (ustr * ustr * ustr)) : M seed_state unit :=
  match specs with
  | [] => mret tt
  | (name, kind, sex) :: specs' =>
      match users !! (index mod length users)%nat with
      | None => raise PyValueError
      | Some owner =>
          image ← create_image "profile" (index + 2) owner now;
          age ← draw (randint 400 2500);
          k ← new_uuid7;
          at_db (insert_dog k {| owner_id := owner; dog_name := name; breed := kind; gender := sex; birth_date := (now - age * DAY) / DAY;
                                 dog_profile_image_id := image; is_representative := (index <? length users)%nat;
                                 dog_created_at := now; dog_updated_at := now |}) ;;
          create_dogs now users (S index) specs'
      end
  end.

Definition create_users (now : Z) : M seed_state (list Z) :=
  users ← create_accounts now 0 DEMO_USERS;
  create_dogs now users 0 DEMO_DOGS ;;
  mret users.

(** ** Posts ([ensure_hashtags], [create_posts]) *)

Definition insert_hashtag (name : ustr) : M db Z := fun d =>
  let h := hashtag_seq d + 1 in
  match hashtags d !! h with
  | Some _ => (inl (UniqueViolation (lit "hashtags_pkey")), d <| hashtag_seq := h |>)
  | None => (inr h, d <| hashtag_seq := h |> <| hashtags := <[h := name]> (hashtags d) |>)
  end.

Fixpoint ensure_hashtags (names : list ustr) : M db (list (ustr * Z)) :=
  match names with
  | [] => mret []
  | name :: names' =>
      d ← get;
      tag ← match hashtag_id name d with
            | Some h => mret h
            | None => insert_hashtag name
            end;
      rest ← ensure_hashtags names';
      mret ((name, tag) :: rest)
  end.

(** [str.format(dog=...)] *)
Definition with_dog (dog template : ustr) : ustr := replace (lit "{dog}") dog template.

Definition insert_tag (post tag : Z) : M db unit := fun d =>
  if bool_decide ((post, tag) ∈ post_hashtags d) then (inl (UniqueViolation (lit "post_hashtags_pkey")), d)
  else if bool_decide (is_Some (posts d !! post)) && bool_decide (is_Some (hashtags d !! tag))
       then (inr tt, d <| post_hashtags := {[(post, tag)]} ∪ post_hashtags d |>)
       else (inl ForeignKeyViolation, d).

Record seeded_post := { sp_id : Z; sp_author : Z; sp_created : Z }.

Fixpoint create_each_post (tags : list (ustr * Z)) (users : list Z) (index : nat) (stamps : list Z) : M seed_state (list seeded_post) :=
  match stamps with
  | [] => mret []
  | created :: stamps' =>
      match POST_TEMPLATES !! (index mod length POST_TEMPLATES)%nat, users !! (index mod length users)%nat with
      | Some (category, title_tpl, body_tpl), Some author =>
          dog ← choice ((fun g => g.1.1) <$> DEMO_DOGS);
          tail ← choice POST_TAILS;
          base ← draw (randint 3 40);
          factor ← choice [1; 1; 1; 5; 25];
          k ← new_uuid7;
          at_db (insert_row k {| user_id := Some author; title := with_dog dog title_tpl; content := with_dog dog body_tpl ++ [10; 10] ++ tail;
                                 category_id := Some category; view_count := base * factor; like_count := 0; comment_count := 0; report_count := 0;
                                 is_blinded := false; created_at := created; updated_at := created; deleted_at := None; version := 1 |}
                   (fun d => bool_decide (is_Some (Db.users d !! author)) && bool_decide (category ∈ categories d))) ;;
          n ← draw (randint 2 4);
          names ← sample tags n;
          for_each names (fun t => at_db (insert_tag k t.2)) ;;
          (if (index mod 3 =? 0)%nat
           then image ← create_image "post" index author created;
                match image with
                | Some i => link ← new_uuid7; at_db (insert_post_image created k (link, i))
                | None => mret tt
                end
           else mret tt) ;;
          rest ← create_each_post tags users (S index) stamps';
          mret ({| sp_id := k; sp_author := author; sp_created := created |} :: rest)
      | _, _ => raise PyValueError
      end
  end.

Definition create_posts (now count : Z) (users : list Z) : M seed_state (list seeded_post) :=
  tags ← at_db (ensure_hashtags HASHTAGS);
  stamps ← post_timestamps now count;
  create_each_post tags users 0 stamps.

(** ** Comments, likes, notifications ([create_engagement]) *)

Definition insert_comment (now k post : Z) (author parent : option Z) (text : ustr) : M db unit :=
  insert_row k {| c_post_id := post; author_id := author; parent_id := parent; c_content := text; c_like_count := 0; c_report_count := 0;
                  c_is_blinded := false; c_created_at := now; c_updated_at := now; c_deleted_at := None |}
    (fun d => bool_decide (is_Some (posts d !! post)) && ref_ok (Db.users d) author && ref_ok (comments d) parent).

(** A third stays unread. *)
Definition add_notification (at_ recipient : Z) (k : NotificationKind) (actor : Z) (post : Z) (comment : option Z) : M seed_state unit :=
  unread ← draw (random_below 34);
  nid ← new_uuid7;
  at_db (insert_row nid {| n_user_id := recipient; kind := k; actor_id := Some actor; n_post_id := Some post; n_comment_id := comment;
                           read_at := if unread : bool then None else Some at_; n_created_at := at_ |}
           (fun d => bool_decide (is_Some (Db.users d !! recipient)) && bool_decide (is_Some (Db.users d !! actor)) &&
                     bool_decide (is_Some (posts d !! post)) && ref_ok (comments d) comment)).

Record root := { ro_id : Z; ro_author : Z; ro_created : Z }.

Fixpoint create_roots (n : nat) (users : list Z) (p : seeded_post) (at_ : Z) : M seed_state (list root) :=
  match n with
  | O => mret []
  | S n' =>
      commenter ← choice users;
      gap ← draw (randint 5 600);
      let at_ := at_ + 60 * gap in
      text ← choice COMMENT_TEMPLATES;
      k ← new_uuid7;
      at_db (insert_comment at_ k (sp_id p) (Some commenter) None text) ;;
      (if bool_decide (commenter = sp_author p) then mret tt
       else add_notification at_ (sp_author p) COMMENT_ON_POST commenter (sp_id p) (Some k)) ;;
      rest ← create_roots n' users p at_;
      mret ({| ro_id := k; ro_author := commenter; ro_created := at_ |} :: rest)
  end.

(** Under the last root, by the post's author. *)
Definition create_reply (p : seeded_post) (roots : list root) : M seed_state Z :=
  match last roots with
  | None => mret 0
  | Some parent =>
      replied ← draw (random_below 40);
      if replied : bool
      then
        gap ← draw (randint 3 120);
        text ← choice REPLY_TEMPLATES;
        k ← new_uuid7;
        at_db (insert_comment (ro_created parent + 60 * gap) k (sp_id p) (Some (sp_author p)) (Some (ro_id parent)) text) ;;
        mret 1
      else mret 0
  end.

(** A like row; an existing one violates the key. *)
Definition insert_post_like (post user at_ : Z) : M db unit :=
  @insert_row _ _ _ _ post_likes_table (post, user) at_ (fun d => bool_decide (is_Some (posts d !! post)) && bool_decide (is_Some (Db.users d !! user))).
Definition insert_comment_like (comment user at_ : Z) : M db unit :=
  @insert_row _ _ _ _ comment_likes_table (comment, user) at_
    (fun d => bool_decide (is_Some (comments d !! comment)) && bool_decide (is_Some (Db.users d !! user))).

Definition maybe_notify (at_ recipient liker : Z) (k : NotificationKind) (post : Z) (comment : option Z) : M seed_state unit :=
  if bool_decide (liker = recipient) then mret tt
  else notified ← draw (random_below 30);
       if notified : bool then add_notification at_ recipient k liker post comment else mret tt.

Definition like_root (users : list Z) (p : seeded_post) (r : root) : M seed_state unit :=
  skipped ← draw (random_below 50);
  if skipped : bool then mret tt
  else
    n ← draw (randint 1 (Z.min 5 (py_len users)));
    likers ← sample users n;
    for_each likers (fun liker =>
      gap ← draw (randint 1 480);
      at_db (insert_comment_like (ro_id r) liker (ro_created r + 60 * gap)) ;;
      maybe_notify (ro_created r + 60 * gap) (ro_author r) liker LIKE_COMMENT (sp_id p) (Some (ro_id r))) ;;
    at_db (fun d => (inr tt, update_where (fun k (_ : Comment) => bool_decide (k = ro_id r)) (fun c : Comment => c <| c_like_count := py_len likers |>) d)).

Definition like_post (users : list Z) (p : seeded_post) : M seed_state Z :=
  n ← draw (randint 0 (Z.min 6 (py_len users)));
  likers ← sample users n;
  for_each likers (fun liker =>
    gap ← draw (randint 1 900);
    at_db (insert_post_like (sp_id p) liker (sp_created p + 60 * gap)) ;;
    maybe_notify (sp_created p + 60 * gap) (sp_author p) liker LIKE_POST (sp_id p) None) ;;
  mret (py_len likers).

(** [post.like_count = ...; post.comment_count = ...]: values that were there
    already are no change, and no change is no new version. *)
Definition set_counts (likes comments : Z) (q : Post) : Post :=
  q <| like_count := likes |> <| comment_count := comments |>
    <| version := if (like_count q =? likes) && (comment_count q =? comments) then version q else version q + 1 |>.

Definition engage (users : list Z) (p : seeded_post) : M seed_state unit :=
  n ← draw (randint 0 4);
  roots ← create_roots (Z.to_nat n) users p (sp_created p);
  replies ← create_reply p roots;
  for_each roots (like_root users p) ;;
  likes ← like_post users p;
  at_db (fun d => (inr tt, update_where (fun k (_ : Post) => bool_decide (k = sp_id p)) (set_counts likes (py_len roots + replies)) d)).

Definition create_engagement (users : list Z) (ps : list seeded_post) : M seed_state unit := for_each ps (engage users).

(** ** Conversations ([create_chats]) *)

Definition insert_room (k : Z) (room : ChatRoom) : M db unit := fun d =>
  if negb (user1_id room <? user2_id room) then (inl CheckViolation, d)
  else if bool_decide (is_Some (find_room (user1_id room) (user2_id room) d)) then (inl (UniqueViolation (lit "uq_chat_rooms_user_pair")), d)
  else insert_row k room (fun d => bool_decide (is_Some (Db.users d !! user1_id room)) && bool_decide (is_Some (Db.users d !! user2_id room))) d.

Fixpoint write_script (room started : Z) (speakers : list Z) (index : nat) (script : list (nat * ustr)) : M seed_state unit :=
  match script with
  | [] => mret tt
  | (speaker, text) :: script' =>
      match speakers !! speaker with
      | None => raise PyValueError
      | Some sender =>
          gap ← draw (randint 2 9);
          k ← new_uuid7;
          at_db (insert_row k {| room_id := room; sender_id := sender; msg_content := text; is_read := (index <? length DM_SCRIPT - 2)%nat;
                                 msg_created_at := started + 60 * (Z.of_nat index * gap) |}
                   (fun d => bool_decide (is_Some (chat_rooms d !! room)) && bool_decide (is_Some (Db.users d !! sender)))) ;;
          write_script room started speakers (S index) script'
      end
  end.

Definition PAIRS : list (nat * nat) := [(0, 1); (0, 2); (3, 4)]%nat.

Fixpoint create_rooms (now : Z) (users : list Z) (room_index : Z) (pairs : list (nat * nat)) : M seed_state unit :=
  match pairs with
  | [] => mret tt
  | (i, j) :: pairs' =>
      match users !! i, users !! j with
      | Some a, Some b =>
          hours ← draw (randint 1 20);
          let started := now - (room_index + 1) * DAY - hours * 3600 in
          k ← new_uuid7;
          at_db (insert_room k {| user1_id := (normalize_dm_user_ids a b).1; user2_id := (normalize_dm_user_ids a b).2;
                                  room_created_at := started; room_updated_at := started |}) ;;
          write_script k started [a; b] 0 DM_SCRIPT ;;
          create_rooms now users (room_index + 1) pairs'
      | _, _ => raise PyValueError
      end
  end.
Definition create_chats (now : Z) (users : list Z) : M seed_state unit := create_rooms now users 0 PAIRS.

(** ** [seed] *)

(** [async with db.begin()]: objects stay in the store. *)
Definition seed_tx {A : Type} (m : M seed_state A) : M seed_state A := fun s =>
  match m s with
  | (inl e, s') => (inl e, s' <| sd_world := sd_world s' <| w_db := w_db (sd_world s) |> |>)
  | (inr a, s') => (inr a, s')
  end.

(** The exit code; the clock is read once per step. *)
Definition seed (force with_images : bool) (post_count now : Z) : M seed_state Z := fun s =>
  seed_tx
    (s ← get;
     if negb (bool_decide (demo_user_ids (w_db (sd_world s)) = [])) && negb force then mret 0
     else
       (if force then at_db purge_demo_data else mret tt) ;;
       users ← create_users now;
       ps ← create_posts now post_count users;
       create_engagement users ps ;;
       create_chats now users ;;
       mret 0)
    (s <| sd_upload := with_images && negb (bool_decide (S3_BUCKET_NAME cfg = [])) |>).
End Seed.
