(* ===== verification/SeedInvariant.v ===== *)
(** * What the demo seed leaves in the store ([scripts/seed_demo.py])

    A Hoare logic for the steps of [SeedDemo], in which a counter may lag its
    rows for the one post and the one comment being filled, and the theorem that
    a finished run keeps six invariants of the components it writes to. *)

From S2P Require Import Prelude Ids Common Redis Db World Media Search Posts Notifications Comments Likes Moderation Dogs Users Chat SeedData SeedDemo.

(** ** The store's invariants *)

(** At most one representative dog for an owner. *)
Definition one_representative (d : db) : Prop :=
  forall k1 k2 g1 g2, dogs d !! k1 = Some g1 -> dogs d !! k2 = Some g2 -> owner_id g1 = owner_id g2 ->
    is_representative g1 = true -> is_representative g2 = true -> k1 = k2.

(** The foreign keys the counters depend on. *)
Definition refs_ok (d : db) : Prop :=
  (forall t u x, post_likes d !! (t, u) = Some x -> is_Some (posts d !! t)) /\
  (forall t u x, comment_likes d !! (t, u) = Some x -> is_Some (comments d !! t)) /\
  (forall k c, comments d !! k = Some c -> is_Some (posts d !! c_post_id c)).

(** The tables the invariants speak of; the others are emptied. *)
Definition core (d : db) : db :=
  d <| images := ∅ |> <| post_images := ∅ |> <| notifications := ∅ |> <| hashtags := ∅ |> <| hashtag_seq := 0 |> <| post_hashtags := ∅ |>.

(** The invariants, but for the counters of the post [hp] and of the comment
    [hc]; comment counts are followed for the posts in [good]. *)
Record lagging (good : Z -> Prop) (hp hc : option Z) (d : db) : Prop := {
  ok_post_likes : forall t n, hp <> Some t -> post_counter d t = Some n -> n = likes_of (post_likes d) t;
  ok_comment_likes : forall t n, hc <> Some t -> comment_counter d t = Some n -> n = likes_of (comment_likes d) t;
  ok_comments : forall t p, good t -> hp <> Some t -> posts d !! t = Some p -> comment_count p = count_visible_for_post t d;
  ok_threads : thread_shape d;
  ok_users : users_unique d;
  ok_chat : chat_ok d;
  ok_dogs : one_representative d;
  ok_refs : refs_ok d;
}.
Notation settled good := (lagging good None None).

Lemma settled_likes good d : settled good d -> likes_ok d.
Proof. intros Hd. split; intros t n Ht; [by eapply ok_post_likes|by eapply ok_comment_likes]. Qed.

(** ** Rows of a fresh key *)

Lemma likes_of_none (m : gmap (Z * Z) Z) t : (forall u, m !! (t, u) = None) -> likes_of m t = 0.
Proof.
  intros Hn. unfold likes_of. rewrite map_empty_filter_2; [done|]. intros [k u] x Hx. cbn. intros ->. by rewrite Hn in Hx.
Qed.

Lemma count_visible_none pid d : (forall k c, comments d !! k = Some c -> c_post_id c <> pid) -> count_visible_for_post pid d = 0.
Proof.
  intros Hn. unfold count_visible_for_post, select_where. cbn [rows comments_table]. rewrite filter_map_to_list_none; [done|].
  intros k c Hc. unfold counted. by rewrite bool_decide_eq_false_2 by (by eapply Hn).
Qed.

Lemma fresh_post_rows k d : refs_ok d -> posts d !! k = None ->
  (forall u, post_likes d !! (k, u) = None) /\ (forall j c, comments d !! j = Some c -> c_post_id c <> k).
Proof.
  intros (Hpl & _ & Hc) Hk. split.
  - intros u. destruct (post_likes d !! (k, u)) eqn:E; [|done]. apply Hpl in E. rewrite Hk in E. by destruct E.
  - intros j c Hj <-. apply Hc in Hj. rewrite Hk in Hj. by destruct Hj.
Qed.

Lemma fresh_comment_likes k d : refs_ok d -> comments d !! k = None -> forall u, comment_likes d !! (k, u) = None.
Proof.
  intros (_ & Hcl & _) Hk u. destruct (comment_likes d !! (k, u)) eqn:E; [|done]. apply Hcl in E. rewrite Hk in E. by destruct E.
Qed.

(** ** Single rows *)

Section Rows.
Context (good : Z -> Prop).

Lemma lagging_weaken k d : settled good d -> lagging good (Some k) None d.
Proof. intros []. constructor; try done; intros; naive_solver. Qed.
Lemma lagging_weaken_comment hp k d : lagging good hp None d -> lagging good hp (Some k) d.
Proof. intros []. constructor; try done; intros; naive_solver. Qed.

Lemma lagging_insert_post k p d : settled good d -> posts d !! k = None -> like_count p = 0 -> comment_count p = 0 ->
  settled good (d <| posts := <[k := p]> (posts d) |>).
Proof.
  intros Hd Hk Hl Hc. pose proof (fresh_post_rows k d (ok_refs _ _ _ _ Hd) Hk) as [Hpl Hcm]. destruct Hd. constructor; try done.
  - intros t n Ht. unfold post_counter. cbn [posts over]. destruct (decide (t = k)) as [->|Hne].
    + rewrite lookup_insert_eq. cbn. case_decide; [|done]. intros [= <-]. rewrite Hl. symmetry. by apply likes_of_none.
    + rewrite lookup_insert_ne by done. by apply ok_post_likes0.
  - intros t q Hg Ht. cbn [posts over]. rewrite count_visible_posts. destruct (decide (t = k)) as [->|Hne].
    + rewrite lookup_insert_eq. intros [= <-]. rewrite Hc. symmetry. by apply count_visible_none.
    + rewrite lookup_insert_ne by done. by apply ok_comments0.
  - destruct ok_refs0 as (H1 & H2 & H3). split_and!; [|done|]; cbn [posts over post_likes comments].
    + intros t u x Hx. apply lookup_insert_is_Some'. right. by eapply H1.
    + intros j c Hj. apply lookup_insert_is_Some'. right. by eapply H3.
Qed.

(** The lagging post gets its counters. *)
Lemma lagging_settle_post k q d : lagging good (Some k) None d -> is_Some (posts d !! k) ->
  like_count q = likes_of (post_likes d) k -> comment_count q = count_visible_for_post k d ->
  settled good (d <| posts := <[k := q]> (posts d) |>).
Proof.
  intros [] Hk Hl Hc. constructor; try done.
  - intros t n Ht. unfold post_counter. cbn [posts over]. destruct (decide (t = k)) as [->|Hne].
    + rewrite lookup_insert_eq. cbn. case_decide; [|done]. by intros [= <-].
    + rewrite lookup_insert_ne by done. apply ok_post_likes0. congruence.
  - intros t p Hg Ht. cbn [posts over]. rewrite count_visible_posts. destruct (decide (t = k)) as [->|Hne].
    + rewrite lookup_insert_eq. by intros [= <-].
    + rewrite lookup_insert_ne by done. apply ok_comments0; [done|congruence].
  - destruct ok_refs0 as (H1 & H2 & H3). split_and!; [|done|]; cbn [posts over post_likes comments].
    + intros t u x Hx. apply lookup_insert_is_Some'. right. by eapply H1.
    + intros j c Hj. apply lookup_insert_is_Some'. right. by eapply H3.
Qed.

(** A new comment changes the count of its own post only. *)
Lemma count_visible_add pid k x d : thread_shape d -> comments d !! k = None ->
  let d' := d <| comments := <[k := x]> (comments d) |> in
  count_visible_for_post pid d' = count_visible_for_post pid d + if counted pid d' k x then 1 else 0.
Proof.
  intros Ht Hk d'. pose proof (count_visible_change pid d k x) as Hc. fold d' in Hc. rewrite Hk in Hc. rewrite <-Hc; [lia|].
  intros j y Hne Hj. apply counted_frame.
  - intros y0 _ E. by rewrite Hk in E.
  - intros Hr. destruct (Ht j y k Hj Hr) as (p & E & _). by rewrite Hk in E.
Qed.

Lemma lagging_insert_comment k c d : lagging good (Some (c_post_id c)) None d -> comments d !! k = None ->
  is_Some (posts d !! c_post_id c) -> c_like_count c = 0 ->
  (forall r, parent_id c = Some r -> exists p, comments d !! r = Some p /\ parent_id p = None /\ c_post_id p = c_post_id c) ->
  lagging good (Some (c_post_id c)) None (d <| comments := <[k := c]> (comments d) |>).
Proof.
  intros Hd Hk Hp Hl Hpar. pose proof (fresh_comment_likes k d (ok_refs _ _ _ _ Hd) Hk) as Hcl. destruct Hd. constructor; try done.
  - intros t n Ht. unfold comment_counter. cbn [comments over]. destruct (decide (t = k)) as [->|Hne].
    + rewrite lookup_insert_eq. cbn. case_decide; [|done]. intros [= <-]. rewrite Hl. symmetry. by apply likes_of_none.
    + rewrite lookup_insert_ne by done. by apply ok_comment_likes0.
  - intros t p Hg Ht Hpt. rewrite count_visible_add by done. unfold counted at 1.
    rewrite bool_decide_eq_false_2 by congruence. cbn [andb]. rewrite Z.add_0_r. by apply ok_comments0.
  - intros j y r. cbn [comments over]. assert (forall i, comments d !! i <> None -> i <> k) as Hnk by (intros i Hi ->; by rewrite Hk in Hi).
    destruct (decide (j = k)) as [->|Hne].
    + rewrite lookup_insert_eq. intros [= <-] Hr. destruct (Hpar r Hr) as (p & E & ?). exists p. split; [|done].
      rewrite lookup_insert_ne; [done|]. intros <-. by rewrite Hk in E.
    + rewrite lookup_insert_ne by done. intros Hj Hr. destruct (ok_threads0 j y r Hj Hr) as (p & E & ?). exists p. split; [|done].
      rewrite lookup_insert_ne; [done|]. intros <-. by rewrite Hk in E.
  - destruct ok_refs0 as (H1 & H2 & H3). split_and!; [done| |]; cbn [posts over comment_likes comments].
    + intros t u x Hx. apply lookup_insert_is_Some'. right. by eapply H2.
    + intros j y [[-> <-]|[_ Hj]]%lookup_insert_Some; [done|]. by eapply H3.
Qed.

(** A counter written to a comment changes no count of comments. *)
Lemma count_visible_like_count pid k c n d : comments d !! k = Some c ->
  count_visible_for_post pid (d <| comments := <[k := c <| c_like_count := n |>]> (comments d) |>) = count_visible_for_post pid d.
Proof.
  intros Hk. set (c' := c <| c_like_count := n |>). pose proof (count_visible_change pid d k c') as Hc. cbn zeta in Hc. rewrite Hk in Hc.
  assert (forall j y, counted pid d j y = counted pid (d <| comments := <[k := c']> (comments d) |>) j y) as Hf.
  { intros j y. apply counted_frame; [|intros _; by eexists]. intros y0 _ E. rewrite Hk in E. injection E as <-. done. }
  specialize (Hc ltac:(intros; apply Hf)). rewrite <-Hf in Hc.
  assert (counted pid d k c' = counted pid d k c) as Hcc by done. rewrite Hcc in Hc. destruct (counted pid d k c); lia.
Qed.

Lemma lagging_settle_comment hp k c n d : lagging good hp (Some k) d -> comments d !! k = Some c -> n = likes_of (comment_likes d) k ->
  lagging good hp None (d <| comments := <[k := c <| c_like_count := n |>]> (comments d) |>).
Proof.
  intros [] Hk Hn. constructor; try done.
  - intros t m Ht. unfold comment_counter. cbn [comments over]. destruct (decide (t = k)) as [->|Hne].
    + rewrite lookup_insert_eq. cbn. case_decide; [|done]. intros [= <-]. done.
    + rewrite lookup_insert_ne by done. apply ok_comment_likes0. congruence.
  - intros t p Hg Ht Hpt. rewrite (count_visible_like_count t k c n d Hk). by apply ok_comments0.
  - eapply thread_shape_same; [|exact ok_threads0]. intros j. cbn [comments over]. destruct (decide (j = k)) as [->|Hne].
    + by rewrite lookup_insert_eq, Hk.
    + by rewrite lookup_insert_ne.
  - destruct ok_refs0 as (H1 & H2 & H3). split_and!; [done| |]; cbn [posts over comment_likes comments].
    + intros t u x Hx. apply lookup_insert_is_Some'. right. by eapply H2.
    + intros j y [[-> <-]|[_ Hj]]%lookup_insert_Some; [exact (H3 j c Hk)|by eapply H3].
Qed.

Lemma lagging_insert_post_like k u at_ d : lagging good (Some k) None d -> post_likes d !! (k, u) = None -> is_Some (posts d !! k) ->
  lagging good (Some k) None (d <| post_likes := <[(k, u) := at_]> (post_likes d) |>).
Proof.
  intros [] Hn Hk. constructor; try done.
  - intros t n Ht Hc. cbn [post_likes over]. rewrite likes_of_insert by done. rewrite decide_False by congruence. rewrite Z.add_0_r. by apply ok_post_likes0.
  - destruct ok_refs0 as (H1 & H2 & H3). split_and!; [|done..]. cbn [posts over post_likes].
    intros t v x [[[= <- <-] _]|[_ Hx]]%lookup_insert_Some; [done|]. by eapply H1.
Qed.

Lemma lagging_insert_comment_like hp k u at_ d : lagging good hp (Some k) d -> comment_likes d !! (k, u) = None -> is_Some (comments d !! k) ->
  lagging good hp (Some k) (d <| comment_likes := <[(k, u) := at_]> (comment_likes d) |>).
Proof.
  intros [] Hn Hk. constructor; try done.
  - intros t n Ht Hc. cbn [comment_likes over]. rewrite likes_of_insert by done. rewrite decide_False by congruence. rewrite Z.add_0_r. by apply ok_comment_likes0.
  - destruct ok_refs0 as (H1 & H2 & H3). split_and!; [done| |done]. cbn [comments over comment_likes].
    intros t v x [[[= <- <-] _]|[_ Hx]]%lookup_insert_Some; [done|]. by eapply H2.
Qed.
End Rows.

Section Accounts.
Context (good : Z -> Prop).

Lemma chat_ok_users d m : (forall k, is_Some (users d !! k) -> is_Some (m !! k)) -> chat_ok d -> chat_ok (d <| users := m |>).
Proof. intros Hm (H1 & H2 & H3). split_and!; try done. intros r room Hr. destruct (H1 r room Hr) as (? & ? & ?). split_and!; [done|by apply Hm..]. Qed.

Lemma lagging_insert_user hp hc k u d : lagging good hp hc d -> unique_error k u d = None ->
  lagging good hp hc (d <| users := <[k := u]> (users d) |>).
Proof.
  intros [] Hu. constructor; try done; [by apply users_unique_insert|].
  apply chat_ok_users; [|done]. intros j Hj. apply lookup_insert_is_Some'. by right.
Qed.

(** Columns other than the unique ones. *)
Lemma lagging_update_users hp hc m d :
  (forall k, (fun u => (email u, nickname u)) <$> m !! k = (fun u => (email u, nickname u)) <$> users d !! k) ->
  lagging good hp hc d -> lagging good hp hc (d <| users := m |>).
Proof.
  intros Hm []. constructor; try done.
  - intros k1 k2 u1 u2. cbn [users over]. intros H1 H2 He. pose proof (Hm k1) as E1. pose proof (Hm k2) as E2. rewrite H1 in E1. rewrite H2 in E2.
    destruct (users d !! k1) as [v1|] eqn:F1; [|done]. destruct (users d !! k2) as [v2|] eqn:F2; [|done].
    cbn in E1, E2. injection E1 as ??. injection E2 as ??. apply (ok_users0 k1 k2 v1 v2 F1 F2). destruct He; [left|right]; congruence.
  - apply chat_ok_users; [|done]. intros k. pose proof (Hm k) as E. destruct (m !! k), (users d !! k); done.
Qed.

Lemma another_representative_false owner k d : another_representative owner k d = false ->
  forall j g, dogs d !! j = Some g -> owner_id g = owner -> is_representative g = true -> j = k.
Proof.
  unfold another_representative. rewrite <-not_true_iff_false, existsb_exists. intros Hn j g Hj Ho Hr.
  destruct (decide (j = k)) as [|Hne]; [done|]. destruct Hn. exists (j, g). cbn.
  split; [by apply list_elem_of_In, elem_of_map_to_list|]. by rewrite Hr, !bool_decide_eq_true_2.
Qed.

Lemma lagging_insert_dog hp hc k g d : lagging good hp hc d -> dogs d !! k = None ->
  is_representative g && another_representative (owner_id g) k d = false ->
  lagging good hp hc (d <| dogs := <[k := g]> (dogs d) |>).
Proof.
  intros [] Hk Ho. constructor; try done. intros k1 k2 g1 g2. cbn [dogs over].
  assert (forall j g', is_representative g = true -> dogs d !! j = Some g' -> owner_id g' = owner_id g -> is_representative g' = true -> False) as Hno.
  { intros j g' Hg Hj Ho' Hr. rewrite Hg in Ho. assert (j = k) as -> by (by eapply (another_representative_false (owner_id g))). by rewrite Hk in Hj. }
  intros [[<- <-]|[_ H1]]%lookup_insert_Some [[<- <-]|[_ H2]]%lookup_insert_Some He R1 R2; [done| | |by eapply ok_dogs0];
    exfalso; eapply Hno; eauto.
Qed.

Lemma lagging_insert_room hp hc k room d : lagging good hp hc d -> chat_rooms d !! k = None ->
  user1_id room < user2_id room -> find_room (user1_id room) (user2_id room) d = None ->
  is_Some (users d !! user1_id room) -> is_Some (users d !! user2_id room) ->
  lagging good hp hc (d <| chat_rooms := <[k := room]> (chat_rooms d) |>).
Proof.
  intros [] Hk Hlt Hf H1 H2. pose proof (find_room_spec (user1_id room) (user2_id room) d) as Hs. rewrite Hf in Hs.
  destruct ok_chat0 as (C1 & C2 & C3). constructor; try done. split_and!; cbn [chat_rooms over users chat_messages].
  - intros r x [[_ <-]|[_ Hr]]%lookup_insert_Some; [done|]. by eapply C1.
  - intros r1 r2 a b [[<- <-]|[_ Ha]]%lookup_insert_Some [[<- <-]|[_ Hb]]%lookup_insert_Some E1 E2; [done| | |by eapply C2];
      exfalso; eapply Hs; eauto.
  - intros m msg Hm. destruct (C3 m msg Hm) as (x & Hx & Hmem). exists x. split; [|done]. rewrite lookup_insert_ne; [done|].
    intros E. rewrite <-E, Hk in Hx. done.
Qed.

Lemma lagging_insert_message hp hc m msg room d : lagging good hp hc d -> chat_rooms d !! room_id msg = Some room ->
  is_member (sender_id msg) room = true -> lagging good hp hc (d <| chat_messages := <[m := msg]> (chat_messages d) |>).
Proof. intros [] Hr Hm. constructor; try done. by eapply chat_ok_message. Qed.
End Accounts.

(** ** A Hoare logic for the seed's steps

    On the core tables and on normal outcomes: an exception undoes the whole
    transaction. *)

Section Logic.
Context `{Random}.

Definition tables (s : seed_state) : db := core (w_db (sd_world s)).
Definition hoare {A : Type} (P : db -> Prop) (m : M seed_state A) (Q : A -> db -> Prop) : Prop :=
  forall s a s', m s = (inr a, s') -> P (tables s) -> Q a (tables s').
(** Steps that leave the core alone, with what is known of their result. *)
Definition yields {A : Type} (m : M seed_state A) (post : A -> Prop) : Prop :=
  forall s a s', m s = (inr a, s') -> tables s' = tables s /\ post a.

Lemma hoare_bind {A B : Type} P (m : M seed_state A) Q (k : A -> M seed_state B) R :
  hoare P m Q -> (forall a, hoare (Q a) (k a) R) -> hoare P (m ≫= k) R.
Proof.
  intros Hm Hk s b s' E Hs. unfold mbind, M_bind in E. destruct (m s) as [[e|a] s1] eqn:Em; [done|].
  eapply Hk; [exact E|]. by eapply Hm.
Qed.
Lemma hoare_step {A B : Type} P (m : M seed_state A) (post : A -> Prop) (k : A -> M seed_state B) R :
  yields m post -> (forall a, post a -> hoare P (k a) R) -> hoare P (m ≫= k) R.
Proof.
  intros Hm Hk s b s' E Hs. unfold mbind, M_bind in E. destruct (m s) as [[e|a] s1] eqn:Em; [done|].
  destruct (Hm s a s1 Em) as [Et Ha]. eapply Hk; [exact Ha|exact E|]. by rewrite Et.
Qed.
Lemma hoare_ret {A : Type} P (a : A) (Q : A -> db -> Prop) : (forall d, P d -> Q a d) -> hoare P (mret a) Q.
Proof. intros HQ s b s' [= <- <-]. apply HQ. Qed.
Lemma hoare_raise {A : Type} P e (Q : A -> db -> Prop) : hoare P (raise e) Q.
Proof. by intros s b s'. Qed.
Lemma hoare_weaken {A : Type} (P P' : db -> Prop) (m : M seed_state A) (Q Q' : A -> db -> Prop) :
  hoare P' m Q' -> (forall d, P d -> P' d) -> (forall a d, Q' a d -> Q a d) -> hoare P m Q.
Proof. intros Hm HP HQ s a s' E Hs. apply HQ. eapply Hm; [exact E|]. by apply HP. Qed.
Lemma hoare_yields {A : Type} P (m : M seed_state A) : yields m (fun _ => True) -> hoare P m (fun _ => P).
Proof. intros Hm s a s' E Hs. by destruct (Hm s a s' E) as [-> _]. Qed.

Lemma hoare_for_each {A : Type} (I : list A -> db -> Prop) (body : A -> M seed_state unit) l :
  (forall x l', suffix (x :: l') l -> hoare (I (x :: l')) (body x) (fun _ => I l')) -> hoare (I l) (for_each l body) (fun _ => I []).
Proof.
  induction l as [|x l IH]; intros Hb; cbn [for_each]; [by apply hoare_ret|].
  eapply hoare_bind; [by apply Hb|]. intros []. apply IH. intros y l' Hs. apply Hb. by apply suffix_cons_r.
Qed.

(** A statement on the database, by its effect on the tables. *)
Lemma hoare_db {A : Type} (P : db -> Prop) (m : M db A) (Q : A -> db -> Prop) :
  (forall d a d', m d = (inr a, d') -> P (core d) -> Q a (core d')) -> hoare P (at_db m) Q.
Proof.
  intros Hm s a s' E Hs. unfold at_db, on_db in E. destruct (m (w_db (sd_world s))) as [r d'] eqn:Em. injection E as -> <-.
  by apply (Hm _ _ _ Em).
Qed.
Lemma hoare_modify (P : db -> Prop) (f : db -> db) (Q : unit -> db -> Prop) :
  (forall d, P (core d) -> Q tt (core (f d))) -> hoare P (at_db (fun d => (inr tt, f d))) Q.
Proof. intros Hf. apply hoare_db. intros d [] d' E. apply (f_equal snd) in E. cbn [snd] in E. subst d'. apply Hf. Qed.
Lemma yields_db {A : Type} (m : M db A) : (forall d a d', m d = (inr a, d') -> core d' = core d) -> yields (at_db m) (fun _ => True).
Proof.
  intros Hm s a s' E. unfold at_db, on_db in E. destruct (m (w_db (sd_world s))) as [r d'] eqn:Em. injection E as -> <-.
  split; [|done]. by apply (Hm _ _ _ Em).
Qed.

Lemma yields_weaken {A : Type} (m : M seed_state A) (p q : A -> Prop) : yields m p -> (forall a, p a -> q a) -> yields m q.
Proof. intros Hm Hp s a s' E. destruct (Hm s a s' E). auto. Qed.
Lemma yields_bind {A B : Type} (m : M seed_state A) p (k : A -> M seed_state B) q :
  yields m p -> (forall a, p a -> yields (k a) q) -> yields (m ≫= k) q.
Proof.
  intros Hm Hk s b s' E. unfold mbind, M_bind in E. destruct (m s) as [[e|a] s1] eqn:Em; [done|].
  destruct (Hm s a s1 Em) as [<- Ha]. by eapply Hk.
Qed.
Lemma yields_ret {A : Type} (a : A) (p : A -> Prop) : p a -> yields (mret a) p.
Proof. by intros Ha s b s' [= <- <-]. Qed.
Lemma yields_raise {A : Type} e (p : A -> Prop) : yields (raise e) p.
Proof. by intros s b s'. Qed.
Lemma yields_get : yields get (fun _ => True).
Proof. by intros s b s' [= <- <-]. Qed.
Lemma yields_draw {A : Type} (f : rng -> A * rng) (p : A -> Prop) : (forall g, p (f g).1) -> yields (draw f) p.
Proof. intros Hf s a s' E. unfold draw in E. specialize (Hf (sd_rng s)). destruct (f (sd_rng s)) as [x g]. by injection E as <- <-. Qed.
End Logic.

Lemma insert_row_inv {K R : Type} `{Table K R} (k : K) (r : R) refs d a d' : insert_row k r refs d = (inr a, d') ->
  rows d !! k = None /\ refs d = true /\ d' = set_rows (<[k := r]> (rows d)) d.
Proof.
  unfold insert_row. destruct (rows d !! k); [done|]. destruct (refs d) eqn:E; [|done]. by intros [= _ <-].
Qed.

Create HintDb yields.
#[export] Hint Resolve yields_get yields_raise : yields.

(** ** Steps that leave the core alone *)

Section Quiet.
Context `{Random} (uuid7 : nat -> Z) (ulid : nat -> ustr) (gradient_png : nat -> s3obj) (cfg : storage_settings).
Notation anything := (fun _ => True).

Lemma yields_uuid : yields (new_uuid7 uuid7) anything.
Proof. by intros s a s' [= <- <-]. Qed.
Lemma yields_ulid : yields (new_ulid_str ulid) anything.
Proof. by intros s a s' [= <- <-]. Qed.
Lemma yields_any_draw {A : Type} (f : rng -> A * rng) : yields (draw f) anything.
Proof. by apply yields_draw. Qed.
Lemma yields_choice {A : Type} (l : list A) : yields (choice l) anything.
Proof. eapply yields_bind; [apply yields_any_draw|]. intros i _. destruct (l !! i); [by apply yields_ret|apply yields_raise]. Qed.
Lemma yields_sample {A : Type} (l : list A) n : yields (sample l n) anything.
Proof. eapply yields_bind; [apply yields_any_draw|]. intros i _. by apply yields_ret. Qed.
Lemma yields_draws n f : yields (draws n f) anything.
Proof.
  induction n as [|n IH]; cbn [draws]; [by apply yields_ret|]. eapply yields_bind; [apply yields_any_draw|]. intros x _.
  eapply yields_bind; [exact IH|]. intros xs _. by apply yields_ret.
Qed.
Lemma yields_post_timestamps now count : yields (post_timestamps now count) anything.
Proof.
  eapply yields_bind; [apply yields_draws|]. intros x _. eapply yields_bind; [apply yields_draws|]. intros y _. by apply yields_ret.
Qed.

Lemma yields_image purpose index uploader now : yields (create_image uuid7 ulid gradient_png cfg purpose index uploader now) anything.
Proof.
  unfold create_image. eapply yields_bind; [apply yields_get|]. intros s _. destruct (negb (sd_upload s)); [by apply yields_ret|].
  eapply yields_bind; [apply yields_ulid|]. intros name _. eapply (yields_bind _ anything).
  - intros s1 b s2. unfold try_except, mbind at 1, M_bind at 1, at_store.
    pose proof (s3_call_db (fun b => (inr tt : exn + unit, <[lit "media/" ++ lit purpose ++ lit "/" ++ name ++ lit ".png" := gradient_png (index mod length IMAGE_PALETTE)]> b)) (sd_world s1)) as Hdb.
    unfold put_object. destruct (s3_call _ (sd_world s1)) as [[e|[]] w]; intros [= <- <-]; unfold tables; cbn [sd_world sd_upload over]; cbn in Hdb; by rewrite Hdb.
  - intros up _. destruct (negb up); [by apply yields_ret|]. destruct (build_url _ _) as [url|]; [|apply yields_raise].
    eapply yields_bind; [apply yields_uuid|]. intros i _. eapply (yields_bind _ anything); [|intros [] _; by apply yields_ret].
    apply yields_db. by intros d a d' (_ & _ & ->)%insert_row_inv.
Qed.

Lemma yields_notification t recipient k actor post comment : yields (add_notification uuid7 t recipient k actor post comment) anything.
Proof.
  eapply yields_bind; [apply yields_any_draw|]. intros b _. eapply yields_bind; [apply yields_uuid|]. intros nid _.
  apply yields_db. by intros d a d' (_ & _ & ->)%insert_row_inv.
Qed.
Lemma yields_maybe_notify t recipient liker k post comment : yields (maybe_notify uuid7 t recipient liker k post comment) anything.
Proof.
  unfold maybe_notify. destruct (bool_decide _); [by apply yields_ret|]. eapply yields_bind; [apply yields_any_draw|].
  intros [] _; [apply yields_notification|by apply yields_ret].
Qed.

Lemma ensure_hashtags_core names d a d' : ensure_hashtags names d = (inr a, d') -> core d' = core d.
Proof.
  revert d a d'. induction names as [|n names IH]; intros d a d'; cbn [ensure_hashtags]; [by intros [= <- <-]|].
  unfold mbind, M_bind, get. destruct (hashtag_id n d) as [h|]; cbn [mret M_ret].
  - destruct (ensure_hashtags names d) as [[e|r] d1] eqn:E; [done|]. intros [= <- <-]. by eapply IH.
  - unfold insert_hashtag. destruct (hashtags d !! (hashtag_seq d + 1)); [done|].
    match goal with |- context [ensure_hashtags names ?d0] => destruct (ensure_hashtags names d0) as [[e|r] d1] eqn:E end; [done|].
    intros [= <- <-]. by rewrite (IH _ _ _ E).
Qed.
Lemma yields_hashtags names : yields (at_db (ensure_hashtags names)) anything.
Proof. apply yields_db. apply ensure_hashtags_core. Qed.

Lemma yields_tag post tag : yields (at_db (insert_tag post tag)) anything.
Proof.
  apply yields_db. intros d a d'. unfold insert_tag. destruct (bool_decide _); [done|]. destruct (_ && _); [|done]. by intros [= <- <-].
Qed.
Lemma yields_for_each {A : Type} (l : list A) body : (forall x, yields (body x) anything) -> yields (for_each l body) anything.
Proof.
  intros Hb. induction l as [|x l IH]; cbn [for_each]; [by apply yields_ret|]. eapply yields_bind; [apply Hb|]. by intros [] _.
Qed.
Lemma yields_post_image created post link : yields (at_db (insert_post_image created post link)) anything.
Proof.
  apply yields_db. intros d a d'. unfold insert_post_image. destruct link as [i j]. destruct (existsb _ _); [done|].
  by intros (_ & _ & ->)%insert_row_inv.
Qed.
End Quiet.
#[export] Hint Resolve yields_uuid yields_ulid yields_any_draw yields_choice yields_sample yields_draws yields_post_timestamps
  yields_image yields_notification yields_maybe_notify yields_hashtags yields_tag yields_for_each yields_post_image : yields.

(** Past a step that leaves the core alone. *)
Ltac quiet_step := eapply hoare_step; [solve [eauto with yields]|].

Lemma update_where_id {K R : Type} `{Table K R} (pk : K) (f : R -> R) r d : rows d !! pk = Some r ->
  update_where (fun k _ => bool_decide (k = pk)) f d = set_rows (<[pk := f r]> (rows d)) d.
Proof.
  intros Hr. unfold update_where. f_equal. apply map_eq. intros k. rewrite map_lookup_imap. destruct (decide (k = pk)) as [->|Hne].
  - rewrite Hr, lookup_insert_eq. cbn. by rewrite bool_decide_eq_true_2.
  - rewrite lookup_insert_ne by done. destruct (rows d !! k); cbn; [|done]. by rewrite bool_decide_eq_false_2.
Qed.

Section Run.
Context `{Random} (uuid7 : nat -> Z) (ulid : nat -> ustr) (gradient_png : nat -> s3obj) (hashed : ustr) (cfg : storage_settings).
Context (good : Z -> Prop).

(** ** Accounts and dogs *)

Lemma hoare_insert_user hp hc k u : hoare (lagging good hp hc) (at_db (insert_user k u)) (fun _ => lagging good hp hc).
Proof.
  apply hoare_db. intros d [] d'. unfold insert_user. destruct (unique_error k u d) eqn:E; [done|].
  intros (_ & _ & ->)%insert_row_inv Hd. exact (lagging_insert_user good hp hc k u (core d) Hd E).
Qed.

Lemma hoare_set_profile_image k i : hoare (settled good) (at_db (set_profile_image k i)) (fun _ => settled good).
Proof.
  apply hoare_db. intros d [] d' [= <-] Hd. refine (lagging_update_users good None None _ (core d) _ Hd).
  intros j. cbn. rewrite map_lookup_imap. destruct (users d !! j) as [u|]; cbn; [|done]. by destruct (bool_decide _).
Qed.

Lemma hoare_accounts now index specs :
  hoare (settled good) (create_accounts uuid7 ulid gradient_png hashed cfg now index specs) (fun _ => settled good).
Proof.
  revert index. induction specs as [|[mail nick] specs IH]; intros index; cbn [create_accounts]; [by apply hoare_ret|].
  quiet_step. intros k _. eapply hoare_bind; [apply hoare_insert_user|]. intros []. quiet_step. intros image _.
  apply (hoare_bind _ _ (fun _ => settled good)).
  - destruct image; [apply hoare_set_profile_image|by apply hoare_ret].
  - intros []. eapply hoare_bind; [apply IH|]. intros ks. by apply hoare_ret.
Qed.

Lemma hoare_insert_dog k g : hoare (settled good) (at_db (insert_dog k g)) (fun _ => settled good).
Proof.
  apply hoare_db. intros d [] d'. unfold insert_dog.
  destruct (is_representative g && another_representative (owner_id g) k d) eqn:E; [done|].
  intros (Hk & _ & ->)%insert_row_inv Hd. exact (lagging_insert_dog good None None k g (core d) Hd Hk E).
Qed.

Lemma hoare_dogs now users index specs :
  hoare (settled good) (create_dogs uuid7 ulid gradient_png cfg now users index specs) (fun _ => settled good).
Proof.
  revert index. induction specs as [|[[name kind] sex] specs IH]; intros index; cbn [create_dogs]; [by apply hoare_ret|].
  destruct (users !! _) as [owner|]; [|apply hoare_raise]. quiet_step. intros image _. quiet_step. intros age _. quiet_step. intros k _.
  eapply hoare_bind; [apply hoare_insert_dog|]. intros []. apply IH.
Qed.

Lemma hoare_users now : hoare (settled good) (create_users uuid7 ulid gradient_png hashed cfg now) (fun _ => settled good).
Proof.
  eapply hoare_bind; [apply hoare_accounts|]. intros users. eapply hoare_bind; [apply hoare_dogs|]. intros []. by apply hoare_ret.
Qed.

(** ** Posts *)

(** Posts written and not yet engaged with: no like, no comment. *)
Definition blank (k : Z) (d : db) : Prop :=
  is_Some (posts d !! k) /\ (forall u, post_likes d !! (k, u) = None) /\ (forall j c, comments d !! j = Some c -> c_post_id c <> k).
Definition written (ps : list seeded_post) (d : db) : Prop := NoDup (sp_id <$> ps) /\ forall p, p ∈ ps -> blank (sp_id p) d.

Lemma blank_posts k j q d : blank k d -> blank k (d <| posts := <[j := q]> (posts d) |>).
Proof. intros (H1 & H2 & H3). split_and!; try done. apply lookup_insert_is_Some'. by right. Qed.

Lemma hoare_insert_post ps k p refs a : like_count p = 0 -> comment_count p = 0 ->
  hoare (fun d => settled good d /\ written ps d) (at_db (insert_row k p refs))
        (fun _ d => settled good d /\ written (ps ++ [{| sp_id := k; sp_author := a; sp_created := created_at p |}]) d).
Proof.
  intros Hl Hc. apply hoare_db. intros d [] d' (Hk & _ & ->)%insert_row_inv [Hd [Hnd Hps]].
  change (posts (core d) !! k = None) in Hk. change (core _) with ((core d) <| posts := <[k := p]> (posts (core d)) |>).
  split; [by apply lagging_insert_post|]. split.
  - rewrite fmap_app. apply NoDup_app. split; [done|]. split; [|apply NoDup_singleton].
    intros x (q & -> & Hq)%list_elem_of_fmap Hx. apply list_elem_of_singleton in Hx. cbn in Hx.
    destruct (Hps q Hq) as ([y Hy] & _). rewrite Hx, Hk in Hy. done.
  - intros q [Hq| ->%list_elem_of_singleton]%elem_of_app; [by apply blank_posts, Hps|]. cbn [sp_id].
    destruct (fresh_post_rows k (core d) (ok_refs _ _ _ _ Hd) Hk) as [H1 H2]. split_and!; [|done..].
    cbn [posts over]. by rewrite lookup_insert_eq.
Qed.

(** Whatever an insertion of a post establishes, writing all of them does. *)
Lemma hoare_posts (J : list seeded_post -> db -> Prop) tags users index stamps ps :
  (forall qs k p refs a, like_count p = 0 -> comment_count p = 0 ->
     hoare (J qs) (at_db (insert_row k p refs)) (fun _ => J (qs ++ [{| sp_id := k; sp_author := a; sp_created := created_at p |}]))) ->
  hoare (J ps) (create_each_post uuid7 ulid gradient_png cfg tags users index stamps) (fun qs => J (ps ++ qs)).
Proof.
  intros Hins. revert index ps. induction stamps as [|created stamps IH]; intros index ps; cbn [create_each_post].
  - apply hoare_ret. intros d. by rewrite app_nil_r.
  - destruct (POST_TEMPLATES !! _) as [[[category title_tpl] body_tpl]|]; [|apply hoare_raise].
    destruct (users !! _) as [author|]; [|apply hoare_raise].
    quiet_step. intros dog _. quiet_step. intros tail _. quiet_step. intros base _. quiet_step. intros factor _. quiet_step. intros k _.
    eapply hoare_bind; [by apply (Hins ps _ _ _ author)|]. cbn [created_at]. intros []. quiet_step. intros n _. quiet_step. intros names _.
    quiet_step. intros [] _. eapply (hoare_step _ _ (fun _ => True)).
    + destruct (_ =? 0)%nat; [|by apply yields_ret]. eapply yields_bind; [eauto with yields|]. intros [i|] _; [|by apply yields_ret].
      eapply yields_bind; [apply yields_uuid|]. intros link _. apply yields_post_image.
    + intros [] _. eapply hoare_bind; [apply (IH (S index) (ps ++ [{| sp_id := k; sp_author := author; sp_created := created |}]))|].
      intros rest. apply hoare_ret. intros d Hd. by rewrite <-app_assoc in Hd.
Qed.

(** ** Engagement with one post *)

(** Post [p] being filled, [rest] still blank: [likes] like rows and [count]
    visible comments so far, the [roots] not yet liked; [hc] as in [lagging]. *)
Record filling (p : Z) (rest : list seeded_post) (hc : option Z) (likes count : Z) (roots : list Z) (d : db) : Prop := {
  f_lag : lagging good (Some p) hc d;
  f_rest : written rest d;
  f_other : p ∉ sp_id <$> rest;
  f_post : is_Some (posts d !! p);
  f_likes : likes_of (post_likes d) p = likes;
  f_count : count_visible_for_post p d = count;
  f_nodup : NoDup roots;
  f_roots : forall r, r ∈ roots -> exists c, comments d !! r = Some c /\ c_post_id c = p /\ parent_id c = None /\
    c_deleted_at c = None /\ c_is_blinded c = false /\ (forall u, comment_likes d !! (r, u) = None);
}.

Lemma written_comment rest p c k d : p ∉ sp_id <$> rest -> c_post_id c = p -> written rest d ->
  written rest (d <| comments := <[k := c]> (comments d) |>).
Proof.
  intros Hp Hc [Hnd Hw]. split; [done|]. intros q Hq. destruct (Hw q Hq) as (H1 & H2 & H3). split_and!; [done..|].
  intros j x. cbn [comments over]. intros [[_ <-]|[_ Hx]]%lookup_insert_Some; [|by eapply H3].
  rewrite Hc. intros ->. by apply Hp, list_elem_of_fmap_2.
Qed.

Lemma hoare_insert_comment now k post author parent text rest roots count :
  match parent with Some r => r ∈ roots | None => True end ->
  hoare (filling post rest None 0 count roots) (at_db (insert_comment now k post author parent text))
        (fun _ => filling post rest None 0 (count + 1) (roots ++ if parent then [] else [k])).
Proof.
  intros Hpar. apply hoare_db. intros d [] d' (Hk & _ & ->)%insert_row_inv [Hlag Hrest Hoth Hpost Hlikes Hcount Hnd Hroots].
  match goal with |- filling _ _ _ _ _ _ (core (set_rows (<[k := ?c]> _) _)) => set (row := c) end.
  change (comments (core d) !! k = None) in Hk. change (core _) with ((core d) <| comments := <[k := row]> (comments (core d)) |>).
  assert (forall r, parent = Some r -> exists q, comments (core d) !! r = Some q /\ parent_id q = None /\ c_post_id q = post /\
            c_deleted_at q = None /\ c_is_blinded q = false /\ r <> k) as Hq.
  { intros r ->. destruct (Hroots r Hpar) as (q & E & E1 & E2 & E3 & E4 & _). exists q. split_and!; try done. intros ->. by rewrite Hk in E. }
  constructor; try done.
  - apply (lagging_insert_comment good k row (core d)); [done..|]. intros r Hr. destruct (Hq r Hr) as (q & ? & ? & ? & _). by exists q.
  - by eapply written_comment.
  - rewrite count_visible_add by (done || by eapply ok_threads). rewrite Hcount. unfold counted. cbn [c_post_id c_deleted_at c_is_blinded parent_id row].
    rewrite !bool_decide_eq_true_2 by done. cbn [negb andb]. destruct parent as [r|]; [|done].
    destruct (Hq r eq_refl) as (q & E & _ & _ & Edel & Ebl & Hne). cbn [comments over]. rewrite lookup_insert_ne by done. rewrite E, Edel, Ebl. done.
  - destruct parent; [by rewrite app_nil_r|]. apply NoDup_app. split; [done|]. split; [|apply NoDup_singleton].
    intros x Hx Hxk%list_elem_of_singleton. subst x. destruct (Hroots k Hx) as (q & E & _). by rewrite Hk in E.
  - intros r Hr. cbn [comments over comment_likes]. destruct (decide (r = k)) as [->|Hne].
    + destruct parent as [r0|].
      * rewrite app_nil_r in Hr. destruct (Hroots k Hr) as (q & E & _). by rewrite Hk in E.
      * rewrite lookup_insert_eq. exists row. split_and!; try done. eapply fresh_comment_likes; [by eapply ok_refs|done].
    + rewrite lookup_insert_ne by done. apply Hroots. apply elem_of_app in Hr as [Hr|Hr]; [done|].
      destruct parent; [by apply elem_of_nil in Hr|]. by apply list_elem_of_singleton in Hr.
Qed.

Lemma hoare_roots n users p at_ rest done count :
  hoare (filling (sp_id p) rest None 0 count done) (create_roots uuid7 n users p at_)
        (fun roots => filling (sp_id p) rest None 0 (count + py_len roots) (done ++ (ro_id <$> roots))).
Proof.
  revert at_ done count. induction n as [|n IH]; intros at_ don count; cbn [create_roots].
  - apply hoare_ret. intros d. unfold py_len. cbn. by rewrite app_nil_r, Z.add_0_r.
  - quiet_step. intros commenter _. quiet_step. intros gap _. quiet_step. intros text _. quiet_step. intros k _.
    eapply hoare_bind; [by apply (hoare_insert_comment _ _ _ _ None)|]. intros [].
    eapply (hoare_step _ _ (fun _ => True)); [destruct (bool_decide _); [by apply yields_ret|apply yields_notification]|]. intros [] _.
    eapply hoare_bind; [apply IH|]. intros roots. apply hoare_ret. intros d Hd. unfold py_len in *. cbn [length fmap list_fmap].
    rewrite <-app_assoc in Hd. replace (count + Z.of_nat (S (length roots))) with (count + 1 + Z.of_nat (length roots)) by lia. done.
Qed.

Lemma hoare_reply p roots rest count :
  hoare (filling (sp_id p) rest None 0 count (ro_id <$> roots)) (create_reply uuid7 p roots)
        (fun n => filling (sp_id p) rest None 0 (count + n) (ro_id <$> roots)).
Proof.
  unfold create_reply. destruct (last roots) as [parent|] eqn:El; [|apply hoare_ret; intros d; by rewrite Z.add_0_r].
  quiet_step. intros [] _; [|apply hoare_ret; intros d; by rewrite Z.add_0_r].
  quiet_step. intros gap _. quiet_step. intros text _. quiet_step. intros k _. eapply hoare_bind.
  - apply (hoare_insert_comment _ _ _ _ (Some (ro_id parent))). apply list_elem_of_fmap_2.
    apply last_Some in El as [l ->]. apply elem_of_app. right. by apply list_elem_of_singleton.
  - intros []. apply hoare_ret. intros d. by rewrite app_nil_r.
Qed.


(** The root being liked has [n] like rows so far. *)
Definition liked (r n : Z) (d : db) : Prop := is_Some (comments d !! r) /\ likes_of (comment_likes d) r = n.

Lemma hoare_comment_like p rest count roots r n u at_ : r ∉ roots ->
  hoare (fun d => filling p rest (Some r) 0 count roots d /\ liked r n d) (at_db (insert_comment_like r u at_))
        (fun _ d => filling p rest (Some r) 0 count roots d /\ liked r (n + 1) d).
Proof.
  intros Hr. apply hoare_db. intros d [] d' (Hk & _ & ->)%insert_row_inv [[Hlag Hrest Hoth Hpost Hlikes Hcount Hnd Hroots] [Hc Hn]].
  change (comment_likes (core d) !! (r, u) = None) in Hk.
  change (core _) with ((core d) <| comment_likes := <[(r, u) := at_]> (comment_likes (core d)) |>). split.
  - constructor; try done.
    + by apply lagging_insert_comment_like.
    + intros x Hx. destruct (Hroots x Hx) as (c & ? & ? & ? & ? & ? & Hf). exists c. split_and!; try done.
      intros v. cbn [comment_likes over]. rewrite lookup_insert_ne; [done|]. by intros [= -> _].
  - split; [done|]. cbn [comment_likes over]. rewrite likes_of_insert by done. rewrite decide_True by done. by rewrite Hn.
Qed.

Lemma hoare_settle_root p rest count roots r n :
  hoare (fun d => filling p rest (Some r) 0 count roots d /\ liked r n d)
        (at_db (fun d => (inr tt, update_where (fun k (_ : Comment) => bool_decide (k = r)) (fun c : Comment => c <| c_like_count := n |>) d)))
        (fun _ => filling p rest None 0 count roots).
Proof.
  apply hoare_modify. intros d [[Hlag Hrest Hoth Hpost Hlikes Hcount Hnd Hroots] [[c Hc] Hn]].
  change (comments d !! r = Some c) in Hc. rewrite (update_where_id _ _ c) by done.
  change (core _) with ((core d) <| comments := <[r := c <| c_like_count := n |>]> (comments (core d)) |>).
  change (comments (core d) !! r = Some c) in Hc. constructor; try done.
  - by apply lagging_settle_comment.
  - destruct Hrest as [Hnd' Hw]. split; [done|]. intros q Hq. destruct (Hw q Hq) as (H1 & H2 & H3). split_and!; [done..|].
    intros j x. cbn [comments over]. intros [[_ <-]|[_ Hx]]%lookup_insert_Some; [|by eapply H3]. exact (H3 r c Hc).
  - by rewrite count_visible_like_count.
  - intros x Hx. destruct (Hroots x Hx) as (q & Hq & ? & ? & ? & ? & Hf). cbn [comments over comment_likes].
    destruct (decide (x = r)) as [->|Hne].
    + rewrite lookup_insert_eq. eexists. split; [done|]. assert (q = c) as -> by congruence. by split_and!.
    + rewrite lookup_insert_ne by done. exists q. by split_and!.
Qed.

(** The length of what remains of a list. *)
Lemma py_len_suffix {A : Type} (x : A) (l' l : list A) : py_len l - py_len (x :: l') + 1 = py_len l - py_len l'.
Proof. unfold py_len. cbn [length]. lia. Qed.

Lemma hoare_like_root users p rest count r roots :
  hoare (filling (sp_id p) rest None 0 count (ro_id r :: roots)) (like_root uuid7 users p r)
        (fun _ => filling (sp_id p) rest None 0 count roots).
Proof.
  assert (forall d, filling (sp_id p) rest None 0 count (ro_id r :: roots) d ->
    ro_id r ∉ roots /\ filling (sp_id p) rest None 0 count roots d /\ is_Some (comments d !! ro_id r) /\ likes_of (comment_likes d) (ro_id r) = 0) as Hdrop.
  { intros d []. apply NoDup_cons in f_nodup0 as [Hr Hnd]. split; [done|]. split; [constructor; try done; intros x Hx; apply f_roots0; by right|].
    destruct (f_roots0 (ro_id r)) as (c & Hc & _ & _ & _ & _ & Hf); [by left|]. split; [by exists c|]. by apply likes_of_none. }
  unfold like_root. quiet_step. intros [] _; [apply hoare_ret; intros d Hd; by apply Hdrop|].
  quiet_step. intros n _. quiet_step. intros likers _.
  intros s b s' E Hs. destruct (Hdrop _ Hs) as (Hr & Hf & Hc & Hl). revert s b s' E Hs Hf Hc Hl.
  enough (hoare (fun d => filling (sp_id p) rest (Some (ro_id r)) 0 count roots d /\ liked (ro_id r) 0 d)
    (for_each likers (fun liker => gap ← draw (randint 1 480); at_db (insert_comment_like (ro_id r) liker (ro_created r + 60 * gap)) ;;
       maybe_notify uuid7 (ro_created r + 60 * gap) (ro_author r) liker LIKE_COMMENT (sp_id p) (Some (ro_id r))) ;;
     at_db (fun d => (inr tt, update_where (fun k (_ : Comment) => bool_decide (k = ro_id r)) (fun c : Comment => c <| c_like_count := py_len likers |>) d)))
    (fun _ => filling (sp_id p) rest None 0 count roots)) as Hgo.
  { intros s b s' E Hs Hf Hc Hl. eapply Hgo; [exact E|]. split; [|done]. destruct Hf. constructor; try done. by apply lagging_weaken_comment. }
  eapply (hoare_bind _ _ (fun _ d => filling (sp_id p) rest (Some (ro_id r)) 0 count roots d /\ liked (ro_id r) (py_len likers) d));
    [|intros []; apply hoare_settle_root].
  eapply hoare_weaken; [apply (hoare_for_each (fun l d => filling (sp_id p) rest (Some (ro_id r)) 0 count roots d /\
    liked (ro_id r) (py_len likers - py_len l) d))| |].
  - intros x l' _. quiet_step. intros gap _. rewrite <-(py_len_suffix x l' likers). eapply hoare_bind; [by apply hoare_comment_like|].
    intros []. apply hoare_yields, yields_maybe_notify.
  - intros d. by rewrite Z.sub_diag.
  - intros [] d. change (py_len (@nil Z)) with 0. by rewrite Z.sub_0_r.
Qed.

Lemma hoare_post_like p rest count n u at_ :
  hoare (filling p rest None n count []) (at_db (insert_post_like p u at_)) (fun _ => filling p rest None (n + 1) count []).
Proof.
  apply hoare_db. intros d [] d' (Hk & _ & ->)%insert_row_inv [Hlag Hrest Hoth Hpost Hlikes Hcount Hnd Hroots].
  change (post_likes (core d) !! (p, u) = None) in Hk.
  change (core _) with ((core d) <| post_likes := <[(p, u) := at_]> (post_likes (core d)) |>). constructor; try done.
  - by apply lagging_insert_post_like.
  - destruct Hrest as [Hnd' Hw]. split; [done|]. intros q Hq. destruct (Hw q Hq) as (H1 & H2 & H3). split_and!; [done| |done].
    intros v. cbn [post_likes over]. rewrite lookup_insert_ne; [done|]. intros [= E _]. apply Hoth. rewrite E. by apply list_elem_of_fmap_2.
  - cbn [post_likes over]. rewrite likes_of_insert by done. rewrite decide_True by done. by rewrite Hlikes.
Qed.

Lemma hoare_like_post users p rest count :
  hoare (filling (sp_id p) rest None 0 count []) (like_post uuid7 users p) (fun n => filling (sp_id p) rest None n count []).
Proof.
  unfold like_post. quiet_step. intros n _. quiet_step. intros likers _.
  eapply (hoare_bind _ _ (fun _ => filling (sp_id p) rest None (py_len likers) count [])); [|intros []; by apply hoare_ret].
  eapply hoare_weaken; [apply (hoare_for_each (fun l d => filling (sp_id p) rest None (py_len likers - py_len l) count [] d))| |].
  - intros x l' _. quiet_step. intros gap _. rewrite <-(py_len_suffix x l' likers). eapply hoare_bind; [apply hoare_post_like|].
    intros []. apply hoare_yields, yields_maybe_notify.
  - intros d. by rewrite Z.sub_diag.
  - intros [] d. change (py_len (@nil Z)) with 0. by rewrite Z.sub_0_r.
Qed.

(** Engaging with a blank post leaves it with its counters. *)
Lemma hoare_engage users p rest :
  hoare (fun d => settled good d /\ written (p :: rest) d) (engage uuid7 users p) (fun _ d => settled good d /\ written rest d).
Proof.
  eapply (hoare_weaken _ (filling (sp_id p) rest None 0 0 []) _ _ (fun _ d => settled good d /\ written rest d)); [| |done].
  - unfold engage. quiet_step. intros n _. eapply hoare_bind; [apply hoare_roots|]. intros roots. eapply hoare_bind; [apply hoare_reply|].
    intros replies. eapply hoare_bind.
    { apply (hoare_for_each (fun l => filling (sp_id p) rest None 0 (0 + py_len roots + replies) (ro_id <$> l))).
      intros r l _. apply hoare_like_root. }
    intros []. eapply hoare_bind; [apply hoare_like_post|]. intros likes. apply hoare_modify.
    intros d [Hlag Hrest Hoth [q Hq] Hlikes Hcount _ _]. change (posts d !! sp_id p = Some q) in Hq.
    rewrite (update_where_id _ _ q) by done. set (q' := set_counts _ _ q).
    change (core _) with ((core d) <| posts := <[sp_id p := q']> (posts (core d)) |>). split.
    + apply lagging_settle_post; [done|by exists q|by rewrite Hlikes|by rewrite Hcount].
    + destruct Hrest as [Hnd Hw]. split; [done|]. intros x Hx. by apply blank_posts, Hw.
  - intros d [Hd [[Hp Hnd]%NoDup_cons Hw]]. destruct (Hw p) as (H1 & H2 & H3); [by left|]. constructor; try done.
    + by apply lagging_weaken.
    + split; [done|]. intros q Hq. apply Hw. by right.
    + by apply likes_of_none.
    + by apply count_visible_none.
    + apply NoDup_nil_2.
    + by intros r ?%elem_of_nil.
Qed.

Lemma hoare_engagement users ps :
  hoare (fun d => settled good d /\ written ps d) (create_engagement uuid7 users ps) (fun _ d => settled good d /\ written [] d).
Proof. apply (hoare_for_each (fun l d => settled good d /\ written l d)). intros p l _. apply hoare_engage. Qed.


(** ** Conversations *)

Lemma hoare_insert_room k room :
  hoare (settled good) (at_db (insert_room k room)) (fun _ d => settled good d /\ chat_rooms d !! k = Some room).
Proof.
  apply hoare_db. intros d [] d'. unfold insert_room. destruct (Z.ltb_spec (user1_id room) (user2_id room)) as [Hlt|]; [|done]. cbn [negb].
  destruct (find_room _ _ d) eqn:Ef; [by rewrite bool_decide_eq_true_2|]. rewrite bool_decide_eq_false_2 by (by intros [? ?]).
  intros (Hk & [H1%bool_decide_eq_true H2%bool_decide_eq_true]%andb_true_iff & ->)%insert_row_inv Hd. split.
  - exact (lagging_insert_room good None None k room (core d) Hd Hk Hlt Ef H1 H2).
  - cbn. by rewrite lookup_insert_eq.
Qed.

Lemma hoare_script k room started a b index script : room_of a b room ->
  hoare (fun d => settled good d /\ chat_rooms d !! k = Some room) (write_script uuid7 k started [a; b] index script) (fun _ => settled good).
Proof.
  intros Hroom. apply room_of_member in Hroom as [Ha Hb]. revert index. induction script as [|[speaker text] script IH]; intros index; cbn [write_script].
  - apply hoare_ret. by intros d [Hd _].
  - destruct ([a; b] !! speaker) as [sender|] eqn:Es; [|apply hoare_raise].
    assert (is_member sender room = true) as Hs by (apply list_elem_of_lookup_2 in Es; set_solver).
    quiet_step. intros gap _. quiet_step. intros m _.
    eapply (hoare_bind _ _ (fun _ d => settled good d /\ chat_rooms d !! k = Some room)); [|intros []; apply IH].
    apply hoare_db. intros d [] d' (_ & _ & ->)%insert_row_inv [Hd Hk]. split; [|exact Hk].
    match goal with |- settled good (core (set_rows (<[m := ?msg]> _) _)) => exact (lagging_insert_message good None None m msg room (core d) Hd Hk Hs) end.
Qed.

Lemma hoare_rooms now users index pairs :
  hoare (settled good) (create_rooms uuid7 now users index pairs) (fun _ => settled good).
Proof.
  revert index. induction pairs as [|[i j] pairs IH]; intros index; cbn [create_rooms]; [by apply hoare_ret|].
  destruct (users !! i) as [a|]; [|apply hoare_raise]. destruct (users !! j) as [b|]; [|apply hoare_raise].
  quiet_step. intros hours _. quiet_step. intros k _. eapply hoare_bind; [apply hoare_insert_room|]. intros [].
  eapply hoare_bind; [apply hoare_script|]; [|intros []; apply IH]. unfold room_of. cbn [user1_id user2_id]. by destruct (normalize_dm_user_ids a b).
Qed.

End Run.

(** ** The purge *)

(** Between the counter repair and the cascade, the counters are those of the
    store without the departing users' likes. *)
Definition without_likes (ids : list Z) (d : db) : db :=
  d <| post_likes := filter (fun p : (Z * Z) * Z => p.1.2 ∉ ids) (post_likes d) |>
    <| comment_likes := filter (fun p : (Z * Z) * Z => p.1.2 ∉ ids) (comment_likes d) |>.

Lemma likes_of_filter (P : (Z * Z) * Z -> Prop) `{!forall x, Decision (P x)} (m : gmap (Z * Z) Z) t :
  (forall u x, m !! (t, u) = Some x -> P ((t, u), x)) -> likes_of (filter P m) t = likes_of m t.
Proof.
  intros HP. unfold likes_of. rewrite map_filter_filter. do 2 f_equal. apply map_filter_ext. intros [k u] x Hx. cbn. split; [by intros [? _]|].
  intros ->. split; [done|]. by apply HP.
Qed.

Section Purge.
Context (good : Z -> Prop).

(** The counts of comments depend on the comments only by their shape and visibility. *)
Definition face (c : Comment) : Z * option Z * option Z * bool := (c_post_id c, parent_id c, c_deleted_at c, c_is_blinded c).
Lemma count_visible_same pid d d' : (forall k, face <$> comments d' !! k = face <$> comments d !! k) ->
  count_visible_for_post pid d' = count_visible_for_post pid d.
Proof.
  intros Hf. assert (forall k c, comments d !! k = Some c -> forall c', comments d' !! k = Some c' -> counted pid d' k c' = counted pid d k c) as Hc.
  { intros k c Hk c' Hk'. pose proof (Hf k) as E. rewrite Hk, Hk' in E. cbn in E. injection E as E1 E2 E3 E4. unfold counted. rewrite E1, E2, E3, E4.
    f_equal. destruct (parent_id c) as [r|]; [|done]. pose proof (Hf r) as Er. destruct (comments d' !! r), (comments d !! r); try done.
    cbn in Er. injection Er as _ _ F3 F4. by rewrite F3, F4. }
  rewrite !count_visible_size. f_equal. rewrite <-!(size_dom (D := gset Z)). f_equal. apply set_eq. intros k.
  rewrite !elem_of_dom. unfold is_Some. setoid_rewrite map_lookup_filter_Some. cbn. pose proof (Hf k) as Ek. split.
  - intros (c' & Hk' & Hv). rewrite Hk' in Ek. destruct (comments d !! k) as [c|] eqn:Hk; [|done]. exists c. split; [done|]. by rewrite <-(Hc k c Hk c' Hk').
  - intros (c & Hk & Hv). rewrite Hk in Ek. destruct (comments d' !! k) as [c'|] eqn:Hk'; [|done]. exists c'. split; [done|]. by rewrite (Hc k c Hk c' Hk').
Qed.

Lemma face_shape d d' : (forall k, face <$> comments d' !! k = face <$> comments d !! k) ->
  forall k, shape_of <$> comments d' !! k = shape_of <$> comments d !! k.
Proof.
  intros Hf k. pose proof (Hf k) as E. destruct (comments d' !! k), (comments d !! k); try done. cbn in *. injection E as E1 E2 _ _. unfold shape_of. by rewrite E1, E2.
Qed.

(** The tables a counter repair leaves alone. *)
Definition others (d : db) := (users d, dogs d, chat_rooms d, chat_messages d).
Lemma decrement_others {R : Type} `{!Table Z R} links counter set_counter ids d a d' : 
  (forall m, others (set_rows m d) = others d) ->
  decrement_counter_by_link_owner (R := R) links counter set_counter ids d = (inr a, d') -> others d' = others d.
Proof.
  intros Hs. unfold decrement_counter_by_link_owner. destruct ids; [by intros [= _ <-]|]. intros E. apply (f_equal snd) in E. cbn [snd] in E.
  subst d'. apply Hs.
Qed.

(** Repairing the counters. *)
Lemma settled_decrement ids d d1 d2 : ids <> [] -> settled good d ->
  decrement_post_like_counts_for_users ids d = (inr tt, d1) -> decrement_comment_like_counts_for_users ids d1 = (inr tt, d2) ->
  settled good (without_likes ids d2).
Proof.
  intros Hne [] E1 E2. destruct (decrement_posts_lookup ids d Hne) as (x1 & F1 & Hu1 & Hpl1 & Hco1 & Hcl1 & Hd1).
  rewrite E1 in F1. injection F1 as <-. destruct (decrement_comments_lookup ids d1 Hne) as (x2 & F2 & Hu2 & Hpl2 & Hpo2 & Hcl2 & Hd2).
  rewrite E2 in F2. injection F2 as <-. rewrite Hco1, Hcl1 in Hd2.
  assert (forall k, face <$> comments (without_likes ids d2) !! k = face <$> comments d !! k) as Hface.
  { intros k. cbn [without_likes comments over]. rewrite Hd2. destruct (comments d !! k); [|done]. cbn. by destruct (_ =? 0). }
  assert (others d2 = others d) as Ho.
  { transitivity (others d1); [by refine (decrement_others (R := Comment) _ _ _ ids d1 tt d2 _ E2)|by refine (decrement_others (R := Post) _ _ _ ids d tt d1 _ E1)]. }
  injection Ho as Hou Hod Hor Hom. constructor.
  - intros t n _ (p & Hpt & Hdel & ->)%post_counter_inv. cbn [without_likes posts post_likes over] in *. rewrite Hpo2, Hd1 in Hpt.
    destruct (posts d !! t) as [p0|] eqn:Ep; [|done]. cbn in Hpt. injection Hpt as <-. rewrite Hpl2, Hpl1.
    destruct (likes_after_cascade ids (post_likes d) t) as [Hla Hpos]. rewrite Hla.
    assert (like_count p0 = likes_of (post_likes d) t) as Hcnt.
    { apply (ok_post_likes0 t); [done|]. unfold post_counter. rewrite Ep. cbn. rewrite decide_True; [done|]. by destruct (_ =? 0). }
    destruct (Z.eqb_spec (links_of ids (post_likes d) t) 0) as [E0|E0]; [lia|]. cbn [like_count over]. unfold decremented.
    rewrite Hcnt. unfold likes_of in *. lia.
  - intros t n _ (p & Hpt & Hdel & ->)%comment_counter_inv. cbn [without_likes comments comment_likes over] in *. rewrite Hd2 in Hpt.
    destruct (comments d !! t) as [p0|] eqn:Ep; [|done]. cbn in Hpt. injection Hpt as <-. rewrite Hcl2, Hcl1.
    destruct (likes_after_cascade ids (comment_likes d) t) as [Hla Hpos]. rewrite Hla.
    assert (c_like_count p0 = likes_of (comment_likes d) t) as Hcnt.
    { apply (ok_comment_likes0 t); [done|]. unfold comment_counter. rewrite Ep. cbn. rewrite decide_True; [done|]. by destruct (_ =? 0). }
    destruct (Z.eqb_spec (links_of ids (comment_likes d) t) 0) as [E0|E0]; [lia|]. cbn [c_like_count over]. unfold decremented.
    rewrite Hcnt. unfold likes_of in *. lia.
  - intros t p Hg _ Hpt. rewrite (count_visible_same t d) by done. cbn [without_likes posts over] in Hpt. rewrite Hpo2, Hd1 in Hpt.
    destruct (posts d !! t) as [p0|] eqn:Ep; [|done]. cbn in Hpt. injection Hpt as <-. rewrite <-(ok_comments0 t p0) by done. by destruct (_ =? 0).
  - by eapply thread_shape_same; [apply face_shape|].
  - intros k1 k2 u1 u2. cbn [without_likes users over]. rewrite Hou. apply ok_users0.
  - unfold chat_ok. cbn [without_likes users chat_rooms chat_messages over]. rewrite Hou, Hor, Hom. exact ok_chat0.
  - intros k1 k2 g1 g2. cbn [without_likes dogs over]. rewrite Hod. apply ok_dogs0.
  - assert (forall k, is_Some (posts d2 !! k) <-> is_Some (posts d !! k)) as Hps by (intros k; rewrite Hpo2, Hd1, fmap_is_Some; done).
    assert (forall k, is_Some (comments d2 !! k) <-> is_Some (comments d !! k)) as Hcs by (intros k; rewrite Hd2, fmap_is_Some; done).
    destruct ok_refs0 as (H1 & H2 & H3). split_and!; cbn [without_likes posts comments post_likes comment_likes over].
    + intros t u x [Hx _]%map_lookup_filter_Some. rewrite Hpl2, Hpl1 in Hx. apply Hps. by eapply H1.
    + intros t u x [Hx _]%map_lookup_filter_Some. rewrite Hcl2, Hcl1 in Hx. apply Hcs. by eapply H2.
    + intros k c Hk. pose proof (Hface k) as E. cbn [without_likes comments over] in E. rewrite Hk in E.
      destruct (comments d !! k) as [c0|] eqn:E0; [|done]. cbn in E. injection E as -> _ _ _. apply Hps. by eapply H3.
Qed.

(** Under the thread shape, a comment falls with its own post. *)
Lemma comment_falls_post ids d k c : thread_shape d -> comments d !! k = Some c ->
  comment_falls ids d c = bool_decide (c_post_id c ∈ ids).
Proof.
  intros Ht Hk. unfold comment_falls. destruct (parent_id c) as [r|] eqn:Er; [|by rewrite orb_false_r].
  destruct (Ht k c r Hk Er) as (q & -> & _ & ->). by destruct (bool_decide _).
Qed.

Lemma settled_delete_posts ids d d' : settled good d -> delete_posts ids d = (inr tt, d') -> settled good d'.
Proof.
  intros [] E. unfold delete_posts in E. destruct (existsb _ _); [done|]. apply (f_equal snd) in E. cbn [snd] in E. subst d'.
  match goal with |- settled good ?x => set (d' := x) end.
  assert (forall k c, comments d' !! k = Some c <-> comments d !! k = Some c /\ c_post_id c ∉ ids) as Hcm.
  { intros k c. unfold d'. cbn [comments over]. rewrite map_lookup_filter_Some. cbn [snd]. split; intros [Hk Hf]; (split; [done|]);
      rewrite (comment_falls_post ids d k c) in * by done; [by eapply bool_decide_eq_false_1|by apply bool_decide_eq_false_2]. }
  assert (forall t p, posts d' !! t = Some p <-> posts d !! t = Some p /\ t ∉ ids) as Hps.
  { intros t p. unfold d'. cbn [posts over]. by rewrite map_lookup_filter_Some. }
  assert (forall t c, comments d' !! t = Some c -> likes_of (comment_likes d') t = likes_of (comment_likes d) t) as Hcl.
  { intros t c [Hk Hf]%Hcm. unfold d'. cbn [comment_likes over]. apply likes_of_filter. intros u x _. cbn. unfold comment_id_falls. rewrite Hk.
    rewrite (comment_falls_post ids d t c) by done. by apply bool_decide_eq_false_2. }
  constructor; try done.
  - intros t n _ (p & [Hpt Hn]%Hps & Hdel & ->)%post_counter_inv. unfold d'. cbn [post_likes over]. rewrite likes_of_filter by done.
    apply ok_post_likes0; [done|]. unfold post_counter. rewrite Hpt. cbn. by rewrite decide_True.
  - intros t n _ (c & Hc & Hdel & ->)%comment_counter_inv. rewrite (Hcl t c Hc). apply Hcm in Hc as [Hc _].
    apply ok_comment_likes0; [done|]. unfold comment_counter. rewrite Hc. cbn. by rewrite decide_True.
  - intros t p Hg _ [Hpt Hn]%Hps. rewrite (ok_comments0 t p) by done. rewrite !count_visible_size. do 2 f_equal.
    apply map_eq. intros k. apply option_eq. intros c. rewrite !map_lookup_filter_Some, Hcm. cbn.
    assert (comments d !! k = Some c -> c_post_id c = t -> counted t d' k c = counted t d k c) as Hcc.
    { intros Hk Hct. unfold counted. f_equal. destruct (parent_id c) as [r|] eqn:Er; [|done].
      destruct (ok_threads0 k c r Hk Er) as (q & Hq & _ & Hqc). assert (comments d' !! r = Some q) as -> by (apply Hcm; split; [done|congruence]). by rewrite Hq. }
    assert (forall x, counted t x k c = true -> c_post_id c = t) as Hct.
    { intros x. unfold counted. rewrite !andb_true_iff, !bool_decide_eq_true. tauto. }
    split.
    + intros [Hk Hv]. pose proof (Hct d Hv) as Ht. split; [split; [done|congruence]|]. by rewrite Hcc.
    + intros [[Hk _] Hv]. pose proof (Hct d' Hv) as Ht. split; [done|]. by rewrite <-Hcc.
  - intros k c r [Hk Hn]%Hcm Hr. destruct (ok_threads0 k c r Hk Hr) as (q & Hq & Hqp & Hqc). exists q.
    split; [|done]. apply Hcm. split; [done|congruence].
  - destruct ok_refs0 as (H1 & H2 & H3). split_and!.
    + intros t u x Hx. unfold d' in Hx. cbn [post_likes over] in Hx. apply map_lookup_filter_Some in Hx as [Hx Hn].
      destruct (H1 t u x Hx) as [p Hp]. exists p. by apply Hps.
    + intros t u x Hx. unfold d' in Hx. cbn [comment_likes over] in Hx. apply map_lookup_filter_Some in Hx as [Hx Hn].
      destruct (H2 t u x Hx) as [c Hc]. exists c. apply Hcm. split; [done|]. cbn [fst] in Hn. unfold comment_id_falls in Hn. rewrite Hc in Hn.
      rewrite (comment_falls_post ids d t c) in Hn by done. by eapply bool_decide_eq_false_1.
    + intros k c [Hk Hn]%Hcm. destruct (H3 k c Hk) as [p Hp]. exists p. by apply Hps.
Qed.

Lemma db_eq d d' : users d = users d' -> user_blocks d = user_blocks d' -> categories d = categories d' -> hashtags d = hashtags d' ->
  hashtag_seq d = hashtag_seq d' -> post_hashtags d = post_hashtags d' -> posts d = posts d' -> post_images d = post_images d' ->
  post_likes d = post_likes d' -> comments d = comments d' -> comment_likes d = comment_likes d' -> notifications d = notifications d' ->
  reports d = reports d' -> images d = images d' -> dogs d = dogs d' -> chat_rooms d = chat_rooms d' -> chat_messages d = chat_messages d' -> d = d'.
Proof. destruct d, d'. cbn. by intros -> -> -> -> -> -> -> -> -> -> -> -> -> -> -> -> ->. Qed.

Lemma delete_posts_without ids pids d d' : delete_posts pids d = (inr tt, d') ->
  delete_posts pids (without_likes ids d) = (inr tt, without_likes ids d').
Proof.
  unfold delete_posts. change (post_images (without_likes ids d)) with (post_images d). destruct (existsb _ _); [done|].
  intros E. apply (f_equal snd) in E. cbn [snd] in E. subst d'. apply (f_equal (pair (inr tt))).
  apply db_eq; first [reflexivity|apply map_filter_comm].
Qed.

(** The cascade takes the likes that were settled before. *)
Lemma settled_cascade ids d : settled good (without_likes ids d) -> settled good (cascade_users ids d).
Proof.
  intros []. pose proof (chat_ok_purge ids d) as Hchat. constructor; try done.
  - intros t n _ (p & Hpt & Hdel & ->)%post_counter_inv. cbn [cascade_users posts post_likes] in *. rewrite lookup_fmap in Hpt.
    destruct (posts d !! t) as [p0|] eqn:Ep; [|done]. cbn in Hpt. injection Hpt as <-. apply (ok_post_likes0 t); [done|].
    unfold post_counter. cbn [without_likes posts over]. rewrite Ep. cbn. by rewrite decide_True.
  - intros t n _ (c & Hct & Hdel & ->)%comment_counter_inv. cbn [cascade_users comments comment_likes] in *. rewrite lookup_fmap in Hct.
    destruct (comments d !! t) as [c0|] eqn:Ec; [|done]. cbn in Hct. injection Hct as <-. apply (ok_comment_likes0 t); [done|].
    unfold comment_counter. cbn [without_likes comments over]. rewrite Ec. cbn. by rewrite decide_True.
  - intros t p Hg _. cbn [cascade_users posts]. rewrite lookup_fmap. destruct (posts d !! t) as [p0|] eqn:Ep; [|done].
    intros [= <-]. cbn [comment_count over]. rewrite (ok_comments0 t p0) by done. apply count_visible_same. intros k.
    cbn [cascade_users comments without_likes over]. rewrite lookup_fmap. by destruct (comments d !! k).
  - eapply thread_shape_same; [|exact ok_threads0]. intros k. cbn [cascade_users comments without_likes over]. rewrite lookup_fmap. by destruct (comments d !! k).
  - intros k1 k2 u1 u2. cbn [cascade_users users]. intros [H1 _]%map_lookup_filter_Some [H2 _]%map_lookup_filter_Some. by apply ok_users0.
  - unfold purge_users_by_ids in Hchat. destruct ids as [|i l]; [|by apply Hchat].
    destruct ok_chat0 as (C1 & C2 & C3). split_and!; cbn [cascade_users users chat_rooms chat_messages].
    + intros r room [Hr _]%map_lookup_filter_Some. destruct (C1 r room Hr) as (? & [u1 ?] & [u2 ?]). split; [done|].
      split; [exists u1|exists u2]; (apply map_lookup_filter_Some; split; [done|apply not_elem_of_nil]).
    + intros r1 r2 a b [Ha _]%map_lookup_filter_Some [Hb _]%map_lookup_filter_Some. by eapply C2.
    + intros m msg [Hm [_ [room Hr]]]%map_lookup_filter_Some. cbn [snd] in Hr. exists room. split; [done|].
      apply map_lookup_filter_Some in Hr as [Hr _]. destruct (C3 m msg Hm) as (x & Hx & ?). cbn in Hx. by simplify_eq.
  - intros k1 k2 g1 g2. cbn [cascade_users dogs]. intros [H1 _]%map_lookup_filter_Some [H2 _]%map_lookup_filter_Some. by apply ok_dogs0.
  - destruct ok_refs0 as (H1 & H2 & H3). split_and!; cbn [cascade_users posts comments post_likes comment_likes].
    + intros t u x Hx. rewrite lookup_fmap, fmap_is_Some. by eapply H1.
    + intros t u x Hx. rewrite lookup_fmap, fmap_is_Some. by eapply H2.
    + intros k c. rewrite !lookup_fmap. destruct (comments d !! k) as [c0|] eqn:E; [|done]. intros [= <-]. rewrite fmap_is_Some. exact (H3 k c0 E).
Qed.

Lemma settled_delete_images ids d d' : settled good d -> delete_images ids d = (inr tt, d') -> settled good d'.
Proof.
  intros Hd E. apply (f_equal snd) in E. cbn [snd delete_images] in E. subst d'.
  set (m := (fun u : User => u <| user_profile_image_id := gone ids (user_profile_image_id u) |>) <$> users d).
  assert (settled good (d <| users := m |>)) as [].
  { apply lagging_update_users; [|done]. intros k. unfold m. rewrite lookup_fmap. by destruct (users d !! k). }
  constructor; try done. intros k1 k2 g1 g2. cbn [dogs over]. rewrite !lookup_fmap.
  destruct (dogs d !! k1) as [h1|] eqn:E1; [|done]. destruct (dogs d !! k2) as [h2|] eqn:E2; [|done]. intros [= <-] [= <-]. exact (ok_dogs0 k1 k2 h1 h2 E1 E2).
Qed.

Lemma lagging_core hp hc d : lagging good hp hc (core d) <-> lagging good hp hc d.
Proof. split; intros []; by constructor. Qed.

(** Detaching the images first, the posts can always be deleted. *)
Lemma delete_posts_detached pids d : let conds := fun (_ : Z) (r : PostImage) => bool_decide (pi_post_id r ∈ pids) in
  exists d', (delete_rows conds ;; delete_posts pids) d = (inr tt, d') /\
    users d' = users d /\ dogs d' = dogs d /\ posts d' = filter (fun p : Z * Post => p.1 ∉ pids) (posts d) /\
    (forall ids, settled good (without_likes ids d) -> settled good (without_likes ids d')).
Proof.
  intros conds. unfold mbind at 1, M_bind at 1. unfold delete_rows at 1. cbn [rows set_rows post_images_table].
  set (d1 := d <| post_images := _ |>). destruct (delete_posts pids d1) as [r d'] eqn:E. pose proof E as E'. unfold delete_posts in E'.
  assert (existsb (fun p : Z * PostImage => bool_decide (pi_post_id p.2 ∈ pids)) (map_to_list (post_images d1)) = false) as Hno.
  { apply not_true_iff_false. rewrite existsb_exists. intros ([k x] & Hin & Hb). apply list_elem_of_In, elem_of_map_to_list in Hin.
    unfold d1 in Hin. cbn [post_images over] in Hin. apply map_lookup_filter_Some in Hin as [_ Hc]. unfold conds in Hc. cbn in *. congruence. }
  rewrite Hno in E'. injection E' as <- <-. eexists. split; [reflexivity|]. split_and!; [done..|].
  intros ids Hd. eapply settled_delete_posts; [|by eapply delete_posts_without].
  destruct Hd. by constructor.
Qed.

Lemma purge_users_cascade ids d : ids <> [] -> exists deleted, purge_users_by_ids ids d = (inr deleted, cascade_users ids d).
Proof. intros Hne. destruct ids; [done|]. by eexists. Qed.

(** What the purge does to accounts, posts and the invariants; it never fails. *)
Lemma purge_demo_spec d : exists d', purge_demo_data d = (inr tt, d') /\ (settled good d -> settled good d') /\
  (forall k, is_Some (users d' !! k) <-> is_Some (users d !! k) /\ k ∉ demo_user_ids d) /\
  (forall k u', users d' !! k = Some u' -> exists u, users d !! k = Some u /\ email u' = email u) /\
  (forall t, is_Some (posts d' !! t) <-> exists p, posts d !! t = Some p /\ forall u, user_id p = Some u -> u ∉ demo_user_ids d).
Proof.
  unfold purge_demo_data. unfold mbind at 1, M_bind at 1, get at 1. cbv beta iota.
  destruct (demo_user_ids d) as [|i0 l0] eqn:Eids.
  { exists d. split; [done|]. split; [done|]. split; [|split].
    - intros k. split; [|by intros [? _]]. intros Hk. split; [done|apply not_elem_of_nil].
    - intros k u Hk. by exists u.
    - intros t. split; [|intros (p & Hp & _); by exists p]. intros [p Hp]. exists p. split; [done|]. intros u _. apply not_elem_of_nil. }
  rewrite <-Eids. set (ids := demo_user_ids d). assert (ids <> []) as Hne by (unfold ids; by rewrite Eids).
  destruct (decrement_posts_lookup ids d Hne) as (d1 & E1 & Hu1 & _ & _ & _ & Hp1).
  destruct (decrement_comments_lookup ids d1 Hne) as (d2 & E2 & Hu2 & _ & Hp2 & _ & _).
  unfold mbind at 1, M_bind at 1. rewrite E1. unfold mbind at 1, M_bind at 1. rewrite E2.
  unfold mbind at 1, M_bind at 1, get at 1. cbv beta iota.
  set (pids := (select_where (fun (_ : Z) (p : Post) => match user_id p with Some u => bool_decide (u ∈ ids) | None => false end) d2).*1).
  set (attached := (fun p : Z * PostImage => pi_image_id p.2) <$> _).
  assert (exists d3, (if bool_decide (pids = []) then mret tt else delete_rows (fun (_ : Z) (r : PostImage) => bool_decide (pi_post_id r ∈ pids)) ;; delete_posts pids) d2
            = (inr tt, d3) /\ users d3 = users d2 /\ posts d3 = filter (fun p : Z * Post => p.1 ∉ pids) (posts d2) /\
            (settled good (without_likes ids d2) -> settled good (without_likes ids d3))) as (d3 & E3 & Hu3 & Hp3 & Hs3).
  { destruct (delete_posts_detached pids d2) as (d3 & E3 & Hu & _ & Hp & Hs). case_bool_decide as Hb; [|exists d3; split_and!; [exact E3|exact Hu|exact Hp|apply Hs]].
    exists d2. split_and!; try done. symmetry. apply map_filter_id. intros j x _. rewrite Hb. apply not_elem_of_nil. }
  unfold mbind at 1, M_bind at 1. rewrite E3. unfold mbind at 1, M_bind at 1, get at 1. cbv beta iota.
  match goal with |- context [attached ++ ?a ++ ?b] => set (picts := attached ++ a ++ b) end.
  destruct (purge_users_cascade ids d3 Hne) as [deleted Ep]. unfold mbind at 1, M_bind at 1. rewrite Ep.
  assert (forall d4, users d4 = users (cascade_users ids d3) \/ (exists f, users d4 = f <$> users (cascade_users ids d3) /\ forall u, email (f u) = email u) ->
    posts d4 = posts (cascade_users ids d3) -> (settled good (cascade_users ids d3) -> settled good d4) ->
    (settled good d -> settled good d4) /\ (forall k, is_Some (users d4 !! k) <-> is_Some (users d !! k) /\ k ∉ ids) /\
    (forall k u', users d4 !! k = Some u' -> exists u, users d !! k = Some u /\ email u' = email u) /\
    (forall t, is_Some (posts d4 !! t) <-> exists p, posts d !! t = Some p /\ forall u, user_id p = Some u -> u ∉ ids)) as Hfin.
  { intros d4 Hu4 Hp4 Hs4. rewrite Hp4. cbn [cascade_users users posts] in *. rewrite Hu3, Hu2, Hu1 in Hu4.
    assert (forall k u', users d4 !! k = Some u' -> exists u, users d !! k = Some u /\ k ∉ ids /\ email u' = email u) as Hin.
    { intros k u' Hk. destruct Hu4 as [Hu4|(f & Hu4 & Hf)]; rewrite Hu4 in Hk.
      - apply map_lookup_filter_Some in Hk as [Hk Hn]. by exists u'.
      - rewrite lookup_fmap in Hk. apply fmap_Some in Hk as (u & [Hk Hn]%map_lookup_filter_Some & ->). exists u. split_and!; [done..|apply Hf]. }
    split_and!.
    - intros Hd. apply Hs4, settled_cascade, Hs3. by eapply settled_decrement.
    - intros k. split; [intros [u' Hk]; destruct (Hin k u' Hk) as (u & ? & ? & _); split; [by exists u|done]|]. intros [[u Hk] Hn].
      assert (filter (fun p : Z * User => p.1 ∉ ids) (users d) !! k = Some u) as Hf by (by apply map_lookup_filter_Some).
      destruct Hu4 as [->|(f & -> & _)]; [by exists u|]. rewrite lookup_fmap, Hf. by eexists.
    - intros k u' Hk. destruct (Hin k u' Hk) as (u & ? & _ & ?). by exists u.
    - intros t. rewrite lookup_fmap, fmap_is_Some, Hp3. unfold is_Some. setoid_rewrite map_lookup_filter_Some. cbn [fst].
      assert (forall p2, posts d2 !! t = Some p2 <-> exists p, posts d !! t = Some p /\ p2 = if links_of ids (post_likes d) t =? 0 then p
        else p <| like_count := decremented ids (post_likes d) t (like_count p) |>) as Hpost.
      { intros p2. rewrite Hp2, Hp1, fmap_Some. done. }
      assert (forall p, user_id (if links_of ids (post_likes d) t =? 0 then p else p <| like_count := decremented ids (post_likes d) t (like_count p) |>) = user_id p) as Huid.
      { intros p. by destruct (_ =? 0). }
      assert (t ∈ pids <-> exists p u, posts d !! t = Some p /\ user_id p = Some u /\ u ∈ ids) as Hpid.
      { unfold pids. rewrite list_elem_of_fmap. split.
        - intros ([t' p2] & -> & [Hp Hu]%select_where_elem). cbn [fst] in *. apply Hpost in Hp as (p & Hp & ->). rewrite Huid in Hu.
          destruct (user_id p) as [u|] eqn:E; [|done]. apply bool_decide_eq_true in Hu. by exists p, u.
        - intros (p & u & Hp & Hu & Hi). eexists (t, _). split; [done|]. apply select_where_elem. split; [apply Hpost; by exists p|].
          rewrite Huid, Hu. by apply bool_decide_eq_true_2. }
      setoid_rewrite Hpid. setoid_rewrite Hpost. split.
      + intros (p2 & (p & Hp & ->) & Hn). exists p. split; [done|]. intros u Hu Hi. apply Hn. by exists p, u.
      + intros (p & Hp & Hn). eexists. split; [by exists p|]. intros (p' & u & Hp' & Hu & Hi). simplify_eq. by eapply Hn. }
  destruct picts as [|x picts']; eexists; (split; [reflexivity|]); apply Hfin; try done.
  - by left.
  - right. eexists. split; [reflexivity|done].
  - intros Hd. by eapply (settled_delete_images (x :: picts')).
Qed.
End Purge.

(** ** The whole command *)

(** The invariants the application's own operations keep. *)
Record store_ok (d : db) : Prop := {
  so_likes : likes_ok d;
  so_threads : thread_shape d;
  so_users : users_unique d;
  so_chat : chat_ok d;
  so_dogs : one_representative d;
  so_refs : refs_ok d;
}.

(** The posts whose comment count is followed: new ones and those right before. *)
Definition followed (d : db) (t : Z) : Prop := posts d !! t = None \/ count_ok t d.

Lemma store_ok_settled d : store_ok d -> settled (followed d) d.
Proof.
  intros [[Hp Hc]]. constructor; try done; [intros t n _; apply Hp|intros t n _; apply Hc|].
  intros t p [Hn|(q & Hq & Hcnt)] _ Ht; congruence.
Qed.

Lemma settled_store_ok good d : settled good d -> store_ok d /\ forall t, good t -> is_Some (posts d !! t) -> count_ok t d.
Proof.
  intros Hd. split; [|intros t Hg [p Hp]; exists p; split; [done|by eapply ok_comments]].
  pose proof (settled_likes _ _ Hd). destruct Hd. by constructor.
Qed.

Section Command.
Context `{Random} (uuid7 : nat -> Z) (ulid : nat -> ustr) (gradient_png : nat -> s3obj) (hashed : ustr) (cfg : storage_settings).

Lemma hoare_purge good : hoare (settled good) (at_db purge_demo_data) (fun _ => settled good).
Proof.
  apply hoare_db. intros d a d' E Hd. destruct (purge_demo_spec good d) as (x & Ex & Hs & _).
  rewrite E in Ex. injection Ex as _ ->. apply lagging_core, Hs. exact (proj1 (lagging_core _ _ _ _) Hd).
Qed.

Lemma hoare_create_posts good now count users :
  hoare (settled good) (create_posts uuid7 ulid gradient_png cfg now count users) (fun ps d => settled good d /\ written ps d).
Proof.
  eapply (hoare_weaken _ (fun d => settled good d /\ written [] d)); [| |intros ps d Hd; exact Hd].
  - unfold create_posts. quiet_step. intros tags _. quiet_step. intros stamps _. apply (hoare_posts uuid7 ulid gradient_png cfg (fun ps d => settled good d /\ written ps d) tags users 0 stamps []).
    apply hoare_insert_post.
  - intros d Hd. split; [done|]. split; [constructor|]. by intros p ?%elem_of_nil.
Qed.

Lemma seed_settled good force with_images count now s code s' :
  seed uuid7 ulid gradient_png hashed cfg force with_images count now s = (inr code, s') ->
  settled good (w_db (sd_world s)) -> code = 0 /\ settled good (w_db (sd_world s')).
Proof.
  intros E Hd. unfold seed, seed_tx in E.
  match type of E with context [(get ≫= ?k) ?x] => set (s0 := x) in E; set (body := get ≫= k) in E end.
  assert (hoare (settled good) body (fun code d => code = 0 /\ settled good d)) as Hb.
  { unfold body. quiet_step. intros s1 _. destruct (negb _ && negb force); [by apply hoare_ret|].
    apply (hoare_bind _ _ (fun _ => settled good)); [destruct force; [apply hoare_purge|by apply hoare_ret]|]. intros [].
    eapply hoare_bind; [apply hoare_users|]. intros us. eapply hoare_bind; [apply hoare_create_posts|]. intros ps.
    eapply hoare_bind; [apply hoare_engagement|]. intros [].
    apply (hoare_bind _ _ (fun _ => settled good)); [|intros []; by apply hoare_ret].
    eapply hoare_weaken; [apply (hoare_rooms uuid7 ulid gradient_png)|by intros d [Hd' _]|done]. }
  destruct (body s0) as [[e|c] s1] eqn:Es; [done|]. injection E as <- <-.
  destruct (Hb s0 c s1 Es) as [-> Hs]; [by apply lagging_core|]. split; [done|]. exact (proj1 (lagging_core _ _ _ _) Hs).
Qed.

Lemma seed_error force with_images count now s e s' :
  seed uuid7 ulid gradient_png hashed cfg force with_images count now s = (inl e, s') -> w_db (sd_world s') = w_db (sd_world s).
Proof.
  unfold seed, seed_tx. match goal with |- context [(get ≫= ?k) ?x] => destruct ((get ≫= k) x) as [[e'|c] s1] end; [|done].
  by intros [= _ <-].
Qed.

(** C37. The demo seed keeps six invariants of the store, although it writes rows
    and counters directly.  Whatever the random draws, the images that upload or
    fail, and with or without the purge of [--force]: a failed run leaves the
    database as it was; a finished run returns 0 and keeps [store_ok] - like
    counters equal their rows; replies hang off roots of the same post; emails and
    nicknames are unique; rooms are one per pair, of existing users, with
    messages by members; a user has one representative dog at most; likes and
    comments belong to existing rows - and the comment count of every post it wrote
    (and of every post whose count was right) is the number of visible comments.
    Report counters and the objects of images are not among them: [--force]
    breaks both ([purge_leaves_report_counter], [force_orphans_objects]). *)
Theorem seed_keeps_store (force with_images : bool) (count now : Z) (s : seed_state) :
  store_ok (w_db (sd_world s)) ->
  match seed uuid7 ulid gradient_png hashed cfg force with_images count now s with
  | (inl _, s') => w_db (sd_world s') = w_db (sd_world s)
  | (inr code, s') => code = 0 /\ store_ok (w_db (sd_world s')) /\
      forall t, followed (w_db (sd_world s)) t -> is_Some (posts (w_db (sd_world s')) !! t) -> count_ok t (w_db (sd_world s'))
  end.
Proof.
  intros Hok%store_ok_settled. destruct (seed _ _ _ _ _ _ _ _ _ s) as [[e|code] s'] eqn:E; [by eapply seed_error|].
  destruct (seed_settled _ _ _ _ _ _ _ _ E Hok) as [-> Hd]. by apply settled_store_ok in Hd.
Qed.
End Command.

(** Without [--force], the demo accounts being there, nothing is written. *)
Lemma seed_rerun `{Random} uuid7 ulid gradient_png hashed cfg with_images count now s :
  demo_user_ids (w_db (sd_world s)) <> [] ->
  exists s', seed uuid7 ulid gradient_png hashed cfg false with_images count now s = (inr 0, s') /\ sd_world s' = sd_world s.
Proof.
  intros Hne. unfold seed, seed_tx. unfold mbind at 1, M_bind at 1, get at 1. cbn [sd_world over].
  rewrite bool_decide_eq_false_2 by done. cbn. by eexists.
Qed.

(** C38. [--force] removes exactly the demo accounts.  The purge never fails (the
    RESTRICT of [post_images] is met because the links go first) and keeps every
    invariant of the store: afterwards no demo account is left, every other
    account is, a post survives iff no demo account wrote it - none is left
    without its author - and the like counters of the surviving posts and
    comments, which the cascading deletes know nothing about, equal their rows. *)
Theorem purge_demo_exact (d : db) : store_ok d ->
  exists d', purge_demo_data d = (inr tt, d') /\ store_ok d' /\ demo_user_ids d' = [] /\
  (forall k, is_Some (users d' !! k) <-> exists u, users d !! k = Some u /\ email u ∉ emails) /\
  (forall t, is_Some (posts d' !! t) <-> exists p, posts d !! t = Some p /\ forall u, user_id p = Some u -> u ∉ demo_user_ids d).
Proof.
  intros Hok%store_ok_settled. destruct (purge_demo_spec (followed d) d) as (d' & E & Hs & Hu & Hmail & Hp).
  assert (forall x k, k ∈ demo_user_ids x <-> exists u, users x !! k = Some u /\ email u ∈ emails) as Hdemo.
  { intros x k. unfold demo_user_ids. rewrite list_elem_of_fmap. split.
    - intros ([k' u] & -> & [Hk Hm]%select_where_elem). exists u. split; [done|]. by apply bool_decide_eq_true in Hm.
    - intros (u & Hk & Hm). exists (k, u). split; [done|]. apply select_where_elem. split; [done|]. by apply bool_decide_eq_true_2. }
  exists d'. split; [done|]. split; [by eapply settled_store_ok, Hs|]. split; [|split; [|done]].
  - apply elem_of_nil_inv. intros k (u' & Hk & Hm)%Hdemo. destruct (Hmail k u' Hk) as (u & Hku & He).
    destruct (proj1 (Hu k)) as [_ Hn]; [by exists u'|]. apply Hn, Hdemo. exists u. split; [done|congruence].
  - intros k. rewrite Hu, Hdemo. split.
    + intros [[u Hk] Hn]. exists u. split; [done|]. intros Hm. apply Hn. by exists u.
    + intros (u & Hk & Hm). split; [by exists u|]. intros (u' & Hk' & Hm'). congruence.
Qed.

(** ** A run *)

Definition demo_random : Random.
Proof.
  refine {| rng := nat; randint a b g := (a + Z.of_nat g mod Z.max 1 (b - a + 1), S g); choice_index n g := ((g mod n)%nat, S g);
            sample_indices n k g := (seq 0 k, S g); random_below x g := (Z.of_nat g * 7 mod 100 <? x, S g) |}.
  - intros a b g Hab. cbn. pose proof (Z.mod_pos_bound (Z.of_nat g) (Z.max 1 (b - a + 1))). lia.
  - intros n g Hn. cbn. apply Nat.mod_upper_bound. lia.
  - intros n k g Hk. cbn. split; [apply NoDup_seq|]. split; [apply length_seq|]. apply Forall_forall. intros i Hi%elem_of_seq. lia.
Defined.

Definition demo_cfg : storage_settings :=
  {| S3_PUBLIC_BASE_URL := lit "https://cdn"; S3_BUCKET_NAME := lit "b"; AWS_REGION := lit "r"; ALLOWED_IMAGE_TYPES := [] |}.
Definition demo_uuid (n : nat) : Z := 1000 + Z.of_nat n.
Definition demo_seed_state : @seed_state demo_random :=
  @Build_seed_state demo_random (empty_world <| w_db := empty_db <| categories := {[1; 2; 3; 4]} |> |>) 0%nat 0 0 false.
Definition demo_seed (force : bool) : M (@seed_state demo_random) Z :=
  @seed demo_random demo_uuid (fun n => [48 + Z.of_nat n]) (fun _ => {| o_data := [137; 80]; o_type := [] |}) (lit "hash") demo_cfg force true 4 (200 * DAY).

Lemma empty_store_ok cats : store_ok (empty_db <| categories := cats |>).
Proof.
  constructor; [split; by intros t n|by intros k c r|by intros k1 k2 u1 u2|split_and!| |split_and!]; by intros.
Qed.

Lemma seed_keeps_store_witness :
  store_ok (w_db (sd_world demo_seed_state)) /\
  exists s', demo_seed false demo_seed_state = (inr 0, s') /\ store_ok (w_db (sd_world s')) /\
    base.size (posts (w_db (sd_world s'))) = 4%nat /\ base.size (comments (w_db (sd_world s'))) = 7%nat /\
    forall t, is_Some (posts (w_db (sd_world s')) !! t) -> count_ok t (w_db (sd_world s')).
Proof.
  split; [apply empty_store_ok|].
  pose proof (@seed_keeps_store demo_random demo_uuid (fun n => [48 + Z.of_nat n]) (fun _ => {| o_data := [137; 80]; o_type := [] |}) (lit "hash") demo_cfg
    false true 4 (200 * DAY) demo_seed_state (empty_store_ok _)) as Hs. fold (demo_seed false) in Hs.
  assert ((demo_seed false demo_seed_state).1 = inr 0) as E1 by (vm_compute; reflexivity).
  assert (base.size (posts (w_db (sd_world (demo_seed false demo_seed_state).2))) = 4%nat) as E2 by (vm_compute; reflexivity).
  assert (base.size (comments (w_db (sd_world (demo_seed false demo_seed_state).2))) = 7%nat) as E3 by (vm_compute; reflexivity).
  destruct (demo_seed false demo_seed_state) as [r s']. cbn [fst snd] in *. subst r. destruct Hs as (_ & Hok & Hc).
  exists s'. split; [done|]. split; [exact Hok|]. split; [exact E2|]. split; [exact E3|]. intros t Ht. apply Hc; [by left|exact Ht].
Defined.

(** Someone else's account and post, then the demo data. *)
Definition demo_other : User :=
  {| user_version := 1; email := lit "a@b"; password := []; nickname := lit "ann"; user_profile_image_id := None; role := lit "USER";
     status := ACTIVE; user_created_at := 0; user_updated_at := 0; user_deleted_at := None |}.
Definition demo_other_post : Post :=
  {| user_id := Some 8; title := []; content := []; category_id := None; view_count := 0; like_count := 0; comment_count := 0; report_count := 0;
     is_blinded := false; created_at := 0; updated_at := 0; deleted_at := None; version := 1 |}.
Definition demo_before_seed : db :=
  empty_db <| categories := {[1; 2; 3; 4]} |> <| users := {[8 := demo_other]} |> <| posts := {[3 := demo_other_post]} |>.
Definition demo_seeded : db :=
  w_db (sd_world (demo_seed false (@Build_seed_state demo_random (empty_world <| w_db := demo_before_seed |>) 0%nat 0 0 false)).2).

Lemma demo_before_seed_settled : settled (followed demo_before_seed) demo_before_seed.
Proof.
  pose proof (store_ok_settled _ (empty_store_ok {[1; 2; 3; 4]})) as Hd.
  assert (forall g d, settled (followed d) d -> (forall t, posts d !! t = None) -> settled g d) as Hany.
  { intros g d [] Hn. constructor; try done. intros t p _ _. by rewrite Hn. }
  apply (Hany (followed demo_before_seed)) in Hd; [|done].
  apply (lagging_insert_user _ _ _ 8 demo_other) in Hd; [|by vm_compute].
  by apply (lagging_insert_post _ 3 demo_other_post) in Hd.
Qed.

Lemma demo_seeded_ok : store_ok demo_seeded.
Proof.
  unfold demo_seeded. set (s := @Build_seed_state demo_random _ _ _ _ _).
  assert ((demo_seed false s).1 = inr 0) as E1 by (vm_compute; reflexivity).
  destruct (demo_seed false s) as [r s'] eqn:E. cbn [fst snd] in *. subst r.
  destruct (seed_settled _ _ _ _ _ _ _ _ _ _ _ _ _ E demo_before_seed_settled) as [_ Hd]. by apply settled_store_ok in Hd as [Hd _].
Qed.

Lemma purge_demo_exact_witness :
  store_ok demo_seeded /\ base.size (users demo_seeded) = 9%nat /\
  exists d', purge_demo_data demo_seeded = (inr tt, d') /\ store_ok d' /\ demo_user_ids d' = [] /\ is_Some (users d' !! 8) /\ is_Some (posts d' !! 3).
Proof.
  split; [exact demo_seeded_ok|]. split; [vm_compute; reflexivity|].
  destruct (purge_demo_exact demo_seeded demo_seeded_ok) as (d' & E & Hok & Hno & Hu & Hp).
  exists d'. split; [exact E|]. split; [exact Hok|]. split; [exact Hno|]. split.
  - apply Hu. exists demo_other. split; [vm_compute; reflexivity|]. intros Hm.
    assert (bool_decide (email demo_other ∈ emails) = false) as Hf by (vm_compute; reflexivity).
    apply bool_decide_eq_false_1 in Hf. exact (Hf Hm).
  - apply Hp. exists demo_other_post. split; [vm_compute; reflexivity|]. intros u Hu8 Hin.
    assert (bool_decide (8 ∈ demo_user_ids demo_seeded) = false) as Hf by (vm_compute; reflexivity).
    apply bool_decide_eq_false_1 in Hf. injection Hu8 as <-. exact (Hf Hin).
Defined.

(** ** What [--force] leaves behind

    The rows of the purged images go, their objects stay: after a second seed the
    bucket holds twice as many objects as there are image rows, and nothing in the
    database names the others - the sweepers work from rows. *)
Lemma force_orphans_objects :
  let s1 := (demo_seed true demo_seed_state).2 in
  let s2 := (demo_seed true s1).2 in
  (base.size (images (w_db (sd_world s1))) = 20 /\ base.size (w_s3 (sd_world s1)) = 20 /\
   (demo_seed true s1).1 = inr 0%Z /\ base.size (images (w_db (sd_world s2))) = 20 /\ base.size (w_s3 (sd_world s2)) = 40)%nat.
Proof. vm_compute. done. Qed.

(** Deleting accounts cascades to the reports they filed, and only the like
    counters are repaired before: a report counter keeps counting a report that
    is gone.  The same statements purge withdrawn accounts ([Users]). *)
Definition demo_reported : db :=
  demo_before_seed <| users := {[7 := demo_other <| email := utf8 "demo@puppytalk.shop" |>]} |>
    <| posts := {[3 := demo_other_post <| report_count := 1 |>]} |>
    <| reports := {[5 := {| reporter_id := 7; target_type := POST; target_id := 3; reason := None; rep_created_at := 0; rep_deleted_at := None |}]} |>.
Lemma purge_leaves_report_counter : reports_ok demo_reported /\ ~ reports_ok (purge_demo_data demo_reported).2.
Proof.
  split.
  - intros [] t n b a.
    + destruct (decide (t = 3)) as [->|Hne].
      * assert (observed POST demo_reported 3 = Some (1, false, true)) as -> by (vm_compute; reflexivity). intros [= <- _ _]. vm_compute. reflexivity.
      * unfold observed, demo_reported. cbn [posts over]. by rewrite lookup_singleton_ne.
    + unfold observed, demo_reported. cbn [comments over demo_before_seed]. done.
  - intros Hok. specialize (Hok POST 3 1 false true). assert (1 = 0) as Hf; [|done].
    etrans; [apply Hok; vm_compute; reflexivity|vm_compute; reflexivity].
Qed.
