(* ===== verification/SeedOrder.v ===== *)
(** * The order of seeded posts ([scripts/seed_demo.py])

    Listings page by id, newest first, and ids are drawn when rows are inserted:
    the seed writes posts oldest first so that the two orders agree, and puts a
    share of them inside the trending window. *)

From S2P Require Import Prelude Ids Common Redis Db World Media Search Posts Notifications Comments Likes Dogs Users Chat SeedData SeedDemo SeedInvariant.

(** ** Ids are drawn in order *)

Section Order.
Context `{Random} (uuid7 : nat -> Z) (ulid : nat -> ustr) (gradient_png : nat -> s3obj) (cfg : storage_settings).

(** Steps never hand an id back. *)
Definition advances {A : Type} (m : M seed_state A) : Prop := forall s r s', m s = (r, s') -> (sd_ids s <= sd_ids s')%nat.

Lemma advances_bind {A B : Type} (m : M seed_state A) (k : A -> M seed_state B) :
  advances m -> (forall a, advances (k a)) -> advances (m ≫= k).
Proof.
  intros Hm Hk s r s'. unfold mbind, M_bind. destruct (m s) as [[e|a] s1] eqn:E.
  - intros [= _ <-]. by eapply Hm.
  - intros E'. etrans; [by eapply Hm|by eapply Hk].
Qed.
Lemma advances_ret {A : Type} (a : A) : advances (mret a).
Proof. by intros s r s' [= _ <-]. Qed.
Lemma advances_raise {A : Type} e : advances (raise (A := A) e).
Proof. by intros s r s' [= _ <-]. Qed.
Lemma advances_get : advances get.
Proof. by intros s r s' [= _ <-]. Qed.
Lemma advances_draw {A : Type} (f : rng -> A * rng) : advances (draw f).
Proof. intros s r s'. unfold draw. destruct (f (sd_rng s)). by intros [= _ <-]. Qed.
Lemma advances_db {A : Type} (m : M db A) : advances (at_db m).
Proof. intros s r s'. unfold at_db. destruct (on_db m _). by intros [= _ <-]. Qed.
Lemma advances_uuid : advances (new_uuid7 uuid7).
Proof. intros s r s' [= _ <-]. cbn. lia. Qed.
Lemma advances_ulid : advances (new_ulid_str ulid).
Proof. by intros s r s' [= _ <-]. Qed.
Lemma advances_for_each {A : Type} (l : list A) body : (forall x, advances (body x)) -> advances (for_each l body).
Proof. intros Hb. induction l as [|x l IH]; cbn; [apply advances_ret|]. apply advances_bind; [apply Hb|]. by intros []. Qed.
Create HintDb advances.
#[local] Hint Resolve advances_bind advances_ret advances_raise advances_get advances_draw advances_db advances_uuid advances_ulid advances_for_each : advances.

Lemma advances_choice {A : Type} (l : list A) : advances (choice l).
Proof. unfold choice. apply advances_bind; [auto with advances|]. intros i. destruct (l !! i); auto with advances. Qed.
Lemma advances_sample {A : Type} (l : list A) n : advances (sample l n).
Proof. unfold sample. auto with advances. Qed.
Lemma advances_image purpose index uploader now : advances (create_image uuid7 ulid gradient_png cfg purpose index uploader now).
Proof.
  unfold create_image. apply advances_bind; [auto with advances|]. intros s. destruct (negb _); [auto with advances|].
  apply advances_bind; [auto with advances|]. intros name. apply advances_bind.
  - intros s1 r s2. unfold try_except, mbind, M_bind, at_store. destruct (put_object _ _ _) as [[e|[]] w]; by intros [= _ <-].
  - intros up. destruct (negb up); [auto with advances|]. destruct (build_url _ _); auto with advances.
Qed.
#[local] Hint Resolve advances_choice advances_sample advances_image : advances.

(** A successful [bind], from both ends. *)
Lemma bind_inr {A B : Type} (m : M seed_state A) (k : A -> M seed_state B) s b s' : (m ≫= k) s = (inr b, s') ->
  exists a s1, m s = (inr a, s1) /\ k a s1 = (inr b, s').
Proof. unfold mbind, M_bind. destruct (m s) as [[e|a] s1]; [done|]. intros E. by exists a, s1. Qed.

Lemma each_post_order tags users index stamps s ps s' :
  create_each_post uuid7 ulid gradient_png cfg tags users index stamps s = (inr ps, s') ->
  sp_created <$> ps = stamps /\
  exists ns, sp_id <$> ps = uuid7 <$> ns /\ StronglySorted lt ns /\ Forall (fun n => (sd_ids s <= n)%nat) ns.
Proof.
  revert index s ps. induction stamps as [|created stamps IH]; intros index s ps; cbn [create_each_post].
  - intros [= <- _]. split; [done|]. exists []. split; [done|]. split; constructor.
  - destruct (POST_TEMPLATES !! _) as [[[category title_tpl] body_tpl]|]; [|done]. destruct (users !! _) as [author|]; [|done].
    intros E. apply bind_inr in E as (dog & s1 & F1 & E). apply bind_inr in E as (tail & s2 & F2 & E).
    apply bind_inr in E as (base & s3 & F3 & E). apply bind_inr in E as (factor & s4 & F4 & E).
    apply bind_inr in E as (k & s5 & F5 & E). apply bind_inr in E as (u & s6 & F6 & E). apply bind_inr in E as (n & s7 & F7 & E).
    apply bind_inr in E as (names & s8 & F8 & E). apply bind_inr in E as (u1 & s9 & F9 & E). apply bind_inr in E as (u2 & s10 & F10 & E).
    apply bind_inr in E as (rest & s11 & F11 & E). injection E as <- ->.
    assert (sd_ids s <= sd_ids s4)%nat as H1.
    { apply advances_choice in F1, F2. apply advances_draw in F3. apply advances_choice in F4. lia. }
    assert (k = uuid7 (sd_ids s4) /\ sd_ids s5 = S (sd_ids s4)) as [-> H5] by (by injection F5 as <- <-).
    assert (sd_ids s5 <= sd_ids s10)%nat as H10.
    { apply advances_db in F6. apply advances_draw in F7. apply advances_sample in F8.
      apply advances_for_each in F9; [|intros; apply advances_db].
      assert (sd_ids s9 <= sd_ids s10)%nat; [|lia]. destruct (_ =? 0)%nat; [|by apply advances_ret in F10].
      refine (advances_bind _ _ _ _ _ _ _ F10); [apply advances_image|]. intros [i|]; [|apply advances_ret].
      apply advances_bind; [apply advances_uuid|]. intros link. apply advances_db. }
    destruct (IH (S index) s10 rest F11) as (Hc & ns & Hids & Hsort & Hge). split; [cbn; by rewrite Hc|].
    exists (sd_ids s4 :: ns). split; [cbn; by rewrite Hids|]. split.
    + constructor; [done|]. eapply Forall_impl; [exact Hge|]. cbn. lia.
    + constructor; [done|]. eapply Forall_impl; [exact Hge|]. cbn. lia.
Qed.

(** ** The stamps *)

Lemma yields_draws_all n f (P : Z -> Prop) : (forall g, P (f g).1) -> yields (draws n f) (fun l => length l = n /\ Forall P l).
Proof.
  intros Hf. induction n as [|n IH]; cbn [draws]; [by apply yields_ret|]. eapply yields_bind; [by apply (yields_draw f P)|]. intros x Hx.
  eapply yields_bind; [exact IH|]. intros xs [Hl Hxs]. apply yields_ret. split; [cbn; by rewrite Hl|by constructor].
Qed.

(** Oldest first, all past, the promised share within the last day. *)
Definition stamps_ok (now count : Z) (stamps : list Z) : Prop :=
  py_len stamps = Z.max 1 count /\ StronglySorted Z.le stamps /\ Forall (fun t => t < now) stamps /\
  recent_count count <= py_len (List.filter (fun t => now - 86400 <? t) stamps).

Lemma length_filter_ge {A : Type} (P : A -> bool) (l : list A) : Forall (fun x => P x = true) l -> length (List.filter P l) = length l.
Proof. induction 1 as [|x l Hx _ IH]; cbn; [done|]. rewrite Hx. cbn. by rewrite IH. Qed.

Lemma yields_stamps now count : yields (post_timestamps now count) (stamps_ok now count).
Proof.
  unfold post_timestamps.
  eapply yields_bind; [apply (yields_draws_all _ _ (fun m => 10 <= m <= 23 * 60)); intros g; by apply randint_range|]. intros recent [Hlr Hr].
  eapply yields_bind; [apply (yields_draws_all _ _ (fun h => 25 <= h <= 30 * 24)); intros g; by apply randint_range|]. intros older [Hlo Ho].
  apply yields_ret. set (l := ((fun m => now - 60 * m) <$> recent) ++ ((fun h => now - 3600 * h) <$> older)).
  pose proof (order_by_perm id Z.ltb l) as Hperm. unfold stamps_ok, py_len, recent_count in *. split_and!.
  - rewrite Hperm. unfold l. rewrite length_app, !length_fmap, Hlr, Hlo.
    assert (count * 3 / 10 <= count \/ count < 0) as Hq by (destruct (Z.lt_ge_cases count 0); [by right|left; apply Z.div_le_upper_bound; lia]).
    destruct Hq as [Hq|Hq]; [|assert (count * 3 / 10 < 0) by (apply Z.div_lt_upper_bound; lia)]; lia.
  - pose proof (order_by_sorted id Z.ltb l) as Hs. unfold not_after in Hs. revert Hs. generalize (order_by id Z.ltb l) as k.
    induction 1 as [|x k _ IH Hx]; constructor; [done|]. eapply Forall_impl; [exact Hx|]. intros y Hy. cbn in *. by apply Z.ltb_ge.
  - rewrite Hperm. unfold l. rewrite Forall_app, !Forall_fmap. split; [eapply Forall_impl; [exact Hr|]|eapply Forall_impl; [exact Ho|]]; cbn; lia.
  - rewrite (lfilter_perm _ _ _ Hperm). unfold l. rewrite List.filter_app, length_app.
    rewrite (length_filter_ge _ (_ <$> recent)); [rewrite length_fmap, Hlr; lia|]. apply Forall_fmap. eapply Forall_impl; [exact Hr|].
    cbn. intros m Hm. apply Z.ltb_lt. lia.
Qed.

(** ** The rows *)

Definition dated (ps : list seeded_post) (d : db) : Prop :=
  forall p, p ∈ ps -> created_at <$> posts d !! sp_id p = Some (sp_created p).

Lemma hoare_dated qs k p refs a :
  hoare (dated qs) (at_db (insert_row k p refs)) (fun _ => dated (qs ++ [{| sp_id := k; sp_author := a; sp_created := created_at p |}])).
Proof.
  apply hoare_db. intros d [] d' (Hk & _ & ->)%insert_row_inv Hd q [Hq| ->%list_elem_of_singleton]%elem_of_app; cbn.
  - specialize (Hd q Hq). change (posts d !! k = None) in Hk. change (posts (core d)) with (posts d) in Hd. rewrite lookup_insert_ne; [done|].
    intros ->. by rewrite Hk in Hd.
  - by rewrite lookup_insert_eq.
Qed.

(** Seeded posts are in order.  When each drawn id is larger than the one
    before, the list pages of the demo data, which go by id, show dates that only
    decrease: the posts are written oldest first and each row carries the date
    it was listed with.  There are [max(1, count)] of them, all in the past, and
    at least [max(1, 30%)] lie within the last 24 hours, the trending window. *)
Theorem seeded_posts_in_order (now count : Z) (users : list Z) (s : seed_state) (ps : list seeded_post) (s' : seed_state) :
  (forall n m, (n < m)%nat -> uuid7 n < uuid7 m) ->
  create_posts uuid7 ulid gradient_png cfg now count users s = (inr ps, s') ->
  StronglySorted (fun p q => sp_id p < sp_id q /\ sp_created p <= sp_created q) ps /\
  (forall p, p ∈ ps -> created_at <$> posts (w_db (sd_world s')) !! sp_id p = Some (sp_created p)) /\
  py_len ps = Z.max 1 count /\ Forall (fun p => sp_created p < now) ps /\
  recent_count count <= py_len (List.filter (fun p => now - 86400 <? sp_created p) ps).
Proof.
  intros Hup E. assert (dated ps (tables s')) as Hd.
  { revert E. assert (hoare (dated []) (create_posts uuid7 ulid gradient_png cfg now count users) dated) as Hh.
    { unfold create_posts. quiet_step. intros tags _. quiet_step. intros stamps _.
      apply (hoare_posts uuid7 ulid gradient_png cfg dated tags users 0 stamps []). intros qs k p refs a _ _. apply hoare_dated. }
    intros E. eapply Hh; [exact E|]. by intros p ?%elem_of_nil. }
  unfold create_posts in E. apply bind_inr in E as (tags & s1 & _ & E). apply bind_inr in E as (stamps & s2 & F & E).
  destruct (yields_stamps now count _ _ _ F) as [_ (Hlen & Hsort & Hpast & Hrec)].
  destruct (each_post_order _ _ _ _ _ _ _ E) as (<- & ns & Hids & Hns & _). split_and!.
  - clear -Hup Hids Hns Hsort. revert ns Hids Hns Hsort. induction ps as [|p ps IH]; intros ns Hids Hns Hsort; [constructor|].
    destruct ns as [|n ns]; [done|]. cbn in Hids, Hsort. injection Hids as Hp Hids. apply StronglySorted_inv in Hns as [Hns Hn], Hsort as [Hsort Hc].
    constructor; [by eapply IH|]. apply Forall_forall. intros q Hq. split; [|rewrite Forall_fmap, Forall_forall in Hc; by apply Hc].
    assert (sp_id q ∈ uuid7 <$> ns) as (m & -> & Hm)%list_elem_of_fmap by (rewrite <-Hids; by apply list_elem_of_fmap_2).
    rewrite Hp. apply Hup. rewrite Forall_forall in Hn. by apply Hn.
  - exact Hd.
  - unfold py_len in *. by rewrite length_fmap in Hlen.
  - by rewrite Forall_fmap in Hpast.
  - unfold py_len in *. etrans; [exact Hrec|]. clear. induction ps as [|p ps IH]; cbn; [lia|]. destruct (_ <? _); cbn; lia.
Qed.
End Order.

Definition demo_accounts : (exn + list Z) * @seed_state demo_random :=
  @create_users demo_random demo_uuid (fun n => [48 + Z.of_nat n]) (fun _ => {| o_data := []; o_type := [] |}) (lit "hash") demo_cfg (200 * DAY) demo_seed_state.
Definition demo_create_posts (users : list Z) : M (@seed_state demo_random) (list seeded_post) :=
  @create_posts demo_random demo_uuid (fun n => [48 + Z.of_nat n]) (fun _ => {| o_data := []; o_type := [] |}) demo_cfg (200 * DAY) 5 users.
Definition demo_user_list : list Z := match demo_accounts.1 with inr l => l | inl _ => [] end.

Lemma seeded_posts_in_order_witness :
  exists ps s', demo_create_posts demo_user_list demo_accounts.2 = (inr ps, s') /\ py_len ps = 5 /\
    StronglySorted (fun p q => sp_id p < sp_id q /\ sp_created p <= sp_created q) ps /\
    1 <= py_len (List.filter (fun p => 199 * DAY <? sp_created p) ps).
Proof.
  destruct (demo_create_posts demo_user_list demo_accounts.2) as [[e|ps] s'] eqn:E.
  - exfalso. assert (match (demo_create_posts demo_user_list demo_accounts.2).1 with inr _ => True | inl _ => False end) as Hr by (vm_compute; exact I).
    rewrite E in Hr. exact Hr.
  - exists ps, s'. split; [reflexivity|].
    destruct (@seeded_posts_in_order demo_random demo_uuid (fun n => [48 + Z.of_nat n]) (fun _ => {| o_data := []; o_type := [] |}) demo_cfg
      (200 * DAY) 5 demo_user_list demo_accounts.2 ps s') as (Hs & _ & Hl & _ & Hr); [|exact E|].
    + intros n m Hnm. unfold demo_uuid. lia.
    + split; [exact Hl|]. split; [exact Hs|]. exact Hr.
Defined.
