(* ===== verification/Diagram.v ===== *)
(** * The documentation generator ([tools/gen_pipeline.py])

    [docs/pipeline.md] is written by a script: calls that append Markdown lines
    and box drawings whose columns are filled by display width, Hangul taking
    two.  The calls are data here, executed on the script's buffers; the theorem
    says what its final check accepts. *)

From stdpp Require Import pretty.
From S2P Require Import Prelude.

(** ** Display width *)

(** [unicodedata.east_asian_width(c) in "WF"] on the assigned code points of
    Unicode 14. *)
Definition WIDE : list (Z * Z) :=
  [(4352, 4447); (8986, 8987); (9001, 9002); (9193, 9196); (9200, 9200); (9203, 9203); (9725, 9726); (9748, 9749); (9800, 9811);
   (9855, 9855); (9875, 9875); (9889, 9889); (9898, 9899); (9917, 9918); (9924, 9925); (9934, 9934); (9940, 9940); (9962, 9962);
   (9970, 9971); (9973, 9973); (9978, 9978); (9981, 9981); (9989, 9989); (9994, 9995); (10024, 10024); (10060, 10060); (10062, 10062);
   (10067, 10069); (10071, 10071); (10133, 10135); (10160, 10160); (10175, 10175); (11035, 11036); (11088, 11088); (11093, 11093);
   (11904, 12350); (12353, 12871); (12880, 19903); (19968, 42182); (43360, 43388); (44032, 55203); (63744, 64217); (65040, 65049);
   (65072, 65131); (65281, 65376); (65504, 65510); (94176, 111355); (126980, 126980); (127183, 127183); (127374, 127374); (127377, 127386);
   (127488, 127776); (127789, 127797); (127799, 127868); (127870, 127891); (127904, 127946); (127951, 127955); (127968, 127984);
   (127988, 127988); (127992, 128062); (128064, 128064); (128066, 128252); (128255, 128317); (128331, 128334); (128336, 128359);
   (128378, 128378); (128405, 128406); (128420, 128420); (128507, 128591); (128640, 128709); (128716, 128716); (128720, 128722);
   (128725, 128735); (128747, 128748); (128756, 128764); (128992, 129008); (129292, 129338); (129340, 129349); (129351, 129535);
   (129648, 129782); (131072, 201546)].
Definition is_wide (c : Z) : bool := (4352 <=? c) && existsb (fun r => between r.1 r.2 c) WIDE.

Definition char_width (c : Z) : Z := if is_wide c then 2 else 1.
Definition dw (s : ustr) : Z := foldr (fun c n => char_width c + n) 0 s.

Definition W : Z := 100.
Definition BOX : Z := 58.
Definition GAP : Z := 2.
Definition ANN : Z := W - 4 - BOX - GAP.

(** [c * n] *)
Definition times (n : Z) (s : ustr) : ustr := concat (replicate (Z.to_nat n) s).
Definition spaces (n : Z) : ustr := times n [32].
Definition pad (s : ustr) (n : Z) : ustr := s ++ spaces (Z.max 0 (n - dw s)).

(** ** The script's buffers *)

Record doc := { MD : list ustr; BUF : list ustr; RAIL : Z; OVER : list (Z * ustr); NUM : Z }.
Definition start : doc := {| MD := []; BUF := []; RAIL := 9553; OVER := []; NUM := 5 |}.

Definition md (lines : list ustr) (d : doc) : doc := {| MD := MD d ++ lines; BUF := BUF d; RAIL := RAIL d; OVER := OVER d; NUM := NUM d |}.
Definition bx (s : ustr) (d : doc) : doc := {| MD := MD d; BUF := BUF d ++ [s]; RAIL := RAIL d; OVER := OVER d; NUM := NUM d |}.
Definition rail (c : Z) (d : doc) : doc := {| MD := MD d; BUF := BUF d; RAIL := c; OVER := OVER d; NUM := NUM d |}.
Definition next_number (d : doc) : doc := {| MD := MD d; BUF := BUF d; RAIL := RAIL d; OVER := OVER d; NUM := NUM d + 1 |}.

Definition dia (d : doc) : doc :=
  let d1 := md [lit "```"] d in
  let d2 := md (BUF d1) d1 in
  let d3 := md [lit "```"; []] d2 in
  {| MD := MD d3; BUF := []; RAIL := RAIL d3; OVER := OVER d3; NUM := NUM d3 |}.

Definition row (s : ustr) (d : doc) : doc := bx ([RAIL d] ++ pad s (W - 2) ++ [RAIL d]) d.

Definition ftop (title : ustr) (double : bool) (d : doc) : doc :=
  let '(a, b, c) := if double then (9556, 9552, 9559) else (9484, 9472, 9488) in
  let t := if bool_decide (title = []) then [] else [32] ++ title ++ [32] in
  bx ([a] ++ times 2 [b] ++ t ++ times (W - 4 - dw t) [b] ++ [c]) d.

Definition fbot (double conn : bool) (d : doc) : doc :=
  let '(a, b, c) := if double then (9562, 9552, 9565) else (9492, 9472, 9496) in
  bx ([a] ++ (if conn then times 24 [b] ++ [9578] ++ times (W - 27) [b] else times (W - 2) [b]) ++ [c]) d.

(** [fit] records what is too wide and goes on. *)
Definition fit (s : ustr) (n : Z) (d : doc) : ustr * doc :=
  (pad s n,
   if n <? dw s then {| MD := MD d; BUF := BUF d; RAIL := RAIL d; OVER := OVER d ++ [(dw s - n, s)]; NUM := NUM d |} else d).

(** One row of a step: the box's content and its annotation. *)
Definition step_row (left right content ann : ustr) (d : doc) : doc :=
  let '(x, d1) := fit content (BOX - 4) d in
  let '(y, d2) := fit ann ANN d1 in
  row (left ++ x ++ right ++ spaces GAP ++ y) d2.

Fixpoint step_lines (lines : list ustr) (anns : list ustr) (d : doc) : doc :=
  match lines with
  | [] => d
  | x :: lines' =>
      step_lines lines' (tail anns) (step_row (utf8 "  │ ") (utf8 " │") (spaces 3 ++ x) (default [] (head anns)) d)
  end.

Definition step (title : ustr) (lines ann : list ustr) (last : bool) (d : doc) : doc :=
  let ann := ann ++ replicate (length lines + 4) [] in
  let '(a0, d0) := fit (default [] (ann !! 0%nat)) ANN d in
  let d1 := row (utf8 "  ┌" ++ times (BOX - 2) (utf8 "─") ++ utf8 "┐" ++ spaces GAP ++ a0) d0 in
  let d2 := step_row (utf8 "  │ ") (utf8 " │") title (default [] (ann !! 1%nat)) d1 in
  let d3 := step_lines lines (drop 2 ann) d2 in
  row (utf8 "  └" ++ (if last then times (BOX - 2) (utf8 "─") else times 21 (utf8 "─") ++ utf8 "┬" ++ times (BOX - 24) (utf8 "─")) ++ utf8 "┘") d3.

Definition down (d : doc) : doc := row (spaces 24 ++ utf8 "▼") d.
Definition notes (lines : list ustr) (d : doc) : doc := fold_left (fun d x => row (spaces 6 ++ x) d) lines d.
Definition CONN : ustr := spaces 25 ++ utf8 "▼".

Definition plain (rows : list ustr) (d : doc) : doc :=
  let old := RAIL d in
  let d1 := ftop [] false (rail 9474 d) in
  let d2 := fold_left (fun d r => row (spaces 2 ++ r) d) rows d1 in
  rail old (fbot false false d2).

Definition core (title : ustr) (d : doc) : doc := ftop title true (rail 9553 d).
Definition side (title : ustr) (d : doc) : doc := ftop (utf8 "곁다리 · " ++ title) false (rail 9474 d).

Definition domain (name eps : ustr) (blurb : list ustr) (d : doc) : doc :=
  let d := next_number d in
  md ([lit "## " ++ lit (pretty (NUM d)) ++ utf8 " · " ++ name; []; lit "`" ++ eps ++ lit "`"; []] ++ blurb ++ [[]; utf8 "### 파이프라인"; []]) d.

Definition stack (rows : list ustr) (d : doc) : doc :=
  md ([utf8 "### 스택 요약"; []; utf8 "| 레이어 | 기술 | 메모 |"; lit "|---|---|---|"] ++ rows ++ [[]; lit "---"; []]) d.

(** ** The calls of the script *)

Inductive call :=
  | Md (lines : list ustr) | Bx (s : ustr) | Dia | Row (s : ustr) | Fbot (double conn : bool)
  | Step (title : ustr) (lines ann : list ustr) (last : bool) | Down | Notes (lines : list ustr) | Plain (rows : list ustr)
  | Core (title : ustr) | Side (title : ustr) | Domain (name eps : ustr) (blurb : list ustr) | Stack (rows : list ustr).

Definition exec (d : doc) (c : call) : doc :=
  match c with
  | Md lines => md lines d
  | Bx s => bx s d
  | Dia => dia d
  | Row s => row s d
  | Fbot double conn => fbot double conn d
  | Step title lines ann last => step title lines ann last d
  | Down => down d
  | Notes lines => notes lines d
  | Plain rows => plain rows d
  | Core title => core title d
  | Side title => side title d
  | Domain name eps blurb => domain name eps blurb d
  | Stack rows => stack rows d
  end.
Definition run (cs : list call) : doc := fold_left exec cs start.

(** ** [check] and the file *)

Definition RAILS : ustr := utf8 "║│╔╚┌└".
Definition misaligned (ln : ustr) : bool :=
  match ln with [] => false | c :: _ => bool_decide (c ∈ RAILS) && negb (dw ln =? W) end.

Inductive verdict := Aligned (lines : Z) | TooWide (texts : list (Z * ustr)) | Misaligned (numbers : list nat).

Definition check (d : doc) : verdict :=
  if bool_decide (OVER d = []) then
    match (fun p => p.1) <$> List.filter (fun p => misaligned p.2) (zip (seq 1 (length (MD d))) (MD d)) with
    | [] => Aligned (py_len (MD d))
    | bad => Misaligned bad
    end
  else TooWide (OVER d).

Definition join (sep : ustr) (l : list ustr) : ustr :=
  match l with [] => [] | x :: l' => x ++ concat ((fun y => sep ++ y) <$> l') end.
Definition written (d : doc) : ustr := rstrip_by is_space (join [10] (MD d)) ++ [10].

(** What a call must satisfy for the check to pass. *)
Definition fits (c : call) : bool :=
  match c with
  | Md lines | Stack lines | Domain _ _ lines => forallb (fun x => negb (misaligned x)) lines
  | Bx s => negb (misaligned s)
  | Dia | Down | Fbot _ _ => true
  | Row s => dw s <=? W - 2
  | Step title lines ann _ =>
      (dw title <=? BOX - 4) && forallb (fun x => 3 + dw x <=? BOX - 4) lines &&
      forallb (fun a => dw a <=? ANN) (take (length lines + 2) ann)
  | Notes lines => forallb (fun x => 6 + dw x <=? W - 2) lines
  | Plain rows => forallb (fun x => 2 + dw x <=? W - 2) rows
  | Core title => bool_decide (title = []) || (2 + dw title <=? W - 4)
  | Side title => 2 + (9 + dw title) <=? W - 4
  end.

(** ** Widths *)

Lemma char_width_pos c : 1 <= char_width c <= 2.
Proof. unfold char_width. destruct (is_wide c); lia. Qed.
Lemma dw_nonneg s : 0 <= dw s.
Proof. induction s as [|c s IH]; cbn; [lia|]. pose proof (char_width_pos c). unfold dw in IH. lia. Qed.
Lemma dw_app s t : dw (s ++ t) = dw s + dw t.
Proof. unfold dw. induction s as [|c s IH]; cbn [app foldr]; lia. Qed.
Lemma dw_cons c s : dw (c :: s) = char_width c + dw s.
Proof. done. Qed.
Lemma dw_nil : dw [] = 0.
Proof. done. Qed.
Lemma dw_times n s : dw (times n s) = Z.max 0 n * dw s.
Proof.
  unfold times. assert (forall k, dw (concat (replicate k s)) = Z.of_nat k * dw s) as Hk.
  { induction k as [|k IH]; cbn [replicate concat]; [done|]. rewrite dw_app, IH. lia. }
  rewrite Hk. f_equal. lia.
Qed.
Lemma dw_spaces n : dw (spaces n) = Z.max 0 n.
Proof. unfold spaces. rewrite dw_times. change (dw [32]) with 1. lia. Qed.
Lemma dw_pad s n : dw (pad s n) = Z.max n (dw s).
Proof. unfold pad. rewrite dw_app, dw_spaces. pose proof (dw_nonneg s). lia. Qed.

Definition aligned (s : ustr) : Prop := misaligned s = false.

Lemma aligned_rail c s : c ∈ RAILS -> aligned (c :: s) <-> dw (c :: s) = W.
Proof.
  intros Hc. unfold aligned, misaligned. rewrite bool_decide_eq_true_2 by done. cbn [andb].
  rewrite negb_false_iff. apply Z.eqb_eq.
Qed.
Lemma aligned_other c s : c ∉ RAILS -> aligned (c :: s).
Proof. intros Hc. unfold aligned, misaligned. by rewrite bool_decide_eq_false_2. Qed.

Lemma aligned_forallb lines : forallb (fun x => negb (misaligned x)) lines = true <-> Forall aligned lines.
Proof.
  induction lines as [|x l IH]; cbn; [split; [constructor|done]|]. rewrite andb_true_iff, IH, Forall_cons, negb_true_iff. done.
Qed.

(** ** The buffers stay clean *)

Definition rail_ok (d : doc) : Prop := RAIL d = 9553 \/ RAIL d = 9474.
Definition clean (d : doc) : Prop := OVER d = [] /\ Forall aligned (MD d) /\ Forall aligned (BUF d).

Ltac rails := apply (bool_decide_unpack _); vm_compute; exact I.

Lemma clean_md lines d : clean (md lines d) <-> clean d /\ Forall aligned lines.
Proof. unfold clean, md. cbn. rewrite Forall_app. tauto. Qed.
Lemma clean_bx s d : clean (bx s d) <-> clean d /\ aligned s.
Proof. unfold clean, bx. cbn. rewrite Forall_app, Forall_singleton. tauto. Qed.
Lemma clean_rail c d : clean (rail c d) <-> clean d.
Proof. done. Qed.
Lemma clean_next d : clean (next_number d) <-> clean d.
Proof. done. Qed.
Lemma clean_dia d : clean (dia d) <-> clean d.
Proof.
  unfold clean, dia, md. cbn. rewrite !Forall_app, !Forall_cons. split; [tauto|]. intros (H1 & H2 & H3).
  split_and!; try done; by apply aligned_other; rails.
Qed.

Lemma rail_facts d : rail_ok d -> RAIL d ∈ RAILS /\ char_width (RAIL d) = 1.
Proof. intros [->| ->]; (split; [rails|vm_compute; reflexivity]). Qed.

Lemma clean_row s d : rail_ok d -> clean (row s d) <-> clean d /\ dw s <= W - 2.
Proof.
  intros Hr. destruct (rail_facts d Hr) as [Hin Hw]. unfold row. rewrite clean_bx. cbn [app]. rewrite aligned_rail by done.
  rewrite dw_cons, dw_app, dw_pad, dw_cons, dw_nil, Hw. unfold W. split; intros [? ?]; (split; [done|]); lia.
Qed.

Lemma clean_ftop title double d : clean (ftop title double d) <-> clean d /\ (title = [] \/ 2 + dw title <= W - 4).
Proof.
  unfold ftop. set (t := if bool_decide (title = []) then [] else _).
  assert (dw t <= W - 4 <-> title = [] \/ 2 + dw title <= W - 4) as Ht.
  { unfold t. case_bool_decide as E; [rewrite dw_nil; unfold W; split; [by left|lia]|]. rewrite !dw_app.
    change (dw [32]) with 1. split; [intros; right; lia|]. intros [?|?]; [done|lia]. }
  rewrite <-Ht. destruct double; cbv beta iota; rewrite clean_bx; cbn [app]; (rewrite aligned_rail by rails);
    rewrite dw_cons, !dw_app, !dw_times, !dw_cons, dw_nil; unfold W;
    [assert (char_width 9556 = 1 /\ char_width 9552 = 1 /\ char_width 9559 = 1) as (-> & -> & ->) by (vm_compute; done)
    |assert (char_width 9484 = 1 /\ char_width 9472 = 1 /\ char_width 9488 = 1) as (-> & -> & ->) by (vm_compute; done)];
    split; intros [? ?]; (split; [done|]); lia.
Qed.

Lemma clean_fbot double conn d : clean (fbot double conn d) <-> clean d.
Proof.
  unfold fbot. destruct double, conn; cbv beta iota; rewrite clean_bx; (split; [by intros [? _]|]); intros ?; (split; [done|]); vm_compute; done.
Qed.

(** A row assembled from fitted texts. *)
Lemma clean_fit s n d : clean (fit s n d).2 <-> clean d /\ dw s <= n.
Proof.
  unfold fit. cbn [snd]. destruct (Z.ltb_spec n (dw s)); [|split; [intros ?; split; [done|lia]|by intros [? _]]].
  unfold clean. cbn. split; [intros [E _]; by destruct (OVER d)|lia].
Qed.
Lemma rail_fit s n d : rail_ok d -> rail_ok (fit s n d).2.
Proof. unfold fit. cbn. by destruct (_ <? _). Qed.

Lemma clean_step_row left right content ann d : rail_ok d -> dw left = 4 -> dw right = 2 ->
  clean (step_row left right content ann d) <-> clean d /\ dw content <= BOX - 4 /\ dw ann <= ANN.
Proof.
  intros Hr Hl Hri. unfold step_row. pose proof (clean_fit content (BOX - 4) d) as H1.
  pose proof (rail_fit content (BOX - 4) d Hr) as R1. destruct (fit content (BOX - 4) d) as [x d1] eqn:E1. cbn [snd] in *.
  pose proof (clean_fit ann ANN d1) as H2. pose proof (rail_fit ann ANN d1 R1) as R2. destruct (fit ann ANN d1) as [y d2] eqn:E2. cbn [snd] in *.
  rewrite clean_row by done. rewrite H2, H1. unfold fit in E1, E2. injection E1 as <- _. injection E2 as <- _.
  rewrite !dw_app, !dw_pad, Hl, Hri, dw_spaces. unfold W, BOX, ANN, GAP, W, BOX in *. pose proof (dw_nonneg content). pose proof (dw_nonneg ann).
  split; [tauto|]. intros (? & ? & ?). split; [tauto|]. lia.
Qed.
Lemma rail_step_row left right content ann d : rail_ok d -> rail_ok (step_row left right content ann d).
Proof.
  intros Hr. unfold step_row. pose proof (rail_fit content (BOX - 4) d Hr) as R1. destruct (fit content (BOX - 4) d) as [x d1]. cbn [snd] in *.
  pose proof (rail_fit ann ANN d1 R1) as R2. by destruct (fit ann ANN d1) as [y d2].
Qed.

Lemma edge_widths : dw (utf8 "  │ ") = 4 /\ dw (utf8 " │") = 2 /\ dw (utf8 "  ┌") = 3 /\ dw (utf8 "┐") = 1 /\ dw (utf8 "─") = 1 /\
  dw (utf8 "  └") = 3 /\ dw (utf8 "┘") = 1 /\ dw (utf8 "┬") = 1 /\ dw (utf8 "▼") = 1 /\ dw (utf8 "곁다리 · ") = 9.
Proof. split_and!; vm_compute; reflexivity. Qed.

Lemma clean_step_lines lines anns d : rail_ok d -> (length lines <= length anns)%nat ->
  rail_ok (step_lines lines anns d) /\
  (clean (step_lines lines anns d) <-> clean d /\ Forall (fun x => 3 + dw x <= BOX - 4) lines /\ Forall (fun a => dw a <= ANN) (take (length lines) anns)).
Proof.
  destruct edge_widths as (E1 & E2 & _). revert anns d. induction lines as [|x lines IH]; intros anns d Hr Hl; cbn [step_lines length take].
  - split; [done|]. split; [intros ?; split_and!; [done|constructor|destruct anns; constructor]|by intros [? _]].
  - destruct anns as [|a anns]; [cbn in Hl; lia|]. cbn [tail head default take] in *.
    destruct (IH anns (step_row (utf8 "  │ ") (utf8 " │") (spaces 3 ++ x) a d)) as [IHr IHc]; [by apply rail_step_row|cbn in Hl; lia|].
    split; [exact IHr|]. rewrite IHc, clean_step_row, !Forall_cons, dw_app, dw_spaces by done. change (Z.max 0 3) with 3. tauto.
Qed.

Lemma rail_row s d : rail_ok d -> rail_ok (row s d).
Proof. done. Qed.

Lemma clean_step title lines ann last d : rail_ok d ->
  rail_ok (step title lines ann last d) /\
  (clean (step title lines ann last d) <->
   clean d /\ dw title <= BOX - 4 /\ Forall (fun x => 3 + dw x <= BOX - 4) lines /\ Forall (fun a => dw a <= ANN) (take (length lines + 2) ann)).
Proof.
  intros Hr. destruct edge_widths as (E1 & E2 & E3 & E4 & E5 & E6 & E7 & E8 & _).
  assert (exists a0 a1 rest, ann ++ replicate (length lines + 4) [] = a0 :: a1 :: rest /\ (length lines <= length rest)%nat /\
    (Forall (fun a => dw a <= ANN) (take (length lines + 2) ann) <-> dw a0 <= ANN /\ dw a1 <= ANN /\ Forall (fun a => dw a <= ANN) (take (length lines) rest)))
    as (a0 & a1 & rest & Ea & Hlen & Hann).
  { assert (Forall (fun a => dw a <= ANN) (take (length lines + 2) ann) <->
            Forall (fun a => dw a <= ANN) (take (length lines + 2) (ann ++ replicate (length lines + 4) []))) as Hext.
    { rewrite take_app, Forall_app. split; [|tauto]. intros ?. split; [done|]. apply Forall_take, Forall_replicate. vm_compute. discriminate. }
    assert (length (ann ++ replicate (length lines + 4) []) = length ann + (length lines + 4))%nat as Hl by (by rewrite length_app, length_replicate).
    destruct (ann ++ replicate (length lines + 4) []) as [|a0 [|a1 rest]]; [cbn in Hl; lia..|]. exists a0, a1, rest. split; [done|].
    split; [cbn in Hl; lia|]. rewrite Hext. replace (length lines + 2)%nat with (S (S (length lines))) by lia. cbn [take]. by rewrite !Forall_cons. }
  unfold step. rewrite Ea. change (drop 2 (a0 :: a1 :: rest)) with rest.
  change (default [] ((a0 :: a1 :: rest) !! 0%nat)) with a0. change (default [] ((a0 :: a1 :: rest) !! 1%nat)) with a1.
  pose proof (clean_fit a0 ANN d) as H0. pose proof (rail_fit a0 ANN d Hr) as R0. destruct (fit a0 ANN d) as [y d0] eqn:E0. cbn [snd] in *.
  injection E0 as <- _. cbv zeta. set (d1 := row _ d0). set (d2 := step_row _ _ title a1 d1).
  assert (rail_ok d1) as R1 by done. assert (rail_ok d2) as R2 by (by apply rail_step_row).
  destruct (clean_step_lines lines rest d2 R2 Hlen) as [R3 H3]. split; [done|].
  rewrite clean_row, H3 by done. unfold d2. rewrite clean_step_row by done. unfold d1. rewrite clean_row, H0 by done. rewrite Hann.
  assert (dw (utf8 "  └" ++ (if last then times (BOX - 2) (utf8 "─") else times 21 (utf8 "─") ++ utf8 "┬" ++ times (BOX - 24) (utf8 "─")) ++ utf8 "┘") <= W - 2) as Hbot.
  { destruct last; vm_compute; discriminate. }
  assert (dw a0 <= ANN -> dw (utf8 "  ┌" ++ times (BOX - 2) (utf8 "─") ++ utf8 "┐" ++ spaces GAP ++ pad a0 ANN) <= W - 2) as Htop.
  { rewrite !dw_app, dw_times, dw_spaces, dw_pad, E3, E4, E5. unfold W, BOX, ANN, GAP, W, BOX. lia. }
  tauto.
Qed.

Lemma clean_rows (n : Z) (xs : list ustr) d : rail_ok d -> 0 <= n ->
  rail_ok (fold_left (fun d x => row (spaces n ++ x) d) xs d) /\
  (clean (fold_left (fun d x => row (spaces n ++ x) d) xs d) <-> clean d /\ Forall (fun x => n + dw x <= W - 2) xs).
Proof.
  intros Hr Hn. revert d Hr. induction xs as [|x xs IH]; intros d Hr; cbn [fold_left].
  - split; [done|]. split; [intros; split; [done|constructor]|by intros [? _]].
  - destruct (IH (row (spaces n ++ x) d)) as [H1 H2]; [done|]. split; [exact H1|].
    rewrite H2, clean_row, Forall_cons, dw_app, dw_spaces by done. rewrite Z.max_r by done. tauto.
Qed.

Lemma forallb_leb (f : ustr -> Z) n l : forallb (fun x => f x <=? n) l = true <-> Forall (fun x => f x <= n) l.
Proof. induction l as [|x l IH]; cbn; [split; [constructor|done]|]. by rewrite andb_true_iff, IH, Forall_cons, Z.leb_le. Qed.

(** One call. *)
Lemma exec_clean d c : rail_ok d -> rail_ok (exec d c) /\ (clean (exec d c) <-> clean d /\ fits c = true).
Proof.
  intros Hr. destruct edge_widths as (_ & _ & _ & _ & _ & _ & _ & _ & E9 & E10). destruct c; cbn [exec fits].
  - split; [done|]. by rewrite clean_md, aligned_forallb.
  - split; [done|]. by rewrite clean_bx, negb_true_iff.
  - split; [done|]. rewrite clean_dia. tauto.
  - split; [done|]. by rewrite clean_row, Z.leb_le.
  - split; [unfold fbot; destruct double; done|]. rewrite clean_fbot. tauto.
  - match goal with |- context [step _ _ _ ?b d] => destruct (clean_step title lines ann b d Hr) as [H1 H2] end. split; [done|].
    rewrite H2, !andb_true_iff, (forallb_leb (fun x => 3 + dw x)), (forallb_leb dw), Z.leb_le. tauto.
  - split; [done|]. unfold down. rewrite clean_row, dw_app, dw_spaces, E9 by done. unfold W. split; [tauto|]. intros [? _]. split; [done|lia].
  - destruct (clean_rows 6 lines d Hr) as [H1 H2]; [lia|]. split; [done|]. by rewrite (forallb_leb (fun x => 6 + dw x)).
  - destruct (clean_rows 2 rows (ftop [] false (rail 9474 d))) as [H1 H2]; [by right|lia|]. split; [exact Hr|].
    unfold plain. rewrite clean_rail, clean_fbot, H2, clean_ftop, clean_rail, (forallb_leb (fun x => 2 + dw x)). tauto.
  - split; [by left|]. unfold core. by rewrite clean_ftop, clean_rail, orb_true_iff, bool_decide_eq_true, Z.leb_le.
  - split; [by right|]. unfold side. rewrite clean_ftop, clean_rail, dw_app, E10, Z.leb_le. split; [intros [? [H|H]]; [by apply app_eq_nil in H as [H _]|done]|tauto].
  - split; [done|]. unfold domain. rewrite clean_md, clean_next, aligned_forallb, !Forall_app, !Forall_cons.
    split; [tauto|]. intros [? ?]. split_and!; try done; by apply aligned_other; rails.
  - split; [done|]. unfold stack. rewrite clean_md, aligned_forallb, !Forall_app, !Forall_cons.
    split; [tauto|]. intros [? ?]. split_and!; try done; by apply aligned_other; rails.
Qed.

Lemma run_clean cs d : rail_ok d -> clean (fold_left exec cs d) <-> clean d /\ forallb fits cs = true.
Proof.
  revert d. induction cs as [|c cs IH]; intros d Hr; cbn [fold_left forallb]; [tauto|].
  destruct (exec_clean d c Hr) as [H1 H2]. rewrite IH, H2, andb_true_iff by done. tauto.
Qed.

Lemma check_clean d : BUF d = [] -> check d = Aligned (py_len (MD d)) <-> clean d.
Proof.
  intros Hb. unfold check, clean. rewrite Hb. case_bool_decide as Ho; [|split; [done|by intros [? _]]].
  assert (List.filter (fun p : nat * ustr => misaligned p.2) (zip (seq 1 (length (MD d))) (MD d)) = [] <-> Forall aligned (MD d)) as Hf.
  { generalize 1%nat as k. induction (MD d) as [|x l IH]; intros k; cbn; [split; [constructor|done]|]. rewrite Forall_cons. unfold aligned at 1.
    destruct (misaligned x); [split; [done|by intros [? _]]|]. rewrite IH. tauto. }
  destruct (List.filter _ _) as [|p l]; cbn.
  - split; [|done]. intros _. split; [done|]. split; [by apply Hf|constructor].
  - split; [done|]. intros (_ & H & _). by apply Hf in H.
Qed.

(** C40. The generator's check is exact.  Whatever the script's calls, when every
    drawing has been flushed into a code block, the check accepts the document
    iff every printed text fits its place: titles, lines and the annotations that
    are printed their columns, rows and captions the frame, and hand-drawn lines
    beginning with a border the full display width, a Hangul syllable counting
    two.  Annotations beyond one per line of the box are dropped by [step] and
    not measured ([extra_annotations_dropped]).  Each box line of an accepted
    document is 100 wide. *)
Theorem check_exact (cs : list call) : BUF (run cs) = [] ->
  ((exists n, check (run cs) = Aligned n) <-> forallb fits cs = true) /\
  (forallb fits cs = true -> check (run cs) = Aligned (py_len (MD (run cs))) /\
     forall ln c s, ln ∈ MD (run cs) -> ln = c :: s -> c ∈ RAILS -> dw ln = W).
Proof.
  intros Hb. assert (clean (run cs) <-> forallb fits cs = true) as Hc.
  { unfold run. rewrite run_clean by (by left). split; [tauto|]. intros ?. split; [|done]. split; [done|]. split; constructor. }
  assert (forallb fits cs = true -> check (run cs) = Aligned (py_len (MD (run cs)))) as Hok by (by intros ?%Hc; apply check_clean).
  split; [split|].
  - intros [n E]. apply Hc. apply check_clean; [done|]. unfold check in *. case_bool_decide; [|done]. by destruct (_ <$> _).
  - intros ?. eexists. by apply Hok.
  - intros Hf. split; [by apply Hok|]. intros ln c s Hln -> Hcr. apply Hc in Hf as (_ & Hmd & _). rewrite Forall_forall in Hmd.
    apply aligned_rail; [done|]. by apply Hmd.
Qed.

(** Annotations past the box's last text line are dropped without a word: with
    them or without them, the document and the check are the same. *)
Definition dropped (c : call) : list ustr := match c with Step _ lines ann _ => drop (length lines + 2) ann | _ => [] end.

Lemma step_lines_take lines anns anns' d : (forall i, (i < length lines)%nat -> anns !! i = anns' !! i) -> step_lines lines anns d = step_lines lines anns' d.
Proof.
  revert anns anns' d. induction lines as [|x lines IH]; intros anns anns' d Hi; [done|]. cbn [step_lines].
  pose proof (Hi 0%nat ltac:(cbn; lia)) as H0.
  assert (head anns = head anns') as -> by (by destruct anns, anns'). apply IH. intros i Hl.
  pose proof (Hi (S i) ltac:(cbn; lia)) as HS. by destruct anns, anns'.
Qed.

Theorem extra_annotations_dropped (title : ustr) (lines ann : list ustr) (last : bool) (d : doc) :
  exec d (Step title lines ann last) = exec d (Step title lines (take (length lines + 2) ann) last).
Proof.
  cbn [exec]. unfold step. set (pad1 := replicate (length lines + 4) []).
  assert (forall i, (i < length lines + 2)%nat -> (ann ++ pad1) !! i = (take (length lines + 2) ann ++ pad1) !! i) as Hi.
  { intros i Hl. destruct (decide (i < length ann)%nat) as [Hlt|Hge].
    - rewrite lookup_app_l by done. rewrite lookup_app_l by (rewrite length_take; lia). by rewrite lookup_take_lt.
    - rewrite lookup_app_r by lia. rewrite lookup_app_r by (rewrite length_take; lia). rewrite length_take. f_equal. lia. }
  rewrite (Hi 0%nat), (Hi 1%nat) by lia. destruct (fit _ ANN d) as [a0 d0].
  do 1 f_equal. apply step_lines_take. intros i Hl. rewrite !lookup_drop. apply Hi. lia.
Qed.

Definition demo_calls : list call :=
  [Core (utf8 "강아지"); Row []; Step (utf8 "① VERIFY") [utf8 "비밀번호 대조"] [[]; lit "bcrypt"; utf8 "이벤트루프"; utf8 "비차단"] true; Fbot true true; Bx CONN;
   Plain [utf8 "HANDLER"]; Dia; Md [utf8 "│"]].
Lemma check_exact_witness :
  BUF (run demo_calls) = [] /\ forallb fits (take 7 demo_calls) = true /\ (exists n, check (run (take 7 demo_calls)) = Aligned n) /\
  forallb fits demo_calls = false /\ ~ exists n, check (run demo_calls) = Aligned n.
Proof.
  assert (BUF (run demo_calls) = []) as Hb by (vm_compute; reflexivity).
  assert (BUF (run (take 7 demo_calls)) = []) as Hb' by (vm_compute; reflexivity).
  assert (forallb fits (take 7 demo_calls) = true) as Hf by (vm_compute; reflexivity).
  assert (forallb fits demo_calls = false) as Hn by (vm_compute; reflexivity).
  split; [exact Hb|]. split; [exact Hf|]. split; [apply (check_exact (take 7 demo_calls) Hb'), Hf|]. split; [exact Hn|].
  intros He. apply (check_exact demo_calls Hb) in He. rewrite Hn in He. discriminate.
Defined.
