(* ===== verification/Logging.v ===== *)
(** * Log lines ([app/common/logging_config.py])

    The two formatters, the filter that stamps the request id, and the setup of
    the root logger.  In production every record is one line of JSON whatever the
    logged texts contain; the console format gives no such guarantee. *)

From stdpp Require Import pretty.
From S2P Require Import Prelude Common Json.

(** ** Records *)

(** [_RESERVED] *)
Definition RESERVED : list ustr :=
  [lit "name"; lit "msg"; lit "args"; lit "levelname"; lit "levelno"; lit "pathname"; lit "filename";
   lit "module"; lit "exc_info"; lit "exc_text"; lit "stack_info"; lit "lineno"; lit "funcName";
   lit "created"; lit "msecs"; lit "relativeCreated"; lit "thread"; lit "threadName";
   lit "processName"; lit "process"; lit "taskName"; lit "message"; lit "asctime";
   lit "request_id"; lit "color_message"].

Section Logging.
(** Logged objects: what [json.dumps(..., default=str)] takes them for, and their
    [str()]; the local time as [_LOG_DATEFMT] prints it. *)
Context {obj : Type} (as_json : obj -> json) (py_str : obj -> ustr) (format_time : Z -> ustr).

(** [record.getMessage()], the formatted traceback and stack where there are any,
    and [record.__dict__]. *)
Record LogRecord := {
  lr_name : ustr; lr_levelname : ustr; lr_created : Z; lr_message : ustr;
  lr_exc_info : option ustr; lr_stack_info : option ustr; lr_request_id : option ustr;
  lr_dict : list (ustr * obj);
}.

Definition extract_extras (r : LogRecord) : list (ustr * obj) := List.filter (fun p => negb (bool_decide (p.1 ∈ RESERVED))) (lr_dict r).

(** [RequestIdFilter.filter]: the id of the context, whatever the caller set. *)
Definition filter_record (request_id_ctx : ustr) (r : LogRecord) : LogRecord :=
  {| lr_name := lr_name r; lr_levelname := lr_levelname r; lr_created := lr_created r; lr_message := lr_message r;
     lr_exc_info := lr_exc_info r; lr_stack_info := lr_stack_info r; lr_request_id := Some request_id_ctx; lr_dict := lr_dict r |}.

(** ** Formatters *)

Definition update (kvs : list (ustr * json)) (d : list (ustr * json)) : list (ustr * json) := fold_left (fun d p => dict_set p.1 p.2 d) kvs d.

(** [JsonFormatter.format] *)
Definition payload (r : LogRecord) : list (ustr * json) :=
  let base := [(lit "timestamp", JStr (format_time (lr_created r))); (lit "level", JStr (lr_levelname r)); (lit "logger", JStr (lr_name r));
               (lit "request_id", JStr (default [] (lr_request_id r))); (lit "message", JStr (lr_message r))] in
  let with_extras := update ((fun p => (p.1, as_json p.2)) <$> extract_extras r) base in
  match lr_exc_info r with
  | Some text => dict_set (lit "exc_info") (JStr text) with_extras
  | None => with_extras
  end.
Definition json_format (r : LogRecord) : ustr := dumps (JObj (payload r)).

(** [logging.Formatter.format] with [_LOG_FMT]; [None] is the error of a record
    without request id. *)
Definition on_new_line (s text : ustr) : ustr := s ++ (if bool_decide (last s = Some 10) then [] else [10]) ++ text.
Definition base_format (r : LogRecord) : option ustr :=
  rid ← lr_request_id r;
  let s := format_time (lr_created r) ++ lit " - [" ++ rid ++ lit "] - " ++ lr_levelname r ++ lit " - " ++ lr_name r ++ lit " - " ++ lr_message r in
  let s := match lr_exc_info r with Some (c :: text) => on_new_line s (c :: text) | _ => s end in
  Some (match lr_stack_info r with Some (c :: text) => on_new_line s (c :: text) | _ => s end).

(** [ConsoleFormatter.format] *)
Definition console_format (r : LogRecord) : option ustr :=
  base ← base_format r;
  Some (match extract_extras r with
        | [] => base
        | extras => base ++ [32] ++ sep_by [32] ((fun p => p.1 ++ [61] ++ py_str p.2) <$> extras)
        end).

Inductive formatter := JsonFormatter | ConsoleFormatter.
Definition build_formatter (environment : ustr) : formatter :=
  if bool_decide (environment ∈ [lit "production"; lit "prod"]) then JsonFormatter else ConsoleFormatter.
Definition format (f : formatter) (r : LogRecord) : option ustr :=
  match f with JsonFormatter => Some (json_format r) | ConsoleFormatter => console_format r end.

(** ** [setup_logging] *)

Inductive sink := Stderr | LogFile (path : ustr).
Record handler := { h_sink : sink; h_formatter : formatter; h_request_id_filter : bool }.
Record log_state := { ls_configured : bool; ls_level : Z; ls_handlers : list handler }.

(** [getattr(logging, name, logging.INFO)] for the normalised upper-case name: a
    level, or the one other such attribute, a text that [setLevel] refuses. *)
Definition level_of (name : ustr) : exn + Z :=
  if bool_decide (name ∈ [lit "CRITICAL"; lit "FATAL"]) then inr 50
  else if bool_decide (name = lit "ERROR") then inr 40
  else if bool_decide (name ∈ [lit "WARNING"; lit "WARN"]) then inr 30
  else if bool_decide (name = lit "DEBUG") then inr 10
  else if bool_decide (name = lit "NOTSET") then inr 0
  else if bool_decide (name = lit "BASIC_FORMAT") then inl PyValueError
  else inr 20.

(** [opens path] is whether the directory and the file can be made; an [OSError]
    leaves the console handler and the flag unset. *)
Inductive setup_outcome := SetUp | Refused (e : exn) | NoLogFile.
Definition setup_logging (log_level log_file environment : ustr) (opens : ustr -> bool) (st : log_state) : setup_outcome * log_state :=
  if ls_configured st then (SetUp, st)
  else
    match level_of log_level with
    | inl e => (Refused e, st)
    | inr level =>
        let f := build_formatter environment in
        let console := {| h_sink := Stderr; h_formatter := f; h_request_id_filter := true |} in
        match log_file with
        | [] => (SetUp, {| ls_configured := true; ls_level := level; ls_handlers := [console] |})
        | path =>
            if opens path
            then (SetUp, {| ls_configured := true; ls_level := level;
                             ls_handlers := [console; {| h_sink := LogFile path; h_formatter := f; h_request_id_filter := true |}] |})
            else (NoLogFile, {| ls_configured := false; ls_level := level; ls_handlers := [console] |})
        end
    end.

(** [Handler.handle]: the filter, the format, a line feed; a record that cannot be
    formatted writes nothing. *)
Definition emit (request_id_ctx : ustr) (h : handler) (r : LogRecord) : ustr :=
  match format (h_formatter h) (if h_request_id_filter h then filter_record request_id_ctx r else r) with
  | Some line => line ++ [10]
  | None => []
  end.
(** What a handler writes for records and the contexts they were logged in. *)
Definition written (h : handler) (rs : list (ustr * LogRecord)) : ustr := concat ((fun p => emit p.1 h p.2) <$> rs).

(** ** Lines *)

Definition printable (s : ustr) : Prop := Forall (fun c => 32 <= c) s.

(** [text.split(LF)] *)
Fixpoint split_nl (s : ustr) : list ustr :=
  match s with
  | [] => [[]]
  | c :: s' => if c =? 10 then [] :: split_nl s'
               else match split_nl s' with l :: ls => (c :: l) :: ls | [] => [[c]] end
  end.

Lemma split_nl_line l s : printable l -> split_nl (l ++ 10 :: s) = l :: split_nl s.
Proof.
  induction 1 as [|c l Hc _ IH]; cbn; [done|]. rewrite (proj2 (Z.eqb_neq c 10)) by lia. by rewrite IH.
Qed.

Lemma printable_app s t : printable (s ++ t) <-> printable s /\ printable t.
Proof. apply Forall_app. Qed.

Lemma pretty_N_go_printable x s : printable (lit s) -> printable (lit (pretty_N_go x s)).
Proof.
  revert s. induction (N.lt_wf_0 x) as [x _ IH]. intros s Hs. destruct (decide (x = 0)%N) as [->|Hx]; [by rewrite pretty_N_go_0|].
  rewrite pretty_N_go_step by lia. apply IH; [apply N.div_lt; lia|]. cbn [lit]. constructor; [|done].
  assert (x `mod` 10 < 10)%N as Hm by (by apply N.mod_lt). destruct (x `mod` 10)%N as [|[[[|[]|]|[|[]|]|]|[[|[]|]|[|[]|]|]|]]; vm_compute; try discriminate; lia.
Qed.
Lemma pretty_N_printable (n : N) : printable (lit (pretty n)).
Proof. unfold pretty, pretty_N. destruct (decide (n = 0)%N); [unfold printable; in_lit|]. apply pretty_N_go_printable. apply Forall_nil_2. Qed.
Lemma pretty_Z_printable (z : Z) : printable (lit (pretty z)).
Proof.
  destruct z as [|p|p]; [unfold printable; in_lit|apply (pretty_N_printable (N.pos p))|].
  change (lit (pretty (Z.neg p))) with (45 :: lit (pretty (N.pos p))). constructor; [lia|apply pretty_N_printable].
Qed.

(** Values whose texts are code points and whose numbers are written without
    control characters. *)
Fixpoint well_formed (v : json) : bool :=
  match v with
  | JNull | JBool _ | JInt _ => true
  | JFloat t => forallb (fun c => 32 <=? c) t
  | JStr s => is_text s
  | JArr l => forallb well_formed l
  | JObj kvs => forallb (fun p => is_text p.1 && well_formed p.2) kvs
  end.

Lemma escape_printable c : 0 <= c -> printable (escape_char c).
Proof.
  intros Hc. unfold escape_char, hex1. pose proof (Z.div_pos c 16). pose proof (Z.mod_pos_bound c 16).
  repeat case_match; repeat constructor; rewrite ?Z.eqb_neq, ?Z.ltb_lt, ?Z.ltb_ge in *; lia.
Qed.
Lemma dump_str_printable s : is_text s = true -> printable (dump_str s).
Proof.
  intros Ht. unfold dump_str. constructor; [lia|]. apply printable_app. split; [|unfold printable; in_lit].
  induction s as [|c s IH]; cbn in *; [constructor|]. apply andb_true_iff in Ht as [Hc Ht]. apply Z.leb_le in Hc.
  apply printable_app. split; [by apply escape_printable|by apply IH].
Qed.
Lemma sep_printable sep l : printable sep -> Forall printable l -> printable (sep_by sep l).
Proof.
  intros Hs. destruct 1 as [|x l Hx Hl]; cbn; [constructor|]. apply printable_app. split; [done|].
  induction Hl as [|y l Hy _ IH]; cbn; [constructor|]. by rewrite !printable_app.
Qed.
Lemma comma_printable : printable (lit ", ") /\ printable (lit ": ").
Proof. unfold printable. split; in_lit. Qed.

Lemma plain_well_formed v : plain v = true -> well_formed v = true.
Proof.
  induction v as [|b|z|t|s|l IH|kvs IH] using json_nested_ind; cbn [plain well_formed]; try done.
  - rewrite !forallb_forall, Forall_forall in *. intros Hl v Hv. apply IH; [by apply list_elem_of_In|by apply Hl].
  - rewrite andb_true_iff, !forallb_forall, Forall_forall in *. intros [_ Hl] p Hp. specialize (Hl p Hp).
    apply andb_true_iff in Hl as [-> Hl]. apply IH; [by apply list_elem_of_In|done].
Qed.

(** JSON text has no control character, whatever it says. *)
Lemma dumps_printable v : well_formed v = true -> printable (dumps v).
Proof.
  destruct comma_printable as [Hcomma Hcolon].
  induction v as [|b|z|t|s|l IH|kvs IH] using json_nested_ind; cbn [well_formed dumps]; intros Hw.
  - unfold printable. in_lit.
  - unfold printable. destruct b; in_lit.
  - apply pretty_Z_printable.
  - apply Forall_forall. intros c Hc%list_elem_of_In. rewrite forallb_forall in Hw. by apply Z.leb_le, Hw.
  - by apply dump_str_printable.
  - constructor; [lia|]. apply printable_app. split; [|unfold printable; in_lit]. apply sep_printable; [done|].
    rewrite forallb_forall in Hw. apply Forall_map, Forall_forall. intros v Hv. rewrite Forall_forall in IH. apply IH; [done|].
    by apply Hw, list_elem_of_In.
  - constructor; [lia|]. apply printable_app. split; [|unfold printable; in_lit]. apply sep_printable; [done|].
    rewrite forallb_forall in Hw. apply Forall_map, Forall_forall. intros [k v] Hv. rewrite Forall_forall in IH.
    destruct (proj1 (andb_true_iff _ _) (Hw (k, v) (proj1 (list_elem_of_In _ _) Hv))) as [Hk Hv']. cbn in *.
    change (printable (dump_str k ++ lit ": " ++ dumps v)). rewrite !printable_app. split_and!; [by apply dump_str_printable|done|by apply (IH (k, v))].
Qed.

(** ** The payload *)

Lemma dict_set_members (P : ustr * json -> bool) k v d : P (k, v) = true -> forallb P d = true -> forallb P (dict_set k v d) = true.
Proof.
  intros Hk. induction d as [|[j w] d IH]; cbn; [by rewrite Hk|]. intros [Hj Hd]%andb_true_iff.
  destruct (decide (k = j)); cbn; rewrite ?Hk, ?Hj; [done|by apply IH].
Qed.
Lemma dict_set_key_of (k : ustr) (v : json) d j : j ∈ (dict_set k v d).*1 -> j = k \/ j ∈ d.*1.
Proof.
  induction d as [|[i w] d IH]; cbn; intros Hj; [left; set_solver|]. destruct (decide (k = i)); cbn in Hj; [set_solver|].
  apply elem_of_cons in Hj as [->|Hj]; [right; left|]. destruct (IH Hj); [by left|right; by right].
Qed.

Lemma dict_set_nodup (k : ustr) (v : json) d : NoDup d.*1 -> NoDup (dict_set k v d).*1.
Proof.
  induction d as [|[i w] d IH]; cbn; [intros _; apply NoDup_singleton|]. intros [Hi Hd]%NoDup_cons.
  destruct (decide (k = i)) as [->|Hne]; cbn in *; [by apply NoDup_cons|].
  apply NoDup_cons. split; [|by apply IH]. by intros [->|?]%dict_set_key_of.
Qed.
Lemma update_keys kvs d : NoDup d.*1 -> NoDup (update kvs d).*1.
Proof. revert d. induction kvs as [|[k v] kvs IH]; intros d Hd; cbn; [done|]. by apply IH, dict_set_nodup. Qed.
Lemma update_members (P : ustr * json -> bool) kvs d : forallb P kvs = true -> forallb P d = true -> forallb P (update kvs d) = true.
Proof.
  revert d. induction kvs as [|[k v] kvs IH]; intros d; cbn; [done|]. intros [Hk Hkvs]%andb_true_iff Hd. apply IH; [done|].
  by apply dict_set_members.
Qed.
Lemma update_other k kvs d : k ∉ kvs.*1 -> dict_get k (update kvs d) = dict_get k d.
Proof.
  revert d. induction kvs as [|[j v] kvs IH]; intros d; cbn; [done|]. intros [Hk Hkvs]%not_elem_of_cons. rewrite IH by done.
  rewrite dict_get_set. by rewrite decide_False.
Qed.

(** The texts of a record are code points, its extras satisfy [ok]. *)
Definition record_ok (ok : json -> bool) (r : LogRecord) : Prop :=
  is_text (format_time (lr_created r)) = true /\ is_text (lr_levelname r) = true /\ is_text (lr_name r) = true /\
  is_text (lr_message r) = true /\ is_text (default [] (lr_request_id r)) = true /\ is_text (default [] (lr_exc_info r)) = true /\
  Forall (fun p => is_text p.1 = true /\ ok (as_json p.2) = true) (extract_extras r).

Lemma payload_members (ok : json -> bool) r : (forall s, is_text s = true -> ok (JStr s) = true) -> record_ok ok r ->
  forallb (fun p => is_text p.1 && ok p.2) (payload r) = true.
Proof.
  intros Hs (H1 & H2 & H3 & H4 & H5 & H6 & H7). unfold payload.
  assert (forallb (fun p => is_text p.1 && ok p.2) (update ((fun p => (p.1, as_json p.2)) <$> extract_extras r)
    [(lit "timestamp", JStr (format_time (lr_created r))); (lit "level", JStr (lr_levelname r)); (lit "logger", JStr (lr_name r));
     (lit "request_id", JStr (default [] (lr_request_id r))); (lit "message", JStr (lr_message r))]) = true) as Hu.
  { apply update_members; [|cbn [forallb fst snd]; by rewrite !Hs]. apply forallb_forall. intros [k v] ([k' o] & [= -> ->] & Ho)%list_elem_of_In%list_elem_of_fmap.
    rewrite Forall_forall in H7. destruct (H7 (k', o) Ho) as [Ha Hb]. cbn in *. by rewrite Ha, Hb. }
  destruct (lr_exc_info r) as [t|]; [|done]. apply dict_set_members; [|done]. cbn [fst snd]. by rewrite (Hs t).
Qed.

Lemma payload_keys r : NoDup (payload r).*1.
Proof.
  unfold payload. match goal with |- context [update ?x ?d] => assert (NoDup (update x d).*1) as Hu end.
  { apply update_keys. apply (bool_decide_unpack _). vm_compute. exact I. }
  destruct (lr_exc_info r); [by apply dict_set_nodup|done].
Qed.

(** Reserved names are never an extra's. *)
Lemma extras_reserved r k base : k ∈ RESERVED -> dict_get k (update ((fun p => (p.1, as_json p.2)) <$> extract_extras r) base) = dict_get k base.
Proof.
  intros Hk. apply update_other. intros ([k' v] & -> & ([k2 o] & [= -> ->] & Ho)%list_elem_of_fmap)%list_elem_of_fmap.
  unfold extract_extras in Ho. apply list_elem_of_In, filter_In in Ho as [_ Ho]. cbn in *. by rewrite bool_decide_eq_true_2 in Ho.
Qed.

Lemma payload_fields r :
  dict_get (lit "request_id") (payload r) = Some (JStr (default [] (lr_request_id r))) /\
  dict_get (lit "message") (payload r) = Some (JStr (lr_message r)) /\
  dict_get (lit "exc_info") (payload r) = JStr <$> lr_exc_info r.
Proof.
  assert (lit "request_id" ∈ RESERVED /\ lit "message" ∈ RESERVED /\ lit "exc_info" ∈ RESERVED) as (R1 & R2 & R3) by (split_and!; in_lit).
  unfold payload. destruct (lr_exc_info r) as [t|].
  - rewrite !dict_get_set, !extras_reserved by done. split_and!; reflexivity.
  - rewrite !extras_reserved by done. split_and!; reflexivity.
Qed.

Lemma stamped_ok ok ctx r : is_text ctx = true -> record_ok ok r -> record_ok ok (filter_record ctx r).
Proof. intros Hc (H1 & H2 & H3 & H4 & _ & H6 & H7). by split_and!. Qed.

(** A line of JSON has no line feed and reads back as the record. *)
Lemma json_line_printable ctx r : is_text ctx = true -> record_ok well_formed r -> printable (json_format (filter_record ctx r)).
Proof. intros Hc Hr. apply dumps_printable. apply (payload_members well_formed); [done|by apply stamped_ok]. Qed.

Lemma json_line_reads ctx r : is_text ctx = true -> record_ok plain r ->
  exists kvs, loads (json_format (filter_record ctx r)) = Some (JObj kvs) /\
    dict_get (lit "request_id") kvs = Some (JStr ctx) /\ dict_get (lit "message") kvs = Some (JStr (lr_message r)) /\
    dict_get (lit "exc_info") kvs = JStr <$> lr_exc_info r.
Proof.
  intros Hc Hp. exists (payload (filter_record ctx r)). split; [|exact (payload_fields (filter_record ctx r))].
  apply loads_dumps. cbn [plain]. rewrite bool_decide_eq_true_2 by apply payload_keys.
  apply (payload_members plain); [done|by apply stamped_ok].
Qed.

(** ** Properties *)

(** C36. Production log lines cannot be forged.  A handler set up for production
    writes, for any records, exactly one line for each and in order - no message,
    traceback or extra can start a line of its own - and a reader of the line gets
    the record back: the id of the request it was logged in, the message and the
    traceback, none of which an extra of the same name can replace. *)
Theorem json_lines_faithful (h : handler) (rs : list (ustr * LogRecord)) :
  h_formatter h = JsonFormatter -> h_request_id_filter h = true ->
  Forall (fun p => is_text p.1 = true /\ record_ok well_formed p.2) rs ->
  split_nl (written h rs) = ((fun p => json_format (filter_record p.1 p.2)) <$> rs) ++ [[]] /\
  forall ctx r, (ctx, r) ∈ rs -> record_ok plain r ->
    exists kvs, loads (json_format (filter_record ctx r)) = Some (JObj kvs) /\
      dict_get (lit "request_id") kvs = Some (JStr ctx) /\ dict_get (lit "message") kvs = Some (JStr (lr_message r)) /\
      dict_get (lit "exc_info") kvs = JStr <$> lr_exc_info r.
Proof.
  intros Hf Hi Hrs. split.
  - induction Hrs as [|[ctx r] rs [Hc Hr] _ IH]; [done|]. unfold written in *. cbn [fmap list_fmap concat fst snd]. unfold emit at 1. rewrite Hf, Hi.
    cbn [format]. rewrite <-app_assoc. change ([10] ++ ?x) with (10 :: x). rewrite split_nl_line; [by rewrite IH|]. by apply json_line_printable.
  - intros ctx r Hin Hp. rewrite Forall_forall in Hrs. destruct (Hrs (ctx, r) Hin) as [Hc _]. by apply json_line_reads.
Qed.

(** The formatter follows the environment, set up once: every handler writes JSON
    in production, stamped with the request id. *)
Lemma setup_spec log_level log_file environment opens st :
  match setup_logging log_level log_file environment opens st with
  | (SetUp, st') => ls_configured st' = true /\ setup_logging log_level log_file environment opens st' = (SetUp, st') /\
      (ls_configured st = false -> Forall (fun h => h_formatter h = build_formatter environment /\ h_request_id_filter h = true) (ls_handlers st') /\
         h_sink <$> ls_handlers st' = Stderr :: (if bool_decide (log_file = []) then [] else [LogFile log_file]))
  | (_, st') => ls_configured st' = false
  end.
Proof.
  unfold setup_logging. destruct (ls_configured st) eqn:Ec; [rewrite Ec; by split_and!|]. destruct (level_of log_level) as [e|level]; [done|].
  destruct log_file as [|c path]; [split_and!; [done..|]; intros _; split; [|done]; by repeat constructor|].
  destruct (opens _); [|done]. split_and!; [done..|]. intros _. split; [|done]. by repeat constructor.
Qed.
End Logging.

(** ** Examples *)

Definition demo_record (message : ustr) (extra : list (ustr * ustr)) : LogRecord :=
  {| lr_name := lit "app"; lr_levelname := lit "INFO"; lr_created := 0; lr_message := message; lr_exc_info := None; lr_stack_info := None;
     lr_request_id := None; lr_dict := [(lit "name", lit "app"); (lit "msg", message)] ++ extra |}.
Definition demo_time (_ : Z) : ustr := lit "2026-01-01 00:00:00".
Definition demo_json_handler : handler := {| h_sink := Stderr; h_formatter := build_formatter (lit "prod"); h_request_id_filter := true |}.
Definition demo_console_handler : handler := {| h_sink := Stderr; h_formatter := build_formatter (lit "development"); h_request_id_filter := true |}.

Definition demo_injected : ustr := lit "login" ++ [10] ++ lit "2026-01-01 00:00:00 - [01J] - INFO - app - admin granted".
Lemma json_lines_faithful_witness :
  let rs := [(lit "01A", demo_record demo_injected [(lit "request_id", lit "forged"); (lit "user", lit "u")])] in
  length (split_nl (written JStr id demo_time demo_json_handler rs)) = 2%nat /\
  exists kvs, loads (json_format JStr demo_time (filter_record (lit "01A") (demo_record demo_injected [(lit "request_id", lit "forged"); (lit "user", lit "u")]))) = Some (JObj kvs) /\
    dict_get (lit "request_id") kvs = Some (JStr (lit "01A")) /\ dict_get (lit "message") kvs = Some (JStr demo_injected).
Proof.
  intros rs.
  assert (forall ok, (forall s, is_text s = true -> ok (JStr s) = true) -> record_ok JStr demo_time ok (demo_record demo_injected [(lit "request_id", lit "forged"); (lit "user", lit "u")])) as Hok.
  { intros ok Hs. unfold record_ok. split_and!; try (vm_compute; reflexivity). repeat (apply Forall_cons; split; [split; [vm_compute; reflexivity|apply Hs; vm_compute; reflexivity]|]).
    apply Forall_nil_2. }
  destruct (json_lines_faithful JStr id demo_time demo_json_handler rs) as [Hl Hr]; [vm_compute; reflexivity|reflexivity| |].
  - apply Forall_cons. split; [split; [vm_compute; reflexivity|apply Hok; intros s Hs; exact Hs]|apply Forall_nil_2].
  - split; [rewrite Hl; reflexivity|]. destruct (Hr (lit "01A") (demo_record demo_injected [(lit "request_id", lit "forged"); (lit "user", lit "u")])) as (kvs & E & H1 & H2 & _).
    + left.
    + apply Hok. intros s Hs. exact Hs.
    + exists kvs. split; [exact E|]. split; [exact H1|exact H2].
Defined.

(** The console format lets a message write a whole line of another record. *)
Lemma console_line_forged :
  split_nl (written JStr id demo_time demo_console_handler [(lit "01A", demo_record demo_injected [])]) !! 1%nat =
  split_nl (written JStr id demo_time demo_console_handler [(lit "01J", demo_record (lit "admin granted") [])]) !! 0%nat.
Proof. vm_compute. reflexivity. Qed.
