(* ===== verification/ErrorLog.v ===== *)
(** * Errors in the log and on the socket ([core/exception_handlers.py], [chat/router.py], [chat/payload.py])

    What a handled error leaves in the log beside its masked answer, through the
    formatters of [Logging], and the text of the WebSocket's error frames. *)

From stdpp Require Import pretty.
From S2P Require Import Prelude Ids Common Redis RateLimit Db Proxy Json ChatSocket Responses Middleware Logging.

(** ** Error events *)

(** A caught exception: what the handlers see of it, [type(exc).__name__],
    [str(exc)], the formatted traceback, and whether it is an [OperationalError]. *)
Record caught := { ct_raised : raised; ct_type : ustr; ct_str : ustr; ct_traceback : ustr; ct_operational : bool }.

Definition EXC_MSG_MAX : nat := 2000.

(** The dictionary [_log_error_structured] writes, its keyword fields included. *)
Definition event_payload (rq : request) (event : ustr) (exc : option caught) (fields : list (ustr * json)) : list (ustr * json) :=
  let payload := update fields
    [(lit "event", JStr event); (lit "request_id", JStr (get_request_id (rq_id rq)));
     (lit "path", JStr (sc_path (rq_scope rq))); (lit "method", JStr (sc_method (rq_scope rq)))] in
  match exc with
  | Some e => dict_set (lit "exc_msg") (JStr (take EXC_MSG_MAX (ct_str e))) (dict_set (lit "exc_type") (JStr (ct_type e)) payload)
  | None => payload
  end.

(** The attributes [logging] gives a record without [extra]. *)
Definition STANDARD_ATTRS : list ustr :=
  [lit "name"; lit "msg"; lit "args"; lit "levelname"; lit "levelno"; lit "pathname"; lit "filename"; lit "module"; lit "exc_info";
   lit "exc_text"; lit "stack_info"; lit "lineno"; lit "funcName"; lit "created"; lit "msecs"; lit "relativeCreated"; lit "thread";
   lit "threadName"; lit "processName"; lit "process"; lit "taskName"].

Definition LOGGER_NAME : ustr := lit "app.core.exception_handlers".

Section ErrorLog.
Context `{UnicodeDB} {obj : Type} (as_json : obj -> json) (py_str : obj -> ustr) (format_time : Z -> ustr) (attrs : ustr -> obj).

(** [_log_error_structured]: the record's level number and the record; with an
    exception it is [logger.exception], called while the exception is handled. *)
Definition log_error_structured (now : Z) (rq : request) (event : ustr) (exc : option caught) (level : Z * ustr) (fields : list (ustr * json)) : Z * LogRecord :=
  let '(levelno, levelname) := match exc with Some _ => (40, lit "ERROR") | None => level end in
  (levelno, {| lr_name := LOGGER_NAME; lr_levelname := levelname; lr_created := now;
     lr_message := dumps (JObj (event_payload rq event exc fields));
     lr_exc_info := ct_traceback <$> exc; lr_stack_info := None; lr_request_id := None;
     lr_dict := (fun k => (k, attrs k)) <$> STANDARD_ATTRS |}).

(** What the handler of each class logs, before it answers. *)
Definition handler_log (now : Z) (rq : request) (e : caught) : option (Z * LogRecord) :=
  let log := log_error_structured now rq in
  let error := (40, lit "ERROR") in
  match ct_raised e with
  | RValidation _ | RHttp _ _ _ => None
  | RIntegrity sqlstate constraint =>
      let constraint := (lit "constraint", JStr (lower (default [] constraint))) in
      if bool_decide (sqlstate = Some (lit "23505")) then Some (log (lit "db_integrity_duplicate") None (30, lit "WARNING") [constraint])
      else if bool_decide (sqlstate = Some (lit "23503")) then Some (log (lit "db_integrity_fk") (Some e) error [constraint])
      else Some (log (lit "db_integrity_other") (Some e) error [(lit "sqlstate", from_option JStr JNull sqlstate)])
  | RDatabase => Some (log (if ct_operational e then lit "db_operational_error" else lit "db_database_error") (Some e) error [])
  | RProject cls _ _ _ =>
      match project_class cls with
      | Some (status_code, _) => if 500 <=? status_code then Some (log (lit "project_exception_5xx") (Some e) error []) else None
      | None => Some (log (lit "unhandled_exception") (Some e) error [])
      end
  | ROther => Some (log (lit "unhandled_exception") (Some e) error [])
  end.

(** One handled error: the context variable the handler runs in, the time, the
    request and the exception.  The handler of [Exception] runs outside the
    middleware, where the context variable is no longer the request's. *)
Record handled := { hd_ctx : ustr; hd_now : Z; hd_request : request; hd_exc : caught }.

Definition answer (x : handled) : http_response := handle_raised (rq_id (hd_request x)) (ct_raised (hd_exc x)).

(** What reaches a handler of the root logger, whose level applies. *)
Definition logged_records (st : log_state) (xs : list handled) : list (ustr * LogRecord) :=
  flat_map (fun x => match handler_log (hd_now x) (hd_request x) (hd_exc x) with
                     | Some (levelno, r) => if ls_level st <=? levelno then [(hd_ctx x, r)] else []
                     | None => []
                     end) xs.
Definition error_log (st : log_state) (h : handler) (xs : list handled) : ustr := written as_json py_str format_time h (logged_records st xs).

(** ** Well-formed events *)

Definition texts_ok (x : handled) : Prop :=
  is_text (hd_ctx x) = true /\ is_text (format_time (hd_now x)) = true /\
  is_text (get_request_id (rq_id (hd_request x))) = true /\ is_text (sc_path (rq_scope (hd_request x))) = true /\
  is_text (sc_method (rq_scope (hd_request x))) = true /\
  is_text (ct_type (hd_exc x)) = true /\ is_text (ct_str (hd_exc x)) = true /\ is_text (ct_traceback (hd_exc x)) = true /\
  match ct_raised (hd_exc x) with
  | RIntegrity sqlstate constraint => is_text (default [] sqlstate) = true /\ is_text (lower (default [] constraint)) = true
  | _ => True
  end.

Definition field_ok (p : ustr * json) : Prop :=
  is_text p.1 = true /\ plain p.2 = true /\ p.1 ∉ [lit "event"; lit "request_id"; lit "path"; lit "method"].

Lemma event_payload_plain rq event exc fields :
  is_text event = true -> is_text (get_request_id (rq_id rq)) = true -> is_text (sc_path (rq_scope rq)) = true ->
  is_text (sc_method (rq_scope rq)) = true -> (forall e, exc = Some e -> is_text (ct_type e) = true /\ is_text (ct_str e) = true) ->
  Forall field_ok fields -> plain (JObj (event_payload rq event exc fields)) = true.
Proof.
  intros He Hi Hp Hm Hx Hf. cbn [plain]. apply andb_true_iff. split.
  - apply bool_decide_eq_true. unfold event_payload. match goal with |- context [update ?a ?b] => assert (NoDup (update a b).*1) as Hu end.
    { apply update_keys. apply (bool_decide_unpack _). vm_compute. exact I. }
    destruct exc; [by do 2 apply dict_set_nodup|done].
  - unfold event_payload. match goal with |- context [update ?a ?b] => assert (forallb (fun p => is_text p.1 && plain p.2) (update a b) = true) as Hu end.
    { apply update_members; [|cbn [forallb fst snd plain]; by rewrite He, Hi, Hp, Hm].
      apply forallb_forall. intros p Hin%list_elem_of_In. rewrite Forall_forall in Hf. destruct (Hf p Hin) as (-> & -> & _). done. }
    destruct exc as [e|]; [|done]. destruct (Hx e eq_refl) as [H1 H2]. apply dict_set_members; [|apply dict_set_members; [|done]]; cbn [fst snd plain].
    + change (is_text (take EXC_MSG_MAX (ct_str e)) = true). unfold is_text in *. rewrite forallb_forall in *. intros c Hc%list_elem_of_In.
      apply H2, list_elem_of_In. by eapply subseteq_take.
    + done.
Qed.

Lemma event_payload_fields rq event exc fields : Forall field_ok fields ->
  dict_get (lit "request_id") (event_payload rq event exc fields) = Some (JStr (get_request_id (rq_id rq))) /\
  dict_get (lit "path") (event_payload rq event exc fields) = Some (JStr (sc_path (rq_scope rq))) /\
  dict_get (lit "method") (event_payload rq event exc fields) = Some (JStr (sc_method (rq_scope rq))) /\
  (forall e, exc = Some e -> dict_get (lit "exc_type") (event_payload rq event exc fields) = Some (JStr (ct_type e)) /\
     dict_get (lit "exc_msg") (event_payload rq event exc fields) = Some (JStr (take EXC_MSG_MAX (ct_str e)))).
Proof.
  intros Hf. assert (forall k base, k ∈ [lit "event"; lit "request_id"; lit "path"; lit "method"] -> dict_get k (update fields base) = dict_get k base) as Hg.
  { intros k base Hk. apply update_other. intros ([k' v] & -> & Hin)%list_elem_of_fmap. rewrite Forall_forall in Hf. by destruct (Hf _ Hin) as (_ & _ & []). }
  assert (lit "request_id" ∈ [lit "event"; lit "request_id"; lit "path"; lit "method"] /\ lit "path" ∈ [lit "event"; lit "request_id"; lit "path"; lit "method"] /\
    lit "method" ∈ [lit "event"; lit "request_id"; lit "path"; lit "method"]) as (K1 & K2 & K3) by (split_and!; in_lit).
  unfold event_payload. split_and!; [..|by intros e ->; rewrite !dict_get_set; split_and!; [reflexivity..]];
    destruct exc as [e|]; rewrite ?dict_get_set, ?Hg by done; reflexivity.
Qed.

Definition duplicate (r : raised) : Prop := exists constraint, r = RIntegrity (Some (lit "23505")) constraint.

(** What is logged for an exception: its event, and the exception with its
    traceback unless it is a duplicate. *)
Lemma handler_log_shape x p : texts_ok x -> handler_log (hd_now x) (hd_request x) (hd_exc x) = Some p ->
  exists event exc level fields, p = log_error_structured (hd_now x) (hd_request x) event exc level fields /\
    is_text event = true /\ Forall field_ok fields /\ is_text level.2 = true /\
    (exc = Some (hd_exc x) \/ exc = None /\ duplicate (ct_raised (hd_exc x))).
Proof.
  intros (_ & _ & _ & _ & _ & _ & _ & _ & Hraised). unfold handler_log.
  assert (forall k s, k ∉ [lit "event"; lit "request_id"; lit "path"; lit "method"] -> is_text k = true -> is_text s = true -> Forall field_ok [(k, JStr s)]) as Hone.
  { intros k s Hk Hkt Hs. apply Forall_singleton. by split_and!. }
  assert (lit "constraint" ∉ [lit "event"; lit "request_id"; lit "path"; lit "method"]) as Kc by in_lit.
  assert (lit "sqlstate" ∉ [lit "event"; lit "request_id"; lit "path"; lit "method"]) as Ks by in_lit.
  destruct (ct_raised (hd_exc x)) as [cls m data hs|es|st dt hs|sqlstate constraint| |]; [..|].
  - destruct (project_class cls) as [[st code]|]; [destruct (500 <=? st); [|done]|]; intros Hp%(inj Some); subst p;
      (eexists _, (Some _), (40, lit "ERROR"), []; split_and!; [reflexivity|vm_compute; reflexivity|constructor|vm_compute; reflexivity|by left]).
  - done.
  - done.
  - destruct Hraised as [Hs Hc]. case_bool_decide as E1; [|case_bool_decide as E2]; intros Hp%(inj Some); subst p.
    + eexists _, None, (30, lit "WARNING"), _. split_and!; [reflexivity|vm_compute; reflexivity|by apply Hone|vm_compute; reflexivity|].
      right. split; [done|]. exists constraint. by rewrite E1.
    + eexists _, (Some _), (40, lit "ERROR"), _. split_and!; [reflexivity|vm_compute; reflexivity|by apply Hone|vm_compute; reflexivity|by left].
    + eexists _, (Some _), (40, lit "ERROR"), _. split_and!; [reflexivity|vm_compute; reflexivity| |vm_compute; reflexivity|by left].
      destruct sqlstate as [c|]; cbn [from_option]; [by apply Hone|]. apply Forall_singleton. by split_and!.
  - intros Hp%(inj Some); subst p. eexists _, (Some _), (40, lit "ERROR"), []. split_and!; [reflexivity|by destruct (ct_operational _); vm_compute|constructor|vm_compute; reflexivity|by left].
  - intros Hp%(inj Some); subst p. eexists _, (Some _), (40, lit "ERROR"), []. split_and!; [reflexivity|vm_compute; reflexivity|constructor|vm_compute; reflexivity|by left].
Qed.

(** ** The answer and its line *)

Definition masked_body (code : ustr) (x : handled) : json := error_body code MASKED_500_MESSAGE JNull (get_request_id (rq_id (hd_request x))).

(** A line of the log explains an answered error: its event has the answer's
    request id, the request, and the exception the answer does not show. *)
Definition explains (x : handled) (line : ustr) : Prop :=
  exists kvs m ev, loads line = Some (JObj kvs) /\ dict_get (lit "message") kvs = Some (JStr m) /\ loads m = Some (JObj ev) /\
    dict_get (lit "request_id") ev = json_get (lit "requestId") (rs_body (answer x)) /\
    dict_get (lit "path") ev = Some (JStr (sc_path (rq_scope (hd_request x)))) /\
    dict_get (lit "method") ev = Some (JStr (sc_method (rq_scope (hd_request x)))) /\
    (~ duplicate (ct_raised (hd_exc x)) ->
       dict_get (lit "exc_type") ev = Some (JStr (ct_type (hd_exc x))) /\
       dict_get (lit "exc_msg") ev = Some (JStr (take EXC_MSG_MAX (ct_str (hd_exc x)))) /\
       dict_get (lit "exc_info") kvs = Some (JStr (ct_traceback (hd_exc x)))).

Lemma answer_request_id x : json_get (lit "requestId") (rs_body (answer x)) = Some (JStr (get_request_id (rq_id (hd_request x)))).
Proof.
  unfold answer, handle_raised. destruct (ct_raised (hd_exc x)) as [cls m data hs|es|st dt hs|ss c| |]; try reflexivity.
  - destruct (project_class cls) as [[st code]|]; [|reflexivity]. by destruct (500 <=? st).
  - by destruct (pick_validation_error [] es).
  - by repeat case_bool_decide.
Qed.

Lemma standard_extras r : lr_dict r = (fun k => (k, attrs k)) <$> STANDARD_ATTRS -> extract_extras r = [].
Proof.
  unfold extract_extras. intros ->.
  assert (Forall (fun k => k ∈ RESERVED) STANDARD_ATTRS) as Ha by in_lit.
  induction Ha as [|k l Hk _ IH]; [done|]. cbn [fmap list_fmap List.filter fst]. by rewrite bool_decide_eq_true_2.
Qed.

Lemma handled_record_ok x levelno r (ok : json -> bool) : texts_ok x -> handler_log (hd_now x) (hd_request x) (hd_exc x) = Some (levelno, r) ->
  is_text (lr_message r) = true -> record_ok as_json format_time ok r.
Proof.
  intros Ht E Hm. destruct (handler_log_shape x (levelno, r) Ht E) as (event & exc & level & fields & Er & Hev & Hf & Hl & Hexc).
  destruct Ht as (_ & Hnow & _ & _ & _ & _ & _ & Htb & _).
  unfold record_ok. rewrite (standard_extras r); unfold log_error_structured in Er; destruct exc as [e|]; destruct level as [n l]; injection Er as -> ->; cbn in *;
    try done; split_and!; try done; try (vm_compute; reflexivity); try apply Forall_nil_2.
  by destruct Hexc as [[= ->]|[? _]].
Qed.

Lemma handler_log_explains x levelno r : texts_ok x -> handler_log (hd_now x) (hd_request x) (hd_exc x) = Some (levelno, r) ->
  printable (json_format as_json format_time (filter_record (hd_ctx x) r)) /\ explains x (json_format as_json format_time (filter_record (hd_ctx x) r)).
Proof.
  intros Ht E. destruct (handler_log_shape x (levelno, r) Ht E) as (event & exc & level & fields & Er & Hev & Hf & Hl & Hexc).
  pose proof Ht as (Hctx & Hnow & Hid & Hpath & Hmethod & Hty & Hstr & Htb & _).
  assert (plain (JObj (event_payload (hd_request x) event exc fields)) = true) as Hplain.
  { apply event_payload_plain; try done. intros e ->. by destruct Hexc as [[= ->]|[? _]]. }
  assert (lr_message r = dumps (JObj (event_payload (hd_request x) event exc fields)) /\ lr_exc_info r = ct_traceback <$> exc) as [Hm Hi].
  { unfold log_error_structured in Er. destruct exc, level; apply (f_equal snd) in Er; cbn [snd] in Er; by subst r. }
  assert (is_text (lr_message r) = true) as Hmt.
  { rewrite Hm. assert (printable (dumps (JObj (event_payload (hd_request x) event exc fields)))) as Hpr by (apply dumps_printable, plain_well_formed, Hplain).
    apply forallb_forall. intros c Hc%list_elem_of_In. unfold printable in Hpr. rewrite Forall_forall in Hpr. apply Z.leb_le. specialize (Hpr c Hc). lia. }
  assert (forall ok, record_ok as_json format_time ok r) as Hok by (intros ok; by eapply handled_record_ok).
  split; [by apply json_line_printable|].
  destruct (json_line_reads as_json format_time (hd_ctx x) r) as (kvs & Hread & _ & Hmsg & Hinfo); [done|done|].
  destruct (event_payload_fields (hd_request x) event exc fields Hf) as (F1 & F2 & F3 & F4).
  exists kvs, (lr_message r), (event_payload (hd_request x) event exc fields). split_and!; try done.
  - rewrite Hm. by apply loads_dumps.
  - by rewrite answer_request_id.
  - intros Hd. destruct Hexc as [->|[_ ?]]; [|done]. destruct (F4 _ eq_refl) as [G1 G2]. split_and!; try done. by rewrite Hinfo, Hi.
Qed.

(** Whether the handler logs, at a level the root logger lets through. *)
Definition recorded (st : log_state) (x : handled) : bool :=
  match handler_log (hd_now x) (hd_request x) (hd_exc x) with Some (levelno, _) => ls_level st <=? levelno | None => false end.

Lemma error_log_lines st h xs : h_formatter h = JsonFormatter -> h_request_id_filter h = true -> Forall texts_ok xs ->
  exists lines, split_nl (error_log st h xs) = lines ++ [[]] /\ Forall2 explains (List.filter (recorded st) xs) lines.
Proof.
  intros Hf Hi. induction 1 as [|x xs Hx _ (lines & IHs & IHl)]; [by exists []|].
  unfold error_log, logged_records, written in *. cbn [flat_map List.filter]. unfold recorded at 1.
  destruct (handler_log (hd_now x) (hd_request x) (hd_exc x)) as [[levelno r]|] eqn:E; [|by exists lines].
  destruct (ls_level st <=? levelno); [|by exists lines].
  destruct (handler_log_explains x levelno r Hx E) as [Hp He].
  exists (json_format as_json format_time (filter_record (hd_ctx x) r) :: lines). split; [|by constructor].
  cbn [app fmap list_fmap concat fst snd]. unfold emit at 1. rewrite Hf, Hi. cbn [format]. rewrite <-app_assoc. change ([10] ++ ?y) with (10 :: y).
  by rewrite split_nl_line, IHs.
Qed.

Lemma level_of_error name level : name ∉ [lit "CRITICAL"; lit "FATAL"] -> level_of name = inr level -> level <= 40.
Proof. unfold level_of. intros Hn. rewrite bool_decide_eq_false_2 by done. repeat case_bool_decide; intros [= <-]; lia. Qed.

Lemma setup_level level file environment opens st st' : ls_configured st = false -> level ∉ [lit "CRITICAL"; lit "FATAL"] ->
  setup_logging level file environment opens st = (SetUp, st') -> ls_level st' <= 40.
Proof.
  intros Hc Hl. unfold setup_logging. rewrite Hc. destruct (level_of level) as [e|n] eqn:E; [done|].
  destruct file as [|c path]; [|destruct (opens _); [|done]]; intros [= <-]; cbn [ls_level]; by eapply level_of_error.
Qed.

(** The framework's own error: answered with its detail whatever its status. *)
Definition framework_error (r : raised) : Prop := exists st detail hs, r = RHttp st detail hs.

Lemma masked_is_recorded st x : ls_level st <= 40 -> 500 <= rs_status (answer x) -> ~ framework_error (ct_raised (hd_exc x)) ->
  recorded st x = true /\ ~ duplicate (ct_raised (hd_exc x)) /\ exists code, rs_body (answer x) = masked_body code x /\ rs_headers (answer x) = [].
Proof.
  intros Hl. unfold recorded, answer, handler_log, handle_raised, framework_error, duplicate. assert (ls_level st <=? 40 = true) as Hl' by lia.
  destruct (ct_raised (hd_exc x)) as [cls m data hs|es|status dt hs|ss c| |].
  - destruct (project_class cls) as [[status code]|]; [destruct (500 <=? status) eqn:Es; cbn [rs_status]; [|intros; lia]|];
      intros _ _; split_and!; [done|by intros []|by eexists|done|by intros []|by eexists].
  - destruct (pick_validation_error [] es). cbn [rs_status]. intros; lia.
  - intros _ Hn. exfalso. apply Hn. by eexists _, _, _.
  - repeat case_bool_decide; cbn [plain_response rs_status]; intros; lia.
  - intros _ _. split_and!; [done|by intros []|by eexists].
  - intros _ _. split_and!; [done|by intros []|by eexists].
Qed.

Lemma expected_not_recorded st x : rs_status (answer x) < 500 -> recorded st x = true ->
  exists sqlstate constraint, ct_raised (hd_exc x) = RIntegrity sqlstate constraint.
Proof.
  unfold recorded, answer, handler_log, handle_raised.
  destruct (ct_raised (hd_exc x)) as [cls m data hs|es|status dt hs|ss c| |]; cbn [masked_500_response rs_status]; try done; try lia.
  - destruct (project_class cls) as [[status code]|]; [destruct (500 <=? status) eqn:Es; cbn [masked_500_response rs_status]; [lia|done]|cbn; lia].
  - intros _ _. by eexists _, _.
Qed.

(** C26. A masked error can be found by the id in its answer.  With logging set up for
    production at any level that keeps errors, each handler writes, for any
    sequence of handled errors, exactly one line for each recorded one, in order,
    whatever texts the exceptions carry; the line reads back to an event with the
    request id of the answer - also where the log context has lost it -, the
    request, and the exception's type, message and traceback.  Every 5xx of the
    application is recorded and answered with the masked body alone; below 500
    only the database's integrity errors are recorded. *)
Theorem masked_errors_traceable (level file environment : ustr) (opens : ustr -> bool) (st0 st : log_state) (h : handler) (xs : list handled) :
  ls_configured st0 = false -> setup_logging level file environment opens st0 = (SetUp, st) ->
  environment ∈ [lit "production"; lit "prod"] -> level ∉ [lit "CRITICAL"; lit "FATAL"] -> h ∈ ls_handlers st -> Forall texts_ok xs ->
  (exists lines, split_nl (error_log st h xs) = lines ++ [[]] /\ Forall2 explains (List.filter (recorded st) xs) lines) /\
  forall x, x ∈ xs ->
    (500 <= rs_status (answer x) -> ~ framework_error (ct_raised (hd_exc x)) ->
       recorded st x = true /\ ~ duplicate (ct_raised (hd_exc x)) /\
       exists code, rs_body (answer x) = masked_body code x /\ rs_headers (answer x) = []) /\
    (rs_status (answer x) < 500 -> recorded st x = true -> exists sqlstate constraint, ct_raised (hd_exc x) = RIntegrity sqlstate constraint).
Proof.
  intros Hc Hs He Hl Hh Hx. pose proof (setup_spec level file environment opens st0) as Hspec. rewrite Hs in Hspec.
  destruct Hspec as (_ & _ & Hspec). destruct (Hspec Hc) as [Hall _]. rewrite Forall_forall in Hall. destruct (Hall h Hh) as [Hf Hi].
  unfold build_formatter in Hf. rewrite bool_decide_eq_true_2 in Hf by done.
  split; [by apply error_log_lines|]. intros x _. split; [|apply expected_not_recorded].
  apply masked_is_recorded. by eapply setup_level.
Qed.
End ErrorLog.

(** ** Error frames ([_send_ws_error], [validation_error_detail]) *)

(** [json.dumps(ChatWsErrorPayload(code, message).model_dump(...))] *)
Definition ws_error_frame (code message : ustr) : ustr :=
  dumps (JObj [(lit "type", JStr (lit "error")); (lit "code", JStr code); (lit "message", JStr message)]).

Definition DETAIL_MAX : nat := 500.

(** The first of pydantic's errors, its location printed part by part. *)
Definition validation_error_detail (errors : list (list ustr * option ustr)) : ustr :=
  let '(loc, msg) := match errors with [] => ([], None) | e :: _ => e end in
  let loc := sep_by (lit ".") loc in
  let msg := default (lit "validation_error") msg in
  take DETAIL_MAX (if bool_decide (loc = []) then msg else loc ++ lit ": " ++ msg).

(** The frame of a reply; [errors] is what pydantic found, [message] the message
    of the project exception. *)
Definition reply_frame (errors : list (list ustr * option ustr)) (message : option ustr) (r : ws_reply) : ustr :=
  match r with
  | RateLimited retry_after =>
      ws_error_frame (lit "rate_limited") (text "메시지 전송이 너무 잦습니다. " ++ lit (pretty retry_after) ++ text "초 후 다시 시도하세요.")
  | ValidationError => ws_error_frame (lit "validation_error") (validation_error_detail errors)
  | PeerNotFound => ws_error_frame (lit "peer_not_found") (match message with Some (c :: m) => c :: m | _ => text "상대방을 찾을 수 없습니다." end)
  | DomainError code => ws_error_frame (code_value code) (default [] message)
  | InternalError => ws_error_frame (lit "internal_error") (text "일시적 오류입니다.")
  end.

(** [_ws_close_reason], of the status *)
Definition ws_close_reason (status_code : Z) : ustr :=
  if 500 <=? status_code then lit "Internal error"
  else default (lit "Policy violation") (dict_get status_code [(401, lit "Unauthorized"); (403, lit "Forbidden")]).

Definition reply_code (r : ws_reply) : ustr :=
  match r with
  | RateLimited _ => lit "rate_limited" | ValidationError => lit "validation_error" | PeerNotFound => lit "peer_not_found"
  | DomainError code => code_value code | InternalError => lit "internal_error"
  end.

Lemma printable_text s : printable s -> is_text s = true.
Proof. unfold printable, is_text. rewrite forallb_forall, Forall_forall. intros Hp c Hc%list_elem_of_In. apply Z.leb_le. specialize (Hp c Hc). lia. Qed.

Lemma is_text_app s t : is_text (s ++ t) = is_text s && is_text t.
Proof. apply forallb_app. Qed.

Lemma is_text_take n s : is_text s = true -> is_text (take n s) = true.
Proof. unfold is_text. rewrite !forallb_forall. intros Hs c Hc%list_elem_of_In. apply Hs, list_elem_of_In. by eapply subseteq_take. Qed.

Lemma sep_by_text sep l : is_text sep = true -> Forall (fun s => is_text s = true) l -> is_text (sep_by sep l) = true.
Proof.
  intros Hs. destruct 1 as [|x l Hx Hl]; cbn [sep_by]; [done|]. rewrite is_text_app, Hx. cbn.
  induction Hl as [|y l Hy _ IH]; cbn [flat_map]; [done|]. by rewrite !is_text_app, Hs, Hy, IH.
Qed.

(** Every frame is one JSON object of type [error] with the reply's code; the
    frame of an internal error is the same whatever the exception said, and only
    exceptions below 500 have their message sent. *)
Theorem error_frames_read_back (errors : list (list ustr * option ustr)) (message : option ustr) (r : ws_reply) :
  Forall (fun e => Forall (fun s => is_text s = true) e.1 /\ is_text (default [] e.2) = true) errors -> is_text (default [] message) = true ->
  exists m, loads (reply_frame errors message r) = Some (JObj [(lit "type", JStr (lit "error")); (lit "code", JStr (reply_code r)); (lit "message", JStr m)]) /\
    forall x, (forall st code, project_class x = Some (st, code) -> 500 <= st) ->
      reply_frame errors message (send_error_reply x) = ws_error_frame (lit "internal_error") (text "일시적 오류입니다.").
Proof.
  intros He Hm.
  assert (exists m, is_text m = true /\ reply_frame errors message r = ws_error_frame (reply_code r) m /\ is_text (reply_code r) = true) as (m & Ht & -> & Hc).
  { destruct r as [n| | |code|]; cbn [reply_frame reply_code]; eexists; (split; [|split; [reflexivity|]]); try (vm_compute; reflexivity); try done.
    - rewrite !is_text_app, andb_true_iff, andb_true_iff. split_and!; [vm_compute; reflexivity|apply printable_text, pretty_Z_printable|vm_compute; reflexivity].
    - destruct He as [|[loc msg] l [Hl Hmsg] _]; [vm_compute; reflexivity|]. apply is_text_take. cbn [fst snd] in *.
      assert (is_text (default (lit "validation_error") msg) = true) as Hd by (by destruct msg; [|vm_compute]).
      case_bool_decide; [done|]. rewrite !is_text_app, Hd, sep_by_text by (done || by vm_compute). by vm_compute.
    - destruct message as [[|c s]|]; [vm_compute; reflexivity|done|vm_compute; reflexivity].
    - by destruct code; vm_compute. }
  exists m. split.
  - apply loads_dumps. cbn [plain]. rewrite bool_decide_eq_true_2 by (apply (bool_decide_unpack _); vm_compute; exact I).
    cbn [forallb fst snd plain]. rewrite Ht, Hc. by vm_compute.
  - intros x Hx. assert (send_error_reply x = InternalError) as ->; [|done].
    destruct x; cbn [send_error_reply]; try (destruct (project_class _) as [[st code]|] eqn:E; [|done]; specialize (Hx st code eq_refl); by rewrite (proj2 (Z.leb_le 500 st))).
    exfalso. specialize (Hx _ _ eq_refl). lia.
Qed.

(** A 5xx of the framework itself is answered with its detail, and nothing is
    logged: masking covers the application's errors only. *)
Theorem framework_5xx_unmasked `{UnicodeDB} {obj : Type} (attrs : ustr -> obj) (rid : option ustr) (now : Z) (rq : request) (e : caught) (c : Z) (detail : ustr) :
  ct_raised e = RHttp 503 (Some (c :: detail)) [] ->
  json_get (lit "message") (rs_body (handle_raised rid (ct_raised e))) = Some (JStr (c :: detail)) /\ handler_log attrs now rq e = None.
Proof. intros E. unfold handler_log. by rewrite E. Qed.

(** ** Examples *)

Definition demo_posts : request := with_id (lit "01J") (demo_http (lit "/v1/posts")).
Definition demo_caught (r : raised) : caught :=
  {| ct_raised := r; ct_type := lit "KeyError"; ct_str := lit "secret" ++ [10] ++ lit "line"; ct_traceback := lit "Traceback" ++ [10] ++ lit "KeyError"; ct_operational := false |}.
(** An unforeseen error, whose handler runs without the context, and a missing post. *)
Definition demo_handled : list handled :=
  [{| hd_ctx := []; hd_now := 5; hd_request := demo_posts; hd_exc := demo_caught ROther |};
   {| hd_ctx := lit "01J"; hd_now := 6; hd_request := demo_posts; hd_exc := demo_caught (RProject PostNotFoundException None JNull []) |}].
Definition demo_log_state : log_state := {| ls_configured := false; ls_level := 30; ls_handlers := [] |}.
Definition demo_production : log_state := (setup_logging (lit "INFO") [] (lit "prod") (fun _ => true) demo_log_state).2.

Lemma masked_errors_traceable_witness :
  length (split_nl (error_log (H := ascii_db) JStr id demo_time id demo_production demo_json_handler demo_handled)) = 2%nat /\
  (exists x line, x ∈ demo_handled /\ explains (H := ascii_db) x line /\ rs_status (answer (H := ascii_db) x) = 500) /\
  handler_log (H := ascii_db) (obj := ustr) id 5 demo_posts (demo_caught (RProject PostNotFoundException None JNull [])) = None.
Proof.
  destruct (masked_errors_traceable (H := ascii_db) JStr id demo_time id (lit "INFO") [] (lit "prod") (fun _ => true) demo_log_state demo_production demo_json_handler demo_handled)
    as [(lines & Hs & Hl) _].
  - reflexivity.
  - vm_compute. reflexivity.
  - in_lit.
  - in_lit.
  - apply list_elem_of_singleton. vm_compute. reflexivity.
  - repeat (apply Forall_cons; split; [unfold texts_ok; split_and!; vm_compute; reflexivity || exact I|]). apply Forall_nil_2.
  - assert (List.filter (recorded (H := ascii_db) (obj := ustr) id demo_production) demo_handled = take 1 demo_handled) as Hf by (vm_compute; reflexivity).
    rewrite Hf in Hl. cbn [take demo_handled] in Hl. apply Forall2_cons_inv_l in Hl as (line & rest & He & Hr & ->). apply Forall2_nil_inv_l in Hr as ->.
    split; [rewrite Hs; reflexivity|]. split; [|vm_compute; reflexivity].
    eexists _, line. split; [left|]. split; [exact He|]. vm_compute. reflexivity.
Defined.
